(* ===== verification/_CoqProject ===== *)
-Q . S2P
Prelude.v
Base64.v
Blocks.v
Sha1.v
Md5.v
IkStack.v
XmlText.v
Sax.v
SaxSpec.v
SaxRefine.v
SaxTheorems.v
Dom.v
DomPrint.v
DomBuild.v
DomQuery.v
DomParser.v
DomRoundtrip.v
Jabber.v
JabberStanza.v
Filter.v
Stream.v
StreamTheorems.v
Invariants.v
JabberMain.v
JabberTheorems.v
Clock.v
Dst.v
Cron.v
CronTheorems.v
Runner.v
RunnerTheorems.v
CronMain.v
Double.v
Ntp.v
NtpTheorems.v
Asf.v
AsfTheorems.v
AsfFrames.v
Recorder.v
RecorderTheorems.v
RecorderFile.v
RecorderMain.v
Rtc.v
RtcTheorems.v
Firmware.v
Bus.v
Gpio.v
Dma.v
DmaTheorems.v
Nor.v
NorTheorems.v
NorTransfer.v
NorFlash.v
NorErrors.v
MtdPart.v
Irq.v
IrqTheorems.v
IrqDelivery.v
Pci.v
PciTheorems.v
