(* ===== verification/Prelude.v ===== *)
(** * A network camera's firmware: verification library

    The repository is the source of the firmware of a network camera: a Linux
    kernel, third-party programs, and a few programs of the vendor.  This library
    models the programs that carry logic of their own.  Under
    [src/source/source/src/sysapps/apps]: the log client, which sends the lines of
    the camera's log to a Jabber user ([cgi2/app/jabberlog], with the XML and XMPP
    library it is built from); the cron daemon, which also keeps daylight saving
    time, and the runner of its jobs ([cron]); the time client ([NTP]); the
    recorder, which copies the camera's stream into files on a server, and its
    companion that uploads a file ([cgi2/app/smbc_rec], [cgi2/app/smbc_put]).
    Of the kernel ([src/source/source/src/kernel/linux-2.4.19]) what was written for
    the board: the driver of its clock ([drivers/prolific/rtc.c]), the pins, the DMA
    controller, the interrupt controllers and the PCI bridge ([arch/arm/mach-pl1029], with the
    functions of [arch/arm/kernel] above them), and the driver of the flash with its
    partitions ([drivers/mtd]).  Beside them the tools that finish the firmware
    image ([src/source/source/FW/tool]).

    ** The parts and how they interact

    [jabber_main.c] logs in and forwards lines.  It connects through [stream.c],
    which sends through the socket functions of [io-posix.c] and feeds what it
    receives to the SAX parser [sax.c]; the hooks of the stream build a tree with
    [iks.c] from the events and hand every finished stanza to the client.  The
    client classifies it with [jabber.c], whose packets go through the rules of
    [filter.c], or answers it.  Authentication uses [md5.c], [sha.c] and
    [base64.c].  All strings and nodes live in the pools of [ikstack.c], and
    [utility.c] escapes and compares strings.  [dom.c] is the same library's tree
    builder for files.

    [cron.c] reads the crontab, starts the jobs of the minute and moves the clock
    when daylight saving time begins or ends; a job is the same program under
    another name, [cron-parent.c], which starts the command and mails its output.
    [fntp.c] asks a time server and corrects the clock by the same rules.
    [smbc_rec.c] reads the stream with the structures of [asfparser.h].

    In the kernel a partition of the flash ([mtdpart.c]) passes requests to the flash
    driver [pl_nor.c], which lets the DMA controller ([dma.c]) move the data between
    memory and the chip; [misc.c] reads the network address that was written to a
    partition.  [irq.c] calls the handlers that drivers have registered.

    ** Files

    - [Prelude]: machine integers, byte strings, memory as [exec] (a value or a
      [Fault]: an access outside its object or through a null pointer), linked
      nodes in a map from addresses, shared tactics.
    - [Base64], [Sha1], [Md5] (with [Blocks], messages cut into blocks):
      [base64.c], [sha.c], [md5.c]; equal to RFC 4648, FIPS 180 and RFC 1321,
      except where the code is not.
    - [IkStack]: the pools of [ikstack.c]; blocks and strings lie in their chunks and
      never overlap, and strings keep their contents.
    - [XmlText]: [utility.c]; escaping and its inverse.
    - [Sax]: [sax.c] byte by byte; [SaxSpec]: an abstract parser without buffers;
      [SaxRefine], [SaxTheorems]: the code refines it where it is defined (no tag with
      a multiple of twelve attributes, no cut inside a character of several bytes of
      a name or a value), so there how the input is cut into buffers does not matter.
    - [Dom]: the nodes of [iks.c] in a heap; [DomPrint]: the serialiser writes the
      text of the tree; [DomBuild], [DomQuery]: what the operations that build and
      search a tree do to it; [DomParser]: [dom.c];
      [DomRoundtrip]: a document printed and parsed again is the same tree, if no
      value of an attribute had to be escaped.
    - [Jabber], [JabberStanza]: [jabber.c]; ids, packets, stanzas, features.
    - [Filter]: [filter.c]; which hooks are called, and in which order.
    - [Stream], [StreamTheorems]: [stream.c] and [io-posix.c]; the answer to a
      DIGEST-MD5 challenge is that of RFC 2831, and the blocks fit.
    - [Invariants]: a property that a client's hooks keep is kept by parser,
      filter and stream.
    - [JabberMain], [JabberTheorems]: [jabber_main.c]; a line of the log is sent as
      one escaped message, the login loop ends unless a call in it does not return,
      and how its outcome is reported.
    - [Clock]: [localtime] and [mktime] of the C library, on a [time_t] of 32 bits that
      ends in January 2038; [Dst]: daylight saving time of [cron.c] against the
      calendar.
    - [Cron], [CronTheorems]: the crontab, the environment and the choice of the
      jobs of [cron.c]; a job is due at exactly the times its fields select.
    - [Runner], [RunnerTheorems]: [cron-parent.c]; how a command line is read, where
      the program is found, which descriptors each process has, and that the input
      is sent.
    - [CronMain]: the main loop of [cron.c] and the start of a job; a turn every
      minute while nothing unusual happens, the turns at which the clock is moved, and the way of a line from the
      crontab to the running job.
    - [Double]: floating point as far as [fntp.c] needs it; [Ntp], [NtpTheorems]:
      [fntp.c]; the correction is the offset of RFC 2030, to a microsecond.
    - [Asf], [AsfTheorems], [AsfFrames]: [asfparser.h] and the state machine of
      [smbc_rec.c]; it stays in its buffers and finds the frames of a stream.
    - [Recorder], [RecorderTheorems], [RecorderFile]: the copying of a stream; every
      recording ends, the file does not depend on how the stream arrived once its
      header came in one piece, and it is header, whole frames and index.  [RecorderMain]: the rest of [smbc_rec.c] and
      [smbc_put.c]: names, connections, the lock, and that all is closed.
    - [Rtc], [RtcTheorems]: the clock driver; its calendar, setting and reading, and
      the count of interrupts as a state machine, with what becomes of each.
    - [Firmware]: the tools of the image; its checksums.
    - [Bus]: registers and memory as bytes at addresses.  [Gpio]: [gio.c]; the
      registers of the pins, one of which is cleared by writing ones, refine a table of
      pins.
    - [Dma], [DmaTheorems]: the two [dma.c]; the table in memory describes the buffer,
      a buffer that is too long is not started, and a channel belongs to one driver.
    - [Nor]: [pl_nor.c] against a chip with laws; [NorTheorems]: the map of the
      sectors and erasing; [NorTransfer]: one transfer, register by register;
      [NorFlash]: what is written is read back, and the driver starts, with a chip
      that has the laws; [NorErrors]: where the driver does not do what it should.
    - [MtdPart]: [mtdpart.c], [memconfig.h] and [misc.c]; the partitions are those the
      table asks for, writing stays in its partition, and the network address is the one
      that was written.
    - [Irq], [IrqTheorems], [IrqDelivery]: the two [irq.c]; handlers are registered as
      in a table of lists and called one chain at a time, however interrupts are
      nested, and an interrupt of a line that is off is kept.
    - [Pci], [PciTheorems]: [pl_pci.c]; the registers of a device as a memory of
      bytes, with bits that are cleared by writing ones, and where the regions lie that
      devices are given.

    Interfaces between the parts are classes: [SaxClient] (the hooks of the
    parser), [StreamClient] (the function a stream calls) and [FilterClient] (the
    hooks of rules); the client of one part is an instance in the next.  [NorChip] is
    the flash chip behind its registers and [NorChipOk] what the driver relies on; a
    chip that has these laws is an instance in [NorFlash].

    ** Conventions

    Operations have the names of the C functions and are executable.  [int] and
    pointers have 32 bits and [char] is an unsigned byte, as on the camera's ARM;
    where a value can leave its range the wrap is written out, but for the lengths of
    texts in memory, which stay below 2^31.  A loop that never ends is a [Fault], too
    ([Stream]); no theorem that something ends counts a [Fault] as an end.  Allocations take
    their outcome from a list of booleans kept in the state ([hmem], [mem],
    [fmem]); when it is empty they succeed.  Socket calls, [select], [read],
    [sleep], [time] and [rand] are scripts of results, as are the answers of the
    Samba client and the configuration.  What the programs hand to the system
    (texts sent, descriptors closed, log entries) is recorded in the state or
    returned.

    Loops that are not structural take fuel, and running out of it is a [Fault]
    or [None]; the theorems show that the fuel given is enough: [chain_fuel] and
    [rule_fuel] (the number of nodes or rules plus one, since a list visits each
    once), [walk_fuel] (two visits of every node), four turns for every byte of
    the parser, [turns] (one for each result of the socket and thirty more), the
    length of the input for the parsers of [Cron] and [Runner], the size of the
    buffer plus one for a turn of the recorder and the size of the file for its
    turns, 140 years for the calendars (signed and unsigned seconds of 32 bits), a turn for every piece of a transfer and for
    every sector of the map, and for interrupts one more than the script of what
    happens during the handlers has entries.  Loops that wait for the world ([turns]
    of the daemon, readers of the clock, the input of a job) run over the script
    and give [None] where it ends.

    ** Not modelled

    TLS in [stream.c] (not compiled); the printing of [on_log]; a failing [execve];
    parts of the clock driver that are not configured; the entry that
    [ntp_setcron.c] writes, which is all library calls; the caches, which the drivers
    flush before a transfer; the texts of [/proc] about interrupts; the older flash
    driver [pl1029_nor.c], which is not compiled; the drivers that only program
    hardware, as those of the serial line and the keys; the rest of
    the kernel and the third-party programs; and what the
    repository holds as object files only, the boot loader, the CGI programs and
    the libraries for configuration, schedules and logging, whose functions are
    parameters or records here. *)

From stdpp Require Export prelude gmap strings.
From Stdlib Require Export ZArith Lia.

Local Open Scope Z_scope.

(** ** Machine integers

    The firmware is built for a 32-bit ARM: [int], [long], [size_t] and
    pointers have 32 bits, [char] is an unsigned byte.  A [w]-bit value is a
    [Z]; every operation that can leave the range is followed by the wrap the
    hardware performs. *)

Definition u8 (x : Z) : Z := x mod 2 ^ 8.
Definition u32 (x : Z) : Z := x mod 2 ^ 32.

(** Two's complement reading of a 32-bit value. *)
Definition s32 (x : Z) : Z :=
  let y := u32 x in if y <? 2 ^ 31 then y else y - 2 ^ 32.

Definition is_byte (b : Z) : Prop := 0 <= b < 256.
Definition is_u32 (x : Z) : Prop := 0 <= x < 2 ^ 32.

Definition add32 (x y : Z) : Z := u32 (x + y).
Definition shl32 (x n : Z) : Z := u32 (Z.shiftl x n).
Definition not32 (x : Z) : Z := u32 (Z.lnot x).

Declare Scope c_scope.
Delimit Scope c_scope with c.
Infix "+!" := add32 (at level 50, left associativity, only parsing) : c_scope.
Infix "<<!" := shl32 (at level 38, left associativity, only parsing) : c_scope.
Infix ">>!" := Z.shiftr (at level 38, left associativity, only parsing) : c_scope.
Infix "&!" := Z.land (at level 52, left associativity, only parsing) : c_scope.
Infix "^!" := Z.lxor (at level 53, left associativity, only parsing) : c_scope.
Infix "|!" := Z.lor (at level 54, left associativity, only parsing) : c_scope.

(** Linear arithmetic with division and remainder by constants. *)
Ltac zdm := Z.div_mod_to_equations; lia.

(** A value in range is its own two's complement reading. *)
Lemma s32_id x : - 2 ^ 31 <= x < 2 ^ 31 → s32 x = x.
Proof.
  intros. unfold s32, u32. destruct (Z_lt_dec x 0).
  - replace (x mod 2 ^ 32) with (x + 2 ^ 32) by zdm. rewrite (proj2 (Z.ltb_ge _ _)) by lia. lia.
  - rewrite Z.mod_small, (proj2 (Z.ltb_lt _ _)) by lia. done.
Qed.

(** Disjoint bit fields: [|] is [+]. *)
Lemma lor_add (x y k : Z) : 0 <= k → (2 ^ k | x) → 0 <= y < 2 ^ k → Z.lor x y = x + y.
Proof.
  intros Hk [q ->] Hy. symmetry. apply Z.add_nocarry_lor, Z.bits_inj'. intros i Hi.
  rewrite Z.land_spec, Z.bits_0.
  destruct (decide (i < k)); [by rewrite Z.mul_pow2_bits_low|].
  rewrite <-(Z.mod_small y (2 ^ k)), Z.mod_pow2_bits_high by lia. apply andb_false_r.
Qed.

Lemma lor_add_r (x y k : Z) : 0 <= k → 0 <= x < 2 ^ k → (2 ^ k | y) → Z.lor x y = x + y.
Proof. intros. rewrite Z.lor_comm, (lor_add y x k); [lia|done..]. Qed.

(** C's truth value of a comparison, as it is used in arithmetic. *)
Definition b2z (b : bool) : Z := if b then 1 else 0.

(** ** Byte strings

    A buffer is a list of bytes.  A NUL-terminated string is the list of its
    bytes without the terminator; [c_str] reads it out of a buffer. *)

Definition bs (s : string) : list Z :=
  map (λ c, Z.of_N (Ascii.N_of_ascii c)) (String.list_ascii_of_string s).

Fixpoint c_str (m : list Z) : list Z :=
  match m with
  | [] => []
  | b :: m' => if b =? 0 then [] else b :: c_str m'
  end.

Definition strlen (s : list Z) : Z := Z.of_nat (length s).

Lemma strlen_app (a b : list Z) : strlen (a ++ b) = strlen a + strlen b.
Proof. unfold strlen. rewrite length_app. lia. Qed.

(** Linear arithmetic about lengths. *)
Ltac slen :=
  unfold strlen in *; repeat rewrite length_app in *; cbn [length] in *; lia.

(** [strcmp] as the code uses it: only the test against zero matters. *)
Fixpoint strcmp (a b : list Z) : Z :=
  match a, b with
  | [], [] => 0
  | [], _ :: _ => -1
  | _ :: _, [] => 1
  | x :: a', y :: b' => if x =? y then strcmp a' b' else if x <? y then -1 else 1
  end.

(** The digits that the conversions [%x] and [%02x] of [sprintf] print. *)
Definition hex_digit (x : Z) : Z := if x <? 10 then 48 + x else 87 + x.
Definition hex_byte (b : Z) : list Z := [hex_digit (b / 16); hex_digit (b mod 16)].

Definition is_cchar (b : Z) : Prop := 0 < b < 256.
Definition is_cstr (s : list Z) : Prop := Forall is_cchar s.

(** ** Memory faults

    The result of a piece of C code is a value or [Fault]: an access outside
    the object it is made through, or through a null pointer.  Every load and
    store of the models goes through the checked accessors below, so a theorem
    that a function is [Done] is a memory-safety theorem. *)

Inductive exec (A : Type) : Type :=
| Done (a : A)
| Fault.
Arguments Done {A} a.
Arguments Fault {A}.

#[export] Instance exec_ret : MRet exec := λ A a, Done a.
#[export] Instance exec_bind : MBind exec :=
  λ A B f m, match m with Done a => f a | Fault => Fault end.

Definition load (m : list Z) (i : Z) : exec Z :=
  if (0 <=? i) && (i <? Z.of_nat (length m))
  then match m !! Z.to_nat i with Some b => Done b | None => Fault end
  else Fault.

Definition store (m : list Z) (i : Z) (v : Z) : exec (list Z) :=
  if (0 <=? i) && (i <? Z.of_nat (length m))
  then Done (<[Z.to_nat i := v]> m)
  else Fault.

(** A write cursor that only moves forward over a fresh buffer of [cap]
    bytes: the buffer is the list of the bytes written so far. *)
Definition emit (cap : Z) (out : list Z) (v : Z) : exec (list Z) :=
  if Z.of_nat (length out) <? cap then Done (out ++ [v]) else Fault.

(** [memcpy (dest, src, n)] at a cursor over a block of [cap] bytes. *)
Definition append (cap : Z) (out src : list Z) : exec (list Z) :=
  if strlen out + strlen src <=? cap then Done (out ++ src) else Fault.

Lemma append_done cap out src : strlen out + strlen src <= cap → append cap out src = Done (out ++ src).
Proof. intros H. unfold append. by rewrite (proj2 (Z.leb_le _ _)). Qed.

(** [memcpy] into and out of a buffer, with the bounds of the object. *)
Definition memcpy (m : list Z) (off : Z) (src : list Z) : exec (list Z) :=
  if (0 <=? off) && (off + Z.of_nat (length src) <=? Z.of_nat (length m))
  then Done (take (Z.to_nat off) m ++ src ++ drop (Z.to_nat off + length src) m)
  else Fault.

Definition mread (m : list Z) (off n : Z) : exec (list Z) :=
  if (0 <=? off) && (0 <=? n) && (off + n <=? Z.of_nat (length m))
  then Done (take (Z.to_nat n) (drop (Z.to_nat off) m))
  else Fault.

Lemma memcpy_done m off src :
  0 <= off → off + strlen src <= strlen m →
  memcpy m off src = Done (take (Z.to_nat off) m ++ src ++ drop (Z.to_nat off + length src) m).
Proof.
  unfold strlen, memcpy. intros H1 H2.
  by rewrite (proj2 (Z.leb_le _ _)), (proj2 (Z.leb_le _ _)) by lia.
Qed.

Lemma mread_done m off n :
  0 <= off → 0 <= n → off + n <= strlen m →
  mread m off n = Done (take (Z.to_nat n) (drop (Z.to_nat off) m)).
Proof.
  unfold strlen, mread. intros H1 H2 H3. by rewrite !(proj2 (Z.leb_le _ _)) by lia.
Qed.

(** What a copy leaves in place: its own bytes, and every range beside it. *)
Lemma take_drop_copy_same (m src : list Z) (o : nat) :
  (o <= length m)%nat →
  take (length src) (drop o (take o m ++ src ++ drop (o + length src) m)) = src.
Proof.
  intros. rewrite drop_app_length' by (rewrite length_take; lia). by rewrite take_app_length.
Qed.

Lemma take_drop_copy_other (m src : list Z) (o i n : nat) :
  (o + length src <= length m)%nat → (i + n <= o ∨ o + length src <= i)%nat →
  take n (drop i (take o m ++ src ++ drop (o + length src) m)) = take n (drop i m).
Proof.
  intros Ho [Hi|Hi].
  - rewrite drop_app_le by (rewrite length_take; lia).
    rewrite take_app_le by (rewrite length_drop, length_take; lia).
    rewrite !take_drop_commute, take_take. do 2 f_equal. lia.
  - rewrite app_assoc, drop_app_ge by (rewrite length_app, length_take; lia).
    rewrite drop_drop, length_app, length_take. do 2 f_equal. lia.
Qed.

Lemma length_copy (m src : list Z) (o : nat) :
  (o + length src <= length m)%nat →
  length (take o m ++ src ++ drop (o + length src) m) = length m.
Proof. intros. rewrite !length_app, length_take, length_drop. lia. Qed.

(** A string read where it is stored. *)
Lemma c_str_terminated t rest : is_cstr t → c_str (t ++ 0 :: rest) = t.
Proof.
  induction 1 as [|b t Hb Ht IH]; [done|]. cbn. unfold is_cchar in Hb.
  destruct (Z.eqb_spec b 0); [lia|]. by rewrite IH.
Qed.

Lemma load_done (m : list Z) (i : nat) (b : Z) :
  m !! i = Some b → load m (Z.of_nat i) = Done b.
Proof.
  intros H. unfold load. pose proof (lookup_lt_Some _ _ _ H).
  rewrite (proj2 (Z.leb_le _ _)), (proj2 (Z.ltb_lt _ _)) by lia. simpl.
  by rewrite Nat2Z.id, H.
Qed.

(** One step of a run: the head computation is done with a known value. *)
Lemma exec_step {A B} (m : exec A) (f : A → exec B) (a : A) (r : exec B) :
  m = Done a → f a = r → (m ≫= f) = r.
Proof. by intros -> <-. Qed.

Lemma load_at (m : list Z) (i : Z) (n : nat) (b : Z) :
  i = Z.of_nat n → m !! n = Some b → load m i = Done b.
Proof. intros ->. apply load_done. Qed.

Lemma load_app (pre suf : list Z) (b i : Z) :
  i = Z.of_nat (length pre) → load (pre ++ b :: suf) i = Done b.
Proof. intros ->. apply load_done. by apply list_lookup_middle. Qed.

Lemma load_lookup (m : list Z) (i : Z) :
  0 <= i < Z.of_nat (length m) → ∃ b, m !! Z.to_nat i = Some b ∧ load m i = Done b.
Proof.
  intros H. destruct (lookup_lt_is_Some_2 m (Z.to_nat i)) as [b Hb]; [lia|].
  exists b. split; [done|]. rewrite <-(Z2Nat.id i) by lia. by apply load_done.
Qed.

Lemma store_done (m : list Z) (i : Z) (v : Z) :
  0 <= i < Z.of_nat (length m) → store m i v = Done (<[Z.to_nat i := v]> m).
Proof.
  intros H. unfold store.
  by rewrite (proj2 (Z.leb_le _ _)), (proj2 (Z.ltb_lt _ _)) by lia.
Qed.

Lemma store_app (pre suf : list Z) (b v i : Z) :
  i = Z.of_nat (length pre) → store (pre ++ b :: suf) i v = Done (pre ++ v :: suf).
Proof.
  intros ->. rewrite store_done by (rewrite length_app; simpl; lia).
  by rewrite Nat2Z.id, insert_app_r_alt, Nat.sub_diag by lia.
Qed.

(** A string and its terminator, written one after the other. *)
Lemma memcpy_store (m b : list Z) (off v : Z) {B} (f : list Z → exec B) :
  0 <= off → off + strlen b + 1 <= strlen m →
  (d ← memcpy m off b; d ← store d (off + strlen b) v; f d)
  = f (take (Z.to_nat off) m ++ (b ++ [v]) ++ drop (Z.to_nat off + length (b ++ [v])) m).
Proof.
  intros H1 H2. unfold strlen in *. eapply exec_step; [apply memcpy_done; unfold strlen; lia|].
  destruct (lookup_lt_is_Some_2 m (Z.to_nat off + length b)) as [x Hx]; [lia|].
  rewrite (drop_S _ _ _ Hx), app_assoc. eapply exec_step.
  { apply store_app. rewrite length_app, length_take. lia. }
  rewrite <-!app_assoc. cbn [app]. rewrite length_app. cbn [length].
  by rewrite Nat.add_1_r, Nat.add_succ_r.
Qed.

Lemma emit_done (cap : Z) (out : list Z) (v : Z) :
  Z.of_nat (length out) < cap → emit cap out v = Done (out ++ [v]).
Proof. intros H. unfold emit. by rewrite (proj2 (Z.ltb_lt _ _)). Qed.

(** ** Finite checks

    A property of every byte (or of every pair of bytes) is decided by
    evaluating it on all of them. *)

Fixpoint all_below (n : nat) (p : Z -> bool) : bool :=
  match n with
  | O => true
  | S n' => p (Z.of_nat n') && all_below n' p
  end.

Lemma all_below_spec (n : nat) (p : Z -> bool) :
  all_below n p = true → ∀ x, 0 <= x < Z.of_nat n → p x = true.
Proof.
  induction n as [|n IH]; simpl; intros H x Hx; [lia|].
  apply andb_true_iff in H as [H1 H2].
  destruct (decide (x = Z.of_nat n)) as [->|]; [done|]. apply IH; [done|lia].
Qed.

Lemma all_bytes_spec (p : Z -> bool) :
  all_below 256 p = true → ∀ x, is_byte x → p x = true.
Proof. intros H x Hx. eapply all_below_spec; [exact H|unfold is_byte in Hx; lia]. Qed.

Lemma all_byte_pairs_spec (p : Z -> Z -> bool) :
  all_below 256 (λ x, all_below 256 (p x)) = true →
  ∀ x y, is_byte x → is_byte y → p x y = true.
Proof.
  intros H x y Hx Hy.
  pose proof (all_bytes_spec (λ x, all_below 256 (p x)) H x Hx) as H'.
  by apply (all_bytes_spec (p x) H').
Qed.

(** ** Permutations

    [perm] proves that two concatenations have the same pieces: it takes the
    pieces of the left side one by one out of the right side. *)

Lemma pull_here {A} (a B : list A) : a ++ B ≡ₚ a ++ B.
Proof. done. Qed.

Lemma pull_last {A} (a : list A) : a ≡ₚ a ++ [].
Proof. by rewrite app_nil_r. Qed.

Lemma pull_there {A} (a b B B' : list A) : B ≡ₚ a ++ B' → b ++ B ≡ₚ a ++ (b ++ B').
Proof. intros ->. rewrite !app_assoc. by rewrite (Permutation_app_comm b a). Qed.

Lemma pull_step {A} (a L R R' : list A) : R ≡ₚ a ++ R' → L ≡ₚ R' → a ++ L ≡ₚ R.
Proof. by intros -> ->. Qed.

Ltac pull := first [simple apply pull_here | simple apply pull_last | simple apply pull_there; pull].

Ltac cons_to_app :=
  repeat match goal with
  | |- context [?x :: ?L] => lazymatch L with [] => fail | _ => change (x :: L) with ([x] ++ L) end
  end.

Ltac perm :=
  cons_to_app; rewrite <-?app_assoc, ?app_nil_r, ?app_nil_l;
  repeat first [reflexivity | simple eapply pull_step; [pull|]]; rewrite ?app_nil_r; try reflexivity.

(** ** Comparing strings *)

Lemma strcmp_spec (a b : list Z) : strcmp a b = 0 ↔ a = b.
Proof.
  revert b. induction a as [|x a IH]; intros [|y b]; cbn; try (split; (done || lia)).
  destruct (Z.eqb_spec x y) as [->|]; [rewrite IH; split; congruence|].
  destruct (x <? y); split; (lia || congruence).
Qed.

Lemma strcmp_test (a b : list Z) : (strcmp a b =? 0) = bool_decide (a = b).
Proof.
  destruct (Z.eqb_spec (strcmp a b) 0) as [E|E]; rewrite strcmp_spec in E; symmetry.
  - by apply bool_decide_eq_true.
  - by apply bool_decide_eq_false.
Qed.

(** ** Linked nodes

    Doubly linked lists live in a map from addresses to nodes.  [cells m L] says
    that the map has the nodes of [L], at different addresses; an operation is
    described by what it does to such a list. *)

(** The first node of a list followed by [nxt], and the last of one that
    follows [prv]. *)
Definition first_of (ids : list nat) (nxt : option nat) : option nat := match ids with [] => nxt | y :: _ => Some y end.
Definition last_of (prv : option nat) (ids : list nat) : option nat := fold_left (λ _ y, Some y) ids prv.

Lemma last_of_snoc prv ids y : last_of prv (ids ++ [y]) = Some y.
Proof. unfold last_of. by rewrite fold_left_app. Qed.

Lemma first_of_app ids1 ids2 nxt : first_of (ids1 ++ ids2) nxt = first_of ids1 (first_of ids2 nxt).
Proof. by destruct ids1. Qed.

Definition cells {A} (m : gmap nat A) (L : list (nat * A)) : Prop :=
  NoDup L.*1 ∧ ∀ y n, (y, n) ∈ L → m !! y = Some n.

#[export] Instance cells_perm {A} (m : gmap nat A) : Proper ((≡ₚ) ==> iff) (cells m).
Proof.
  enough (H : ∀ L L', L ≡ₚ L' → cells m L → cells m L') by (intros L L' E; split; apply H; [done|by symmetry]).
  intros L L' E [Hd Hn]. split; [by rewrite <-E|]. intros y n Hy. apply Hn. by rewrite E.
Qed.

Lemma cells_lookup {A} (m : gmap nat A) L x n L' : cells m (L ++ (x, n) :: L') → m !! x = Some n.
Proof. intros [_ H]. apply H, elem_of_app. right. by left. Qed.

Lemma cells_fresh {A} (m : gmap nat A) L x n L' y k :
  cells m (L ++ (x, n) :: L') → (y, k) ∈ L ++ L' → x ≠ y.
Proof.
  rewrite <-Permutation_middle. intros [Hd _] Hy ->. cbn in Hd. apply NoDup_cons in Hd as [Hx _].
  apply Hx, list_elem_of_fmap. by exists (y, k).
Qed.

Lemma cells_insert {A} (m : gmap nat A) L x n n' L' :
  cells m (L ++ (x, n) :: L') → cells (<[x := n']> m) (L ++ (x, n') :: L').
Proof.
  intros H. assert (E : (L ++ (x, n') :: L').*1 = (L ++ (x, n) :: L').*1) by (by rewrite !fmap_app).
  split; [rewrite E; apply H|]. intros y k Hy. rewrite <-Permutation_middle in Hy.
  apply elem_of_cons in Hy as [[= -> ->]|Hy]; [by rewrite lookup_insert_eq|].
  rewrite lookup_insert_ne by (by eapply cells_fresh). apply H. rewrite <-Permutation_middle. by right.
Qed.

Lemma cells_delete {A} (m : gmap nat A) L x n L' : cells m (L ++ (x, n) :: L') → cells (delete x m) (L ++ L').
Proof.
  intros H. assert (Hp := H). rewrite <-Permutation_middle in Hp. destruct Hp as [Hd Hn].
  cbn in Hd. apply NoDup_cons in Hd as [_ Hd]. split; [done|]. intros y k Hy.
  rewrite lookup_delete_ne by (by eapply cells_fresh). apply Hn. by right.
Qed.

Lemma cells_new {A} (m : gmap nat A) x n L : m !! x = None → cells m L → cells (<[x := n]> m) ((x, n) :: L).
Proof.
  intros Hx [Hd Hn]. assert (Hfr : ∀ k, (x, k) ∉ L) by (intros k Hk; apply Hn in Hk; congruence). split.
  - cbn. apply NoDup_cons. split; [|done]. rewrite list_elem_of_fmap. intros ([y k] & E & Hin). cbn in E. subst y.
    by apply (Hfr k).
  - intros y k Hy. apply elem_of_cons in Hy as [[= -> ->]|Hy]; [by rewrite lookup_insert_eq|].
    rewrite lookup_insert_ne; [by apply Hn|]. intros <-. by apply (Hfr k).
Qed.

Lemma cells_app {A} (m : gmap nat A) L L' : cells m (L ++ L') → cells m L ∧ cells m L'.
Proof.
  intros [Hd Hn]. rewrite fmap_app in Hd. apply NoDup_app in Hd as (? & _ & ?).
  split; (split; [done|]); intros y n Hy; apply Hn, elem_of_app; auto.
Qed.

(** No list of nodes is longer than the map. *)
Lemma cells_length {A} (m : gmap nat A) L : cells m L → (length L <= size m)%nat.
Proof.
  intros [Hd Hn]. rewrite <-(length_fmap fst), <-(size_list_to_set (C := gset nat)), <-size_dom by done.
  apply subseteq_size. intros y. rewrite elem_of_list_to_set, list_elem_of_fmap. intros ([z n] & -> & Hin).
  apply elem_of_dom. exists n. by apply Hn.
Qed.
