(* ===== verification/Base64.v ===== *)
(** * Base64 coding of SASL payloads

    [src/sysapps/apps/cgi2/app/jabberlog/base64.c]: [iks_base64_decode] and
    [iks_base64_encode], with every load and store checked.  The theorems show
    that the encoder stays in the block it allocates, that the decoder stays
    in its own, and that decoding an encoded buffer gives the buffer back. *)

From S2P Require Import Prelude.

Local Open Scope Z_scope.

Definition base64_charset : list Z :=
  bs "ABCDEFGHIJKLMNOPQRSTUVWXYZabcdefghijklmnopqrstuvwxyz0123456789+/".

(** [strchr (base64_charset, c) - base64_charset], and 0 when [strchr] finds
    nothing: the code then points [foo] at the start of the table. *)
Fixpoint strchr_index (s : list Z) (c : Z) (i : Z) : Z :=
  match s with
  | [] => 0
  | x :: s' => if x =? c then i else strchr_index s' c (i + 1)
  end.

(** [*res |= v] on a byte. *)
Definition or_store (m : list Z) (res v : Z) : exec (list Z) :=
  b ← load m res; store m res (u8 (Z.lor b v)).

Fixpoint decode_loop (m : list Z) (res index : Z) (buf : list Z) : exec (list Z * Z) :=
  match buf with
  | [] => Done (m, res)
  | c :: buf' =>
      let val := u8 (strchr_index base64_charset c 0) in
      let index' := (index + 1) mod 4 in
      match index with
      | 0 =>
          m1 ← or_store m res (Z.shiftl val 2);
          decode_loop m1 res index' buf'
      | 1 =>
          m1 ← or_store m res (Z.shiftr val 4);
          m2 ← or_store m1 (res + 1) (Z.shiftl val 4);
          decode_loop m2 (res + 1) index' buf'
      | 2 =>
          m1 ← or_store m res (Z.shiftr val 2);
          m2 ← or_store m1 (res + 1) (Z.shiftl val 6);
          decode_loop m2 (res + 1) index' buf'
      | 3 =>
          m1 ← or_store m res val;
          decode_loop m1 (res + 1) index' buf'
      | _ => decode_loop m res index' buf'
      end
  end.

(** [iks_base64_decode]: [None] for a null argument.  [mem_ok] is the answer of
    [iks_malloc]; [memset] runs before the code looks at it. *)
Definition iks_base64_decode (mem_ok : bool) (buf : option (list Z)) : exec (option (list Z)) :=
  match buf with
  | None => Done None
  | Some s =>
      let index := u32 (u32 (strlen s * 6) / 8 + 1) in
      if negb mem_ok then Fault else
      let m0 := replicate (Z.to_nat index) 0 in
      '(m, res) ← decode_loop m0 0 0 s;
      m' ← store m res 0;
      Done (Some m')
  end.

(** One turn of the encoder's loop over whole groups of three bytes. *)
Definition encode_group (cap : Z) (buf : list Z) (p : Z) (out : list Z) : exec (list Z) :=
  b0 ← load buf p;
  c0 ← load base64_charset (Z.shiftr b0 2);
  out ← emit cap out c0;
  b1 ← load buf (p + 1);
  c1 ← load base64_charset (Z.lor (Z.shiftl (Z.land b0 3) 4) (Z.shiftr b1 4));
  out ← emit cap out c1;
  b2 ← load buf (p + 2);
  c2 ← load base64_charset (Z.lor (Z.shiftl (Z.land b1 15) 2) (Z.shiftr b2 6));
  out ← emit cap out c2;
  c3 ← load base64_charset (Z.land b2 63);
  emit cap out c3.

Fixpoint encode_groups (k : nat) (cap : Z) (buf : list Z) (p : Z) (out : list Z) : exec (list Z) :=
  match k with
  | O => Done out
  | S k' =>
      out ← encode_group cap buf p out;
      encode_groups k' cap buf (p + 3) out
  end.

(** The [switch (len % 3)] on the bytes that are left. *)
Definition encode_tail (rest : Z) (cap : Z) (buf : list Z) (p : Z) (out : list Z) : exec (list Z) :=
  match rest with
  | 2 =>
      b0 ← load buf p;
      c0 ← load base64_charset (Z.shiftr b0 2);
      out ← emit cap out c0;
      b1 ← load buf (p + 1);
      c1 ← load base64_charset (Z.lor (Z.shiftl (Z.land b0 3) 4) (Z.shiftr b1 4));
      out ← emit cap out c1;
      c2 ← load base64_charset (Z.shiftl (Z.land b1 15) 2);
      emit cap out c2
  | 1 =>
      b0 ← load buf p;
      c0 ← load base64_charset (Z.shiftr b0 2);
      out ← emit cap out c0;
      c1 ← load base64_charset (Z.shiftl (Z.land b0 3) 4);
      emit cap out c1
  | _ => Done out
  end.

(** [iks_base64_encode (buf, len)]: [buf] is the memory the pointer reads,
    whose [c_str] prefix is the string when [len] is not positive.  The result
    is the block at [save], terminator included.  The result of [iks_malloc]
    is written to unchecked. *)
Definition iks_base64_encode (mem_ok : bool) (buf : list Z) (len : Z) : exec (list Z) :=
  let len := if 0 <? len then len else strlen (c_str buf) in
  let cap := Z.quot (s32 (len * 8)) 6 + 4 in
  if negb mem_ok then Fault else
  out ← encode_groups (Z.to_nat (len / 3)) cap buf 0 [];
  out ← encode_tail (len mod 3) cap buf (3 * (len / 3)) out;
  out ← emit cap out 61;
  out ← emit cap out 61;
  emit cap out 0.

Example encode_man : iks_base64_encode true (bs "Man" ++ [0]) 0 = Done (bs "TWFu==" ++ [0]).
Proof. reflexivity. Qed.
Example decode_man : iks_base64_decode true (Some (bs "TWFu==")) = Done (Some (bs "Man" ++ [0;0])).
Proof. reflexivity. Qed.

(** ** Reference definition *)

Definition sextet (v : Z) : Z := base64_charset !!! Z.to_nat v.

Fixpoint b64_ref (l : list Z) : list Z :=
  match l with
  | b0 :: b1 :: b2 :: r =>
      sextet (b0 / 4) :: sextet ((b0 mod 4) * 16 + b1 / 16)
        :: sextet ((b1 mod 16) * 4 + b2 / 64) :: sextet (b2 mod 64) :: b64_ref r
  | [b0; b1] =>
      [sextet (b0 / 4); sextet ((b0 mod 4) * 16 + b1 / 16); sextet ((b1 mod 16) * 4)]
  | [b0] => [sextet (b0 / 4); sextet ((b0 mod 4) * 16)]
  | [] => []
  end.

Lemma list_ind3 (P : list Z → Prop) :
  P [] → (∀ a, P [a]) → (∀ a b, P [a; b]) →
  (∀ a b c l, P l → P (a :: b :: c :: l)) → ∀ l, P l.
Proof.
  intros H0 H1 H2 H3.
  enough (∀ n l, (length l <= n)%nat → P l) as H by (intros l; by apply (H (length l))).
  induction n as [|n IH]; intros [|a [|b [|c l]]] Hl; simpl in Hl; auto; try lia.
  apply H3, IH. lia.
Qed.

(** The bit manipulations of the encoder, checked on every pair of bytes. *)
Record enc_arith (a b : Z) : Prop := {
  ea_hi : Z.shiftr a 2 = a / 4;
  ea_12 : Z.lor (Z.shiftl (Z.land a 3) 4) (Z.shiftr b 4) = (a mod 4) * 16 + b / 16;
  ea_23 : Z.lor (Z.shiftl (Z.land a 15) 2) (Z.shiftr b 6) = (a mod 16) * 4 + b / 64;
  ea_lo : Z.land a 63 = a mod 64;
  ea_2 : Z.shiftl (Z.land a 15) 2 = (a mod 16) * 4;
  ea_1 : Z.shiftl (Z.land a 3) 4 = (a mod 4) * 16 }.

Lemma enc_pair a b : is_byte a → is_byte b → enc_arith a b.
Proof.
  intros Ha Hb.
  assert (Z.shiftr b 4 = b / 16 ∧ Z.shiftr b 6 = b / 64) as [E4 E6]
    by (rewrite !Z.shiftr_div_pow2 by lia; done).
  assert (L : ∀ k n, 0 <= k → 0 <= n → Z.shiftl (Z.land a (Z.ones k)) n = (a mod 2 ^ k) * 2 ^ n).
  { intros. by rewrite Z.land_ones, Z.shiftl_mul_pow2. }
  pose proof (L 2 4 ltac:(lia) ltac:(lia)) as L2. pose proof (L 4 2 ltac:(lia) ltac:(lia)) as L4.
  pose proof (Z.land_ones a 6 ltac:(lia)) as L6.
  change (Z.ones 2) with 3 in L2. change (Z.ones 4) with 15 in L4. change (Z.ones 6) with 63 in L6.
  change (2 ^ 2) with 4 in *. change (2 ^ 4) with 16 in *. change (2 ^ 6) with 64 in *.
  unfold is_byte in *.
  split; rewrite ?L2, ?L4, ?E4, ?E6; try done.
  - rewrite Z.shiftr_div_pow2 by lia. done.
  - apply lor_add with (k := 4); [lia|exists (a mod 4); lia|]. zdm.
  - apply lor_add with (k := 2); [lia|exists (a mod 16); lia|]. zdm.
Qed.

Lemma charset_load v : 0 <= v < 64 → load base64_charset v = Done (sextet v).
Proof.
  intros H. destruct (load_lookup base64_charset v) as (c & Hc & ->); [done|].
  unfold sextet. by rewrite (list_lookup_total_correct _ _ _ Hc).
Qed.

Ltac xload := eapply exec_step;
  [first [match goal with
          | H : ?m !! ?k = Some ?b |- load ?m ?i = Done _ =>
              apply (load_at m i k b); [lia|exact H]
          end
         | apply charset_load; zdm]|cbv beta].
Ltac xemit := eapply exec_step; [apply emit_done; rewrite ?length_app; simpl; lia|cbv beta].

Lemma encode_group_spec cap buf n b0 b1 b2 out :
  is_byte b0 → is_byte b1 → is_byte b2 →
  buf !! n = Some b0 → buf !! (n + 1)%nat = Some b1 → buf !! (n + 2)%nat = Some b2 →
  Z.of_nat (length out) + 4 <= cap →
  encode_group cap buf (Z.of_nat n) out
  = Done (out ++ [sextet (b0 / 4); sextet ((b0 mod 4) * 16 + b1 / 16);
                  sextet ((b1 mod 16) * 4 + b2 / 64); sextet (b2 mod 64)]).
Proof.
  intros B0 B1 B2 L0 L1 L2 Hcap. unfold encode_group.
  destruct (enc_pair b0 b1 B0 B1) as [E0 E1 _ _ _ _].
  destruct (enc_pair b1 b2 B1 B2) as [_ _ E2 _ _ _].
  destruct (enc_pair b2 b2 B2 B2) as [_ _ _ E3 _ _].
  unfold is_byte in *.
  xload. rewrite E0. xload. xemit.
  xload. rewrite E1. xload. xemit.
  xload. rewrite E2. xload. xemit.
  rewrite E3. xload. rewrite emit_done by (rewrite ?length_app; simpl; lia).
  by rewrite <-!app_assoc.
Qed.

Lemma encode_groups_step k cap buf n out :
  encode_groups (S k) cap buf n out
  = (out ← encode_group cap buf n out; encode_groups k cap buf (n + 3) out).
Proof. done. Qed.

(** The whole body of the encoder after the allocation, on the bytes [l] found
    at offset [n] of the source. *)
Lemma encode_body_spec l : ∀ cap buf n out,
  Forall is_byte l → (∀ i b, l !! i = Some b → buf !! (n + i)%nat = Some b) →
  Z.of_nat (length out) + Z.of_nat (length (b64_ref l)) <= cap →
  (out ← encode_groups (length l / 3) cap buf (Z.of_nat n) out;
   encode_tail (Z.of_nat (length l) mod 3) cap buf
     (Z.of_nat n + 3 * (Z.of_nat (length l) / 3)) out)
  = Done (out ++ b64_ref l).
Proof.
  induction l as [|b0|b0 b1|b0 b1 b2 l IH] using list_ind3; intros cap buf n out Hb Hl Hcap.
  - simpl. by rewrite app_nil_r.
  - pose proof (Hl 0%nat b0 eq_refl) as L0. apply Forall_cons in Hb as [B0 _].
    destruct (enc_pair b0 b0 B0 B0) as [E0 _ _ _ _ E1]. unfold is_byte in *. simpl in Hcap.
    change (length [b0] / 3)%nat with 0%nat. simpl length.
    change (Z.of_nat 1 mod 3) with 1. change (Z.of_nat 1 / 3) with 0.
    cbn -[load emit]. xload. rewrite E0. xload. xemit. rewrite E1. xload.
    rewrite emit_done by (rewrite ?length_app; simpl; lia). by rewrite <-app_assoc.
  - pose proof (Hl 0%nat b0 eq_refl) as L0. pose proof (Hl 1%nat b1 eq_refl) as L1.
    rewrite !Forall_cons in Hb. destruct Hb as (B0 & B1 & _).
    destruct (enc_pair b0 b1 B0 B1) as [E0 E1 _ _ _ _].
    destruct (enc_pair b1 b1 B1 B1) as [_ _ _ _ E2 _]. unfold is_byte in *. simpl in Hcap.
    change (length [b0; b1] / 3)%nat with 0%nat. simpl length.
    change (Z.of_nat 2 mod 3) with 2. change (Z.of_nat 2 / 3) with 0.
    cbn -[load emit]. xload. rewrite E0. xload. xemit. xload. rewrite E1. xload. xemit. rewrite E2. xload.
    rewrite emit_done by (rewrite ?length_app; simpl; lia). by rewrite <-!app_assoc.
  - pose proof (Hl 0%nat b0 eq_refl) as L0. pose proof (Hl 1%nat b1 eq_refl) as L1.
    pose proof (Hl 2%nat b2 eq_refl) as L2. rewrite Nat.add_0_r in L0.
    rewrite !Forall_cons in Hb. destruct Hb as (B0 & B1 & B2 & Hb). simpl in Hcap.
    change (length (b0 :: b1 :: b2 :: l)) with (3 + length l)%nat.
    replace ((3 + length l) / 3)%nat with (S (length l / 3))
      by (change 3%nat with (1 * 3)%nat at 2; rewrite Nat.div_add_l; lia).
    replace (Z.of_nat (3 + length l) mod 3) with (Z.of_nat (length l) mod 3) by zdm.
    replace (Z.of_nat n + 3 * (Z.of_nat (3 + length l) / 3))
      with (Z.of_nat (n + 3) + 3 * (Z.of_nat (length l) / 3)) by zdm.
    rewrite encode_groups_step.
    rewrite (encode_group_spec cap buf n b0 b1 b2 out) by (done || lia). simpl.
    replace (Z.of_nat n + 3) with (Z.of_nat (n + 3)) by lia.
    rewrite IH; [by rewrite <-app_assoc|done| |rewrite length_app; simpl; lia].
    intros i b Hi. rewrite <-Nat.add_assoc. by apply (Hl (3 + i)%nat).
Qed.

Lemma b64_ref_length l :
  Z.of_nat (length (b64_ref l)) = (Z.of_nat (length l) * 4 + 2) / 3.
Proof.
  induction l as [|b0|b0 b1|b0 b1 b2 l IH] using list_ind3; try reflexivity.
  simpl length. zdm.
Qed.

Lemma sextet_range v : 0 <= v < 64 → is_cchar (sextet v).
Proof.
  intros H.
  assert (E : all_below 64 (λ v, (0 <? sextet v) && (sextet v <? 256)) = true) by (vm_compute; reflexivity).
  pose proof (all_below_spec 64 _ E v ltac:(lia)) as E'. simpl in E'.
  apply andb_true_iff in E' as [?%Z.ltb_lt ?%Z.ltb_lt]. by split.
Qed.

Lemma b64_ref_cstr l : Forall is_byte l → is_cstr (b64_ref l).
Proof.
  unfold is_cstr. induction l as [|b0|b0 b1|b0 b1 b2 l IH] using list_ind3;
    rewrite ?Forall_cons; unfold is_byte; intros Hb; simpl; rewrite ?Forall_cons;
    repeat split; try (apply sextet_range; zdm); try done; try (apply IH; tauto).
Qed.

(** ** The decoder *)

Lemma or_store_app pre x suf res v :
  res = Z.of_nat (length pre) →
  or_store (pre ++ x :: suf) res v = Done (pre ++ u8 (Z.lor x v) :: suf).
Proof.
  intros E. unfold or_store. rewrite (load_app pre suf x res E). simpl. by apply store_app.
Qed.

Lemma strchr_sextet v : 0 <= v < 64 → u8 (strchr_index base64_charset (sextet v) 0) = v.
Proof.
  intros H.
  assert (E : all_below 64 (λ v, u8 (strchr_index base64_charset (sextet v) 0) =? v) = true)
    by (vm_compute; reflexivity).
  apply Z.eqb_eq, (all_below_spec 64 _ E). lia.
Qed.

(** How four sextets are put together again, as the decoder does it. *)
Definition dec0 (v0 v1 : Z) : Z := u8 (Z.lor (u8 (Z.lor 0 (Z.shiftl v0 2))) (Z.shiftr v1 4)).
Definition dec1 (v1 v2 : Z) : Z := u8 (Z.lor (u8 (Z.lor 0 (Z.shiftl v1 4))) (Z.shiftr v2 2)).
Definition dec2 (v2 v3 : Z) : Z := u8 (Z.lor (u8 (Z.lor 0 (Z.shiftl v2 6))) v3).

Lemma decode_group pre rest c0 c1 c2 c3 n res :
  res = Z.of_nat (length pre) →
  let v c := u8 (strchr_index base64_charset c 0) in
  decode_loop (pre ++ replicate (3 + n) 0) res 0 (c0 :: c1 :: c2 :: c3 :: rest)
  = decode_loop ((pre ++ [dec0 (v c0) (v c1); dec1 (v c1) (v c2); dec2 (v c2) (v c3)])
                 ++ replicate n 0) (res + 3) 0 rest.
Proof.
  intros Hres v. simpl replicate. cbn [decode_loop].
  change (0 + 1) with 1. change (1 mod 4) with 1. change (1 + 1) with 2. change (2 mod 4) with 2.
  change (2 + 1) with 3. change (3 mod 4) with 3. change (3 + 1) with 4. change (4 mod 4) with 0.
  assert (snoc : ∀ (p s : list Z) x, p ++ x :: s = (p ++ [x]) ++ s) by (intros; by rewrite <-app_assoc).
  do 2 (eapply exec_step; [by apply or_store_app|]). rewrite (snoc pre).
  do 2 (eapply exec_step; [apply or_store_app; rewrite length_app; simpl; lia|]).
  rewrite (snoc (pre ++ _)).
  do 2 (eapply exec_step; [apply or_store_app; rewrite !length_app; simpl; lia|]).
  rewrite <-!app_assoc. simpl. f_equal. lia.
Qed.

Lemma dec_check :
  all_below 64 (λ x, all_below 64 (λ y,
    (dec0 x y =? x * 4 + y / 16) && (dec1 x y =? (x mod 16) * 16 + y / 4)
    && (dec2 x y =? (x mod 4) * 64 + y))) = true.
Proof. vm_compute. reflexivity. Qed.

Lemma dec_arith x y :
  0 <= x < 64 → 0 <= y < 64 →
  dec0 x y = x * 4 + y / 16 ∧ dec1 x y = (x mod 16) * 16 + y / 4 ∧ dec2 x y = (x mod 4) * 64 + y.
Proof.
  intros Hx Hy.
  pose proof (all_below_spec 64 _ (all_below_spec 64 _ dec_check x ltac:(lia)) y ltac:(lia)) as H.
  simpl in H. rewrite !andb_true_iff, !Z.eqb_eq in H. tauto.
Qed.

Lemma strchr_pad : u8 (strchr_index base64_charset 61 0) = 0.
Proof. reflexivity. Qed.

(** The sextets of a group give its bytes back. *)
Lemma dec_enc b0 b1 b2 :
  is_byte b0 → is_byte b1 → is_byte b2 →
  dec0 (b0 / 4) ((b0 mod 4) * 16 + b1 / 16) = b0 ∧
  dec1 ((b0 mod 4) * 16 + b1 / 16) ((b1 mod 16) * 4 + b2 / 64) = b1 ∧
  dec2 ((b1 mod 16) * 4 + b2 / 64) (b2 mod 64) = b2.
Proof.
  unfold is_byte. intros.
  destruct (dec_arith (b0 / 4) ((b0 mod 4) * 16 + b1 / 16)) as (-> & _ & _); [zdm..|].
  destruct (dec_arith ((b0 mod 4) * 16 + b1 / 16) ((b1 mod 16) * 4 + b2 / 64)) as (_ & -> & _); [zdm..|].
  destruct (dec_arith ((b1 mod 16) * 4 + b2 / 64) (b2 mod 64)) as (_ & _ & ->); [zdm..|].
  repeat split; zdm.
Qed.

Lemma replicate_split (k N : nat) : (k <= N)%nat → ∃ n, N = (k + n)%nat.
Proof. intros. exists (N - k)%nat. lia. Qed.

(** The last characters of an encoded string are read on a buffer of zeros. *)
Lemma decode_body l : ∀ pre N,
  Forall is_byte l →
  6 * (Z.of_nat (length (b64_ref l)) + 2) / 8 + 1 <= Z.of_nat N →
  ∃ res, decode_loop (pre ++ replicate N 0) (Z.of_nat (length pre)) 0 (b64_ref l ++ [61; 61])
         = Done (pre ++ l ++ replicate (N - length l) 0, res)
         ∧ Z.of_nat (length pre + length l) <= res < Z.of_nat (length pre + N).
Proof.
  induction l as [|b0|b0 b1|b0 b1 b2 l IH] using list_ind3; intros pre N Hb HN.
  - simpl in HN. destruct (replicate_split 2 N ltac:(zdm)) as [n ->].
    exists (Z.of_nat (length pre) + 1). simpl replicate. cbn [b64_ref app decode_loop].
    rewrite strchr_pad. split; [|simpl; lia].
    do 2 (eapply exec_step; [by apply or_store_app|]). rewrite cons_middle, app_assoc.
    eapply exec_step; [apply or_store_app; rewrite length_app; simpl; lia|].
    simpl. by rewrite <-app_assoc.
  - apply Forall_cons in Hb as [B0 _]. simpl in HN.
    destruct (replicate_split 3 N ltac:(zdm)) as [n ->].
    exists (Z.of_nat (length pre) + 3). cbn [b64_ref app].
    rewrite decode_group, strchr_pad, !strchr_sextet by (done || unfold is_byte in *; zdm).
    split; [|simpl; zdm].
    destruct (dec_enc b0 0 0 B0) as (E0 & E1 & E2); [split; lia..|].
    change (0 / 16) with 0 in *. change (0 mod 16) with 0 in *. change (0 / 64) with 0 in *.
    change (0 * 4 + 0) with 0 in *. change (0 mod 64) with 0 in *. rewrite Z.add_0_r in *.
    rewrite E0, E1, E2. simpl. by rewrite <-app_assoc.
  - rewrite !Forall_cons in Hb. destruct Hb as (B0 & B1 & _). simpl in HN.
    destruct (replicate_split 4 N ltac:(zdm)) as [n ->].
    exists (Z.of_nat (length pre) + 3). cbn [b64_ref app]. change (4 + n)%nat with (3 + S n)%nat.
    rewrite decode_group, strchr_pad, !strchr_sextet by (done || unfold is_byte in *; zdm).
    split; [|simpl; lia].
    destruct (dec_enc b0 b1 0 B0 B1) as (E0 & E1 & E2); [split; lia..|].
    change (0 / 64) with 0 in *. change (0 mod 64) with 0 in *. rewrite Z.add_0_r in *.
    rewrite E0, E1, E2. simpl replicate. cbn [decode_loop]. rewrite strchr_pad.
    eapply exec_step; [apply or_store_app; rewrite length_app; simpl; lia|].
    simpl. by rewrite <-app_assoc.
  - rewrite !Forall_cons in Hb. destruct Hb as (B0 & B1 & B2 & Hb). simpl in HN.
    destruct (replicate_split 3 N ltac:(zdm)) as [n ->]. cbn [b64_ref app].
    rewrite decode_group, !strchr_sextet by (done || unfold is_byte in *; zdm).
    destruct (dec_enc b0 b1 b2 B0 B1 B2) as (-> & -> & ->).
    destruct (IH (pre ++ [b0; b1; b2]) n Hb ltac:(zdm)) as (res & E & Hr).
    rewrite length_app in E, Hr. simpl length in E, Hr.
    replace (Z.of_nat (length pre) + 3) with (Z.of_nat (length pre + 3)) by lia.
    exists res. rewrite E. split; [by rewrite <-!app_assoc|simpl; lia].
Qed.

Lemma encode_cap n : 0 < n < 2 ^ 28 → Z.quot (s32 (n * 8)) 6 + 4 = n * 8 / 6 + 4.
Proof.
  intros Hn. unfold s32, u32. rewrite Z.mod_small by lia.
  rewrite (proj2 (Z.ltb_lt _ _)) by lia. by rewrite Z.quot_div_nonneg by lia.
Qed.

Lemma encode_done (l rest : list Z) :
  Forall is_byte l → l ≠ [] → strlen l < 2 ^ 28 →
  iks_base64_encode true (l ++ rest) (strlen l) = Done (b64_ref l ++ [61; 61; 0]).
Proof.
  intros Hb Hne Hlen. unfold iks_base64_encode, strlen in *.
  assert (0 < Z.of_nat (length l)) by (destruct l; [done|simpl; lia]).
  rewrite (proj2 (Z.ltb_lt _ _)) by done. cbn [negb]. rewrite encode_cap by lia.
  pose proof (b64_ref_length l) as Hr.
  replace (Z.to_nat (Z.of_nat (length l) / 3)) with (length l / 3)%nat
    by (apply Nat2Z.inj; rewrite Nat2Z.inj_div, Z2Nat.id; zdm).
  pose proof (encode_body_spec l (Z.of_nat (length l) * 8 / 6 + 4) (l ++ rest) 0 [] Hb) as E.
  specialize (E ltac:(intros i b Hi; by apply lookup_app_l_Some) ltac:(simpl; zdm)).
  destruct (encode_groups _ _ _ _ _) as [out|]; cbn in E; [|done].
  eapply exec_step; [reflexivity|]. eapply exec_step; [exact E|].
  do 2 (eapply exec_step; [apply emit_done; rewrite ?length_app; simpl; zdm|]).
  rewrite emit_done by (rewrite !length_app; simpl; zdm). by rewrite <-!app_assoc.
Qed.

(** For every non-empty byte buffer [l] of fewer than [2^28]
    bytes, [iks_base64_encode] produces the base64 characters of [l], two
    padding characters and the terminator, without leaving the block of
    [(len*8)/6 + 4] bytes it has allocated nor the [len] bytes it may read. *)
Theorem base64_encode_correct (l rest : list Z) :
  Forall is_byte l → l ≠ [] → strlen l < 2 ^ 28 →
  iks_base64_encode true (l ++ rest) (strlen l) = Done (b64_ref l ++ [61; 61; 0]).
Proof. apply encode_done. Qed.

Lemma base64_encode_correct_witness :
  iks_base64_encode true (bs "admin" ++ [0]) 5 = Done (b64_ref (bs "admin") ++ [61; 61; 0]).
Proof.
  apply (base64_encode_correct (bs "admin") [0]);
    [repeat constructor; unfold is_byte; lia|discriminate|reflexivity].
Defined.

Lemma c_str_app s r : is_cstr s → c_str (s ++ 0 :: r) = s.
Proof.
  unfold is_cstr. induction 1 as [|x s Hx Hs IH]; [done|]. simpl. unfold is_cchar in Hx.
  rewrite (proj2 (Z.eqb_neq _ _)) by lia. by rewrite IH.
Qed.

(** C34 (roundtrip): decoding what the encoder produced gives the encoded bytes
    back, followed by at least one zero byte, for every non-empty buffer of
    fewer than [2^28] bytes (embedded zero bytes included). *)
Theorem base64_roundtrip (l rest : list Z) :
  Forall is_byte l → l ≠ [] → strlen l < 2 ^ 28 →
  ∃ out z, iks_base64_encode true (l ++ rest) (strlen l) = Done out ∧
    iks_base64_decode true (Some (c_str out)) = Done (Some (l ++ replicate (S z) 0)).
Proof.
  intros Hb Hne Hlen. eexists. unfold iks_base64_decode.
  set (s := b64_ref l ++ [61; 61]).
  assert (Hs : c_str (b64_ref l ++ [61; 61; 0]) = s).
  { unfold s. change [61; 61; 0] with ([61; 61] ++ 0 :: []). rewrite app_assoc. apply c_str_app.
    unfold is_cstr. rewrite Forall_app. split; [by apply b64_ref_cstr|].
    repeat constructor; unfold is_cchar; lia. }
  pose proof (b64_ref_length l) as Hr. unfold strlen in *.
  assert (Hn : u32 (u32 (Z.of_nat (length s) * 6) / 8 + 1)
               = 6 * (Z.of_nat (length (b64_ref l)) + 2) / 8 + 1).
  { unfold s, u32. rewrite length_app. simpl length.
    rewrite !Z.mod_small by zdm. f_equal. f_equal. lia. }
  set (N := Z.to_nat (u32 (u32 (Z.of_nat (length s) * 6) / 8 + 1))).
  destruct (decode_body l [] N Hb) as (res & E & Hres); [unfold N; zdm|]. simpl in E, Hres.
  assert (HN : (length l < N)%nat) by lia.
  exists (N - length l - 1)%nat. split; [by apply encode_done|].
  rewrite Hs. cbn [negb]. fold N. eapply exec_step; [exact E|]. cbv beta iota.
  rewrite store_done by (rewrite length_app, length_replicate; lia). simpl.
  rewrite insert_app_r_alt by lia.
  rewrite insert_replicate.
  by replace (N - length l)%nat with (S (N - length l - 1)) at 1 by lia.
Qed.

Lemma base64_roundtrip_witness :
  ∃ out z, iks_base64_encode true ([0] ++ bs "admin" ++ [0] ++ bs "pass") 11 = Done out ∧
    iks_base64_decode true (Some (c_str out))
    = Done (Some (([0] ++ bs "admin" ++ [0] ++ bs "pass") ++ replicate (S z) 0)).
Proof.
  apply (base64_roundtrip ([0] ++ bs "admin" ++ [0] ++ bs "pass") []);
    [repeat constructor; unfold is_byte; lia|discriminate|reflexivity].
Defined.

Lemma or_store_bind {B} m res v (k : list Z → exec B) (P : B → Prop) :
  0 <= res < Z.of_nat (length m) →
  (∀ m', length m' = length m → ∃ r, k m' = Done r ∧ P r) →
  ∃ r, (or_store m res v ≫= k) = Done r ∧ P r.
Proof.
  intros H Hk. unfold or_store. destruct (load_lookup m res H) as (b & _ & E).
  rewrite E. cbn. rewrite store_done by done. apply Hk. by rewrite length_insert.
Qed.

(** The write cursor after [i] characters. *)
Definition cursor (i : Z) : Z := 3 * (i / 4) + Z.max 0 (i mod 4 - 1).

Lemma decode_loop_safe buf : ∀ m i,
  0 <= i → (i + strlen buf) * 6 / 8 + 1 <= Z.of_nat (length m) →
  ∃ r, decode_loop m (cursor i) (i mod 4) buf = Done r
       ∧ length r.1 = length m ∧ r.2 = cursor (i + strlen buf).
Proof.
  unfold strlen. induction buf as [|c buf IH]; intros m i Hi Hm.
  - eexists. simpl. by rewrite Z.add_0_r.
  - simpl length in *. cbn [decode_loop].
    replace ((i mod 4 + 1) mod 4) with ((i + 1) mod 4) by zdm.
    replace (i + Z.of_nat (S (length buf))) with ((i + 1) + Z.of_nat (length buf)) in * by lia.
    assert (K : ∀ m' p, length m' = length m → p = cursor (i + 1) →
      ∃ r, decode_loop m' p ((i + 1) mod 4) buf = Done r
           ∧ length r.1 = length m ∧ r.2 = cursor (i + 1 + Z.of_nat (length buf))).
    { intros m' p L ->. rewrite <-L. apply IH; lia. }
    unfold cursor in *. assert (0 <= i mod 4 < 4) by zdm.
    assert (i mod 4 = 0 ∨ i mod 4 = 1 ∨ i mod 4 = 2 ∨ i mod 4 = 3) as [E|[E|[E|E]]] by lia; rewrite E.
    + apply or_store_bind; [zdm|intros m1 L1]. apply K; [lia|zdm].
    + apply or_store_bind; [zdm|intros m1 L1]. apply or_store_bind; [zdm|intros m2 L2]. apply K; [lia|zdm].
    + apply or_store_bind; [zdm|intros m1 L1]. apply or_store_bind; [zdm|intros m2 L2]. apply K; [lia|zdm].
    + apply or_store_bind; [zdm|intros m1 L1]. apply K; [lia|zdm].
Qed.

(** On any string shorter than [2^29] characters, valid base64 or
    not, [iks_base64_decode] returns a block of [strlen*6/8 + 1] bytes and
    never reads or writes outside it. *)
Theorem base64_decode_safe (s : list Z) :
  strlen s < 2 ^ 29 →
  ∃ m, iks_base64_decode true (Some s) = Done (Some m) ∧ strlen m = strlen s * 6 / 8 + 1.
Proof.
  intros Hs. unfold iks_base64_decode. cbn [negb]. unfold strlen in *.
  replace (u32 (u32 (Z.of_nat (length s) * 6) / 8 + 1)) with (Z.of_nat (length s) * 6 / 8 + 1)
    by (unfold u32; rewrite !Z.mod_small; zdm).
  destruct (decode_loop_safe s (replicate (Z.to_nat (Z.of_nat (length s) * 6 / 8 + 1)) 0) 0)
    as ([m res] & E & L & Hr); [lia|rewrite length_replicate; unfold strlen; zdm|].
  cbn in L, Hr. subst res. change (cursor 0) with 0 in E. change (0 mod 4) with 0 in E. rewrite E. cbn.
  rewrite length_replicate in L. unfold strlen.
  rewrite store_done by (rewrite L; unfold cursor; zdm). cbn.
  eexists. split; [done|]. rewrite length_insert, L. zdm.
Qed.

Lemma base64_decode_safe_witness :
  ∃ m, iks_base64_decode true (Some (bs "*!=x")) = Done (Some m) ∧ strlen m = 4.
Proof. apply (base64_decode_safe (bs "*!=x")). reflexivity. Defined.
