(* ===== verification/Blocks.v ===== *)
(** * Block-wise hashing

    What [sha.c] and [md5.c] of jabberlog share: a message is absorbed in
    blocks of 64 bytes, each of which transforms the chaining value.  The file
    holds the iteration over whole blocks, big- and little-endian words, and
    the lemmas both hash components use. *)

From S2P Require Import Prelude.

Local Open Scope Z_scope.

(** [be l] and [le l]: the number whose base-256 digits are [l]. *)
Definition be (l : list Z) : Z := fold_left (λ acc b, acc * 256 + b) l 0.

Fixpoint le (l : list Z) : Z :=
  match l with [] => 0 | b :: l' => b + 256 * le l' end.

Fixpoint le_bytes (n : nat) (x : Z) : list Z :=
  match n with O => [] | S n' => x mod 256 :: le_bytes n' (x / 256) end.

Definition be_bytes (n : nat) (x : Z) : list Z := rev (le_bytes n x).

Lemma be_snoc l b : be (l ++ [b]) = be l * 256 + b.
Proof. unfold be. by rewrite fold_left_app. Qed.

Lemma be_bound l : Forall is_byte l → 0 <= be l < 2 ^ (8 * Z.of_nat (length l)).
Proof.
  induction l as [|b l IH] using rev_ind; intros Hl; [done|].
  apply Forall_app in Hl as [Hl Hb]. apply Forall_cons in Hb as [Hb _].
  rewrite be_snoc, length_app. specialize (IH Hl). unfold is_byte in Hb.
  replace (8 * Z.of_nat (length l + length [b])) with (8 * Z.of_nat (length l) + 8) by (simpl; lia).
  rewrite Z.pow_add_r by lia. lia.
Qed.

Lemma le_bytes_length n x : length (le_bytes n x) = n.
Proof. revert x. induction n; intros; simpl; auto. Qed.

Lemma be_bytes_length n x : length (be_bytes n x) = n.
Proof. unfold be_bytes. by rewrite length_rev, le_bytes_length. Qed.

Lemma le_bytes_byte n x : Forall is_byte (le_bytes n x).
Proof. revert x. induction n; intros; simpl; constructor; auto. unfold is_byte. zdm. Qed.

Lemma be_bytes_byte n x : Forall is_byte (be_bytes n x).
Proof. unfold be_bytes. apply Forall_rev, le_bytes_byte. Qed.

(** A 64-bit length kept in two 32-bit halves. *)
Lemma hi_part hi lo d : 0 <= lo < 2 ^ 32 → 0 < d → (hi * 2 ^ 32 + lo) / (2 ^ 32 * d) = hi / d.
Proof. intros. rewrite <-Z.div_div by lia. f_equal. zdm. Qed.
Lemma lo_part hi lo k : 0 <= k <= 24 → ((hi * 2 ^ 32 + lo) / 2 ^ k) mod 256 = (lo / 2 ^ k) mod 256.
Proof. intros.
  replace (hi * 2 ^ 32) with ((hi * 2 ^ (24 - k) * 256) * 2 ^ k).
  - rewrite Z.div_add_l by lia. rewrite Z.add_comm. apply Z.mod_add. lia.
  - change 256 with (2 ^ 8). rewrite <-!Z.mul_assoc, <-!Z.pow_add_r by lia. do 2 f_equal. lia.
Qed.
Lemma be_bytes_hi_lo hi lo : 0 <= hi < 2^32 → 0 <= lo < 2 ^ 32 → be_bytes 8 (hi * 2 ^ 32 + lo) = [ hi / 2 ^ 24 mod 256; hi / 2^16 mod 256; hi / 2^8 mod 256; hi mod 256;  lo / 2 ^ 24 mod 256; lo / 2^16 mod 256; lo / 2^8 mod 256; lo mod 256].
Proof.
  intros. unfold be_bytes. cbn [le_bytes rev app]. rewrite !Z.div_div by lia.
  rewrite <-(hi_part hi lo (2 ^ 24)), <-(hi_part hi lo (2^16)), <-(hi_part hi lo (2^8)) by lia.
  rewrite <-(lo_part hi lo 24), <-(lo_part hi lo 16), <-(lo_part hi lo 8) by lia.
  repeat (apply (f_equal2 cons)); try reflexivity; try zdm.
Qed.

(** ** Iterating a block transformation *)
Section blocks.
Context {H : Type} (f : H → list Z → H).

Fixpoint blocks (k : nat) (h : H) (l : list Z) : H :=
  match k with
  | O => h
  | S k' => blocks k' (f h (take 64 l)) (drop 64 l)
  end.

Lemma blocks_last k : ∀ h l,
  blocks (S k) h l = f (blocks k h l) (take 64 (drop (64 * k) l)).
Proof.
  induction k as [|k IH]; intros h l; [done|].
  change (blocks (S (S k)) h l) with (blocks (S k) (f h (take 64 l)) (drop 64 l)).
  rewrite IH, drop_drop. change (blocks (S k) h l) with (blocks k (f h (take 64 l)) (drop 64 l)).
  do 3 f_equal. lia.
Qed.

Lemma blocks_app k : ∀ h l r,
  (64 * k <= length l)%nat → blocks k h (l ++ r) = blocks k h l.
Proof.
  induction k as [|k IH]; intros h l r Hl; [done|]. simpl.
  rewrite take_app_le, drop_app_le by lia. apply IH. rewrite length_drop. lia.
Qed.
End blocks.
