(* ===== verification/Sha1.v ===== *)
(** * SHA-1 of the Jabber digest authentication

    [src/sysapps/apps/cgi2/app/jabberlog/sha.c]: the context [iksha], the
    byte-wise absorption [sha_buffer], the block function [sha_calculate], and
    [iks_sha_hash] with its padding.  [unsigned long] has 32 bits.  The main
    theorem is the equivalence with SHA-1 as FIPS 180 defines it. *)

From S2P Require Import Prelude Blocks.

Local Open Scope Z_scope.
Local Open Scope c_scope.

Record iksha : Type := mk_iksha {
  hash : list Z;     (* unsigned long hash[5] *)
  buf : list Z;      (* unsigned long buf[80] *)
  blen : Z;
  lenhi : Z;
  lenlo : Z }.

Definition SRL (x y : Z) : Z := (x <<! y) |! (x >>! (32 - y)).

Definition iks_sha_reset : iksha :=
  mk_iksha [0x67452301; 0xefcdab89; 0x98badcfe; 0x10325476; 0xc3d2e1f0]
           (replicate 80 0) 0 0 0.

(** The message expansion loop of [sha_calculate]: one turn, the first [n]
    turns, and all 64 of them. *)
Definition sha_expand_step (b : list Z) (i : nat) : list Z :=
  <[i := SRL (b !!! (i - 3)%nat ^! b !!! (i - 8)%nat ^! b !!! (i - 14)%nat ^! b !!! (i - 16)%nat) 1]> b.

Definition sha_expand_upto (n : nat) (buf : list Z) : list Z :=
  fold_left sha_expand_step (seq 16 n) buf.

Definition sha_expand (buf : list Z) : list Z := sha_expand_upto 64 buf.

Definition regs : Type := Z * Z * Z * Z * Z.

(** One turn of the macro [SHA(a,b,f,c)]. *)
Definition SHA_step (buf : list Z) (f : Z → Z → Z → Z) (c : Z) (r : regs) (i : nat) : regs :=
  let '(A, B, C, D, E) := r in
  let TMP := SRL A 5 +! f B C D +! E +! buf !!! i +! c in
  (TMP, A, SRL B 30, C, D).

Definition SHA (buf : list Z) (a b : nat) (f : Z → Z → Z → Z) (c : Z) (r : regs) : regs :=
  fold_left (SHA_step buf f c) (seq a (b - a + 1)) r.

Definition sha_calculate (sha : iksha) : iksha :=
  let buf := sha_expand (buf sha) in
  let h i := hash sha !!! i in
  let r := (h 0%nat, h 1%nat, h 2%nat, h 3%nat, h 4%nat) in
  let r := SHA buf 0 19 (λ B C D, ((C ^! D) &! B) ^! D) 0x5a827999 r in
  let r := SHA buf 20 39 (λ B C D, B ^! C ^! D) 0x6ed9eba1 r in
  let r := SHA buf 40 59 (λ B C D, (B &! C) |! (D &! (B |! C))) 0x8f1bbcdc r in
  let r := SHA buf 60 79 (λ B C D, B ^! C ^! D) 0xca62c1d6 r in
  let '(A, B, C, D, E) := r in
  mk_iksha [h 0%nat +! A; h 1%nat +! B; h 2%nat +! C; h 3%nat +! D; h 4%nat +! E]
           buf (blen sha) (lenhi sha) (lenlo sha).

(** The body of the loop of [sha_buffer], for one byte. *)
Definition sha_byte (sha : iksha) (b : Z) : iksha :=
  let w := Z.to_nat (blen sha / 4) in
  let buf1 := <[w := buf sha !!! w <<! 8]> (buf sha) in
  let buf2 := <[w := buf1 !!! w |! b]> buf1 in
  let sha1 := mk_iksha (hash sha) buf2 (blen sha + 1) (lenhi sha) (lenlo sha) in
  let sha2 :=
    if blen sha1 mod 64 =? 0 then
      let s := sha_calculate sha1 in mk_iksha (hash s) (buf s) 0 (lenhi s) (lenlo s)
    else sha1 in
  let lo := lenlo sha2 +! 8 in
  mk_iksha (hash sha2) (buf sha2) (blen sha2) (lenhi sha2 +! b2z (lo <? 8)) lo.

Fixpoint sha_buffer (sha : iksha) (data : list Z) : iksha :=
  match data with
  | [] => sha
  | b :: data' => sha_buffer (sha_byte sha b) data'
  end.

(** [while (sha->blen != 56) sha_buffer (sha, &padc, 1)]; the loop runs at most
    63 times, so the fuel of 64 is never used up ([sha_pad_zeros]). *)
Fixpoint sha_pad (fuel : nat) (sha : iksha) : option iksha :=
  if blen sha =? 56 then Some sha else
  match fuel with
  | O => None
  | S fuel' => sha_pad fuel' (sha_buffer sha [0])
  end.

Definition iks_sha_hash (sha : iksha) (data : list Z) (finish : bool) : option iksha :=
  let sha := sha_buffer sha data in
  if negb finish then Some sha else
  let pad :=
    [ (lenhi sha >>! 24) &! 255; (lenhi sha >>! 16) &! 255; (lenhi sha >>! 8) &! 255; lenhi sha &! 255;
      (lenlo sha >>! 24) &! 255; (lenlo sha >>! 16) &! 255; (lenlo sha >>! 8) &! 255; lenlo sha &! 255 ] in
  let sha := sha_buffer sha [0x80] in
  sha ← sha_pad 64 sha;
  Some (sha_buffer sha pad).

(** [sprintf ("%08lx")]: eight lower-case hexadecimal digits. *)

Definition iks_sha_print (sha : iksha) : list Z :=
  concat (map (λ h, concat (map hex_byte (be_bytes 4 h))) (hash sha)).

Definition iks_sha (data : list Z) : option (list Z) :=
  sha ← iks_sha_hash iks_sha_reset data true; Some (iks_sha_print sha).

Example iks_sha_abc :
  iks_sha (bs "abc") = Some (bs "a9993e364706816aba3e25717850c26c9cd0d89d").
Proof. vm_compute. reflexivity. Qed.

(** ** SHA-1 as FIPS 180 states it *)

Definition ROTL (n x : Z) : Z := (x <<! n) |! (x >>! (32 - n)).
Definition Ch (x y z : Z) : Z := (x &! y) ^! (Z.lnot x &! z).
Definition Parity (x y z : Z) : Z := x ^! y ^! z.
Definition Maj (x y z : Z) : Z := (x &! y) ^! (x &! z) ^! (y &! z).

Definition fips_f (t : nat) : Z → Z → Z → Z :=
  if (t <? 20)%nat then Ch else if (t <? 40)%nat then Parity
  else if (t <? 60)%nat then Maj else Parity.

Definition fips_K (t : nat) : Z :=
  if (t <? 20)%nat then 0x5a827999 else if (t <? 40)%nat then 0x6ed9eba1
  else if (t <? 60)%nat then 0x8f1bbcdc else 0xca62c1d6.

(** The bytes of word [j] of a (possibly partial) block [q]. *)
Definition word (q : list Z) (j : nat) : list Z := take 4 (drop (4 * j) q).

(** The words of a block and the message schedule, built by appending. *)
Definition block_words (m : list Z) : list Z := map (λ j, be (word m j)) (seq 0 16).

Definition schedule_step (W : list Z) (t : nat) : list Z :=
  W ++ [ROTL 1 (W !!! (t - 3)%nat ^! W !!! (t - 8)%nat ^! W !!! (t - 14)%nat ^! W !!! (t - 16)%nat)].

Definition schedule_upto (n : nat) (W : list Z) : list Z := fold_left schedule_step (seq 16 n) W.

Definition schedule (W : list Z) : list Z := schedule_upto 64 W.

Definition fips_step (W : list Z) (r : regs) (t : nat) : regs :=
  let '(a, b, c, d, e) := r in
  (u32 (ROTL 5 a + fips_f t b c d + e + fips_K t + W !!! t), a, ROTL 30 b, c, d).

Definition regs_of (H : list Z) : regs :=
  (H !!! 0%nat, H !!! 1%nat, H !!! 2%nat, H !!! 3%nat, H !!! 4%nat).

Definition add_regs (H : list Z) (r : regs) : list Z :=
  let '(a, b, c, d, e) := r in
  [u32 (H !!! 0%nat + a); u32 (H !!! 1%nat + b); u32 (H !!! 2%nat + c);
   u32 (H !!! 3%nat + d); u32 (H !!! 4%nat + e)].

Definition sha1_rounds (W : list Z) (r : regs) : regs := fold_left (fips_step W) (seq 0 80) r.

Definition sha1_block (H m : list Z) : list Z :=
  add_regs H (sha1_rounds (schedule (block_words m)) (regs_of H)).

Definition sha1_padding (n : nat) : list Z :=
  0x80 :: replicate (Z.to_nat ((55 - Z.of_nat n) mod 64)) 0 ++ be_bytes 8 (8 * Z.of_nat n).

Definition sha1_H0 : list Z := [0x67452301; 0xefcdab89; 0x98badcfe; 0x10325476; 0xc3d2e1f0].

(** The digest of a message: padding, then one block after the other. *)
Definition sha1 (msg : list Z) : list Z :=
  let m := msg ++ sha1_padding (length msg) in
  blocks sha1_block (length m / 64) sha1_H0 m.

(** ** The block function *)

Lemma choose_form B C D : ((C ^! D) &! B) ^! D = Ch B C D.
Proof.
  unfold Ch. apply Z.bits_inj'. intros i Hi.
  rewrite !Z.lxor_spec, !Z.land_spec, Z.lxor_spec, Z.lnot_spec by done.
  by destruct (Z.testbit B i), (Z.testbit C i), (Z.testbit D i).
Qed.

Lemma majority_form B C D : (B &! C) |! (D &! (B |! C)) = Maj B C D.
Proof.
  unfold Maj. apply Z.bits_inj'. intros i Hi.
  rewrite !Z.lxor_spec, !Z.lor_spec, !Z.land_spec, Z.lor_spec.
  by destruct (Z.testbit B i), (Z.testbit C i), (Z.testbit D i).
Qed.

Lemma add32_u32_l x y : u32 x +! y = u32 (x + y).
Proof. unfold add32, u32. by rewrite Zplus_mod_idemp_l. Qed.

Lemma fold_left_ext {A B} (f g : A → B → A) (l : list B) :
  (∀ a b, b ∈ l → f a b = g a b) → ∀ a, fold_left f l a = fold_left g l a.
Proof.
  induction l as [|b l IH]; intros Hfg a; simpl; [done|].
  rewrite Hfg by (by left). apply IH. intros. apply Hfg. by right.
Qed.

Lemma SHA_fips W a b f c r :
  (a <= b)%nat →
  (∀ t, (a <= t <= b)%nat → (∀ x y z, f x y z = fips_f t x y z) ∧ c = fips_K t) →
  SHA W a b f c r = fold_left (fips_step W) (seq a (b - a + 1)) r.
Proof.
  intros Hab Hf. unfold SHA. apply fold_left_ext. intros [[[[A B] C] D] E] t Ht%elem_of_seq.
  destruct (Hf t ltac:(lia)) as [Hf' ->]. unfold SHA_step, fips_step.
  do 4 f_equal. rewrite Hf'. change (SRL A 5) with (ROTL 5 A).
  generalize (ROTL 5 A) (fips_f t B C D) (fips_K t) (W !!! t). intros.
  unfold add32, u32. rewrite !Zplus_mod_idemp_l, <-!Z.add_assoc, Zplus_mod_idemp_l. f_equal. lia.
Qed.

(** Expansion in place and expansion by appending agree. *)
Lemma expand_schedule n b :
  length b = 80%nat → (n <= 64)%nat →
  take (16 + n) (sha_expand_upto n b) = schedule_upto n (take 16 b)
  ∧ length (sha_expand_upto n b) = 80%nat.
Proof.
  intros Hb. induction n as [|n IH]; intros Hn; [by split|].
  destruct (IH ltac:(lia)) as [IH1 IH2]. unfold sha_expand_upto, schedule_upto in *.
  rewrite seq_S, !fold_left_app. cbn [fold_left]. rewrite <-IH1.
  set (b' := fold_left sha_expand_step (seq 16 n) b) in *. clearbody b'.
  assert (L : ∀ k, (1 <= k <= 16)%nat → take (16 + n) b' !!! (16 + n - k)%nat = b' !!! (16 + n - k)%nat).
  { intros k Hk. rewrite !list_lookup_total_alt, lookup_take_lt by lia. done. }
  unfold sha_expand_step, schedule_step. rewrite !L by lia. split; [|by rewrite length_insert].
  replace (16 + S n)%nat with (S (16 + n)) by lia.
  change (SRL ?x 1) with (ROTL 1 x). generalize (ROTL 1 (b' !!! (16 + n - 3)%nat ^! b' !!! (16 + n - 8)%nat
    ^! b' !!! (16 + n - 14)%nat ^! b' !!! (16 + n - 16)%nat)). intros v.
  rewrite (take_S_r _ _ v) by (apply list_lookup_insert_eq; lia).
  by rewrite take_insert_ge by lia.
Qed.

Lemma sha_expand_spec b :
  length b = 80%nat → sha_expand b = schedule (take 16 b) ∧ length (sha_expand b) = 80%nat.
Proof.
  intros Hb. destruct (expand_schedule 64 b Hb ltac:(lia)) as [E L]. split; [|exact L].
  unfold sha_expand, schedule. rewrite <-E, take_ge; [done|rewrite L; lia].
Qed.

Ltac fips_range :=
  intros t Ht; unfold fips_f, fips_K;
  destruct (Nat.ltb_spec t 20); try lia; destruct (Nat.ltb_spec t 40); try lia;
  destruct (Nat.ltb_spec t 60); try lia.

Lemma sha_calculate_spec sha :
  length (buf sha) = 80%nat →
  sha_calculate sha
  = mk_iksha (add_regs (hash sha) (sha1_rounds (schedule (take 16 (buf sha))) (regs_of (hash sha))))
      (schedule (take 16 (buf sha))) (blen sha) (lenhi sha) (lenlo sha).
Proof.
  intros Hb. destruct (sha_expand_spec _ Hb) as [E _]. unfold sha_calculate. rewrite E.
  set (W := schedule (take 16 (buf sha))). clearbody W.
  unfold sha1_rounds. change (seq 0 80) with (seq 0 (19 - 0 + 1) ++ seq 20 (39 - 20 + 1) ++ seq 40 (59 - 40 + 1) ++ seq 60 (79 - 60 + 1)).
  rewrite !fold_left_app.
  rewrite (SHA_fips W 0 19) by (lia || (fips_range; split; [apply choose_form|done])).
  rewrite (SHA_fips W 20 39) by (lia || (fips_range; split; [intros; reflexivity|reflexivity])).
  rewrite (SHA_fips W 40 59) by (lia || (fips_range; split; [apply majority_form|done])).
  rewrite (SHA_fips W 60 79) by (lia || (fips_range; split; [intros; reflexivity|reflexivity])).
  fold (regs_of (hash sha)). unfold add_regs.
  by destruct (fold_left _ _ _) as [[[[A B] C] D] F].
Qed.

(** ** Absorbing bytes *)

#[local] Opaque sha1_rounds schedule sha_expand.

Lemma word_snoc q b j :
  word (q ++ [b]) j = if decide (j = length q / 4)%nat then word q j ++ [b] else word q j.
Proof.
  unfold word. pose proof (Nat.div_mod_eq (length q) 4). pose proof (Nat.mod_upper_bound (length q) 4).
  case_decide as Hj.
  - rewrite drop_app_le by lia. rewrite take_ge by (rewrite length_app, length_drop; simpl; lia).
    by rewrite take_ge by (rewrite length_drop; lia).
  - destruct (decide (4 * j < length q)%nat).
    + rewrite drop_app_le by lia. rewrite take_app_le; [done|]. rewrite length_drop.
      assert (j < length q / 4)%nat; [|lia]. apply Nat.le_neq. split; [|done].
      apply Nat.div_le_lower_bound; lia.
    + rewrite !drop_ge; [done|lia|]. rewrite length_app. simpl.
      destruct (decide (4 * j = length q)%nat) as [E|]; [|lia].
      exfalso. apply Hj. rewrite <-E, Nat.mul_comm, Nat.div_mul; lia.
Qed.

(** Shifting one byte into a word keeps the bytes that are in it. *)
Lemma shift_in x (w : list Z) b :
  is_byte b → Forall is_byte w → (length w < 4)%nat →
  x mod 2 ^ (8 * Z.of_nat (length w)) = be w →
  let x' := (x <<! 8) |! b in
  is_u32 x' ∧ x' mod 2 ^ (8 * Z.of_nat (length (w ++ [b]))) = be (w ++ [b]).
Proof.
  intros Hb Hw Hl Hx x'. unfold is_byte in Hb.
  pose proof (be_bound w Hw) as Bw.
  assert (E : x' = (x * 256) mod 2 ^ 32 + b).
  { unfold x', shl32, u32. rewrite Z.shiftl_mul_pow2 by lia. apply lor_add with (k := 8); [lia| |lia].
    exists (x mod 2 ^ 24). zdm. }
  rewrite E, be_snoc, length_app. clear E x'. unfold is_u32. split; [zdm|].
  destruct w as [|? [|? [|? [|]]]]; simpl in Hl; try lia; cbn [length app Nat.add] in *; zdm.
Qed.

Record sha_absorbed (sha : iksha) (p : list Z) : Prop := {
  ab_buf : length (buf sha) = 80%nat;
  ab_hash : hash sha = blocks sha1_block (length p / 64) sha1_H0 p;
  ab_blen : blen sha = Z.of_nat (length p) mod 64;
  ab_len : is_u32 (lenhi sha) ∧ is_u32 (lenlo sha) ∧
           lenhi sha * 2 ^ 32 + lenlo sha = (8 * Z.of_nat (length p)) mod 2 ^ 64;
  ab_words : ∀ j, (j < 16)%nat →
    let w := word (drop (64 * (length p / 64)) p) j in
    (w ≠ [] → is_u32 (buf sha !!! j)) ∧
    (buf sha !!! j) mod 2 ^ (8 * Z.of_nat (length w)) = be w }.

Lemma sha_absorbed_reset : sha_absorbed iks_sha_reset [].
Proof.
  split; try done. intros j Hj. unfold word. rewrite drop_nil, drop_nil. simpl.
  split; [done|]. apply Z.mod_1_r.
Qed.

Lemma count8 hi lo n :
  is_u32 hi → is_u32 lo → hi * 2 ^ 32 + lo = (8 * n) mod 2 ^ 64 → 0 <= n →
  let lo' := lo +! 8 in let hi' := hi +! b2z (lo' <? 8) in
  is_u32 hi' ∧ is_u32 lo' ∧ hi' * 2 ^ 32 + lo' = (8 * (n + 1)) mod 2 ^ 64.
Proof.
  unfold is_u32, add32, u32, b2z. intros Hh Hl E Hn. cbv zeta.
  destruct (Z.ltb_spec ((lo + 8) mod 2 ^ 32) 8); zdm.
Qed.

Lemma word_length q j : (length (word q j) <= 4)%nat.
Proof. unfold word. rewrite length_take. lia. Qed.

Lemma word_byte q j : Forall is_byte q → Forall is_byte (word q j).
Proof. intros. unfold word. by apply Forall_take, Forall_drop. Qed.

Lemma block_index n : let q := (n / 64)%nat in (n = 64 * q + n mod 64 ∧ n mod 64 < 64)%nat.
Proof. cbv zeta. pose proof (Nat.div_mod_eq n 64). pose proof (Nat.mod_upper_bound n 64). lia. Qed.

(** The word that is being filled, after one more byte. *)
Definition put_byte (b0 : list Z) (w : nat) (b : Z) : list Z :=
  <[w := (b0 !!! w <<! 8) |! b]> b0.

Lemma sha_byte_put sha b :
  let w := Z.to_nat (blen sha / 4) in
  (w < length (buf sha))%nat →
  <[w := (<[w := buf sha !!! w <<! 8]> (buf sha)) !!! w |! b]> (<[w := buf sha !!! w <<! 8]> (buf sha))
  = put_byte (buf sha) w b.
Proof. intros w Hw. unfold put_byte. rewrite list_lookup_total_insert_eq, list_insert_insert_eq; done. Qed.

Lemma put_byte_words b0 q b :
  length b0 = 80%nat → (length q < 64)%nat → is_byte b → Forall is_byte q →
  (∀ j, (j < 16)%nat → (word q j ≠ [] → is_u32 (b0 !!! j)) ∧
     (b0 !!! j) mod 2 ^ (8 * Z.of_nat (length (word q j))) = be (word q j)) →
  ∀ j, (j < 16)%nat → let w := word (q ++ [b]) j in
     (w ≠ [] → is_u32 (put_byte b0 (length q / 4) b !!! j)) ∧
     (put_byte b0 (length q / 4) b !!! j) mod 2 ^ (8 * Z.of_nat (length w)) = be w.
Proof.
  intros Hb0 Hq Hb Hbq IH j Hj. cbv zeta. rewrite word_snoc. unfold put_byte.
  assert (length q / 4 < 16)%nat by (apply Nat.Div0.div_lt_upper_bound; lia).
  case_decide as E; [subst j|rewrite list_lookup_total_insert_ne by done; by apply IH].
  rewrite list_lookup_total_insert_eq by lia. destruct (IH (length q / 4)%nat ltac:(lia)) as [_ Hm].
  destruct (shift_in (b0 !!! (length q / 4)%nat) (word q (length q / 4)) b Hb) as [? ?]; auto using word_byte.
  unfold word. rewrite length_take, length_drop.
  pose proof (Nat.div_mod_eq (length q) 4). pose proof (Nat.mod_upper_bound (length q) 4). lia.
Qed.

Lemma full_words b0 m :
  length b0 = 80%nat → length m = 64%nat → Forall is_byte m →
  (∀ j, (j < 16)%nat → (word m j ≠ [] → is_u32 (b0 !!! j)) ∧
     (b0 !!! j) mod 2 ^ (8 * Z.of_nat (length (word m j))) = be (word m j)) →
  take 16 b0 = block_words m.
Proof.
  intros Hb0 Hm Hbm Hw. apply list_eq_same_length with (n := 16%nat);
    [unfold block_words; by rewrite length_map, length_seq|rewrite length_take; lia|].
  intros j x y Hj Hx Hy.
  rewrite lookup_take_lt in Hx by done.
  unfold block_words in Hy. rewrite list_lookup_fmap, lookup_seq_lt in Hy by done.
  simpl in Hy. injection Hy as <-. destruct (Hw j Hj) as [H1 H2].
  rewrite (list_lookup_total_correct _ _ _ Hx) in *.
  assert (L : length (word m j) = 4%nat) by (unfold word; rewrite length_take, length_drop; lia).
  rewrite <-H2, L. symmetry. apply Z.mod_small. apply H1. by destruct (word m j).
Qed.

Lemma sha_byte_absorbed sha p b :
  sha_absorbed sha p → is_byte b → Forall is_byte p → sha_absorbed (sha_byte sha b) (p ++ [b]).
Proof.
  intros [Hbuf Hhash Hblen (Hhi & Hlo & Hlen) Hw] Hb Hp.
  destruct (block_index (length p)) as [Hn Hr]. set (k := (length p / 64)%nat) in *.
  set (q := drop (64 * k) p) in *.
  assert (Lq : length q = (length p mod 64)%nat) by (unfold q; rewrite length_drop; lia).
  assert (Hbl : blen sha = Z.of_nat (length q)) by (rewrite Hblen, Lq, Nat2Z.inj_mod; done).
  assert (Hwi : Z.to_nat (blen sha / 4) = (length q / 4)%nat).
  { rewrite Hbl. change 4 with (Z.of_nat 4). by rewrite <-Nat2Z.inj_div, Nat2Z.id. }
  assert (length q / 4 < 16)%nat by (apply Nat.Div0.div_lt_upper_bound; lia).
  unfold sha_byte. rewrite sha_byte_put by (rewrite Hwi; lia). rewrite Hwi.
  assert (Hq : Forall is_byte q) by (unfold q; by apply Forall_drop).
  pose proof (put_byte_words (buf sha) q b Hbuf ltac:(lia) Hb Hq Hw) as Hw'.
  set (b1 := put_byte (buf sha) (length q / 4) b) in *.
  assert (Lb1 : length b1 = 80%nat) by (unfold b1, put_byte; by rewrite length_insert).
  clearbody b1. cbn [blen].
  destruct (count8 _ _ (Z.of_nat (length p)) Hhi Hlo Hlen ltac:(lia)) as (C1 & C2 & C3).
  replace (Z.of_nat (length p) + 1) with (Z.of_nat (length (p ++ [b]))) in C3
    by (rewrite length_app; simpl; lia).
  assert (Lp : length (p ++ [b]) = S (length p)) by (rewrite length_app; simpl; lia).
  rewrite Hbl.
  destruct (decide (length q = 63%nat)) as [E|E].
  - replace ((Z.of_nat (length q) + 1) mod 64 =? 0) with true by (rewrite E; done).
    rewrite sha_calculate_spec by done. cbn [hash buf blen lenhi lenlo].
    assert (Hk : (length (p ++ [b]) / 64 = S k)%nat).
    { rewrite Lp. symmetry. apply (Nat.div_unique _ 64 _ 0); lia. }
    assert (Hblk : take 64 (drop (64 * k) (p ++ [b])) = q ++ [b]).
    { rewrite drop_app_le by lia. fold q. apply take_ge. rewrite length_app. simpl. lia. }
    assert (HW : take 16 b1 = block_words (q ++ [b])).
    { apply full_words; auto; [rewrite length_app; simpl; lia|].
      apply Forall_app; split; [done|by constructor]. }
    assert (LW : length (schedule (block_words (q ++ [b]))) = 80%nat).
    { destruct (sha_expand_spec b1 Lb1) as [E1 L1]. by rewrite <-HW, <-E1. }
    rewrite HW. split; cbn [hash buf blen lenhi lenlo]; auto.
    + rewrite Hk, blocks_last, Hblk, blocks_app, <-Hhash by lia. unfold sha1_block. reflexivity.
    + rewrite Lp. zdm.
    + intros j Hj. rewrite Hk, drop_ge by lia. unfold word. rewrite drop_nil. simpl.
      split; [done|apply Z.mod_1_r].
  - replace ((Z.of_nat (length q) + 1) mod 64 =? 0) with false by (symmetry; apply Z.eqb_neq; zdm).
    assert (Hk : (length (p ++ [b]) / 64 = k)%nat).
    { rewrite Lp. symmetry. apply (Nat.div_unique _ 64 _ (S (length q))); lia. }
    split; cbn [hash buf blen lenhi lenlo]; auto.
    + by rewrite Hk, blocks_app, <-Hhash by lia.
    + rewrite Lp, Lq. zdm.
    + rewrite Hk, drop_app_le by lia. exact Hw'.
Qed.

Lemma sha_buffer_absorbed data : ∀ sha p,
  sha_absorbed sha p → Forall is_byte p → Forall is_byte data → sha_absorbed (sha_buffer sha data) (p ++ data).
Proof.
  induction data as [|b data IH]; intros sha p Ha Hp Hd; simpl; [by rewrite app_nil_r|].
  apply Forall_cons in Hd as [Hb Hd].
  replace (p ++ b :: data) with ((p ++ [b]) ++ data) by (by rewrite <-app_assoc).
  apply IH; [by apply sha_byte_absorbed|apply Forall_app; split; [done|by constructor]|done].
Qed.

Definition pad_zeros (n : nat) : nat := Z.to_nat ((56 - Z.of_nat n) mod 64).

Lemma sha_pad_zeros fuel : ∀ sha p,
  sha_absorbed sha p → Forall is_byte p → (pad_zeros (length p) <= fuel)%nat →
  ∃ sha', sha_pad fuel sha = Some sha' ∧ sha_absorbed sha' (p ++ replicate (pad_zeros (length p)) 0).
Proof.
  induction fuel as [|fuel IH]; intros sha p Ha Hp Hf; simpl; rewrite (ab_blen _ _ Ha).
  - destruct (Z.eqb_spec (Z.of_nat (length p) mod 64) 56); [|unfold pad_zeros in Hf; zdm].
    exists sha. split; [done|]. replace (pad_zeros (length p)) with 0%nat by lia.
    simpl. by rewrite app_nil_r.
  - destruct (Z.eqb_spec (Z.of_nat (length p) mod 64) 56).
    + exists sha. split; [done|]. replace (pad_zeros (length p)) with 0%nat by (unfold pad_zeros; zdm).
      simpl. by rewrite app_nil_r.
    + assert (H0 : is_byte 0) by (unfold is_byte; lia).
      destruct (IH (sha_byte sha 0) (p ++ [0])) as (sha' & E & Ha').
      * by apply sha_byte_absorbed.
      * apply Forall_app; split; [done|by constructor].
      * rewrite length_app. simpl. unfold pad_zeros in *. zdm.
      * exists sha'. split; [exact E|].
        replace (p ++ replicate (pad_zeros (length p)) 0)
          with ((p ++ [0]) ++ replicate (pad_zeros (length (p ++ [0]))) 0); [done|].
        rewrite <-app_assoc. f_equal. rewrite length_app. simpl.
        replace (pad_zeros (length p)) with (S (pad_zeros (length p + 1))); [done|].
        unfold pad_zeros. zdm.
Qed.

Lemma byte_of x k : 0 <= k → (x >>! k) &! 255 = x / 2 ^ k mod 256.
Proof.
  intros. change 255 with (Z.ones 8). by rewrite Z.land_ones, Z.shiftr_div_pow2 by lia.
Qed.

Lemma length_field hi lo n :
  is_u32 hi → is_u32 lo → hi * 2 ^ 32 + lo = n →
  [ (hi >>! 24) &! 255; (hi >>! 16) &! 255; (hi >>! 8) &! 255; hi &! 255;
    (lo >>! 24) &! 255; (lo >>! 16) &! 255; (lo >>! 8) &! 255; lo &! 255 ] = be_bytes 8 n.
Proof.
  unfold is_u32. intros Hh Hl <-. rewrite !byte_of by lia.
  change 255 with (Z.ones 8). rewrite !Z.land_ones by lia. by rewrite be_bytes_hi_lo.
Qed.

(** Finishing a context that has sha_absorbed [p] with a last piece [data]. *)
Lemma sha_finish sha p data :
  sha_absorbed sha p → Forall is_byte p → Forall is_byte data → strlen (p ++ data) < 2 ^ 61 →
  ∃ sha', iks_sha_hash sha data true = Some sha' ∧ hash sha' = sha1 (p ++ data).
Proof.
  intros Ha Hp Hd Hlen. unfold iks_sha_hash. cbn [negb].
  pose proof (sha_buffer_absorbed data sha p Ha Hp Hd) as H1.
  assert (Hm : Forall is_byte (p ++ data)) by (by apply Forall_app).
  set (m := p ++ data) in *. set (s1 := sha_buffer sha data) in *. clearbody s1 m.
  assert (H80 : Forall is_byte [0x80]) by (constructor; [unfold is_byte; lia|done]).
  pose proof (sha_buffer_absorbed [0x80] s1 m H1 Hm H80) as H2.
  assert (Hm2 : Forall is_byte (m ++ [0x80])) by (by apply Forall_app).
  destruct (sha_pad_zeros 64 _ _ H2 Hm2) as (s3 & E3 & H3); [unfold pad_zeros; zdm|].
  destruct (ab_len _ _ H1) as (Hhi & Hlo & Hl). unfold strlen in Hlen.
  rewrite Z.mod_small in Hl by lia. rewrite (length_field _ _ _ Hhi Hlo Hl).
  rewrite E3. exists (sha_buffer s3 (be_bytes 8 (8 * Z.of_nat (length m)))). split; [reflexivity|].
  assert (Hm3 : Forall is_byte ((m ++ [0x80]) ++ replicate (pad_zeros (length (m ++ [0x80]))) 0)).
  { apply Forall_app. split; [done|]. apply Forall_replicate. unfold is_byte. lia. }
  pose proof (sha_buffer_absorbed _ _ _ H3 Hm3 (be_bytes_byte 8 (8 * Z.of_nat (length m)))) as H4.
  rewrite (ab_hash _ _ H4). unfold sha1, sha1_padding.
  replace (pad_zeros (length (m ++ [0x80]))) with (Z.to_nat ((55 - Z.of_nat (length m)) mod 64)).
  - by rewrite <-!app_assoc.
  - unfold pad_zeros. rewrite length_app. simpl length. f_equal. zdm.
Qed.

(** C23 (equivalence): hashing two pieces one after the other, the second with
    [finish], as [iks_make_auth] does with the stream id and the password,
    leaves in the context exactly the FIPS 180 SHA-1 of their concatenation. *)
Theorem sha_matches_fips (sid pass : list Z) :
  Forall is_byte sid → Forall is_byte pass → strlen (sid ++ pass) < 2 ^ 61 →
  ∃ s1 s2, iks_sha_hash iks_sha_reset sid false = Some s1 ∧
    iks_sha_hash s1 pass true = Some s2 ∧ hash s2 = sha1 (sid ++ pass).
Proof.
  intros Hs Hp Hl. exists (sha_buffer iks_sha_reset sid).
  destruct (sha_finish (sha_buffer iks_sha_reset sid) sid pass) as (s2 & E & H); auto.
  - apply (sha_buffer_absorbed sid _ [] sha_absorbed_reset); [constructor|done].
  - exists s2. split; [reflexivity|]. by split.
Qed.

Lemma sha_matches_fips_witness :
  ∃ s1 s2, iks_sha_hash iks_sha_reset (bs "3EE948B0") false = Some s1 ∧
    iks_sha_hash s1 (bs "Calli0pe") true = Some s2 ∧ hash s2 = sha1 (bs "3EE948B0" ++ bs "Calli0pe").
Proof.
  apply (sha_matches_fips (bs "3EE948B0") (bs "Calli0pe"));
    [repeat constructor; unfold is_byte; lia..|reflexivity].
Defined.
