(* ===== verification/Md5.v ===== *)
(** * MD5 of the SASL DIGEST-MD5 exchange

    [src/sysapps/apps/cgi2/app/jabberlog/md5.c]: the context [iksmd5], the
    block function [iks_md5_compute], and [iks_md5_hash] with its buffering and
    its padding.  [unsigned long] has 32 bits; a piece of a message is a C
    object, shorter than 2^31 bytes, so [int len = slen] keeps its value.  The theorems compare the code
    with MD5 as RFC 1321 defines it: they agree on every message whose length
    is not a positive multiple of 64, and on the others the padding bit is
    lost. *)

From S2P Require Import Prelude Blocks.

Local Open Scope Z_scope.
Local Open Scope c_scope.

Record iksmd5 : Type := mk_iksmd5 {
  total0 : Z; total1 : Z;     (* unsigned long total[2] *)
  state : list Z;             (* unsigned long state[4] *)
  buffer : list Z;            (* unsigned char buffer[64] *)
  blen : Z }.                 (* unsigned char blen, the byte after buffer[63] *)

Definition set_state (m : iksmd5) (s : list Z) : iksmd5 :=
  mk_iksmd5 (total0 m) (total1 m) s (buffer m) (blen m).
Definition set_buffer (m : iksmd5) (b : list Z) : iksmd5 :=
  mk_iksmd5 (total0 m) (total1 m) (state m) b (blen m).
Definition set_blen (m : iksmd5) (n : Z) : iksmd5 :=
  mk_iksmd5 (total0 m) (total1 m) (state m) (buffer m) n.

(** ** The block function *)

Definition GET_UINT32 (b : list Z) (i : nat) : Z :=
  b !!! i |! b !!! (i + 1)%nat <<! 8 |! b !!! (i + 2)%nat <<! 16 |! b !!! (i + 3)%nat <<! 24.

Definition PUT_UINT32 (n : Z) : list Z := [u8 n; u8 (n >>! 8); u8 (n >>! 16); u8 (n >>! 24)].

Definition F (x y z : Z) : Z := z ^! (x &! (y ^! z)).
Definition G (x y z : Z) : Z := y ^! (z &! (x ^! y)).
Definition H (x y z : Z) : Z := x ^! y ^! z.
Definition I (x y z : Z) : Z := y ^! (x |! not32 z).
Definition S_ (x n : Z) : Z := (x <<! n) |! ((x &! 0xFFFFFFFF) >>! (32 - n)).

Definition P (r : list Z) (i : nat) (f : Z → Z → Z → Z) (X : list Z) (k : nat) (s t : Z) : list Z :=
  let r1 := <[i := r !!! i +! (f (r !!! ((i + 1) mod 4)%nat) (r !!! ((i + 2) mod 4)%nat)
                                 (r !!! ((i + 3) mod 4)%nat) +! X !!! k +! t)]> r in
  <[i := S_ (r1 !!! i) s +! r1 !!! ((i + 1) mod 4)%nat]> r1.

Definition T : list Z :=
  [ 0xd76aa478; 0xe8c7b756; 0x242070db; 0xc1bdceee; 0xf57c0faf; 0x4787c62a; 0xa8304613; 0xfd469501;
    0x698098d8; 0x8b44f7af; 0xffff5bb1; 0x895cd7be; 0x6b901122; 0xfd987193; 0xa679438e; 0x49b40821;
    0xf61e2562; 0xc040b340; 0x265e5a51; 0xe9b6c7aa; 0xd62f105d; 0x02441453; 0xd8a1e681; 0xe7d3fbc8;
    0x21e1cde6; 0xc33707d6; 0xf4d50d87; 0x455a14ed; 0xa9e3e905; 0xfcefa3f8; 0x676f02d9; 0x8d2a4c8a;
    0xfffa3942; 0x8771f681; 0x6d9d6122; 0xfde5380c; 0xa4beea44; 0x4bdecfa9; 0xf6bb4b60; 0xbebfbc70;
    0x289b7ec6; 0xeaa127fa; 0xd4ef3085; 0x04881d05; 0xd9d4d039; 0xe6db99e5; 0x1fa27cf8; 0xc4ac5665;
    0xf4292244; 0x432aff97; 0xab9423a7; 0xfc93a039; 0x655b59c3; 0x8f0ccc92; 0xffeff47d; 0x85845dd1;
    0x6fa87e4f; 0xfe2ce6e0; 0xa3014314; 0x4e0811a1; 0xf7537e82; 0xbd3af235; 0x2ad7d2bb; 0xeb86d391 ].

Definition RS1 : list Z := [7; 12; 17; 22].
Definition RS2 : list Z := [5; 9; 14; 20].
Definition RS3 : list Z := [4; 11; 16; 23].
Definition RS4 : list Z := [6; 10; 15; 21].

(** One of the four loops of [iks_md5_compute]: [k] starts at 0 and steps by 3
    modulo 4, [p] starts at [p0] and steps by [dp] modulo 16 (in the first loop
    the index of [X] is the loop counter itself, which is [p0 = 0], [dp = 1]). *)
Definition md5_turn (f : Z → Z → Z → Z) (RS : list Z) (off dp : nat) (X : list Z)
    (st : list Z * nat * nat) (i : nat) : list Z * nat * nat :=
  let '(R, k, p) := st in
  (P R k f X p (RS !!! (i mod 4)%nat) (T !!! (i + off)%nat), ((k + 3) mod 4)%nat, ((p + dp) mod 16)%nat).

Definition md5_loop (f : Z → Z → Z → Z) (RS : list Z) (off p0 dp : nat) (X R : list Z) : list Z :=
  (fold_left (md5_turn f RS off dp X) (seq 0 16) (R, 0%nat, p0)).1.1.

Definition iks_md5_compute (m : iksmd5) : iksmd5 :=
  let X := map (λ i, GET_UINT32 (buffer m) (i * 4)) (seq 0 16) in
  let R := state m in
  let R := md5_loop F RS1 0 0 1 X R in
  let R := md5_loop G RS2 16 1 5 X R in
  let R := md5_loop H RS3 32 5 3 X R in
  let R := md5_loop I RS4 48 0 7 X R in
  set_state m (map (λ i, state m !!! i +! R !!! i) (seq 0 4)).

(** ** Buffering *)

Definition iks_md5_reset : iksmd5 :=
  mk_iksmd5 0 0 [0x67452301; 0xEFCDAB89; 0x98BADCFE; 0x10325476] (replicate 64 0) 0.

(** [memcpy (md5->buffer + off, data, j)]. *)
Definition memcpy_buffer (m : iksmd5) (off : nat) (data : list Z) (j : nat) : iksmd5 :=
  set_buffer m (take off (buffer m) ++ take j data ++ drop (off + j) (buffer m)).

(** [total] advanced by [n] bits, with the carry test of the code. *)
Definition add_total (m : iksmd5) (n : Z) : iksmd5 :=
  let t0 := total0 m +! n in
  mk_iksmd5 t0 (total1 m +! b2z (t0 <? n)) (state m) (buffer m) (blen m).

(** [while (len > 0) ...]: every turn consumes at least one byte, so the
    number of bytes is enough fuel ([md5_absorb_spec] shows it). *)
Fixpoint md5_absorb (fuel : nat) (m : iksmd5) (data : list Z) : iksmd5 :=
  match fuel, data with
  | S fuel', _ :: _ =>
      let m := set_blen (iks_md5_compute m) 0 in
      let m := add_total m (8 * 64) in
      let j := (length data `min` 64)%nat in
      let m := set_blen (memcpy_buffer m 0 data j) (Z.of_nat j) in
      md5_absorb fuel' m (drop j data)
  | _, _ => m
  end.

(** [md5->buffer[(md5->blen)++] = v].  [blen] is the byte that follows the
    buffer in the structure, so with [blen = 64] the store lands on [blen]. *)
Definition poke (m : iksmd5) (v : Z) : iksmd5 :=
  if blen m <? 64
  then set_blen (set_buffer m (<[Z.to_nat (blen m) := v]> (buffer m))) (u8 (blen m + 1))
  else set_blen m v.

(** [while (md5->blen < lim) md5->buffer[(md5->blen)++] = 0x00]. *)
Fixpoint poke_zeros (fuel : nat) (lim : Z) (m : iksmd5) : iksmd5 :=
  if blen m <? lim then
    match fuel with O => m | S fuel' => poke_zeros fuel' lim (poke m 0) end
  else m.

Definition put_total (m : iksmd5) : iksmd5 :=
  set_buffer m (take 56 (buffer m) ++ PUT_UINT32 (total0 m) ++ PUT_UINT32 (total1 m)).

Definition md5_finish (m : iksmd5) : iksmd5 :=
  let m := add_total m (8 * blen m) in
  let m := poke m 0x80 in
  let m := if 56 <? blen m
           then set_blen (iks_md5_compute (poke_zeros 64 64 m)) 0
           else m in
  let m := poke_zeros 64 56 m in
  iks_md5_compute (put_total m).

Definition iks_md5_hash (m : iksmd5) (data : list Z) (finish : bool) : iksmd5 :=
  let i := Z.to_nat (64 - blen m) in
  let j := (length data `min` i)%nat in
  let m := memcpy_buffer m (Z.to_nat (blen m)) data j in
  let m := set_blen m (u8 (blen m + Z.of_nat j)) in
  let m := md5_absorb (length data) m (drop j data) in
  if finish then md5_finish m else m.

Definition iks_md5_digest (m : iksmd5) : list Z := concat (map PUT_UINT32 (state m)).

(** [sprintf ("%02x")] of every byte of the digest. *)
Definition iks_md5_print (m : iksmd5) : list Z :=
  concat (map hex_byte (iks_md5_digest m)).

Definition iks_md5 (data : list Z) : list Z :=
  iks_md5_print (iks_md5_hash iks_md5_reset data true).

(** Test vectors of RFC 1321. *)
Example iks_md5_empty : iks_md5 [] = bs "d41d8cd98f00b204e9800998ecf8427e".
Proof. vm_compute. reflexivity. Qed.
Example iks_md5_abc : iks_md5 (bs "abc") = bs "900150983cd24fb0d6963f7d28e17f72".
Proof. vm_compute. reflexivity. Qed.
Example iks_md5_digits :
  iks_md5 (bs "12345678901234567890123456789012345678901234567890123456789012345678901234567890")
  = bs "57edf4a22be3c955ac49da2e2107b67a".
Proof. vm_compute. reflexivity. Qed.

(** ** MD5 as RFC 1321 states it *)

Definition rfc_F (x y z : Z) : Z := (x &! y) |! (Z.lnot x &! z).
Definition rfc_G (x y z : Z) : Z := (x &! z) |! (y &! Z.lnot z).
Definition rotl (x n : Z) : Z := (x <<! n) |! (x >>! (32 - n)).

Definition quad : Type := Z * Z * Z * Z.

(** The operation [a = b + ((a + f(b,c,d) + X[k] + T[i]) <<< s)], after which
    the four registers move one place on. *)
Definition rfc_op (f : Z → Z → Z → Z) (s x t : Z) (r : quad) : quad :=
  let '(a, b, c, d) := r in
  (d, u32 (b + rotl (u32 (a + f b c d + x + t)) s), b, c).

Definition rfc_fun (i : nat) : Z → Z → Z → Z :=
  if (i <? 16)%nat then rfc_F else if (i <? 32)%nat then rfc_G
  else if (i <? 48)%nat then H else I.

Definition rfc_word (i : nat) : nat :=
  if (i <? 16)%nat then i else if (i <? 32)%nat then ((5 * i + 1) mod 16)%nat
  else if (i <? 48)%nat then ((3 * i + 5) mod 16)%nat else ((7 * i) mod 16)%nat.

Definition rfc_shift (i : nat) : Z :=
  (if (i <? 16)%nat then RS1 else if (i <? 32)%nat then RS2
   else if (i <? 48)%nat then RS3 else RS4) !!! (i mod 4)%nat.

Definition rfc_step (X : list Z) (r : quad) (i : nat) : quad :=
  rfc_op (rfc_fun i) (rfc_shift i) (X !!! rfc_word i) (T !!! i) r.

Definition rfc_rounds (X : list Z) (r : quad) : quad := fold_left (rfc_step X) (seq 0 64) r.

Definition md5_words (m : list Z) : list Z := map (λ j, le (take 4 (drop (4 * j) m))) (seq 0 16).

Definition quad_of (h : list Z) : quad := (h !!! 0%nat, h !!! 1%nat, h !!! 2%nat, h !!! 3%nat).

Definition add_quad (h : list Z) (r : quad) : list Z :=
  let '(a, b, c, d) := r in
  [u32 (h !!! 0%nat + a); u32 (h !!! 1%nat + b); u32 (h !!! 2%nat + c); u32 (h !!! 3%nat + d)].

Definition md5_block (h m : list Z) : list Z := add_quad h (rfc_rounds (md5_words m) (quad_of h)).

Definition md5_H0 : list Z := [0x67452301; 0xEFCDAB89; 0x98BADCFE; 0x10325476].

Definition md5_padding (n : nat) : list Z :=
  0x80 :: replicate (Z.to_nat ((55 - Z.of_nat n) mod 64)) 0 ++ le_bytes 8 (8 * Z.of_nat n).

Definition md5_ref (msg : list Z) : list Z :=
  let m := msg ++ md5_padding (length msg) in
  blocks md5_block (length m / 64) md5_H0 m.

(** ** The block function computes the rounds of the RFC *)

Lemma F_form x y z : F x y z = rfc_F x y z.
Proof.
  unfold F, rfc_F. apply Z.bits_inj'. intros i Hi.
  rewrite Z.lor_spec, !Z.lxor_spec, !Z.land_spec, Z.lxor_spec, Z.lnot_spec by done.
  by destruct (Z.testbit x i), (Z.testbit y i), (Z.testbit z i).
Qed.

Lemma G_form x y z : G x y z = rfc_G x y z.
Proof.
  unfold G, rfc_G. apply Z.bits_inj'. intros i Hi.
  rewrite Z.lor_spec, !Z.lxor_spec, !Z.land_spec, Z.lxor_spec, Z.lnot_spec by done.
  by destruct (Z.testbit x i), (Z.testbit y i), (Z.testbit z i).
Qed.

Lemma S_rotl x n : S_ (u32 x) n = rotl (u32 x) n.
Proof.
  unfold S_, rotl. change 0xFFFFFFFF with (Z.ones 32). rewrite Z.land_ones by lia.
  unfold u32. by rewrite Zmod_mod.
Qed.

(** The registers of the RFC, read from the array at the moving index [k]. *)
Definition view (R : list Z) (k : nat) : quad :=
  (R !!! k, R !!! ((k + 1) mod 4)%nat, R !!! ((k + 2) mod 4)%nat, R !!! ((k + 3) mod 4)%nat).

Lemma P_op R k f g X p s t :
  length R = 4%nat → (k < 4)%nat → (∀ x y z, f x y z = g x y z) →
  view (P R k f X p s t) ((k + 3) mod 4) = rfc_op g s (X !!! p) t (view R k)
  ∧ length (P R k f X p s t) = 4%nat.
Proof.
  intros HR Hk Hf. split; [|unfold P; by rewrite !length_insert].
  destruct R as [|a [|b [|c [|d [|]]]]]; try discriminate.
  assert (E : ∀ a b c d x, a +! (f b c d +! x +! t) = u32 (a + g b c d + x + t)).
  { intros. unfold add32, u32. rewrite Hf, Zplus_mod_idemp_l, Zplus_mod_idemp_r. f_equal. lia. }
  assert (E2 : ∀ x y, S_ (u32 x) s +! y = u32 (y + rotl (u32 x) s)).
  { intros. rewrite S_rotl. unfold add32. f_equal. lia. }
  destruct k as [|[|[|[|]]]]; try lia; unfold P, view, rfc_op; cbn -[add32 u32 S_ rotl];
    rewrite !E, !E2; reflexivity.
Qed.

Lemma md5_loop_rounds f RS off p0 dp X R :
  length R = 4%nat →
  (∀ i x y z, (i < 16)%nat → f x y z = rfc_fun (i + off) x y z) →
  (∀ i, (i < 16)%nat → RS !!! (i mod 4)%nat = rfc_shift (i + off)) →
  (∀ i, (i < 16)%nat → ((p0 + dp * i) mod 16)%nat = rfc_word (i + off)) →
  (p0 < 16)%nat →
  view (md5_loop f RS off p0 dp X R) 0
  = fold_left (rfc_step X) (seq off 16) (view R 0)
  ∧ length (md5_loop f RS off p0 dp X R) = 4%nat.
Proof.
  intros HR Hf Hs Hp Hp0. unfold md5_loop.
  enough (E : ∀ n, (n <= 16)%nat →
    let st := fold_left (md5_turn f RS off dp X) (seq 0 n) (R, 0%nat, p0) in
    view st.1.1 st.1.2 = fold_left (rfc_step X) (seq off n) (view R 0)
    ∧ length st.1.1 = 4%nat ∧ st.1.2 = ((3 * n) mod 4)%nat ∧ st.2 = ((p0 + dp * n) mod 16)%nat).
  { destruct (E 16%nat ltac:(lia)) as (E1 & E2 & E3 & _). split; [|done]. by rewrite <-E1, E3. }
  induction n as [|n IH]; intros Hn; cbv zeta.
  - cbn [seq fold_left fst snd]. split; [done|]. split; [done|]. split; [done|].
    by rewrite Nat.mul_0_r, Nat.add_0_r, Nat.mod_small by lia.
  - destruct (IH ltac:(lia)) as (E1 & E2 & E3 & E4). rewrite !seq_S, !fold_left_app. cbn [fold_left].
    destruct (fold_left (md5_turn f RS off dp X) (seq 0 n) (R, 0%nat, p0)) as [[R' k] p].
    cbn [fst snd] in *. unfold md5_turn. cbn [fst snd].
    destruct (P_op R' k f (rfc_fun (n + off)) X p (RS !!! ((0 + n) mod 4)%nat)
      (T !!! (0 + n + off)%nat) E2) as [V L].
    + rewrite E3. apply Nat.mod_upper_bound. lia.
    + intros. apply Hf. lia.
    + rewrite V, E1. split; [|split; [exact L|split]].
      * unfold rfc_step. replace (off + n)%nat with (n + off)%nat by lia.
        rewrite E4, Hp by lia. f_equal. apply Hs. lia.
      * rewrite E3, Nat.Div0.add_mod_idemp_l. f_equal. lia.
      * rewrite E4, Nat.Div0.add_mod_idemp_l. f_equal. lia.
Qed.

Ltac below16 := intros i Hi; do 16 (destruct i as [|i]; [reflexivity|]); lia.

Lemma GET_UINT32_le b i :
  Forall is_byte b → (i + 4 <= length b)%nat → GET_UINT32 b i = le (take 4 (drop i b)).
Proof.
  intros Hb Hi.
  destruct (lookup_lt_is_Some_2 b i) as [b0 E0]; [lia|].
  destruct (lookup_lt_is_Some_2 b (i + 1)) as [b1 E1]; [lia|].
  destruct (lookup_lt_is_Some_2 b (i + 2)) as [b2 E2]; [lia|].
  destruct (lookup_lt_is_Some_2 b (i + 3)) as [b3 E3]; [lia|].
  pose proof (Forall_lookup_1 _ _ _ _ Hb E0). pose proof (Forall_lookup_1 _ _ _ _ Hb E1).
  pose proof (Forall_lookup_1 _ _ _ _ Hb E2). pose proof (Forall_lookup_1 _ _ _ _ Hb E3).
  unfold GET_UINT32, is_byte in *.
  rewrite (list_lookup_total_correct _ _ _ E0), (list_lookup_total_correct _ _ _ E1),
    (list_lookup_total_correct _ _ _ E2), (list_lookup_total_correct _ _ _ E3).
  rewrite (drop_S b b0 i E0), (drop_S b b1 (S i)), (drop_S b b2 (S (S i))), (drop_S b b3 (S (S (S i))))
    by (rewrite <-?E1, <-?E2, <-?E3; f_equal; lia).
  cbn [take le]. unfold shl32, u32. rewrite !Z.shiftl_mul_pow2 by lia. rewrite !Z.mod_small by lia.
  rewrite (lor_add_r b0 _ 8) by (lia || by exists b1).
  rewrite (lor_add_r (b0 + _) _ 16) by (lia || by exists b2).
  rewrite (lor_add_r (b0 + _ + _) _ 24) by (lia || by exists b3). rewrite take_0. simpl le. lia.
Qed.

Lemma compute_words b :
  length b = 64%nat → Forall is_byte b → map (λ i, GET_UINT32 b (i * 4)) (seq 0 16) = md5_words b.
Proof.
  intros Hl Hb. apply map_ext_in. intros j Hj%in_seq.
  rewrite GET_UINT32_le by (done || lia). by rewrite Nat.mul_comm.
Qed.

Lemma iks_md5_compute_spec m :
  length (state m) = 4%nat → length (buffer m) = 64%nat → Forall is_byte (buffer m) →
  iks_md5_compute m = set_state m (md5_block (state m) (buffer m)).
Proof.
  intros Hs Hl Hb. unfold iks_md5_compute. rewrite compute_words by done.
  set (X := md5_words (buffer m)).
  destruct (md5_loop_rounds F RS1 0 0 1 X (state m)) as [V1 L1];
    [done|intros i x y z Hi; rewrite F_form; revert i Hi; below16|below16|below16|lia|].
  destruct (md5_loop_rounds G RS2 16 1 5 X (md5_loop F RS1 0 0 1 X (state m))) as [V2 L2];
    [done|intros i x y z Hi; rewrite G_form; revert i Hi; below16|below16|below16|lia|].
  set (R2 := md5_loop G RS2 16 1 5 X _) in *.
  destruct (md5_loop_rounds H RS3 32 5 3 X R2) as [V3 L3];
    [done|intros i x y z; revert i; below16|below16|below16|lia|].
  set (R3 := md5_loop H RS3 32 5 3 X R2) in *.
  destruct (md5_loop_rounds I RS4 48 0 7 X R3) as [V4 L4];
    [done|intros i x y z; revert i; below16|below16|below16|lia|].
  set (R4 := md5_loop I RS4 48 0 7 X R3) in *.
  rewrite V3, V2, V1, <-!fold_left_app in V4.
  unfold md5_block. f_equal.
  assert (E : view R4 0 = rfc_rounds X (quad_of (state m))) by exact V4.
  fold X. rewrite <-E. reflexivity.
Qed.

#[local] Opaque rfc_rounds md5_words.

(** ** Absorbing a message *)

(** The number of blocks that have been compressed after [n] bytes: a full
    buffer waits for the next byte. *)
Definition done_blocks (n : nat) : nat := ((n - 1) / 64)%nat.

Record md5_absorbed (m : iksmd5) (p : list Z) : Prop := {
  ab_state : state m = blocks md5_block (done_blocks (length p)) md5_H0 p;
  ab_state_len : length (state m) = 4%nat;
  ab_buffer : length (buffer m) = 64%nat;
  ab_bytes : Forall is_byte (buffer m);
  ab_blen : blen m = Z.of_nat (length p - 64 * done_blocks (length p));
  ab_pending : take (Z.to_nat (blen m)) (buffer m) = drop (64 * done_blocks (length p)) p;
  ab_total : is_u32 (total0 m) ∧ is_u32 (total1 m) ∧
    total1 m * 2 ^ 32 + total0 m = (512 * Z.of_nat (done_blocks (length p))) mod 2 ^ 64 }.

Lemma md5_absorbed_reset : md5_absorbed iks_md5_reset [].
Proof. split; try done. by apply Forall_replicate. Qed.

Lemma add_total_spec m n x :
  is_u32 (total0 m) → is_u32 (total1 m) → 0 <= n < 2 ^ 32 →
  total1 m * 2 ^ 32 + total0 m = x mod 2 ^ 64 →
  let m' := add_total m n in
  is_u32 (total0 m') ∧ is_u32 (total1 m') ∧
  total1 m' * 2 ^ 32 + total0 m' = (x + n) mod 2 ^ 64.
Proof.
  unfold is_u32, add_total, add32, u32, b2z. cbn [total0 total1]. intros H0 H1 Hn E.
  destruct (Z.ltb_spec ((total0 m + n) mod 2 ^ 32) n); zdm.
Qed.

Lemma done_blocks_bound n :
  (n = 0 ∧ done_blocks n = 0 ∨ 0 < n ∧ 64 * done_blocks n < n <= 64 * done_blocks n + 64)%nat.
Proof.
  unfold done_blocks. pose proof (Nat.div_mod_eq (n - 1) 64).
  pose proof (Nat.mod_upper_bound (n - 1) 64). destruct n; [left; done|right; lia].
Qed.

Lemma done_blocks_eq n k :
  (n = 0 ∧ k = 0 ∨ 64 * k < n <= 64 * k + 64)%nat → done_blocks n = k.
Proof. pose proof (done_blocks_bound n). lia. Qed.

Lemma memcpy_take (b : list Z) off data j :
  (off <= length b)%nat → (j <= length data)%nat →
  take (off + j) (take off b ++ take j data ++ drop (off + j) b) = take off b ++ take j data.
Proof.
  intros. rewrite app_assoc, take_app_length'; [done|].
  rewrite length_app, !length_take. lia.
Qed.

Lemma memcpy_length (b : list Z) off data j :
  (off + j <= length b)%nat → (j <= length data)%nat →
  length (take off b ++ take j data ++ drop (off + j) b) = length b.
Proof. intros. rewrite !length_app, !length_take, length_drop. lia. Qed.

Lemma md5_block_length h m : length (md5_block h m) = 4%nat.
Proof. unfold md5_block, add_quad. by destruct (rfc_rounds _ _) as [[[??]?]?]. Qed.

#[local] Opaque md5_block iks_md5_compute.

(** Filling the buffer with the first bytes of a piece. *)
Lemma absorb_fill m p data :
  md5_absorbed m p → Forall is_byte data →
  let j := (length data `min` Z.to_nat (64 - blen m))%nat in
  md5_absorbed (set_blen (memcpy_buffer m (Z.to_nat (blen m)) data j) (u8 (blen m + Z.of_nat j)))
           (p ++ take j data).
Proof.
  intros [Hst Hsl Hb Hby Hbl Hpe Htot] Hd j.
  pose proof (done_blocks_bound (length p)) as Hk. set (k := done_blocks (length p)) in *.
  assert (Hj : (j <= length data)%nat) by (unfold j; lia).
  assert (Hj2 : Z.of_nat j <= 64 - blen m) by (unfold j; lia).
  assert (Lp : length (p ++ take j data) = (length p + j)%nat) by (rewrite length_app, length_take; lia).
  assert (Hk' : done_blocks (length (p ++ take j data)) = k) by (apply done_blocks_eq; lia).
  assert (Hu : u8 (blen m + Z.of_nat j) = blen m + Z.of_nat j) by (unfold u8; apply Z.mod_small; lia).
  split; cbn [state buffer blen total0 total1 set_blen set_buffer memcpy_buffer]; rewrite ?Hk'; auto.
  - rewrite blocks_app; [done|]. lia.
  - rewrite memcpy_length; lia.
  - rewrite !Forall_app. auto using Forall_take, Forall_drop.
  - rewrite Hu, Lp. lia.
  - rewrite Hu. replace (Z.to_nat (blen m + Z.of_nat j)) with (Z.to_nat (blen m) + j)%nat by lia.
    rewrite memcpy_take, Hpe by lia. rewrite drop_app_le; [done|]. lia.
Qed.

(** One turn of the loop over whole blocks. *)
Lemma absorb_turn m p data :
  md5_absorbed m p → Forall is_byte data → blen m = 64 → data ≠ [] →
  let j := (length data `min` 64)%nat in
  md5_absorbed (set_blen (memcpy_buffer (add_total (set_blen (iks_md5_compute m) 0) (8 * 64)) 0 data j)
              (Z.of_nat j)) (p ++ take j data).
Proof.
  intros [Hst Hsl Hb Hby Hbl Hpe (Ht0 & Ht1 & Ht)] Hd H64 Hne j.
  pose proof (done_blocks_bound (length p)) as Hk. set (k := done_blocks (length p)) in *.
  assert (Hj : (0 < j <= length data ∧ j <= 64)%nat) by (unfold j; destruct data; [done|simpl; lia]).
  assert (Lp : length (p ++ take j data) = (length p + j)%nat) by (rewrite length_app, length_take; lia).
  assert (Hk' : done_blocks (length (p ++ take j data)) = S k) by (apply done_blocks_eq; lia).
  rewrite iks_md5_compute_spec by done.
  assert (Hfull : buffer m = drop (64 * k) p).
  { rewrite <-Hpe, H64. symmetry. apply take_ge. lia. }
  destruct (add_total_spec m (8 * 64) (512 * Z.of_nat k) Ht0 Ht1 ltac:(lia) Ht) as (A & B & C).
  split; cbn [state buffer blen total0 total1 set_blen set_buffer set_state memcpy_buffer add_total];
    rewrite ?Hk'; auto using md5_block_length.
  - rewrite blocks_last, blocks_app by lia. rewrite drop_app_le by lia.
    rewrite take_app_le by (rewrite length_drop; lia).
    rewrite take_ge by (rewrite length_drop; lia). rewrite <-Hst, <-Hfull. reflexivity.
  - rewrite memcpy_length; lia.
  - rewrite !Forall_app. auto using Forall_take, Forall_drop.
  - lia.
  - rewrite Nat2Z.id. change j with (0 + j)%nat at 1. rewrite memcpy_take by lia. cbn [take app].
    rewrite drop_app_ge by lia. replace (64 * S k - length p)%nat with 0%nat by lia. done.
  - replace (512 * Z.of_nat (S k)) with (512 * Z.of_nat k + 8 * 64) by lia. auto.
Qed.

Lemma md5_absorb_spec fuel : ∀ m p data,
  md5_absorbed m p → Forall is_byte data → (length data <= fuel)%nat → (data ≠ [] → blen m = 64) →
  md5_absorbed (md5_absorb fuel m data) (p ++ data).
Proof.
  induction fuel as [|fuel IH]; intros m p data Ha Hd Hf H64.
  - destruct data; [|simpl in Hf; lia]. simpl. by rewrite app_nil_r.
  - destruct data as [|d data']; [simpl; by rewrite app_nil_r|].
    set (data := d :: data') in *. change (md5_absorb (S fuel) m data) with
      (md5_absorb fuel (set_blen (memcpy_buffer (add_total (set_blen (iks_md5_compute m) 0) (8 * 64)) 0
         data (length data `min` 64)) (Z.of_nat (length data `min` 64)))
         (drop (length data `min` 64) data)).
    assert (Hne : data ≠ []) by done. assert (0 < length data)%nat by (simpl; lia).
    pose proof (absorb_turn m p data Ha Hd (H64 Hne) Hne) as Ha'. cbv zeta in Ha'.
    clearbody data. set (j := (length data `min` 64)%nat) in *.
    replace (p ++ data) with ((p ++ take j data) ++ drop j data) by (by rewrite <-app_assoc, take_drop).
    apply IH; [done|by apply Forall_drop|rewrite length_drop; lia|].
    intros Hne'. cbn [blen set_blen]. destruct (drop j data) eqn:E; [done|].
    assert (0 < length (drop j data))%nat by (rewrite E; simpl; lia).
    rewrite length_drop in *. lia.
Qed.

Lemma iks_md5_hash_absorbed m p data :
  md5_absorbed m p → Forall is_byte data → md5_absorbed (iks_md5_hash m data false) (p ++ data).
Proof.
  intros Ha Hd. unfold iks_md5_hash. pose proof (absorb_fill m p data Ha Hd) as H1. cbv zeta in H1.
  set (j := (length data `min` Z.to_nat (64 - blen m))%nat) in *.
  replace (p ++ data) with ((p ++ take j data) ++ drop j data) by (by rewrite <-app_assoc, take_drop).
  apply md5_absorb_spec; [done|by apply Forall_drop|rewrite length_drop; lia|].
  intros Hne. cbn [blen set_blen memcpy_buffer set_buffer].
  assert (0 < length (drop j data))%nat by (destruct (drop j data); [done|simpl; lia]).
  rewrite length_drop in *.
  pose proof (ab_blen _ _ Ha). pose proof (done_blocks_bound (length p)).
  replace (blen m + Z.of_nat j) with 64 by lia. done.
Qed.

(** ** Finishing *)

Lemma PUT_total t0 t1 :
  is_u32 t0 → is_u32 t1 → PUT_UINT32 t0 ++ PUT_UINT32 t1 = le_bytes 8 (t1 * 2 ^ 32 + t0).
Proof.
  unfold is_u32. intros H0 H1.
  assert (E : le_bytes 8 (t1 * 2 ^ 32 + t0) = rev (be_bytes 8 (t1 * 2 ^ 32 + t0)))
    by (unfold be_bytes; by rewrite rev_involutive).
  rewrite E, be_bytes_hi_lo by done. unfold PUT_UINT32, u8. rewrite !Z.shiftr_div_pow2 by lia.
  reflexivity.
Qed.

Lemma PUT_bytes n : Forall is_byte (PUT_UINT32 n).
Proof. unfold PUT_UINT32, u8, is_byte. repeat constructor; zdm. Qed.

Lemma poke_done m v :
  length (buffer m) = 64%nat → 0 <= blen m < 64 →
  poke m v = set_blen (set_buffer m (take (Z.to_nat (blen m)) (buffer m) ++
               v :: drop (S (Z.to_nat (blen m))) (buffer m))) (blen m + 1).
Proof.
  intros Hb Hr. unfold poke. rewrite (proj2 (Z.ltb_lt _ _)) by lia.
  unfold u8. rewrite Z.mod_small by lia. by rewrite insert_take_drop by lia.
Qed.

Lemma poke_zeros_spec fuel : ∀ lim m,
  length (buffer m) = 64%nat → 0 <= blen m <= lim → lim <= 64 → lim - blen m <= Z.of_nat fuel →
  poke_zeros fuel lim m
  = set_blen (set_buffer m (take (Z.to_nat (blen m)) (buffer m) ++
      replicate (Z.to_nat (lim - blen m)) 0 ++ drop (Z.to_nat lim) (buffer m))) lim.
Proof.
  induction fuel as [|fuel IH]; intros lim m Hb Hr Hlim Hf; simpl poke_zeros;
    destruct (Z.ltb_spec (blen m) lim) as [Hlt|Hge]; try lia.
  1,3: replace lim with (blen m) by lia; rewrite Z.sub_diag; change (Z.to_nat 0) with 0%nat; cbn [replicate app];
    rewrite take_drop; by destruct m.
  rewrite poke_done by lia. destruct m as [t0 t1 s b r]. unfold set_blen, set_buffer. cbn in *.
  rewrite IH; cbn; [|rewrite length_app, length_take, length_cons, length_drop; lia|lia..].
  unfold set_blen, set_buffer. cbn. f_equal. set (n := Z.to_nat r).
  replace (Z.to_nat (r + 1)) with (n + 1)%nat by lia.
  replace (Z.to_nat (lim - r)) with (S (Z.to_nat (lim - (r + 1)))) by lia.
  assert (Ln : length (take n b) = n) by (rewrite length_take; lia).
  rewrite take_app_ge, Ln, drop_app_ge, Ln by lia.
  replace (n + 1 - n)%nat with 1%nat by lia. cbn [take replicate]. rewrite take_0.
  rewrite <-app_assoc. cbn [app]. do 3 f_equal.
  replace (Z.to_nat lim - n)%nat with (S (Z.to_nat lim - n - 1)) by lia. cbn [drop].
  rewrite drop_drop. f_equal. lia.
Qed.

(** What [iks_md5_hash (_, _, _, 1)] compresses after the last whole block: the
    pending bytes, the padding bit unless the buffer is full, and the length. *)
Definition code_tail (st pend L : list Z) : list Z :=
  if (length pend <? 56)%nat
  then md5_block st (pend ++ 0x80 :: replicate (55 - length pend) 0 ++ L)
  else if (length pend <? 64)%nat
  then md5_block (md5_block st (pend ++ 0x80 :: replicate (63 - length pend) 0)) (replicate 56 0 ++ L)
  else md5_block (md5_block st pend) (replicate 56 0 ++ L).

(** The last block: zeros up to the length field, the field, and the block
    function. *)
Lemma last_block m :
  length (state m) = 4%nat → length (buffer m) = 64%nat → Forall is_byte (buffer m) →
  0 <= blen m <= 56 →
  state (iks_md5_compute (put_total (poke_zeros 64 56 m)))
  = md5_block (state m) (take (Z.to_nat (blen m)) (buffer m) ++
      replicate (Z.to_nat (56 - blen m)) 0 ++ PUT_UINT32 (total0 m) ++ PUT_UINT32 (total1 m)).
Proof.
  intros Hs Hb Hby Hr. rewrite poke_zeros_spec by lia.
  assert (E : put_total (set_blen (set_buffer m (take (Z.to_nat (blen m)) (buffer m) ++
      replicate (Z.to_nat (56 - blen m)) 0 ++ drop (Z.to_nat 56) (buffer m))) 56)
    = set_blen (set_buffer m (take (Z.to_nat (blen m)) (buffer m) ++
      replicate (Z.to_nat (56 - blen m)) 0 ++ PUT_UINT32 (total0 m) ++ PUT_UINT32 (total1 m))) 56).
  { unfold put_total, set_blen, set_buffer. cbn [state buffer total0 total1 blen]. f_equal.
    rewrite !app_assoc. do 2 f_equal. apply take_app_length'.
    rewrite length_app, length_take, length_replicate. lia. }
  rewrite E, iks_md5_compute_spec; [done|done|..]; cbn [buffer set_blen set_buffer].
  - rewrite !length_app, length_take, length_replicate. unfold PUT_UINT32. cbn [length]. lia.
  - rewrite !Forall_app. split_and!; auto using Forall_take, PUT_bytes. by apply Forall_replicate.
Qed.

Lemma md5_finish_tail m1 :
  length (state m1) = 4%nat → length (buffer m1) = 64%nat → Forall is_byte (buffer m1) →
  0 <= blen m1 <= 64 →
  let m := poke m1 0x80 in
  let m := if 56 <? blen m
           then set_blen (iks_md5_compute (poke_zeros 64 64 m)) 0
           else m in
  state (iks_md5_compute (put_total (poke_zeros 64 56 m)))
  = code_tail (state m1) (take (Z.to_nat (blen m1)) (buffer m1))
      (PUT_UINT32 (total0 m1) ++ PUT_UINT32 (total1 m1)).
Proof.
  intros Hs Hb Hby Hr. set (pend := take _ _).
  assert (Lp : length pend = Z.to_nat (blen m1)) by (unfold pend; rewrite length_take; lia).
  assert (Bp : Forall is_byte pend) by (by apply Forall_take).
  assert (H80 : is_byte 128) by (unfold is_byte; lia).
  unfold code_tail. rewrite Lp.
  destruct (decide (blen m1 < 64)) as [Hlt|Hge].
  - rewrite (poke_done m1) by lia. fold pend. cbv zeta. cbn [blen set_blen].
    set (b := pend ++ 128 :: drop _ _).
    assert (Lb : length b = 64%nat) by (unfold b; rewrite length_app, length_cons, length_drop; lia).
    assert (Bb : Forall is_byte b).
    { unfold b. apply Forall_app. split; [done|]. constructor; [done|]. by apply Forall_drop. }
    assert (Tb : take (Z.to_nat (blen m1 + 1)) b = pend ++ [128]).
    { unfold b. replace (Z.to_nat (blen m1 + 1)) with (length pend + 1)%nat by lia.
      rewrite take_app_add. cbn [take]. by rewrite take_0. }
    destruct (Z.ltb_spec 56 (blen m1 + 1)).
    + rewrite (proj2 (Nat.ltb_ge _ _)), (proj2 (Nat.ltb_lt _ _)) by lia.
      rewrite (poke_zeros_spec 64 64); cbn [blen buffer set_blen set_buffer]; [|lia..].
      rewrite Tb, (drop_ge b), app_nil_r by lia. rewrite <-app_assoc. cbn [app].
      replace (Z.to_nat (64 - (blen m1 + 1))) with (63 - Z.to_nat (blen m1))%nat by lia.
      set (b' := pend ++ _).
      assert (Lb' : length b' = 64%nat)
        by (unfold b'; rewrite length_app, length_cons, length_replicate; lia).
      assert (Bb' : Forall is_byte b').
      { unfold b'. apply Forall_app. split; [done|]. constructor; [done|]. by apply Forall_replicate. }
      rewrite (iks_md5_compute_spec (set_blen (set_buffer _ b') 64)) by done. rewrite last_block; [done|apply md5_block_length|done|done|].
      cbn [blen set_blen]. lia.
    + rewrite (proj2 (Nat.ltb_lt _ _)) by lia. rewrite last_block; [|done..|cbn [blen set_blen]; lia].
      cbn [blen buffer state total0 total1 set_blen set_buffer]. rewrite Tb, <-app_assoc. cbn [app].
      do 3 f_equal. f_equal. f_equal. lia.
  - rewrite (proj2 (Nat.ltb_ge _ _)), (proj2 (Nat.ltb_ge (Z.to_nat (blen m1)) 64)) by lia.
    unfold poke. rewrite (proj2 (Z.ltb_ge (blen m1) 64)) by lia. cbv zeta. cbn [blen set_blen].
    change (56 <? 128) with true. cbv iota.
    assert (Ez : poke_zeros 64 64 (set_blen m1 128) = set_blen m1 128) by reflexivity.
    assert (Ep : pend = buffer m1) by (apply take_ge; lia).
    rewrite Ez, Ep, (iks_md5_compute_spec (set_blen m1 128)) by done.
    rewrite last_block; [done|apply md5_block_length|done|done|]. cbn [blen set_blen]. lia.
Qed.

Lemma md5_finish_absorbed m p :
  md5_absorbed m p → strlen p < 2 ^ 61 →
  state (md5_finish m)
  = code_tail (blocks md5_block (done_blocks (length p)) md5_H0 p)
      (drop (64 * done_blocks (length p)) p) (le_bytes 8 (8 * strlen p)).
Proof.
  intros [Hst Hsl Hb Hby Hbl Hpe (Ht0 & Ht1 & Ht)] Hlen. unfold strlen in *.
  pose proof (done_blocks_bound (length p)) as Hk. set (k := done_blocks (length p)) in *.
  destruct (add_total_spec m (8 * blen m) (512 * Z.of_nat k) Ht0 Ht1 ltac:(lia) Ht) as (A & B & C).
  assert (Hr : 0 <= blen m <= 64) by lia.
  unfold md5_finish. pose proof (md5_finish_tail (add_total m (8 * blen m)) Hsl Hb Hby Hr) as E.
  cbv zeta in E |- *. rewrite E, PUT_total by done.
  replace (512 * Z.of_nat k + 8 * blen m) with (8 * Z.of_nat (length p)) in C by lia.
  rewrite Z.mod_small in C by lia. rewrite C.
  change (state (add_total m _)) with (state m). change (buffer (add_total m _)) with (buffer m).
  change (blen (add_total m _)) with (blen m). rewrite Hst, Hpe. reflexivity.
Qed.

(** The padded message of the RFC, cut into blocks, is what [code_tail] feeds
    to the block function when the buffer is not full. *)
Lemma md5_ref_tail p :
  let k := done_blocks (length p) in
  (length p - 64 * k < 64)%nat →
  md5_ref p = code_tail (blocks md5_block k md5_H0 p) (drop (64 * k) p) (le_bytes 8 (8 * strlen p)).
Proof.
  intros k Hr. pose proof (done_blocks_bound (length p)) as Hk. fold k in Hk.
  unfold md5_ref, md5_padding, strlen.
  set (L := le_bytes 8 _). assert (LL : length L = 8%nat) by apply le_bytes_length.
  set (pend := drop (64 * k) p). assert (Lp : length pend = (length p - 64 * k)%nat) by apply length_drop.
  set (z := Z.to_nat _). assert (Lz : length (p ++ 128 :: replicate z 0 ++ L) = (length p + 1 + z + 8)%nat)
    by (rewrite length_app, length_cons, length_app, length_replicate; lia).
  assert (Dk : drop (64 * k) (p ++ 128 :: replicate z 0 ++ L) = pend ++ 128 :: replicate z 0 ++ L)
    by (rewrite drop_app_le; [done|lia]).
  cbv zeta. rewrite Lz. unfold code_tail.
  destruct (Nat.ltb_spec (length pend) 56) as [H56|H56].
  - assert (Ez : z = (55 - length pend)%nat).
    { unfold z. rewrite Lp. zify. zdm. }
    assert (Eq : ((length p + 1 + z + 8) / 64 = S k)%nat).
    { symmetry. apply (Nat.div_unique _ _ _ 0); lia. }
    rewrite Eq, blocks_last, blocks_app by lia. rewrite Dk, Ez, take_ge; [done|].
    rewrite length_app, length_cons, length_app, length_replicate. lia.
  - rewrite (proj2 (Nat.ltb_lt _ _)) by lia.
    assert (Ez : z = (63 - length pend + 56)%nat).
    { unfold z. rewrite Lp. zify. zdm. }
    assert (Eq : ((length p + 1 + z + 8) / 64 = S (S k))%nat).
    { symmetry. apply (Nat.div_unique _ _ _ 0); lia. }
    rewrite Eq, !blocks_last, blocks_app by lia. rewrite Dk.
    replace (64 * S k)%nat with (64 * k + 64)%nat by lia. rewrite <-drop_drop, Dk, Ez, replicate_add.
    replace (pend ++ 128 :: (replicate (63 - length pend) 0 ++ replicate 56 0) ++ L)
      with ((pend ++ 128 :: replicate (63 - length pend) 0) ++ (replicate 56 0 ++ L))
      by (by rewrite <-!app_assoc).
    assert (L64 : length (pend ++ 128 :: replicate (63 - length pend) 0) = 64%nat)
      by (rewrite length_app, length_cons, length_replicate; lia).
    rewrite take_app_length', drop_app_length' by done.
    rewrite (take_ge (replicate 56 0 ++ L)); [done|rewrite length_app, length_replicate; lia].
Qed.

(** [iks_md5_hash] called on successive pieces of a message. *)
Definition hash_pieces (m : iksmd5) (pieces : list (list Z)) : iksmd5 :=
  fold_left (λ m d, iks_md5_hash m d false) pieces m.

Lemma hash_pieces_absorbed pieces : ∀ m p,
  md5_absorbed m p → Forall (Forall is_byte) pieces → md5_absorbed (hash_pieces m pieces) (p ++ concat pieces).
Proof.
  induction pieces as [|d pieces IH]; intros m p Ha Hp; [by rewrite app_nil_r|].
  apply Forall_cons in Hp as [Hd Hp]. simpl concat. rewrite app_assoc.
  apply IH; [by apply iks_md5_hash_absorbed|done].
Qed.

Lemma finish_absorbed pieces data :
  Forall (Forall is_byte) pieces → Forall is_byte data →
  ∃ m, iks_md5_hash (hash_pieces iks_md5_reset pieces) data true = md5_finish m ∧
       md5_absorbed m (concat pieces ++ data).
Proof.
  intros Hp Hd. exists (iks_md5_hash (hash_pieces iks_md5_reset pieces) data false).
  split; [reflexivity|]. apply iks_md5_hash_absorbed; [|done].
  apply (hash_pieces_absorbed pieces _ [] md5_absorbed_reset Hp).
Qed.

Lemma md5_pieces (pieces : list (list Z)) (data : list Z) :
  Forall (Forall is_byte) pieces → Forall is_byte data →
  let p := concat pieces ++ data in
  strlen p < 2 ^ 61 → p = [] ∨ strlen p mod 64 ≠ 0 →
  state (iks_md5_hash (hash_pieces iks_md5_reset pieces) data true) = md5_ref p.
Proof.
  intros Hp Hd p Hl Hn. destruct (finish_absorbed pieces data Hp Hd) as (m & -> & Ha).
  fold p in Ha. rewrite (md5_finish_absorbed m p Ha Hl), md5_ref_tail; [done|].
  pose proof (done_blocks_bound (length p)). unfold strlen in Hn.
  destruct Hn as [->|Hn]; [simpl; lia|zdm].
Qed.

(** C28 (equivalence): a message handed to [iks_md5_hash] in any number of
    pieces, the last with [finish], leaves in [state] the MD5 value of RFC 1321
    of the whole message, for every message of less than 2^61 bytes whose
    length is zero or not a multiple of 64. *)
Theorem md5_matches_rfc (pieces : list (list Z)) (data : list Z) :
  Forall (Forall is_byte) pieces → Forall is_byte data →
  let p := concat pieces ++ data in
  strlen p < 2 ^ 61 → p = [] ∨ strlen p mod 64 ≠ 0 →
  state (iks_md5_hash (hash_pieces iks_md5_reset pieces) data true) = md5_ref p.
Proof. apply md5_pieces. Qed.

Lemma md5_matches_rfc_witness :
  state (iks_md5_hash (hash_pieces iks_md5_reset [bs "user:"; bs "realm:"]) (bs "secret") true)
  = md5_ref (bs "user:realm:secret").
Proof.
  apply (md5_matches_rfc [bs "user:"; bs "realm:"] (bs "secret"));
    [repeat constructor; unfold is_byte; lia..|reflexivity|right; discriminate].
Defined.

(** On a message whose length is a positive multiple of 64 the
    store of the padding byte lands on [blen] behind the buffer, and the code
    compresses a final block without the padding bit: 56 zeros and the length. *)
Theorem md5_multiple_of_64 (pieces : list (list Z)) (data : list Z) (c : nat) :
  Forall (Forall is_byte) pieces → Forall is_byte data →
  let p := concat pieces ++ data in
  strlen p < 2 ^ 61 → length p = (64 * (c + 1))%nat →
  state (iks_md5_hash (hash_pieces iks_md5_reset pieces) data true)
  = md5_block (blocks md5_block (c + 1) md5_H0 p) (replicate 56 0 ++ le_bytes 8 (8 * strlen p)).
Proof.
  intros Hp Hd p Hl Hn. destruct (finish_absorbed pieces data Hp Hd) as (m & -> & Ha).
  fold p in Ha. rewrite (md5_finish_absorbed m p Ha Hl).
  assert (E : done_blocks (length p) = c) by (apply done_blocks_eq; lia). rewrite E.
  unfold code_tail. rewrite length_drop, !(proj2 (Nat.ltb_ge _ _)) by lia.
  rewrite Nat.add_1_r, blocks_last, (take_ge (drop _ _)); [done|rewrite length_drop; lia].
Qed.

Lemma md5_multiple_of_64_witness :
  state (iks_md5_hash (hash_pieces iks_md5_reset [replicate 60 97]) (replicate 4 97) true)
  = md5_block (blocks md5_block 1 md5_H0 (replicate 64 97)) (replicate 56 0 ++ le_bytes 8 512)
  ∧ state (iks_md5_hash iks_md5_reset (replicate 64 97) true) ≠ md5_ref (replicate 64 97).
Proof.
  split.
  - apply (md5_multiple_of_64 [replicate 60 97] (replicate 4 97) 0);
      [repeat constructor; unfold is_byte; lia..|reflexivity|reflexivity].
  - vm_compute. discriminate.
Defined.
