(* ===== verification/IkStack.v ===== *)
(** * The memory pool of iksemel

    [src/sysapps/apps/cgi2/app/jabberlog/ikstack.c].  A pool has two chains of
    chunks: [meta] for aligned blocks, [data] for strings.  The chains only
    grow at their end; a chunk is filled from the front.  [last] is the offset
    of the string most recently put in the chunk, which [iks_stack_strcat] can
    extend in place.

    A chunk's [data] is the block's bytes, so every [memcpy] is checked against
    it.  [size_t] has 32 bits; [sizeof (ikschunk)] is 20 and [sizeof (ikstack)]
    is 12.  The alignment of a [double] is the parameter [A] (4 or 8, by ABI)
    and the content of fresh memory the parameter [junk].  Each operation makes
    at most one call of [iks_malloc]: [ok] says whether it succeeds. *)

From S2P Require Import Prelude.

Local Open Scope Z_scope.

Record ikschunk : Type := mk_chunk {
  ck_size : Z; ck_used : Z; ck_last : Z; ck_data : list Z }.

Record ikstack : Type := mk_ikstack {
  allocated : Z; meta : list ikschunk; data : list ikschunk }.

(** A pointer into a chain: the chunk and the offset in its [data]. *)
Abbreviation pptr := (nat * Z)%type.

Definition no_last : Z := 2 ^ 32 - 1.   (* (size_t) -1 *)

(** No object of the 32-bit machine is larger than [PTRDIFF_MAX]: such a
    request fails even when memory is left. *)
Definition malloc_ok (ok : bool) (n : Z) : bool := ok && (n <? 2 ^ 31).

Section pool.
Context (A : Z) (junk : nat → Z).

Definition MIN_CHUNK_SIZE : Z := A * 8.
Definition MIN_ALLOC_SIZE : Z := A.
Definition ALIGN (x : Z) : Z := u32 (x + (A - Z.land x (A - 1))).

(** A chunk in a block of [20 + size] bytes. *)
Definition new_chunk (size : Z) : ikschunk :=
  mk_chunk size 0 no_last (map junk (seq 0 (Z.to_nat (u32 (20 + size) - 20)))).

Fixpoint find_space (ok : bool) (alloc : Z) (cs : list ikschunk) (size : Z) :
    option (nat * Z * list ikschunk) :=
  match cs with
  | [] => None
  | c :: cs' =>
      if size <=? u32 (ck_size c - ck_used c) then Some (0%nat, alloc, cs)
      else match cs' with
      | [] =>
          let size := if size <? u32 (ck_size c * 2) then u32 (ck_size c * 2) else size in
          if malloc_ok ok (u32 (20 + size))
          then Some (1%nat, u32 (alloc + u32 (20 + size)), [c; new_chunk size])
          else None
      | _ :: _ =>
          '(i, a, r) ← find_space ok alloc cs' size; Some (S i, a, c :: r)
      end
  end.

Definition fit_chunk (n : Z) : Z :=
  let n := if n <? MIN_CHUNK_SIZE then MIN_CHUNK_SIZE else n in
  if Z.land n (A - 1) =? 0 then n else ALIGN n.

Definition iks_stack_new (ok : bool) (meta_chunk data_chunk : Z) : option ikstack :=
  let meta_chunk := fit_chunk meta_chunk in
  let data_chunk := fit_chunk data_chunk in
  let len := u32 (12 + meta_chunk + data_chunk + 20 * 2) in
  if malloc_ok ok len
  then Some (mk_ikstack len
    [mk_chunk meta_chunk 0 no_last (map junk (seq 0 (Z.to_nat meta_chunk)))]
    [mk_chunk data_chunk 0 no_last (map junk (seq (Z.to_nat meta_chunk) (Z.to_nat data_chunk)))])
  else None.

(** The size a request is rounded to. *)
Definition alloc_size (size : Z) : Z :=
  let size := if size <? MIN_ALLOC_SIZE then MIN_ALLOC_SIZE else size in
  if Z.land size (A - 1) =? 0 then size else ALIGN size.

Definition iks_stack_alloc (ok : bool) (s : ikstack) (size : Z) : option pptr * ikstack :=
  let size := alloc_size size in
  match find_space ok (allocated s) (meta s) size with
  | None => (None, s)
  | Some (i, a, cs) =>
      match cs !! i with
      | None => (None, s)
      | Some c =>
          let c' := mk_chunk (ck_size c) (u32 (ck_used c + size)) (ck_last c) (ck_data c) in
          (Some (i, ck_used c), mk_ikstack a (<[i := c']> cs) (data s))
      end
  end.

(** [len] bytes of [src] and a terminator, put at the front of the free part
    of chunk [i], which becomes the chunk's last string. *)
Definition put_last (s : ikstack) (a : Z) (cs : list ikschunk) (i : nat) (bytes : list Z) :
    exec (option pptr * ikstack) :=
  match cs !! i with
  | None => Fault
  | Some c =>
      d ← memcpy (ck_data c) (ck_used c) bytes;
      d ← store d (ck_used c + strlen bytes) 0;
      let c' := mk_chunk (ck_size c) (u32 (ck_used c + strlen bytes + 1)) (ck_used c) d in
      Done (Some (i, ck_used c), mk_ikstack a (meta s) (<[i := c']> cs))
  end.

(** The source string is the list [src] of its bytes, without the terminator. *)
Definition iks_stack_strdup (ok : bool) (s : ikstack) (src : option (list Z)) (len : Z) :
    exec (option pptr * ikstack) :=
  match src with
  | None => Done (None, s)
  | Some src =>
      let len := if len =? 0 then strlen src else len in
      match find_space ok (allocated s) (data s) (u32 (len + 1)) with
      | None => Done (None, s)
      | Some (i, a, cs) => bytes ← mread (src ++ [0]) 0 len; put_last s a cs i bytes
      end
  end.

(** [for (c = s->data; c; c = c->next) if (c->data + c->last == old) break]. *)
Fixpoint find_last (cs : list ikschunk) (k : nat) (old : pptr) : option nat :=
  match cs with
  | [] => None
  | c :: cs' =>
      if (k =? old.1)%nat && (ck_last c =? old.2) then Some k else find_last cs' (S k) old
  end.

(** The string at a pointer of the data chain. *)
Definition pool_strlen (s : ikstack) (p : pptr) : Z :=
  match data s !! p.1 with
  | Some c => strlen (c_str (drop (Z.to_nat p.2) (ck_data c)))
  | None => 0
  end.

Definition pool_read (s : ikstack) (p : pptr) (n : Z) : exec (list Z) :=
  match data s !! p.1 with Some c => mread (ck_data c) p.2 n | None => Fault end.

Definition iks_stack_strcat (ok : bool) (s : ikstack) (old : option pptr) (old_len : Z)
    (src : list Z) (src_len : Z) : exec (option pptr * ikstack) :=
  match old with
  | None => iks_stack_strdup ok s (Some src) src_len
  | Some old =>
      let old_len := if old_len =? 0 then pool_strlen s old else old_len in
      let src_len := if src_len =? 0 then strlen src else src_len in
      let move :=
        match find_space ok (allocated s) (data s) (u32 (old_len + src_len + 1)) with
        | None => Done (None, s)
        | Some (i, a, cs) =>
            o ← pool_read s old old_len;
            b ← mread (src ++ [0]) 0 src_len;
            put_last s a cs i (o ++ b)
        end in
      match find_last (data s) 0 old with
      | None => move
      | Some k =>
          match data s !! k with
          | None => Fault
          | Some c =>
              if src_len <? u32 (ck_size c - ck_used c) then
                b ← mread (src ++ [0]) 0 src_len;
                d ← memcpy (ck_data c) (ck_last c + old_len) b;
                d ← store d (ck_last c + old_len + src_len) 0;
                let c' := mk_chunk (ck_size c) (u32 (ck_used c + src_len)) (ck_last c) d in
                Done (Some (k, ck_last c), mk_ikstack (allocated s) (meta s) (<[k := c']> (data s)))
              else move
          end
      end
  end.

Definition sum_used (cs : list ikschunk) : Z := fold_left (λ n c, u32 (n + ck_used c)) cs 0.

Definition iks_stack_stat (s : ikstack) : Z * Z :=
  (allocated s,
   fold_left (λ n c, u32 (n + ck_used c)) (data s) (sum_used (meta s))).

(** The blocks [iks_stack_delete] frees, in order: the chunks behind the first
    of each chain, then the block that holds the pool and the two first chunks. *)
Inductive block : Type := MetaBlock (i : nat) | DataBlock (i : nat) | PoolBlock.

Definition iks_stack_delete (s : ikstack) : list block :=
  map MetaBlock (seq 1 (length (meta s) - 1)) ++ map DataBlock (seq 1 (length (data s) - 1)) ++ [PoolBlock].

(** ** Well-formed chunks *)

Definition chunk_ok (c : ikschunk) : Prop :=
  0 <= ck_used c <= ck_size c ∧ ck_size c < 2 ^ 31 - 20 ∧ strlen (ck_data c) = ck_size c.

Lemma new_chunk_ok n : 0 <= n → u32 (20 + n) < 2 ^ 31 → n < 2 ^ 32 - 20 → chunk_ok (new_chunk n).
Proof.
  unfold chunk_ok, new_chunk, u32, strlen. intros H1 H2 H3. cbn [ck_used ck_size ck_data].
  rewrite Z.mod_small in * by lia. rewrite length_map, length_seq. lia.
Qed.

(** [find_space] either finds room in a chunk of the chain or adds a chunk of
    its own at the end, with room. *)
Lemma find_space_cases ok a cs size i a' cs' :
  Forall chunk_ok cs → 0 <= size < 2 ^ 31 →
  find_space ok a cs size = Some (i, a', cs') →
  (a' = a ∧ cs' = cs ∧ ∃ c, cs !! i = Some c ∧ size <= ck_size c - ck_used c)
  ∨ ∃ n, ok = true ∧ i = length cs ∧ cs' = cs ++ [new_chunk n] ∧ chunk_ok (new_chunk n) ∧ size <= n ∧
      a' = u32 (a + (20 + n)).
Proof.
  revert i a' cs'. induction cs as [|c cs IH]; intros i a' cs' Hok Hs E; [discriminate|].
  apply Forall_cons in Hok as [Hc Hok]. assert (Hc' := Hc). destruct Hc' as (Hu & Hz & Hd).
  cbn [find_space] in E. unfold u32 in E at 1. rewrite Z.mod_small in E by lia.
  destruct (Z.leb_spec size (ck_size c - ck_used c)) as [Hle|Hgt].
  { simplify_eq. left. split_and!; [done..|]. by exists c. }
  destruct cs as [|c2 cs].
  - set (n := if _ <? _ then _ else _) in E.
    assert (Hn : size <= n ∧ 0 <= n < 2 ^ 32 - 20).
    { unfold n, u32. rewrite !Z.mod_small by lia. destruct (Z.ltb_spec size (ck_size c * 2)); lia. }
    unfold malloc_ok in E. destruct ok; [|discriminate]. cbn [andb] in E.
    destruct (Z.ltb_spec (u32 (20 + n)) (2 ^ 31)) as [Hl|]; [|discriminate].
    simplify_eq. right. exists n. split_and!; try done; [apply new_chunk_ok; lia|lia|].
    unfold u32. by rewrite Zplus_mod_idemp_r.
  - destruct (find_space ok a (c2 :: cs) size) as [[[j b] r]|] eqn:F; [|discriminate].
    cbn in E. injection E as <- <- <-.
    destruct (IH j b r Hok Hs eq_refl) as [(-> & -> & c' & E & H)|(n & -> & -> & -> & H)].
    + left. split_and!; [done..|]. by exists c'.
    + right. exists n. split; [done|]. split; [done|]. split; [done|]. exact H.
Qed.

(** With memory left, a request always finds its space. *)
Lemma find_space_total a cs size :
  Forall chunk_ok cs → cs ≠ [] → 0 <= size < 2 ^ 29 → Forall (λ c, ck_size c < 2 ^ 29) cs →
  is_Some (find_space true a cs size).
Proof.
  induction cs as [|c cs IH]; intros Hok Hne Hs Hb; [done|].
  apply Forall_cons in Hok as [(Hu & Hz & Hd) Hok], Hb as [Hc Hb].
  cbn [find_space]. destruct (_ <=? _); [by eexists|]. destruct cs as [|c2 cs].
  - set (n := if _ <? _ then _ else _).
    assert (Hn : 0 <= n < 2 ^ 30).
    { unfold n, u32. rewrite !Z.mod_small by lia. clear n IH. case_match; lia. }
    unfold malloc_ok, u32 at 1. rewrite Z.mod_small by lia. cbn [andb].
    rewrite (proj2 (Z.ltb_lt _ _)) by lia. by eexists.
  - destruct IH as [[[j b] r] E]; try done. rewrite E. by eexists.
Qed.

(** ** The strings of the data chain

    [G] records the strings that have been handed out: where each one starts
    and what it is.  [data_inv] is what the chain guarantees about them. *)
Record data_inv (cs : list ikschunk) (G : gmap pptr (list Z)) : Prop := {
  di_chunks : Forall chunk_ok cs;
  di_str : ∀ k o t, G !! (k, o) = Some t → is_cstr t ∧ 0 <= o ∧
    ∃ c, cs !! k = Some c ∧ o + strlen t + 1 <= ck_used c ∧
         take (length t + 1) (drop (Z.to_nat o) (ck_data c)) = t ++ [0];
  di_disj : ∀ k o1 t1 o2 t2, G !! (k, o1) = Some t1 → G !! (k, o2) = Some t2 → o1 < o2 →
    o1 + strlen t1 + 1 <= o2;
  di_last : ∀ k c, cs !! k = Some c → ck_last c = no_last ∨
    ∃ t, G !! (k, ck_last c) = Some t ∧ ck_last c + strlen t + 1 = ck_used c }.

Lemma data_inv_snoc cs G n :
  data_inv cs G → chunk_ok (new_chunk n) → data_inv (cs ++ [new_chunk n]) G.
Proof.
  intros [H1 H2 H3 H4] Hn. split; [apply Forall_app; auto| |done|].
  - intros k o t E. destruct (H2 k o t E) as (? & ? & c & Ec & ?). split_and!; [done..|].
    exists c. split; [by apply lookup_app_l_Some|done].
  - intros k c [E|[_ E]]%lookup_app_Some; [by apply H4|].
    apply list_lookup_singleton_Some in E as [_ <-]. by left.
Qed.

Lemma find_space_inv ok a cs size i a' cs' G :
  data_inv cs G → 0 <= size < 2 ^ 31 → find_space ok a cs size = Some (i, a', cs') →
  data_inv cs' G ∧ (∃ ext, cs' = cs ++ ext) ∧
  ∃ c, cs' !! i = Some c ∧ chunk_ok c ∧ size <= ck_size c - ck_used c.
Proof.
  intros HI Hs E. assert (Hok := di_chunks _ _ HI).
  destruct (find_space_cases _ _ _ _ _ _ _ Hok Hs E) as
    [(-> & -> & c & Ec & Hc)|(n & _ & -> & -> & Hn & Hle & _)].
  - split_and!; [done|exists []; by rewrite app_nil_r|]. exists c. split_and!; [done| |lia].
    eapply Forall_lookup_1; eauto.
  - split_and!; [by apply data_inv_snoc|by eexists|]. exists (new_chunk n).
    split_and!; [by apply list_lookup_middle|done|]. unfold new_chunk. cbn. lia.
Qed.

(** The chunk after bytes were copied to [o .. o + |b|), at or behind every
    string but one that starts at [o - shift]. *)
Lemma data_inv_write cs G i c o b used' last' t :
  data_inv cs G → cs !! i = Some c → is_cstr t →
  0 <= last' → last' + strlen t + 1 = used' → ck_used c <= used' <= ck_size c →
  ck_used c <= o + 1 → last' <= o → o + strlen b = used' →
  take (length t + 1) (drop (Z.to_nat last')
    (take (Z.to_nat o) (ck_data c) ++ b ++ drop (Z.to_nat o + length b) (ck_data c))) = t ++ [0] →
  (∀ o1 t1, G !! (i, o1) = Some t1 → o1 ≠ last' → o1 + strlen t1 + 1 <= last') →
  data_inv (<[i := mk_chunk (ck_size c) used' last'
                 (take (Z.to_nat o) (ck_data c) ++ b ++ drop (Z.to_nat o + length b) (ck_data c))]> cs)
           (<[(i, last') := t]> G).
Proof.
  intros [H1 H2 H3 H4] Hc Ht Hl Hu Hsz Ho Hlo Hob Hread Hothers. set (d := take _ _ ++ _) in *.
  assert (Hi := lookup_lt_Some _ _ _ Hc). destruct (Forall_lookup_1 _ _ _ _ H1 Hc) as (Hcu & Hcs & Hcd).
  assert (Hd : strlen d = ck_size c).
  { unfold strlen, d in *. rewrite length_copy; lia. }
  split.
  - apply Forall_insert; [done|]. unfold chunk_ok. cbn. lia.
  - intros k q r E. destruct (decide ((i, last') = (k, q))) as [Heq|Hne].
    + rewrite Heq, lookup_insert_eq in E. simplify_eq. split_and!; [done|lia|].
      eexists. split; [by apply list_lookup_insert_eq|]. cbn. split; [lia|done].
    + rewrite lookup_insert_ne in E by done. destruct (H2 k q r E) as (Hr & Hq & c' & Ec & Hle & Hrd).
      split_and!; [done..|]. destruct (decide (k = i)) as [->|Hk].
      * simplify_eq. eexists. split; [by apply list_lookup_insert_eq|]. cbn. split; [lia|].
        rewrite <-Hrd. unfold d. apply take_drop_copy_other; unfold strlen in *; [lia|].
        left. assert (q + Z.of_nat (length r) + 1 <= last') by (apply (Hothers q r E); congruence). lia.
      * exists c'. by rewrite list_lookup_insert_ne.
  - intros k o1 t1 o2 t2 E1 E2 Hlt.
    destruct (decide ((i, last') = (k, o1))) as [Heq1|Hne1], (decide ((i, last') = (k, o2))) as [Heq2|Hne2].
    + simplify_eq. lia.
    + simplify_eq. rewrite lookup_insert_ne in E2 by congruence.
      assert (Hx : o2 + strlen t2 + 1 <= o1) by (apply (Hothers o2 t2 E2); congruence).
      unfold strlen in Hx. lia.
    + simplify_eq. rewrite lookup_insert_ne in E1 by done. apply (Hothers o1 t1 E1). congruence.
    + rewrite lookup_insert_ne in E1, E2 by done. by apply (H3 k o1 t1 o2 t2).
  - intros k c' E. destruct (decide (k = i)) as [->|Hk].
    + rewrite list_lookup_insert_eq in E by done. simplify_eq. right. exists t. cbn.
      rewrite lookup_insert_eq. split; [done|lia].
    + rewrite list_lookup_insert_ne in E by done. destruct (H4 k c' E) as [?|(r & Er & ?)]; [by left|].
      right. exists r. rewrite lookup_insert_ne by congruence. done.
Qed.

Lemma put_last_spec s a cs i c bytes G :
  data_inv cs G → cs !! i = Some c → strlen bytes + 1 <= ck_size c - ck_used c → is_cstr bytes →
  ∃ cs', put_last s a cs i bytes = Done (Some (i, ck_used c), mk_ikstack a (meta s) cs') ∧
    G !! (i, ck_used c) = None ∧ data_inv cs' (<[(i, ck_used c) := bytes]> G).
Proof.
  intros HI Hc Hroom Hb. destruct (Forall_lookup_1 _ _ _ _ (di_chunks _ _ HI) Hc) as (Hcu & Hcs & Hcd).
  unfold put_last. rewrite Hc. rewrite memcpy_store by lia. eexists. split; [reflexivity|].
  assert (Hbelow : ∀ o1 t1, G !! (i, o1) = Some t1 → o1 + strlen t1 + 1 <= ck_used c).
  { intros o1 t1 E. destruct (di_str _ _ HI i o1 t1 E) as (_ & _ & c' & E' & ? & _). by simplify_eq. }
  split.
  - destruct (G !! (i, ck_used c)) as [t|] eqn:E; [|done]. apply Hbelow in E. unfold strlen in E. lia.
  - unfold u32. rewrite Z.mod_small by (unfold strlen in *; lia).
    assert (El : strlen (bytes ++ [0]) = strlen bytes + 1) by (unfold strlen; rewrite length_app; simpl; lia).
    apply data_inv_write; try done; try (unfold strlen in *; lia).
    + replace (length bytes + 1)%nat with (length (bytes ++ [0])) by (rewrite length_app; done).
      apply take_drop_copy_same. unfold strlen in *. lia.
    + intros o1 t1 E _. by apply Hbelow.
Qed.

(** ** What the operations on strings promise *)

Lemma mread_src t len :
  len = strlen t → mread (t ++ [0]) 0 len = Done t.
Proof.
  intros ->. rewrite mread_done by slen.
  unfold strlen. by rewrite Nat2Z.id, drop_0, take_app_length.
Qed.

(** The length argument of a caller: zero stands for [strlen]. *)
Definition len_arg (len : Z) (t : list Z) : Prop := len = 0 ∨ len = strlen t.

Lemma len_arg_eq len t : len_arg len t → (if len =? 0 then strlen t else len) = strlen t.
Proof. intros [->| ->]; [done|]. destruct (Z.eqb_spec (strlen t) 0); lia. Qed.

Lemma len_arg_given len (t : list Z) n : len_arg len t → n = strlen t → (if len =? 0 then n else len) = strlen t.
Proof. intros H ->. by apply len_arg_eq. Qed.

(** A new string of the pool, from a successful [find_space] or none at all. *)
Lemma place_string ok s G t (bytes : exec (list Z)) :
  data_inv (data s) G → is_cstr t → strlen t < 2 ^ 31 - 1 → bytes = Done t →
  ∃ r s', match find_space ok (allocated s) (data s) (u32 (strlen t + 1)) with
          | None => Done (None, s)
          | Some (i, a, cs) => b ← bytes; put_last s a cs i b
          end = Done (r, s') ∧ meta s' = meta s ∧
    match r with
    | None => s' = s
    | Some p => G !! p = None ∧ data_inv (data s') (<[p := t]> G)
    end.
Proof.
  intros HI Ht Hl ->. unfold u32. rewrite Z.mod_small by (unfold strlen in *; lia).
  destruct (find_space _ _ _ _) as [[[i a] cs]|] eqn:E; [|by exists None, s].
  destruct (find_space_inv ok (allocated s) (data s) (strlen t + 1) i a cs G HI ltac:(slen) E)
    as (HI' & _ & c & Hc & Hok & Hroom).
  destruct (put_last_spec s a cs i c t G HI' Hc Hroom Ht) as (cs' & E' & Hf & HI'').
  eexists _, _. split; [exact E'|]. done.
Qed.

Lemma strdup_inv ok s G t len :
  data_inv (data s) G → is_cstr t → strlen t < 2 ^ 31 - 1 → len_arg len t →
  ∃ r s', iks_stack_strdup ok s (Some t) len = Done (r, s') ∧ meta s' = meta s ∧
    match r with
    | None => s' = s
    | Some p => G !! p = None ∧ data_inv (data s') (<[p := t]> G)
    end.
Proof.
  intros HI Ht Hl Ha. unfold iks_stack_strdup. cbv zeta. rewrite (len_arg_eq _ _ Ha).
  apply place_string; auto using mread_src.
Qed.

(** A recorded string is what a C program reads at its pointer. *)
Lemma recorded_read s G p t :
  data_inv (data s) G → G !! p = Some t →
  pool_strlen s p = strlen t ∧ pool_read s p (strlen t) = Done t.
Proof.
  intros HI E. destruct p as [k o]. destruct (di_str _ _ HI k o t E) as (Ht & Ho & c & Ec & Hle & Hrd).
  destruct (Forall_lookup_1 _ _ _ _ (di_chunks _ _ HI) Ec) as (Hu & Hs & Hd).
  assert (Hdr : drop (Z.to_nat o) (ck_data c) = t ++ 0 :: drop (length t + 1) (drop (Z.to_nat o) (ck_data c))).
  { rewrite <-(take_drop (length t + 1) (drop (Z.to_nat o) (ck_data c))) at 1. by rewrite Hrd, <-app_assoc. }
  unfold pool_strlen, pool_read. cbn [fst snd]. rewrite Ec. split.
  - by rewrite Hdr, c_str_terminated.
  - rewrite mread_done by (unfold strlen in *; lia). unfold strlen. rewrite Nat2Z.id, Hdr. by rewrite take_app_length.
Qed.

Lemma find_last_Some cs old : ∀ k n,
  find_last cs k old = Some n →
  n = old.1 ∧ ∃ c, cs !! (n - k)%nat = Some c ∧ ck_last c = old.2 ∧ (k <= n)%nat.
Proof.
  induction cs as [|c cs IH]; intros k n E; [discriminate|]. cbn in E.
  destruct (Nat.eqb_spec k old.1) as [Hk|Hk]; cbn in E.
  - destruct (Z.eqb_spec (ck_last c) old.2).
    + simplify_eq. split; [done|]. exists c. by rewrite Nat.sub_diag.
    + destruct (IH _ _ E) as (-> & c' & ? & ? & ?). lia.
  - destruct (IH _ _ E) as (-> & c' & Hc & Hl & Hle). split; [done|]. exists c'.
    replace (old.1 - k)%nat with (S (old.1 - S k)) by lia. split_and!; [done..|lia].
Qed.

Lemma strcat_inv ok s G p t u old_len src_len :
  data_inv (data s) G → G !! p = Some t → is_cstr u →
  strlen t + strlen u < 2 ^ 31 - 1 → len_arg old_len t → len_arg src_len u →
  ∃ r s', iks_stack_strcat ok s (Some p) old_len u src_len = Done (r, s') ∧ meta s' = meta s ∧
    match r with
    | None => s' = s
    | Some q => (q = p ∨ G !! q = None) ∧ data_inv (data s') (<[q := t ++ u]> G)
    end.
Proof.
  intros HI E Hu Hl Ha Hb. destruct (recorded_read s G p t HI E) as [Hsl Hrd].
  unfold iks_stack_strcat. cbv zeta. rewrite (len_arg_given _ _ _ Ha Hsl), (len_arg_eq _ _ Hb).
  destruct p as [k o]. destruct (di_str _ _ HI k o t E) as (Ht & Ho & c & Ec & Hle & Hd).
  assert (Hmove : ∃ r s',
    match find_space ok (allocated s) (data s) (u32 (strlen t + strlen u + 1)) with
    | None => Done (None, s)
    | Some (i, a, cs) =>
        o0 ← pool_read s (k, o) (strlen t); b ← mread (u ++ [0]) 0 (strlen u); put_last s a cs i (o0 ++ b)
    end = Done (r, s') ∧ meta s' = meta s ∧
    match r with
    | None => s' = s
    | Some q => (q = (k, o) ∨ G !! q = None) ∧ data_inv (data s') (<[q := t ++ u]> G)
    end).
  { rewrite Hrd, mread_src by done. rewrite <-strlen_app in *.
    destruct (place_string ok s G (t ++ u) (Done (t ++ u)) HI) as (r & s' & E1 & E2 & E3);
      [by apply Forall_app|done|done|].
    exists r, s'. split; [exact E1|]. split; [done|]. destruct r; [|done]. destruct E3. auto. }
  destruct (find_last (data s) 0 (k, o)) as [n|] eqn:F; [|exact Hmove].
  apply find_last_Some in F as (-> & c' & Ec' & Hlast & _). cbn [fst snd] in *.
  rewrite Nat.sub_0_r in Ec'. simplify_eq. rewrite Ec.
  destruct (Forall_lookup_1 _ _ _ _ (di_chunks _ _ HI) Ec) as (Hcu & Hcs & Hcd).
  unfold u32 at 1. rewrite Z.mod_small by lia.
  destruct (Z.ltb_spec (strlen u) (ck_size c - ck_used c)) as [Hlt|]; [|exact Hmove].
  assert (Hend : ck_last c + strlen t + 1 = ck_used c).
  { destruct (di_last _ _ HI k c Ec) as [Hn|(t' & E' & Hused)]; [unfold no_last in Hn; slen|]. rewrite E in E'. injection E' as <-. exact Hused. }
  rewrite mread_src by done. eexists _, _. split.
  { eapply exec_step; [reflexivity|]. rewrite memcpy_store by slen. reflexivity. }
  split; [done|]. split; [by left|]. cbn [data].
  unfold u32. rewrite Z.mod_small by slen.
  apply data_inv_write; try done; try slen.
  - by apply Forall_app; split; [apply (di_str _ _ HI k _ t E)|].
  - set (rest := drop (Z.to_nat (_ + _) + _) _).
    rewrite drop_app_le by (rewrite length_take; slen).
    assert (Hold : drop (Z.to_nat (ck_last c)) (take (Z.to_nat (ck_last c + strlen t)) (ck_data c)) = t).
    { replace (Z.to_nat (ck_last c + strlen t)) with (Z.to_nat (ck_last c) + length t)%nat by slen.
      rewrite <-take_drop_commute. apply (f_equal (take (length t))) in Hd.
      rewrite take_take, take_app_length in Hd. rewrite <-Hd at 2. f_equal. lia. }
    rewrite Hold, !app_assoc. apply take_app_length'. rewrite !length_app. cbn. lia.
  - intros o1 t1 E1 Hne. destruct (di_str _ _ HI k o1 t1 E1) as (_ & _ & c1 & Ec1 & Hle1 & _).
    simplify_eq. destruct (decide (o1 < ck_last c)) as [Hlt1|Hge1].
    + apply (di_disj _ _ HI k o1 t1 _ t E1 E Hlt1).
    + assert (ck_last c + strlen t + 1 <= o1) by (apply (di_disj _ _ HI k _ t o1 t1 E E1); lia). slen.
Qed.

(** ** The blocks of the meta chain *)

(** [M] records the size of every block handed out. *)
Record meta_inv (cs : list ikschunk) (M : gmap pptr Z) : Prop := {
  mi_chunks : Forall chunk_ok cs;
  mi_used : ∀ k c, cs !! k = Some c → (A | ck_used c);
  mi_block : ∀ k o n, M !! (k, o) = Some n → 0 <= o ∧ 0 < n ∧ (A | o) ∧
    ∃ c, cs !! k = Some c ∧ o + n <= ck_used c;
  mi_disj : ∀ k o1 n1 o2 n2, M !! (k, o1) = Some n1 → M !! (k, o2) = Some n2 → o1 < o2 → o1 + n1 <= o2 }.

Context (HA : A = 4 ∨ A = 8).

Lemma mask_mod x : Z.land x (A - 1) = x mod A.
Proof. destruct HA as [->| ->]; [apply (Z.land_ones x 2)|apply (Z.land_ones x 3)]; lia. Qed.

(** The rounding of a request: a multiple of the alignment, less than one
    alignment step above it. *)
Lemma align_spec x :
  0 <= x < 2 ^ 32 - 8 →
  let n := if Z.land x (A - 1) =? 0 then x else ALIGN x in
  (A | n) ∧ x <= n < x + A.
Proof.
  intros Hx. unfold ALIGN, u32. rewrite !mask_mod. cbv zeta.
  destruct (Z.eqb_spec (x mod A) 0) as [E|E].
  - split; [|lia]. apply Z.mod_divide; lia.
  - pose proof (Z.mod_pos_bound x A ltac:(lia)). rewrite Z.mod_small by lia. split; [|lia].
    exists (x / A + 1). pose proof (Z.div_mod x A ltac:(lia)). lia.
Qed.

Lemma alloc_size_spec size :
  0 <= size < 2 ^ 31 - 8 →
  (A | alloc_size size) ∧ size <= alloc_size size ∧ 0 < alloc_size size < 2 ^ 31.
Proof.
  intros Hs. unfold alloc_size. cbv zeta.
  set (size1 := if size <? MIN_ALLOC_SIZE then MIN_ALLOC_SIZE else size).
  assert (H1 : size <= size1 ∧ A <= size1 < 2 ^ 31 - 8).
  { unfold size1, MIN_ALLOC_SIZE. destruct (Z.ltb_spec size A); lia. }
  destruct (align_spec size1) as [Hdiv Hn]; [lia|]. cbv zeta in *. split; [done|]. lia.
Qed.

Lemma meta_inv_snoc cs M n :
  meta_inv cs M → chunk_ok (new_chunk n) → meta_inv (cs ++ [new_chunk n]) M.
Proof.
  intros [H1 H2 H3 H4] Hn. split; [apply Forall_app; auto| | |done].
  - intros k c [E|[_ E]]%lookup_app_Some; [by apply (H2 k)|].
    apply list_lookup_singleton_Some in E as [_ <-]. apply Z.divide_0_r.
  - intros k o m E. destruct (H3 k o m E) as (? & ? & ? & c & Ec & ?). split_and!; [done..|].
    exists c. split; [by apply lookup_app_l_Some|done].
Qed.

Lemma alloc_inv ok s M size :
  meta_inv (meta s) M → 0 <= size < 2 ^ 31 - 8 →
  match iks_stack_alloc ok s size with
  | (None, s') => s' = s
  | (Some p, s') => data s' = data s ∧ M !! p = None ∧
      meta_inv (meta s') (<[p := alloc_size size]> M)
  end.
Proof.
  intros HM Hs. unfold iks_stack_alloc. cbv zeta.
  destruct (alloc_size_spec size Hs) as (Hdiv & H1 & Hn). set (n := alloc_size size) in *. clearbody n.
  destruct (find_space _ _ _ _) as [[[i a] cs]|] eqn:E; [|done].
  assert (HF : meta_inv cs M ∧ ∃ c, cs !! i = Some c ∧ chunk_ok c ∧ n <= ck_size c - ck_used c).
  { destruct (find_space_cases ok (allocated s) (meta s) n i a cs (mi_chunks _ _ HM) ltac:(lia) E) as
      [(-> & -> & c & Ec & Hc)|(m & _ & -> & -> & Hm & Hle & _)].
    - split; [done|]. exists c. split_and!; [done| |done]. eapply Forall_lookup_1; [apply HM|exact Ec].
    - split; [by apply meta_inv_snoc|]. exists (new_chunk m).
      split_and!; [by apply list_lookup_middle|done|]. unfold new_chunk. cbn. lia. }
  destruct HF as ([G1 G2 G3 G4] & c & Ec & (Hcu & Hcs & Hcd) & Hroom). rewrite Ec.
  assert (Hi := lookup_lt_Some _ _ _ Ec).
  assert (Hbelow : ∀ o m, M !! (i, o) = Some m → 0 < m ∧ o + m <= ck_used c).
  { intros o m Em. destruct (G3 i o m Em) as (_ & ? & _ & c' & Ec' & ?). by simplify_eq. }
  split; [done|]. split.
  { destruct (M !! (i, ck_used c)) eqn:Em; [|done]. apply Hbelow in Em. lia. }
  cbn [meta]. unfold u32. rewrite Z.mod_small by lia. split.
  - apply Forall_insert; [done|]. unfold chunk_ok. cbn. lia.
  - intros k c' Ek. destruct (decide (k = i)) as [->|].
    + rewrite list_lookup_insert_eq in Ek by done. simplify_eq. cbn.
      apply Z.divide_add_r; [by apply (G2 i)|done].
    + rewrite list_lookup_insert_ne in Ek by done. by apply (G2 k).
  - intros k o m Em. destruct (decide ((i, ck_used c) = (k, o))) as [Heq|Hne].
    + rewrite Heq, lookup_insert_eq in Em. simplify_eq. split_and!; [lia..|by apply (G2 k)|].
      eexists. split; [by apply list_lookup_insert_eq|]. cbn. lia.
    + rewrite lookup_insert_ne in Em by done. destruct (G3 k o m Em) as (? & ? & ? & c' & Ec' & ?).
      split_and!; [done..|]. destruct (decide (k = i)) as [->|].
      * simplify_eq. eexists. split; [by apply list_lookup_insert_eq|]. cbn. lia.
      * exists c'. by rewrite list_lookup_insert_ne.
  - intros k o1 n1 o2 n2 E1 E2 Hlt.
    destruct (decide ((i, ck_used c) = (k, o1))) as [Heq|Hne].
    + simplify_eq. rewrite lookup_insert_ne in E2 by (intros ?; simplify_eq; lia). apply Hbelow in E2. lia.
    + rewrite lookup_insert_ne in E1 by done.
      destruct (decide ((i, ck_used c) = (k, o2))) as [Heq2|Hne2].
      * simplify_eq. apply Hbelow in E1. lia.
      * rewrite lookup_insert_ne in E2 by done. by apply (G4 k o1 n1 o2 n2).
Qed.

(** ** A pool in use

    The states a program can bring a pool to, with the record of what it was
    handed: any operation, with any outcome of the allocation under it. *)
Record usage : Type := mk_usage {
  pool : ikstack; strings : gmap pptr (list Z); blocks : gmap pptr Z }.

Definition record {X} (r : option pptr) (x : X) (m : gmap pptr X) : gmap pptr X :=
  match r with Some p => <[p := x]> m | None => m end.

Inductive pool_step : usage → usage → Prop :=
| step_alloc ok s G M size r s' :
    0 <= size < 2 ^ 31 - 8 → iks_stack_alloc ok s size = (r, s') →
    pool_step (mk_usage s G M) (mk_usage s' G (record r (alloc_size size) M))
| step_strdup ok s G M t len r s' :
    is_cstr t → strlen t < 2 ^ 31 - 1 → len_arg len t →
    iks_stack_strdup ok s (Some t) len = Done (r, s') →
    pool_step (mk_usage s G M) (mk_usage s' (record r t G) M)
| step_strcat ok s G M p t u old_len src_len r s' :
    G !! p = Some t → is_cstr u → strlen t + strlen u < 2 ^ 31 - 1 →
    len_arg old_len t → len_arg src_len u →
    iks_stack_strcat ok s (Some p) old_len u src_len = Done (r, s') →
    pool_step (mk_usage s G M) (mk_usage s' (record r (t ++ u) G) M).

Definition pool_inv (u : usage) : Prop :=
  data_inv (data (pool u)) (strings u) ∧ meta_inv (meta (pool u)) (blocks u).

Lemma pool_step_inv u u' : pool_inv u → pool_step u u' → pool_inv u'.
Proof.
  intros [HD HM] Hstep. unfold pool_inv.
  destruct Hstep as [ok s G M size r s' Hs E|ok s G M t len r s' Ht Hl Ha E
    |ok s G M p t w old_len src_len r s' Ep Hw Hl Ha Hb E]; cbn [pool strings blocks] in *.
  - pose proof (alloc_inv ok s M size HM Hs) as H. rewrite E in H.
    destruct r as [p|]; cbn [record]; [|by subst]. destruct H as (-> & _ & ?). done.
  - destruct (strdup_inv ok s G t len HD Ht Hl Ha) as (r' & s'' & E' & Hm & H).
    rewrite E in E'. injection E' as <- <-. rewrite Hm.
    destruct r; cbn [record]; [by destruct H|by subst].
  - destruct (strcat_inv ok s G p t w old_len src_len HD Ep Hw Hl Ha Hb) as (r' & s'' & E' & Hm & H).
    rewrite E in E'. injection E' as <- <-. rewrite Hm.
    destruct r; cbn [record]; [by destruct H|by subst].
Qed.

Lemma fit_chunk_spec n :
  0 <= n < 2 ^ 30 → (A | fit_chunk n) ∧ 0 < fit_chunk n < 2 ^ 30 + 8.
Proof.
  intros Hn. unfold fit_chunk, MIN_CHUNK_SIZE. cbv zeta.
  set (m := if n <? A * 8 then A * 8 else n). assert (Hm : 0 < m < 2 ^ 30).
  { unfold m. clear m. destruct (Z.ltb_spec n (A * 8)); lia. }
  destruct (align_spec m) as [H1 H2]; [lia|]. cbv zeta in *. split; [done|]. lia.
Qed.

Lemma pool_new_inv ok m d s :
  0 <= m < 2 ^ 30 → 0 <= d < 2 ^ 30 → iks_stack_new ok m d = Some s → pool_inv (mk_usage s ∅ ∅).
Proof.
  intros Hm Hd E. destruct (fit_chunk_spec m Hm) as [_ Hm']. destruct (fit_chunk_spec d Hd) as [_ Hd'].
  unfold iks_stack_new in E. cbv zeta in E. destruct (malloc_ok _ _); [|discriminate].
  injection E as <-. split; cbn [pool strings blocks meta data].
  all: split; try (intros *; rewrite lookup_empty; discriminate).
  all: try (repeat constructor; unfold strlen; cbn [ck_used ck_size ck_data];
            rewrite ?length_map, ?length_seq; lia).
  all: intros k c [_ <-]%list_lookup_singleton_Some; first [by left | apply Z.divide_0_r].
Qed.

Lemma pool_reachable_inv ok m d s u :
  0 <= m < 2 ^ 30 → 0 <= d < 2 ^ 30 → iks_stack_new ok m d = Some s →
  rtc pool_step (mk_usage s ∅ ∅) u → pool_inv u.
Proof.
  intros Hm Hd E Hr. assert (H := pool_new_inv ok m d s Hm Hd E).
  remember (mk_usage s ∅ ∅) as u0 eqn:Hu. clear Hu. induction Hr; eauto using pool_step_inv.
Qed.
End pool.

(** ** Theorems *)

(** Whatever operations a program performs on a pool, and
    whatever allocations fail under it, every string it was handed and has not
    extended since reads back as what it stored, extended strings read as the
    concatenation, and the next [iks_stack_strdup] or [iks_stack_strcat] makes
    no access outside its chunks. *)
Theorem pool_strings (A : Z) (junk : nat → Z) ok m d s u :
  A = 4 ∨ A = 8 → 0 <= m < 2 ^ 30 → 0 <= d < 2 ^ 30 →
  iks_stack_new A junk ok m d = Some s → rtc (pool_step A junk) (mk_usage s ∅ ∅) u →
  (∀ p t, strings u !! p = Some t →
     pool_strlen (pool u) p = strlen t ∧ pool_read (pool u) p (strlen t) = Done t) ∧
  (∀ ok' t, is_cstr t → strlen t < 2 ^ 31 - 1 →
     iks_stack_strdup junk ok' (pool u) (Some t) 0 ≠ Fault) ∧
  (∀ ok' p t w, strings u !! p = Some t → is_cstr w → strlen t + strlen w < 2 ^ 31 - 1 →
     iks_stack_strcat junk ok' (pool u) (Some p) (strlen t) w (strlen w) ≠ Fault).
Proof.
  intros HA Hm Hd E Hr. destruct (pool_reachable_inv A junk HA ok m d s u Hm Hd E Hr) as [HD HM].
  split_and!.
  - intros p t Ep. by eapply recorded_read.
  - intros ok' t Ht Hl.
    destruct (strdup_inv junk ok' (pool u) (strings u) t 0 HD Ht Hl (or_introl eq_refl)) as (r & s' & -> & _).
    done.
  - intros ok' p t w Ep Hw Hl.
    destruct (strcat_inv junk ok' (pool u) (strings u) p t w (strlen t) (strlen w) HD Ep Hw Hl
      (or_intror eq_refl) (or_intror eq_refl)) as (r & s' & -> & _). done.
Qed.

(** C38 (safety): every block handed out by [iks_stack_alloc] is aligned and lies in
    its chunk of the pool, and so does every string of the data chain, with its
    terminator, in which it reads as it was stored; blocks of one chunk never overlap,
    and neither do strings of one chunk. *)
Theorem pool_disjoint (A : Z) (junk : nat → Z) ok m d s u :
  A = 4 ∨ A = 8 → 0 <= m < 2 ^ 30 → 0 <= d < 2 ^ 30 →
  iks_stack_new A junk ok m d = Some s → rtc (pool_step A junk) (mk_usage s ∅ ∅) u →
  (∀ k o n, blocks u !! (k, o) = Some n → (A | o) ∧
     ∃ c, meta (pool u) !! k = Some c ∧ 0 <= o ∧ o + n <= strlen (ck_data c)) ∧
  (∀ k o1 n1 o2 n2, blocks u !! (k, o1) = Some n1 → blocks u !! (k, o2) = Some n2 →
     o1 < o2 → o1 + n1 <= o2) ∧
  (∀ k o1 t1 o2 t2, strings u !! (k, o1) = Some t1 → strings u !! (k, o2) = Some t2 →
     o1 < o2 → o1 + strlen t1 + 1 <= o2) ∧
  (∀ k o t, strings u !! (k, o) = Some t →
     ∃ c, data (pool u) !! k = Some c ∧ 0 <= o ∧ o + strlen t + 1 <= strlen (ck_data c) ∧
          take (length t + 1) (drop (Z.to_nat o) (ck_data c)) = t ++ [0]).
Proof.
  intros HA Hm Hd E Hr. destruct (pool_reachable_inv A junk HA ok m d s u Hm Hd E Hr) as [HD HM].
  split_and!.
  - intros k o n Ek. destruct (mi_block _ _ _ HM k o n Ek) as (? & ? & ? & c & Ec & ?). split; [done|].
    exists c. destruct (Forall_lookup_1 _ _ _ _ (mi_chunks _ _ _ HM) Ec) as (? & ? & ?).
    split_and!; [done..|lia].
  - apply (mi_disj _ _ _ HM).
  - apply (di_disj _ _ HD).
  - intros k o t Ek. destruct (di_str _ _ HD k o t Ek) as (_ & ? & c & Ec & ? & ?). exists c.
    destruct (Forall_lookup_1 _ _ _ _ (di_chunks _ _ HD) Ec) as (? & ? & ?). split_and!; [done..|lia|done].
Qed.

(** A concrete run: a string is stored, and another one appended to it. *)
Definition demo_new : ikstack :=
  default (mk_ikstack 0 [] []) (iks_stack_new 4 (λ _, 170) true 40 40).
Definition demo_dup : option pptr * ikstack :=
  match iks_stack_strdup (λ _, 170) true demo_new (Some (bs "sess")) 0 with
  | Done r => r | Fault => (None, demo_new) end.
Definition demo_cat : option pptr * ikstack :=
  match iks_stack_strcat (λ _, 170) true demo_dup.2 (Some (0%nat, 0)) 4 (bs "ion") 0 with
  | Done r => r | Fault => (None, demo_new) end.
Definition demo : usage :=
  mk_usage demo_cat.2 (<[(0%nat, 0) := bs "sess" ++ bs "ion"]> (<[(0%nat, 0) := bs "sess"]> ∅)) ∅.

Lemma demo_run : rtc (pool_step 4 (λ _, 170)) (mk_usage demo_new ∅ ∅) demo.
Proof.
  eapply rtc_l.
  { apply (step_strdup 4 (λ _, 170) true demo_new ∅ ∅ (bs "sess") 0 (Some (0%nat, 0)) demo_dup.2);
      [repeat constructor; unfold is_cchar; lia|reflexivity|by left|reflexivity]. }
  eapply rtc_l; [|apply rtc_refl].
  apply (step_strcat 4 (λ _, 170) true demo_dup.2 _ ∅ (0%nat, 0) (bs "sess") (bs "ion") 4 0
    (Some (0%nat, 0)) demo_cat.2);
    [reflexivity|repeat constructor; unfold is_cchar; lia|reflexivity|by right|by left|reflexivity].
Qed.

Lemma pool_strings_witness :
  pool_read (pool demo) (0%nat, 0) (strlen (bs "session")) = Done (bs "session").
Proof.
  destruct (pool_strings 4 (λ _, 170) true 40 40 demo_new demo) as [H _];
    [by left|lia|lia|reflexivity|exact demo_run|].
  apply (H (0%nat, 0)). reflexivity.
Defined.

(** Another string behind it. *)
Definition demo_dup2 : option pptr * ikstack :=
  match iks_stack_strdup (λ _, 170) true (pool demo) (Some (bs "id")) 0 with
  | Done r => r | Fault => (None, demo_new) end.
Definition demo_two : usage := mk_usage demo_dup2.2 (<[(0%nat, 8) := bs "id"]> (strings demo)) ∅.

Lemma demo_two_run : rtc (pool_step 4 (λ _, 170)) (mk_usage demo_new ∅ ∅) demo_two.
Proof.
  eapply rtc_r; [exact demo_run|].
  apply (step_strdup 4 (λ _, 170) true (pool demo) (strings demo) ∅ (bs "id") 0 (Some (0%nat, 8)) demo_dup2.2);
    [repeat constructor; unfold is_cchar; lia|reflexivity|by left|vm_compute; reflexivity].
Qed.

Lemma pool_disjoint_witness : 0 + strlen (bs "session") + 1 <= 8.
Proof.
  destruct (pool_disjoint 4 (λ _, 170) true 40 40 demo_new demo_two) as (_ & _ & H & _);
    [by left|lia|lia|reflexivity|exact demo_two_run|].
  apply (H 0%nat 0 (bs "session") 8 (bs "id")); [reflexivity|reflexivity|lia].
Defined.
