(* ===== verification/XmlText.v ===== *)
(** * Strings and XML text

    [src/sysapps/apps/cgi2/app/jabberlog/utility.c]: the null-safe string
    functions, [iks_escape] and [iks_unescape]; and from [iks.c] the sizing
    pass [escape_size] and the copying pass [escape] of the serialiser.

    A [char *] argument that may be null is an [option (list Z)]: the bytes of
    the string without its terminator.  The functions that build a string write
    through a cursor over the block they allocated, of known capacity. *)

From S2P Require Import Prelude.

Local Open Scope Z_scope.

(** ** Null-safe functions *)

Definition iks_strcmp (a b : option (list Z)) : Z :=
  match a, b with Some a, Some b => strcmp a b | _, _ => -1 end.

Definition tolower (c : Z) : Z := if (65 <=? c) && (c <=? 90) then c + 32 else c.

Definition iks_strcasecmp (a b : option (list Z)) : Z :=
  match a, b with Some a, Some b => strcmp (map tolower a) (map tolower b) | _, _ => -1 end.

(** [strncmp (a, b, n)] compares at most [n] characters. *)
Definition strncmp (a b : list Z) (n : nat) : Z := strcmp (take n a) (take n b).

Definition iks_strncmp (a b : option (list Z)) (n : nat) : Z :=
  match a, b with Some a, Some b => strncmp a b n | _, _ => -1 end.

Definition iks_strncasecmp (a b : option (list Z)) (n : nat) : Z :=
  match a, b with Some a, Some b => strncmp (map tolower a) (map tolower b) n | _, _ => -1 end.

Definition iks_strlen (src : option (list Z)) : Z :=
  match src with Some s => strlen s | None => 0 end.

Definition iks_strdup (src : option (list Z)) : option (list Z) := src.

(** [iks_strcat (dest, src)]: the text written so far, and the new end; the
    terminator is written behind it. *)
Definition iks_strcat (cap : Z) (dest : list Z) (src : option (list Z)) : exec (list Z) :=
  match src with
  | None => Done dest
  | Some s => if strlen dest + strlen s <? cap then Done (dest ++ s) else Fault
  end.

(** ** Escaping *)

Definition entity (c : Z) : option (list Z) :=
  if c =? 38 then Some (bs "&amp;") else if c =? 39 then Some (bs "&apos;")
  else if c =? 34 then Some [38; 113; 117; 111; 116; 59]   (* &quot; *)
  else if c =? 60 then Some (bs "&lt;") else if c =? 62 then Some (bs "&gt;") else None.

(** The [switch] that adds up the length of the result. *)
Definition escape_growth (c : Z) : Z :=
  if c =? 38 then 4 else if c =? 60 then 3 else if c =? 62 then 3
  else if c =? 39 then 5 else if c =? 34 then 5 else 0.

Fixpoint escape_loop (cap : Z) (out src : list Z) : exec (list Z) :=
  match src with
  | [] => Done out
  | c :: src' =>
      out ← match entity c with Some e => append cap out e | None => emit cap out c end;
      escape_loop cap out src'
  end.

(** [len = -1] stands for [strlen (src)].  When nothing needs escaping the
    function returns [src] itself. *)
Definition iks_escape (ok have_stack : bool) (src : option (list Z)) (len : Z) : exec (option (list Z)) :=
  match src with
  | Some src =>
      if negb have_stack then Done None else
      let len := if len =? -1 then strlen src else len in
      text ← mread (src ++ [0]) 0 len;
      let nlen := fold_left (λ n c, n + escape_growth c) text len in
      if len =? nlen then Done (Some src) else
      if negb ok then Done None else
      ret ← escape_loop (nlen + 1) [] text;
      ret' ← emit (nlen + 1) ret 0;
      Done (Some ret)
  | None => Done None
  end.

(** ** Unescaping *)

(** What stands at an ampersand: the character the rest of the string starts
    to name, and how far [i] moves. *)
Definition entity_at (rest : list Z) : option (Z * nat) :=
  if strncmp rest (bs "amp;") 4 =? 0 then Some (38, 4%nat)
  else if strncmp rest [113; 117; 111; 116; 59] 5 =? 0 then Some (34, 5%nat)
  else if strncmp rest (bs "apos;") 5 =? 0 then Some (39, 5%nat)
  else if strncmp rest (bs "lt;") 3 =? 0 then Some (60, 3%nat)
  else if strncmp rest (bs "gt;") 3 =? 0 then Some (62, 3%nat)
  else None.

(** [for (i = j = 0; i < len; i++)], over the string behind [i]; [n] is
    [len - i] and [fuel] the bound on the turns. *)
Fixpoint unescape_loop (fuel : nat) (cap : Z) (out src : list Z) (n : Z) : exec (list Z) :=
  if n <=? 0 then Done out else
  match fuel with
  | O => Done out
  | S fuel' =>
      match src with
      | [] => Fault
      | c :: rest =>
          if c =? 38 then
            match entity_at rest with
            | Some (v, k) =>
                out ← emit cap out v;
                unescape_loop fuel' cap out (drop k rest) (n - 1 - Z.of_nat k)
            | None => out ← emit cap out c; unescape_loop fuel' cap out rest (n - 1)
            end
          else out ← emit cap out c; unescape_loop fuel' cap out rest (n - 1)
      end
  end.

Definition iks_unescape (ok have_stack : bool) (src : option (list Z)) (len : Z) : exec (option (list Z)) :=
  match src with
  | Some src =>
      if negb have_stack then Done None else
      if negb (existsb (Z.eqb 38) src) then Done (Some src) else
      let len := if len =? -1 then strlen src else len in
      if negb ok then Done None else
      ret ← unescape_loop (length src) (len + 1) [] src len;
      ret' ← emit (len + 1) ret 0;
      Done (Some ret)
  | None => Done None
  end.

(** ** The two passes of the serialiser *)

Definition escape_char_size (c : Z) : Z :=
  if c =? 38 then 5 else if c =? 39 then 6 else if c =? 34 then 6
  else if c =? 60 then 4 else if c =? 62 then 4 else 1.

Definition escape_size (src : list Z) : Z := fold_left (λ sz c, sz + escape_char_size c) src 0.

Definition my_strcat (cap : Z) (dest src : list Z) (len : Z) : exec (list Z) :=
  let len := if len =? 0 then strlen src else len in
  s ← mread (src ++ [0]) 0 len; append cap dest s.

(** The loop of [escape]: [i] runs over the text, [j] is the start of the
    stretch that has not been copied. *)
Fixpoint escape_stretch (cap : Z) (dest src : list Z) (i j : Z) (rest : list Z) : exec (list Z * Z) :=
  match rest with
  | [] => Done (dest, j)
  | c :: rest' =>
      match entity c with
      | Some e =>
          dest ← (if 0 <? i - j
                  then s ← mread src j (i - j); my_strcat cap dest s (i - j)
                  else Done dest);
          dest ← my_strcat cap dest e (strlen e);
          escape_stretch cap dest src (i + 1) (i + 1) rest'
      | None => escape_stretch cap dest src (i + 1) j rest'
      end
  end.

Definition escape (cap : Z) (dest src : list Z) : exec (list Z) :=
  '(dest, j) ← escape_stretch cap dest src 0 0 src;
  if 0 <? strlen src - j
  then s ← mread src j (strlen src - j); my_strcat cap dest s (strlen src - j)
  else Done dest.

(** ** The specification *)

Definition xml_escape (s : list Z) : list Z :=
  concat (map (λ c, default [c] (entity c)) s).

Lemma xml_escape_cons c s : xml_escape (c :: s) = default [c] (entity c) ++ xml_escape s.
Proof. done. Qed.

Lemma xml_escape_app s1 s2 : xml_escape (s1 ++ s2) = xml_escape s1 ++ xml_escape s2.
Proof. unfold xml_escape. by rewrite map_app, concat_app. Qed.

(** The five special characters, one by one. *)
Lemma entity_cases c :
  (∃ e, entity c = Some e ∧
     (c, e) ∈ [(38, bs "&amp;"); (39, bs "&apos;"); (34, [38; 113; 117; 111; 116; 59]);
               (60, bs "&lt;"); (62, bs "&gt;")])
  ∨ entity c = None ∧ c ≠ 38 ∧ c ≠ 39 ∧ c ≠ 34 ∧ c ≠ 60 ∧ c ≠ 62.
Proof.
  unfold entity.
  repeat match goal with
  | |- context [c =? ?k] => destruct (Z.eqb_spec c k) as [->|];
      [left; eexists; split; [done|]; by repeat (apply elem_of_cons; first [left; reflexivity | right])|]
  end.
  right. split_and!; done.
Qed.

Ltac entity_case c :=
  destruct (entity_cases c) as [(? & -> & Hin)|(-> & ? & ? & ? & ? & ?)];
  [repeat (apply elem_of_cons in Hin as [[= -> ->]|Hin]); [..|by apply elem_of_nil in Hin]|].

Lemma char_size_spec c : escape_char_size c = strlen (default [c] (entity c)).
Proof.
  entity_case c; try reflexivity. cbn. unfold escape_char_size.
  by repeat match goal with |- context [c =? ?k] => destruct (Z.eqb_spec c k); [done|] end.
Qed.

Lemma growth_spec c : escape_growth c = strlen (default [c] (entity c)) - 1.
Proof.
  entity_case c; try reflexivity. cbn. unfold escape_growth.
  by repeat match goal with |- context [c =? ?k] => destruct (Z.eqb_spec c k); [done|] end.
Qed.

Lemma sum_sizes (f : Z → Z) (g : Z → list Z) (d : Z) s : (∀ c, f c = strlen (g c) - d) →
  ∀ n, fold_left (λ n c, n + f c) s n = n + strlen (concat (map g s)) - d * strlen s.
Proof.
  intros Hf. induction s as [|c s IH]; intros n; cbn [fold_left map concat]; [slen|].
  rewrite IH, Hf, strlen_app. unfold strlen. cbn [length]. lia.
Qed.

(** The sizing pass computes the length of the escaped text. *)
Lemma escape_size_spec s : escape_size s = strlen (xml_escape s).
Proof.
  unfold escape_size, xml_escape.
  rewrite (sum_sizes _ (λ c, default [c] (entity c)) 0); [lia|].
  intros c. rewrite char_size_spec. lia.
Qed.

Lemma my_strcat_done cap dest src len :
  len = 0 ∨ len = strlen src → strlen dest + strlen src <= cap →
  my_strcat cap dest src len = Done (dest ++ src).
Proof.
  intros Hlen Hc. unfold my_strcat.
  assert (E : (if len =? 0 then strlen src else len) = strlen src).
  { destruct Hlen as [->| ->]; [done|]. destruct (Z.eqb_spec (strlen src) 0); lia. }
  cbv zeta. rewrite E. eapply exec_step; [apply mread_done; slen|].
  unfold strlen. rewrite Nat2Z.id, drop_0, take_app_length. by apply append_done.
Qed.

Lemma escape_stretch_spec cap d0 src : ∀ rest pre mid,
  src = pre ++ mid ++ rest → xml_escape mid = mid → strlen d0 + strlen (xml_escape src) <= cap →
  ∃ pre' mid', src = pre' ++ mid' ∧ xml_escape mid' = mid' ∧
    escape_stretch cap (d0 ++ xml_escape pre) src (strlen (pre ++ mid)) (strlen pre) rest
    = Done (d0 ++ xml_escape pre', strlen pre').
Proof.
  induction rest as [|c rest IH]; intros pre mid Hsrc Hmid Hcap.
  - exists pre, mid. by rewrite app_nil_r in Hsrc.
  - assert (Hsnoc : src = pre ++ (mid ++ [c]) ++ rest) by (by rewrite <-app_assoc).
    assert (Hsize := f_equal (λ s, strlen (xml_escape s)) Hsrc). cbn beta in Hsize.
    rewrite !xml_escape_app, xml_escape_cons, !strlen_app in Hsize. cbn [escape_stretch].
    destruct (entity c) as [e|] eqn:Ec.
    + change (default [c] (Some e)) with e in Hsize. assert (Hcopy : (if 0 <? strlen (pre ++ mid) - strlen pre
        then s ← mread src (strlen pre) (strlen (pre ++ mid) - strlen pre);
             my_strcat cap (d0 ++ xml_escape pre) s (strlen (pre ++ mid) - strlen pre)
        else Done (d0 ++ xml_escape pre)) = Done (d0 ++ xml_escape (pre ++ mid))).
      { rewrite xml_escape_app, Hmid, strlen_app. replace (strlen pre + strlen mid - strlen pre) with (strlen mid) by lia.
        destruct (Z.ltb_spec 0 (strlen mid)).
        - eapply exec_step; [apply mread_done; rewrite ?Hsrc, ?strlen_app; slen|].
          rewrite Hsrc. unfold strlen at 1 2. rewrite !Nat2Z.id, drop_app_length, take_app_length.
          rewrite my_strcat_done, app_assoc; [done|by right|].
          rewrite Hmid in Hsize. rewrite strlen_app. slen.
        - destruct mid; [|slen]. by rewrite app_nil_r. }
      rewrite Hcopy.
      destruct (IH (pre ++ mid ++ [c]) []) as (p' & m' & H1 & H2 & H3); [by rewrite <-!app_assoc|done|done|].
      exists p', m'. split; [done|]. split; [done|]. eapply exec_step; [reflexivity|]. eapply exec_step.
      { apply my_strcat_done; [by right|]. rewrite !strlen_app, xml_escape_app, strlen_app. slen. }
      rewrite <-H3. rewrite app_nil_r, app_assoc, (xml_escape_app (pre ++ mid)), (strlen_app (pre ++ mid)).
      assert (Ee : xml_escape [c] = e) by (unfold xml_escape; cbn; rewrite Ec; apply app_nil_r).
      by rewrite Ee, <-app_assoc.
    + destruct (IH pre (mid ++ [c])) as (p' & m' & H1 & H2 & H3); [done| |done|].
      { rewrite xml_escape_app, Hmid. unfold xml_escape. cbn. by rewrite Ec. }
      exists p', m'. split; [done|]. split; [done|]. rewrite <-H3. by rewrite app_assoc, (strlen_app (pre ++ mid)).
Qed.

(** The copying pass appends the escaped text, and needs no more room than the
    sizing pass asked for. *)
Lemma escape_spec cap d0 src :
  strlen d0 + escape_size src <= cap → escape cap d0 src = Done (d0 ++ xml_escape src).
Proof.
  rewrite escape_size_spec. intros Hcap. unfold escape.
  destruct (escape_stretch_spec cap d0 src src [] []) as (p & m & H1 & H2 & H3); [done..|].
  cbn [app] in H3. rewrite app_nil_r in H3. eapply exec_step; [exact H3|]. cbn beta iota.
  assert (Hl : strlen src - strlen p = strlen m) by (rewrite H1, strlen_app; lia). rewrite Hl.
  assert (He : xml_escape src = xml_escape p ++ m) by (by rewrite H1, xml_escape_app, H2).
  destruct (Z.ltb_spec 0 (strlen m)).
  - eapply exec_step; [apply mread_done; rewrite ?H1; slen|].
    rewrite H1. unfold strlen at 1 2. rewrite !Nat2Z.id, drop_app_length. rewrite <-H1.
    rewrite (take_ge m) by done. rewrite my_strcat_done, He, app_assoc; [done|by right|].
    rewrite He, strlen_app in Hcap. rewrite strlen_app. lia.
  - destruct m; [|slen]. by rewrite He, app_nil_r.
Qed.

Lemma escape_loop_spec cap : ∀ src out,
  strlen out + strlen (xml_escape src) <= cap → escape_loop cap out src = Done (out ++ xml_escape src).
Proof.
  induction src as [|c src IH]; intros out Hc; cbn [escape_loop]; [by rewrite app_nil_r|].
  rewrite xml_escape_cons, strlen_app in Hc.
  assert (E : match entity c with Some e => append cap out e | None => emit cap out c end
              = Done (out ++ default [c] (entity c))).
  { revert Hc. destruct (entity c) as [e|]; intros Hc; [apply append_done|apply emit_done];
      cbn [from_option default] in *; unfold id in *; slen. }
  eapply exec_step; [exact E|]. rewrite IH by (rewrite strlen_app; lia).
  by rewrite xml_escape_cons, app_assoc.
Qed.

Lemma whole_text s : mread (s ++ [0]) 0 (strlen s) = Done s.
Proof. rewrite mread_done by slen. unfold strlen. by rewrite Nat2Z.id, drop_0, take_app_length. Qed.

Lemma xml_escape_length s : (length s <= length (xml_escape s))%nat.
Proof.
  induction s as [|c s IH]; [cbn; lia|]. rewrite xml_escape_cons, length_app.
  assert (1 <= length (default [c] (entity c)))%nat by (entity_case c; cbn; lia).
  cbn [length]. lia.
Qed.

Lemma xml_escape_same s : strlen (xml_escape s) = strlen s → xml_escape s = s.
Proof.
  induction s as [|c s IH]; [done|]. rewrite xml_escape_cons, strlen_app. intros Hl.
  pose proof (xml_escape_length s). revert Hl. entity_case c; unfold strlen in *; cbn -[xml_escape]; intros; try lia.
  f_equal. apply IH. lia.
Qed.

Lemma iks_escape_spec s : iks_escape true true (Some s) (-1) = Done (Some (xml_escape s)).
Proof.
  unfold iks_escape. cbn [negb]. change (-1 =? -1) with true. cbv iota zeta.
  rewrite whole_text. eapply exec_step; [reflexivity|].
  rewrite (sum_sizes _ (λ c, default [c] (entity c)) 1) by apply growth_spec.
  fold (xml_escape s). replace (strlen s + strlen (xml_escape s) - 1 * strlen s) with (strlen (xml_escape s)) by lia.
  destruct (Z.eqb_spec (strlen s) (strlen (xml_escape s))) as [E|E].
  - by rewrite xml_escape_same.
  - eapply exec_step; [apply escape_loop_spec; slen|]. cbn [app].
    eapply exec_step; [apply emit_done; slen|]. done.
Qed.

(** ** Unescaping *)

#[local] Ltac special_turn :=
  match goal with Hn : ∀ k, _ → (k + _ <=? 0) = false |- context [strlen ?l + ?m] =>
    let k := eval vm_compute in (strlen l) in
    change (strlen l) with k; cbn [unescape_loop]; rewrite (Hn k) by lia;
    cbn -[emit unescape_loop Z.sub Z.add Z.of_nat]; f_equal;
    match goal with |- context [k + m - 1 - Z.of_nat ?j] =>
      replace (k + m - 1 - Z.of_nat j) with m by lia end; reflexivity
  end.

(** One turn undoes the escaping of one character. *)
Lemma unescape_turn f cap out c r m : 0 <= m →
  unescape_loop (S f) cap out (default [c] (entity c) ++ r) (strlen (default [c] (entity c)) + m)
  = (out ← emit cap out c; unescape_loop f cap out r m).
Proof.
  intros Hm.
  assert (Hn : ∀ k, 0 < k → (k + m <=? 0) = false) by (intros; apply Z.leb_gt; lia).
  entity_case c.
  1-5: special_turn.
  change (strlen (default [c] None)) with 1. cbn [unescape_loop]. rewrite (Hn 1) by lia. cbn -[emit].
  destruct (Z.eqb_spec c 38); [done|]. by replace (1 + m - 1) with m by lia.
Qed.

Lemma unescape_escaped cap tail : ∀ s fuel out,
  strlen out + strlen s <= cap → (length s <= fuel)%nat →
  unescape_loop fuel cap out (xml_escape s ++ tail) (strlen (xml_escape s)) = Done (out ++ s).
Proof.
  induction s as [|c s IH]; intros fuel out Hc Hf.
  - destruct fuel; by rewrite app_nil_r.
  - destruct fuel as [|fuel]; [cbn in Hf; lia|].
    rewrite xml_escape_cons, <-app_assoc, strlen_app, unescape_turn by slen.
    eapply exec_step; [apply emit_done; slen|].
    rewrite IH; [by rewrite <-app_assoc|slen|cbn in Hf; lia].
Qed.

Lemma no_ampersand s : existsb (Z.eqb 38) (xml_escape s) = false → xml_escape s = s.
Proof.
  induction s as [|c s IH]; [done|]. rewrite xml_escape_cons, existsb_app. intros [H1 H2]%orb_false_iff.
  revert H1. entity_case c; try discriminate. intros _. cbn. f_equal. auto.
Qed.

(** Every read stays in the string and every write in the block, whatever the
    text and wherever an ampersand stands. *)
Lemma unescape_loop_safe cap : ∀ fuel src out n,
  n <= strlen src → strlen out + Z.max 0 n <= cap →
  ∃ r, unescape_loop fuel cap out src n = Done r ∧ strlen r <= strlen out + Z.max 0 n.
Proof.
  induction fuel as [|fuel IH]; intros src out n Hn Hc; cbn [unescape_loop];
    destruct (Z.leb_spec n 0) as [Hle|Hgt].
  1-3: exists out; split; [done|lia].
  destruct src as [|c rest]; [unfold strlen in *; cbn [length] in *; lia|].
  assert (Hstep : ∀ v k, ∃ r,
    (out ← emit cap out v; unescape_loop fuel cap out (drop k rest) (n - 1 - Z.of_nat k)) = Done r ∧
    strlen r <= strlen out + Z.max 0 n).
  { intros v k. destruct (IH (drop k rest) (out ++ [v]) (n - 1 - Z.of_nat k)) as (r & E & Hr).
    - unfold strlen in *. cbn [length] in Hn. rewrite length_drop. lia.
    - rewrite strlen_app. unfold strlen in *. cbn [length]. lia.
    - exists r. split; [|rewrite strlen_app in Hr; unfold strlen in *; cbn [length] in *; lia].
      eapply exec_step; [apply emit_done; unfold strlen in *; lia|exact E]. }
  pose proof (Hstep c 0%nat) as H0. rewrite drop_0, Z.sub_0_r in H0.
  destruct (c =? 38); [|exact H0]. destruct (entity_at rest) as [[v k]|]; [apply Hstep|exact H0].
Qed.

(** C12 (roundtrip): [iks_unescape] undoes [iks_escape]: escaping any string
    succeeds and gives the text in which the five special characters are named
    by their entities, and unescaping that text gives the string back. *)
Theorem escape_roundtrip (s : list Z) :
  iks_escape true true (Some s) (-1) = Done (Some (xml_escape s)) ∧
  iks_unescape true true (Some (xml_escape s)) (-1) = Done (Some s).
Proof.
  split; [apply iks_escape_spec|]. unfold iks_unescape. cbn [negb].
  destruct (existsb (Z.eqb 38) (xml_escape s)) eqn:E; cbn [negb]; [|by rewrite no_ampersand].
  change (-1 =? -1) with true. cbv iota zeta.
  assert (Hle : (length s <= length (xml_escape s))%nat) by apply xml_escape_length.
  pose proof (unescape_escaped (strlen (xml_escape s) + 1) [] s (length (xml_escape s)) []) as Hun.
  rewrite app_nil_r in Hun. eapply exec_step; [apply Hun; slen|]. cbn [app].
  eapply exec_step; [apply emit_done; slen|]. done.
Qed.

(** [iks_unescape] returns for every string and every length up to
    the string's own, and its result is no longer than that length: no load
    leaves the string and no store leaves the block of [len + 1] bytes. *)
Theorem unescape_safe (ok have_stack : bool) (s : list Z) (len : Z) :
  len = -1 ∨ 0 <= len <= strlen s →
  ∃ r, iks_unescape ok have_stack (Some s) len = Done r.
Proof.
  intros Hlen. unfold iks_unescape. destruct have_stack; cbn [negb]; [|by eexists].
  destruct (existsb _ _); cbn [negb]; [|by eexists]. cbv zeta.
  set (n := if len =? -1 then strlen s else len).
  assert (Hn : 0 <= n <= strlen s).
  { unfold n. destruct (Z.eqb_spec len (-1)); [unfold strlen|]; lia. }
  destruct ok; cbn [negb]; [|by eexists].
  destruct (unescape_loop_safe (n + 1) (length s) s [] n) as (r & E & Hr); [lia|slen|].
  eexists. eapply exec_step; [exact E|]. eapply exec_step; [apply emit_done; slen|]. done.
Qed.

Lemma unescape_safe_witness :
  ∃ r, iks_unescape true true (Some (bs "a&amp;b&")) 8 = Done r.
Proof. apply (unescape_safe true true (bs "a&amp;b&") 8). right. vm_compute. split; discriminate. Defined.

(** The two passes of the serialiser agree with each other
    and with the per-character definition: [escape_size] is the length of the
    escaped text, and [escape], which copies whole stretches, writes exactly
    that text into a block that has [escape_size] bytes left. *)
Theorem escape_passes_agree (cap : Z) (dest src : list Z) :
  escape_size src = strlen (xml_escape src) ∧
  (strlen dest + escape_size src <= cap → escape cap dest src = Done (dest ++ xml_escape src)).
Proof. split; [apply escape_size_spec|apply escape_spec]. Qed.

Lemma escape_passes_agree_witness :
  escape 20 (bs "x=") (bs "a<b&c") = Done (bs "x=a&lt;b&amp;c").
Proof. apply (escape_passes_agree 20 (bs "x=") (bs "a<b&c")). vm_compute. discriminate. Defined.
