(* ===== verification/Sax.v ===== *)
(** * The SAX parser

    [src/sysapps/apps/cgi2/app/jabberlog/sax.c]: the parser context
    [iksparser], the growing stack on which names and values are collected, and
    [sax_core], the loop over the bytes of a buffer with its 28 contexts.

    [stack] holds the bytes below [stack_pos]; [stack_max] is the size of its
    block, 0 while there is none.  Pointers into it are offsets: moving the
    block adds the same [diff] to all of them.  [atts] is the array of
    attribute pointers.  [mem] foretells the calls of [iks_malloc]: each takes
    the next boolean, and succeeds when none is left.  A store behind the end
    of the stack, of [entity] or of [atts] is a [Fault].

    The hooks are a client of the parser, as state-passing functions; a tag
    hook gets the attributes as it finds them walking [atts] up to the null. *)

From S2P Require Import Prelude.

Local Open Scope Z_scope.

Inductive cons_e : Type :=
| C_CDATA | C_TAG_START | C_TAG | C_TAG_END | C_ATTRIBUTE | C_ATTRIBUTE_1 | C_ATTRIBUTE_2
| C_VALUE | C_VALUE_APOS | C_VALUE_QUOT | C_WHITESPACE | C_ENTITY
| C_COMMENT | C_COMMENT_1 | C_COMMENT_2 | C_COMMENT_3 | C_MARKUP | C_MARKUP_1
| C_SECT | C_SECT_CDATA | C_SECT_CDATA_1 | C_SECT_CDATA_2 | C_SECT_CDATA_3 | C_SECT_CDATA_4
| C_SECT_CDATA_C | C_SECT_CDATA_E | C_SECT_CDATA_E2 | C_PI.

#[export] Instance cons_e_eq_dec : EqDecision cons_e.
Proof. solve_decision. Defined.

Inductive ikstagtype : Type := IKS_OPEN | IKS_CLOSE | IKS_SINGLE.
Inductive ikserror : Type := IKS_OK | IKS_NOMEM | IKS_BADXML | IKS_HOOK.

#[export] Instance ikstagtype_eq_dec : EqDecision ikstagtype.
Proof. solve_decision. Defined.
#[export] Instance ikserror_eq_dec : EqDecision ikserror.
Proof. solve_decision. Defined.

Record iksparser : Type := mk_iksparser {
  stack : list Z; stack_max : Z;
  context : cons_e; oldcontext : cons_e;
  tag_name : Z; tagtype : ikstagtype;
  attmax : Z; attcur : Z; attflag : bool; atts : option (list (option Z));
  entpos : Z; entity : list Z;
  nr_bytes : Z; nr_lines : Z;
  uni_max : Z; uni_len : Z;
  mem : list bool }.

(** [iks_sax_new] and [iks_sax_extend]: a cleared context. *)
Definition iks_sax_new (mem : list bool) : iksparser :=
  mk_iksparser [] 0 C_CDATA C_CDATA 0 IKS_OPEN 0 0 false None 0 (replicate 8 0) 0 0 0 0 mem.

Definition set_stack (p : iksparser) (s : list Z) : iksparser :=
  mk_iksparser s (stack_max p) (context p) (oldcontext p) (tag_name p) (tagtype p) (attmax p) (attcur p)
    (attflag p) (atts p) (entpos p) (entity p) (nr_bytes p) (nr_lines p) (uni_max p) (uni_len p) (mem p).
Definition set_stack_max (p : iksparser) (n : Z) : iksparser :=
  mk_iksparser (stack p) n (context p) (oldcontext p) (tag_name p) (tagtype p) (attmax p) (attcur p)
    (attflag p) (atts p) (entpos p) (entity p) (nr_bytes p) (nr_lines p) (uni_max p) (uni_len p) (mem p).
Definition set_context (p : iksparser) (c : cons_e) : iksparser :=
  mk_iksparser (stack p) (stack_max p) c (oldcontext p) (tag_name p) (tagtype p) (attmax p) (attcur p)
    (attflag p) (atts p) (entpos p) (entity p) (nr_bytes p) (nr_lines p) (uni_max p) (uni_len p) (mem p).
Definition set_oldcontext (p : iksparser) (c : cons_e) : iksparser :=
  mk_iksparser (stack p) (stack_max p) (context p) c (tag_name p) (tagtype p) (attmax p) (attcur p)
    (attflag p) (atts p) (entpos p) (entity p) (nr_bytes p) (nr_lines p) (uni_max p) (uni_len p) (mem p).
Definition set_tag_name (p : iksparser) (n : Z) : iksparser :=
  mk_iksparser (stack p) (stack_max p) (context p) (oldcontext p) n (tagtype p) (attmax p) (attcur p)
    (attflag p) (atts p) (entpos p) (entity p) (nr_bytes p) (nr_lines p) (uni_max p) (uni_len p) (mem p).
Definition set_tagtype (p : iksparser) (t : ikstagtype) : iksparser :=
  mk_iksparser (stack p) (stack_max p) (context p) (oldcontext p) (tag_name p) t (attmax p) (attcur p)
    (attflag p) (atts p) (entpos p) (entity p) (nr_bytes p) (nr_lines p) (uni_max p) (uni_len p) (mem p).
Definition set_atts (p : iksparser) (m c : Z) (f : bool) (a : option (list (option Z))) : iksparser :=
  mk_iksparser (stack p) (stack_max p) (context p) (oldcontext p) (tag_name p) (tagtype p) m c f a
    (entpos p) (entity p) (nr_bytes p) (nr_lines p) (uni_max p) (uni_len p) (mem p).
Definition set_entity (p : iksparser) (n : Z) (e : list Z) : iksparser :=
  mk_iksparser (stack p) (stack_max p) (context p) (oldcontext p) (tag_name p) (tagtype p) (attmax p) (attcur p)
    (attflag p) (atts p) n e (nr_bytes p) (nr_lines p) (uni_max p) (uni_len p) (mem p).
Definition set_counts (p : iksparser) (b l : Z) : iksparser :=
  mk_iksparser (stack p) (stack_max p) (context p) (oldcontext p) (tag_name p) (tagtype p) (attmax p) (attcur p)
    (attflag p) (atts p) (entpos p) (entity p) b l (uni_max p) (uni_len p) (mem p).
Definition set_uni (p : iksparser) (m l : Z) : iksparser :=
  mk_iksparser (stack p) (stack_max p) (context p) (oldcontext p) (tag_name p) (tagtype p) (attmax p) (attcur p)
    (attflag p) (atts p) (entpos p) (entity p) (nr_bytes p) (nr_lines p) m l (mem p).
Definition set_mem (p : iksparser) (m : list bool) : iksparser :=
  mk_iksparser (stack p) (stack_max p) (context p) (oldcontext p) (tag_name p) (tagtype p) (attmax p) (attcur p)
    (attflag p) (atts p) (entpos p) (entity p) (nr_bytes p) (nr_lines p) (uni_max p) (uni_len p) m.

(** The next call of [iks_malloc]. *)
Definition iks_malloc (p : iksparser) : bool * iksparser :=
  match mem p with [] => (true, p) | b :: m => (b, set_mem p m) end.

Definition stack_pos (p : iksparser) : Z := strlen (stack p).

(** ** The stack *)

Definition stack_init (p : iksparser) : bool * iksparser :=
  let '(ok, p) := iks_malloc p in
  if ok then (true, set_stack (set_stack_max p 128) []) else (false, p).

(** [need * 1.2] is computed in doubles, where it is exact up to the
    truncation: [need * 6 / 5].  Sizes stay below 2^32: a block that large
    cannot be had. *)
Definition stack_expand (p : iksparser) (len : Z) : bool * iksparser :=
  let need := len - (stack_max p - stack_pos p) in
  let need := if need <? stack_max p then stack_max p * 2 else stack_max p + need * 6 / 5 in
  let '(ok, p) := iks_malloc p in
  if ok then (true, set_stack_max p need) else (false, p).

(** [memcpy] to the end of the stack. *)
Definition stack_write (p : iksparser) (b : list Z) : exec iksparser :=
  if stack_pos p + strlen b <=? stack_max p then Done (set_stack p (stack p ++ b)) else Fault.

(** [STACK_PUSH] and [STACK_PUSH_END]: false when memory ran out. *)
Definition STACK_PUSH (p : iksparser) (b : list Z) : exec (bool * iksparser) :=
  let '(ok, p) := if stack_max p - stack_pos p <=? strlen b then stack_expand p (strlen b) else (true, p) in
  if ok then p ← stack_write p b; Done (true, p) else Done (false, p).

Definition STACK_PUSH_END (p : iksparser) : exec (bool * iksparser) :=
  let '(ok, p) := if stack_max p <=? stack_pos p then stack_expand p 1 else (true, p) in
  if ok then p ← stack_write p [0]; Done (true, p) else Done (false, p).

(** ** Attributes *)

Definition att_store (p : iksparser) (i : Z) (v : option Z) : exec iksparser :=
  match atts p with
  | None => Fault
  | Some a =>
      if (0 <=? i) && (i <? Z.of_nat (length a))
      then Done (set_atts p (attmax p) (attcur p) (attflag p) (Some (<[Z.to_nat i := v]> a)))
      else Fault
  end.

(** A string on the stack, and the attributes as a hook reads them: pairs of
    strings up to the null pointer. *)
Definition stack_str (p : iksparser) (off : Z) : list Z := c_str (drop (Z.to_nat off) (stack p)).

Fixpoint read_atts (p : iksparser) (a : list (option Z)) : exec (list (list Z * list Z)) :=
  match a with
  | None :: _ => Done []
  | Some n :: Some v :: a' => r ← read_atts p a'; Done ((stack_str p n, stack_str p v) :: r)
  | _ => Fault
  end.

Definition hook_atts (p : iksparser) : exec (list (list Z * list Z)) :=
  if attcur p =? 0 then Done []
  else match atts p with Some a => read_atts p a | None => Fault end.

(** ** Clients: the hooks

    [None] is a null hook. *)
Class SaxClient (U : Type) : Type := {
  tagHook : option (U → list Z → list (list Z * list Z) → ikstagtype → exec (ikserror * U));
  cdataHook : option (U → list Z → exec (ikserror * U)) }.

Section sax.
Context {U : Type} `{SaxClient U}.

(** The locals of [sax_core] beside the parser and the user data; [stack_old]
    is -1 when nothing waits to be pushed. *)
Record loc : Type := mk_loc {
  prs : iksparser; user : U; pos : Z; old : Z; stack_old : Z }.

Definition set_prs (l : loc) (p : iksparser) : loc := mk_loc p (user l) (pos l) (old l) (stack_old l).
Definition set_user (l : loc) (u : U) : loc := mk_loc (prs l) u (pos l) (old l) (stack_old l).
Definition set_old (l : loc) (n : Z) : loc := mk_loc (prs l) (user l) (pos l) n (stack_old l).
Definition set_stack_old (l : loc) (n : Z) : loc := mk_loc (prs l) (user l) (pos l) (old l) n.
Definition goto (l : loc) (c : cons_e) : loc := set_prs l (set_context (prs l) c).

(** What a case of the [switch] ends with: [break] with [re = 0] or [re = 1],
    or [return err]. *)
Inductive verdict : Type := Next | Again | Ret (e : ikserror).

Definition bytes_between (buf : list Z) (a b : Z) : exec (list Z) := mread buf a (b - a).

(** [err = prs->cdataHook (...); if (IKS_OK != err) return err]. *)
Definition call_cdata (l : loc) (b : list Z) (k : loc → exec (loc * verdict)) : exec (loc * verdict) :=
  match cdataHook with
  | None => k l
  | Some f =>
      '(err, u) ← f (user l) b;
      let l := set_user l u in
      if decide (err = IKS_OK) then k l else Done (l, Ret err)
  end.

(** Delivering [buf[old .. pos)] when it is not empty. *)
Definition flush_cdata (buf : list Z) (l : loc) (k : loc → exec (loc * verdict)) : exec (loc * verdict) :=
  if old l <? pos l then b ← bytes_between buf (old l) (pos l); call_cdata l b k else k l.

(** [if (stack_old != -1) STACK_PUSH (...); stack_old = -1; STACK_PUSH_END]. *)
Definition push_string (buf : list Z) (l : loc) (k : loc → exec (loc * verdict)) : exec (loc * verdict) :=
  '(ok, p) ← (if stack_old l =? -1 then Done (true, prs l)
              else b ← bytes_between buf (stack_old l) (pos l); STACK_PUSH (prs l) b);
  if negb ok then Done (set_prs l p, Ret IKS_NOMEM) else
  '(ok, p) ← STACK_PUSH_END p;
  let l := set_stack_old (set_prs l p) (-1) in
  if negb ok then Done (l, Ret IKS_NOMEM) else k l.

Definition is_whitespace (c : Z) : bool := (c =? 32) || (c =? 9) || (c =? 13) || (c =? 10).

(** ** The bytes before the [switch]: [None] goes on to it *)

Definition lead_byte (c : Z) : option (Z * Z) :=
  if Z.land c 0x60 =? 0x40 then Some (2, 0x1F)
  else if Z.land c 0x70 =? 0x60 then Some (3, 0x0F)
  else if Z.land c 0x78 =? 0x70 then Some (4, 0x07)
  else if Z.land c 0x7C =? 0x78 then Some (5, 0x03)
  else if Z.land c 0x7E =? 0x7C then Some (6, 0x01)
  else None.

Definition collecting (c : cons_e) : bool :=
  bool_decide (c = C_TAG ∨ c = C_ATTRIBUTE_1 ∨ c = C_VALUE_APOS ∨ c = C_VALUE_QUOT).

Definition sax_unicode (l : loc) (c : Z) : option (loc * verdict) :=
  let p := prs l in
  if (c =? 0) || (c =? 0xFE) || (c =? 0xFF) then Some (l, Ret IKS_BADXML)
  else if negb (uni_max p =? 0) then
    if negb (Z.land c 0xC0 =? 0x80) then Some (l, Ret IKS_BADXML)
    else
      let len := uni_len p + 1 in
      Some (set_prs l (set_uni p (if len =? uni_max p then 0 else uni_max p) len), Next)
  else if negb (Z.land c 0x80 =? 0) then
    match lead_byte c with
    | None => Some (l, Ret IKS_BADXML)
    | Some (max, mask) =>
        if Z.land c mask =? 0 then Some (set_prs l (set_uni p max (uni_len p)), Ret IKS_BADXML)
        else
          let l := set_prs l (set_uni p max 1) in
          Some (if (stack_old l =? -1) && collecting (context p) then set_stack_old l (pos l) else l, Next)
    end
  else None.

(** ** The cases of the [switch] *)

Definition case_cdata (buf : list Z) (l : loc) (c : Z) : exec (loc * verdict) :=
  if c =? 38 then
    flush_cdata buf l (λ l,
      Done (set_prs l (set_entity (set_context (prs l) C_ENTITY) 0 (entity (prs l))), Next))
  else if c =? 60 then
    flush_cdata buf l (λ l,
      let '(ok, p) := if stack_max (prs l) =? 0 then stack_init (prs l) else (true, prs l) in
      if negb ok then Done (set_prs l p, Ret IKS_NOMEM)
      else Done (set_prs l (set_context (set_tag_name p (stack_pos p)) C_TAG_START), Next))
  else Done (l, Next).

Definition case_tag_start (l : loc) (c : Z) : exec (loc * verdict) :=
  if c =? 47 then Done (set_prs l (set_tagtype (set_context (prs l) C_TAG) IKS_CLOSE), Next)
  else if c =? 63 then Done (goto l C_PI, Next)
  else if c =? 33 then Done (goto l C_MARKUP, Next)
  else Done (set_stack_old (set_prs l (set_tagtype (set_context (prs l) C_TAG) IKS_OPEN)) (pos l), Next).

Definition case_tag (buf : list Z) (l : loc) (c : Z) : exec (loc * verdict) :=
  if is_whitespace c then
    let next := if decide (tagtype (prs l) = IKS_CLOSE) then C_TAG_END else C_ATTRIBUTE in
    push_string buf (set_prs l (set_context (set_oldcontext (prs l) next) C_WHITESPACE)) (λ l, Done (l, Next))
  else if c =? 47 then
    if decide (tagtype (prs l) = IKS_CLOSE) then Done (l, Ret IKS_BADXML)
    else push_string buf (set_prs l (set_context (set_tagtype (prs l) IKS_SINGLE) C_TAG_END)) (λ l, Done (l, Next))
  else if c =? 62 then push_string buf (goto l C_TAG_END) (λ l, Done (l, Again))
  else Done (if stack_old l =? -1 then set_stack_old l (pos l) else l, Next).

Definition case_tag_end (l : loc) (c : Z) : exec (loc * verdict) :=
  if negb (c =? 62) then Done (l, Ret IKS_BADXML) else
  let leave l :=
    let p := set_stack (prs l) [] in
    let p := set_context (set_atts p (attmax p) 0 false (atts p)) C_CDATA in
    Done (mk_loc p (user l) (pos l) (pos l + 1) (-1), Next) in
  match tagHook with
  | None => leave l
  | Some f =>
      a ← hook_atts (prs l);
      '(err, u) ← f (user l) (stack_str (prs l) (tag_name (prs l))) a (tagtype (prs l));
      let l := set_user l u in
      if decide (err = IKS_OK) then leave l else Done (l, Ret err)
  end.

(** The array of attributes: made with 12 pairs, and 12 more when it is full.
    [attmax] is advanced before the allocation is tested. *)
Definition ensure_atts (p : iksparser) : bool * iksparser :=
  match atts p with
  | None =>
      let '(ok, p) := iks_malloc (set_atts p 12 (attcur p) (attflag p) (atts p)) in
      if ok then (true, set_atts p 12 0 (attflag p) (Some (replicate 24 None))) else (false, p)
  | Some a =>
      if attmax p * 2 <=? attcur p then
        let max := attmax p + 12 in
        let '(ok, p) := iks_malloc (set_atts p max (attcur p) (attflag p) (Some a)) in
        if ok then
          (true, set_atts p max (attcur p) (attflag p)
             (Some (take (Z.to_nat (attcur p)) a ++ replicate (Z.to_nat (2 * max - attcur p)) None)))
        else (false, p)
      else (true, p)
  end.

Definition case_attribute (l : loc) (c : Z) : exec (loc * verdict) :=
  if c =? 47 then Done (set_prs l (set_context (set_tagtype (prs l) IKS_SINGLE) C_TAG_END), Next)
  else if c =? 62 then Done (goto l C_TAG_END, Again)
  else
    let '(ok, p) := ensure_atts (prs l) in
    if negb ok then Done (set_prs l p, Ret IKS_NOMEM) else
    let p := set_atts p (attmax p) (attcur p) true (atts p) in
    p ← att_store p (attcur p) (Some (stack_pos p));
    Done (set_stack_old (set_prs l (set_context p C_ATTRIBUTE_1)) (pos l), Next).

Definition case_attribute_1 (buf : list Z) (l : loc) (c : Z) : exec (loc * verdict) :=
  if c =? 61 then push_string buf l (λ l, Done (goto l C_VALUE, Next))
  else Done (if stack_old l =? -1 then set_stack_old l (pos l) else l, Next).

Definition case_attribute_2 (l : loc) (c : Z) : exec (loc * verdict) :=
  if c =? 47 then
    p ← att_store (set_tagtype (prs l) IKS_SINGLE) (attcur (prs l)) None;
    Done (set_prs l (set_context p C_TAG_END), Next)
  else if c =? 62 then
    p ← att_store (prs l) (attcur (prs l)) None;
    Done (set_prs l (set_context p C_TAG_END), Again)
  else Done (goto l C_ATTRIBUTE, Again).

Definition case_value (l : loc) (c : Z) : exec (loc * verdict) :=
  p ← att_store (prs l) (attcur (prs l) + 1) (Some (stack_pos (prs l)));
  let l := set_prs l p in
  if c =? 39 then Done (goto l C_VALUE_APOS, Next)
  else if c =? 34 then Done (goto l C_VALUE_QUOT, Next)
  else Done (l, Ret IKS_BADXML).

(** [C_VALUE_APOS] and [C_VALUE_QUOT], for the quote [q]. *)
Definition case_value_in (q : Z) (buf : list Z) (l : loc) (c : Z) : exec (loc * verdict) :=
  let last l := Done (if stack_old l =? -1 then set_stack_old l (pos l) else l, Next) in
  if c =? q then
    push_string buf l (λ l,
      let p := set_context (set_oldcontext (prs l) C_ATTRIBUTE_2) C_WHITESPACE in
      last (set_prs l (set_atts p (attmax p) (attcur p + 2) (attflag p) (atts p))))
  else last l.

Definition case_whitespace (l : loc) (c : Z) : exec (loc * verdict) :=
  if is_whitespace c then Done (l, Next) else Done (goto l (oldcontext (prs l)), Again).

(** The character an entity names. *)
Definition entity_char (e : list Z) : Z :=
  if bool_decide (e = bs "amp") then 38
  else if bool_decide (e = bs "quot") then 34
  else if bool_decide (e = bs "apos") then 39
  else if bool_decide (e = bs "lt") then 60
  else if bool_decide (e = bs "gt") then 62
  else 63.

Definition case_entity (l : loc) (c : Z) : exec (loc * verdict) :=
  let p := prs l in
  if c =? 59 then
    e ← store (entity p) (entpos p) 0;
    let l := set_old (set_prs l (set_entity p (entpos p) e)) (pos l + 1) in
    call_cdata l [entity_char (c_str e)] (λ l, Done (goto l C_CDATA, Next))
  else
    e ← store (entity p) (entpos p) c;
    let l := set_prs l (set_entity p (entpos p + 1) e) in
    if 7 <? entpos p + 1 then Done (l, Ret IKS_BADXML) else Done (l, Next).

(** [if (want != c) return IKS_BADXML; prs->context = next]. *)
Definition expect (want : Z) (next : cons_e) (l : loc) (c : Z) : exec (loc * verdict) :=
  if c =? want then Done (goto l next, Next) else Done (l, Ret IKS_BADXML).

Definition back_to_cdata (l : loc) : loc := set_old (goto l C_CDATA) (pos l + 1).

Definition case_comment (ctx : cons_e) (l : loc) (c : Z) : exec (loc * verdict) :=
  match ctx with
  | C_COMMENT => expect 45 C_COMMENT_1 l c
  | C_COMMENT_1 => Done (if c =? 45 then goto l C_COMMENT_2 else l, Next)
  | C_COMMENT_2 => Done (goto l (if c =? 45 then C_COMMENT_3 else C_COMMENT_1), Next)
  | _ => if c =? 62 then Done (back_to_cdata l, Next) else Done (l, Ret IKS_BADXML)
  end.

Definition case_markup_1 (l : loc) (c : Z) : exec (loc * verdict) :=
  Done (if c =? 62 then back_to_cdata l else l, Next).

(** [C_MARKUP] falls through to [C_MARKUP_1]. *)
Definition case_markup (l : loc) (c : Z) : exec (loc * verdict) :=
  if c =? 91 then Done (goto l C_SECT, Next)
  else if c =? 45 then Done (goto l C_COMMENT, Next)
  else case_markup_1 (goto l C_MARKUP_1) c.

Definition case_sect (ctx : cons_e) (l : loc) (c : Z) : exec (loc * verdict) :=
  match ctx with
  | C_SECT => expect 67 C_SECT_CDATA l c
  | C_SECT_CDATA => expect 68 C_SECT_CDATA_1 l c
  | C_SECT_CDATA_1 => expect 65 C_SECT_CDATA_2 l c
  | C_SECT_CDATA_2 => expect 84 C_SECT_CDATA_3 l c
  | C_SECT_CDATA_3 => expect 65 C_SECT_CDATA_4 l c
  | _ => if c =? 91 then Done (set_old (goto l C_SECT_CDATA_C) (pos l + 1), Next) else Done (l, Ret IKS_BADXML)
  end.

Definition case_sect_c (buf : list Z) (l : loc) (c : Z) : exec (loc * verdict) :=
  if c =? 93 then flush_cdata buf (goto l C_SECT_CDATA_E) (λ l, Done (l, Next)) else Done (l, Next).

Definition case_sect_e (l : loc) (c : Z) : exec (loc * verdict) :=
  if c =? 93 then Done (goto l C_SECT_CDATA_E2, Next)
  else call_cdata l [93] (λ l, Done (set_old (goto l C_SECT_CDATA_C) (pos l), Next)).

Definition case_sect_e2 (l : loc) (c : Z) : exec (loc * verdict) :=
  if c =? 62 then Done (back_to_cdata l, Next)
  else call_cdata l [93; 93] (λ l, Done (set_old (goto l C_SECT_CDATA_C) (pos l), Next)).

Definition case_pi (l : loc) (c : Z) : exec (loc * verdict) :=
  let l := set_old l (pos l + 1) in Done (if c =? 62 then goto l C_CDATA else l, Next).

Definition sax_switch (buf : list Z) (l : loc) (c : Z) : exec (loc * verdict) :=
  match context (prs l) with
  | C_CDATA => case_cdata buf l c
  | C_TAG_START => case_tag_start l c
  | C_TAG => case_tag buf l c
  | C_TAG_END => case_tag_end l c
  | C_ATTRIBUTE => case_attribute l c
  | C_ATTRIBUTE_1 => case_attribute_1 buf l c
  | C_ATTRIBUTE_2 => case_attribute_2 l c
  | C_VALUE => case_value l c
  | C_VALUE_APOS => case_value_in 39 buf l c
  | C_VALUE_QUOT => case_value_in 34 buf l c
  | C_WHITESPACE => case_whitespace l c
  | C_ENTITY => case_entity l c
  | (C_COMMENT | C_COMMENT_1 | C_COMMENT_2 | C_COMMENT_3) as k => case_comment k l c
  | C_MARKUP => case_markup l c
  | C_MARKUP_1 => case_markup_1 l c
  | C_SECT_CDATA_C => case_sect_c buf l c
  | C_SECT_CDATA_E => case_sect_e l c
  | C_SECT_CDATA_E2 => case_sect_e2 l c
  | C_PI => case_pi l c
  | k => case_sect k l c
  end.

(** One turn of the loop, up to the label [cont]. *)
Definition sax_turn (buf : list Z) (l : loc) (c : Z) : exec (loc * verdict) :=
  match sax_unicode l c with Some r => Done r | None => sax_switch buf l c end.

(** The turns for one byte: while [re] is set the byte is looked at again.  At
    most four turns are ever taken, as the simulation in [SaxRefine] shows. *)
Fixpoint sax_byte (turns : nat) (buf : list Z) (l : loc) (c : Z) : exec (loc * option ikserror) :=
  match turns with
  | O => Fault
  | S turns' =>
      '(l, v) ← sax_turn buf l c;
      match v with
      | Ret e => Done (l, Some e)
      | Again => sax_byte turns' buf l c
      | Next =>
          let p := prs l in
          let p := set_counts p (nr_bytes p + 1) (if c =? 10 then nr_lines p + 1 else nr_lines p) in
          Done (mk_loc p (user l) (pos l + 1) (old l) (stack_old l), None)
      end
  end.

(** [while (pos < len)], over the bytes from [pos] on. *)
Fixpoint sax_loop (buf : list Z) (l : loc) (rest : list Z) : exec (loc * option ikserror) :=
  match rest with
  | [] => Done (l, None)
  | c :: rest' =>
      '(l, e) ← sax_byte 4 buf l c;
      match e with Some e => Done (l, Some e) | None => sax_loop buf l rest' end
  end.

(** After the loop: what waits is pushed, and character data delivered. *)
Definition sax_rest (buf : list Z) (l : loc) : exec (ikserror * iksparser * U) :=
  '(ok, p) ← (if stack_old l =? -1 then Done (true, prs l)
              else b ← bytes_between buf (stack_old l) (pos l); STACK_PUSH (prs l) b);
  if negb ok then Done (IKS_NOMEM, p, user l) else
  if bool_decide (context p = C_CDATA ∨ context p = C_SECT_CDATA_C) && (old l <? pos l) then
    match cdataHook with
    | Some f => b ← bytes_between buf (old l) (pos l); '(err, u) ← f (user l) b; Done (err, p, u)
    | None => Done (IKS_OK, p, user l)
    end
  else Done (IKS_OK, p, user l).

Definition sax_core (p : iksparser) (u : U) (buf : list Z) : exec (ikserror * iksparser * U) :=
  '(l, e) ← sax_loop buf (mk_loc p u 0 0 (-1)) buf;
  match e with
  | Some err => Done (err, prs l, user l)
  | None => sax_rest buf l
  end.

(** [data] is the buffer with its length, a string when [len] is 0. *)
Definition iks_parse (p : iksparser) (u : U) (data : option (list Z)) (len : Z) : exec (ikserror * iksparser * U) :=
  match data with
  | None => Done (IKS_OK, p, u)
  | Some d =>
      b ← (if len =? 0 then Done (c_str d) else mread d 0 len);
      sax_core p u b
  end.

(** [deleteHook] clears the client's part. *)
Definition iks_parser_reset (deleteHook : option (U → U)) (p : iksparser) (u : U) : iksparser * U :=
  let u := match deleteHook with Some f => f u | None => u end in
  (mk_iksparser [] (stack_max p) C_CDATA C_CDATA (tag_name p) IKS_OPEN (attmax p) 0 false (atts p)
     0 (entity p) 0 0 0 0 (mem p), u).

(** Successive calls of [iks_parse], as [iks_recv] and [iks_load] make them:
    the first error ends the input. *)
Fixpoint sax_chunks (p : iksparser) (u : U) (bufs : list (list Z)) : exec (ikserror * iksparser * U) :=
  match bufs with
  | [] => Done (IKS_OK, p, u)
  | b :: bufs' =>
      '(err, p, u) ← sax_core p u b;
      if decide (err = IKS_OK) then sax_chunks p u bufs' else Done (err, p, u)
  end.
End sax.
