(* ===== verification/SaxSpec.v ===== *)
(** * What the SAX parser promises

    A specification of [sax_core] without buffers, offsets and stack: a machine
    that takes one byte at a time, keeps the name, the attributes and the
    pending text as lists, and calls the client's hooks.  The refinement
    theorem says that [sax_core] does what the machine does, byte by byte,
    on every input on which the machine is defined.  The machine is undefined
    in one place: behind a tag with 12, 24, ... attributes, where the code
    stores the terminating null pointer behind its array. *)

From S2P Require Import Prelude Sax.

Local Open Scope Z_scope.

Record sp : Type := mk_sp {
  s_ctx : cons_e; s_octx : cons_e; s_type : ikstagtype;
  s_name : list Z; s_atts : list (list Z * list Z); s_an : list Z; s_av : list Z;
  s_ent : list Z; s_text : list Z; s_umax : Z; s_ulen : Z }.

Definition sp_init : sp := mk_sp C_CDATA C_CDATA IKS_OPEN [] [] [] [] [] [] 0 0.

Definition s_goto (s : sp) (c : cons_e) : sp :=
  mk_sp c (s_octx s) (s_type s) (s_name s) (s_atts s) (s_an s) (s_av s) (s_ent s) (s_text s) (s_umax s) (s_ulen s).
Definition s_wait (s : sp) (c : cons_e) : sp :=
  mk_sp C_WHITESPACE c (s_type s) (s_name s) (s_atts s) (s_an s) (s_av s) (s_ent s) (s_text s) (s_umax s) (s_ulen s).
Definition s_settype (s : sp) (t : ikstagtype) : sp :=
  mk_sp (s_ctx s) (s_octx s) t (s_name s) (s_atts s) (s_an s) (s_av s) (s_ent s) (s_text s) (s_umax s) (s_ulen s).
Definition s_setname (s : sp) (n : list Z) : sp :=
  mk_sp (s_ctx s) (s_octx s) (s_type s) n (s_atts s) (s_an s) (s_av s) (s_ent s) (s_text s) (s_umax s) (s_ulen s).
Definition s_setatts (s : sp) (a : list (list Z * list Z)) : sp :=
  mk_sp (s_ctx s) (s_octx s) (s_type s) (s_name s) a (s_an s) (s_av s) (s_ent s) (s_text s) (s_umax s) (s_ulen s).
Definition s_setattr (s : sp) (n v : list Z) : sp :=
  mk_sp (s_ctx s) (s_octx s) (s_type s) (s_name s) (s_atts s) n v (s_ent s) (s_text s) (s_umax s) (s_ulen s).
Definition s_setent (s : sp) (e : list Z) : sp :=
  mk_sp (s_ctx s) (s_octx s) (s_type s) (s_name s) (s_atts s) (s_an s) (s_av s) e (s_text s) (s_umax s) (s_ulen s).
Definition s_settext (s : sp) (t : list Z) : sp :=
  mk_sp (s_ctx s) (s_octx s) (s_type s) (s_name s) (s_atts s) (s_an s) (s_av s) (s_ent s) t (s_umax s) (s_ulen s).
Definition s_setuni (s : sp) (m n : Z) : sp :=
  mk_sp (s_ctx s) (s_octx s) (s_type s) (s_name s) (s_atts s) (s_an s) (s_av s) (s_ent s) (s_text s) m n.

(** A byte that belongs to what the context collects. *)
Definition collect (s : sp) (c : Z) : sp :=
  match s_ctx s with
  | C_TAG => s_setname s (s_name s ++ [c])
  | C_ATTRIBUTE_1 => s_setattr s (s_an s ++ [c]) (s_av s)
  | C_VALUE_APOS | C_VALUE_QUOT => s_setattr s (s_an s) (s_av s ++ [c])
  | C_CDATA | C_SECT_CDATA_C => s_settext s (s_text s ++ [c])
  | _ => s
  end.

Section spec.
Context {U : Type} `{SaxClient U}.

Definition sres : Type := exec (sp * U * option ikserror).

(** Character data delivered to the client. *)
Definition deliver (s : sp) (u : U) (b : list Z) (k : U → sres) : sres :=
  match cdataHook with
  | None => k u
  | Some f => '(err, u) ← f u b; if decide (err = IKS_OK) then k u else Done (s, u, Some err)
  end.

Definition deliver_text (s : sp) (u : U) (k : U → sres) : sres :=
  match s_text s with [] => k u | b => deliver s u b k end.

Definition bad (s : sp) (u : U) : sres := Done (s, u, Some IKS_BADXML).

(** The end of a tag: the client is told, and the parser is back in text. *)
Definition finish_tag (s : sp) (u : U) : sres :=
  let leave u := Done (s_settext (s_setatts (s_goto s C_CDATA) []) [], u, None) in
  match tagHook with
  | None => leave u
  | Some f =>
      '(err, u) ← f u (s_name s) (s_atts s) (s_type s);
      if decide (err = IKS_OK) then leave u else Done (s, u, Some err)
  end.

Definition at_tag_end (s : sp) (u : U) (c : Z) : sres := if c =? 62 then finish_tag s u else bad s u.

(** A new attribute starts with [c]. *)
Definition start_attribute (s : sp) (u : U) (c : Z) : sres :=
  Done (s_goto (s_setattr s [c] []) C_ATTRIBUTE_1, u, None).

Definition at_attribute (s : sp) (u : U) (c : Z) : sres :=
  if c =? 47 then Done (s_goto (s_settype s IKS_SINGLE) C_TAG_END, u, None)
  else if c =? 62 then finish_tag s u
  else start_attribute s u c.

(** The array of attribute pointers grows by 12 pairs, and a tag that fills it
    has no room for the null pointer. *)
Definition full_array (s : sp) : bool := (length (s_atts s) mod 12 =? 0)%nat.

Definition at_attribute_2 (s : sp) (u : U) (c : Z) : sres :=
  if c =? 47 then
    if full_array s then Fault else Done (s_goto (s_settype s IKS_SINGLE) C_TAG_END, u, None)
  else if c =? 62 then if full_array s then Fault else finish_tag s u
  else start_attribute s u c.

Definition at_value_in (q : Z) (s : sp) (u : U) (c : Z) : sres :=
  if c =? q then Done (s_wait (s_setatts s (s_atts s ++ [(s_an s, s_av s)])) C_ATTRIBUTE_2, u, None)
  else Done (collect s c, u, None).

Definition at_expect (want : Z) (next : cons_e) (s : sp) (u : U) (c : Z) : sres :=
  if c =? want then Done (s_goto s next, u, None) else bad s u.

Definition to_cdata (s : sp) : sp := s_settext (s_goto s C_CDATA) [].

Definition spec_ascii (s : sp) (u : U) (c : Z) : sres :=
  match s_ctx s with
  | C_CDATA =>
      if c =? 38 then deliver_text s u (λ u, Done (s_setent (s_goto (s_settext s []) C_ENTITY) [], u, None))
      else if c =? 60 then deliver_text s u (λ u, Done (s_goto (s_settext s []) C_TAG_START, u, None))
      else Done (collect s c, u, None)
  | C_TAG_START =>
      if c =? 47 then Done (s_setname (s_settype (s_goto s C_TAG) IKS_CLOSE) [], u, None)
      else if c =? 63 then Done (s_goto s C_PI, u, None)
      else if c =? 33 then Done (s_goto s C_MARKUP, u, None)
      else Done (s_setname (s_settype (s_goto s C_TAG) IKS_OPEN) [c], u, None)
  | C_TAG =>
      if is_whitespace c then
        Done (s_wait s (if decide (s_type s = IKS_CLOSE) then C_TAG_END else C_ATTRIBUTE), u, None)
      else if c =? 47 then
        if decide (s_type s = IKS_CLOSE) then bad s u
        else Done (s_goto (s_settype s IKS_SINGLE) C_TAG_END, u, None)
      else if c =? 62 then finish_tag s u
      else Done (collect s c, u, None)
  | C_TAG_END => at_tag_end s u c
  | C_ATTRIBUTE => at_attribute s u c
  | C_ATTRIBUTE_1 => if c =? 61 then Done (s_goto s C_VALUE, u, None) else Done (collect s c, u, None)
  | C_ATTRIBUTE_2 => at_attribute_2 s u c
  | C_VALUE =>
      if c =? 39 then Done (s_goto (s_setattr s (s_an s) []) C_VALUE_APOS, u, None)
      else if c =? 34 then Done (s_goto (s_setattr s (s_an s) []) C_VALUE_QUOT, u, None)
      else bad s u
  | C_VALUE_APOS => at_value_in 39 s u c
  | C_VALUE_QUOT => at_value_in 34 s u c
  | C_WHITESPACE =>
      if is_whitespace c then Done (s, u, None)
      else match s_octx s with
           | C_TAG_END => at_tag_end s u c
           | C_ATTRIBUTE => at_attribute s u c
           | _ => at_attribute_2 s u c
           end
  | C_ENTITY =>
      if c =? 59 then deliver s u [entity_char (s_ent s)] (λ u, Done (to_cdata s, u, None))
      else if 7 <? strlen (s_ent s) + 1 then bad s u
      else Done (s_setent s (s_ent s ++ [c]), u, None)
  | C_COMMENT => at_expect 45 C_COMMENT_1 s u c
  | C_COMMENT_1 => Done (if c =? 45 then s_goto s C_COMMENT_2 else s, u, None)
  | C_COMMENT_2 => Done (s_goto s (if c =? 45 then C_COMMENT_3 else C_COMMENT_1), u, None)
  | C_COMMENT_3 => if c =? 62 then Done (to_cdata s, u, None) else bad s u
  | C_MARKUP =>
      if c =? 91 then Done (s_goto s C_SECT, u, None)
      else if c =? 45 then Done (s_goto s C_COMMENT, u, None)
      else Done (if c =? 62 then to_cdata s else s_goto s C_MARKUP_1, u, None)
  | C_MARKUP_1 => Done (if c =? 62 then to_cdata s else s, u, None)
  | C_SECT => at_expect 67 C_SECT_CDATA s u c
  | C_SECT_CDATA => at_expect 68 C_SECT_CDATA_1 s u c
  | C_SECT_CDATA_1 => at_expect 65 C_SECT_CDATA_2 s u c
  | C_SECT_CDATA_2 => at_expect 84 C_SECT_CDATA_3 s u c
  | C_SECT_CDATA_3 => at_expect 65 C_SECT_CDATA_4 s u c
  | C_SECT_CDATA_4 => if c =? 91 then Done (s_settext (s_goto s C_SECT_CDATA_C) [], u, None) else bad s u
  | C_SECT_CDATA_C =>
      if c =? 93 then deliver_text s u (λ u, Done (s_goto (s_settext s []) C_SECT_CDATA_E, u, None))
      else Done (collect s c, u, None)
  | C_SECT_CDATA_E =>
      if c =? 93 then Done (s_goto s C_SECT_CDATA_E2, u, None)
      else deliver s u [93] (λ u, Done (s_settext (s_goto s C_SECT_CDATA_C) [c], u, None))
  | C_SECT_CDATA_E2 =>
      if c =? 62 then Done (to_cdata s, u, None)
      else deliver s u [93; 93] (λ u, Done (s_settext (s_goto s C_SECT_CDATA_C) [c], u, None))
  | C_PI => Done (if c =? 62 then to_cdata s else s, u, None)
  end.

(** A byte: null and the bytes that UTF-8 never uses are refused, the bytes of
    a longer character are collected, the others drive the machine. *)
Definition spec_byte (s : sp) (u : U) (c : Z) : sres :=
  if (c =? 0) || (c =? 0xFE) || (c =? 0xFF) then bad s u
  else if negb (s_umax s =? 0) then
    if negb (Z.land c 0xC0 =? 0x80) then bad s u
    else
      let n := s_ulen s + 1 in
      Done (collect (s_setuni s (if n =? s_umax s then 0 else s_umax s) n) c, u, None)
  else if negb (Z.land c 0x80 =? 0) then
    match lead_byte c with
    | None => bad s u
    | Some (max, mask) =>
        if Z.land c mask =? 0 then bad s u else Done (collect (s_setuni s max 1) c, u, None)
    end
  else spec_ascii s u c.

Fixpoint spec_loop (s : sp) (u : U) (buf : list Z) : sres :=
  match buf with
  | [] => Done (s, u, None)
  | c :: buf' =>
      '(s, u, e) ← spec_byte s u c;
      match e with Some _ => Done (s, u, e) | None => spec_loop s u buf' end
  end.

(** A buffer: its bytes, and at the end the delivery of the text so far. *)
Definition spec_core (s : sp) (u : U) (buf : list Z) : exec (ikserror * sp * U) :=
  '(s, u, e) ← spec_loop s u buf;
  match e with
  | Some err => Done (err, s, u)
  | None =>
      if bool_decide (s_ctx s = C_CDATA ∨ s_ctx s = C_SECT_CDATA_C) then
        match cdataHook, s_text s with
        | Some f, _ :: _ => '(err, u) ← f u (s_text s); Done (err, s_settext s [], u)
        | _, _ => Done (IKS_OK, s_settext s [], u)
        end
      else Done (IKS_OK, s, u)
  end.

(** A buffer may end inside a character of several bytes, but not when the
    character belongs to a name or to a value: the code would lose the rest of
    it. *)
Definition clean_cut (s : sp) : bool := negb (collecting (s_ctx s)) || (s_umax s =? 0).

(** A document that arrives in several buffers; the first error ends it. *)
Fixpoint spec_chunks (s : sp) (u : U) (bufs : list (list Z)) : exec (ikserror * sp * U) :=
  match bufs with
  | [] => Done (IKS_OK, s, u)
  | b :: bufs' =>
      '(err, s, u) ← spec_core s u b;
      if decide (err = IKS_OK) then if clean_cut s then spec_chunks s u bufs' else Fault
      else Done (err, s, u)
  end.
End spec.
