(* ===== verification/SaxRefine.v ===== *)
(** * The SAX parser refines its specification

    The simulation between [sax_core] ([Sax]) and the byte machine ([SaxSpec]):
    the relation between the parser's stack, offsets and array and the lists of
    the machine, its preservation by every context, and the theorems. *)

From S2P Require Import Prelude Sax SaxSpec.

Local Open Scope Z_scope.

(** ** Strings on the stack *)

Definition string_at (st : list Z) (off : Z) (t : list Z) : Prop :=
  ∃ pre post, st = pre ++ t ++ 0 :: post ∧ strlen pre = off ∧ is_cstr t.

Lemma string_at_app st off t x : string_at st off t → string_at (st ++ x) off t.
Proof.
  intros (pre & post & -> & ? & ?). exists pre, (post ++ x). split; [|done].
  by rewrite <-!app_assoc.
Qed.

Lemma string_at_push st t off x : is_cstr t → strlen st = off → string_at (st ++ (t ++ [0]) ++ x) off t.
Proof. intros. exists st, x. split; [|done]. by rewrite <-!app_assoc. Qed.

Lemma string_at_c_str st off t : string_at st off t → c_str (drop (Z.to_nat off) st) = t.
Proof.
  intros (pre & post & -> & <- & ?). unfold strlen. rewrite Nat2Z.id, drop_app_length.
  by apply c_str_terminated.
Qed.

(** The attribute pointers of the pairs [l]. *)
Fixpoint atts_at (st : list Z) (a : list (option Z)) (l : list (list Z * list Z)) {struct l} : Prop :=
  match l with
  | [] => True
  | (n, v) :: l' =>
      match a with
      | Some o1 :: Some o2 :: a' => string_at st o1 n ∧ string_at st o2 v ∧ atts_at st a' l'
      | _ => False
      end
  end.

Lemma atts_at_app st x : ∀ l a, atts_at st a l → atts_at (st ++ x) a l.
Proof.
  induction l as [|[n v] l IH]; intros a; cbn; [done|].
  destruct a as [|[o1|] [|[o2|] a]]; try done. intros (? & ? & ?). split_and!; auto using string_at_app.
Qed.

Lemma atts_at_insert st x : ∀ l a i, (2 * length l <= i)%nat → atts_at st a l → atts_at st (<[i := x]> a) l.
Proof.
  induction l as [|[n v] l IH]; intros a i Hi; cbn; [done|].
  destruct a as [|[o1|] [|[o2|] a]]; try done. intros (? & ? & ?).
  destruct i as [|[|i]]; cbn in Hi; try lia. cbn. split_and!; [done..|]. apply IH; [lia|done].
Qed.

Lemma atts_at_take st x : ∀ l a n, (2 * length l <= n)%nat → atts_at st a l → atts_at st (take n a ++ x) l.
Proof.
  induction l as [|[k v] l IH]; intros a n Hn; cbn; [done|].
  destruct a as [|[o1|] [|[o2|] a]]; try done. intros (? & ? & ?).
  destruct n as [|[|n]]; cbn in Hn; try lia. cbn. split_and!; [done..|]. apply IH; [lia|done].
Qed.

Lemma atts_at_snoc st n v o1 o2 : ∀ l a,
  atts_at st a l → a !! (2 * length l)%nat = Some (Some o1) → a !! (2 * length l + 1)%nat = Some (Some o2) →
  string_at st o1 n → string_at st o2 v → atts_at st a (l ++ [(n, v)]).
Proof.
  induction l as [|[k w] l IH]; intros a Ha E1 E2 H1 H2.
  - destruct a as [|x [|y a]]; cbn in *; simplify_eq. done.
  - cbn in Ha. destruct a as [|[p|] [|[q|] a]]; try done. destruct Ha as (? & ? & Ha). cbn.
    split_and!; [done..|]. apply IH; try done.
    + rewrite <-E1. cbn [length]. replace (2 * S (length l))%nat with (S (S (2 * length l))) by lia. done.
    + rewrite <-E2. cbn [length]. replace (2 * S (length l) + 1)%nat with (S (S (2 * length l + 1))) by lia. done.
Qed.

Lemma read_atts_spec p : ∀ l a,
  atts_at (stack p) a l → a !! (2 * length l)%nat = Some None → read_atts p a = Done l.
Proof.
  induction l as [|[k w] l IH]; intros a Ha E.
  - destruct a as [|x a]; cbn in E; simplify_eq. done.
  - cbn in Ha. destruct a as [|[o|] [|[q|] a]]; try done. destruct Ha as (H1 & H2 & Ha).
    cbn [read_atts]. rewrite (IH a); [|done|].
    + cbn. unfold stack_str. by rewrite (string_at_c_str _ _ _ H1), (string_at_c_str _ _ _ H2).
    + rewrite <-E. cbn [length]. replace (2 * S (length l))%nat with (S (S (2 * length l))) by lia. done.
Qed.

(** ** Pushing *)

(** The stack has a block, and memory does not run out. *)
Definition stack_fine (p : iksparser) : Prop :=
  mem p = [] ∧ 128 <= stack_max p ∧ stack_pos p <= stack_max p.

Lemma expand_room p len :
  stack_fine p → stack_max p - stack_pos p <= len → 0 < len →
  ∃ m, stack_expand p len = (true, set_stack_max p m) ∧ 128 <= m ∧ stack_pos p + len <= m.
Proof.
  intros (Hm & Hx & Hp) Hle Hl. unfold stack_expand, iks_malloc. rewrite Hm.
  assert (0 <= stack_pos p) by (unfold stack_pos, strlen; lia).
  eexists. split; [reflexivity|].
  destruct (Z.ltb_spec (len - (stack_max p - stack_pos p)) (stack_max p)); [lia|].
  assert (len - (stack_max p - stack_pos p) <= (len - (stack_max p - stack_pos p)) * 6 / 5) by zdm. lia.
Qed.

Lemma write_done p b :
  stack_pos p + strlen b <= stack_max p → stack_write p b = Done (set_stack p (stack p ++ b)).
Proof. intros. unfold stack_write. by rewrite (proj2 (Z.leb_le _ _)). Qed.

Lemma STACK_PUSH_done p b :
  stack_fine p → ∃ m, STACK_PUSH p b = Done (true, set_stack_max (set_stack p (stack p ++ b)) m) ∧
    128 <= m ∧ strlen (stack p ++ b) <= m.
Proof.
  intros Hf. assert (Hf' := Hf). destruct Hf' as (Hm & Hx & Hp). unfold STACK_PUSH.
  destruct (Z.leb_spec (stack_max p - stack_pos p) (strlen b)) as [Hle|Hgt].
  - destruct (decide (strlen b = 0)) as [E0|Hne].
    + assert (stack_pos p = stack_max p) by (unfold stack_pos, strlen in *; lia).
      unfold stack_expand, iks_malloc. rewrite Hm.
      destruct (Z.ltb_spec (strlen b - (stack_max p - stack_pos p)) (stack_max p)); [|lia].
      exists (stack_max p * 2). split; [|rewrite strlen_app; unfold stack_pos in *; lia].
      rewrite write_done by (unfold stack_pos, set_stack_max in *; cbn in *; lia). reflexivity.
    + destruct (expand_room p (strlen b) Hf Hle) as (m & -> & H1 & H2); [unfold strlen in *; lia|].
      exists m. split; [|rewrite strlen_app; unfold stack_pos in *; lia].
      rewrite write_done by (unfold stack_pos, set_stack_max in *; cbn in *; lia). reflexivity.
  - exists (stack_max p). split; [|rewrite strlen_app; unfold stack_pos in *; lia].
    rewrite write_done by lia. by destruct p.
Qed.

Lemma STACK_PUSH_END_done p :
  stack_fine p → ∃ m, STACK_PUSH_END p = Done (true, set_stack_max (set_stack p (stack p ++ [0])) m) ∧
    128 <= m ∧ strlen (stack p ++ [0]) <= m.
Proof.
  intros Hf. assert (Hf' := Hf). destruct Hf' as (Hm & Hx & Hp). unfold STACK_PUSH_END.
  destruct (Z.leb_spec (stack_max p) (stack_pos p)) as [Hle|Hgt].
  - destruct (expand_room p 1 Hf) as (m & -> & H1 & H2); [lia..|].
    exists m. split; [|rewrite strlen_app; unfold stack_pos in *; change (strlen [0]) with 1; lia].
    rewrite write_done; [reflexivity|]. unfold stack_pos, set_stack_max in *. cbn in *. change (strlen [0]) with 1. lia.
  - exists (stack_max p). split; [|rewrite strlen_app; unfold stack_pos in *; change (strlen [0]) with 1; lia].
    rewrite write_done by (change (strlen [0]) with 1; lia). by destruct p.
Qed.

(** ** Stretches of the buffer *)

Definition sub (buf : list Z) (a b : Z) : list Z := take (Z.to_nat (b - a)) (drop (Z.to_nat a) buf).

Lemma between_done buf a b :
  0 <= a <= b → b <= strlen buf → bytes_between buf a b = Done (sub buf a b).
Proof. intros. unfold bytes_between, sub. apply mread_done; lia. Qed.

Lemma sub_nil buf a : sub buf a a = [].
Proof. unfold sub. by rewrite Z.sub_diag. Qed.

Lemma sub_snoc buf a p c :
  0 <= a <= p → buf !! Z.to_nat p = Some c → sub buf a (p + 1) = sub buf a p ++ [c].
Proof.
  intros Ha Hc. unfold sub. replace (Z.to_nat (p + 1 - a)) with (S (Z.to_nat (p - a))) by lia.
  apply take_S_r. rewrite lookup_drop, <-Hc. f_equal. lia.
Qed.

Lemma sub_length buf a b : 0 <= a <= b → b <= strlen buf → strlen (sub buf a b) = b - a.
Proof. intros. unfold sub, strlen in *. rewrite length_take, length_drop. lia. Qed.

Section refine.
Context {U : Type} `{SaxClient U}.
Implicit Types (l : loc (U := U)) (s : sp) (buf : list Z).

(** What waits in the buffer to be pushed. *)
Definition pend buf l : list Z := if stack_old l =? -1 then [] else sub buf (stack_old l) (pos l).

Definition bounds buf l : Prop :=
  0 <= pos l <= strlen buf ∧ 0 <= old l <= pos l ∧ (stack_old l = -1 ∨ 0 <= stack_old l <= pos l).

Lemma push_string_done buf l k :
  stack_fine (prs l) → bounds buf l →
  ∃ m, push_string buf l k
       = k (mk_loc (set_stack_max (set_stack (prs l) (stack (prs l) ++ pend buf l ++ [0])) m)
              (user l) (pos l) (old l) (-1)) ∧
    128 <= m ∧ strlen (stack (prs l) ++ pend buf l ++ [0]) <= m.
Proof.
  intros Hf (Hp & Ho & Hs). unfold push_string, pend.
  destruct (Z.eqb_spec (stack_old l) (-1)) as [E|E].
  - destruct (STACK_PUSH_END_done (prs l) Hf) as (m & Hm & H1 & H2). exists m. cbn. rewrite Hm. done.
  - rewrite between_done by lia. cbn.
    destruct (STACK_PUSH_done (prs l) (sub buf (stack_old l) (pos l)) Hf) as (m1 & -> & H1 & H2). cbn.
    destruct (STACK_PUSH_END_done (set_stack_max (set_stack (prs l)
      (stack (prs l) ++ sub buf (stack_old l) (pos l))) m1)) as (m & Hm & H3 & H4).
    { split; [apply Hf|]. split; [done|]. exact H2. }
    exists m. rewrite Hm. cbn in *. rewrite <-app_assoc in *. done.
Qed.

(** ** The relation *)

Definition arr_ok (p : iksparser) : Prop :=
  match atts p with
  | None => attmax p = 0
  | Some a => Z.of_nat (length a) = 2 * attmax p ∧ 0 < attmax p ∧ (12 | attmax p)
  end.

(** No tag is being read. *)
Definition idle l s : Prop :=
  stack (prs l) = [] ∧ stack_old l = -1 ∧ attcur (prs l) = 0 ∧ s_atts s = [].

(** The name of the tag and the attributes so far are on the stack. *)
Definition named l s : Prop :=
  stack_fine (prs l) ∧ tag_name (prs l) = 0 ∧ string_at (stack (prs l)) 0 (s_name s) ∧
  attcur (prs l) = 2 * Z.of_nat (length (s_atts s)) ∧
  match atts (prs l) with
  | None => s_atts s = []
  | Some a => attcur (prs l) <= 2 * attmax (prs l) ∧ atts_at (stack (prs l)) a (s_atts s)
  end.

(** The array ends the attributes with a null pointer. *)
Definition terminated l s : Prop :=
  s_atts s = [] ∨ ∃ a, atts (prs l) = Some a ∧ a !! (2 * length (s_atts s))%nat = Some None.

(** The attribute that is being read starts at [off]. *)
Definition open_attr l s (off : Z) : Prop :=
  ∃ a, atts (prs l) = Some a ∧ a !! (2 * length (s_atts s))%nat = Some (Some off) ∧
    (2 * length (s_atts s) + 1 < length a)%nat.

Definition open_value l s (off : Z) : Prop :=
  ∃ a, atts (prs l) = Some a ∧ a !! (2 * length (s_atts s) + 1)%nat = Some (Some off).

(** The bytes from [off] on, pushed or waiting, are [t]. *)
Definition collected buf l (off : Z) (t : list Z) : Prop :=
  0 <= off <= stack_pos (prs l) ∧ drop (Z.to_nat off) (stack (prs l)) ++ pend buf l = t ∧ is_cstr t ∧
  (uni_max (prs l) ≠ 0 → stack_old l ≠ -1).

Definition ctx_rel buf l s : Prop :=
  match s_ctx s with
  | C_CDATA | C_SECT_CDATA_C => idle l s ∧ sub buf (old l) (pos l) = s_text s
  | C_TAG_START => idle l s ∧ stack_fine (prs l) ∧ tag_name (prs l) = 0
  | C_TAG => stack_fine (prs l) ∧ tag_name (prs l) = 0 ∧ attcur (prs l) = 0 ∧ s_atts s = [] ∧
      collected buf l 0 (s_name s)
  | C_TAG_END => named l s ∧ terminated l s
  | C_ATTRIBUTE | C_ATTRIBUTE_2 => False
  | C_ATTRIBUTE_1 => named l s ∧ ∃ off, open_attr l s off ∧ collected buf l off (s_an s)
  | C_VALUE => named l s ∧ stack_old l = -1 ∧ ∃ off, open_attr l s off ∧ string_at (stack (prs l)) off (s_an s)
  | C_VALUE_APOS | C_VALUE_QUOT => named l s ∧
      ∃ off off2, open_attr l s off ∧ open_value l s off2 ∧
        string_at (stack (prs l)) off (s_an s) ∧ collected buf l off2 (s_av s)
  | C_WHITESPACE => named l s ∧ oldcontext (prs l) = s_octx s ∧
      match s_octx s with
      | C_TAG_END | C_ATTRIBUTE => s_atts s = []
      | C_ATTRIBUTE_2 => s_atts s ≠ []
      | _ => False
      end
  | C_ENTITY => idle l s ∧ entpos (prs l) = strlen (s_ent s) ∧ strlen (s_ent s) <= 7 ∧
      take (length (s_ent s)) (entity (prs l)) = s_ent s ∧ is_cstr (s_ent s)
  | _ => idle l s
  end.

(** What does not depend on the context. *)
Record base buf l s : Prop := {
  b_type : tagtype (prs l) = s_type s;
  b_umax : uni_max (prs l) = s_umax s;
  b_ulen : uni_len (prs l) = s_ulen s;
  b_mem : mem (prs l) = [];
  b_max : stack_max (prs l) = 0 ∨ 128 <= stack_max (prs l);
  b_arr : arr_ok (prs l);
  b_ent : length (entity (prs l)) = 8%nat;
  b_bounds : bounds buf l }.

Definition rel buf l s : Prop := context (prs l) = s_ctx s ∧ base buf l s ∧ ctx_rel buf l s.

(** The parser runs as the machine does: same error, same client, and related
    states when the run goes on. *)
Definition sim (n : nat) buf l (c : Z) (r : sres (U := U)) : Prop :=
  match r with
  | Fault => True
  | Done (s', u', e) => ∃ l', sax_byte n buf l c = Done (l', e) ∧ user l' = u' ∧
      (e = None → rel buf l' s' ∧ pos l' = pos l + 1)
  end.

Definition bump l (c : Z) : loc (U := U) :=
  mk_loc (set_counts (prs l) (nr_bytes (prs l) + 1) (if c =? 10 then nr_lines (prs l) + 1 else nr_lines (prs l)))
    (user l) (pos l + 1) (old l) (stack_old l).

Lemma sim_next n buf l c l1 s' :
  sax_turn buf l c = Done (l1, Next) → pos l1 = pos l → rel buf (bump l1 c) s' →
  sim (S n) buf l c (Done (s', user l1, None)).
Proof. intros E Hp Hr. exists (bump l1 c). cbn [sax_byte]. rewrite E. split; [done|]. cbn. by rewrite Hp. Qed.

Lemma sim_ret n buf l c l1 s' e :
  sax_turn buf l c = Done (l1, Ret e) → sim (S n) buf l c (Done (s', user l1, Some e)).
Proof. intros E. exists l1. cbn [sax_byte]. rewrite E. by split_and!. Qed.

Lemma sim_again n buf l c l1 r :
  sax_turn buf l c = Done (l1, Again) → pos l1 = pos l → sim n buf l1 c r → sim (S n) buf l c r.
Proof.
  intros E Hp. unfold sim. destruct r as [[[s' u'] e]|]; [|done]. cbn [sax_byte]. rewrite E. cbn. by rewrite Hp.
Qed.

(** A byte in hand: it is the one at [pos]. *)
Definition at_byte buf l (c : Z) : Prop := buf !! Z.to_nat (pos l) = Some c ∧ 0 <= pos l ∧ is_cchar c.

Lemma at_byte_bound buf l c : at_byte buf l c → pos l < strlen buf.
Proof. intros (Hc & ? & _). apply lookup_lt_Some in Hc. unfold strlen. lia. Qed.

Lemma base_bump buf l c s :
  base buf l s → at_byte buf l c → base buf (bump l c) s.
Proof.
  intros [? ? ? ? ? ? ? (? & ? & ?)] Hb. apply at_byte_bound in Hb.
  split; try done. unfold bounds. cbn. lia.
Qed.

Lemma base_old buf l c s n :
  base buf l s → at_byte buf l c → 0 <= n <= pos l + 1 → base buf (bump (set_old l n) c) s.
Proof.
  intros [? ? ? ? ? ? ? (? & ? & ?)] Hb Hn. apply at_byte_bound in Hb.
  split; try done. unfold bounds. cbn. lia.
Qed.

Lemma turn_ascii buf l c :
  uni_max (prs l) = 0 → (c =? 0) || (c =? 0xFE) || (c =? 0xFF) = false → Z.land c 0x80 = 0 →
  sax_turn buf l c = sax_switch buf l c.
Proof. intros Hu H0 Ha. unfold sax_turn, sax_unicode. cbv zeta. by rewrite H0, Hu, Ha. Qed.

Lemma pend_bump buf l c :
  at_byte buf l c → 0 <= stack_old l <= pos l → pend buf (bump l c) = pend buf l ++ [c].
Proof.
  intros (Hc & _) Hs. unfold pend. cbn. destruct (Z.eqb_spec (stack_old l) (-1)); [lia|].
  by apply sub_snoc.
Qed.

(** A byte joins what is being collected. *)
Lemma collect_byte buf l c off t :
  at_byte buf l c → bounds buf l → collected buf l off t →
  collected buf (bump (if stack_old l =? -1 then set_stack_old l (pos l) else l) c) off (t ++ [c]).
Proof.
  intros Hb (Hp & _ & Hs) (H1 & H2 & H3 & H4). destruct (Z.eqb_spec (stack_old l) (-1)) as [E|E].
  - split; [done|]. split_and!; [|apply Forall_app; split; [done|]; constructor; [apply Hb|done]|cbn; lia].
    rewrite pend_bump by (cbn; done || lia). unfold pend in *. cbn. rewrite E in H2. cbn in H2.
    destruct (Z.eqb_spec (pos l) (-1)); [lia|]. rewrite sub_nil, <-H2, app_nil_r. done.
  - split; [done|]. split_and!; [|apply Forall_app; split; [done|]; constructor; [apply Hb|done]|done].
    rewrite pend_bump by (done || lia). by rewrite app_assoc, <-H2.
Qed.

(** A byte the context has no use for. *)
Lemma named_bump l s c : named (bump l c) s ↔ named l s.
Proof. done. Qed.

Lemma flush_spec buf l k :
  bounds buf l →
  flush_cdata buf l k = match sub buf (old l) (pos l) with [] => k l | b => call_cdata l b k end.
Proof.
  intros (Hp & Ho & _). unfold flush_cdata.
  pose proof (sub_length buf (old l) (pos l) ltac:(lia) ltac:(lia)) as Hl.
  destruct (Z.ltb_spec (old l) (pos l)).
  - rewrite between_done by lia. destruct (sub buf (old l) (pos l)); [change (strlen []) with 0 in Hl; lia|]. done.
  - destruct (sub buf (old l) (pos l)); [done|]. unfold strlen in Hl. cbn in Hl. lia.
Qed.

Lemma rel_user buf l s u : rel buf l s → rel buf (set_user l u) s.
Proof. intros (? & [] & ?). split; [done|]. by split. Qed.

(** Character data goes to the client, from a state [l0] that the turn has
    already changed; then the state changes by [f]. *)
Lemma sim_deliver n buf l l0 c b (f : loc → loc) s s' :
  sax_turn buf l c = call_cdata l0 b (λ l, Done (f l, Next)) → user l0 = user l →
  (∀ u, user (f (set_user l0 u)) = u ∧ pos (f (set_user l0 u)) = pos l ∧ rel buf (bump (f (set_user l0 u)) c) s') →
  sim (S n) buf l c (deliver s (user l) b (λ u, Done (s', u, None))).
Proof.
  intros E Hu0 Hf. unfold deliver, call_cdata in *. rewrite Hu0 in E. destruct cdataHook as [g|].
  - destruct (g (user l) b) as [[err u]|]; [|done]. cbn in *.
    destruct (decide (err = IKS_OK)).
    + destruct (Hf u) as (Hu & Hp & Hr). rewrite <-Hu. by apply sim_next.
    + exact (sim_ret n buf l c (set_user l0 u) s err E).
  - destruct (Hf (user l)) as (Hu & Hp & Hr). rewrite <-Hu. apply sim_next; [|done..].
    rewrite E, <-Hu0. by destruct l0.
Qed.

Lemma sim_deliver_text n buf l l0 c (f : loc → loc) s s' :
  bounds buf l0 → sub buf (old l0) (pos l0) = s_text s →
  sax_turn buf l c = flush_cdata buf l0 (λ l, Done (f l, Next)) → user l0 = user l →
  (∀ u, user (f (set_user l0 u)) = u ∧ pos (f (set_user l0 u)) = pos l ∧ rel buf (bump (f (set_user l0 u)) c) s') →
  sim (S n) buf l c (deliver_text s (user l) (λ u, Done (s', u, None))).
Proof.
  intros Hb Ht E Hu0 Hf. unfold deliver_text. rewrite flush_spec, Ht in E by done.
  destruct (s_text s); [|by eapply sim_deliver].
  destruct (Hf (user l)) as (Hu & Hp & Hr). rewrite <-Hu. apply sim_next; [|done..]. rewrite E, <-Hu0. by destruct l0.
Qed.

(** ** Tags *)

Lemma hook_atts_spec l s : named l s → terminated l s → hook_atts (prs l) = Done (s_atts s).
Proof.
  intros (_ & _ & _ & Hc & Ha) Ht. unfold hook_atts. rewrite Hc.
  destruct (Z.eqb_spec (2 * Z.of_nat (length (s_atts s))) 0) as [E|E].
  - destruct (s_atts s); [done|]. cbn in E. lia.
  - destruct Ht as [E0|(a & Ea & Hn)]; [by rewrite E0 in E|]. rewrite Ea in *. destruct Ha. by apply read_atts_spec.
Qed.

Lemma sim_finish n buf l s :
  context (prs l) = C_TAG_END → base buf l s → s_umax s = 0 → named l s → terminated l s →
  at_byte buf l 62 → sim (S n) buf l 62 (finish_tag s (user l)).
Proof.
  intros Hctx Hb Hu Hn Ht Hc. assert (Hb' := Hb). destruct Hb' as [E1 E2 E3 E4 E5 E6 E7 (E8 & E9 & E10)].
  assert (Hlt := at_byte_bound _ _ _ Hc).
  assert (E : sax_turn buf l 62 = case_tag_end l 62).
  { rewrite turn_ascii by (by rewrite ?E2, ?Hu). unfold sax_switch. by rewrite Hctx. }
  unfold case_tag_end in E. cbn [negb Z.eqb] in E. change (negb (62 =? 62)) with false in E. cbv iota zeta in E.
  assert (Hstr : stack_str (prs l) (tag_name (prs l)) = s_name s).
  { destruct Hn as (_ & -> & Hs & _). unfold stack_str. by apply string_at_c_str. }
  assert (Hleave : ∀ u, rel buf (bump (mk_loc (set_context (set_atts (set_stack (prs l) [])
      (attmax (prs l)) 0 false (atts (prs l))) C_CDATA) u (pos l) (pos l + 1) (-1)) 62)
    (s_settext (s_setatts (s_goto s C_CDATA) []) [])).
  { intros u. split; [done|]. split; [split; try done; unfold bounds; cbn; lia|].
    split; [done|]. cbn. apply sub_nil. }
  unfold finish_tag. destruct tagHook as [g|].
  - rewrite (hook_atts_spec l s Hn Ht), Hstr, E1 in E.
    destruct (g (user l) (s_name s) (s_atts s) (s_type s)) as [[err u]|] eqn:Eg; [|done].
    cbn in E. rewrite Eg in E. cbn in E |- *. destruct (decide (err = IKS_OK)).
    + exact (sim_next n buf l 62 _ _ E eq_refl (Hleave u)).
    + exact (sim_ret n buf l 62 _ s err E).
  - exact (sim_next n buf l 62 _ _ E eq_refl (Hleave (user l))).
Qed.

(** Pushing keeps what is on the stack. *)
Lemma named_push l s x m f :
  named l s → 128 <= m → strlen (stack (prs l) ++ x) <= m →
  named (mk_loc (set_stack_max (set_stack (prs l) (stack (prs l) ++ x)) m) (user l) (pos l) (old l) f) s.
Proof.
  intros ((Hm & Hx & Hp) & Ht & Hs & Hc & Ha) H1 H2.
  split; [by split_and!|]. split_and!; [done|by apply string_at_app|done|]. cbn.
  destruct (atts (prs l)); [|done]. destruct Ha. auto using atts_at_app.
Qed.

(** The name of the tag is complete. *)
Lemma push_name buf l s k :
  stack_fine (prs l) → tag_name (prs l) = 0 → attcur (prs l) = 0 → s_atts s = [] → bounds buf l →
  arr_ok (prs l) → collected buf l 0 (s_name s) →
  ∃ p, push_string buf l k = k (mk_loc p (user l) (pos l) (old l) (-1)) ∧
    named (mk_loc p (user l) (pos l) (old l) (-1)) s ∧
    (∃ st m, p = set_stack_max (set_stack (prs l) st) m ∧ 128 <= m).
Proof.
  intros Hf Ht Hc Ha Hb Harr (_ & Hcol & Hs & _).
  destruct (push_string_done buf l k Hf Hb) as (m & -> & H1 & H2). eexists. split; [reflexivity|].
  split; [|by eexists _, _]. rewrite drop_0 in Hcol. rewrite app_assoc, Hcol in *.
  split; [split; [apply Hf|done]|]. split_and!; [done| | |].
  - cbn. exists [], []. by rewrite app_assoc.
  - cbn. by rewrite Ha.
  - cbn. rewrite Ha, Hc. unfold arr_ok in Harr. destruct (atts (prs l)); [|done]. cbn. split; [|done]. lia.
Qed.

(** ** Attributes *)

Lemma ensure_atts_spec l s :
  named l s → arr_ok (prs l) → mem (prs l) = [] →
  ∃ m a, ensure_atts (prs l) = (true, set_atts (prs l) m (attcur (prs l)) (attflag (prs l)) (Some a)) ∧
    Z.of_nat (length a) = 2 * m ∧ 0 < m ∧ (12 | m) ∧ attcur (prs l) + 2 <= 2 * m ∧
    atts_at (stack (prs l)) a (s_atts s).
Proof.
  intros (_ & _ & _ & Hc & Ha) Harr Hm. unfold ensure_atts, arr_ok, iks_malloc in *.
  destruct (atts (prs l)) as [a|] eqn:Ea.
  - destruct Harr as (Hl & H0 & Hd). destruct Ha as [Hle Ha].
    destruct (Z.leb_spec (attmax (prs l) * 2) (attcur (prs l))) as [Hfull|Hroom].
    + cbn [mem set_atts]. rewrite Hm. eexists (attmax (prs l) + 12), _. split; [reflexivity|].
      cbn [attcur set_atts]. split_and!; [|lia| |lia|apply atts_at_take; [lia|done]].
      * rewrite length_app, length_take, length_replicate. lia.
      * apply Z.divide_add_r; [done|]. by exists 1.
    + exists (attmax (prs l)), a. split; [|by split_and!; [..|lia|]]. f_equal. by destruct (prs l); cbn in *; subst.
  - cbn [mem set_atts]. rewrite Hm. rewrite Ha in Hc. cbn in Hc. rewrite Ha. exists 12, (replicate 24 None).
    split; [cbn; by rewrite Hc|]. split_and!; [done|done|by exists 1|lia|done].
Qed.

Lemma att_store_done p a i v :
  atts p = Some a → 0 <= i < Z.of_nat (length a) →
  att_store p i v = Done (set_atts p (attmax p) (attcur p) (attflag p) (Some (<[Z.to_nat i := v]> a))).
Proof.
  intros Ea Hi. unfold att_store. rewrite Ea.
  by rewrite (proj2 (Z.leb_le _ _)), (proj2 (Z.ltb_lt _ _)) by lia.
Qed.

Definition ascii (c : Z) : Prop :=
  (c =? 0) || (c =? 0xFE) || (c =? 0xFF) = false ∧ Z.land c 0x80 = 0.

Lemma switch_turn buf l s c :
  base buf l s → s_umax s = 0 → ascii c → sax_turn buf l c = sax_switch buf l c.
Proof. intros Hb Hu [H1 H2]. apply turn_ascii; [|done..]. by rewrite (b_umax _ _ _ Hb). Qed.

Lemma sim_start_attribute n buf l s c :
  context (prs l) = C_ATTRIBUTE → base buf l s → s_umax s = 0 → named l s → ascii c →
  c ≠ 47 → c ≠ 62 → at_byte buf l c → sim (S n) buf l c (start_attribute s (user l) c).
Proof.
  intros Hctx Hb Hu Hn Ha Hc1 Hc2 Hc.
  assert (E : sax_turn buf l c = case_attribute l c).
  { rewrite (switch_turn _ _ _ _ Hb Hu Ha). unfold sax_switch. by rewrite Hctx. }
  destruct (ensure_atts_spec l s Hn (b_arr _ _ _ Hb) (b_mem _ _ _ Hb)) as (m & a & Ee & Hl & Hm & Hd & Hroom & Hat).
  assert (Hn' := Hn). destruct Hn' as (Hf & Ht & Hs & Hcur & _).
  assert (Hpos := at_byte_bound _ _ _ Hc). assert (Hbb := b_bounds _ _ _ Hb). destruct Hbb as (B1 & B2 & B3).
  unfold case_attribute in E. rewrite (proj2 (Z.eqb_neq _ _) Hc1), (proj2 (Z.eqb_neq _ _) Hc2), Ee in E.
  cbn [negb] in E. rewrite (att_store_done _ a) in E by (cbn; done || lia). cbn in E.
  unfold start_attribute.
  refine (sim_next n buf l c _ _ E eq_refl _). split; [done|]. split.
  - destruct Hb. split; try done; [cbn; rewrite length_insert; done|]. unfold bounds. cbn. lia.
  - unfold ctx_rel. cbn [s_ctx s_goto s_setattr].
    assert (Hi : Z.to_nat (attcur (prs l)) = (2 * length (s_atts s))%nat) by lia.
    split; [|exists (stack_pos (prs l)); split].
    + split; [done|]. split_and!; [done..|]. cbn. split; [lia|]. rewrite Hi. by apply atts_at_insert.
    + eexists. split; [reflexivity|]. cbn. rewrite Hi. rewrite list_lookup_insert_eq, length_insert by lia. split; [done|lia].
    + unfold collected, stack_pos in *. cbn. split; [unfold strlen; lia|]. split_and!; [|by repeat constructor; apply Hc|lia].
      rewrite drop_ge by (unfold strlen; lia). unfold pend. cbn.
      destruct (Z.eqb_spec (pos l) (-1)); [lia|]. by rewrite (sub_snoc _ _ _ c), sub_nil by (lia || apply Hc).
Qed.

Lemma room_for_null l s :
  named l s → arr_ok (prs l) → s_atts s ≠ [] → full_array s = false →
  ∃ a, atts (prs l) = Some a ∧ attcur (prs l) < Z.of_nat (length a) ∧ attcur (prs l) <= 2 * attmax (prs l) ∧
    atts_at (stack (prs l)) a (s_atts s).
Proof.
  intros (_ & _ & _ & Hc & Ha) Harr Hne Hf. unfold arr_ok, full_array in *.
  destruct (atts (prs l)) as [a|]; [|done]. destruct Ha as [Hle Ha], Harr as (Hl & H0 & [q Hq]).
  exists a. split_and!; [done| |done..]. apply Nat.eqb_neq in Hf.
  destruct (decide (attcur (prs l) = 2 * attmax (prs l))) as [E|]; [|lia].
  exfalso. apply Hf. assert (Z.of_nat (length (s_atts s)) = 12 * q) by lia.
  replace (length (s_atts s)) with (Z.to_nat q * 12)%nat by lia. apply Nat.Div0.mod_mul.
Qed.

Lemma set_tagtype_id p : set_tagtype p (tagtype p) = p.
Proof. by destruct p. Qed.

(** The null pointer behind the attributes. *)
Lemma store_null l s t :
  named l s → arr_ok (prs l) → s_atts s ≠ [] → full_array s = false →
  ∃ a, att_store (set_tagtype (prs l) t) (attcur (prs l)) None
       = Done (set_atts (set_tagtype (prs l) t) (attmax (prs l)) (attcur (prs l)) (attflag (prs l)) (Some a)) ∧
    Z.of_nat (length a) = 2 * attmax (prs l) ∧ atts_at (stack (prs l)) a (s_atts s) ∧
    a !! (2 * length (s_atts s))%nat = Some None.
Proof.
  intros Hn Harr Hne Hfull. destruct (room_for_null l s Hn Harr Hne Hfull) as (a & Ea & Hlt & Hle & Hat).
  destruct Hn as (_ & _ & _ & Hc & _).
  assert (Hi : Z.to_nat (attcur (prs l)) = (2 * length (s_atts s))%nat) by lia.
  eexists. split; [rewrite (att_store_done _ a) by (cbn; done || lia); reflexivity|]. rewrite Hi, length_insert. split_and!.
  - unfold arr_ok in Harr. rewrite Ea in Harr. apply Harr.
  - by apply atts_at_insert.
  - apply list_lookup_insert_eq. lia.
Qed.

Lemma sim_attribute n buf l s c :
  context (prs l) = C_ATTRIBUTE → base buf l s → s_umax s = 0 → named l s → s_atts s = [] → ascii c →
  at_byte buf l c → sim (S (S n)) buf l c (at_attribute s (user l) c).
Proof.
  intros Hctx Hb Hu Hn Hno Ha Hc. unfold at_attribute.
  assert (E : sax_turn buf l c = case_attribute l c).
  { rewrite (switch_turn _ _ _ _ Hb Hu Ha). unfold sax_switch. by rewrite Hctx. }
  unfold case_attribute in E.
  destruct (Z.eqb_spec c 47) as [->|H47].
  - refine (sim_next (S n) buf l 47 _ _ E eq_refl _). split; [done|].
    split; [destruct (base_bump _ _ _ _ Hb Hc); by split|]. split; [exact Hn|by left].
  - destruct (Z.eqb_spec c 62) as [->|H62].
    + eapply sim_again; [exact E|reflexivity|].
      apply (sim_finish n buf (goto l C_TAG_END) s); try done; [|by left]. destruct Hb; by split.
    + by apply sim_start_attribute.
Qed.

Lemma sim_attribute_2 n buf l s c :
  context (prs l) = C_ATTRIBUTE_2 → base buf l s → s_umax s = 0 → named l s → s_atts s ≠ [] → ascii c →
  at_byte buf l c → sim (S (S n)) buf l c (at_attribute_2 s (user l) c).
Proof.
  intros Hctx Hb Hu Hn Hno Ha Hc. unfold at_attribute_2.
  assert (E : sax_turn buf l c = case_attribute_2 l c).
  { rewrite (switch_turn _ _ _ _ Hb Hu Ha). unfold sax_switch. by rewrite Hctx. }
  unfold case_attribute_2 in E. assert (Harr := b_arr _ _ _ Hb).
  assert (Hn' := Hn). destruct Hn' as (N1 & N2 & N3 & N4 & N5).
  assert (N6 : attcur (prs l) <= 2 * attmax (prs l)) by (destruct (atts (prs l)); [by destruct N5|done]).
  assert (Hend : ∀ t a, Z.of_nat (length a) = 2 * attmax (prs l) → atts_at (stack (prs l)) a (s_atts s) →
    a !! (2 * length (s_atts s))%nat = Some None →
    let p := set_context (set_atts (set_tagtype (prs l) t) (attmax (prs l)) (attcur (prs l))
               (attflag (prs l)) (Some a)) C_TAG_END in
    base buf (set_prs l p) (s_settype s t) ∧ named (set_prs l p) s ∧ terminated (set_prs l p) s).
  { intros t a H1 H2 H3 p. split; [|split].
    - destruct Hb. split; try done. unfold arr_ok in *. cbn. destruct (atts (prs l)); [|done]. split; [done|]. apply b_arr0.
    - by split_and!.
    - right. by exists a. }
  destruct (Z.eqb_spec c 47) as [->|H47]; [|destruct (Z.eqb_spec c 62) as [->|H62]].
  - destruct (full_array s) eqn:Hfull; [done|].
    destruct (store_null l s IKS_SINGLE Hn Harr Hno Hfull) as (a & Es & H1 & H2 & H3).
    rewrite Es in E. cbn in E. destruct (Hend IKS_SINGLE a H1 H2 H3) as (X1 & X2 & X3).
    refine (sim_next (S n) buf l 47 _ _ E eq_refl _). split; [done|].
    split; [destruct (base_bump _ _ _ _ X1 Hc); by split|]. done.
  - destruct (full_array s) eqn:Hfull; [done|].
    destruct (store_null l s (tagtype (prs l)) Hn Harr Hno Hfull) as (a & Es & H1 & H2 & H3).
    assert (Hid := set_tagtype_id (prs l)).
    destruct (Hend (tagtype (prs l)) a H1 H2 H3) as (X1 & X2 & X3). cbv zeta in X1, X2, X3.
    rewrite Hid in Es, X1, X2, X3. rewrite Es in E. cbn in E.
    eapply sim_again; [exact E|reflexivity|].
    refine (sim_finish n buf (set_prs l _) s _ _ Hu _ _ Hc); [done| |exact X2|exact X3].
    destruct X1. split; try done. by rewrite <-(b_type _ _ _ Hb).
  - eapply sim_again; [exact E|reflexivity|]. apply (sim_start_attribute n buf (goto l C_ATTRIBUTE)); try done.
    destruct Hb; by split.
Qed.

(** A related state whose context changes nothing the relation looks at. *)
Lemma base_like buf l l' s s' :
  base buf l s → prs l' = prs l ∨ (∃ c, prs l' = set_context (prs l) c) →
  bounds buf l' → s_type s' = s_type s → s_umax s' = s_umax s → s_ulen s' = s_ulen s → base buf l' s'.
Proof. intros [] [E|[c E]] Hb E1 E2 E3; split; try done; rewrite E, ?E1, ?E2, ?E3; done. Qed.

Lemma sim_next_user n buf l c l1 s' u :
  sax_turn buf l c = Done (l1, Next) → user l1 = u → pos l1 = pos l → rel buf (bump l1 c) s' →
  sim (S n) buf l c (Done (s', u, None)).
Proof. intros E <- Hp Hr. by eapply sim_next. Qed.

(** The state in which [stack_old] marks the byte in hand. *)
Definition mark l : loc (U := U) := if stack_old l =? -1 then set_stack_old l (pos l) else l.

Lemma mark_fields l : prs (mark l) = prs l ∧ user (mark l) = user l ∧ pos (mark l) = pos l ∧ old (mark l) = old l.
Proof. unfold mark. by destruct (stack_old l =? -1). Qed.

Lemma mark_bounds buf l : bounds buf l → bounds buf (mark l).
Proof.
  unfold bounds, mark. intros (H1 & H2 & H3). destruct (Z.eqb_spec (stack_old l) (-1)); cbn; lia.
Qed.

Lemma base_mark buf l s : base buf l s → base buf (mark l) s.
Proof.
  intros Hb. destruct (mark_fields l) as (E & _). destruct Hb.
  split; rewrite ?E; try done. by apply mark_bounds.
Qed.

(** A byte collected in a name, an attribute or a value. *)
Lemma rel_collect buf l s c :
  rel buf l s → at_byte buf l c → collecting (s_ctx s) = true → rel buf (bump (mark l) c) (collect s c).
Proof.
  intros (Hctx & Hb & Hrel) Hc Hcol. unfold collecting in Hcol. apply bool_decide_eq_true in Hcol.
  assert (Hbd := b_bounds _ _ _ Hb). destruct (mark_fields l) as (E1 & _ & E2 & _).
  assert (Hcm : at_byte buf (mark l) c) by (unfold at_byte; by rewrite E2).
  assert (Hbase : base buf (bump (mark l) c) s) by (apply base_bump; [by apply base_mark|done]).
  assert (Hk : ∀ off t, collected buf l off t → collected buf (bump (mark l) c) off (t ++ [c]))
    by (intros; by apply collect_byte).
  assert (Hp : prs (bump (mark l) c) = set_counts (prs l) (nr_bytes (prs l) + 1)
     (if c =? 10 then nr_lines (prs l) + 1 else nr_lines (prs l))) by (unfold bump; by rewrite E1).
  assert (Hnm : ∀ s', s_name s' = s_name s → s_atts s' = s_atts s → named l s → named (bump (mark l) c) s').
  { intros s' En Ea Hn. unfold named. rewrite Hp, En, Ea. exact Hn. }
  unfold rel, collect. unfold ctx_rel in *.
  destruct Hcol as [E|[E|[E|E]]]; rewrite E in *; cbn [s_ctx s_setname s_setattr]; rewrite ?E.
  - split; [by rewrite Hp|]. split; [by destruct Hbase|]. destruct Hrel as (? & ? & ? & ? & ?).
    rewrite Hp. split_and!; try done. by apply Hk.
  - split; [by rewrite Hp|]. split; [by destruct Hbase|]. destruct Hrel as (Hn & off & Ho & Hq).
    split; [by apply Hnm|]. exists off. unfold open_attr in *. rewrite Hp. split; [done|]. by apply Hk.
  - split; [by rewrite Hp|]. split; [by destruct Hbase|]. destruct Hrel as (Hn & off & off2 & Ho & Hv & Hs & Hq).
    split; [by apply Hnm|]. exists off, off2. unfold open_attr, open_value in *. rewrite Hp. split_and!; try done. by apply Hk.
  - split; [by rewrite Hp|]. split; [by destruct Hbase|]. destruct Hrel as (Hn & off & off2 & Ho & Hv & Hs & Hq).
    split; [by apply Hnm|]. exists off, off2. unfold open_attr, open_value in *. rewrite Hp. split_and!; try done. by apply Hk.
Qed.

Lemma sim_tag n buf l s c :
  context (prs l) = s_ctx s → s_ctx s = C_TAG → base buf l s → ctx_rel buf l s → s_umax s = 0 → ascii c →
  at_byte buf l c → sim (S (S n)) buf l c (spec_ascii s (user l) c).
Proof.
  intros Hctx Es Hb Hrel Hu Ha Hc. unfold spec_ascii. unfold ctx_rel in Hrel. rewrite Es in *.
  destruct Hrel as (Hf & Ht & Hcur & Hno & Hcol).
  assert (E : sax_turn buf l c = case_tag buf l c).
  { rewrite (switch_turn _ _ _ _ Hb Hu Ha). unfold sax_switch. by rewrite Hctx. }
  assert (Harr := b_arr _ _ _ Hb). assert (Hbd := b_bounds _ _ _ Hb). unfold case_tag in E.
  assert (Hty := b_type _ _ _ Hb). rewrite Hty in E.
  destruct (is_whitespace c) eqn:Hw.
  - match type of E with _ = push_string _ ?l1 ?k =>
      destruct (push_name buf l1 s k Hf Ht Hcur Hno Hbd Harr Hcol) as (p & Ep & Hn & st & m & -> & Hm) end.
    rewrite Ep in E. refine (sim_next (S n) buf l c _ _ E eq_refl _). split; [done|]. split.
    + destruct (base_bump _ _ _ _ Hb Hc). split; try done; [by right|]. unfold bounds in *. cbn in *. lia.
    + split; [exact Hn|]. split; [done|]. cbn. by destruct (decide _).
  - destruct (Z.eqb_spec c 47) as [->|H47]; [|destruct (Z.eqb_spec c 62) as [->|H62]].
    + destruct (decide (s_type s = IKS_CLOSE)).
      * exact (sim_ret (S n) buf l 47 _ s _ E).
      * match type of E with _ = push_string _ ?l1 ?k =>
          destruct (push_name buf l1 s k Hf Ht Hcur Hno Hbd Harr Hcol) as (p & Ep & Hn & st & m & -> & Hm) end.
        rewrite Ep in E. refine (sim_next (S n) buf l 47 _ _ E eq_refl _). split; [done|]. split.
        -- destruct (base_bump _ _ _ _ Hb Hc). split; try done; [by right|]. unfold bounds in *. cbn in *. lia.
        -- split; [exact Hn|by left].
    + match type of E with _ = push_string _ ?l1 ?k =>
        destruct (push_name buf l1 s k Hf Ht Hcur Hno Hbd Harr Hcol) as (p & Ep & Hn & st & m & -> & Hm) end.
      rewrite Ep in E. eapply sim_again; [exact E|reflexivity|].
      refine (sim_finish n buf (mk_loc _ _ _ _ _) s _ _ Hu Hn _ Hc); [done| |by left].
      destruct Hb. split; try done; [by right|]. unfold bounds in *. cbn in *. lia.
    + refine (sim_next_user (S n) buf l c (mark l) _ _ E _ _ _); [apply mark_fields..|].
      apply rel_collect; [|done|by rewrite Es]. split; [by rewrite Es|]. split; [done|].
      unfold ctx_rel. by rewrite Es.
Qed.

(** A string that was collected from [off] on is complete. *)
Lemma collected_string buf l off t m :
  collected buf l off t → string_at (stack (prs l) ++ pend buf l ++ [0]) off t
  ∧ stack (set_stack_max (set_stack (prs l) (stack (prs l) ++ pend buf l ++ [0])) m)
    = stack (prs l) ++ pend buf l ++ [0].
Proof.
  intros (H1 & H2 & H3 & _). split; [|done]. exists (take (Z.to_nat off) (stack (prs l))), [].
  split_and!; [|unfold stack_pos, strlen in *; rewrite length_take; lia|done].
  rewrite <-H2, <-!app_assoc. by rewrite (app_assoc (take _ _)), take_drop.
Qed.

Lemma open_attr_push l s off st m f :
  open_attr l s off →
  open_attr (mk_loc (set_stack_max (set_stack (prs l) st) m) (user l) (pos l) (old l) f) s off.
Proof. done. Qed.

Lemma sim_attribute_1 n buf l s c :
  context (prs l) = s_ctx s → s_ctx s = C_ATTRIBUTE_1 → base buf l s → ctx_rel buf l s → s_umax s = 0 →
  ascii c → at_byte buf l c → sim (S n) buf l c (spec_ascii s (user l) c).
Proof.
  intros Hctx Es Hb Hrel Hu Ha Hc. assert (Hrel' := Hrel). unfold spec_ascii. unfold ctx_rel in Hrel. rewrite Es in *.
  destruct Hrel as (Hn & off & Ho & Hcol).
  assert (E : sax_turn buf l c = case_attribute_1 buf l c).
  { rewrite (switch_turn _ _ _ _ Hb Hu Ha). unfold sax_switch. by rewrite Hctx. }
  unfold case_attribute_1 in E. destruct (Z.eqb_spec c 61) as [->|H61].
  - assert (Hf : stack_fine (prs l)) by apply Hn.
    destruct (push_string_done buf l (λ l, Done (goto l C_VALUE, Next)) Hf (b_bounds _ _ _ Hb)) as (m & Ep & H1 & H2).
    rewrite Ep in E. refine (sim_next n buf l 61 _ _ E eq_refl _). split; [done|]. split.
    + destruct (base_bump _ _ _ _ Hb Hc). split; try done; [by right|]. unfold bounds in *. cbn in *. lia.
    + split; [exact (named_push l s _ m (-1) Hn H1 H2)|]. split; [done|]. exists off.
      split; [exact Ho|]. exact (proj1 (collected_string buf l off _ m Hcol)).
  - refine (sim_next_user n buf l c (mark l) _ _ E _ _ _); [apply mark_fields..|].
    apply rel_collect; [|done|by rewrite Es]. split; [by rewrite Es|]. by split.
Qed.

Lemma sim_value_in n q buf l s c :
  context (prs l) = s_ctx s → (s_ctx s = C_VALUE_APOS ∧ q = 39 ∨ s_ctx s = C_VALUE_QUOT ∧ q = 34) →
  base buf l s → ctx_rel buf l s → s_umax s = 0 → ascii c → at_byte buf l c →
  sim (S n) buf l c (at_value_in q s (user l) c).
Proof.
  intros Hctx Es Hb Hrel Hu Ha Hc. assert (Hrel' := Hrel). unfold ctx_rel in Hrel.
  assert (Hv : named l s ∧ ∃ off off2, open_attr l s off ∧ open_value l s off2 ∧
        string_at (stack (prs l)) off (s_an s) ∧ collected buf l off2 (s_av s))
    by (destruct Es as [[E _]|[E _]]; by rewrite E in Hrel).
  assert (E : sax_turn buf l c = case_value_in q buf l c).
  { rewrite (switch_turn _ _ _ _ Hb Hu Ha). unfold sax_switch. rewrite Hctx.
    by destruct Es as [[-> ->]|[-> ->]]. }
  clear Hrel. destruct Hv as (Hn & off & off2 & Ho & Hov & Hs & Hcol).
  unfold case_value_in, at_value_in in *. destruct (Z.eqb_spec c q) as [->|Hq].
  - assert (Hf : stack_fine (prs l)) by apply Hn.
    match type of E with _ = push_string _ _ ?k =>
      destruct (push_string_done buf l k Hf (b_bounds _ _ _ Hb)) as (m & Ep & H1 & H2) end.
    rewrite Ep in E. cbn in E. refine (sim_next n buf l q _ _ E eq_refl _). split; [done|]. split.
    + destruct (base_bump _ _ _ _ Hb Hc). split; try done; [by right|]. unfold bounds in *. cbn in *. lia.
    + split; [|split; [done|cbn; by destruct (s_atts s)]].
      destruct (named_push l s _ m (-1) Hn H1 H2) as (N1 & N2 & N3 & N4 & N5).
      destruct Ho as (a & Ea & Ho & Hlt). destruct Hov as (a' & Ea' & Hov). rewrite Ea in Ea'. injection Ea' as <-.
      cbn in N5. rewrite Ea in N5. destruct N5 as [N5 N6].
      assert (Harr := b_arr _ _ _ Hb). unfold arr_ok in Harr. rewrite Ea in Harr. cbn in N4, N5.
      split; [exact N1|]. split_and!; [done|done| |].
      * cbn. rewrite length_app. cbn [length]. lia.
      * cbn. rewrite Ea. split; [lia|]. eapply atts_at_snoc; [exact N6|exact Ho|exact Hov|by apply string_at_app|].
        exact (proj1 (collected_string buf l off2 _ m Hcol)).
  - refine (sim_next_user n buf l c (mark l) _ _ E _ _ _); [apply mark_fields..|].
    apply rel_collect; [by split|done|]. unfold collecting. apply bool_decide_eq_true.
    destruct Es as [[-> _]|[-> _]]; auto.
Qed.

Lemma sim_value n buf l s c :
  context (prs l) = s_ctx s → s_ctx s = C_VALUE → base buf l s → ctx_rel buf l s → s_umax s = 0 →
  ascii c → at_byte buf l c → sim (S n) buf l c (spec_ascii s (user l) c).
Proof.
  intros Hctx Es Hb Hrel Hu Ha Hc. unfold spec_ascii. unfold ctx_rel in Hrel. rewrite Es in *.
  destruct Hrel as (Hn & Hso & off & Ho & Hs).
  assert (E : sax_turn buf l c = case_value l c).
  { rewrite (switch_turn _ _ _ _ Hb Hu Ha). unfold sax_switch. by rewrite Hctx. }
  unfold case_value in E. assert (Hn' := Hn). destruct Hn' as (N1 & N2 & N3 & N4 & N5).
  assert (Ho' := Ho). destruct Ho' as (a & Ea & Hoff & Hlt).
  rewrite (att_store_done _ a) in E by (done || lia). cbn in E.
  assert (Hi : Z.to_nat (attcur (prs l) + 1) = (2 * length (s_atts s) + 1)%nat) by lia. rewrite Hi in E.
  set (a1 := <[(2 * length (s_atts s) + 1)%nat := Some (stack_pos (prs l))]> a) in E.
  rewrite Ea in N5. destruct N5 as [N5 N6].
  assert (La : length a1 = length a) by apply length_insert.
  assert (A1 : a1 !! (2 * length (s_atts s))%nat = Some (Some off)) by (unfold a1; rewrite list_lookup_insert_ne by lia; done).
  assert (A2 : a1 !! (2 * length (s_atts s) + 1)%nat = Some (Some (stack_pos (prs l)))) by (apply list_lookup_insert_eq; lia).
  assert (A3 : atts_at (stack (prs l)) a1 (s_atts s)) by (apply atts_at_insert; [lia|done]).
  clearbody a1.
  assert (Hval : ∀ cx s1, cx = C_VALUE_APOS ∨ cx = C_VALUE_QUOT → s1 = s_goto (s_setattr s (s_an s) []) cx →
    rel buf (bump (goto (set_prs l (set_atts (prs l) (attmax (prs l)) (attcur (prs l)) (attflag (prs l)) (Some a1))) cx) c) s1).
  { intros cx s1 Hcx ->. split; [done|].
    assert (Harr := b_arr _ _ _ Hb). unfold arr_ok in Harr. rewrite Ea, <-La in Harr.
    split; [destruct (base_bump _ _ _ _ Hb Hc); by split|].
    assert (Hx : named (bump (goto (set_prs l (set_atts (prs l) (attmax (prs l)) (attcur (prs l)) (attflag (prs l)) (Some a1))) cx) c)
        (s_goto (s_setattr s (s_an s) []) cx)).
    { split; [done|]. by split_and!. }
    assert (Hy : open_attr (bump (goto (set_prs l (set_atts (prs l) (attmax (prs l)) (attcur (prs l)) (attflag (prs l)) (Some a1))) cx) c)
        (s_goto (s_setattr s (s_an s) []) cx) off).
    { exists a1. split; [done|]. split; [done|]. by rewrite La. }
    assert (Hz : open_value (bump (goto (set_prs l (set_atts (prs l) (attmax (prs l)) (attcur (prs l)) (attflag (prs l)) (Some a1))) cx) c)
        (s_goto (s_setattr s (s_an s) []) cx) (stack_pos (prs l))).
    { by exists a1. }
    assert (Hw : collected buf (bump (goto (set_prs l (set_atts (prs l) (attmax (prs l)) (attcur (prs l)) (attflag (prs l)) (Some a1))) cx) c)
        (stack_pos (prs l)) []).
    { unfold collected, stack_pos, pend. cbn. rewrite Hso, drop_ge by (unfold strlen; lia).
      split; [unfold strlen; lia|]. split; [done|]. split; [constructor|].
      intros Hm. exfalso. apply Hm. by rewrite (b_umax _ _ _ Hb). }
    unfold ctx_rel. cbn [s_ctx s_goto].
    destruct Hcx as [->| ->]; (split; [exact Hx|]); by exists off, (stack_pos (prs l)). }
  destruct (Z.eqb_spec c 39) as [->|]; [|destruct (Z.eqb_spec c 34) as [->|]].
  - refine (sim_next n buf l 39 _ _ E eq_refl _). apply Hval; auto.
  - refine (sim_next n buf l 34 _ _ E eq_refl _). apply Hval; auto.
  - exact (sim_ret n buf l c _ s _ E).
Qed.

(** ** Text *)

Lemma sim_cdata n buf l s c :
  context (prs l) = s_ctx s → s_ctx s = C_CDATA → base buf l s → ctx_rel buf l s → s_umax s = 0 →
  ascii c → at_byte buf l c → sim (S n) buf l c (spec_ascii s (user l) c).
Proof.
  intros Hctx Es Hb Hrel Hu Ha Hc. unfold spec_ascii. unfold ctx_rel in Hrel. rewrite Es in *.
  destruct Hrel as [Hi Ht]. assert (Hbd := b_bounds _ _ _ Hb).
  assert (E : sax_turn buf l c = case_cdata buf l c).
  { rewrite (switch_turn _ _ _ _ Hb Hu Ha). unfold sax_switch. by rewrite Hctx. }
  unfold case_cdata in E. assert (Hbb := base_bump _ _ _ _ Hb Hc).
  assert (Hi' := Hi). destruct Hi' as (I1 & I2 & I3 & I4).
  destruct (Z.eqb_spec c 38) as [->|]; [|destruct (Z.eqb_spec c 60) as [->|]].
  - eapply (sim_deliver_text n buf l l); [done|done|exact E|done|]. intros u. split; [done|]. split; [done|]. split; [done|].
    split; [destruct Hbb; by split|]. split; [done|]. by split_and!; [..|constructor].
  - eapply (sim_deliver_text n buf l l 60 (λ l, set_prs l (set_context (set_tag_name
        (if stack_max (prs l) =? 0 then set_stack (set_stack_max (prs l) 128) [] else prs l) 0) C_TAG_START)));
      [done|done| |done|].
    + rewrite E, !flush_spec by done. unfold call_cdata, stack_init, iks_malloc.
      assert (Hk : ∀ l1 : loc (U := U), prs l1 = prs l →
        (let '(ok, p) := if stack_max (prs l1) =? 0 then let '(ok, p) := match mem (prs l1) with
             | [] => (true, prs l1) | b :: m => (b, set_mem (prs l1) m) end in
             if ok then (true, set_stack (set_stack_max p 128) []) else (false, p) else (true, prs l1) in
         if negb ok then Done (set_prs l1 p, Ret IKS_NOMEM)
         else Done (set_prs l1 (set_context (set_tag_name p (stack_pos p)) C_TAG_START), Next))
        = Done (set_prs l1 (set_context (set_tag_name
            (if stack_max (prs l1) =? 0 then set_stack (set_stack_max (prs l1) 128) [] else prs l1) 0) C_TAG_START), Next)).
      { intros l1 ->. rewrite (b_mem _ _ _ Hb). destruct (stack_max (prs l) =? 0); [done|]. cbn.
        unfold stack_pos. by rewrite I1. }
      destruct (sub buf (old l) (pos l)); [by apply Hk|]. destruct cdataHook as [g|]; [|by apply Hk].
      destruct (g _ _) as [[err u]|]; [|done]. cbn. destruct (decide _); [|done]. exact (Hk (set_user l u) eq_refl).
    + intros u. split; [done|]. split; [done|]. split; [done|]. cbn. destruct Hbb. cbn in *.
      destruct (Z.eqb_spec (stack_max (prs l)) 0) as [E0|E0]; (split; [split; try done; by right|]);
        (split; [done|split; [|done]]); split_and!; cbn; try done; unfold stack_pos; cbn; rewrite ?I1; change (strlen []) with 0; lia.
  - replace (collect s c) with (s_settext s (s_text s ++ [c])) by (unfold collect; by rewrite Es).
    refine (sim_next n buf l c _ _ E eq_refl _). split; [cbn; by rewrite Hctx|]. split; [destruct Hbb; by split|].
    unfold ctx_rel. cbn [s_ctx s_settext]. rewrite Es. split; [done|]. cbn. rewrite <-Ht.
    apply sub_snoc; [destruct Hbd as (? & ? & ?); lia|apply Hc].
Qed.

Lemma entity_terminated ent e :
  length e = 8%nat → strlen ent <= 7 → take (length ent) e = ent → is_cstr ent →
  c_str (<[length ent := 0]> e) = ent.
Proof.
  intros He Hl Ht Hs. rewrite insert_take_drop by (unfold strlen in *; lia). rewrite Ht. by apply c_str_terminated.
Qed.

Lemma sim_entity n buf l s c :
  context (prs l) = s_ctx s → s_ctx s = C_ENTITY → base buf l s → ctx_rel buf l s → s_umax s = 0 →
  ascii c → at_byte buf l c → sim (S n) buf l c (spec_ascii s (user l) c).
Proof.
  intros Hctx Es Hb Hrel Hu Ha Hc. unfold spec_ascii. unfold ctx_rel in Hrel. rewrite Es in *.
  destruct Hrel as (Hi & Hp & H7 & Htk & Hcs). assert (He := b_ent _ _ _ Hb).
  assert (E : sax_turn buf l c = case_entity l c).
  { rewrite (switch_turn _ _ _ _ Hb Hu Ha). unfold sax_switch. by rewrite Hctx. }
  unfold case_entity in E. cbv zeta in E. rewrite Hp in E.
  assert (Hi8 : 0 <= strlen (s_ent s) < Z.of_nat (length (entity (prs l)))) by (unfold strlen in *; lia).
  assert (Hn : Z.to_nat (strlen (s_ent s)) = length (s_ent s)) by (unfold strlen; lia).
  destruct (Z.eqb_spec c 59) as [->|].
  - rewrite store_done in E by done. cbn in E. rewrite Hn, entity_terminated in E by done.
    eapply sim_deliver; [exact E|done|]. intros u. split; [done|]. split; [done|]. split; [done|].
    destruct Hb as [? ? ? ? ? ? ? (? & ? & ?)]. apply at_byte_bound in Hc.
    split; [split; try done; [cbn; by rewrite length_insert|unfold bounds; cbn; lia]|].
    split; [done|]. cbn. apply sub_nil.
  - rewrite store_done in E by done. cbn in E. rewrite Hn in E.
    destruct (Z.ltb_spec 7 (strlen (s_ent s) + 1)).
    + exact (sim_ret n buf l c _ s _ E).
    + refine (sim_next n buf l c _ _ E eq_refl _). split; [by cbn; rewrite Hctx|].
      split; [destruct (base_bump _ _ _ _ Hb Hc); split; try done; cbn; by rewrite length_insert|].
      unfold ctx_rel. cbn [s_ctx s_setent]. rewrite Es. split; [done|]. cbn. rewrite strlen_app, length_app.
      change (strlen [c]) with 1. split_and!; [done|lia| |apply Forall_app; split; [done|by repeat constructor; apply Hc]].
      rewrite insert_take_drop by lia. rewrite Htk, Nat.add_1_r. 
      rewrite take_app_ge by lia. replace (S (length (s_ent s)) - length (s_ent s))%nat with 1%nat by lia.
      cbn. by rewrite take_0.
Qed.

(** ** The contexts in which nothing is kept *)

(** The next context [k] keeps nothing either, or starts a text behind the
    byte. *)
Lemma rel_goto buf l s c k :
  base buf l s → idle l s → at_byte buf l c →
  (∀ l' s', s_ctx s' = k → idle l' s' → ctx_rel buf l' s') →
  rel buf (bump (goto l k) c) (s_goto s k).
Proof.
  intros Hb Hi Hc Hk. split; [done|]. split; [destruct (base_bump _ _ _ _ Hb Hc); by split|]. by apply Hk.
Qed.

Lemma rel_stay buf l s c :
  base buf l s → idle l s → at_byte buf l c → context (prs l) = s_ctx s →
  (∀ l' s', s_ctx s' = s_ctx s → idle l' s' → ctx_rel buf l' s') →
  rel buf (bump l c) s.
Proof. intros Hb Hi Hc Hx Hk. split; [done|]. split; [by apply base_bump|]. by apply Hk. Qed.

Lemma rel_text buf l s c k :
  base buf l s → idle l s → at_byte buf l c → k = C_CDATA ∨ k = C_SECT_CDATA_C →
  rel buf (bump (set_old (goto l k) (pos l + 1)) c) (s_settext (s_goto s k) []).
Proof.
  intros Hb Hi Hc Hk. split; [done|].
  assert (Hp : 0 <= pos l) by apply Hc.
  split; [destruct (base_old _ _ _ _ (pos l + 1) Hb Hc ltac:(lia)); by split|].
  unfold ctx_rel. cbn [s_ctx s_settext s_goto]. destruct Hk as [->| ->]; (split; [done|]); cbn; apply sub_nil.
Qed.

Ltac idle_ctx := intros ? ? Hk ?; unfold ctx_rel; rewrite Hk; done.

Lemma sim_expect n buf l s c want k :
  sax_turn buf l c = expect want k l c → base buf l s → idle l s → at_byte buf l c →
  (∀ l' s', s_ctx s' = k → idle l' s' → ctx_rel buf l' s') →
  sim (S n) buf l c (at_expect want k s (user l) c).
Proof.
  intros E Hb Hi Hc Hk. unfold expect, at_expect in *. destruct (c =? want).
  - refine (sim_next n buf l c _ _ E eq_refl _). by apply rel_goto.
  - exact (sim_ret n buf l c _ s _ E).
Qed.

Lemma sim_idle n buf l s c :
  context (prs l) = s_ctx s →
  s_ctx s ∈ [C_COMMENT; C_COMMENT_1; C_COMMENT_2; C_COMMENT_3; C_MARKUP; C_MARKUP_1; C_SECT; C_SECT_CDATA;
    C_SECT_CDATA_1; C_SECT_CDATA_2; C_SECT_CDATA_3; C_SECT_CDATA_4; C_PI] →
  base buf l s → ctx_rel buf l s → s_umax s = 0 → ascii c → at_byte buf l c →
  sim (S n) buf l c (spec_ascii s (user l) c).
Proof.
  intros Hctx Hin Hb Hrel Hu Ha Hc.
  assert (E : sax_turn buf l c = sax_switch buf l c) by (by apply (switch_turn _ _ s)).
  unfold sax_switch in E. rewrite Hctx in E. unfold spec_ascii. unfold ctx_rel in Hrel.
  assert (Hp : 0 <= pos l) by apply Hc.
  repeat (apply elem_of_cons in Hin as [Hin|Hin]; [rewrite Hin in *; cbn [case_comment case_sect] in E|]);
    [..|by apply elem_of_nil in Hin].
  1,7-11: apply sim_expect; [exact E|done..|idle_ctx].
  1: destruct (c =? 45); refine (sim_next n buf l c _ _ E eq_refl _); [apply rel_goto|apply rel_stay]; try done; [..|congruence|]; intros ? ? Hk ?; unfold ctx_rel; rewrite Hk, ?Hin; done.
  1: refine (sim_next n buf l c _ _ E eq_refl _); apply rel_goto; try done; intros ? ? Hk ?; unfold ctx_rel; rewrite Hk; by destruct (c =? 45).
  1: destruct (c =? 62); [refine (sim_next n buf l c _ _ E eq_refl _); apply rel_text; auto|exact (sim_ret n buf l c _ s _ E)].
  - unfold case_markup, case_markup_1 in E. destruct (c =? 91); [|destruct (c =? 45); [|destruct (c =? 62)]];
      refine (sim_next n buf l c _ _ E eq_refl _); [apply rel_goto; try done; idle_ctx..| |apply rel_goto; try done; idle_ctx].
    apply (rel_text buf l s c C_CDATA); auto.
  - unfold case_markup_1 in E. destruct (c =? 62); refine (sim_next n buf l c _ _ E eq_refl _).
    + apply rel_text; auto.
    + apply rel_stay; try done; [congruence|]. intros ? ? Hk ?; unfold ctx_rel; rewrite Hk, Hin; done.
  - destruct (c =? 91); [refine (sim_next n buf l c _ _ E eq_refl _); apply rel_text; auto|exact (sim_ret n buf l c _ s _ E)].
  - unfold case_pi in E. cbv zeta in E. destruct (c =? 62); refine (sim_next n buf l c _ _ E eq_refl _).
    + exact (rel_text buf l s c C_CDATA Hb Hrel Hc (or_introl eq_refl)).
    + split; [cbn; congruence|]. split; [apply base_old; done || lia|]. unfold ctx_rel. by rewrite Hin.
Qed.

(** [C_SECT_CDATA_C], [_E] and [_E2]: a bracket that does not end the section
    is delivered when the next byte shows that. *)
Lemma sim_section n buf l s c :
  context (prs l) = s_ctx s → s_ctx s ∈ [C_SECT_CDATA_C; C_SECT_CDATA_E; C_SECT_CDATA_E2] →
  base buf l s → ctx_rel buf l s → s_umax s = 0 → ascii c → at_byte buf l c →
  sim (S n) buf l c (spec_ascii s (user l) c).
Proof.
  intros Hctx Hin Hb Hrel Hu Ha Hc. assert (Hbd := b_bounds _ _ _ Hb).
  assert (E : sax_turn buf l c = sax_switch buf l c) by (by apply (switch_turn _ _ s)).
  unfold sax_switch in E. rewrite Hctx in E. unfold spec_ascii. unfold ctx_rel in Hrel.
  assert (Hp : 0 <= pos l) by apply Hc.
  assert (Hbrk : ∀ u, idle l s →
    rel buf (bump (set_old (goto (set_user l u) C_SECT_CDATA_C) (pos l)) c) (s_settext (s_goto s C_SECT_CDATA_C) [c])).
  { intros u Hi. split; [done|]. split; [destruct (base_old _ _ _ _ (pos l) Hb Hc ltac:(lia)); by split|].
    split; [done|]. cbn. rewrite (sub_snoc _ _ _ c), sub_nil by (lia || apply Hc). done. }
  repeat (apply elem_of_cons in Hin as [Hin|Hin]; [rewrite Hin in *|]); [..|by apply elem_of_nil in Hin].
  - unfold case_sect_c in E. destruct Hrel as [Hi Ht]. destruct (c =? 93).
    + eapply (sim_deliver_text n buf l (goto l C_SECT_CDATA_E) c (λ l, l)); [done|done|exact E|done|].
      intros u. split; [done|]. split; [done|]. apply (rel_goto buf (set_user l u) (s_settext s []) c C_SECT_CDATA_E); try done; [|idle_ctx].
      destruct Hb; by split.
    + replace (collect s c) with (s_settext s (s_text s ++ [c])) by (unfold collect; by rewrite Hin).
      refine (sim_next n buf l c _ _ E eq_refl _). split; [cbn; congruence|].
      split; [destruct (base_bump _ _ _ _ Hb Hc); by split|].
      unfold ctx_rel. cbn [s_ctx s_settext]. rewrite Hin. split; [done|]. cbn. rewrite <-Ht.
      apply sub_snoc; [destruct Hbd as (? & ? & ?); lia|apply Hc].
  - unfold case_sect_e in E. destruct (c =? 93).
    + refine (sim_next n buf l c _ _ E eq_refl _). apply rel_goto; try done. idle_ctx.
    + eapply (sim_deliver n buf l l); [exact E|done|]. intros u. split; [done|]. split; [done|]. by apply (Hbrk u).
  - unfold case_sect_e2 in E. destruct (c =? 62).
    + refine (sim_next n buf l c _ _ E eq_refl _). apply rel_text; auto.
    + eapply (sim_deliver n buf l l); [exact E|done|]. intros u. split; [done|]. split; [done|]. by apply (Hbrk u).
Qed.

Lemma sim_tag_start n buf l s c :
  context (prs l) = s_ctx s → s_ctx s = C_TAG_START → base buf l s → ctx_rel buf l s → s_umax s = 0 →
  ascii c → at_byte buf l c → sim (S n) buf l c (spec_ascii s (user l) c).
Proof.
  intros Hctx Es Hb Hrel Hu Ha Hc. unfold spec_ascii. unfold ctx_rel in Hrel. rewrite Es in *.
  destruct Hrel as (Hi & Hf & Ht). assert (Hi' := Hi). destruct Hi' as (I1 & I2 & I3 & I4).
  assert (E : sax_turn buf l c = case_tag_start l c).
  { rewrite (switch_turn _ _ _ _ Hb Hu Ha). unfold sax_switch. by rewrite Hctx. }
  unfold case_tag_start in E. assert (Hbb := base_bump _ _ _ _ Hb Hc). assert (Hp : 0 <= pos l) by apply Hc.
  assert (Hum : uni_max (prs l) = 0) by (by rewrite (b_umax _ _ _ Hb)).
  destruct (Z.eqb_spec c 47) as [->|]; [|destruct (c =? 63); [|destruct (c =? 33)]].
  - refine (sim_next n buf l 47 _ _ E eq_refl _). split; [done|]. split; [destruct Hbb; by split|].
    do 4 (split; [done|]). unfold collected, stack_pos, pend. cbn. rewrite I1, I2.
    split; [done|]. split; [done|]. split; [constructor|done].
  - refine (sim_next n buf l c _ _ E eq_refl _). apply rel_goto; try done. idle_ctx.
  - refine (sim_next n buf l c _ _ E eq_refl _). apply rel_goto; try done. idle_ctx.
  - refine (sim_next n buf l c _ _ E eq_refl _). split; [done|].
    split; [destruct Hbb; split; try done; unfold bounds in *; cbn in *; lia|].
    do 4 (split; [done|]). unfold collected, stack_pos, pend. cbn. rewrite I1.
    split; [done|]. split; [|split; [by repeat constructor; apply Hc|lia]].
    destruct (Z.eqb_spec (pos l) (-1)); [lia|]. by rewrite (sub_snoc _ _ _ c), sub_nil by (lia || apply Hc).
Qed.

Lemma sim_whitespace n buf l s c :
  context (prs l) = s_ctx s → s_ctx s = C_WHITESPACE → base buf l s → ctx_rel buf l s → s_umax s = 0 →
  ascii c → at_byte buf l c → sim (S (S (S n))) buf l c (spec_ascii s (user l) c).
Proof.
  intros Hctx Es Hb Hrel Hu Ha Hc. unfold spec_ascii. assert (Hrel' := Hrel). unfold ctx_rel in Hrel. rewrite Es in *.
  destruct Hrel as (Hn & Ho & Hk).
  assert (E : sax_turn buf l c = case_whitespace l c).
  { rewrite (switch_turn _ _ _ _ Hb Hu Ha). unfold sax_switch. by rewrite Hctx. }
  unfold case_whitespace in E. destruct (is_whitespace c).
  - refine (sim_next (S (S n)) buf l c _ _ E eq_refl _). split; [cbn; congruence|]. split; [by apply base_bump|].
    unfold ctx_rel. by rewrite Es.
  - rewrite Ho in E. eapply sim_again; [exact E|reflexivity|].
    assert (Hb' : base buf (goto l (s_octx s)) s) by (destruct Hb; by split).
    destruct (s_octx s) eqn:Eo; try done.
    + unfold at_tag_end.
      assert (E2 : sax_turn buf (goto l C_TAG_END) c = case_tag_end (goto l C_TAG_END) c).
      { by rewrite (switch_turn _ _ _ _ Hb' Hu Ha). }
      destruct (Z.eqb_spec c 62) as [->|Hne].
      * apply (sim_finish (S n) buf (goto l C_TAG_END)); try done. by left.
      * unfold case_tag_end in E2. rewrite (proj2 (Z.eqb_neq _ _) Hne) in E2. cbn [negb] in E2.
        exact (sim_ret (S n) buf (goto l C_TAG_END) c _ s _ E2).
    + by apply (sim_attribute n buf (goto l C_ATTRIBUTE)).
    + by apply (sim_attribute_2 n buf (goto l C_ATTRIBUTE_2)).
Qed.

(** ** Characters of several bytes *)

(** Outside names and values a byte is passed over, or is text. *)
Lemma rel_pass buf l s c :
  rel buf l s → at_byte buf l c → collecting (s_ctx s) = false → rel buf (bump l c) (collect s c).
Proof.
  intros (Hctx & Hb & Hrel) Hc Hcol. assert (Hbb := base_bump _ _ _ _ Hb Hc).
  assert (Htext : sub buf (old l) (pos l) = s_text s → sub buf (old (bump l c)) (pos (bump l c)) = s_text s ++ [c]).
  { intros <-. apply sub_snoc; [|apply Hc]. destruct (b_bounds _ _ _ Hb) as (? & ? & ?). lia. }
  unfold collect, rel in *. unfold ctx_rel in *.
  destruct (s_ctx s) eqn:Es; try discriminate; cbn [s_ctx s_settext]; rewrite ?Es;
    try (split; [done|]; split; [done|]; done).
  all: split; [done|]; split; [destruct Hbb; by split|]; destruct Hrel; split; [done|]; by apply Htext.
Qed.

Lemma rel_setuni buf l s m k :
  rel buf l s → (collecting (s_ctx s) = true → stack_old l ≠ -1) →
  rel buf (set_prs l (set_uni (prs l) m k)) (s_setuni s m k).
Proof.
  intros (Hctx & [] & Hrel) Hso. split; [done|]. split; [by split|].
  unfold ctx_rel in *. cbn [s_ctx s_setuni]. destruct (s_ctx s) eqn:Es; try done.
  - destruct Hrel as (? & ? & ? & ? & ? & ? & ? & ?). do 7 (split; [done|]). intros _. by apply Hso.
  - destruct Hrel as (? & off & ? & ? & ? & ? & ?). split; [done|]. exists off. do 4 (split; [done|]).
    intros _. by apply Hso.
  - destruct Hrel as (? & off & off2 & ? & ? & ? & ? & ? & ? & ?). split; [done|]. exists off, off2.
    do 6 (split; [done|]). intros _. by apply Hso.
  - destruct Hrel as (? & off & off2 & ? & ? & ? & ? & ? & ? & ?). split; [done|]. exists off, off2.
    do 6 (split; [done|]). intros _. by apply Hso.
Qed.

Lemma collect_setuni s m k c : collect (s_setuni s m k) c = s_setuni (collect s c) m k.
Proof. unfold collect. cbn. by destruct (s_ctx s). Qed.

Lemma collect_ctx s c : s_ctx (collect s c) = s_ctx s.
Proof. unfold collect. by destruct (s_ctx s) eqn:E; cbn; rewrite ?E. Qed.

(** A byte of a longer character: [mark] is what the lead byte does, and on
    the bytes behind it there is nothing left to mark. *)
Lemma rel_unicode buf l s c m k :
  rel buf l s → at_byte buf l c →
  let l1 := set_prs l (set_uni (prs l) m k) in
  rel buf (bump (if collecting (s_ctx s) then mark l1 else l1) c) (collect (s_setuni s m k) c).
Proof.
  intros Hr Hc l1. rewrite collect_setuni. destruct (collecting (s_ctx s)) eqn:Hcol.
  - pose proof (rel_collect _ _ _ _ Hr Hc Hcol) as Hr'.
    replace (bump (mark l1) c) with (set_prs (bump (mark l) c) (set_uni (prs (bump (mark l) c)) m k))
      by (unfold l1, mark; cbn; by destruct (stack_old l =? -1)).
    apply rel_setuni; [done|]. intros _. unfold mark. destruct Hc as (_ & Hp & _).
    destruct (Z.eqb_spec (stack_old l) (-1)); cbn; lia.
  - pose proof (rel_pass _ _ _ _ Hr Hc Hcol) as Hr'.
    apply (rel_setuni buf (bump l c)); [done|]. rewrite collect_ctx, Hcol. done.
Qed.

Lemma sim_ascii buf l s c :
  rel buf l s → s_umax s = 0 → ascii c → at_byte buf l c → sim 4 buf l c (spec_ascii s (user l) c).
Proof.
  intros (Hctx & Hb & Hrel) Hu Ha Hc.
  destruct (s_ctx s) eqn:Es; try (unfold ctx_rel in Hrel; rewrite Es in Hrel; done).
  all: try (apply sim_idle; try done; [congruence|rewrite Es; by repeat (apply elem_of_cons; first [left; reflexivity|right])]).
  all: try (apply sim_section; try done; [congruence|rewrite Es; by repeat (apply elem_of_cons; first [left; reflexivity|right])]).
  - apply sim_cdata; try done; congruence.
  - apply sim_tag_start; try done; congruence.
  - apply sim_tag; try done; congruence.
  - unfold spec_ascii. rewrite Es. unfold at_tag_end. unfold ctx_rel in Hrel. rewrite Es in Hrel. destruct Hrel as [Hn Ht].
    assert (E : sax_turn buf l c = case_tag_end l c).
    { rewrite (switch_turn _ _ _ _ Hb Hu Ha). unfold sax_switch. by rewrite Hctx. }
    destruct (Z.eqb_spec c 62) as [->|Hne]; [by apply sim_finish|].
    unfold case_tag_end in E. rewrite (proj2 (Z.eqb_neq _ _) Hne) in E. cbn [negb] in E.
    exact (sim_ret 3 buf l c _ s _ E).
  - apply sim_attribute_1; try done; congruence.
  - apply sim_value; try done; congruence.
  - unfold spec_ascii. rewrite Es. apply sim_value_in; try done; [congruence|]. auto.
  - unfold spec_ascii. rewrite Es. apply sim_value_in; try done; [congruence|]. auto.
  - apply sim_whitespace; try done; congruence.
  - apply sim_entity; try done; congruence.
Qed.

Lemma sim_byte buf l s c :
  rel buf l s → buf !! Z.to_nat (pos l) = Some c → 0 <= c < 256 → sim 4 buf l c (spec_byte s (user l) c).
Proof.
  intros Hr Hc Hby. assert (Hr' := Hr). destruct Hr' as (Hctx & Hb & Hrel).
  destruct (b_bounds _ _ _ Hb) as (Hp & _). unfold spec_byte.
  assert (E : sax_turn buf l c = match sax_unicode l c with Some r => Done r | None => sax_switch buf l c end) by done.
  unfold sax_unicode in E. cbv zeta in E.
  destruct ((c =? 0) || (c =? 0xFE) || (c =? 0xFF)) eqn:H0.
  { exact (sim_ret 3 buf l c _ s _ E). }
  assert (Hcc : at_byte buf l c).
  { split; [done|]. split; [lia|]. unfold is_cchar. destruct (Z.eqb_spec c 0); [done|lia]. }
  rewrite (b_umax _ _ _ Hb), (b_ulen _ _ _ Hb) in E.
  destruct (Z.eqb_spec (s_umax s) 0) as [Hu|Hu]; cbn [negb] in *.
  - destruct (Z.eqb_spec (Z.land c 0x80) 0) as [Ha|Ha]; cbn [negb] in *.
    + apply sim_ascii; try done.
    + destruct (lead_byte c) as [[max mask]|]; [|exact (sim_ret 3 buf l c _ s _ E)].
      destruct (Z.land c mask =? 0); [exact (sim_ret 3 buf l c _ s _ E)|].
      pose proof (rel_unicode buf l s c max 1 Hr Hcc) as Hx. cbv zeta in Hx. rewrite Hctx in E.
      unfold mark in Hx. cbn [stack_old set_prs pos] in Hx.
      destruct (collecting (s_ctx s)); rewrite ?andb_true_r, ?andb_false_r in E; cbn [stack_old set_prs pos] in E.
      * eapply sim_next_user; [exact E|by destruct (stack_old l =? -1)..|exact Hx].
      * exact (sim_next 3 buf l c _ _ E eq_refl Hx).
  - destruct (negb (Z.land c 0xC0 =? 0x80)); [exact (sim_ret 3 buf l c _ s _ E)|].
    refine (sim_next 3 buf l c _ _ E eq_refl _).
    pose proof (rel_unicode buf l s c (if s_ulen s + 1 =? s_umax s then 0 else s_umax s) (s_ulen s + 1) Hr Hcc) as Hx.
    cbv zeta in Hx. destruct (collecting (s_ctx s)) eqn:Hcol; [|exact Hx].
    assert (Hso : stack_old l ≠ -1).
    { rewrite <-(b_umax _ _ _ Hb) in Hu. unfold collecting in Hcol. apply bool_decide_eq_true in Hcol.
      unfold ctx_rel in Hrel. destruct Hcol as [E1|[E1|[E1|E1]]]; rewrite E1 in Hrel.
      - destruct Hrel as (_ & _ & _ & _ & _ & _ & _ & Hx'). auto.
      - destruct Hrel as (_ & off & _ & _ & _ & _ & Hx'). auto.
      - destruct Hrel as (_ & off & off2 & _ & _ & _ & _ & _ & _ & Hx'). auto.
      - destruct Hrel as (_ & off & off2 & _ & _ & _ & _ & _ & _ & Hx'). auto. }
    unfold mark in Hx. cbn [stack_old set_prs pos] in Hx. by rewrite (proj2 (Z.eqb_neq _ _) Hso) in Hx.
Qed.

(** ** Buffers *)

#[local] Arguments sax_byte : simpl never.
#[local] Arguments spec_byte : simpl never.

Lemma sim_loop buf : ∀ rest l s,
  rel buf l s → drop (Z.to_nat (pos l)) buf = rest → Forall is_byte rest →
  match spec_loop s (user l) rest with
  | Fault => True
  | Done (s', u', e) => ∃ l', sax_loop buf l rest = Done (l', e) ∧ user l' = u' ∧ (e = None → rel buf l' s')
  end.
Proof.
  induction rest as [|c rest IH]; intros l s Hr Hd Hby; cbn [spec_loop sax_loop]; [by exists l|].
  apply Forall_cons in Hby as [Hc Hby].
  assert (Hl : buf !! Z.to_nat (pos l) = Some c).
  { rewrite <-(Nat.add_0_r (Z.to_nat (pos l))), <-lookup_drop, Hd. done. }
  pose proof (sim_byte buf l s c Hr Hl Hc) as Hs. unfold sim in Hs.
  destruct (spec_byte s (user l) c) as [[[s1 u1] e]|]; [|done]. cbn.
  destruct Hs as (l1 & E1 & <- & Hrel). rewrite E1. cbn. destruct e as [e|]; [by exists l1|].
  destruct (Hrel eq_refl) as [Hr1 Hp]. apply IH; [done| |done]. rewrite Hp.
  destruct Hr as (_ & Hb & _). destruct (b_bounds _ _ _ Hb) as (? & _).
  replace (Z.to_nat (pos l + 1)) with (Z.to_nat (pos l) + 1)%nat by lia. by rewrite <-drop_drop, Hd.
Qed.

(** A parser between two buffers. *)
Definition between (p : iksparser) (s : sp) : Prop := ∀ u, rel [] (mk_loc p u 0 0 (-1)) s.

Lemma between_start p s u buf : between p s → rel buf (mk_loc p u 0 0 (-1)) s.
Proof.
  intros Hr. specialize (Hr u). destruct Hr as (Hctx & [] & Hrel). split; [done|]. split.
  - split; try done. unfold bounds, strlen. cbn [pos old stack_old]. lia.
  - unfold ctx_rel in *. destruct (s_ctx s); try done; by rewrite sub_nil in *.
Qed.

Lemma between_new : between (iks_sax_new []) sp_init.
Proof.
  intros u. split; [done|]. split; [|by split].
  split; try done; [by left|]. unfold bounds, strlen. cbn [pos old stack_old]. lia.
Qed.

Lemma collected_kept buf l off t m u :
  collected buf l off t → uni_max (prs l) = 0 →
  collected [] (mk_loc (set_stack_max (set_stack (prs l) (stack (prs l) ++ pend buf l)) m) u 0 0 (-1)) off t.
Proof.
  intros (H1 & H2 & H3 & _) Hu. unfold collected, stack_pos in *. cbn.
  split; [rewrite strlen_app; unfold strlen in *; lia|].
  split; [|split; [done|lia]].
  transitivity (drop (Z.to_nat off) (stack (prs l) ++ pend buf l) ++ []); [done|].
  rewrite app_nil_r, drop_app_le by (unfold strlen in *; lia). done.
Qed.

(** What the end of a buffer leaves, when something waited. *)
Lemma between_pushed buf l s m :
  context (prs l) = s_ctx s → base buf l s → ctx_rel buf l s → clean_cut s = true → stack_old l ≠ -1 →
  128 <= m → strlen (stack (prs l) ++ pend buf l) <= m →
  between (set_stack_max (set_stack (prs l) (stack (prs l) ++ pend buf l)) m)
    (match s_ctx s with C_CDATA | C_SECT_CDATA_C => s_settext s [] | _ => s end).
Proof.
  intros Hctx Hb Hrel Hcut Hso H1 H2 u. assert (Hum := b_umax _ _ _ Hb).
  assert (Hbase : base [] (mk_loc (set_stack_max (set_stack (prs l) (stack (prs l) ++ pend buf l)) m) u 0 0 (-1)) s).
  { destruct Hb. split; try done; [by right|]. unfold bounds, strlen. cbn [pos old stack_old]. lia. }
  assert (Hnm : named l s → named (mk_loc (set_stack_max (set_stack (prs l) (stack (prs l) ++ pend buf l)) m) u 0 0 (-1)) s)
    by (intros Hn; exact (named_push l s _ m (-1) Hn H1 H2)).
  assert (Hst : ∀ off t, string_at (stack (prs l)) off t → string_at (stack (prs l) ++ pend buf l) off t)
    by (intros; by apply string_at_app).
  assert (Hz : collecting (s_ctx s) = true → uni_max (prs l) = 0).
  { intros E. unfold clean_cut in Hcut. rewrite E in Hcut. cbn in Hcut. apply Z.eqb_eq in Hcut. congruence. }
  unfold ctx_rel in Hrel.
  destruct (s_ctx s) eqn:Es; try (destruct Hrel as (_ & Hx & _); done); try (destruct Hrel as ((_ & Hx & _) & _); done); try done.
  all: split; [cbn; congruence|]; split; [done|]; unfold ctx_rel; rewrite Es.
  - destruct Hrel as (Hf & ? & ? & ? & ?). split; [by split; [apply Hf|]|]. do 3 (split; [done|]).
    apply collected_kept; [done|by apply Hz].
  - destruct Hrel as (Hn & Ht). by split; [apply Hnm|].
  - destruct Hrel as (Hn & off & Ho & Hq). split; [by apply Hnm|]. exists off. split; [done|].
    apply collected_kept; [done|by apply Hz].
  - destruct Hrel as (Hn & off & off2 & Ho & Hv & Hs & Hq). split; [by apply Hnm|]. exists off, off2.
    do 2 (split; [done|]). split; [by apply Hst|]. apply collected_kept; [done|by apply Hz].
  - destruct Hrel as (Hn & off & off2 & Ho & Hv & Hs & Hq). split; [by apply Hnm|]. exists off, off2.
    do 2 (split; [done|]). split; [by apply Hst|]. apply collected_kept; [done|by apply Hz].
  - destruct Hrel as (Hn & Ho & Hk). by split; [apply Hnm|].
Qed.

Lemma between_idle buf l s :
  context (prs l) = s_ctx s → base buf l s → ctx_rel buf l s → clean_cut s = true → stack_old l = -1 →
  between (prs l) (match s_ctx s with C_CDATA | C_SECT_CDATA_C => s_settext s [] | _ => s end).
Proof.
  intros Hctx Hb Hrel Hcut Hso u. assert (Hum := b_umax _ _ _ Hb).
  assert (Hbase : base [] (mk_loc (prs l) u 0 0 (-1)) s).
  { destruct Hb. split; try done. unfold bounds, strlen. cbn [pos old stack_old]. lia. }
  assert (Hz : collecting (s_ctx s) = true → uni_max (prs l) = 0).
  { intros E. unfold clean_cut in Hcut. rewrite E in Hcut. cbn in Hcut. apply Z.eqb_eq in Hcut. congruence. }
  assert (Hk : ∀ off t, collected buf l off t → uni_max (prs l) = 0 → collected [] (mk_loc (prs l) u 0 0 (-1)) off t).
  { intros off t (K1 & K2 & K3 & _) K4. split; [done|]. split; [|split; [done|cbn; lia]].
    unfold pend in *. rewrite Hso in K2. exact K2. }
  assert (Hid : idle l s → idle (mk_loc (prs l) u 0 0 (-1)) s) by (intros (? & ? & ? & ?); by split_and!).
  unfold ctx_rel in Hrel. destruct (s_ctx s) eqn:Es; try done.
  all: split; [cbn; congruence|]; split; [first [done | destruct Hbase; by split]|]; unfold ctx_rel; cbn [s_ctx s_settext]; rewrite Es.
  all: try (by apply Hid).
  - destruct Hrel as [Hi _]. split; [by apply Hid|done].
  - destruct Hrel as (Hi & Hf & Ht). split; [by apply Hid|done].
  - destruct Hrel as (Hf & ? & ? & ? & ?). do 4 (split; [done|]). apply Hk; [done|by apply Hz].
  - destruct Hrel as (Hn & Ht). done.
  - destruct Hrel as (Hn & off & Ho & Hq). split; [done|]. exists off. split; [done|]. apply Hk; [done|by apply Hz].
  - destruct Hrel as (Hn & _ & off & Ho & Hq). split; [done|]. split; [done|]. by exists off.
  - destruct Hrel as (Hn & off & off2 & Ho & Hv & Hs & Hq). split; [done|]. exists off, off2.
    do 3 (split; [done|]). apply Hk; [done|by apply Hz].
  - destruct Hrel as (Hn & off & off2 & Ho & Hv & Hs & Hq). split; [done|]. exists off, off2.
    do 3 (split; [done|]). apply Hk; [done|by apply Hz].
  - done.
  - destruct Hrel as (Hi & ?). split; [by apply Hid|done].
  - destruct Hrel as [Hi _]. split; [by apply Hid|done].
Qed.

Lemma fine_of_waiting buf l s : ctx_rel buf l s → stack_old l ≠ -1 → stack_fine (prs l).
Proof.
  unfold ctx_rel. intros Hrel Hso.
  destruct (s_ctx s); try (destruct Hrel as (_ & Hx & _); done); try (destruct Hrel as ((_ & Hx & _) & _); done); try done.
  all: try (destruct Hrel as [[Hf _] _]; exact Hf). all: apply Hrel.
Qed.

Lemma push_rest buf l s :
  rel buf l s →
  ∃ p, (if stack_old l =? -1 then Done (true, prs l)
        else b ← bytes_between buf (stack_old l) (pos l); STACK_PUSH (prs l) b) = Done (true, p) ∧
    context p = s_ctx s ∧
    (clean_cut s = true → between p (match s_ctx s with C_CDATA | C_SECT_CDATA_C => s_settext s [] | _ => s end)).
Proof.
  intros (Hctx & Hb & Hrel). destruct (b_bounds _ _ _ Hb) as (B1 & B2 & B3).
  destruct (Z.eqb_spec (stack_old l) (-1)) as [E|E].
  - exists (prs l). split; [done|]. split; [done|]. intros. by eapply between_idle.
  - rewrite between_done by lia. pose proof (fine_of_waiting _ _ _ Hrel E) as Hf.
    destruct (STACK_PUSH_done (prs l) (sub buf (stack_old l) (pos l)) Hf) as (m & Em & H1 & H2).
    assert (Hpend : sub buf (stack_old l) (pos l) = pend buf l)
      by (unfold pend; by rewrite (proj2 (Z.eqb_neq _ _) E)).
    rewrite Hpend in *. eexists. split; [exact Em|]. split; [done|]. intros. by apply between_pushed.
Qed.

(** An error is not [IKS_OK]. *)
Definition honest (r : sres (U := U)) : Prop :=
  match r with Done (_, _, Some e) => e ≠ IKS_OK | _ => True end.

Lemma honest_deliver s u b k : (∀ u, honest (k u)) → honest (deliver s u b k).
Proof.
  intros Hk. unfold deliver. destruct cdataHook as [f|]; [|done]. destruct (f u b) as [[err u']|]; [|done].
  cbn. by destruct (decide (err = IKS_OK)).
Qed.

Lemma honest_finish s u : honest (finish_tag s u).
Proof.
  unfold finish_tag. destruct tagHook as [f|]; [|done].
  destruct (f u (s_name s) (s_atts s) (s_type s)) as [[err u']|] eqn:E; cbn; rewrite ?E; [|done].
  cbn. by destruct (decide (err = IKS_OK)).
Qed.

Lemma honest_byte s u c : honest (spec_byte s u c).
Proof.
  unfold spec_byte, spec_ascii, at_tag_end, at_attribute, at_attribute_2, at_value_in, at_expect, start_attribute,
    deliver_text, bad.
  repeat match goal with
  | |- honest (finish_tag _ _) => apply honest_finish
  | |- honest (deliver _ _ _ _) => apply honest_deliver; intros
  | |- honest (match ?x with _ => _ end) => destruct x
  end; done.
Qed.

Lemma honest_loop buf : ∀ s u, honest (spec_loop s u buf).
Proof.
  induction buf as [|c buf IH]; intros s u; [done|]. cbn [spec_loop].
  pose proof (honest_byte s u c) as Hh. destruct (spec_byte s u c) as [[[s1 u1] [e|]]|]; [done| |done]. apply IH.
Qed.

(** [sax_core] does what the machine does on a buffer. *)
Lemma sax_core_sim p s u buf :
  between p s → Forall is_byte buf →
  match spec_core s u buf with
  | Fault => True
  | Done (err, s', u') =>
      ∃ p', sax_core p u buf = Done (err, p', u') ∧ (err = IKS_OK → clean_cut s' = true → between p' s')
  end.
Proof.
  intros Hbt Hby. unfold spec_core, sax_core.
  pose proof (sim_loop buf buf (mk_loc p u 0 0 (-1)) s (between_start p s u buf Hbt)) as Hl.
  cbn [pos user] in Hl. change (Z.to_nat 0) with 0%nat in Hl. rewrite drop_0 in Hl. specialize (Hl eq_refl Hby).
  pose proof (honest_loop buf s u) as Hh.
  destruct (spec_loop s u buf) as [[[s1 u1] e]|]; [|done]. cbn.
  destruct Hl as (l1 & -> & <- & Hrel). cbn. destruct e as [e|].
  { exists (prs l1). by split; [|intros ->]. }
  specialize (Hrel eq_refl). destruct (push_rest buf l1 s1 Hrel) as (p' & Ep & Hctx & Hbetw).
  unfold sax_rest. rewrite Ep. cbn [mbind exec_bind negb]. cbv beta iota. rewrite Hctx.
  destruct Hrel as (_ & Hb & Hcr). destruct (b_bounds _ _ _ Hb) as (B1 & B2 & B3).
  destruct (bool_decide_reflect (s_ctx s1 = C_CDATA ∨ s_ctx s1 = C_SECT_CDATA_C)) as [Ht|Ht]; cbn [andb].
  - assert (Htext : sub buf (old l1) (pos l1) = s_text s1)
      by (unfold ctx_rel in Hcr; destruct Ht as [Ht|Ht]; rewrite Ht in Hcr; apply Hcr).
    assert (Hcut : clean_cut s1 = true) by (unfold clean_cut; by destruct Ht as [->| ->]).
    assert (Hend : between p' (s_settext s1 [])) by (specialize (Hbetw Hcut); by destruct Ht as [E|E]; rewrite E in Hbetw).
    pose proof (sub_length buf (old l1) (pos l1) ltac:(lia) ltac:(lia)) as Hlen. rewrite Htext in Hlen.
    destruct (Z.ltb_spec (old l1) (pos l1)) as [Hlt|Hge].
    + destruct (s_text s1) as [|b t] eqn:Et; [change (strlen []) with 0 in Hlen; lia|].
      rewrite between_done, Htext by lia. destruct cdataHook as [f|]; [|by exists p'].
      cbn. destruct (f (user l1) (b :: t)) as [[err u']|]; [|done]. cbn. by exists p'.
    + assert (s_text s1 = []) as -> by (destruct (s_text s1); [done|unfold strlen in Hlen; cbn in Hlen; lia]).
      destruct cdataHook; by exists p'.
  - exists p'. split; [done|]. intros _ Hcut. specialize (Hbetw Hcut).
    destruct (s_ctx s1); try done; exfalso; apply Ht; auto.
Qed.

Lemma sax_chunks_sim : ∀ bufs p s u,
  between p s → Forall (Forall is_byte) bufs →
  match spec_chunks s u bufs with
  | Fault => True
  | Done (err, s', u') =>
      ∃ p', sax_chunks p u bufs = Done (err, p', u') ∧ (err = IKS_OK → between p' s')
  end.
Proof.
  induction bufs as [|b bufs IH]; intros p s u Hbt Hby; cbn [spec_chunks sax_chunks]; [by exists p|].
  apply Forall_cons in Hby as [Hb Hby].
  pose proof (sax_core_sim p s u b Hbt Hb) as Hs. destruct (spec_core s u b) as [[[err s1] u1]|]; [|done].
  destruct Hs as (p1 & -> & Hnext). cbn. destruct (decide (err = IKS_OK)) as [->|Hne]; [|by exists p1; split; [|intros ->]].
  destruct (clean_cut s1) eqn:Hcut; [|done]. apply IH; [by apply Hnext|done].
Qed.
End refine.
