(* ===== verification/SaxTheorems.v ===== *)
(** * Theorems about the SAX parser

    The refinement of [SaxSpec] by [sax_core], and its consequence for a
    document that arrives in pieces: a client that only appends character data
    cannot tell where the pieces end. *)

From S2P Require Import Prelude Sax SaxSpec SaxRefine.

Local Open Scope Z_scope.

(** What a client promises to the parser: character data may be delivered in
    one call or in two. *)
Class CdataAppends (U : Type) `{SaxClient U} : Prop :=
  cdata_appends : ∀ f, cdataHook = Some f → ∀ u a b, a ≠ [] → b ≠ [] →
    f u (a ++ b) = ('(e, u1) ← f u a; if decide (e = IKS_OK) then f u1 b else Done (e, u1)).

Section chunking.
Context {U : Type} `{CdataAppends U}.
Implicit Types (s : sp) (u : U).

(** Text delivered without an error. *)
Definition delivered u (t : list Z) u' : Prop :=
  match cdataHook with None => u' = u | Some f => f u t = Done (IKS_OK, u') end.

(** The same run, with the text [t0] delivered ([s], [u]) and still pending. *)
Definition delayed sd (ud : U) s u : Prop :=
  (sd = s ∧ ud = u) ∨
  ((s_ctx s = C_CDATA ∨ s_ctx s = C_SECT_CDATA_C) ∧
   ∃ t0, t0 ≠ [] ∧ sd = s_settext s (t0 ++ s_text s) ∧ delivered ud t0 u).

Lemma deliver_delayed ud u s sd t0 t k r :
  t0 ≠ [] → delivered ud t0 u → s_text s = t → s_text sd = t0 ++ t →
  deliver_text s u k = Done r → r.2 = None → deliver_text sd ud k = Done r.
Proof.
  intros Hne Hd Ht Htd E Hr. unfold deliver_text, deliver, delivered in *. rewrite Ht in E. rewrite Htd.
  pose proof (cdata_appends) as Happ. destruct t0 as [|x t0]; [done|]. cbn [app].
  destruct cdataHook as [f|]; [|rewrite Hd in E; by destruct t].
  change (x :: t0 ++ t) with ((x :: t0) ++ t). destruct t as [|y t].
  - rewrite app_nil_r, Hd. cbn. by destruct (decide (IKS_OK = IKS_OK)).
  - rewrite (Happ f eq_refl) by done. rewrite Hd. cbn. destruct (decide (IKS_OK = IKS_OK)); [|done].
    destruct (f u (y :: t)) as [[err u']|]; [|done]. cbn in *. destruct (decide (err = IKS_OK)); [done|].
    by simplify_eq.
Qed.

Lemma delayed_byte sd ud s u c s' u' :
  delayed sd ud s u → spec_byte s u c = Done (s', u', None) →
  ∃ sd' ud', spec_byte sd ud c = Done (sd', ud', None) ∧ delayed sd' ud' s' u'.
Proof.
  intros [[-> ->]|(Hctx & t0 & Hne & -> & Hd)] E; [by exists s', u'; split; [|left]|].
  assert (Hlater : ∀ m k, u' = u → s' = collect (s_setuni s m k) c →
    delayed (collect (s_setuni (s_settext s (t0 ++ s_text s)) m k) c) ud s' u').
  { intros m k -> ->. right. unfold collect. cbn [s_ctx s_setuni s_settext].
    split; [destruct Hctx as [Hc|Hc]; rewrite Hc; cbn; auto|].
    exists t0. split; [done|]. split; [|done].
    destruct Hctx as [->| ->]; cbn; by rewrite <-app_assoc. }
  unfold spec_byte in *. destruct (_ || _); [discriminate|]. cbn [s_umax s_ulen s_settext].
  destruct (negb (s_umax s =? 0)).
  { destruct (negb _); [discriminate|]. simplify_eq. eexists _, _. split; [reflexivity|]. by apply Hlater. }
  destruct (negb (Z.land c 128 =? 0)).
  { destruct (lead_byte c) as [[max mask]|]; [|discriminate]. destruct (_ =? 0); [discriminate|].
    simplify_eq. eexists _, _. split; [reflexivity|]. by apply Hlater. }
  assert (Hkeep : s' = collect s c → u' = u →
    delayed (collect (s_settext s (t0 ++ s_text s)) c) ud s' u').
  { intros Hs Hu. specialize (Hlater (s_umax s) (s_ulen s) Hu).
    replace (s_setuni s (s_umax s) (s_ulen s)) with s in Hlater by (by destruct s).
    replace (s_setuni (s_settext s (t0 ++ s_text s)) (s_umax s) (s_ulen s))
      with (s_settext s (t0 ++ s_text s)) in Hlater by (by destruct s). by apply Hlater. }
  unfold spec_ascii in *. cbn [s_ctx s_settext].
  assert (Hdel : ∀ k, (∀ r, k u' = Done r → r.2 = None) → deliver_text s u k = Done (s', u', None) →
    deliver_text (s_settext s (t0 ++ s_text s)) ud k = Done (s', u', None)).
  { intros k _ Ek. by apply (deliver_delayed ud u s _ t0 (s_text s)). }
  destruct Hctx as [Hc|Hc]; rewrite Hc in *.
  - destruct (c =? 38); [|destruct (c =? 60)].
    + exists s', u'. split; [|by left]. apply Hdel; [by intros r [= <-]|exact E].
    + exists s', u'. split; [|by left]. apply Hdel; [by intros r [= <-]|exact E].
    + simplify_eq. eexists _, _. split; [reflexivity|]. by apply Hkeep.
  - destruct (c =? 93).
    + exists s', u'. split; [|by left]. apply Hdel; [by intros r [= <-]|exact E].
    + simplify_eq. eexists _, _. split; [reflexivity|]. by apply Hkeep.
Qed.

Lemma delayed_loop buf : ∀ sd ud s u s' u',
  delayed sd ud s u → spec_loop s u buf = Done (s', u', None) →
  ∃ sd' ud', spec_loop sd ud buf = Done (sd', ud', None) ∧ delayed sd' ud' s' u'.
Proof.
  induction buf as [|c buf IH]; intros sd ud s u s' u' Hd E; cbn [spec_loop] in *.
  { simplify_eq. by exists sd, ud. }
  destruct (spec_byte s u c) as [[[s1 u1] [e|]]|] eqn:E1; [done| |done].
  destruct (delayed_byte _ _ _ _ _ _ _ Hd E1) as (sd1 & ud1 & -> & Hd1). cbn in *. by eapply IH.
Qed.

Lemma spec_loop_app a : ∀ s u b s1 u1,
  spec_loop s u a = Done (s1, u1, None) → spec_loop s u (a ++ b) = spec_loop s1 u1 b.
Proof.
  induction a as [|c a IH]; intros s u b s1 u1 E; cbn [spec_loop app] in *; [by simplify_eq|].
  destruct (spec_byte s u c) as [[[s2 u2] [e|]]|]; [done| |done]. cbn in *. by apply IH.
Qed.

(** A buffer that is parsed without an error, and what is left of it. *)
Lemma spec_core_ok s u buf s' u' :
  spec_core s u buf = Done (IKS_OK, s', u') →
  ∃ s1 u1, spec_loop s u buf = Done (s1, u1, None) ∧
    if bool_decide (s_ctx s1 = C_CDATA ∨ s_ctx s1 = C_SECT_CDATA_C)
    then s' = s_settext s1 [] ∧ (if decide (s_text s1 = []) then u' = u1 else delivered u1 (s_text s1) u')
    else s' = s1 ∧ u' = u1.
Proof.
  unfold spec_core. pose proof (honest_loop buf s u) as Hh.
  destruct (spec_loop s u buf) as [[[s1 u1] [e|]]|]; cbn; [by intros [= -> _ _]| |done].
  destruct (bool_decide _) eqn:Hb.
  - unfold delivered. destruct cdataHook as [f|].
    + destruct (s_text s1) as [|x t] eqn:Et.
      * intros [= <- <-]. exists s1, u1. split; [done|]. rewrite Hb, Et. by destruct (decide _).
      * destruct (f u1 (x :: t)) as [[e u2]|] eqn:Ef; [|done]. cbn. intros [= -> <- <-].
        exists s1, u1. split; [done|]. rewrite Hb, Et. by destruct (decide _).
    + intros [= <- <-]. exists s1, u1. split; [done|]. rewrite Hb. by destruct (decide _).
  - intros [= <- <-]. exists s1, u1. split; [done|]. by rewrite Hb.
Qed.

Lemma spec_core_intro s u buf s1 u1 s' u' :
  spec_loop s u buf = Done (s1, u1, None) →
  (if bool_decide (s_ctx s1 = C_CDATA ∨ s_ctx s1 = C_SECT_CDATA_C)
   then s' = s_settext s1 [] ∧ (if decide (s_text s1 = []) then u' = u1 else delivered u1 (s_text s1) u')
   else s' = s1 ∧ u' = u1) →
  spec_core s u buf = Done (IKS_OK, s', u').
Proof.
  intros E Hf. unfold spec_core. rewrite E. cbn. destruct (bool_decide _).
  - destruct Hf as [-> Hf]. unfold delivered in Hf. destruct (decide _) as [Ht|Ht].
    + rewrite Ht, Hf. by destruct cdataHook.
    + destruct cdataHook as [f|]; [|by rewrite Hf]. destruct (s_text s1); [done|]. by rewrite Hf.
  - by destruct Hf as [-> ->].
Qed.

(** Two buffers are one. *)
Lemma spec_core_join s u a b s1 u1 s2 u2 :
  spec_core s u a = Done (IKS_OK, s1, u1) → spec_core s1 u1 b = Done (IKS_OK, s2, u2) →
  spec_core s u (a ++ b) = Done (IKS_OK, s2, u2).
Proof.
  intros (sa & ua & Ea & Ha)%spec_core_ok (sb & ub & Eb & Hb)%spec_core_ok.
  assert (Hd : delayed sa ua s1 u1).
  { destruct (bool_decide_reflect (s_ctx sa = C_CDATA ∨ s_ctx sa = C_SECT_CDATA_C)) as [Ht|_];
      [|left; by destruct Ha]. destruct Ha as [-> Ha]. destruct (decide (s_text sa = [])) as [Ht0|Ht0].
    - left. subst u1. split; [|done]. destruct sa; cbn in *; by subst.
    - right. split; [done|]. exists (s_text sa). split; [done|]. split; [|done]. cbn. rewrite app_nil_r. by destruct sa. }
  destruct (delayed_loop _ _ _ _ _ _ _ Hd Eb) as (sd & ud & Ed & Hdd).
  eapply spec_core_intro; [rewrite (spec_loop_app _ _ _ _ _ _ Ea); exact Ed|].
  destruct Hdd as [[-> ->]|(Ht & t0 & Hne & -> & Hdel)]; [done|]. cbn [s_ctx s_settext s_text].
  rewrite bool_decide_true in Hb |- * by done. destruct Hb as [-> Hb]. split; [done|].
  destruct (decide (t0 ++ s_text sb = [])) as [E0|_]; [by apply app_nil in E0 as [-> _]|].
  destruct (decide (s_text sb = [])) as [->|Hnb]; [subst u2; by rewrite app_nil_r|].
  pose proof cdata_appends as Happ. unfold delivered in *. destruct cdataHook as [f|]; [|congruence].
  rewrite (Happ f eq_refl) by done. rewrite Hdel. cbn. by destruct (decide _).
Qed.

Lemma spec_chunks_join : ∀ bufs s u s' u',
  bufs ≠ [] → spec_chunks s u bufs = Done (IKS_OK, s', u') →
  spec_core s u (concat bufs) = Done (IKS_OK, s', u').
Proof.
  induction bufs as [|b bufs IH]; intros s u s' u' Hne E; [done|]. cbn [spec_chunks concat] in *.
  destruct (spec_core s u b) as [[[err s1] u1]|] eqn:E1; [|done]. cbn in E.
  destruct (decide (err = IKS_OK)) as [->|]; [|simplify_eq; done].
  destruct (clean_cut s1); [|done]. destruct bufs as [|b2 bufs].
  - cbn in E. simplify_eq. by rewrite app_nil_r.
  - eapply spec_core_join; [exact E1|]. by apply IH.
Qed.
End chunking.

(** ** A client that records

    It keeps the tags and the text between them, as one piece of text. *)
Inductive event : Type :=
| Tag (name : list Z) (atts : list (list Z * list Z)) (type : ikstagtype)
| Text (t : list Z).

(** The latest event comes first. *)
Definition record_cdata (u : list event) (b : list Z) : exec (ikserror * list event) :=
  match u with
  | Text t :: u' => Done (IKS_OK, Text (t ++ b) :: u')
  | _ => Done (IKS_OK, Text b :: u)
  end.

#[export] Instance recorder : SaxClient (list event) := {|
  tagHook := Some (λ u n a t, Done (IKS_OK, Tag n a t :: u));
  cdataHook := Some record_cdata |}.

#[export] Instance recorder_appends : CdataAppends (list event).
Proof.
  intros f [= <-] u a b Ha Hb. unfold record_cdata.
  destruct u as [|[n l t|t] u]; cbn; try done. by rewrite app_assoc.
Qed.

Definition parse_events (bufs : list (list Z)) : exec (ikserror * list event) :=
  '(err, _, u) ← sax_chunks (iks_sax_new []) [] bufs; Done (err, rev u).

(** ** Theorems *)

(** C1 (refinement): whatever the client, on every input and every cut of it for which
    the byte machine is defined, successive calls of [iks_parse] on a fresh parser make
    no access outside the stack, the entity buffer and the attribute array, and return
    what the byte machine returns: the same error code, after the same calls of the
    hooks with the same arguments.  The machine is defined unless a tag ends with
    twelve attributes or a multiple of that (the code then writes behind its array,
    [sax_twelve_attributes]), a buffer ends inside a character of several bytes of a
    name or a value (the code then loses the rest of it, [sax_split_character]), or a
    hook of the client is a fault. *)
Theorem sax_refines {U : Type} `{SaxClient U} (bufs : list (list Z)) (u u' : U) err s' :
  Forall (Forall is_byte) bufs → spec_chunks sp_init u bufs = Done (err, s', u') →
  ∃ p', sax_chunks (iks_sax_new []) u bufs = Done (err, p', u').
Proof.
  intros Hby E. pose proof (sax_chunks_sim bufs (iks_sax_new []) sp_init u between_new Hby) as Hs.
  rewrite E in Hs. destruct Hs as (p' & Hp & _). by exists p'.
Qed.

Lemma sax_refines_witness :
  ∃ p', sax_chunks (iks_sax_new []) ([] : list event) [bs "<a b='1'>x&lt;"; bs "y</a>"]
    = Done (IKS_OK, p', rev [Tag (bs "a") [(bs "b", bs "1")] IKS_OPEN; Text (bs "x<y"); Tag (bs "a") [] IKS_CLOSE]).
Proof.
  eapply (sax_refines [bs "<a b='1'>x&lt;"; bs "y</a>"] ([] : list event));
    [repeat constructor; unfold is_byte; lia|vm_compute; reflexivity].
Defined.

(** C2 (equivalence): to a client that appends character data it makes no
    difference in which pieces a document arrives, as long as no piece ends
    inside a character of several bytes of a name or a value and no tag has twelve
    attributes or a multiple of that: a document that is accepted piece
    by piece is accepted in one buffer, with the same final state of the
    client. *)
Theorem sax_chunking {U : Type} `{CdataAppends U} (bufs : list (list Z)) (u u' : U) s' :
  bufs ≠ [] → Forall (Forall is_byte) bufs → spec_chunks sp_init u bufs = Done (IKS_OK, s', u') →
  ∃ p1 p2, sax_chunks (iks_sax_new []) u bufs = Done (IKS_OK, p1, u') ∧
    sax_core (iks_sax_new []) u (concat bufs) = Done (IKS_OK, p2, u').
Proof.
  intros Hne Hby E.
  pose proof (sax_chunks_sim bufs (iks_sax_new []) sp_init u between_new Hby) as Hs.
  rewrite E in Hs. destruct Hs as (p1 & Hp1 & _).
  pose proof (sax_core_sim (iks_sax_new []) sp_init u (concat bufs) between_new) as Hs.
  rewrite (spec_chunks_join _ _ _ _ _ Hne E) in Hs.
  destruct Hs as (p2 & Hp2 & _); [by apply Forall_concat|]. by exists p1, p2.
Qed.

Lemma sax_chunking_witness :
  ∃ p1 p2, sax_chunks (iks_sax_new []) ([] : list event) [bs "<a b="; bs "'1'>x&l"; bs "t;y</a>"]
    = Done (IKS_OK, p1, rev [Tag (bs "a") [(bs "b", bs "1")] IKS_OPEN; Text (bs "x<y"); Tag (bs "a") [] IKS_CLOSE]) ∧
  sax_core (iks_sax_new []) ([] : list event) (bs "<a b='1'>x&lt;y</a>")
    = Done (IKS_OK, p2, rev [Tag (bs "a") [(bs "b", bs "1")] IKS_OPEN; Text (bs "x<y"); Tag (bs "a") [] IKS_CLOSE]).
Proof.
  eapply (sax_chunking [bs "<a b="; bs "'1'>x&l"; bs "t;y</a>"] ([] : list event));
    [done|repeat constructor; unfold is_byte; lia|vm_compute; reflexivity].
Defined.

(** A byte that opens a character of three or four bytes is refused
    when its own payload bits are zero.  So E0 and F0 end a document, although
    UTF-8 uses them for U+0800..U+0FFF and U+10000..U+3FFFF. *)
Theorem sax_refuses_lead_bytes {U : Type} `{SaxClient U} (buf : list Z) (l : loc (U := U)) (c : Z) :
  uni_max (prs l) = 0 → c = 0xE0 ∨ c = 0xF0 →
  ∃ l', sax_turn buf l c = Done (l', Ret IKS_BADXML).
Proof.
  intros Hu Hc. unfold sax_turn, sax_unicode. cbv zeta. rewrite Hu. by destruct Hc as [->| ->]; eexists.
Qed.

Lemma sax_refuses_lead_bytes_witness :
  ∃ l', sax_turn [0xE0; 0xA0; 0x80] (mk_loc (iks_sax_new []) ([] : list event) 0 0 (-1)) 0xE0
        = Done (l', Ret IKS_BADXML).
Proof. apply (sax_refuses_lead_bytes [0xE0; 0xA0; 0x80]); [reflexivity|by left]. Defined.

(** A tag with [n] attributes. *)
Definition tag_with (n : nat) : list Z := bs "<a" ++ concat (replicate n (bs " b='1'")) ++ bs ">".

(** A tag with exactly twelve attributes makes the parser store the
    terminating null pointer behind the array of 24 pointers; with eleven or
    thirteen it does not. *)
Theorem sax_twelve_attributes :
  parse_events [tag_with 12] = Fault ∧
  parse_events [tag_with 11] = Done (IKS_OK, [Tag (bs "a") (replicate 11 (bs "b", bs "1")) IKS_OPEN]) ∧
  parse_events [tag_with 13] = Done (IKS_OK, [Tag (bs "a") (replicate 13 (bs "b", bs "1")) IKS_OPEN]).
Proof. vm_compute. done. Qed.

(** A buffer that ends inside a character of an attribute value
    loses the rest of that character: the value is one byte, where the document
    in one buffer has two. *)
Theorem sax_split_character :
  parse_events [bs "<a b='" ++ [0xC3]; [0xA9] ++ bs "'/>"]
    = Done (IKS_OK, [Tag (bs "a") [(bs "b", [0xC3])] IKS_SINGLE]) ∧
  parse_events [bs "<a b='" ++ [0xC3; 0xA9] ++ bs "'/>"]
    = Done (IKS_OK, [Tag (bs "a") [(bs "b", [0xC3; 0xA9])] IKS_SINGLE]).
Proof. vm_compute. done. Qed.
