(* ===== verification/Dom.v ===== *)
(** * The document tree

    [src/sysapps/apps/cgi2/app/jabberlog/iks.c]: nodes linked by [next],
    [prev], [parent], [children] and [attribs], as the code links them, in a
    heap of nodes.  A node's block has one of three shapes ([iks_tag],
    [iks_cdata], [iks_attrib]); using a field that the shape does not have, or
    following a pointer to no node, is a [Fault].  The memory pools are those of [IkStack]:
    a node belongs to the pool it was allocated from, strings are handed out by
    [iks_stack_strdup] and [iks_stack_strcat] and keep their value
    ([IkStack.pool_strings]), and deleting a node deletes its pool.  [hmem]
    foretells the allocations as in [Sax]. *)

From S2P Require Import Prelude XmlText.

Local Open Scope Z_scope.

Inductive ikstype : Type := IKS_NONE | IKS_TAG | IKS_ATTRIBUTE | IKS_CDATA.

#[export] Instance ikstype_eq_dec : EqDecision ikstype.
Proof. solve_decision. Defined.

Abbreviation ptr := (option nat).
Abbreviation str := (list Z).

(** What lies behind the common part of a node. *)
Inductive body : Type :=
| BTag (children last_child attribs last_attrib : ptr) (name : option str)
| BCdata (cdata : option str) (len : Z)
| BAttrib (name value : option str).

Record iks : Type := mk_iks {
  next : ptr; prev : ptr; parent : ptr; ntype : ikstype; pool : nat; body_ : body }.

Record heap : Type := mk_heap {
  nodes : gmap nat iks; fresh : nat; fresh_pool : nat; hmem : list bool }.

(** ** Access *)

Definition get (h : heap) (x : nat) : exec iks :=
  match nodes h !! x with Some n => Done n | None => Fault end.

Definition put (h : heap) (x : nat) (n : iks) : heap :=
  mk_heap (<[x := n]> (nodes h)) (fresh h) (fresh_pool h) (hmem h).

Definition set_next (n : iks) (p : ptr) : iks := mk_iks p (prev n) (parent n) (ntype n) (pool n) (body_ n).
Definition set_prev (n : iks) (p : ptr) : iks := mk_iks (next n) p (parent n) (ntype n) (pool n) (body_ n).
Definition set_parent (n : iks) (p : ptr) : iks := mk_iks (next n) (prev n) p (ntype n) (pool n) (body_ n).
Definition set_type (n : iks) (t : ikstype) : iks := mk_iks (next n) (prev n) (parent n) t (pool n) (body_ n).
Definition set_body (n : iks) (b : body) : iks := mk_iks (next n) (prev n) (parent n) (ntype n) (pool n) b.

(** Changing a node in place. *)
Definition modify (h : heap) (x : nat) (f : iks → iks) : exec heap := n ← get h x; Done (put h x (f n)).

Definition tag_part (n : iks) : exec (ptr * ptr * ptr * ptr * option str) :=
  match body_ n with BTag c lc a la nm => Done (c, lc, a, la, nm) | _ => Fault end.
Definition cdata_part (n : iks) : exec (option str * Z) :=
  match body_ n with BCdata d l => Done (d, l) | _ => Fault end.
Definition attrib_part (n : iks) : exec (option str * option str) :=
  match body_ n with BAttrib k v => Done (k, v) | _ => Fault end.

(** The macros cast a node without looking at its type.  The first field
    behind the common part is [children], [cdata] or [name], the second
    [last_child], [len] or [value]: read through another shape, a null stays a
    null, and only [cdata] and an attribute's [name] are both strings. *)
Definition IKS_TAG_CHILDREN (h : heap) (x : nat) : exec ptr :=
  n ← get h x;
  match body_ n with
  | BTag c _ _ _ _ => Done c
  | BCdata None _ | BAttrib None _ => Done None
  | _ => Fault
  end.
Definition IKS_TAG_LAST_CHILD (h : heap) (x : nat) : exec ptr :=
  n ← get h x;
  match body_ n with
  | BTag _ lc _ _ _ => Done lc
  | BCdata _ l => if l =? 0 then Done None else Fault
  | BAttrib _ None => Done None
  | _ => Fault
  end.
Definition IKS_TAG_ATTRIBS (h : heap) (x : nat) : exec ptr :=
  n ← get h x; '(_, _, a, _, _) ← tag_part n; Done a.
Definition IKS_TAG_NAME (h : heap) (x : nat) : exec (option str) :=
  n ← get h x; '(_, _, _, _, nm) ← tag_part n; Done nm.
Definition IKS_ATTRIB_NAME (h : heap) (x : nat) : exec (option str) :=
  n ← get h x;
  match body_ n with
  | BAttrib k _ => Done k
  | BCdata d _ => Done d
  | BTag None _ _ _ _ => Done None
  | _ => Fault
  end.
Definition IKS_ATTRIB_VALUE (h : heap) (x : nat) : exec (option str) :=
  n ← get h x;
  match body_ n with
  | BAttrib _ v => Done v
  | BCdata _ l => if l =? 0 then Done None else Fault
  | BTag _ None _ _ _ => Done None
  | _ => Fault
  end.
Definition IKS_CDATA_CDATA (h : heap) (x : nat) : exec (option str) :=
  n ← get h x; '(d, _) ← cdata_part n; Done d.

(** A string that is used without a test must be there. *)
Definition deref {A} (o : option A) : exec A := match o with Some a => Done a | None => Fault end.

(** ** Allocation *)

(** The outcome of the next allocation. *)
Definition take_mem (h : heap) : bool * heap :=
  match hmem h with
  | [] => (true, h)
  | b :: m => (b, mk_heap (nodes h) (fresh h) (fresh_pool h) m)
  end.

(** [iks_stack_alloc] of a cleared node. *)
Definition alloc_node (h : heap) (n : iks) : option nat * heap :=
  let '(ok, h) := take_mem h in
  if ok then (Some (fresh h), mk_heap (<[fresh h := n]> (nodes h)) (S (fresh h)) (fresh_pool h) (hmem h))
  else (None, h).

(** [iks_stack_strdup]. *)
Definition dup (h : heap) (t : str) : option str * heap :=
  let '(ok, h) := take_mem h in (if ok then Some t else None, h).

Definition iks_stack_new (h : heap) : option nat * heap :=
  let '(ok, h) := take_mem h in
  if ok then (Some (fresh_pool h), mk_heap (nodes h) (fresh h) (S (fresh_pool h)) (hmem h)) else (None, h).

Definition stack_delete (h : heap) (p : nat) : heap :=
  mk_heap (filter (λ kn, pool kn.2 ≠ p) (nodes h)) (fresh h) (fresh_pool h) (hmem h).

(** ** Node creating and deleting *)

Definition iks_new_within (h : heap) (name : option str) (p : nat) : exec (ptr * heap) :=
  let b := match name with Some _ => BTag None None None None None | None => BCdata None 0 end in
  let '(x, h) := alloc_node h (mk_iks None None None IKS_TAG p b) in
  match x, name with
  | None, _ => Done (None, h)
  | Some x, None => Done (Some x, h)
  | Some x, Some nm =>
      let '(d, h) := dup h nm in
      h ← modify h x (λ n, set_body n (BTag None None None None d));
      Done (match d with Some _ => Some x | None => None end, h)
  end.

Definition iks_new (h : heap) (name : str) : exec (ptr * heap) :=
  let '(p, h) := iks_stack_new h in
  match p with
  | None => Done (None, h)
  | Some p =>
      '(x, h) ← iks_new_within h (Some name) p;
      Done (x, match x with Some _ => h | None => stack_delete h p end)
  end.

(** Appending [y] to the children of [x]. *)
Definition link_child (h : heap) (x y : nat) : exec heap :=
  h ← modify h y (λ n, set_parent n (Some x));
  n ← get h x;
  '(c, lc, a, la, nm) ← tag_part n;
  let c := match c with Some c => Some c | None => Some y end in
  let h := put h x (set_body n (BTag c lc a la nm)) in
  h ← match lc with
      | Some z => h ← modify h z (λ n, set_next n (Some y)); modify h y (λ n, set_prev n (Some z))
      | None => Done h
      end;
  n ← get h x;
  '(c, _, a, la, nm) ← tag_part n;
  Done (put h x (set_body n (BTag c (Some y) a la nm))).

Definition iks_insert (h : heap) (x : ptr) (name : option str) : exec (ptr * heap) :=
  match x with
  | None => Done (None, h)
  | Some x =>
      n ← get h x;
      '(y, h) ← iks_new_within h name (pool n);
      match y with
      | None => Done (None, h)
      | Some y => h ← link_child h x y; Done (Some y, h)
      end
  end.

(** [len = 0] stands for [strlen (data)]. *)
Definition iks_insert_cdata (h : heap) (x : ptr) (data : option str) (len : Z) : exec (ptr * heap) :=
  match x, data with
  | Some x, Some d =>
      let len := if len =? 0 then strlen d else len in
      t ← mread (d ++ [0]) 0 len;
      y ← IKS_TAG_LAST_CHILD h x;
      let fresh_node :=
        '(y, h) ← iks_insert h (Some x) None;
        match y with
        | None => Done (None, h)
        | Some y =>
            let '(v, h) := dup h t in
            h ← modify h y (λ n, set_body (set_type n IKS_CDATA) (BCdata v 0));
            match v with
            | None => Done (None, h)
            | Some _ => h ← modify h y (λ n, set_body n (BCdata v len)); Done (Some y, h)
            end
        end in
      match y with
      | Some y =>
          n ← get h y;
          if decide (ntype n = IKS_CDATA) then
            '(old, l) ← cdata_part n;
            let '(v, h) := dup h (default [] old ++ t) in
            Done (Some y, put h y (set_body n (BCdata v (l + len))))
          else fresh_node
      | None => fresh_node
      end
  | _, _ => Done (None, h)
  end.

(** The attribute called [name], from [y] on along [next]. *)
Fixpoint find_name (fuel : nat) (h : heap) (y : ptr) (name : str) : exec ptr :=
  match y, fuel with
  | None, _ => Done None
  | Some _, O => Fault
  | Some y, S fuel' =>
      n ← get h y;
      '(k, _) ← attrib_part n;
      k ← deref k;
      if strcmp name k =? 0 then Done (Some y) else find_name fuel' h (next n) name
  end.

(** No chain of siblings is longer than the heap. *)
Definition chain_fuel (h : heap) : nat := S (size (nodes h)).

Definition link_attrib (h : heap) (x y : nat) : exec heap :=
  n ← get h x;
  '(c, lc, a, la, nm) ← tag_part n;
  let a := match a with Some a => Some a | None => Some y end in
  let h := put h x (set_body n (BTag c lc a la nm)) in
  h ← match la with
      | Some z => h ← modify h z (λ n, set_next n (Some y)); modify h y (λ n, set_prev n (Some z))
      | None => Done h
      end;
  n ← get h x;
  '(c, lc, a, _, nm) ← tag_part n;
  Done (put h x (set_body n (BTag c lc a (Some y) nm))).

(** Taking the attribute [y] out of the list of [x]. *)
Definition unlink_attrib (h : heap) (x y : nat) : exec heap :=
  n ← get h y;
  h ← match next n with Some z => modify h z (λ m, set_prev m (prev n)) | None => Done h end;
  h ← match prev n with Some z => modify h z (λ m, set_next m (next n)) | None => Done h end;
  m ← get h x;
  '(c, lc, a, la, nm) ← tag_part m;
  let a := if decide (a = Some y) then next n else a in
  let la := if decide (la = Some y) then prev n else la in
  Done (put h x (set_body m (BTag c lc a la nm))).

Definition iks_insert_attrib (h : heap) (x : ptr) (name : str) (value : option str) : exec (ptr * heap) :=
  match x with
  | None => Done (None, h)
  | Some x =>
      a ← IKS_TAG_ATTRIBS h x;
      y ← find_name (chain_fuel h) h a name;
      let set_value y h :=
        match value with
        | Some v =>
            let '(d, h) := dup h v in
            n ← get h y;
            '(k, _) ← attrib_part n;
            let h := put h y (set_body n (BAttrib k d)) in
            Done (match d with Some _ => Some y | None => None end, h)
        | None => h ← unlink_attrib h x y; Done (Some y, h)
        end in
      match y with
      | Some y => set_value y h
      | None =>
          match value with
          | None => Done (None, h)
          | Some _ =>
              nx ← get h x;
              let '(y, h) := alloc_node h (mk_iks None None None IKS_ATTRIBUTE (pool nx) (BAttrib None None)) in
              match y with
              | None => Done (None, h)
              | Some y =>
                  let '(k, h) := dup h name in
                  h ← modify h y (λ n, set_body n (BAttrib k None));
                  match k with
                  | None => Done (None, h)
                  | Some _ =>
                      h ← modify h y (λ n, set_parent n (Some x));
                      h ← link_attrib h x y;
                      set_value y h
                  end
              end
          end
      end
  end.

Definition iks_insert_node (h : heap) (x y : nat) : exec (ptr * heap) :=
  h ← link_child h x y; Done (Some y, h).

Definition iks_hide (h : heap) (x : ptr) : exec heap :=
  match x with
  | None => Done h
  | Some x =>
      n ← get h x;
      h ← match prev n with Some z => modify h z (λ m, set_next m (next n)) | None => Done h end;
      h ← match next n with Some z => modify h z (λ m, set_prev m (prev n)) | None => Done h end;
      match parent n with
      | None => Done h
      | Some y =>
          m ← get h y;
          '(c, lc, a, la, nm) ← tag_part m;
          let c := if decide (c = Some x) then next n else c in
          let lc := if decide (lc = Some x) then prev n else lc in
          Done (put h y (set_body m (BTag c lc a la nm)))
      end
  end.

Definition iks_delete (h : heap) (x : ptr) : exec heap :=
  match x with None => Done h | Some x => n ← get h x; Done (stack_delete h (pool n)) end.

(** ** Traversing *)

Definition iks_next (h : heap) (x : ptr) : exec ptr :=
  match x with Some x => n ← get h x; Done (next n) | None => Done None end.

Definition iks_prev (h : heap) (x : ptr) : exec ptr :=
  match x with Some x => n ← get h x; Done (prev n) | None => Done None end.

(** The first tag from [x] on, along [step]. *)
Fixpoint seek_tag (fuel : nat) (step : iks → ptr) (h : heap) (x : ptr) : exec ptr :=
  match x, fuel with
  | None, _ => Done None
  | Some _, O => Fault
  | Some x, S fuel' =>
      n ← get h x;
      if decide (ntype n = IKS_TAG) then Done (Some x) else seek_tag fuel' step h (step n)
  end.

Definition iks_next_tag (h : heap) (x : ptr) : exec ptr :=
  match x with Some x => n ← get h x; seek_tag (chain_fuel h) next h (next n) | None => Done None end.

Definition iks_prev_tag (h : heap) (x : ptr) : exec ptr :=
  match x with Some x => n ← get h x; seek_tag (chain_fuel h) prev h (prev n) | None => Done None end.

Definition iks_parent (h : heap) (x : ptr) : exec ptr :=
  match x with Some x => n ← get h x; Done (parent n) | None => Done None end.

Fixpoint climb (fuel : nat) (h : heap) (x : nat) : exec nat :=
  n ← get h x;
  match parent n, fuel with
  | None, _ => Done x
  | Some _, O => Fault
  | Some y, S fuel' => climb fuel' h y
  end.

Definition iks_root (h : heap) (x : ptr) : exec ptr :=
  match x with Some x => r ← climb (chain_fuel h) h x; Done (Some r) | None => Done None end.

Definition iks_child (h : heap) (x : ptr) : exec ptr :=
  match x with
  | Some x => n ← get h x; if decide (ntype n = IKS_TAG) then IKS_TAG_CHILDREN h x else Done None
  | None => Done None
  end.

Definition iks_first_tag (h : heap) (x : ptr) : exec ptr :=
  match x with
  | Some x => c ← IKS_TAG_CHILDREN h x; seek_tag (chain_fuel h) next h c
  | None => Done None
  end.

Definition iks_attrib (h : heap) (x : ptr) : exec ptr :=
  match x with Some x => IKS_TAG_ATTRIBS h x | None => Done None end.

(** The first node from [y] on that passes the test. *)
Fixpoint seek (fuel : nat) (h : heap) (test : nat → iks → exec bool) (y : ptr) : exec ptr :=
  match y, fuel with
  | None, _ => Done None
  | Some _, O => Fault
  | Some y, S fuel' =>
      n ← get h y;
      b ← test y n;
      if (b : bool) then Done (Some y) else seek fuel' h test (next n)
  end.

Definition iks_find (h : heap) (x : ptr) (name : str) : exec ptr :=
  match x with
  | None => Done None
  | Some x =>
      c ← IKS_TAG_CHILDREN h x;
      seek (chain_fuel h) h (λ y n,
        if decide (ntype n = IKS_TAG) then
          nm ← IKS_TAG_NAME h y;
          Done (match nm with Some k => strcmp k name =? 0 | None => false end)
        else Done false) c
  end.

Definition iks_find_cdata (h : heap) (x : ptr) (name : str) : exec (option str) :=
  y ← iks_find h x name;
  match y with
  | None => Done None
  | Some y =>
      c ← IKS_TAG_CHILDREN h y;
      match c with
      | None => Done None
      | Some c => n ← get h c; if decide (ntype n = IKS_CDATA) then IKS_CDATA_CDATA h c else Done None
      end
  end.

Definition iks_find_attrib (h : heap) (x : ptr) (name : str) : exec (option str) :=
  match x with
  | None => Done None
  | Some x =>
      a ← IKS_TAG_ATTRIBS h x;
      y ← seek (chain_fuel h) h (λ y n,
        k ← IKS_ATTRIB_NAME h y;
        Done (match k with Some k => strcmp k name =? 0 | None => false end)) a;
      match y with Some y => IKS_ATTRIB_VALUE h y | None => Done None end
  end.

Definition iks_find_with_attrib (h : heap) (x : ptr) (tagname : option str) (attrname : str) (value : option str) :
    exec ptr :=
  match x with
  | None => Done None
  | Some x =>
      c ← IKS_TAG_CHILDREN h x;
      let has y := v ← iks_find_attrib h (Some y) attrname; Done (iks_strcmp v value =? 0) in
      seek (chain_fuel h) h (λ y n,
        if decide (ntype n = IKS_TAG) then
          match tagname with
          | Some t =>
              nm ← IKS_TAG_NAME h y; nm ← deref nm;
              if strcmp nm t =? 0 then has y else Done false
          | None => has y
          end
        else Done false) c
  end.

(** ** Information *)

Definition iks_stack (h : heap) (x : ptr) : exec (option nat) :=
  match x with Some x => n ← get h x; Done (Some (pool n)) | None => Done None end.

Definition iks_type (h : heap) (x : ptr) : exec ikstype :=
  match x with Some x => n ← get h x; Done (ntype n) | None => Done IKS_NONE end.

Definition iks_name (h : heap) (x : ptr) : exec (option str) :=
  match x with
  | Some x => n ← get h x; if decide (ntype n = IKS_TAG) then IKS_TAG_NAME h x else IKS_ATTRIB_NAME h x
  | None => Done None
  end.

Definition iks_cdata (h : heap) (x : ptr) : exec (option str) :=
  match x with
  | Some x => n ← get h x; if decide (ntype n = IKS_CDATA) then IKS_CDATA_CDATA h x else IKS_ATTRIB_VALUE h x
  | None => Done None
  end.

Definition iks_cdata_size (h : heap) (x : ptr) : exec Z :=
  match x with Some x => n ← get h x; '(_, l) ← cdata_part n; Done l | None => Done 0 end.

Definition iks_has_children (h : heap) (x : ptr) : exec bool :=
  match x with
  | Some x =>
      n ← get h x;
      if decide (ntype n = IKS_TAG) then c ← IKS_TAG_CHILDREN h x; Done (bool_decide (is_Some c)) else Done false
  | None => Done false
  end.

Definition iks_has_attribs (h : heap) (x : ptr) : exec bool :=
  match x with
  | Some x =>
      n ← get h x;
      if decide (ntype n = IKS_TAG) then a ← IKS_TAG_ATTRIBS h x; Done (bool_decide (is_Some a)) else Done false
  | None => Done false
  end.

(** ** Serialising

    The sizing and the copying pass of [iks_string] walk the tree with the same
    loop: down to the first child, along [next], and up when a list of children
    ends; [level] is the depth below the starting node and [dir] is 1 behind
    the end of a list.  What they do at a node is a parameter: [open] for a tag
    with its attributes, [mid] for the bracket that ends a start tag with
    children, [single] for one without, [text] and [close]. *)
Section walk.
Context {A : Type} (h : heap).
Context (open : A → str → list (str * str) → exec A) (mid single : A → exec A)
        (text : A → str → exec A) (close : A → str → exec A).

(** The attributes of a tag, as the inner loop finds them. *)
Fixpoint attrib_list (fuel : nat) (y : ptr) : exec (list (str * str)) :=
  match y, fuel with
  | None, _ => Done []
  | Some _, O => Fault
  | Some y, S fuel' =>
      n ← get h y;
      '(k, v) ← attrib_part n;
      k ← deref k; v ← deref v;
      r ← attrib_list fuel' (next n);
      Done ((k, v) :: r)
  end.

(** [close] of the tag [y]. *)
Definition close_tag (acc : A) (y : nat) : exec A :=
  nm ← IKS_TAG_NAME h y; nm ← deref nm; close acc nm.

(** The second half of the loop body: on to the next node. *)
Definition walk_leave (loop : A → nat → nat → bool → exec A) (acc : A) (y level : nat) : exec A :=
  n ← get h y;
  match next n with
  | Some z =>
      match level with
      | O =>
          c ← IKS_TAG_CHILDREN h y;
          match c with Some _ => close_tag acc y | None => Done acc end
      | S _ => loop acc z level false
      end
  | None =>
      match level with
      | O => Done acc
      | S l =>
          p ← deref (parent n);
          acc ← close_tag acc p;
          match l with O => Done acc | S _ => loop acc p l true end
      end
  end.

Fixpoint walk (fuel : nat) (acc : A) (y level : nat) (dir : bool) : exec A :=
  match fuel with
  | O => Fault
  | S fuel' =>
      if dir then walk_leave (walk fuel') acc y level else
      n ← get h y;
      if decide (ntype n = IKS_TAG) then
        '(c, _, a, _, nm) ← tag_part n;
        nm ← deref nm;
        ats ← attrib_list (chain_fuel h) a;
        acc ← open acc nm ats;
        match c with
        | Some c => acc ← mid acc; walk fuel' acc c (S level) false
        | None => acc ← single acc; walk_leave (walk fuel') acc y level
        end
      else
        '(d, l) ← cdata_part n;
        d ← deref d;
        t ← mread (d ++ [0]) 0 l;
        acc ← text acc t;
        walk_leave (walk fuel') acc y level
  end.
End walk.

(** [fuel] bounds the turns of the loop: two for every node are enough
    ([walk_top]). *)
Definition size_pass (fuel : nat) (h : heap) (x : nat) : exec Z :=
  walk h
    (λ sz nm ats, Done (fold_left (λ sz kv, sz + (4 + strlen kv.1 + escape_size kv.2)) ats (sz + 1 + strlen nm)))
    (λ sz, Done (sz + 1)) (λ sz, Done (sz + 2))
    (λ sz t, Done (sz + escape_size t))
    (λ sz nm, Done (sz + (3 + strlen nm)))
    fuel 0 x 0%nat false.

(** [ ], the name, [='], the escaped value and [']. *)
Definition put_attrib (cap : Z) (t : list Z) (kv : str * str) : exec (list Z) :=
  t ← emit cap t 32;
  t ← my_strcat cap t kv.1 0;
  t ← emit cap t 61;
  t ← emit cap t 39;
  t ← escape cap t kv.2;
  emit cap t 39.

Fixpoint put_attribs (cap : Z) (t : list Z) (ats : list (str * str)) : exec (list Z) :=
  match ats with [] => Done t | kv :: ats' => t ← put_attrib cap t kv; put_attribs cap t ats' end.

Definition copy_pass (fuel : nat) (h : heap) (cap : Z) (x : nat) : exec (list Z) :=
  walk h
    (λ t nm ats, t ← emit cap t 60; t ← my_strcat cap t nm 0; put_attribs cap t ats)
    (λ t, emit cap t 62) (λ t, t ← emit cap t 47; emit cap t 62)
    (λ t d, escape cap t d)
    (λ t nm, t ← emit cap t 60; t ← emit cap t 47; t ← my_strcat cap t nm 0; emit cap t 62)
    fuel [] x 0%nat false.

(** The result is the string, without its terminator; [have_stack] is false for
    a null [s].  Character data alone is copied as it is. *)
Definition iks_string (fuel : nat) (h : heap) (have_stack : bool) (x : ptr) : exec (option (list Z) * heap) :=
  match x with
  | None => Done (None, h)
  | Some x =>
      n ← get h x;
      if decide (ntype n = IKS_CDATA) then
        '(d, l) ← cdata_part n;
        let '(ok, h) := take_mem h in
        if (have_stack : bool) then
          match d with
          | None => Done (None, h)
          | Some d =>
              t ← mread (d ++ [0]) 0 (if l =? 0 then strlen d else l);
              Done (if ok then Some t else None, h)
          end
        else
          d ← deref d;
          t ← mread (d ++ [0]) 0 l;
          if (ok : bool) then Done (Some t, h) else Fault
      else
        size ← size_pass fuel h x;
        let '(ok, h) := take_mem h in
        if negb ok then Done (None, h) else
        t ← copy_pass fuel h (size + 1) x;
        t' ← emit (size + 1) t 0;
        Done (Some t, h)
  end.

(** ** Copying *)

Fixpoint copy_attribs (fuel : nat) (h : heap) (cur : ptr) (y : ptr) : exec heap :=
  match y, fuel with
  | None, _ => Done h
  | Some _, O => Fault
  | Some y, S fuel' =>
      n ← get h y;
      '(k, v) ← attrib_part n;
      k ← deref k;
      '(_, h) ← iks_insert_attrib h cur k v;
      copy_attribs fuel' h cur (next n)
  end.

(** The loop of [iks_copy_within] for the pool [p]: [cur] is the node of the
    copy that corresponds to the parent of [x]. *)
Fixpoint copy_walk (fuel : nat) (h : heap) (p : nat) (copy cur : ptr) (x level : nat) (dir : bool) :
    exec (ptr * heap) :=
  match fuel with
  | O => Fault
  | S fuel' =>
      let leave h copy cur :=
        n ← get h x;
        match next n with
        | Some y => match level with O => Done (copy, h) | S _ => copy_walk fuel' h p copy cur y level false end
        | None =>
            if (level <? 2)%nat then Done (copy, h) else
            q ← deref (parent n);
            c ← deref cur;
            nc ← get h c;
            copy_walk fuel' h p copy (parent nc) q (level - 1) true
        end in
      if dir then leave h copy cur else
      n ← get h x;
      if decide (ntype n = IKS_TAG) then
        '(c, _, a, _, nm) ← tag_part n;
        '(copy, cur, h) ← match copy with
          | None => '(y, h) ← iks_new_within h nm p; Done (y, y, h)
          | Some _ => '(y, h) ← iks_insert h cur nm; Done (copy, y, h)
          end;
        h ← copy_attribs (chain_fuel h) h cur a;
        match c with
        | Some c => copy_walk fuel' h p copy cur c (S level) false
        | None => z ← deref cur; nz ← get h z; leave h copy (parent nz)
        end
      else
        '(d, l) ← cdata_part n;
        '(_, h) ← iks_insert_cdata h cur d l;
        leave h copy cur
  end.

Definition iks_copy_within (fuel : nat) (h : heap) (x p : nat) : exec (ptr * heap) :=
  copy_walk fuel h p None None x 0%nat false.

(** The pool of the copy is used without a test. *)
Definition iks_copy (fuel : nat) (h : heap) (x : nat) : exec (ptr * heap) :=
  let '(p, h) := iks_stack_new h in
  p ← deref p; iks_copy_within fuel h x p.
