(* ===== verification/DomPrint.v ===== *)
(** * The serialiser prints the tree

    Documents as trees, the representation of a tree by the linked nodes of
    [Dom], and the theorem about [iks_string]: the sizing pass computes the
    length of the printed tree, and the copying pass prints it into a block of
    that size. *)

From S2P Require Import Prelude XmlText Dom.

Local Open Scope Z_scope.

(** ** Documents *)

Inductive tree : Type :=
| TTag (name : str) (atts : list (str * str)) (children : list tree)
| TText (t : str).

(** Induction over trees and their lists of children. *)
Section tree_ind.
Context (P : tree → Prop).
Context (Htag : ∀ n a cs, Forall P cs → P (TTag n a cs)) (Htext : ∀ t, P (TText t)).

Fixpoint tree_nested_ind (t : tree) : P t :=
  match t with
  | TTag n a cs =>
      Htag n a cs ((fix go (l : list tree) : Forall P l :=
        match l with [] => Forall_nil_2 _ | t :: l' => Forall_cons_2 _ _ _ (tree_nested_ind t) (go l') end) cs)
  | TText s => Htext s
  end.
End tree_ind.

(** The text of a document: attribute values and character data are escaped,
    a tag without children is one tag. *)
Definition print_att (kv : str * str) : list Z := 32 :: kv.1 ++ [61; 39] ++ xml_escape kv.2 ++ [39].
Definition print_atts (l : list (str * str)) : list Z := concat (map print_att l).

Fixpoint print (t : tree) : list Z :=
  match t with
  | TText s => xml_escape s
  | TTag n a [] => 60 :: n ++ print_atts a ++ [47; 62]
  | TTag n a cs => 60 :: n ++ print_atts a ++ [62] ++ concat (map print cs) ++ [60; 47] ++ n ++ [62]
  end.

(** ** Trees in the heap *)

Fixpoint rep_atts (h : heap) (par : nat) (ats : list (str * str)) (prv first last : ptr) : Prop :=
  match ats with
  | [] => first = None ∧ last = prv
  | (k, v) :: ats' =>
      ∃ y n, first = Some y ∧ nodes h !! y = Some n ∧ ntype n = IKS_ATTRIBUTE ∧ prev n = prv ∧
        parent n = Some par ∧ body_ n = BAttrib (Some k) (Some v) ∧ rep_atts h par ats' (Some y) (next n) last
  end.

(** [rep h t x n]: the node [n] at [x] and what hangs below it are the tree
    [t]; the links to its siblings and its parent are the caller's. *)
Fixpoint rep (h : heap) (t : tree) (x : nat) (n : iks) {struct t} : Prop :=
  nodes h !! x = Some n ∧
  match t with
  | TText d => ntype n = IKS_CDATA ∧ body_ n = BCdata (Some d) (strlen d)
  | TTag nm ats cs =>
      ntype n = IKS_TAG ∧ ∃ c lc a la, body_ n = BTag c lc a la (Some nm) ∧
        rep_atts h x ats None a la ∧
        (fix rep_list (cs : list tree) (prv first : ptr) {struct cs} : Prop :=
           match cs with
           | [] => first = None ∧ lc = prv
           | t :: cs' => ∃ y m, first = Some y ∧ prev m = prv ∧ parent m = Some x ∧ rep h t y m ∧
                           rep_list cs' (Some y) (next m)
           end) cs None c
  end.

Fixpoint rep_list (h : heap) (x : nat) (cs : list tree) (prv first last : ptr) : Prop :=
  match cs with
  | [] => first = None ∧ last = prv
  | t :: cs' => ∃ y m, first = Some y ∧ prev m = prv ∧ parent m = Some x ∧ rep h t y m ∧
                  rep_list h x cs' (Some y) (next m) last
  end.

Lemma rep_tag h nm ats cs x n :
  rep h (TTag nm ats cs) x n ↔
  nodes h !! x = Some n ∧ ntype n = IKS_TAG ∧ ∃ c lc a la, body_ n = BTag c lc a la (Some nm) ∧
    rep_atts h x ats None a la ∧ rep_list h x cs None c lc.
Proof.
  assert (E : ∀ lc cs prv first,
    (fix rep_list (cs : list tree) (prv first : ptr) {struct cs} : Prop :=
       match cs with
       | [] => first = None ∧ lc = prv
       | t :: cs' => ∃ y m, first = Some y ∧ prev m = prv ∧ parent m = Some x ∧ rep h t y m ∧
                       rep_list cs' (Some y) (next m)
       end) cs prv first ↔ rep_list h x cs prv first lc).
  { intros lc. induction cs0 as [|t cs0 IH]; intros prv first; cbn; [done|].
    repeat f_equiv. by rewrite IH. }
  cbn. do 2 f_equiv. do 8 f_equiv. by rewrite E.
Qed.

Lemma rep_node h t x n : rep h t x n → nodes h !! x = Some n.
Proof. destruct t; cbn; by intros [? _]. Qed.

(** The representation looks at nothing but the nodes. *)
Lemma rep_atts_nodes h h' x : nodes h = nodes h' → ∀ ats prv first last,
  rep_atts h x ats prv first last → rep_atts h' x ats prv first last.
Proof.
  intros E. induction ats as [|[k v] ats IH]; intros prv first last; cbn; [done|]. rewrite E.
  intros (y & n & H). exists y, n. destruct H as (? & ? & ? & ? & ? & ? & ?). split_and!; auto.
Qed.

Lemma rep_nodes h h' t : nodes h = nodes h' → ∀ x n, rep h t x n → rep h' t x n.
Proof.
  intros E. induction t as [nm ats cs Hcs|d] using tree_nested_ind; intros x n; [|cbn; by rewrite E].
  rewrite !rep_tag, E. intros (H1 & H2 & c & lc & a & la & H3 & H4 & H5).
  split; [done|]. split; [done|]. exists c, lc, a, la. split; [done|].
  split; [by apply (rep_atts_nodes h)|]. clear H3. revert H5. generalize (None : ptr) at 1 2. revert c.
  induction Hcs as [|t cs Ht Hcs IH]; intros c prv; cbn; [done|].
  intros (y & m & ? & ? & ? & ? & ?). exists y, m. split_and!; auto.
Qed.

(** ** Chains are shorter than the heap *)

(** The nodes [ids] along [next], each pointing back to the one before. *)
Fixpoint path (h : heap) (prv first : ptr) (ids : list nat) : Prop :=
  match ids with
  | [] => first = None
  | y :: ids' => first = Some y ∧ ∃ n, nodes h !! y = Some n ∧ prev n = prv ∧ path h (Some y) (next n) ids'
  end.

Lemma path_prev h : ∀ ids prv first i y,
  path h prv first ids → ids !! i = Some y →
  ∃ n, nodes h !! y = Some n ∧ prev n = match i with O => prv | S j => ids !! j end.
Proof.
  induction ids as [|z ids IH]; intros prv first i y Hp E; [done|].
  destruct Hp as (_ & n & Hn & Hprev & Hp). destruct i as [|i]; cbn in E.
  - simplify_eq. by exists n.
  - destruct (IH _ _ _ _ Hp E) as (m & Hm & Ep). exists m. split; [done|]. rewrite Ep. by destruct i.
Qed.

Lemma path_NoDup h first ids : path h None first ids → NoDup ids.
Proof.
  intros Hp. apply NoDup_alt.
  enough (Hlt : ∀ i j y, (i < j)%nat → ids !! i = Some y → ids !! j = Some y → False).
  { intros i j y Ei Ej. destruct (Nat.lt_trichotomy i j) as [?|[?|?]]; [|done|]; exfalso; eauto. }
  induction i as [|i IH]; intros j y Hij Ei Ej; (destruct j as [|j]; [lia|]);
    destruct (path_prev _ _ _ _ _ _ Hp Ei) as (n & Hn & En), (path_prev _ _ _ _ _ _ Hp Ej) as (m & Hm & Em);
    simplify_eq; rewrite En in Em.
  - destruct (lookup_lt_is_Some_2 ids j) as [z Hz]; [apply lookup_lt_Some in Ej; lia|]. congruence.
  - destruct (lookup_lt_is_Some_2 ids j) as [z Hz]; [apply lookup_lt_Some in Ej; lia|].
    apply (IH j z); [lia| |done]. congruence.
Qed.

Lemma path_dom h : ∀ ids prv first, path h prv first ids → ∀ y, y ∈ ids → y ∈ dom (nodes h).
Proof.
  induction ids as [|z ids IH]; intros prv first Hp y Hy; [by apply elem_of_nil in Hy|].
  destruct Hp as (_ & n & Hn & _ & Hp). apply elem_of_cons in Hy as [->|Hy]; [|by eapply IH].
  apply elem_of_dom. by exists n.
Qed.

Lemma path_length h first ids : path h None first ids → (length ids < chain_fuel h)%nat.
Proof.
  intros Hp. unfold chain_fuel.
  assert (E : size (list_to_set ids : gset nat) = length ids) by (apply size_list_to_set; by eapply path_NoDup).
  assert (Hsub : (list_to_set ids : gset nat) ⊆ dom (nodes h)).
  { intros y Hy. apply elem_of_list_to_set in Hy. by eapply path_dom. }
  apply subseteq_size in Hsub. rewrite size_dom in Hsub. lia.
Qed.

Lemma rep_atts_path h x : ∀ ats prv first last,
  rep_atts h x ats prv first last → ∃ ids, path h prv first ids ∧ length ids = length ats.
Proof.
  induction ats as [|[k v] ats IH]; intros prv first last Hr; cbn in Hr.
  - exists []. by destruct Hr as [-> _].
  - destruct Hr as (y & n & -> & Hn & _ & Hp & _ & _ & Hr). destruct (IH _ _ _ Hr) as (ids & Hi & Hl).
    exists (y :: ids). cbn. split; [|by rewrite Hl]. split; [done|]. by exists n.
Qed.

Lemma attrib_list_spec h x : ∀ ats prv first last fuel,
  rep_atts h x ats prv first last → (length ats < fuel)%nat → attrib_list h fuel first = Done ats.
Proof.
  induction ats as [|[k v] ats IH]; intros prv first last fuel Hr Hf; cbn in Hr.
  - destruct Hr as [-> _]. by destruct fuel.
  - destruct Hr as (y & n & -> & Hn & _ & Hp & _ & Hb & Hr). destruct fuel as [|fuel]; [cbn in Hf; lia|].
    cbn [attrib_list]. unfold get, attrib_part. rewrite Hn. cbn. rewrite Hb. cbn.
    rewrite (IH _ _ _ _ Hr); [done|]. cbn in Hf. lia.
Qed.

(** ** The loop visits the tree in document order *)
Section walk_spec.
Context {A : Type} (h : heap).
Context (open : A → str → list (str * str) → exec A) (mid single : A → exec A)
        (text : A → str → exec A) (close : A → str → exec A).

Abbreviation walk := (walk h open mid single text close).
Abbreviation walk_leave := (walk_leave h close).

(** What the visitors do on a tree, recursively. *)
Fixpoint sem (acc : A) (t : tree) {struct t} : exec A :=
  match t with
  | TText d => text acc d
  | TTag nm ats cs =>
      acc ← open acc nm ats;
      match cs with
      | [] => single acc
      | _ :: _ =>
          acc ← mid acc;
          acc ← (fix go (acc : A) (l : list tree) {struct l} : exec A :=
                   match l with [] => Done acc | t :: l' => acc ← sem acc t; go acc l' end) acc cs;
          close acc nm
      end
  end.

Fixpoint sem_list (acc : A) (l : list tree) : exec A :=
  match l with [] => Done acc | t :: l' => acc ← sem acc t; sem_list acc l' end.

Lemma sem_tag acc nm ats c cs :
  sem acc (TTag nm ats (c :: cs))
  = (acc ← open acc nm ats; acc ← mid acc; acc ← sem_list acc (c :: cs); close acc nm).
Proof. reflexivity. Qed.

(** The turns the loop takes. *)
Fixpoint cost (t : tree) : nat :=
  match t with TText _ => 1 | TTag _ _ cs => 2 + list_sum (map cost cs) end.

Lemma leave_last f acc y m x l nx nm :
  nodes h !! y = Some m → next m = None → parent m = Some x →
  nodes h !! x = Some nx → ntype nx = IKS_TAG → (∃ c lc a la, body_ nx = BTag c lc a la (Some nm)) →
  walk_leave (walk f) acc y (S l)
  = (acc ← close acc nm; match l with O => Done acc | S _ => walk f acc x l true end).
Proof.
  intros Hy Hn Hp Hx Ht (c & lc & a & la & Hb). unfold Dom.walk_leave, close_tag, IKS_TAG_NAME, get.
  rewrite Hy. cbn. rewrite Hn, Hp. cbn. rewrite Hx. cbn. unfold tag_part. rewrite Hb. done.
Qed.

(** Below the starting node: after a tree the loop is about to leave its node,
    and after the children of [x] it has closed [x]. *)
Definition walks (t : tree) : Prop := ∀ y m fuel acc acc' l,
  rep h t y m → sem acc t = Done acc' → (cost t <= fuel)%nat →
  ∃ f, (fuel <= f + cost t)%nat ∧ walk fuel acc y (S l) false = walk_leave (walk f) acc' y (S l).

Lemma walk_children x nx nm : ∀ cs c prv last fuel acc acc' l,
  Forall walks cs → cs ≠ [] → rep_list h x cs prv (Some c) last → sem_list acc cs = Done acc' →
  nodes h !! x = Some nx → ntype nx = IKS_TAG → (∃ c lc a la, body_ nx = BTag c lc a la (Some nm)) →
  (list_sum (map cost cs) <= fuel)%nat →
  ∃ f, (fuel <= f + list_sum (map cost cs))%nat ∧
    walk fuel acc c (S l) false
    = (acc ← close acc' nm; match l with O => Done acc | S _ => walk f acc x l true end).
Proof.
  induction cs as [|t cs IH]; intros c prv last fuel acc acc' l Hw Hne Hr Hs Hx Ht Hb Hf; [done|].
  apply Forall_cons in Hw as [Hwt Hw]. destruct Hr as (y & m & [= <-] & Hprev & Hpar & Hrt & Hr).
  cbn in Hs. destruct (sem acc t) as [acc1|] eqn:Es; [|done]. cbn in Hs, Hf.
  destruct (Hwt c m fuel acc acc1 l Hrt Es) as (f & Hf1 & ->); [lia|].
  pose proof (rep_node _ _ _ _ Hrt) as Hc. destruct cs as [|t2 cs].
  - cbn in Hr, Hs. destruct Hr as [Hnx _]. simplify_eq. exists f. split; [cbn; lia|].
    by apply (leave_last f acc' c m x l nx nm).
  - assert (Hcut : ∃ z, next m = Some z).
    { destruct Hr as (z & m2 & E & _). by exists z. }
    destruct Hcut as [z Hz]. rewrite Hz in Hr.
    assert (E : walk_leave (walk f) acc1 c (S l) = walk f acc1 z (S l) false).
    { unfold Dom.walk_leave, get. rewrite Hc. cbn. by rewrite Hz. }
    rewrite E. destruct (IH z (Some c) last f acc1 acc' l Hw) as (f2 & Hf2 & ->); try done; [cbn in *; lia|].
    exists f2. split; [cbn in *; lia|done].
Qed.

Lemma enter_tag fuel acc y m l nm ats c lc a la :
  nodes h !! y = Some m → ntype m = IKS_TAG → body_ m = BTag c lc a la (Some nm) → rep_atts h y ats None a la →
  walk (S fuel) acc y l false
  = (acc ← open acc nm ats;
     match c with
     | Some c => acc ← mid acc; walk fuel acc c (S l) false
     | None => acc ← single acc; walk_leave (walk fuel) acc y l
     end).
Proof.
  intros Hy Ht Hb Ha. cbn [Dom.walk]. unfold get at 1. rewrite Hy. cbn [mbind exec_bind].
  destruct (decide (ntype m = IKS_TAG)); [|done]. unfold tag_part. rewrite Hb. cbn [mbind exec_bind deref].
  destruct (rep_atts_path _ _ _ _ _ _ Ha) as (ids & Hp & Hl). apply path_length in Hp.
  rewrite (attrib_list_spec h y ats None a la) by (done || lia). done.
Qed.

Lemma walk_tree t : walks t.
Proof.
  induction t as [nm ats cs Hcs|d] using tree_nested_ind; intros y m fuel acc acc' l Hr Hs Hf.
  - apply rep_tag in Hr as (Hy & Ht & c & lc & a & la & Hb & Ha & Hl).
    destruct fuel as [|fuel]; [cbn in Hf; lia|]. rewrite (enter_tag _ _ _ _ _ _ _ _ _ _ _ Hy Ht Hb Ha).
    destruct cs as [|t cs].
    + cbn in Hl, Hs. destruct Hl as [-> _]. destruct (open acc nm ats) as [acc1|]; [|done]. cbn in *.
      rewrite Hs. exists fuel. split; [lia|done].
    + rewrite sem_tag in Hs. assert (Hc : ∃ c0, c = Some c0) by (destruct Hl as (z & ? & -> & _); by exists z).
      destruct Hc as [c0 ->]. destruct (open acc nm ats) as [acc1|]; [|done]. cbn [mbind exec_bind] in *.
      destruct (mid acc1) as [acc2|]; [|done]. cbn [mbind exec_bind] in *.
      destruct (sem_list acc2 (t :: cs)) as [acc3|] eqn:E3; [|done]. cbn [mbind exec_bind] in Hs.
      destruct (walk_children y m nm (t :: cs) c0 None lc fuel acc2 acc3 (S l) Hcs) as (f & Hf1 & ->);
        [done..|by exists (Some c0), lc, a, la|cbn [cost] in Hf; lia|].
      rewrite Hs. cbn [mbind exec_bind cost] in *. destruct f as [|f]; [lia|]. exists f. split; [lia|done].
  - destruct Hr as (Hy & Ht & Hb). destruct fuel as [|fuel]; [cbn in Hf; lia|].
    cbn [Dom.walk sem] in *. unfold get at 1. rewrite Hy. cbn [mbind exec_bind].
    destruct (decide (ntype m = IKS_TAG)) as [E|]; [by rewrite Ht in E|]. unfold cdata_part. rewrite Hb.
    cbn [mbind exec_bind deref]. rewrite whole_text. cbn [mbind exec_bind]. rewrite Hs. exists fuel.
    split; [cbn; lia|done].
Qed.

(** From the starting node. *)
Lemma walk_top nm ats cs x n fuel acc acc' :
  rep h (TTag nm ats cs) x n → sem acc (TTag nm ats cs) = Done acc' → (cost (TTag nm ats cs) <= fuel)%nat →
  walk fuel acc x 0%nat false = Done acc'.
Proof.
  intros Hr Hs Hf. apply rep_tag in Hr as (Hy & Ht & c & lc & a & la & Hb & Ha & Hl).
  destruct fuel as [|fuel]; [cbn in Hf; lia|]. rewrite (enter_tag _ _ _ _ _ _ _ _ _ _ _ Hy Ht Hb Ha).
  destruct cs as [|t cs].
  - cbn in Hl, Hs. destruct Hl as [-> _]. destruct (open acc nm ats) as [acc1|]; [|done]. cbn in *.
    rewrite Hs. cbn. unfold Dom.walk_leave, IKS_TAG_CHILDREN, get. rewrite Hy. cbn. unfold tag_part. rewrite Hb. cbn.
    by destruct (next n).
  - rewrite sem_tag in Hs. assert (Hc : ∃ c0, c = Some c0) by (destruct Hl as (z & ? & -> & _); by exists z).
    destruct Hc as [c0 ->]. destruct (open acc nm ats) as [acc1|]; [|done]. cbn [mbind exec_bind] in *.
    destruct (mid acc1) as [acc2|]; [|done]. cbn [mbind exec_bind] in *.
    destruct (sem_list acc2 (t :: cs)) as [acc3|] eqn:E3; [|done]. cbn [mbind exec_bind] in Hs.
    assert (Hw : Forall walks (t :: cs)) by (apply Forall_forall; intros; apply walk_tree).
    destruct (walk_children x n nm (t :: cs) c0 None lc fuel acc2 acc3 0 Hw) as (f & Hf1 & ->);
      [done..|by exists (Some c0), lc, a, la|cbn [cost] in Hf; lia|].
    rewrite Hs. done.
Qed.
End walk_spec.

(** ** The two passes *)

Lemma print_tag n a c cs :
  print (TTag n a (c :: cs))
  = 60 :: n ++ print_atts a ++ [62] ++ concat (map print (c :: cs)) ++ [60; 47] ++ n ++ [62].
Proof. reflexivity. Qed.

Lemma size_atts ats : ∀ sz,
  fold_left (λ sz kv, sz + (4 + strlen kv.1 + escape_size kv.2)) ats sz = sz + strlen (print_atts ats).
Proof.
  induction ats as [|[k v] ats IH]; intros sz; cbn [fold_left]; [unfold strlen; cbn; lia|].
  rewrite IH, escape_size_spec. unfold print_atts. cbn [map concat]. rewrite strlen_app. unfold print_att.
  cbn [fst snd]. change (32 :: k ++ [61; 39] ++ xml_escape v ++ [39]) with ([32] ++ k ++ [61; 39] ++ xml_escape v ++ [39]).
  rewrite !strlen_app. change (strlen [32]) with 1. change (strlen [61; 39]) with 2. change (strlen [39]) with 1. lia.
Qed.

Abbreviation size_sem := (sem
    (λ sz nm ats, Done (fold_left (λ sz kv, sz + (4 + strlen kv.1 + escape_size kv.2)) ats (sz + 1 + strlen nm)))
    (λ sz, Done (sz + 1)) (λ sz, Done (sz + 2))
    (λ sz t, Done (sz + escape_size t))
    (λ sz nm, Done (sz + (3 + strlen nm)))).

Lemma size_sem_list (cs : list tree) (f : Z → tree → exec Z) :
  Forall (λ t, ∀ acc, f acc t = Done (acc + strlen (print t))) cs →
  ∀ acc, (fix go (acc : Z) (l : list tree) {struct l} : exec Z :=
     match l with [] => Done acc | t :: l' => acc ← f acc t; go acc l' end) acc cs
   = Done (acc + strlen (concat (map print cs))).
Proof.
  induction 1 as [|t cs Ht Hcs IH]; intros acc; [unfold strlen; cbn; f_equal; lia|].
  rewrite Ht. cbn [mbind exec_bind]. rewrite IH. cbn [map concat]. rewrite strlen_app. f_equal. lia.
Qed.

Lemma size_sem_spec t : ∀ acc, size_sem acc t = Done (acc + strlen (print t)).
Proof.
  induction t as [nm ats cs Hcs|d] using tree_nested_ind; intros acc.
  - cbn [sem mbind exec_bind]. rewrite size_atts. destruct cs as [|t cs].
    + cbn [print]. change (60 :: nm ++ print_atts ats ++ [47; 62]) with ([60] ++ nm ++ print_atts ats ++ [47; 62]).
      rewrite !strlen_app. change (strlen [60]) with 1. change (strlen [47; 62]) with 2. f_equal. lia.
    + cbn [mbind exec_bind]. rewrite (size_sem_list (t :: cs)) by done. cbn [mbind exec_bind]. rewrite print_tag.
      match goal with |- context [60 :: ?r] => change (60 :: r) with ([60] ++ r) end.
      rewrite !strlen_app. change (strlen [60]) with 1. change (strlen [62]) with 1. change (strlen [60; 47]) with 2.
      f_equal. lia.
  - cbn. by rewrite escape_size_spec.
Qed.

(** The copying pass succeeds while the block has room for the text. *)
Lemma emit_room cap t c : strlen t + 1 <= cap → emit cap t c = Done (t ++ [c]).
Proof. intros. apply emit_done. unfold strlen in *. lia. Qed.

Lemma put_attrib_done cap t kv :
  strlen t + strlen (print_att kv) <= cap → put_attrib cap t kv = Done (t ++ print_att kv).
Proof.
  destruct kv as [k v]. unfold print_att, put_attrib. cbn [fst snd]. intros Hc.
  change (32 :: k ++ [61; 39] ++ xml_escape v ++ [39]) with ([32] ++ k ++ [61] ++ [39] ++ xml_escape v ++ [39]) in *.
  rewrite !strlen_app in Hc.
  assert (E1 : ∀ c : Z, strlen [c] = 1) by done. rewrite !E1 in Hc.
  assert (0 <= strlen k ∧ 0 <= strlen (xml_escape v)) by (unfold strlen; lia).
  eapply exec_step; [apply emit_room; lia|].
  eapply exec_step; [apply my_strcat_done; [by left|rewrite strlen_app, E1; lia]|].
  eapply exec_step; [apply emit_room; rewrite !strlen_app, E1; lia|].
  eapply exec_step; [apply emit_room; rewrite !strlen_app, !E1; lia|].
  eapply exec_step; [apply escape_spec; rewrite escape_size_spec, !strlen_app, !E1; lia|].
  rewrite emit_room by (rewrite !strlen_app, !E1; lia). by rewrite <-!app_assoc.
Qed.

Lemma put_attribs_done cap : ∀ ats t,
  strlen t + strlen (print_atts ats) <= cap → put_attribs cap t ats = Done (t ++ print_atts ats).
Proof.
  induction ats as [|kv ats IH]; intros t Hc; cbn [put_attribs]; [by rewrite app_nil_r|].
  unfold print_atts in *. cbn [map concat] in *. rewrite strlen_app in Hc.
  assert (0 <= strlen (concat (map print_att ats))) by (unfold strlen; lia).
  eapply exec_step; [apply put_attrib_done; lia|]. rewrite IH by (rewrite strlen_app; lia). by rewrite app_assoc.
Qed.

Section copy.
Context (cap : Z).

Definition copy_open (t : list Z) (nm : str) (ats : list (str * str)) : exec (list Z) :=
  t ← emit cap t 60; t ← my_strcat cap t nm 0; put_attribs cap t ats.
Definition copy_close (t : list Z) (nm : str) : exec (list Z) :=
  t ← emit cap t 60; t ← emit cap t 47; t ← my_strcat cap t nm 0; emit cap t 62.

Abbreviation copy_sem := (sem copy_open (λ t, emit cap t 62) (λ t, t ← emit cap t 47; emit cap t 62)
    (λ t d, escape cap t d) copy_close).

Lemma copy_open_done t nm ats :
  strlen t + (1 + strlen nm + strlen (print_atts ats)) <= cap →
  copy_open t nm ats = Done (t ++ 60 :: nm ++ print_atts ats).
Proof.
  intros Hc. assert (0 <= strlen nm ∧ 0 <= strlen (print_atts ats)) by (unfold strlen; lia).
  assert (E1 : ∀ c : Z, strlen [c] = 1) by done. unfold copy_open.
  eapply exec_step; [apply emit_room; lia|].
  eapply exec_step; [apply my_strcat_done; [by left|rewrite strlen_app, E1; lia]|].
  rewrite put_attribs_done by (rewrite !strlen_app, E1; lia). by rewrite <-!app_assoc.
Qed.

Lemma copy_close_done t nm :
  strlen t + (3 + strlen nm) <= cap → copy_close t nm = Done (t ++ [60; 47] ++ nm ++ [62]).
Proof.
  intros Hc. assert (0 <= strlen nm) by (unfold strlen; lia).
  assert (E1 : ∀ c : Z, strlen [c] = 1) by done. unfold copy_close.
  eapply exec_step; [apply emit_room; lia|].
  eapply exec_step; [apply emit_room; rewrite strlen_app, E1; lia|].
  eapply exec_step; [apply my_strcat_done; [by left|rewrite !strlen_app, !E1; lia]|].
  rewrite emit_room by (rewrite !strlen_app, !E1; lia). by rewrite <-!app_assoc.
Qed.

Lemma copy_sem_list (cs : list tree) (f : list Z → tree → exec (list Z)) :
  Forall (λ t, ∀ acc, strlen acc + strlen (print t) <= cap → f acc t = Done (acc ++ print t)) cs →
  ∀ acc, strlen acc + strlen (concat (map print cs)) <= cap →
  (fix go (acc : list Z) (l : list tree) {struct l} : exec (list Z) :=
     match l with [] => Done acc | t :: l' => acc ← f acc t; go acc l' end) acc cs
   = Done (acc ++ concat (map print cs)).
Proof.
  induction 1 as [|t cs Ht Hcs IH]; intros acc Hc; [by rewrite app_nil_r|].
  cbn [map concat] in *. rewrite strlen_app in Hc.
  assert (0 <= strlen (concat (map print cs))) by (unfold strlen; lia).
  rewrite Ht by lia. cbn [mbind exec_bind]. rewrite IH by (rewrite strlen_app; lia). by rewrite app_assoc.
Qed.

Lemma copy_sem_spec t : ∀ acc, strlen acc + strlen (print t) <= cap → copy_sem acc t = Done (acc ++ print t).
Proof.
  assert (E1 : ∀ c : Z, strlen [c] = 1) by done.
  induction t as [nm ats cs Hcs|d] using tree_nested_ind; intros acc Hc.
  - assert (0 <= strlen nm ∧ 0 <= strlen (print_atts ats)) by (unfold strlen; lia).
    cbn [sem]. destruct cs as [|t cs].
    + cbn [print] in *.
      change (60 :: nm ++ print_atts ats ++ [47; 62]) with ([60] ++ nm ++ print_atts ats ++ [47] ++ [62]) in *.
      rewrite !strlen_app, !E1 in Hc.
      eapply exec_step; [apply copy_open_done; lia|].
      change (60 :: nm ++ print_atts ats) with ([60] ++ nm ++ print_atts ats).
      eapply exec_step; [apply emit_room; rewrite !strlen_app, E1; lia|].
      rewrite emit_room by (rewrite !strlen_app, !E1; lia). by rewrite <-!app_assoc.
    + rewrite print_tag in *. set (body := concat (map print (t :: cs))) in *.
      change (60 :: nm ++ print_atts ats ++ [62] ++ body ++ [60; 47] ++ nm ++ [62])
        with ([60] ++ nm ++ print_atts ats ++ [62] ++ body ++ [60; 47] ++ nm ++ [62]) in *.
      rewrite !strlen_app, !E1 in Hc. change (strlen [60; 47]) with 2 in Hc.
      assert (0 <= strlen body) by (unfold strlen; lia).
      eapply exec_step; [apply copy_open_done; lia|].
      change (60 :: nm ++ print_atts ats) with ([60] ++ nm ++ print_atts ats).
      eapply exec_step; [apply emit_room; rewrite !strlen_app, E1; lia|].
      eapply exec_step; [apply (copy_sem_list (t :: cs)); [done|fold body; rewrite !strlen_app, !E1; lia]|].
      fold body. rewrite copy_close_done by (rewrite !strlen_app, !E1; lia). by rewrite <-!app_assoc.
  - cbn [sem print] in *. apply escape_spec. by rewrite escape_size_spec.
Qed.
End copy.

Lemma string_spec (fuel : nat) (h : heap) (have_stack : bool) nm ats cs x n :
  rep h (TTag nm ats cs) x n → (cost (TTag nm ats cs) <= fuel)%nat →
  iks_string fuel h have_stack (Some x)
  = let '(ok, h') := take_mem h in Done (if (ok : bool) then Some (print (TTag nm ats cs)) else None, h').
Proof.
  intros Hr Hf. assert (Hn := Hr). apply rep_tag in Hn as (Hx & Ht & _).
  unfold iks_string. unfold get. rewrite Hx. cbn [mbind exec_bind].
  destruct (decide (ntype n = IKS_CDATA)) as [E|]; [by rewrite Ht in E|].
  unfold size_pass. rewrite (walk_top h _ _ _ _ _ nm ats cs x n fuel 0 _ Hr (size_sem_spec _ 0) Hf).
  cbn [mbind exec_bind]. rewrite Z.add_0_l.
  assert (Hrep : ∀ b m, take_mem h = (b, m) → nodes m = nodes h).
  { unfold take_mem. intros b m. destruct (hmem h); by intros [= <- <-]. }
  destruct (take_mem h) as [ok h'] eqn:Em. destruct ok; cbn [negb]; [|done].
  assert (Hr' : rep h' (TTag nm ats cs) x n) by (eapply rep_nodes; [|exact Hr]; symmetry; by eapply Hrep).
  assert (Hc : copy_pass fuel h' (strlen (print (TTag nm ats cs)) + 1) x = Done (print (TTag nm ats cs))).
  { unfold copy_pass. eapply (walk_top h' _ _ _ _ _ nm ats cs x n fuel []); [exact Hr'| |exact Hf].
    apply copy_sem_spec. unfold strlen. cbn. lia. }
  eapply exec_step; [exact Hc|]. eapply exec_step; [apply emit_room; lia|]. done.
Qed.

(** ** Theorem *)

(** C4 (functional): [iks_string] of a tag makes no access outside the block it
    allocates, and its result is the printed tree: for every tree in the heap,
    with enough turns for the loop, the string is [print] of the tree, or null
    when the allocation fails. *)
Theorem iks_string_prints (fuel : nat) (h : heap) (have_stack : bool) nm ats cs x n :
  rep h (TTag nm ats cs) x n → (cost (TTag nm ats cs) <= fuel)%nat →
  iks_string fuel h have_stack (Some x)
  = let '(ok, h') := take_mem h in Done (if (ok : bool) then Some (print (TTag nm ats cs)) else None, h').
Proof. apply string_spec. Qed.

(** A message as the client builds it. *)
Definition demo_doc : exec (ptr * heap) :=
  '(x, h) ← iks_new (mk_heap ∅ 0 0 []) (bs "message");
  '(_, h) ← iks_insert_attrib h x (bs "to") (Some (bs "a<b"));
  '(b, h) ← iks_insert h x (Some (bs "body"));
  '(_, h) ← iks_insert_cdata h b (Some (bs "5 > ")) 0;
  '(_, h) ← iks_insert_cdata h b (Some (bs "4")) 0;
  Done (x, h).
Definition demo_heap : heap := match demo_doc with Done (_, h) => h | Fault => mk_heap ∅ 0 0 [] end.

Lemma iks_string_prints_witness :
  ∃ h', iks_string 10 demo_heap true (Some 0%nat)
        = Done (Some (bs "<message to='a&lt;b'><body>5 &gt; 4</body></message>"), h').
Proof.
  eexists. eapply eq_trans.
  - eapply (iks_string_prints 10 demo_heap true (bs "message") [(bs "to", bs "a<b")]
      [TTag (bs "body") [] [TText (bs "5 > 4")]]); [|cbn; lia].
    vm_compute. split; [reflexivity|]. split; [reflexivity|]. do 4 eexists. split; [reflexivity|].
    split; [do 2 eexists; repeat split; reflexivity|].
    do 2 eexists. split; [reflexivity|]. split; [|split; [|split]].
    3: { split; [reflexivity|]. split; [reflexivity|]. do 4 eexists. split; [reflexivity|].
         split; [repeat split; reflexivity|].
         do 2 eexists. split; [reflexivity|]. split; [|split; [|split]].
         3: { repeat split; reflexivity. }
         1-2: reflexivity. repeat split; reflexivity. }
    1-2: reflexivity. repeat split; reflexivity.
  - vm_compute. reflexivity.
Defined.
