(* ===== verification/DomBuild.v ===== *)
(** * Building documents

    What the operations of [Dom] that change a document do to the tree the
    heap represents.  A tree with addresses ([atree]) determines the nodes of
    the heap; [holds h L] says that the heap has the nodes of the list [L], at
    different addresses.  Each operation is described by how it changes the
    nodes of one tag, with every other node in a frame [R]; a permutation of
    the list brings the tag that is worked on to its front. *)

From S2P Require Import Prelude XmlText Dom DomPrint.

Local Open Scope Z_scope.

(** ** Trees with addresses *)

Inductive atree : Type :=
| ATag (x : nat) (name : str) (atts : list (nat * (str * str))) (children : list atree)
| AText (x : nat) (t : str).

Section atree_ind.
Context (P : atree → Prop).
Context (Htag : ∀ x n a cs, Forall P cs → P (ATag x n a cs)) (Htext : ∀ x t, P (AText x t)).

Fixpoint atree_nested_ind (t : atree) : P t :=
  match t with
  | ATag x n a cs =>
      Htag x n a cs ((fix go (l : list atree) : Forall P l :=
        match l with [] => Forall_nil_2 _ | t :: l' => Forall_cons_2 _ _ _ (atree_nested_ind t) (go l') end) cs)
  | AText x s => Htext x s
  end.
End atree_ind.

Definition addr (t : atree) : nat := match t with ATag x _ _ _ => x | AText x _ => x end.

Fixpoint erase (t : atree) : tree :=
  match t with
  | ATag _ n a cs => TTag n a.*2 (map erase cs)
  | AText _ s => TText s
  end.

(** ** The nodes of a tree *)
Section cells.
Context (pl : nat).

Definition attrib_node (par : nat) (prv nxt : ptr) (kv : str * str) : iks :=
  mk_iks nxt prv (Some par) IKS_ATTRIBUTE pl (BAttrib (Some kv.1) (Some kv.2)).

Fixpoint acells (par : nat) (prv : ptr) (ats : list (nat * (str * str))) (nxt : ptr) : list (nat * iks) :=
  match ats with
  | [] => []
  | (y, kv) :: ats' => (y, attrib_node par prv (first_of ats'.*1 nxt) kv) :: acells par (Some y) ats' nxt
  end.

(** The node of a tree itself, between its siblings and below its parent. *)
Definition top (par prv nxt : ptr) (t : atree) : iks :=
  match t with
  | ATag _ nm ats cs =>
      mk_iks nxt prv par IKS_TAG pl
        (BTag (first_of (map addr cs) None) (last_of None (map addr cs))
              (first_of ats.*1 None) (last_of None ats.*1) (Some nm))
  | AText _ d => mk_iks nxt prv par IKS_CDATA pl (BCdata (Some d) (strlen d))
  end.

(** The nodes below it. *)
Fixpoint below (t : atree) : list (nat * iks) :=
  match t with
  | ATag x _ ats cs =>
      acells x None ats None ++
      (fix go (prv : ptr) (cs : list atree) : list (nat * iks) :=
         match cs with
         | [] => []
         | t :: cs' => (addr t, top (Some x) prv (first_of (map addr cs') None) t) :: below t ++ go (Some (addr t)) cs'
         end) None cs
  | AText _ _ => []
  end.

Definition tcells (par prv nxt : ptr) (t : atree) : list (nat * iks) := (addr t, top par prv nxt t) :: below t.

(** The nodes of the children [cs] of [x] that follow [prv] and precede
    [nxt]. *)
Fixpoint lcells (x : nat) (prv : ptr) (cs : list atree) (nxt : ptr) : list (nat * iks) :=
  match cs with
  | [] => []
  | t :: cs' => tcells (Some x) prv (first_of (map addr cs') nxt) t ++ lcells x (Some (addr t)) cs' nxt
  end.

Lemma below_tag x nm ats cs : below (ATag x nm ats cs) = acells x None ats None ++ lcells x None cs None.
Proof.
  cbn [below]. f_equal. set (p := None : ptr) at 2 3. clearbody p. revert p.
  induction cs as [|t cs IH]; intros p; [done|]. cbn [lcells]. unfold tcells. cbn [app]. by rewrite IH.
Qed.

Lemma tcells_tag par prv nxt x nm ats cs :
  tcells par prv nxt (ATag x nm ats cs)
  = (x, top par prv nxt (ATag x nm ats cs)) :: acells x None ats None ++ lcells x None cs None.
Proof. unfold tcells. by rewrite below_tag. Qed.

Lemma lcells_app x cs1 : ∀ prv cs2 nxt,
  lcells x prv (cs1 ++ cs2) nxt
  = lcells x prv cs1 (first_of (map addr cs2) nxt) ++ lcells x (last_of prv (map addr cs1)) cs2 nxt.
Proof.
  induction cs1 as [|t cs1 IH]; intros prv cs2 nxt; [done|]. cbn [app lcells]. rewrite IH, <-!app_assoc.
  by rewrite map_app, first_of_app.
Qed.

Lemma acells_app x ats1 : ∀ prv ats2 nxt,
  acells x prv (ats1 ++ ats2) nxt
  = acells x prv ats1 (first_of ats2.*1 nxt) ++ acells x (last_of prv ats1.*1) ats2 nxt.
Proof.
  induction ats1 as [|[y kv] ats1 IH]; intros prv ats2 nxt; [done|]. cbn [app acells]. rewrite IH.
  by rewrite fmap_app, first_of_app.
Qed.
End cells.

(** ** Heaps with given nodes *)

Definition holds (h : heap) (L : list (nat * iks)) : Prop := cells (nodes h) L.

(** Allocation succeeds, at addresses that are not used. *)
Definition ready (h : heap) : Prop := hmem h = [] ∧ ∀ y, is_Some (nodes h !! y) → (y < fresh h)%nat.

#[export] Instance holds_perm h : Proper ((≡ₚ) ==> iff) (holds h).
Proof. unfold holds. apply _. Qed.

Lemma ready_put h x n : ready h → is_Some (nodes h !! x) → ready (put h x n).
Proof.
  intros [Hm Hf] Hx. split; [done|]. intros y. cbn [nodes put fresh].
  destruct (decide (y = x)) as [->|]; [by intros _; apply Hf|]. rewrite lookup_insert_ne by done. apply Hf.
Qed.

Definition alloc_heap (h : heap) (n : iks) : heap :=
  mk_heap (<[fresh h := n]> (nodes h)) (S (fresh h)) (fresh_pool h) (hmem h).

Lemma alloc_node_ready h n : ready h → alloc_node h n = (Some (fresh h), alloc_heap h n).
Proof. intros [Hm _]. unfold alloc_node, take_mem. by rewrite Hm. Qed.

Lemma ready_alloc h n : ready h → ready (alloc_heap h n).
Proof.
  intros [Hm Hf]. split; [done|]. intros y. cbn [nodes alloc_heap fresh].
  destruct (decide (y = fresh h)) as [->|]; [lia|]. rewrite lookup_insert_ne by done. intros H. apply Hf in H. lia.
Qed.

Lemma holds_alloc h n L : ready h → holds h L → holds (alloc_heap h n) ((fresh h, n) :: L).
Proof.
  intros [_ Hf] H. apply cells_new; [|done]. destruct (nodes h !! fresh h) eqn:E; [|done].
  specialize (Hf (fresh h) (ex_intro _ _ E)). lia.
Qed.

Lemma dup_ready h t : ready h → dup h t = (Some t, h).
Proof. intros [Hm _]. unfold dup, take_mem. by rewrite Hm. Qed.

(** Both together: the heap an operation works on. *)
Definition owns (h : heap) (L : list (nat * iks)) : Prop := ready h ∧ holds h L.

#[export] Instance owns_perm h : Proper ((≡ₚ) ==> iff) (owns h).
Proof. intros L L' E. unfold owns. by rewrite E. Qed.

Lemma owns_get h A x n B : owns h (A ++ (x, n) :: B) → get h x = Done n.
Proof. intros [_ H]. unfold get. by rewrite (cells_lookup _ _ _ _ _ H). Qed.

Lemma owns_put h A x n n' B : owns h (A ++ (x, n) :: B) → owns (put h x n') (A ++ (x, n') :: B).
Proof.
  intros [Hr Hh]. split; [|by apply (cells_insert _ _ _ _ _ _ Hh)].
  apply ready_put; [done|]. rewrite (cells_lookup _ _ _ _ _ Hh). by eexists.
Qed.

Lemma owns_modify h A x n f B :
  owns h (A ++ (x, n) :: B) →
  modify h x f = Done (put h x (f n)) ∧ owns (put h x (f n)) (A ++ (x, f n) :: B).
Proof. intros H. split; [|by eapply owns_put]. unfold modify. by rewrite (owns_get _ _ _ _ _ H). Qed.

Lemma owns_alloc h n L : owns h L → owns (alloc_heap h n) ((fresh h, n) :: L).
Proof. intros [Hr Hh]. split; [by apply ready_alloc|by apply holds_alloc]. Qed.

(** ** Linking *)

Lemma tag_part_body n c lc a la nm : body_ n = BTag c lc a la nm → tag_part n = Done (c, lc, a, la, nm).
Proof. unfold tag_part. by intros ->. Qed.

Lemma link_child_first h x y nx ny a la nm R :
  owns h ((x, nx) :: (y, ny) :: R) → body_ nx = BTag None None a la nm →
  ∃ h', link_child h x y = Done h' ∧
    owns h' ((x, set_body nx (BTag (Some y) (Some y) a la nm)) :: (y, set_parent ny (Some x)) :: R).
Proof.
  intros H Hb. unfold link_child.
  destruct (owns_modify h [_] y ny (λ n, set_parent n (Some x)) R H) as [-> H1]. cbn [mbind exec_bind].
  rewrite (owns_get _ [] _ _ _ H1). cbn [mbind exec_bind]. rewrite (tag_part_body _ _ _ _ _ _ Hb). cbn [mbind exec_bind].
  pose proof (owns_put _ [] _ _ (set_body nx (BTag (Some y) None a la nm)) _ H1) as H2.
  rewrite (owns_get _ [] _ _ _ H2). cbn [mbind exec_bind tag_part body_ set_body].
  eexists. split; [done|]. apply (owns_put _ [] _ _ _ _ H2).
Qed.

Lemma link_child_next h x y z nx ny nz c a la nm R :
  owns h ((x, nx) :: (y, ny) :: (z, nz) :: R) → body_ nx = BTag (Some c) (Some z) a la nm →
  ∃ h', link_child h x y = Done h' ∧
    owns h' ((x, set_body nx (BTag (Some c) (Some y) a la nm)) ::
             (y, set_prev (set_parent ny (Some x)) (Some z)) :: (z, set_next nz (Some y)) :: R).
Proof.
  intros H Hb. unfold link_child.
  destruct (owns_modify h [_] y ny (λ n, set_parent n (Some x)) _ H) as [-> H1]. cbn [mbind exec_bind].
  rewrite (owns_get _ [] _ _ _ H1). cbn [mbind exec_bind]. rewrite (tag_part_body _ _ _ _ _ _ Hb). cbn [mbind exec_bind].
  pose proof (owns_put _ [] _ _ (set_body nx (BTag (Some c) (Some z) a la nm)) _ H1) as H2.
  destruct (owns_modify _ [_; _] z nz (λ n, set_next n (Some y)) R H2) as [-> H3]. cbn [mbind exec_bind].
  destruct (owns_modify _ [_] y _ (λ n, set_prev n (Some z)) _ H3) as [-> H4]. cbn [mbind exec_bind].
  rewrite (owns_get _ [] _ _ _ H4). cbn [mbind exec_bind tag_part body_ set_body].
  eexists. split; [done|]. apply (owns_put _ [] _ _ _ _ H4).
Qed.

Lemma link_attrib_first h x y nx ny c lc nm R :
  owns h ((x, nx) :: (y, ny) :: R) → body_ nx = BTag c lc None None nm →
  ∃ h', link_attrib h x y = Done h' ∧ owns h' ((x, set_body nx (BTag c lc (Some y) (Some y) nm)) :: (y, ny) :: R).
Proof.
  intros H Hb. unfold link_attrib.
  rewrite (owns_get _ [] _ _ _ H). cbn [mbind exec_bind]. rewrite (tag_part_body _ _ _ _ _ _ Hb). cbn [mbind exec_bind].
  pose proof (owns_put _ [] _ _ (set_body nx (BTag c lc (Some y) None nm)) _ H) as H2.
  rewrite (owns_get _ [] _ _ _ H2). cbn [mbind exec_bind tag_part body_ set_body].
  eexists. split; [done|]. apply (owns_put _ [] _ _ _ _ H2).
Qed.

Lemma link_attrib_next h x y z nx ny nz c lc a nm R :
  owns h ((x, nx) :: (y, ny) :: (z, nz) :: R) → body_ nx = BTag c lc (Some a) (Some z) nm →
  ∃ h', link_attrib h x y = Done h' ∧
    owns h' ((x, set_body nx (BTag c lc (Some a) (Some y) nm)) ::
             (y, set_prev ny (Some z)) :: (z, set_next nz (Some y)) :: R).
Proof.
  intros H Hb. unfold link_attrib.
  rewrite (owns_get _ [] _ _ _ H). cbn [mbind exec_bind]. rewrite (tag_part_body _ _ _ _ _ _ Hb). cbn [mbind exec_bind].
  pose proof (owns_put _ [] _ _ (set_body nx (BTag c lc (Some a) (Some z) nm)) _ H) as H2.
  destruct (owns_modify _ [_; _] z nz (λ n, set_next n (Some y)) R H2) as [-> H3]. cbn [mbind exec_bind].
  destruct (owns_modify _ [_] y _ (λ n, set_prev n (Some z)) _ H3) as [-> H4]. cbn [mbind exec_bind].
  rewrite (owns_get _ [] _ _ _ H4). cbn [mbind exec_bind tag_part body_ set_body].
  eexists. split; [done|]. apply (owns_put _ [] _ _ _ _ H4).
Qed.

(** ** The operations on trees *)
Section ops.
Context (pl : nat).
Abbreviation tcells := (tcells pl).
Abbreviation top := (top pl).

Lemma top_parent par prv nxt t q : set_parent (top par prv nxt t) q = top q prv nxt t.
Proof. by destruct t. Qed.
Lemma top_prev par prv nxt t q : set_prev (top par prv nxt t) q = top par q nxt t.
Proof. by destruct t. Qed.
Lemma top_next par prv nxt t q : set_next (top par prv nxt t) q = top par prv q t.
Proof. by destruct t. Qed.

Lemma top_append par prv nxt x nm ats cs t c :
  first_of (map addr (cs ++ [t])) None = Some c →
  set_body (top par prv nxt (ATag x nm ats cs))
    (BTag (Some c) (Some (addr t)) (first_of ats.*1 None) (last_of None ats.*1) (Some nm))
  = top par prv nxt (ATag x nm ats (cs ++ [t])).
Proof. intros E. unfold top, set_body. cbn. rewrite E, map_app. cbn. by rewrite last_of_snoc. Qed.

(** Linking the node [ny] at the address of [t], whatever it holds. *)
Lemma append_node h par prv nxt x nm ats cs t ny R :
  prev ny = None → owns h (tcells par prv nxt (ATag x nm ats cs) ++ (addr t, ny) :: R) →
  ∃ h', link_child h x (addr t) = Done h' ∧
    owns h' ((x, top par prv nxt (ATag x nm ats (cs ++ [t]))) :: acells pl x None ats None ++
             lcells pl x None cs (Some (addr t)) ++
             (addr t, set_prev (set_parent ny (Some x)) (last_of None (map addr cs))) :: R).
Proof.
  intros Hp. rewrite tcells_tag. destruct cs as [|l cs _] using rev_ind; intros H.
  - destruct (link_child_first h x (addr t) (top par prv nxt (ATag x nm ats [])) ny
      (first_of ats.*1 None) (last_of None ats.*1) (Some nm) (acells pl x None ats None ++ R))
      as (h' & -> & H'); [|done|].
    { revert H. cbn [lcells]. apply owns_perm. perm. }
    exists h'. split; [done|]. revert H'. rewrite top_append by done. apply owns_perm.
    replace (set_prev _ _) with (set_parent ny (Some x)) by (destruct ny; cbn in *; by subst).
    cbn [lcells]. perm.
  - rewrite !lcells_app in *. cbn [lcells map first_of] in *. unfold DomBuild.tcells in *.
    destruct (link_child_next h x (addr t) (addr l) (top par prv nxt (ATag x nm ats (cs ++ [l]))) ny
      (top (Some x) (last_of None (map addr cs)) None l) (default (addr l) (first_of (map addr cs) None))
      (first_of ats.*1 None) (last_of None ats.*1) (Some nm)
      (acells pl x None ats None ++ lcells pl x None cs (Some (addr l)) ++ below pl l ++ R))
      as (h' & -> & H').
    { revert H. apply owns_perm. perm. }
    { cbn. rewrite map_app. cbn. rewrite last_of_snoc. by destruct cs. }
    exists h'. split; [done|]. revert H'. rewrite top_next, top_append by (by destruct cs). apply owns_perm.
    rewrite map_app. cbn [map]. rewrite last_of_snoc. perm.
Qed.

Lemma children_snoc par prv nxt x nm ats cs t :
  tcells par prv nxt (ATag x nm ats (cs ++ [t]))
  = (x, top par prv nxt (ATag x nm ats (cs ++ [t]))) :: acells pl x None ats None ++
    lcells pl x None cs (Some (addr t)) ++ tcells (Some x) (last_of None (map addr cs)) None t.
Proof. rewrite tcells_tag, lcells_app. cbn [lcells map first_of]. by rewrite app_nil_r. Qed.

(** A tree that is linked below [x] becomes its last child. *)
Lemma append_child h par prv nxt x nm ats cs t R :
  owns h (tcells par prv nxt (ATag x nm ats cs) ++ tcells None None None t ++ R) →
  ∃ h', link_child h x (addr t) = Done h' ∧ owns h' (tcells par prv nxt (ATag x nm ats (cs ++ [t])) ++ R).
Proof.
  intros H. destruct (append_node h par prv nxt x nm ats cs t (top None None None t) (below pl t ++ R))
    as (h' & E & H'); [by destruct t|exact H|].
  exists h'. split; [done|]. revert H'. rewrite top_parent, top_prev, children_snoc. apply owns_perm.
  unfold DomBuild.tcells. perm.
Qed.

Lemma new_within_spec h nm L :
  owns h L →
  ∃ y h', iks_new_within h (Some nm) pl = Done (Some y, h') ∧ owns h' (tcells None None None (ATag y nm [] []) ++ L).
Proof.
  intros H. unfold iks_new_within. rewrite alloc_node_ready by apply H.
  set (n0 := mk_iks None None None IKS_TAG pl (BTag None None None None None)).
  pose proof (owns_alloc h n0 L H) as H1. rewrite dup_ready by apply H1.
  destruct (owns_modify _ [] _ _ (λ n, set_body n (BTag None None None None (Some nm))) _ H1) as [-> H2].
  cbn [mbind exec_bind]. exists (fresh h). eexists. split; [done|]. exact H2.
Qed.

Lemma insert_spec h par prv nxt x nm ats cs k R :
  owns h (tcells par prv nxt (ATag x nm ats cs) ++ R) →
  ∃ y h', iks_insert h (Some x) (Some k) = Done (Some y, h') ∧
    owns h' (tcells par prv nxt (ATag x nm ats (cs ++ [ATag y k [] []])) ++ R).
Proof.
  intros H. unfold iks_insert. rewrite (owns_get h [] x _ _ H). cbn [mbind exec_bind pool DomBuild.top].
  destruct (new_within_spec h k _ H) as (y & h1 & -> & H1). cbn [mbind exec_bind].
  destruct (append_child h1 par prv nxt x nm ats cs (ATag y k [] []) R) as (h2 & E & H2).
  { revert H1. apply owns_perm. perm. }
  cbn [addr] in E. rewrite E. cbn [mbind exec_bind]. by exists y, h2.
Qed.

(** Character data is added to a text at the end of the children, or becomes
    a new text. *)
Definition add_text (y : nat) (cs : list atree) (d : str) : list atree :=
  match last cs with
  | Some (AText x t) => removelast cs ++ [AText x (t ++ d)]
  | _ => cs ++ [AText y d]
  end.

Lemma read_all d len : len = 0 ∨ len = strlen d → mread (d ++ [0]) 0 (if len =? 0 then strlen d else len) = Done d.
Proof.
  intros Hl. replace (if len =? 0 then strlen d else len) with (strlen d); [apply whole_text|].
  destruct (Z.eqb_spec len 0); [done|]. lia.
Qed.

Lemma last_child_text h par prv nxt x nm ats cs z t R :
  owns h (tcells par prv nxt (ATag x nm ats (cs ++ [AText z t])) ++ R) →
  IKS_TAG_LAST_CHILD h x = Done (Some z).
Proof.
  intros H. unfold IKS_TAG_LAST_CHILD. rewrite (owns_get h [] x _ _ H). cbn.
  rewrite map_app. cbn [map addr]. by rewrite last_of_snoc.
Qed.

Lemma append_text h par prv nxt x nm ats cs z t d len R :
  len = 0 ∨ len = strlen d →
  owns h (tcells par prv nxt (ATag x nm ats (cs ++ [AText z t])) ++ R) →
  ∃ h', iks_insert_cdata h (Some x) (Some d) len = Done (Some z, h') ∧
    owns h' (tcells par prv nxt (ATag x nm ats (cs ++ [AText z (t ++ d)])) ++ R).
Proof.
  intros Hl H. unfold iks_insert_cdata. rewrite read_all by done. cbn [mbind exec_bind].
  rewrite (last_child_text _ _ _ _ _ _ _ _ _ _ _ H). cbn [mbind exec_bind].
  rewrite !tcells_tag, !lcells_app in *. cbn [lcells DomBuild.tcells map first_of addr DomBuild.below app] in *.
  set (n := top (Some x) (last_of None (map addr cs)) None (AText z t)) in H.
  set (A := (x, top par prv nxt (ATag x nm ats (cs ++ [AText z t]))) :: acells pl x None ats None ++
            lcells pl x None cs (Some z)).
  assert (H1 : owns h (A ++ (z, n) :: R)) by (revert H; apply owns_perm; unfold A; perm).
  rewrite (owns_get _ _ _ _ _ H1). cbn [mbind exec_bind]. rewrite decide_True by done.
  cbn [cdata_part n DomBuild.top body_ mbind exec_bind]. rewrite dup_ready by apply H1.
  eexists. split; [done|].
  pose proof (owns_put _ _ _ _ (top (Some x) (last_of None (map addr cs)) None (AText z (t ++ d))) _ H1) as H2.
  revert H2. unfold A. cbn [default]. unfold put, set_body, n. cbn.
  replace ((if len =? 0 then strlen d else len)) with (strlen d) by (destruct (Z.eqb_spec len 0); lia).
  rewrite <-strlen_app, !map_app. cbn [map addr]. apply owns_perm. perm.
Qed.

(** The case where the last child is no text. *)
Lemma last_child_other h par prv nxt x nm ats cs R :
  (∀ z t, last cs ≠ Some (AText z t)) → owns h (tcells par prv nxt (ATag x nm ats cs) ++ R) →
  IKS_TAG_LAST_CHILD h x = Done (last_of None (map addr cs)) ∧
  (∀ y, last_of None (map addr cs) = Some y → ∃ n, get h y = Done n ∧ ntype n ≠ IKS_CDATA).
Proof.
  intros Hl H. split; [unfold IKS_TAG_LAST_CHILD; by rewrite (owns_get h [] x _ _ H)|].
  intros y Hy. destruct cs as [|l cs _] using rev_ind; [done|].
  rewrite map_app in Hy. cbn [map] in Hy. rewrite last_of_snoc in Hy. injection Hy as <-.
  rewrite children_snoc in H. unfold DomBuild.tcells in H.
  exists (top (Some x) (last_of None (map addr cs)) None l). split.
  - eapply (owns_get _ ((x, top par prv nxt (ATag x nm ats (cs ++ [l]))) :: acells pl x None ats None ++
             lcells pl x None cs (Some (addr l))) _ _ (below pl l ++ R)).
    revert H. apply owns_perm. perm.
  - destruct l as [? ? ? ?|z t]; [done|]. destruct (Hl z t). by rewrite last_snoc.
Qed.

Lemma new_text h par prv nxt x nm ats cs d len R :
  len = 0 ∨ len = strlen d → (∀ z t, last cs ≠ Some (AText z t)) →
  owns h (tcells par prv nxt (ATag x nm ats cs) ++ R) →
  ∃ y h', iks_insert_cdata h (Some x) (Some d) len = Done (Some y, h') ∧
    owns h' (tcells par prv nxt (ATag x nm ats (cs ++ [AText y d])) ++ R).
Proof.
  intros Hl Hn H. destruct (last_child_other _ _ _ _ _ _ _ _ _ Hn H) as [E1 E2].
  set (n0 := mk_iks None None None IKS_TAG pl (BCdata None 0)). set (y := fresh h).
  pose proof (owns_alloc h n0 _ H) as H1. fold y in H1.
  destruct (append_node (alloc_heap h n0) par prv nxt x nm ats cs (AText y d) n0 R) as (h1 & E3 & H2); [done| |].
  { revert H1. apply owns_perm. perm. }
  set (A := (x, top par prv nxt (ATag x nm ats (cs ++ [AText y d]))) :: acells pl x None ats None ++
            lcells pl x None cs (Some y)) in *.
  assert (H3 : owns h1 (A ++ (y, set_prev (set_parent n0 (Some x)) (last_of None (map addr cs))) :: R))
    by (revert H2; apply owns_perm; unfold A; cbn [addr]; perm). clear H2.
  destruct (owns_modify _ _ _ _ (λ n, set_body (set_type n IKS_CDATA) (BCdata (Some d) 0)) _ H3) as [E4 H4].
  destruct (owns_modify _ _ _ _ (λ n, set_body n (BCdata (Some d) (strlen d))) _ H4) as [E5 H5].
  exists y. eexists. split; cycle 1.
  { rewrite children_snoc. eapply owns_perm; [|exact H5]. unfold A, DomBuild.tcells. cbn. perm. }
  unfold iks_insert_cdata. rewrite read_all by done. cbn [mbind exec_bind].
  replace (if len =? 0 then strlen d else len) with (strlen d) by (destruct (Z.eqb_spec len 0); lia).
  assert (E : (iks_insert h (Some x) None) = Done (Some y, h1)).
  { unfold iks_insert. rewrite (owns_get h [] x _ _ H). cbn [mbind exec_bind pool DomBuild.top].
    unfold iks_new_within. rewrite alloc_node_ready by apply H. cbn [mbind exec_bind]. fold n0.
    cbn [addr] in E3. unfold y in E3. rewrite E3. done. }
  rewrite E1. cbn [mbind exec_bind]. destruct (last_of None (map addr cs)) as [z|] eqn:Ez.
  - destruct (E2 z eq_refl) as (n & -> & Hc). cbn [mbind exec_bind]. rewrite decide_False by done.
    rewrite E. cbn [mbind exec_bind]. rewrite dup_ready by apply H3. rewrite E4. cbn [mbind exec_bind].
    by rewrite E5.
  - rewrite E. cbn [mbind exec_bind]. rewrite dup_ready by apply H3. rewrite E4. cbn [mbind exec_bind].
    by rewrite E5.
Qed.

Lemma insert_cdata_spec h par prv nxt x nm ats cs d len R :
  len = 0 ∨ len = strlen d → owns h (tcells par prv nxt (ATag x nm ats cs) ++ R) →
  ∃ y z h', iks_insert_cdata h (Some x) (Some d) len = Done (Some z, h') ∧
    owns h' (tcells par prv nxt (ATag x nm ats (add_text y cs d)) ++ R).
Proof.
  intros Hl H. unfold add_text. destruct (last cs) as [[? ? ? ?|z t]|] eqn:E.
  - destruct (new_text h par prv nxt x nm ats cs d len R) as (y & h' & ? & ?); [done|congruence|done|]. eauto.
  - apply last_Some in E as [cs' ->]. rewrite removelast_last.
    destruct (append_text _ _ _ _ _ _ _ _ _ _ _ _ _ Hl H) as (h' & ? & ?). exists 0%nat. eauto.
  - destruct (new_text h par prv nxt x nm ats cs d len R) as (y & h' & ? & ?); [done|congruence|done|]. eauto.
Qed.

(** ** Attributes *)

Lemma owns_length h L : owns h L → (length L <= size (nodes h))%nat.
Proof. intros [_ H]. by apply cells_length. Qed.

Lemma acells_length par prv ats nxt : length (acells pl par prv ats nxt) = length ats.
Proof. revert prv. induction ats as [|[y kv] ats IH]; intros prv; [done|]. cbn. by rewrite IH. Qed.

Fixpoint find_addr (ats : list (nat * (str * str))) (k : str) : ptr :=
  match ats with
  | [] => None
  | (z, (k', _)) :: ats' => if decide (k = k') then Some z else find_addr ats' k
  end.

Lemma find_name_acells h x k : ∀ ats prv fuel,
  (∀ y n, (y, n) ∈ acells pl x prv ats None → nodes h !! y = Some n) → (length ats < fuel)%nat →
  find_name fuel h (first_of ats.*1 None) k = Done (find_addr ats k).
Proof.
  induction ats as [|[z [k' v]] ats IH]; intros prv fuel Hn Hf; [by destruct fuel|].
  destruct fuel as [|fuel]; [cbn in Hf; lia|]. cbn [fmap list_fmap first_of fst find_name].
  unfold get. rewrite (Hn z (attrib_node pl x prv (first_of ats.*1 None) (k', v))) by (by left).
  cbn. rewrite strcmp_test. case_bool_decide; [by rewrite decide_True|]. rewrite decide_False by done.
  apply (IH (Some z)); [|cbn in Hf; lia]. intros y n Hy. apply Hn. by right.
Qed.

Lemma find_name_spec h par prv nxt x nm ats cs k R :
  owns h (tcells par prv nxt (ATag x nm ats cs) ++ R) →
  IKS_TAG_ATTRIBS h x = Done (first_of ats.*1 None) ∧
  find_name (chain_fuel h) h (first_of ats.*1 None) k = Done (find_addr ats k).
Proof.
  intros H. split; [unfold IKS_TAG_ATTRIBS; by rewrite (owns_get h [] x _ _ H)|].
  rewrite tcells_tag in H. apply (find_name_acells h x k ats None).
  - intros y n Hy. apply H. set_solver.
  - apply owns_length in H. cbn in H. rewrite !length_app, acells_length in H. unfold chain_fuel. lia.
Qed.

(** Setting an attribute: in place, or at the end. *)
Fixpoint set_att (y : nat) (ats : list (nat * (str * str))) (k v : str) : list (nat * (str * str)) :=
  match ats with
  | [] => [(y, (k, v))]
  | (z, (k', v')) :: ats' => if decide (k = k') then (z, (k, v)) :: ats' else (z, (k', v')) :: set_att y ats' k v
  end.

Lemma set_att_found y k v : ∀ ats z,
  find_addr ats k = Some z →
  ∃ A v0 B, ats = A ++ (z, (k, v0)) :: B ∧ set_att y ats k v = A ++ (z, (k, v)) :: B.
Proof.
  induction ats as [|[z' [k' v']] ats IH]; intros z; cbn; [done|]. case_decide as E; intros Hz.
  - injection Hz as ->. subst. by exists [], v', ats.
  - destruct (IH z Hz) as (A & v0 & B & -> & ->). by exists ((z', (k', v')) :: A), v0, B.
Qed.

Lemma set_att_new y k v : ∀ ats, find_addr ats k = None → set_att y ats k v = ats ++ [(y, (k, v))].
Proof.
  induction ats as [|[z' [k' v']] ats IH]; cbn; [done|]. case_decide; [done|]. intros Hz. by rewrite IH.
Qed.

(** Replacing the value of an attribute. *)
Lemma replace_value h par prv nxt x nm A z k v0 v B cs R :
  owns h (tcells par prv nxt (ATag x nm (A ++ (z, (k, v0)) :: B) cs) ++ R) →
  ∃ n h', get h z = Done n ∧ body_ n = BAttrib (Some k) (Some v0) ∧ put h z (set_body n (BAttrib (Some k) (Some v))) = h' ∧
    owns h' (tcells par prv nxt (ATag x nm (A ++ (z, (k, v)) :: B) cs) ++ R).
Proof.
  rewrite !tcells_tag, !acells_app. cbn [acells fmap list_fmap first_of fst]. intros H.
  set (n := attrib_node pl x (last_of None A.*1) (first_of B.*1 None) (k, v0)) in *.
  set (t := ATag x nm (A ++ (z, (k, v0)) :: B) cs) in *.
  set (L := (x, top par prv nxt t) :: acells pl x None A (Some z)).
  assert (H1 : owns h (L ++ (z, n) :: acells pl x (Some z) B None ++ lcells pl x None cs None ++ R))
    by (revert H; apply owns_perm; unfold L; perm).
  exists n. eexists. split; [by apply (owns_get _ _ _ _ _ H1)|]. split; [done|]. split; [done|].
  apply (owns_put _ _ _ _ (set_body n (BAttrib (Some k) (Some v)))) in H1. revert H1. apply owns_perm.
  unfold L, t, n, DomBuild.top. rewrite !fmap_app. perm.
Qed.

Lemma top_attrib par prv nxt x nm ats cs a y kv :
  first_of (ats ++ [(y, kv)]).*1 None = Some a →
  set_body (top par prv nxt (ATag x nm ats cs))
    (BTag (first_of (map addr cs) None) (last_of None (map addr cs)) (Some a) (Some y) (Some nm))
  = top par prv nxt (ATag x nm (ats ++ [(y, kv)]) cs).
Proof. intros E. unfold top, set_body. cbn. rewrite E, fmap_app. cbn. by rewrite last_of_snoc. Qed.

(** A fresh attribute that is linked to [x] becomes its last one. *)
Lemma append_attrib h par prv nxt x nm ats cs y kv ny R :
  prev ny = None → owns h (tcells par prv nxt (ATag x nm ats cs) ++ (y, ny) :: R) →
  ∃ h', link_attrib h x y = Done h' ∧
    owns h' ((x, top par prv nxt (ATag x nm (ats ++ [(y, kv)]) cs)) :: acells pl x None ats (Some y) ++
             lcells pl x None cs None ++ (y, set_prev ny (last_of None ats.*1)) :: R).
Proof.
  intros Hp. rewrite tcells_tag. destruct ats as [|[z kz] ats _] using rev_ind; intros H.
  - destruct (link_attrib_first h x y (top par prv nxt (ATag x nm [] cs)) ny
      (first_of (map addr cs) None) (last_of None (map addr cs)) (Some nm) (lcells pl x None cs None ++ R))
      as (h' & -> & H'); [|done|].
    { revert H. cbn [acells]. apply owns_perm. perm. }
    exists h'. split; [done|]. revert H'. rewrite (top_attrib _ _ _ _ _ _ _ _ _ kv) by done. apply owns_perm.
    replace (set_prev _ _) with ny by (destruct ny; cbn in *; by subst). cbn [acells]. perm.
  - rewrite !acells_app in *. cbn [acells fmap list_fmap first_of fst] in *.
    destruct (link_attrib_next h x y z (top par prv nxt (ATag x nm (ats ++ [(z, kz)]) cs)) ny
      (attrib_node pl x (last_of None ats.*1) None kz)
      (first_of (map addr cs) None) (last_of None (map addr cs)) (default z (first_of ats.*1 None)) (Some nm)
      (acells pl x None ats (Some z) ++ lcells pl x None cs None ++ R))
      as (h' & -> & H').
    { revert H. apply owns_perm. perm. }
    { cbn. rewrite fmap_app. cbn. rewrite last_of_snoc. by destruct ats as [|[? ?] ?]. }
    exists h'. split; [done|]. revert H'.
    rewrite (top_attrib _ _ _ _ _ _ _ _ _ kv) by (by destruct ats as [|[? ?] ?]). apply owns_perm.
    rewrite fmap_app. cbn [fmap list_fmap fst]. rewrite last_of_snoc. perm.
Qed.

Lemma attribs_snoc par prv nxt x nm ats cs y kv :
  tcells par prv nxt (ATag x nm (ats ++ [(y, kv)]) cs)
  = (x, top par prv nxt (ATag x nm (ats ++ [(y, kv)]) cs)) :: (acells pl x None ats (Some y) ++
      [(y, attrib_node pl x (last_of None ats.*1) None kv)]) ++ lcells pl x None cs None.
Proof. by rewrite tcells_tag, acells_app. Qed.

(** Up to the value: the new attribute is linked before it gets one. *)
Lemma new_attrib h par prv nxt x nm ats cs k v R :
  find_addr ats k = None → owns h (tcells par prv nxt (ATag x nm ats cs) ++ R) →
  ∃ y h', iks_insert_attrib h (Some x) k (Some v) = Done (Some y, h') ∧
    owns h' (tcells par prv nxt (ATag x nm (ats ++ [(y, (k, v))]) cs) ++ R).
Proof.
  intros Ek H. destruct (find_name_spec _ _ _ _ _ _ _ _ k _ H) as [E1 E2]. rewrite Ek in E2.
  set (n0 := mk_iks None None None IKS_ATTRIBUTE pl (BAttrib None None)). set (y := fresh h).
  pose proof (owns_alloc h n0 _ H) as H1. fold y in H1.
  destruct (owns_modify _ [] _ _ (λ n, set_body n (BAttrib (Some k) None)) _ H1) as [E3 H2].
  destruct (owns_modify _ [] _ _ (λ n, set_parent n (Some x)) _ H2) as [E4 H3]. clear H2.
  set (n1 := set_parent (set_body n0 (BAttrib (Some k) None)) (Some x)) in *.
  set (h2 := put (put _ _ _) _ _) in *.
  destruct (append_attrib h2 par prv nxt x nm ats cs y (k, v) n1 R) as (h3 & E5 & H4); [done| |].
  { revert H3. apply owns_perm. perm. }
  set (A := (x, top par prv nxt (ATag x nm (ats ++ [(y, (k, v))]) cs)) :: acells pl x None ats (Some y)).
  set (n2 := set_prev n1 (last_of None ats.*1)) in *.
  assert (H5 : owns h3 (A ++ (y, n2) :: lcells pl x None cs None ++ R))
    by (revert H4; apply owns_perm; unfold A; perm). clear H4.
  exists y. eexists. split; cycle 1.
  { rewrite attribs_snoc. eapply owns_perm;
      [|exact (owns_put _ _ _ _ (set_body n2 (BAttrib (Some k) (Some v))) _ H5)]. unfold A, n2, n1. cbn. perm. }
  unfold iks_insert_attrib. rewrite E1. cbn [mbind exec_bind]. rewrite E2. cbn [mbind exec_bind].
  rewrite (owns_get h [] x _ _ H). cbn [mbind exec_bind pool DomBuild.top]. rewrite alloc_node_ready by apply H.
  fold n0 y. rewrite dup_ready by apply H1. rewrite E3. cbn [mbind exec_bind]. rewrite E4. cbn [mbind exec_bind].
  rewrite E5. cbn [mbind exec_bind]. rewrite dup_ready by apply H5. by rewrite (owns_get _ _ _ _ _ H5).
Qed.

Lemma insert_attrib_spec h par prv nxt x nm ats cs k v R :
  owns h (tcells par prv nxt (ATag x nm ats cs) ++ R) →
  ∃ y z h', iks_insert_attrib h (Some x) k (Some v) = Done (Some z, h') ∧
    owns h' (tcells par prv nxt (ATag x nm (set_att y ats k v) cs) ++ R).
Proof.
  intros H. destruct (find_addr ats k) as [z|] eqn:Ek.
  - destruct (set_att_found 0%nat k v ats z Ek) as (A & v0 & B & -> & E). exists 0%nat, z. rewrite E.
    destruct (find_name_spec _ _ _ _ _ _ _ _ k _ H) as [E1 E2]. rewrite Ek in E2.
    destruct (replace_value _ _ _ _ _ _ _ _ _ _ v _ _ _ H) as (n & h' & E3 & E4 & E5 & H').
    exists h'. split; [|done]. unfold iks_insert_attrib. rewrite E1. cbn [mbind exec_bind]. rewrite E2.
    cbn [mbind exec_bind]. rewrite dup_ready by apply H. rewrite E3. cbn [mbind exec_bind]. unfold attrib_part.
    by rewrite E4, <-E5.
  - destruct (new_attrib h par prv nxt x nm ats cs k v R Ek H) as (y & h' & E & H').
    exists y, y, h'. by rewrite set_att_new.
Qed.

(** ** The tree a heap represents *)

Lemma rep_acells h x : ∀ ats prv,
  (∀ y n, (y, n) ∈ acells pl x prv ats None → nodes h !! y = Some n) →
  rep_atts h x ats.*2 prv (first_of ats.*1 None) (last_of prv ats.*1).
Proof.
  induction ats as [|[y [k v]] ats IH]; intros prv Hn; [done|]. cbn.
  exists y, (attrib_node pl x prv (first_of ats.*1 None) (k, v)). split_and!; try done.
  - apply Hn. by left.
  - apply (IH (Some y)). intros z n Hz. apply Hn. by right.
Qed.

Lemma rep_tcells t : ∀ h par prv nxt,
  (∀ y n, (y, n) ∈ tcells par prv nxt t → nodes h !! y = Some n) → rep h (erase t) (addr t) (top par prv nxt t).
Proof.
  induction t as [x nm ats cs Hcs|x d] using atree_nested_ind; intros h par prv nxt Hn.
  2: { cbn. split; [apply Hn; by left|done]. }
  cbn [erase addr]. rewrite tcells_tag in Hn. apply rep_tag. split; [apply Hn; by left|]. split; [done|].
  do 4 eexists. split; [done|]. split; [apply rep_acells; intros y n Hy; apply Hn; set_solver|].
  assert (Hl : ∀ y n, (y, n) ∈ lcells pl x None cs None → nodes h !! y = Some n)
    by (intros y n Hy; apply Hn; set_solver). clear Hn.
  enough (Hr : ∀ p, (∀ y n, (y, n) ∈ lcells pl x p cs None → nodes h !! y = Some n) →
    rep_list h x (map erase cs) p (first_of (map addr cs) None) (last_of p (map addr cs))) by (by apply Hr).
  clear Hl.
  induction Hcs as [|t cs Ht Hcs IH]; intros p Hl; [done|]. cbn [lcells map] in *.
  exists (addr t), (top (Some x) p (first_of (map addr cs) None) t). split; [done|].
  split; [by destruct t|]. split; [by destruct t|]. split; [apply Ht; set_solver|].
  replace (next _) with (first_of (map addr cs) None) by (by destruct t). apply IH. set_solver.
Qed.
End ops.

Lemma owns_rep pl h par prv nxt t R :
  owns h (tcells pl par prv nxt t ++ R) → rep h (erase t) (addr t) (top pl par prv nxt t).
Proof. intros [_ [_ H]]. apply rep_tcells. intros y n Hy. apply H. set_solver. Qed.

(** ** The operations without addresses *)

Fixpoint put_att (ats : list (str * str)) (k v : str) : list (str * str) :=
  match ats with
  | [] => [(k, v)]
  | (k', v') :: ats' => if decide (k = k') then (k, v) :: ats' else (k', v') :: put_att ats' k v
  end.

Definition put_text (cs : list tree) (d : str) : list tree :=
  match last cs with
  | Some (TText t) => removelast cs ++ [TText (t ++ d)]
  | _ => cs ++ [TText d]
  end.

Lemma erase_set_att y ats k v : (set_att y ats k v).*2 = put_att ats.*2 k v.
Proof.
  induction ats as [|[z [k' v']] ats IH]; [done|]. cbn. case_decide; [done|]. cbn. by rewrite IH.
Qed.

Lemma erase_add_text y cs d : map erase (add_text y cs d) = put_text (map erase cs) d.
Proof.
  unfold add_text, put_text. destruct cs as [|l cs _] using rev_ind; [done|].
  rewrite !map_app. cbn [map]. rewrite !last_snoc, !removelast_last.
  destruct l; cbn [erase]; by rewrite !map_app.
Qed.

(** ** The last child of a tag

    What is left of the nodes of [x] without those of its last child, which
    lies at [y]. *)
Definition hole (pl : nat) (par prv nxt : ptr) (x : nat) (nm : str) (ats : list (nat * (str * str)))
    (cs : list atree) (y : nat) : list (nat * iks) :=
  (x, top pl par prv nxt (ATag x nm ats (cs ++ [AText y []]))) :: acells pl x None ats None ++
  lcells pl x None cs (Some y).

Lemma focus_last pl par prv nxt x nm ats cs t :
  tcells pl par prv nxt (ATag x nm ats (cs ++ [t]))
  ≡ₚ tcells pl (Some x) (last_of None (map addr cs)) None t ++ hole pl par prv nxt x nm ats cs (addr t).
Proof.
  rewrite children_snoc. unfold hole.
  replace (top pl par prv nxt (ATag x nm ats (cs ++ [AText (addr t) []])))
    with (top pl par prv nxt (ATag x nm ats (cs ++ [t]))) by (cbn; by rewrite !map_app).
  perm.
Qed.

(** Working on the last child with the rest of the tag in the frame. *)
Lemma owns_focus pl h par prv nxt x nm ats cs t R :
  owns h (tcells pl par prv nxt (ATag x nm ats (cs ++ [t])) ++ R) ↔
  owns h (tcells pl (Some x) (last_of None (map addr cs)) None t ++ hole pl par prv nxt x nm ats cs (addr t) ++ R).
Proof. by rewrite focus_last, <-app_assoc. Qed.

(** ** New documents *)

Lemma ready_pool h p : ready h → ready (mk_heap (nodes h) (fresh h) p (hmem h)).
Proof. done. Qed.

Lemma new_spec h nm L :
  owns h L →
  ∃ pl y h', iks_new h nm = Done (Some y, h') ∧ owns h' (tcells pl None None None (ATag y nm [] []) ++ L).
Proof.
  intros H. unfold iks_new, iks_stack_new, take_mem. destruct H as [[Hm Hf] Hh].
  rewrite Hm. cbn beta iota zeta. rewrite Hm.
  destruct (new_within_spec (fresh_pool h) (mk_heap (nodes h) (fresh h) (S (fresh_pool h)) []) nm L)
    as (y & h' & E & H'); [split; [split; [done|exact Hf]|done]|].
  rewrite E. cbn [mbind exec_bind]. by exists (fresh_pool h), y, h'.
Qed.
