(* ===== verification/DomQuery.v ===== *)
(** * Questions about documents

    What the functions of [Dom] that look things up answer on a represented
    tree: attributes by name, children by name, the text of a child, the next
    tag.  They stop inside the fuel [chain_fuel], because a chain of siblings
    is shorter than the heap. *)

From S2P Require Import Prelude XmlText Dom DomPrint.

Local Open Scope Z_scope.

(** The value of the first attribute called [k]. *)
Fixpoint att (ats : list (str * str)) (k : str) : option str :=
  match ats with
  | [] => None
  | (k', v) :: ats' => if decide (k' = k) then Some v else att ats' k
  end.

Definition has_name (nm : str) (t : tree) : Prop := match t with TTag nm' _ _ => nm' = nm | TText _ => False end.
Definition is_tag (t : tree) : Prop := match t with TTag _ _ _ => True | TText _ => False end.

#[export] Instance has_name_dec nm t : Decision (has_name nm t).
Proof. destruct t; cbn; apply _. Defined.
#[export] Instance is_tag_dec t : Decision (is_tag t).
Proof. destruct t; cbn; apply _. Defined.

Definition tree_atts (t : tree) : list (str * str) := match t with TTag _ ats _ => ats | TText _ => [] end.

(** The text that is the first child. *)
Definition first_text (t : tree) : option str :=
  match t with TTag _ _ (TText d :: _) => Some d | _ => None end.

(** The first element with a property. *)
Definition first_with {A} (P : A → Prop) `{∀ a, Decision (P a)} (l : list A) : option A := snd <$> list_find P l.

Lemma first_with_cons {A} (P : A → Prop) `{∀ a, Decision (P a)} a l :
  first_with P (a :: l) = if decide (P a) then Some a else first_with P l.
Proof. unfold first_with. cbn. case_decide; [done|]. by destruct (list_find P l) as [[? ?]|]. Qed.

(** ** Checking a representation by evaluation *)

#[export] Instance body_eq_dec : EqDecision body.
Proof. solve_decision. Defined.

Fixpoint check_atts (h : heap) (par : nat) (ats : list (str * str)) (prv first last : ptr) : bool :=
  match ats with
  | [] => bool_decide (first = None ∧ last = prv)
  | (k, v) :: ats' =>
      match first with
      | Some y =>
          match nodes h !! y with
          | Some n =>
              bool_decide (ntype n = IKS_ATTRIBUTE ∧ prev n = prv ∧ parent n = Some par ∧
                           body_ n = BAttrib (Some k) (Some v)) && check_atts h par ats' (Some y) (next n) last
          | None => false
          end
      | None => false
      end
  end.

Section check_list.
Context (check : tree → nat → bool) (h : heap) (x : nat).
Fixpoint check_list (cs : list tree) (prv first last : ptr) : bool :=
  match cs with
  | [] => bool_decide (first = None ∧ last = prv)
  | t :: cs' =>
      match first with
      | Some y =>
          match nodes h !! y with
          | Some m => bool_decide (prev m = prv ∧ parent m = Some x) && check t y && check_list cs' (Some y) (next m) last
          | None => false
          end
      | None => false
      end
  end.
End check_list.

Fixpoint check (h : heap) (t : tree) (x : nat) : bool :=
  match nodes h !! x with
  | None => false
  | Some n =>
      match t, body_ n with
      | TText d, b => bool_decide (ntype n = IKS_CDATA ∧ b = BCdata (Some d) (strlen d))
      | TTag nm ats cs, BTag c lc a la nm' =>
          bool_decide (ntype n = IKS_TAG ∧ nm' = Some nm) && check_atts h x ats None a la &&
          check_list (check h) h x cs None c lc
      | TTag _ _ _, _ => false
      end
  end.

Lemma check_atts_sound h x : ∀ ats prv first last,
  check_atts h x ats prv first last = true → rep_atts h x ats prv first last.
Proof.
  induction ats as [|[k v] ats IH]; intros prv first last; cbn; [apply bool_decide_eq_true_1|].
  destruct first as [y|]; [|done]. destruct (nodes h !! y) as [n|] eqn:E; [|done].
  intros [(? & ? & ? & ?)%bool_decide_eq_true ?%IH]%andb_true_iff. by exists y, n.
Qed.

Lemma check_sound h t : ∀ x n, nodes h !! x = Some n → check h t x = true → rep h t x n.
Proof.
  induction t as [nm ats cs Hcs|d] using tree_nested_ind; intros x n E; cbn [check]; rewrite E.
  2: { intros [? ?]%bool_decide_eq_true. by split. }
  destruct (body_ n) as [c lc a la nm'| |] eqn:Eb; [|done..].
  intros [[[Ht ->]%bool_decide_eq_true Ha%check_atts_sound]%andb_true_iff Hl]%andb_true_iff.
  apply rep_tag. split; [done|]. split; [done|]. exists c, lc, a, la. split; [done|]. split; [done|].
  clear -Hcs Hl. revert Hl. generalize (None : ptr) as prv. revert c.
  induction Hcs as [|t cs Ht Hcs IH]; intros c prv; cbn; [apply bool_decide_eq_true_1|].
  destruct c as [y|]; [|done]. destruct (nodes h !! y) as [m|] eqn:E; [|done].
  intros [[[? ?]%bool_decide_eq_true Hc]%andb_true_iff Hl]%andb_true_iff. exists y, m. split_and!; auto.
Qed.

Ltac rep_compute := apply check_sound; [reflexivity|vm_compute; reflexivity].

(** ** Attributes *)

Lemma IKS_TAG_ATTRIBS_rep h nm ats cs x n :
  rep h (TTag nm ats cs) x n → ∃ a la, IKS_TAG_ATTRIBS h x = Done a ∧ rep_atts h x ats None a la.
Proof.
  rewrite rep_tag. intros (Hn & _ & c & lc & a & la & Hb & Ha & _). exists a, la. split; [|done].
  unfold IKS_TAG_ATTRIBS, get, tag_part. rewrite Hn. cbn. by rewrite Hb.
Qed.

Lemma attrib_fields h y n k v :
  nodes h !! y = Some n → body_ n = BAttrib k v →
  get h y = Done n ∧ IKS_ATTRIB_NAME h y = Done k ∧ IKS_ATTRIB_VALUE h y = Done v.
Proof. intros Hn Hb. unfold IKS_ATTRIB_NAME, IKS_ATTRIB_VALUE, get. rewrite Hn. cbn. by rewrite Hb. Qed.

Lemma seek_attrib h x k : ∀ ats prv first last fuel,
  rep_atts h x ats prv first last → (length ats < fuel)%nat →
  (y ← seek fuel h (λ y n, k' ← IKS_ATTRIB_NAME h y;
     Done (match k' with Some k' => strcmp k' k =? 0 | None => false end)) first;
   match y with Some y => IKS_ATTRIB_VALUE h y | None => Done None end) = Done (att ats k).
Proof.
  induction ats as [|[k' v] ats IH]; intros prv first last fuel Hr Hf; cbn in Hr.
  - destruct Hr as [-> _]. by destruct fuel.
  - destruct Hr as (y & n & -> & Hn & _ & _ & _ & Hb & Hr). destruct fuel as [|fuel]; [cbn in Hf; lia|].
    destruct (attrib_fields _ _ _ _ _ Hn Hb) as (E1 & E2 & E3).
    cbn [seek]. rewrite E1. cbn [mbind exec_bind]. rewrite E2. cbn [mbind exec_bind]. rewrite strcmp_test. cbn [att]. case_bool_decide.
    + by rewrite decide_True.
    + rewrite decide_False by done. apply (IH _ _ _ _ Hr). cbn in Hf. lia.
Qed.

Lemma rep_atts_fuel h x ats first last : rep_atts h x ats None first last → (length ats < chain_fuel h)%nat.
Proof. intros H. destruct (rep_atts_path _ _ _ _ _ _ H) as (ids & Hp & <-). by apply (path_length _ first). Qed.

Lemma find_attrib_rep h nm ats cs x n k :
  rep h (TTag nm ats cs) x n → iks_find_attrib h (Some x) k = Done (att ats k).
Proof.
  intros H. destruct (IKS_TAG_ATTRIBS_rep _ _ _ _ _ _ H) as (a & la & E & Ha). unfold iks_find_attrib. rewrite E.
  cbn [mbind exec_bind]. apply (seek_attrib _ _ _ _ _ _ _ _ Ha). by apply (rep_atts_fuel _ x _ a la).
Qed.

(** ** Children *)

Lemma rep_list_path h x : ∀ cs prv first last,
  rep_list h x cs prv first last → ∃ ids, path h prv first ids ∧ length ids = length cs.
Proof.
  induction cs as [|t cs IH]; intros prv first last Hr; cbn in Hr.
  - exists []. by destruct Hr as [-> _].
  - destruct Hr as (y & m & -> & Hp & _ & Hm & Hr). destruct (IH _ _ _ Hr) as (ids & Hi & Hl).
    exists (y :: ids). cbn. split; [|by rewrite Hl]. split; [done|]. exists m. split; [by apply (rep_node _ t)|done].
Qed.

Lemma rep_list_fuel h x cs first last : rep_list h x cs None first last → (length cs < chain_fuel h)%nat.
Proof. intros H. destruct (rep_list_path _ _ _ _ _ _ H) as (ids & Hp & <-). by apply (path_length _ first). Qed.

Lemma children_rep h nm ats cs x n :
  rep h (TTag nm ats cs) x n →
  ∃ c lc, IKS_TAG_CHILDREN h x = Done c ∧ iks_child h (Some x) = Done c ∧ rep_list h x cs None c lc.
Proof.
  rewrite rep_tag. intros (Hn & Ht & c & lc & a & la & Hb & _ & Hc). exists c, lc.
  assert (E : IKS_TAG_CHILDREN h x = Done c) by (unfold IKS_TAG_CHILDREN, get; rewrite Hn; cbn; by rewrite Hb).
  split; [done|]. split; [|done]. unfold iks_child, get. rewrite Hn. cbn. by rewrite decide_True.
Qed.

(** A loop over siblings finds the first tree that passes its test. *)
Lemma seek_list h x (P : tree → Prop) `{∀ t, Decision (P t)} test :
  (∀ t y m, rep h t y m → test y m = Done (bool_decide (P t))) →
  ∀ cs prv first last fuel, rep_list h x cs prv first last → (length cs < fuel)%nat →
  match first_with P cs with
  | Some t => ∃ y m, seek fuel h test first = Done (Some y) ∧ rep h t y m
  | None => seek fuel h test first = Done None
  end.
Proof.
  intros Ht. induction cs as [|t cs IH]; intros prv first last fuel Hr Hf; cbn in Hr.
  - destruct Hr as [-> _]. by destruct fuel.
  - destruct Hr as (y & m & -> & _ & _ & Hm & Hr). destruct fuel as [|fuel]; [cbn in Hf; lia|].
    rewrite first_with_cons. cbn [seek]. unfold get. rewrite (rep_node _ _ _ _ Hm). cbn [mbind exec_bind].
    rewrite (Ht _ _ _ Hm). cbn [mbind exec_bind]. case_bool_decide.
    + rewrite decide_True by done. by exists y, m.
    + rewrite decide_False by done. apply (IH _ _ _ _ Hr). cbn in Hf. lia.
Qed.

Lemma name_test h nm t y m :
  rep h t y m →
  (if decide (ntype m = IKS_TAG) then
     k ← IKS_TAG_NAME h y; Done (match k with Some k => strcmp k nm =? 0 | None => false end)
   else Done false) = Done (bool_decide (has_name nm t)).
Proof.
  intros H. destruct t as [nm' ats cs|d].
  - rewrite rep_tag in H. destruct H as (Hn & Ht & c & lc & a & la & Hb & _). rewrite decide_True by done.
    unfold IKS_TAG_NAME, get, tag_part. rewrite Hn. cbn. rewrite Hb. cbn. by rewrite strcmp_test.
  - destruct H as (_ & Ht & _). by rewrite decide_False by (rewrite Ht; done).
Qed.

Lemma find_rep h nm ats cs x n k :
  rep h (TTag nm ats cs) x n →
  match first_with (has_name k) cs with
  | Some t => ∃ y m, iks_find h (Some x) k = Done (Some y) ∧ rep h t y m
  | None => iks_find h (Some x) k = Done None
  end.
Proof.
  intros H. destruct (children_rep _ _ _ _ _ _ H) as (c & lc & E & _ & Hc). unfold iks_find. rewrite E.
  cbn [mbind exec_bind]. apply (seek_list h x (has_name k) _ (name_test h k) _ _ _ _ _ Hc). by apply (rep_list_fuel _ x _ c lc).
Qed.

Lemma first_text_rep h t x n nm : rep h t x n → has_name nm t →
  (c ← IKS_TAG_CHILDREN h x;
   match c with
   | None => Done None
   | Some c => n ← get h c; if decide (ntype n = IKS_CDATA) then IKS_CDATA_CDATA h c else Done None
   end) = Done (first_text t).
Proof.
  intros H Hn. destruct t as [nm' ats cs|]; [|done]. destruct (children_rep _ _ _ _ _ _ H) as (c & lc & -> & _ & Hc).
  cbn [mbind exec_bind]. destruct cs as [|t cs]; cbn in Hc; [by destruct Hc as [-> _]|].
  destruct Hc as (y & m & -> & _ & _ & Hm & _). unfold get. rewrite (rep_node _ _ _ _ Hm). cbn [mbind exec_bind].
  destruct t as [? ? ?|d].
  - rewrite rep_tag in Hm. destruct Hm as (_ & Ht & _). by rewrite decide_False by (rewrite Ht; done).
  - destruct Hm as (Hy & Ht & Hb). rewrite decide_True by done. unfold IKS_CDATA_CDATA, get, cdata_part.
    rewrite Hy. cbn. by rewrite Hb.
Qed.

Lemma first_with_spec {A} (P : A → Prop) `{∀ a, Decision (P a)} l a : first_with P l = Some a → P a ∧ a ∈ l.
Proof.
  unfold first_with. intros E. apply fmap_Some in E as ([i b] & E & ->).
  apply list_find_Some in E as (E & Hp & _). split; [done|]. by eapply list_elem_of_lookup_2.
Qed.

Lemma find_cdata_rep h nm ats cs x n k :
  rep h (TTag nm ats cs) x n →
  iks_find_cdata h (Some x) k = Done (first_with (has_name k) cs ≫= first_text).
Proof.
  intros H. pose proof (find_rep _ _ _ _ _ _ k H) as Hf. unfold iks_find_cdata.
  destruct (first_with (has_name k) cs) as [t|] eqn:E.
  - destruct Hf as (y & m & -> & Hm). cbn [mbind exec_bind]. by apply (first_text_rep _ _ _ m k Hm), (first_with_spec _ _ _ E).
  - rewrite Hf. done.
Qed.

Lemma name_rep h nm ats cs x n : rep h (TTag nm ats cs) x n → iks_name h (Some x) = Done (Some nm).
Proof.
  rewrite rep_tag. intros (Hn & Ht & c & lc & a & la & Hb & _). unfold iks_name, IKS_TAG_NAME, get, tag_part.
  rewrite Hn. cbn. rewrite decide_True by done. by rewrite Hb.
Qed.
