(* ===== verification/DomParser.v ===== *)
(** * From text to tree

    [src/sysapps/apps/cgi2/app/jabberlog/dom.c]: the hooks that build a
    document from the events of the SAX parser, and the functions that parse a
    string or a file.  The hooks are an instance of [Sax.SaxClient] whose state
    is [dom_data] and the heap of nodes.  Closing tags are not compared with
    the tags they close. *)

From S2P Require Import Prelude XmlText Sax Dom.

Local Open Scope Z_scope.

Record dom_data : Type := mk_dom {
  iksptr : ptr;          (* *(data->iksptr): the finished document *)
  current : ptr;
  chunk_size : Z;
  dheap : heap }.

Definition DEFAULT_DOM_IKS_CHUNK_SIZE : Z := 2048.

(** [while (atts[i]) iks_insert_attrib (x, atts[i], atts[i+1])]. *)
Fixpoint dom_atts (h : heap) (x : ptr) (atts : list (str * str)) : exec heap :=
  match atts with
  | [] => Done h
  | (k, v) :: atts' => '(_, h) ← iks_insert_attrib h x k (Some v); dom_atts h x atts'
  end.

Definition dom_open (d : dom_data) (name : str) (atts : list (str * str)) : exec dom_data :=
  let h := dheap d in
  '(x, h) ← match current d with
            | Some _ => iks_insert h (current d) (Some name)
            | None => let '(s, h) := iks_stack_new h in s ← deref s; iks_new_within h (Some name) s
            end;
  h ← dom_atts h x atts;
  Done (mk_dom (iksptr d) x (chunk_size d) h).

Definition dom_close (d : dom_data) : exec dom_data :=
  x ← iks_parent (dheap d) (current d);
  Done (match x with
        | Some _ => mk_dom (iksptr d) x (chunk_size d) (dheap d)
        | None => mk_dom (current d) None (chunk_size d) (dheap d)
        end).

Definition dom_tagHook (d : dom_data) (name : str) (atts : list (str * str)) (type : ikstagtype) :
    exec (ikserror * dom_data) :=
  d ← (if decide (type = IKS_OPEN ∨ type = IKS_SINGLE) then dom_open d name atts else Done d);
  d ← (if decide (type = IKS_CLOSE ∨ type = IKS_SINGLE) then dom_close d else Done d);
  Done (IKS_OK, d).

Definition dom_cdataHook (d : dom_data) (cdata : list Z) : exec (ikserror * dom_data) :=
  match current d with
  | None => Done (IKS_OK, d)
  | Some _ =>
      '(_, h) ← iks_insert_cdata (dheap d) (current d) (Some cdata) (strlen cdata);
      Done (IKS_OK, mk_dom (iksptr d) (current d) (chunk_size d) h)
  end.

Definition dom_deleteHook (d : dom_data) : exec dom_data :=
  h ← iks_delete (dheap d) (current d);
  Done (mk_dom (iksptr d) None (chunk_size d) h).

#[export] Instance dom_client : SaxClient dom_data := {|
  tagHook := Some dom_tagHook;
  cdataHook := Some dom_cdataHook |}.

(** The pool of the parser, the [dom_data] in it, and the parser. *)
Definition iks_dom_new (h : heap) (mem : list bool) : option (iksparser * dom_data) :=
  let '(s, h) := iks_stack_new h in
  match s with
  | None => None
  | Some _ => Some (iks_sax_new mem, mk_dom None None DEFAULT_DOM_IKS_CHUNK_SIZE h)
  end.

Definition iks_set_size_hint (d : dom_data) (approx_size : Z) : dom_data :=
  let cs := approx_size / 10 in
  mk_dom (iksptr d) (current d) (if cs <? DEFAULT_DOM_IKS_CHUNK_SIZE then DEFAULT_DOM_IKS_CHUNK_SIZE else cs) (dheap d).

(** Results of the functions on files beside those of the parser. *)
Inductive ikscode : Type := Code (e : ikserror) | IKS_FILE_NOFILE | IKS_FILE_NOACCESS | IKS_FILE_RWERR.

(** The document and the error of the parse, and the heap that is left: what
    was not finished is deleted with the parser. *)
Definition iks_tree (h : heap) (mem : list bool) (xml_str : list Z) (len : Z) : exec (ptr * ikserror * heap) :=
  match iks_dom_new h mem with
  | None => Done (None, IKS_NOMEM, h)
  | Some (p, d) =>
      let len := if len =? 0 then strlen (c_str xml_str) else len in
      '(e, _, d) ← iks_parse p d (Some xml_str) len;
      d ← dom_deleteHook d;
      Done (iksptr d, e, dheap d)
  end.

(** What [fopen] and the calls of [fread] give: each read is the bytes and
    whether [feof] holds after it. *)
Inductive file : Type := Opened (reads : list (list Z * bool)) | NoEntry | Denied.

Definition FILE_IO_BUF_SIZE : Z := 4096.

(** [while (0 == done)].  [ret] is the value to be returned. *)
Fixpoint load_loop (p : iksparser) (d : dom_data) (reads : list (list Z * bool)) (ret : ikscode) :
    exec (ikscode * dom_data) :=
  match reads with
  | [] => Fault
  | (buf, eof) :: reads' =>
      let done := strlen buf <? FILE_IO_BUF_SIZE in
      let failed := done && negb (eof : bool) in
      let ret := if failed then IKS_FILE_RWERR else ret in
      let len := if failed then 0 else strlen buf in
      if 0 <? len then
        '(e, p, d) ← iks_parse p d (Some buf) len;
        if decide (e = IKS_OK) then
          let ret := if done then Code IKS_OK else ret in
          if done then Done (ret, d) else load_loop p d reads' ret
        else Done (Code e, d)
      else if done then Done (ret, d) else load_loop p d reads' ret
  end.

Definition iks_load (h : heap) (mem : list bool) (buf_ok : bool) (f : file) : exec (ikscode * ptr * heap) :=
  if negb buf_ok then Done (Code IKS_NOMEM, None, h) else
  match iks_dom_new h mem with
  | None => Done (Code IKS_NOMEM, None, h)
  | Some (p, d) =>
      '(ret, d) ← match f with
        | Opened reads => load_loop p d reads (Code IKS_NOMEM)
        | NoEntry => Done (IKS_FILE_NOFILE, d)
        | Denied => Done (IKS_FILE_NOACCESS, d)
        end;
      d ← dom_deleteHook d;
      Done (ret, iksptr d, dheap d)
  end.

(** The text that is written, and the result; [opened] and [written] are the
    outcomes of [fopen] and [fputs]. *)
Definition iks_save (fuel : nat) (h : heap) (x : ptr) (opened written : bool) : exec (ikscode * option (list Z)) :=
  '(data, h) ← iks_string fuel h false x;
  Done (match data with
        | None => (Code IKS_NOMEM, None)
        | Some t =>
            if negb opened then (IKS_FILE_NOACCESS, None)
            else if negb written then (IKS_FILE_RWERR, None) else (Code IKS_OK, Some t)
        end).

(** ** Loading a file *)

(** The [k] whole blocks of a file and the rest, as [fread] returns them. *)
Fixpoint file_reads (k : nat) (content : list Z) : list (list Z * bool) :=
  match k with
  | O => [(content, true)]
  | S k' => (take 4096 content, false) :: file_reads k' (drop 4096 content)
  end.

(** The buffers that reach the parser: an empty rest does not. *)
Fixpoint file_buffers (k : nat) (content : list Z) : list (list Z) :=
  match k with
  | O => match content with [] => [] | _ => [content] end
  | S k' => take 4096 content :: file_buffers k' (drop 4096 content)
  end.

Lemma iks_parse_buffer (p : iksparser) (d : dom_data) (buf : list Z) :
  0 < strlen buf → iks_parse p d (Some buf) (strlen buf) = sax_core p d buf.
Proof.
  intros Hb. unfold iks_parse. destruct (Z.eqb_spec (strlen buf) 0); [lia|].
  rewrite mread_done by lia. unfold strlen. cbn [mbind exec_bind]. by rewrite Nat2Z.id, drop_0, take_ge by done.
Qed.

(** [iks_load] reports the first error of the parser.  When there is
    none it reports success, except on a file whose size is a multiple of 4096
    bytes: the last read is then empty, the code returns [IKS_NOMEM], and the
    document has been built all the same. *)
Theorem iks_load_result (k : nat) (content : list Z) p d err p' d' :
  (length content < 4096 * (k + 1))%nat → (4096 * k <= length content)%nat →
  sax_chunks p d (file_buffers k content) = Done (err, p', d') →
  load_loop p d (file_reads k content) (Code IKS_NOMEM)
  = Done (if decide (err = IKS_OK)
          then if strlen content mod 4096 =? 0 then Code IKS_NOMEM else Code IKS_OK
          else Code err, d').
Proof.
  revert content p d. induction k as [|k IH]; intros content p d Hlt Hle E; cbn [file_reads load_loop].
  - destruct (Z.ltb_spec (strlen content) FILE_IO_BUF_SIZE) as [Hs|]; [|unfold strlen, FILE_IO_BUF_SIZE in *; lia].
    cbn [andb negb]. destruct content as [|c content].
    + cbn in E. simplify_eq. reflexivity.
    + destruct (Z.ltb_spec 0 (strlen (c :: content))) as [Hp|]; [|unfold strlen in *; cbn in *; lia].
      rewrite iks_parse_buffer by done. cbn [file_buffers sax_chunks] in E.
      destruct (sax_core p d (c :: content)) as [[[e p1] d1]|]; [|done]. cbn [mbind exec_bind] in *.
      destruct (decide (e = IKS_OK)) as [->|Hne].
      * cbn in E. simplify_eq. destruct (decide (IKS_OK = IKS_OK)); [|done].
        unfold FILE_IO_BUF_SIZE in Hs. rewrite Z.mod_small by lia. by destruct (Z.eqb_spec (strlen (c :: content)) 0); [lia|].
      * simplify_eq. by destruct (decide (err = IKS_OK)).
  - assert (Ht : strlen (take 4096 content) = 4096) by (unfold strlen; rewrite length_take; lia). rewrite Ht.
    unfold FILE_IO_BUF_SIZE. cbn [Z.ltb andb]. change (4096 <? 4096) with false. cbn [andb]. cbv iota.
    change (0 <? 4096) with true. cbv iota. cbn [file_buffers sax_chunks] in E.
    replace (iks_parse p d (Some (take 4096 content)) 4096) with (sax_core p d (take 4096 content))
      by (rewrite <-(iks_parse_buffer p d (take 4096 content)) by lia; by rewrite Ht).
    destruct (sax_core p d (take 4096 content)) as [[[e p1] d1]|]; [|done]. cbn [mbind exec_bind] in *.
    destruct (decide (e = IKS_OK)) as [->|Hne].
    + rewrite (IH (drop 4096 content) p1 d1); [|rewrite length_drop; lia..|done].
      replace (strlen content mod 4096) with (strlen (drop 4096 content) mod 4096); [done|].
      unfold strlen. rewrite length_drop. replace (Z.of_nat (length content)) with (Z.of_nat (length content - 4096) + 1 * 4096) by lia.
      by rewrite Z.mod_add.
    + simplify_eq. by destruct (decide (err = IKS_OK)).
Qed.

(** A document of 4096 bytes, most of them in a comment. *)
Definition demo_file : list Z := bs "<a/><!--" ++ replicate 4085 120 ++ bs "-->".

Lemma iks_load_result_witness :
  ∃ d', load_loop (iks_sax_new []) (mk_dom None None 2048 (mk_heap ∅ 0 0 [])) (file_reads 1 demo_file) (Code IKS_NOMEM)
        = Done (Code IKS_NOMEM, d') ∧ iksptr d' = Some 0%nat.
Proof.
  eexists. split.
  - eapply eq_trans.
    + eapply (iks_load_result 1 demo_file); [vm_compute; lia|vm_compute; lia|vm_compute; reflexivity].
    + vm_compute. reflexivity.
  - vm_compute. reflexivity.
Defined.

(** A document through the parser and back. *)
Example tree_and_back :
  (let text := bs "<message to='x@y'><body>5 &gt; 4<b/></body></message>" in
   '(x, e, h) ← iks_tree (mk_heap ∅ 0 0 []) [] text 0;
   '(r, _) ← iks_string 100 h true x;
   Done (e, bool_decide (r = Some text))) = Done (IKS_OK, true).
Proof. vm_compute. reflexivity. Qed.
