(* ===== verification/DomRoundtrip.v ===== *)
(** * A document through the serialiser and the parser

    The text that [iks_string] writes of a tree is read back by the parser of
    [sax.c] with the hooks of [dom.c] as the same tree.  First the hooks: what they
    do to a document of which some tags are still open, a list of frames from the
    innermost tag outwards.  Then the byte machine on the printed text. *)

From S2P Require Import Prelude XmlText Sax SaxSpec SaxRefine SaxTheorems Dom DomPrint DomBuild DomParser.

Local Open Scope Z_scope.

(** ** Open documents *)

(** A tag that is open, with the children it has so far: its address, name,
    attributes and children. *)
Record frame : Type := mk_frame { f_addr : nat; f_name : str; f_atts : list (nat * (str * str)); f_children : list atree }.

Definition closed (f : frame) (cs : list atree) : atree := ATag (f_addr f) (f_name f) (f_atts f) cs.

(** The document in which [t] is the last child of the first frame, and so on. *)
Fixpoint plug (t : atree) (F : list frame) : atree :=
  match F with [] => t | f :: F' => plug (closed f (f_children f ++ [t])) F' end.

Definition above (F : list frame) : ptr := match F with [] => None | f :: _ => Some (f_addr f) end.

(** The nodes of the innermost tree among those of the document. *)
Lemma plug_focus pl F : ∀ a, ∃ prv C, ∀ t, addr t = a → tcells pl None None None (plug t F) ≡ₚ tcells pl (above F) prv None t ++ C.
Proof.
  induction F as [|f F IH]; intros a.
  - exists None, []. intros t _. by rewrite app_nil_r.
  - destruct (IH (f_addr f)) as (prv & C & HC). exists (last_of None (map addr (f_children f))).
    exists (hole pl (above F) prv None (f_addr f) (f_name f) (f_atts f) (f_children f) a ++ C). intros t <-. cbn [plug above].
    rewrite HC by done. unfold closed. rewrite focus_last. by rewrite <-app_assoc.
Qed.

(** What can be seen of a frame. *)
Definition eframe : Type := (str * list (str * str) * list tree).
Definition erase_frame (f : frame) : eframe := (f_name f, (f_atts f).*2, map erase (f_children f)).

(** The tags [E] are open in the document that is built. *)
Definition building (d : dom_data) (E : list eframe) : Prop :=
  ∃ pl f F, current d = Some (f_addr f) ∧ iksptr d = None ∧
    owns (dheap d) (tcells pl None None None (plug (closed f (f_children f)) F)) ∧ E = erase_frame f :: map erase_frame F.

Lemma building_text d nm ats cs E b :
  building d ((nm, ats, cs) :: E) → ∃ d', dom_cdataHook d b = Done (IKS_OK, d') ∧ building d' ((nm, ats, put_text cs b) :: E).
Proof.
  intros (pl & f & F & Hc & Hi & Ho & HE). injection HE as -> -> -> ->. destruct (plug_focus pl F (f_addr f)) as (prv & C & HC).
  rewrite HC in Ho by done. unfold closed in Ho. unfold dom_cdataHook. rewrite Hc.
  destruct (insert_cdata_spec pl _ _ _ _ _ _ _ _ b (strlen b) C (or_intror eq_refl) Ho) as (y & z & h' & -> & H'). cbn [mbind exec_bind].
  eexists. split; [reflexivity|]. exists pl, (mk_frame (f_addr f) (f_name f) (f_atts f) (add_text y (f_children f) b)), F. cbn [current iksptr dheap f_addr f_children].
  split_and!; [done|done| |unfold erase_frame; cbn [f_name f_atts f_children]; by rewrite erase_add_text]. rewrite HC by done. exact H'.
Qed.

(** The attributes of a new tag. *)
Lemma dom_atts_spec pl par prv nxt x nm cs R atts : ∀ h ats, owns h (tcells pl par prv nxt (ATag x nm ats cs) ++ R) →
  ∃ h' ats', dom_atts h (Some x) atts = Done h' ∧ owns h' (tcells pl par prv nxt (ATag x nm ats' cs) ++ R) ∧ ats'.*2 = fold_left (λ l kv, put_att l kv.1 kv.2) atts ats.*2.
Proof.
  induction atts as [|[k v] atts IH]; intros h ats Ho; cbn [dom_atts fold_left]; [by eexists _, _|].
  destruct (insert_attrib_spec pl _ _ _ _ _ _ _ _ k v _ Ho) as (y & z & h1 & -> & H1). cbn [mbind exec_bind].
  destruct (IH h1 _ H1) as (h' & ats' & -> & H' & E). exists h', ats'. split_and!; [done|done|]. by rewrite E, erase_set_att.
Qed.

Lemma put_att_new l k v : k ∉ l.*1 → put_att l k v = l ++ [(k, v)].
Proof.
  induction l as [|[k' v'] l IH]; intros H; [done|]. cbn in *. rewrite decide_False by set_solver. rewrite IH by set_solver. done.
Qed.

Lemma put_atts_new atts : ∀ l, NoDup (l.*1 ++ atts.*1) → fold_left (λ l kv, put_att l kv.1 kv.2) atts l = l ++ atts.
Proof.
  induction atts as [|[k v] atts IH]; intros l Hn; cbn [fold_left fst snd]; [by rewrite app_nil_r|].
  cbn in Hn. assert (Hk : k ∉ l.*1) by (apply NoDup_app in Hn as (_ & Hd & _); intros Hin; apply (Hd k Hin); left).
  rewrite put_att_new by done. rewrite IH; [by rewrite <-app_assoc|]. rewrite fmap_app, <-app_assoc. done.
Qed.

Lemma building_open d E n atts :
  NoDup atts.*1 → building d E → ∃ d', dom_tagHook d n atts IKS_OPEN = Done (IKS_OK, d') ∧ building d' ((n, atts, []) :: E).
Proof.
  intros Hn (pl & f & F & Hc & Hi & Ho & ->). destruct (plug_focus pl F (f_addr f)) as (prv & C & HC). rewrite HC in Ho by done. unfold closed in Ho.
  unfold dom_tagHook. rewrite decide_True by (by left). unfold dom_open. rewrite Hc.
  destruct (insert_spec pl _ _ _ _ _ _ _ _ n C Ho) as (y & h1 & -> & H1). cbn [mbind exec_bind]. rewrite owns_focus in H1. cbn [addr] in H1.
  destruct (dom_atts_spec _ _ _ _ _ _ _ _ atts _ _ H1) as (h' & ats' & -> & H2 & Ea). cbn [mbind exec_bind].
  rewrite decide_False by naive_solver. cbn [mbind exec_bind]. eexists. split; [reflexivity|].
  exists pl, (mk_frame y n ats' []), (f :: F). cbn [current iksptr dheap f_addr f_children map]. split_and!; [done|done| |].
  - cbn [plug]. rewrite HC by done. unfold closed. cbn [f_addr f_name f_atts f_children]. rewrite owns_focus. exact H2.
  - change (erase_frame (mk_frame y n ats' [])) with (n, ats'.*2, @nil tree). by rewrite Ea, put_atts_new.
Qed.

Lemma building_close d n a c n1 a1 c1 E name atts :
  building d ((n, a, c) :: (n1, a1, c1) :: E) → ∃ d', dom_tagHook d name atts IKS_CLOSE = Done (IKS_OK, d') ∧ building d' ((n1, a1, c1 ++ [TTag n a c]) :: E).
Proof.
  intros (pl & f & F & Hc & Hi & Ho & HE). destruct F as [|f1 F]; [done|]. injection HE as -> -> -> -> -> -> ->.
  pose proof Ho as Hp. destruct (plug_focus pl (f1 :: F) (f_addr f)) as (prv & C & HC). rewrite HC in Hp by done.
  unfold dom_tagHook. rewrite decide_False by naive_solver. cbn [mbind exec_bind]. rewrite decide_True by (by left). unfold dom_close, iks_parent. rewrite Hc.
  rewrite (owns_get _ [] (f_addr f) _ _ Hp). cbn [mbind exec_bind]. cbn [parent top closed above]. eexists. split; [reflexivity|].
  exists pl, (mk_frame (f_addr f1) (f_name f1) (f_atts f1) (f_children f1 ++ [closed f (f_children f)])), F. cbn [current iksptr dheap f_addr f_children].
  split_and!; [done|done|exact Ho|]. f_equal. unfold erase_frame. cbn [f_name f_atts f_children]. by rewrite map_app.
Qed.

(** The first tag, and the last. *)
Lemma building_first d n atts : NoDup atts.*1 → current d = None → iksptr d = None → owns (dheap d) [] →
  ∃ d', dom_tagHook d n atts IKS_OPEN = Done (IKS_OK, d') ∧ building d' [(n, atts, [])].
Proof.
  intros Hn Hc Hi Ho. unfold dom_tagHook. rewrite decide_True by (by left). unfold dom_open. rewrite Hc.
  unfold iks_stack_new, take_mem. destruct Ho as [[Hm Hf] Hh]. rewrite Hm. cbn beta iota zeta. cbn [deref mbind exec_bind]. rewrite Hm.
  destruct (new_within_spec (fresh_pool (dheap d)) (mk_heap (nodes (dheap d)) (fresh (dheap d)) (S (fresh_pool (dheap d))) []) n []) as (y & h1 & E1 & H1); [split; [split; [done|exact Hf]|done]|].
  set (pl := fresh_pool (dheap d)) in *. rewrite E1. cbn [mbind exec_bind]. destruct (dom_atts_spec _ _ _ _ _ _ _ _ atts _ _ H1) as (h' & ats' & -> & H2 & Ea). cbn [mbind exec_bind].
  rewrite decide_False by naive_solver. cbn [mbind exec_bind]. eexists. split; [reflexivity|].
  exists pl, (mk_frame y n ats' []), []. cbn [current iksptr dheap f_addr f_children map plug closed]. rewrite app_nil_r in H2. split_and!; [done|done|exact H2|].
  unfold erase_frame. cbn [f_name f_atts f_children map]. by rewrite Ea, put_atts_new.
Qed.

(** The document [t] is finished. *)
Definition finished (d : dom_data) (t : tree) : Prop := current d = None ∧ ready (dheap d) ∧ ∃ x n, iksptr d = Some x ∧ rep (dheap d) t x n.

Lemma building_last d n a c name atts :
  building d [(n, a, c)] → ∃ d', dom_tagHook d name atts IKS_CLOSE = Done (IKS_OK, d') ∧ finished d' (TTag n a c).
Proof.
  intros (pl & f & F & Hc & Hi & Ho & HE). destruct F as [|f1 F]; [|done]. injection HE as -> -> ->. cbn [plug] in Ho.
  unfold dom_tagHook. rewrite decide_False by naive_solver. cbn [mbind exec_bind]. rewrite decide_True by (by left). unfold dom_close, iks_parent. rewrite Hc.
  rewrite (owns_get _ [] (f_addr f) (top pl None None None (closed f (f_children f))) (below pl (closed f (f_children f))) Ho). cbn [mbind exec_bind parent top closed]. eexists. split; [reflexivity|].
  split; [done|]. split; [apply Ho|]. do 2 eexists. split; [reflexivity|]. apply (owns_rep pl _ None None None (closed f (f_children f)) []). by rewrite app_nil_r.
Qed.

(** A tag without children is opened and closed. *)
Lemma single_hook d n atts : dom_tagHook d n atts IKS_SINGLE = ('(_, d) ← dom_tagHook d n atts IKS_OPEN; dom_tagHook d n atts IKS_CLOSE).
Proof.
  unfold dom_tagHook. rewrite (decide_True (P := IKS_SINGLE = IKS_OPEN ∨ IKS_SINGLE = IKS_SINGLE)) by (by right).
  rewrite (decide_True (P := IKS_OPEN = IKS_OPEN ∨ IKS_OPEN = IKS_SINGLE)) by (by left).
  destruct (dom_open d n atts) as [d1|]; [|done]. cbn [mbind exec_bind].
  rewrite (decide_True (P := IKS_SINGLE = IKS_CLOSE ∨ IKS_SINGLE = IKS_SINGLE)) by (by right).
  rewrite (decide_False (P := IKS_OPEN = IKS_CLOSE ∨ IKS_OPEN = IKS_SINGLE)) by naive_solver. cbn [mbind exec_bind].
  rewrite (decide_False (P := IKS_CLOSE = IKS_OPEN ∨ IKS_CLOSE = IKS_SINGLE)) by naive_solver. cbn [mbind exec_bind].
  by rewrite (decide_True (P := IKS_CLOSE = IKS_CLOSE ∨ IKS_CLOSE = IKS_SINGLE)) by (by left).
Qed.

(** ** Trees that survive *)

(** Names without blanks and without the signs that end them. *)
Definition name_char (c : Z) : bool := (33 <=? c) && (c <=? 126) && negb (c =? 47) && negb (c =? 61) && negb (c =? 62).
Definition name_ok (n : str) : bool :=
  match n with [] => false | c :: _ => negb (c =? 33) && negb (c =? 63) && forallb name_char n end.

(** Values without signs that are escaped: the parser does not resolve entities in
    values. *)
Definition value_char (c : Z) : bool := (1 <=? c) && (c <=? 127) && bool_decide (XmlText.entity c = None).

(** Text in UTF-8, as the parser checks it; [m] and [k]: the length of the character
    and how much of it there is. *)
Fixpoint utf8 (m k : Z) (s : str) : bool :=
  match s with
  | [] => m =? 0
  | c :: s' =>
      if (c =? 0) || (c =? 0xFE) || (c =? 0xFF) then false
      else if negb (m =? 0) then (Z.land c 0xC0 =? 0x80) && utf8 (if k + 1 =? m then 0 else m) (k + 1) s'
      else if negb (Z.land c 0x80 =? 0) then
        match lead_byte c with None => false | Some (max, mask) => negb (Z.land c mask =? 0) && utf8 max 1 s' end
      else utf8 m k s'
  end.

Definition text_ok (s : str) : bool := negb (bool_decide (s = [])) && forallb (λ c, (1 <=? c) && (c <=? 255)) s && utf8 0 0 s.

(** No text next to a text: they would be one. *)
Fixpoint apart (cs : list tree) : bool :=
  match cs with
  | TText _ :: ((TText _ :: _) as cs') => false
  | _ :: cs' => apart cs'
  | [] => true
  end.

Definition atts_ok (a : list (str * str)) : bool :=
  forallb (λ kv, name_ok kv.1 && forallb value_char kv.2) a && bool_decide (NoDup a.*1) &&
  (bool_decide (a = []) || negb (length a mod 12 =? 0)%nat).

Fixpoint tree_ok (t : tree) : bool :=
  match t with
  | TText s => text_ok s
  | TTag n a cs => name_ok n && atts_ok a && apart cs && forallb tree_ok cs
  end.

(** ** Bytes *)

(** The fields of a state that was changed. *)
Ltac sp_simpl :=
  unfold collect, to_cdata, s_goto, s_wait, s_settype, s_setname, s_setatts, s_setattr, s_setent, s_settext, s_setuni;
  cbn [s_ctx s_octx s_type s_name s_atts s_an s_av s_ent s_text s_umax s_ulen].

Section bytes.
Context {U : Type} `{SaxClient U}.
Implicit Types (u : U).

Lemma ascii_byte s u c : 1 <= c <= 127 → s_umax s = 0 → spec_byte s u c = spec_ascii s u c.
Proof.
  intros Hc Hu. unfold spec_byte. rewrite Hu. rewrite !(proj2 (Z.eqb_neq c _)) by lia. cbn [orb negb Z.eqb].
  assert (Hl : Z.land c 128 =? 0 = true).
  { pose proof (all_below_spec 128 (λ c, Z.land c 128 =? 0)) as Ha. apply Ha; [vm_compute; reflexivity|lia]. }
  by rewrite Hl.
Qed.

Lemma loop_byte s u c rest s1 u1 : spec_byte s u c = Done (s1, u1, None) → spec_loop s u (c :: rest) = spec_loop s1 u1 rest.
Proof. intros E. cbn [spec_loop]. by rewrite E. Qed.

Lemma name_char_spec c : name_char c = true → 33 <= c <= 126 ∧ c ≠ 47 ∧ c ≠ 61 ∧ c ≠ 62.
Proof. unfold name_char. rewrite !andb_true_iff, !negb_true_iff, !Z.leb_le, !Z.eqb_neq. lia. Qed.

Lemma name_blank c : 33 <= c → is_whitespace c = false.
Proof. intros. unfold is_whitespace. by rewrite !(proj2 (Z.eqb_neq c _)) by lia. Qed.

Lemma loop_name o ty ats an av en tx ul u rest n : ∀ p, forallb name_char n = true →
  spec_loop (mk_sp C_TAG o ty p ats an av en tx 0 ul) u (n ++ rest) = spec_loop (mk_sp C_TAG o ty (p ++ n) ats an av en tx 0 ul) u rest.
Proof.
  induction n as [|c n IH]; intros p Hn; [by rewrite app_nil_r|]. cbn [forallb] in Hn. apply andb_prop in Hn as [(Hc & H1 & H2 & H3)%name_char_spec Hn].
  cbn [app]. erewrite loop_byte; [|rewrite ascii_byte by (done || lia); cbn [spec_ascii s_ctx]; rewrite name_blank by lia; rewrite !(proj2 (Z.eqb_neq c _)) by lia; reflexivity].
  sp_simpl. rewrite IH by done. by rewrite <-app_assoc.
Qed.

Lemma loop_att_name o ty nm ats av en tx ul u rest k : ∀ p, forallb name_char k = true →
  spec_loop (mk_sp C_ATTRIBUTE_1 o ty nm ats p av en tx 0 ul) u (k ++ rest) = spec_loop (mk_sp C_ATTRIBUTE_1 o ty nm ats (p ++ k) av en tx 0 ul) u rest.
Proof.
  induction k as [|c k IH]; intros p Hn; [by rewrite app_nil_r|]. cbn [forallb] in Hn. apply andb_prop in Hn as [(Hc & H1 & H2 & H3)%name_char_spec Hn].
  cbn [app]. erewrite loop_byte; [|rewrite ascii_byte by (done || lia); cbn [spec_ascii s_ctx]; rewrite !(proj2 (Z.eqb_neq c _)) by lia; reflexivity].
  sp_simpl. rewrite IH by done. by rewrite <-app_assoc.
Qed.

Lemma value_char_spec c : value_char c = true → 1 <= c <= 127 ∧ c ≠ 39 ∧ XmlText.entity c = None.
Proof.
  unfold value_char. rewrite !andb_true_iff, !Z.leb_le, bool_decide_eq_true. intros [[H1 H2] H3]. split_and!; [lia|lia| |done]. intros ->. done.
Qed.

Lemma loop_value o ty nm ats an en tx ul u rest v : ∀ p, forallb value_char v = true →
  spec_loop (mk_sp C_VALUE_APOS o ty nm ats an p en tx 0 ul) u (v ++ rest) = spec_loop (mk_sp C_VALUE_APOS o ty nm ats an (p ++ v) en tx 0 ul) u rest.
Proof.
  induction v as [|c v IH]; intros p Hn; [by rewrite app_nil_r|]. cbn [forallb] in Hn. apply andb_prop in Hn as [(Hc & H1 & _)%value_char_spec Hn].
  cbn [app]. erewrite loop_byte; [|rewrite ascii_byte by (done || lia); cbn [spec_ascii s_ctx]; unfold at_value_in; rewrite (proj2 (Z.eqb_neq c 39)) by lia; reflexivity].
  sp_simpl. rewrite IH by done. by rewrite <-app_assoc.
Qed.

Lemma value_plain v : forallb value_char v = true → xml_escape v = v.
Proof.
  induction v as [|c v IH]; [done|]. cbn [forallb]. intros [(_ & _ & Hc)%value_char_spec Hv]%andb_prop. rewrite xml_escape_cons, Hc, IH by done. done.
Qed.

(** Inside a tag that is opened, behind its name or an attribute. *)
Definition in_tag (s : sp) (n : str) (a : list (str * str)) : Prop :=
  s_umax s = 0 ∧ s_type s = IKS_OPEN ∧ s_name s = n ∧ s_atts s = a ∧
  ((s_ctx s = C_TAG ∧ a = []) ∨ (s_ctx s = C_WHITESPACE ∧ s_octx s = C_ATTRIBUTE_2 ∧ a ≠ [])).

(** From the first byte of the name of an attribute to its end. *)
Lemma loop_att_text o ty nm ats an av en tx ul u rest k v : forallb name_char k = true → forallb value_char v = true →
  spec_loop (mk_sp C_ATTRIBUTE_1 o ty nm ats an av en tx 0 ul) u (k ++ 61 :: 39 :: (xml_escape v ++ [39]) ++ rest) =
  spec_loop (mk_sp C_WHITESPACE C_ATTRIBUTE_2 ty nm (ats ++ [(an ++ k, v)]) (an ++ k) v en tx 0 ul) u rest.
Proof.
  intros Hk Hv. rewrite <-app_assoc, loop_att_name, value_plain by done. cbn [app].
  erewrite loop_byte; [|rewrite ascii_byte by (done || lia); reflexivity]. sp_simpl.
  erewrite loop_byte; [|rewrite ascii_byte by (done || lia); reflexivity]. sp_simpl.
  rewrite loop_value by done. erewrite loop_byte; [|rewrite ascii_byte by (done || lia); reflexivity]. by sp_simpl.
Qed.

Lemma name_ok_spec n : name_ok n = true → ∃ c n', n = c :: n' ∧ c ≠ 33 ∧ c ≠ 63 ∧ name_char c = true ∧ forallb name_char n' = true.
Proof.
  destruct n as [|c n]; [done|]. cbn [name_ok forallb]. rewrite !andb_true_iff, !negb_true_iff, !Z.eqb_neq. intros [[H1 H2] [H3 H4]]. by exists c, n.
Qed.

Lemma loop_att s n a u rest k v : in_tag s n a → name_ok k = true → forallb value_char v = true →
  ∃ s', spec_loop s u (print_att (k, v) ++ rest) = spec_loop s' u rest ∧ in_tag s' n (a ++ [(k, v)]).
Proof.
  intros Ht (c & k' & -> & _ & _ & (Hc & H1 & H2 & H3)%name_char_spec & Hk)%name_ok_spec Hv. unfold print_att. cbn [fst snd app]. rewrite <-!app_assoc. cbn [app].
  destruct s as [ctx oct ty nm ats an av en tx um ul]. destruct Ht as (Hu & Hty & Hn & Ha & Hctx). cbn in Hu, Hty, Hn, Ha, Hctx. subst um ty nm ats.
  exists (mk_sp C_WHITESPACE C_ATTRIBUTE_2 IKS_OPEN n (a ++ [(c :: k', v)]) (c :: k') v en tx 0 ul). split; [|split_and!; try done; right; split_and!; try done; by destruct a].
  destruct Hctx as [[-> ->]|(-> & -> & Hne)]; (erewrite loop_byte; [|rewrite ascii_byte by (done || lia); reflexivity]); sp_simpl;
    (erewrite loop_byte; [|rewrite ascii_byte by (done || lia); cbn [spec_ascii s_ctx s_octx s_type]; rewrite name_blank by lia;
       unfold at_attribute, at_attribute_2, start_attribute; rewrite ?decide_False by done; rewrite !(proj2 (Z.eqb_neq c _)) by lia; reflexivity]); sp_simpl;
    rewrite loop_att_text by done; cbn [app]; reflexivity.
Qed.

Lemma loop_atts u rest n atts : ∀ s a, in_tag s n a → forallb (λ kv, name_ok kv.1 && forallb value_char kv.2) atts = true →
  ∃ s', spec_loop s u (print_atts atts ++ rest) = spec_loop s' u rest ∧ in_tag s' n (a ++ atts).
Proof.
  induction atts as [|[k v] atts IH]; intros s a Ht Ha; [exists s; by rewrite app_nil_r|]. cbn [forallb fst snd] in Ha. apply andb_prop in Ha as [[Hk Hv]%andb_prop Ha].
  unfold print_atts. cbn [map concat]. fold (print_atts atts). rewrite <-app_assoc. destruct (loop_att s n a u (print_atts atts ++ rest) k v Ht Hk Hv) as (s1 & -> & H1).
  destruct (IH s1 _ H1 Ha) as (s' & -> & H'). exists s'. by rewrite <-app_assoc in H'.
Qed.

Definition room (a : list (str * str)) : bool := bool_decide (a = []) || negb (length a mod 12 =? 0)%nat.

(** The end of a tag that has children, and of one that has none. *)
Lemma tag_open_end s n a u : in_tag s n a → room a = true → spec_byte s u 62 = finish_tag s u.
Proof.
  destruct s as [ctx oct ty nm ats an av en tx um ul]. intros (Hu & Hty & Hn & Ha & Hctx) Hr. cbn in Hu, Hty, Hn, Ha, Hctx. subst um ty nm ats. rewrite ascii_byte by (done || lia).
  destruct Hctx as [[-> ->]|(-> & -> & Hne)]; [reflexivity|]. cbn [spec_ascii s_ctx s_octx]. change (is_whitespace 62) with false. cbv iota. unfold at_attribute_2, full_array. cbn [s_atts].
  unfold room in Hr. rewrite (bool_decide_eq_false_2 _ Hne) in Hr. cbn [orb] in Hr. apply negb_true_iff in Hr. by rewrite Hr.
Qed.

Lemma tag_single_end s n a u rest : in_tag s n a → room a = true →
  ∃ s', spec_loop s u (47 :: 62 :: rest) = spec_loop s' u (62 :: rest) ∧ spec_byte s' u 62 = finish_tag s' u ∧
    s_umax s' = 0 ∧ s_type s' = IKS_SINGLE ∧ s_name s' = n ∧ s_atts s' = a.
Proof.
  destruct s as [ctx oct ty nm ats an av en tx um ul]. intros (Hu & Hty & Hn & Ha & Hctx) Hr. cbn in Hu, Hty, Hn, Ha, Hctx. subst um ty nm ats.
  exists (mk_sp C_TAG_END oct IKS_SINGLE n a an av en tx 0 ul). split; [|split_and!; try done; by rewrite ascii_byte by (done || lia)].
  apply loop_byte. rewrite ascii_byte by (done || lia). destruct Hctx as [[-> ->]|(-> & -> & Hne)]; cbn [spec_ascii s_ctx s_octx s_type].
  - change (is_whitespace 47) with false. change (47 =? 47) with true. cbv iota. by rewrite decide_False by done.
  - change (is_whitespace 47) with false. cbv iota. unfold at_attribute_2, full_array. cbn [s_atts].
    unfold room in Hr. rewrite (bool_decide_eq_false_2 _ Hne) in Hr. cbn [orb] in Hr. apply negb_true_iff in Hr. by rewrite Hr.
Qed.

(** Between tags. *)
Definition outside (s : sp) : Prop := s_ctx s = C_CDATA ∧ s_umax s = 0 ∧ s_atts s = [].

(** A tag that is opened, up to the end of its attributes. *)
Lemma loop_open s u u' n a rest : outside s → name_ok n = true → forallb (λ kv, name_ok kv.1 && forallb value_char kv.2) a = true →
  (∀ k, deliver_text s u k = k u') →
  ∃ s', spec_loop s u (60 :: n ++ print_atts a ++ rest) = spec_loop s' u' rest ∧ in_tag s' n a.
Proof.
  intros (Hc & Hu & Ha) (c & n' & -> & H33 & H63 & (Hr & H47 & _ & _)%name_char_spec & Hn')%name_ok_spec Hatts Hd. destruct s as [ctx oct ty nm ats an av en tx um ul]. cbn in Hc, Hu, Ha. subst.
  erewrite loop_byte; [|rewrite ascii_byte by (done || lia); cbn [spec_ascii s_ctx]; change (60 =? 38) with false; change (60 =? 60) with true; cbv iota; rewrite Hd; reflexivity]. sp_simpl. cbn [app].
  erewrite loop_byte; [|rewrite ascii_byte by (done || lia); cbn [spec_ascii s_ctx]; rewrite !(proj2 (Z.eqb_neq c _)) by lia; reflexivity]. sp_simpl.
  rewrite loop_name by done. cbn [app]. destruct (loop_atts u' rest (c :: n') a (mk_sp C_TAG oct IKS_OPEN (c :: n') [] an av en [] 0 ul) []) as (s' & -> & H'); [|done|by exists s'].
  split_and!; try done. by left.
Qed.

(** A closing tag. *)
Lemma loop_close s u u' n rest : outside s → name_ok n = true → (∀ k, deliver_text s u k = k u') →
  ∃ s', spec_loop s u (60 :: 47 :: n ++ 62 :: rest) = spec_loop s' u' (62 :: rest) ∧ spec_byte s' u' 62 = finish_tag s' u' ∧
    s_umax s' = 0 ∧ s_type s' = IKS_CLOSE ∧ s_name s' = n ∧ s_atts s' = [].
Proof.
  intros (Hc & Hu & Ha) (c & n' & -> & H33 & H63 & Hch & Hn')%name_ok_spec Hd. destruct s as [ctx oct ty nm ats an av en tx um ul]. cbn in Hc, Hu, Ha. subst.
  exists (mk_sp C_TAG oct IKS_CLOSE (c :: n') [] an av en [] 0 ul). split; [|split_and!; try done; by rewrite ascii_byte by (done || lia)].
  erewrite loop_byte; [|rewrite ascii_byte by (done || lia); cbn [spec_ascii s_ctx]; change (60 =? 38) with false; change (60 =? 60) with true; cbv iota; rewrite Hd; reflexivity]. sp_simpl.
  erewrite loop_byte; [|rewrite ascii_byte by (done || lia); reflexivity]. sp_simpl. apply (loop_name oct IKS_CLOSE [] an av en [] ul u' (62 :: rest) (c :: n') []).
  cbn [forallb]. by rewrite Hch, Hn'.
Qed.
End bytes.

(** ** Text *)

Lemma put_text_app cs a b : put_text (put_text cs a) b = put_text cs (a ++ b).
Proof.
  unfold put_text. destruct (last cs) as [[n ats c|t]|]; rewrite last_snoc, removelast_last; [done| |done]. by rewrite app_assoc.
Qed.

Definition put_some (cs : list tree) (t : str) : list tree := match t with [] => cs | _ => put_text cs t end.

Lemma put_some_cons cs c t : put_some (put_text cs [c]) t = put_text cs (c :: t).
Proof. destruct t as [|c2 t]; [done|]. cbn [put_some]. by rewrite put_text_app. Qed.

Lemma put_some_app cs a b : put_some (put_some cs a) b = put_some cs (a ++ b).
Proof. destruct a as [|c a]; [done|]. destruct b as [|c2 b]; cbn [put_some app]; [by rewrite app_nil_r|]. by rewrite put_text_app. Qed.

(** Between tags, inside the first of the tags [(nm, ats, cs) :: E]: the children of
    the tag with the text that is not delivered yet. *)
Definition reading (s : sp) (d : dom_data) (nm : str) (ats : list (str * str)) (cs : list tree) (E : list eframe) : Prop :=
  s_ctx s = C_CDATA ∧ s_atts s = [] ∧ ∃ cs0, building d ((nm, ats, cs0) :: E) ∧ cs = put_some cs0 (s_text s).

Lemma reading_flush s d nm ats cs E : reading s d nm ats cs E → ∃ d', (∀ k, deliver_text s d k = k d') ∧ building d' ((nm, ats, cs) :: E).
Proof.
  intros (Hc & Ha & cs0 & Hb & ->). unfold deliver_text. destruct (s_text s) as [|c t]; [by exists d|]. destruct (building_text d nm ats cs0 E (c :: t) Hb) as (d' & E' & Hb').
  exists d'. split; [|done]. intros k. unfold deliver. cbn [cdataHook dom_client]. rewrite E'. cbn [mbind exec_bind]. by rewrite decide_True.
Qed.

Lemma reading_collect s d nm ats cs E m k c : reading s d nm ats cs E → reading (collect (s_setuni s m k) c) d nm ats (put_text cs [c]) E.
Proof.
  intros (Hc & Ha & cs0 & Hb & ->). destruct s as [ctx oct ty n a an av en tx um ul]. cbn in Hc, Ha. subst. sp_simpl. split_and!; [done|done|].
  exists cs0. split; [done|]. cbn [s_text]. change (put_text (put_some cs0 tx) [c]) with (put_some (put_some cs0 tx) [c]). by rewrite put_some_app.
Qed.

Lemma entity_is c e : XmlText.entity c = Some e →
  (c = 38 ∧ e = bs "&amp;") ∨ (c = 39 ∧ e = bs "&apos;") ∨ (c = 34 ∧ e = [38; 113; 117; 111; 116; 59]) ∨ (c = 60 ∧ e = bs "&lt;") ∨ (c = 62 ∧ e = bs "&gt;").
Proof.
  intros He. destruct (entity_cases c) as [(e' & E & Hin)|[E _]]; [|congruence]. assert (e' = e) as -> by congruence.
  rewrite !elem_of_cons, elem_of_nil in Hin. naive_solver.
Qed.

(** A sign that is escaped. *)
Lemma loop_entity s d nm ats cs E c e rest : XmlText.entity c = Some e → reading s d nm ats cs E → s_umax s = 0 →
  ∃ s' d', spec_loop s d (e ++ rest) = spec_loop s' d' rest ∧ reading s' d' nm ats (put_text cs [c]) E ∧ s_umax s' = 0.
Proof.
  intros He Hr Hu. destruct (reading_flush _ _ _ _ _ _ Hr) as (d1 & Hd & Hb). destruct (building_text d1 nm ats cs E [c] Hb) as (d2 & E2 & Hb2).
  destruct Hr as (Hc & Ha & _). destruct s as [ctx oct ty n a an av en tx um ul]. cbn in Hc, Ha, Hu. subst.
  assert (Hgo : ∀ body en', e = 38 :: body ++ [59] → entity_char en' = c →
    spec_loop (mk_sp C_ENTITY oct ty n [] an av [] [] 0 ul) d1 (body ++ 59 :: rest) = spec_loop (mk_sp C_ENTITY oct ty n [] an av en' [] 0 ul) d1 (59 :: rest) →
    ∃ s' d', spec_loop (mk_sp C_CDATA oct ty n [] an av en tx 0 ul) d (e ++ rest) = spec_loop s' d' rest ∧ reading s' d' nm ats (put_text cs [c]) E ∧ s_umax s' = 0).
  { intros body en' -> Hen Hbody. cbn [app]. rewrite <-app_assoc. cbn [app]. erewrite loop_byte; [|rewrite ascii_byte by (done || lia); cbn [spec_ascii s_ctx]; change (38 =? 38) with true; cbv iota; rewrite Hd; reflexivity]. sp_simpl. rewrite Hbody.
    exists (mk_sp C_CDATA oct ty n [] an av en' [] 0 ul), d2. split; [|split; [|done]].
    - apply loop_byte. rewrite ascii_byte by (done || lia). cbn [spec_ascii s_ctx]. change (59 =? 59) with true. cbv iota. unfold deliver. cbn [cdataHook dom_client s_ent]. rewrite Hen, E2. cbn [mbind exec_bind]. by rewrite decide_True.
    - split_and!; [done|done|]. exists (put_text cs [c]). by split. }
  destruct (entity_is c e He) as [[-> ->]|[[-> ->]|[[-> ->]|[[-> ->]|[-> ->]]]]].
  - apply (Hgo (bs "amp") (bs "amp")); reflexivity.
  - apply (Hgo (bs "apos") (bs "apos")); reflexivity.
  - apply (Hgo (bs "quot") (bs "quot")); reflexivity.
  - apply (Hgo (bs "lt") (bs "lt")); reflexivity.
  - apply (Hgo (bs "gt") (bs "gt")); reflexivity.
Qed.

Lemma entity_utf8 c e m k t : XmlText.entity c = Some e → utf8 m k (c :: t) = true → m = 0 ∧ utf8 m k t = true.
Proof.
  intros He. assert (Hc : c = 38 ∨ c = 39 ∨ c = 34 ∨ c = 60 ∨ c = 62) by (apply entity_is in He; tauto).
  cbn [utf8]. destruct (Z.eqb_spec m 0) as [->|Hm].
  - destruct Hc as [-> |[-> |[-> |[-> | ->]]]]; cbn; done.
  - destruct Hc as [-> |[-> |[-> |[-> | ->]]]]; cbn; done.
Qed.

(** The count does not matter between characters. *)
Lemma utf8_any t : ∀ k k', utf8 0 k t = utf8 0 k' t.
Proof.
  induction t as [|c t IH]; intros k k'; [done|]. cbn [utf8 negb Z.eqb]. destruct (_ || _); [done|]. destruct (negb _); [done|]. apply IH.
Qed.

Lemma loop_text nm ats E rest t : ∀ m k s d cs, utf8 m k t = true → reading s d nm ats cs E → s_umax s = m → (m ≠ 0 → s_ulen s = k) →
  ∃ s' d', spec_loop s d (xml_escape t ++ rest) = spec_loop s' d' rest ∧ reading s' d' nm ats (put_some cs t) E ∧ s_umax s' = 0.
Proof.
  induction t as [|c t IH]; intros m k s d cs Hu Hr Hm Hk.
  - cbn in Hu. apply Z.eqb_eq in Hu as ->. by exists s, d.
  - rewrite xml_escape_cons, <-app_assoc. cbn [put_some]. rewrite <-put_some_cons. destruct (XmlText.entity c) as [e|] eqn:He.
    + change (default [c] (Some e)) with e. destruct (entity_utf8 c e m k t He Hu) as [-> Hu']. destruct (loop_entity s d nm ats cs E c e (xml_escape t ++ rest) He Hr Hm) as (s1 & d1 & -> & Hr1 & Hm1).
      by apply (IH 0 k s1 d1).
    + change (default [c] None) with [c]. cbn [app]. cbn [utf8] in Hu. destruct ((c =? 0) || (c =? 254) || (c =? 255)) eqn:Hbad; [done|].
      assert (Hgo : ∀ m' k', spec_byte s d c = Done (collect (s_setuni s m' k') c, d, None) → utf8 m' k' t = true →
        ∃ s' d', spec_loop s d (c :: xml_escape t ++ rest) = spec_loop s' d' rest ∧ reading s' d' nm ats (put_some (put_text cs [c]) t) E ∧ s_umax s' = 0).
      { intros m' k' Eb Hu'. rewrite (loop_byte _ _ _ _ _ _ Eb). apply (IH m' k'); [done|by apply reading_collect| |].
        - destruct Hr as (Hc & _). destruct s. cbn in Hc. subst. reflexivity.
        - intros _. destruct Hr as (Hc & _). destruct s. cbn in Hc. subst. reflexivity. }
      destruct (Z.eqb_spec m 0) as [Hm0|Hm0]; cbn [negb] in Hu.
      * destruct (negb (Z.land c 128 =? 0)) eqn:H80.
        -- destruct (lead_byte c) as [[max mask]|] eqn:Hl; [|done]. apply andb_prop in Hu as [Hmask Hu]. apply (Hgo max 1); [|done].
           unfold spec_byte. rewrite Hbad, Hm, Hm0. cbn [negb Z.eqb]. rewrite H80, Hl. apply negb_true_iff in Hmask. by rewrite Hmask.
        -- apply (Hgo 0 (s_ulen s)); [|rewrite (utf8_any t _ k); by rewrite <-Hm0].
           assert (Hne : c ≠ 38 ∧ c ≠ 60) by (split; intros ->; discriminate He). unfold spec_byte. rewrite Hbad, Hm, Hm0. cbn [negb Z.eqb]. rewrite H80.
           destruct Hr as (Hc & _). unfold spec_ascii. rewrite Hc. rewrite !(proj2 (Z.eqb_neq c _)) by lia. destruct s. cbn in Hc, Hm. subst. sp_simpl. f_equal.
      * apply andb_prop in Hu as [Hcont Hu]. specialize (Hk Hm0). eapply Hgo; [|exact Hu]. unfold spec_byte. rewrite Hbad, Hm, Hk. rewrite (proj2 (Z.eqb_neq m 0)) by done. cbn [negb]. by rewrite Hcont.
Qed.

(** ** Trees *)

Definition add_tree (cs : list tree) (t : tree) : list tree := match t with TText x => put_some cs x | TTag _ _ _ => cs ++ [t] end.

(** Text does not follow on text. *)
Definition meets (cs l : list tree) : bool :=
  match last cs, l with Some (TText _), TText _ :: _ => false | _, _ => true end.

Lemma add_trees l : ∀ cs, apart l = true → forallb tree_ok l = true → meets cs l = true → fold_left add_tree l cs = cs ++ l.
Proof.
  induction l as [|t l IH]; intros cs Ha Hok Hm; cbn [fold_left]; [by rewrite app_nil_r|]. cbn [forallb] in Hok. apply andb_prop in Hok as [Ht Hok].
  assert (Hl : apart l = true) by (destruct t; [done|]; destruct l as [|[]]; done).
  assert (Hadd : add_tree cs t = cs ++ [t]).
  { destruct t as [n a c|x]; [done|]. cbn [add_tree tree_ok] in *. unfold text_ok in Ht. destruct x as [|b x]; [done|]. cbn [put_some]. unfold put_text, meets in *. by destruct (last cs) as [[]|]. }
  rewrite Hadd, IH; [by rewrite <-app_assoc|done|done|]. unfold meets. rewrite last_snoc. destruct t; [done|]. destruct l as [|[]]; done.
Qed.

Lemma finish_hook s (d d' : dom_data) : dom_tagHook d (s_name s) (s_atts s) (s_type s) = Done (IKS_OK, d') →
  finish_tag s d = Done (s_settext (s_setatts (s_goto s C_CDATA) []) [], d', None).
Proof. intros E. unfold finish_tag. cbn [tagHook dom_client]. rewrite E. cbn [mbind exec_bind]. by rewrite decide_True. Qed.

Lemma finish_outside s : s_umax s = 0 → outside (s_settext (s_setatts (s_goto s C_CDATA) []) []).
Proof. intros. destruct s. by split_and!. Qed.

Lemma atts_ok_spec a : atts_ok a = true → forallb (λ kv, name_ok kv.1 && forallb value_char kv.2) a = true ∧ NoDup a.*1 ∧ room a = true.
Proof. unfold atts_ok, room. rewrite !andb_true_iff, bool_decide_eq_true. tauto. Qed.

(** A tag, given what its children and its end do. *)
Lemma loop_element n a cs E (Q : dom_data → Prop) s d d0 d1 rest :
  tree_ok (TTag n a cs) = true → outside s → (∀ k, deliver_text s d k = k d0) →
  dom_tagHook d0 n a IKS_OPEN = Done (IKS_OK, d1) → building d1 ((n, a, []) :: E) →
  (∀ s d rest, reading s d n a [] E → s_umax s = 0 →
     ∃ s' d', spec_loop s d (concat (map print cs) ++ rest) = spec_loop s' d' rest ∧ reading s' d' n a cs E ∧ s_umax s' = 0) →
  (∀ d2 nm atts, building d2 ((n, a, cs) :: E) → ∃ d3, dom_tagHook d2 nm atts IKS_CLOSE = Done (IKS_OK, d3) ∧ Q d3) →
  ∃ s' d3, spec_loop s d (print (TTag n a cs) ++ rest) = spec_loop s' d3 rest ∧ outside s' ∧ s_text s' = [] ∧ Q d3.
Proof.
  intros Hok Ho Hd Eo Hb Hch Hcl. cbn [tree_ok] in Hok. rewrite !andb_true_iff in Hok. destruct Hok as [[[Hn (Ha & _ & Hr)%atts_ok_spec] _] _].
  destruct cs as [|t cs].
  - cbn [print]. rewrite <-app_comm_cons, <-!app_assoc. cbn [app]. destruct (loop_open s d d0 n a (47 :: 62 :: rest) Ho Hn Ha Hd) as (s1 & -> & H1).
    destruct (tag_single_end s1 n a d0 rest H1 Hr) as (s2 & -> & E62 & Hu & Hty & Hnm & Hat). destruct (Hcl d1 n a Hb) as (d3 & Ec & HQ).
    assert (Eh : dom_tagHook d0 (s_name s2) (s_atts s2) (s_type s2) = Done (IKS_OK, d3)) by (rewrite Hty, Hnm, Hat, single_hook, Eo; exact Ec).
    eexists _, d3. split; [apply loop_byte; rewrite E62; apply finish_hook, Eh|]. split; [by apply finish_outside|done].
  - change (print (TTag n a (t :: cs))) with (60 :: n ++ print_atts a ++ [62] ++ concat (map print (t :: cs)) ++ [60; 47] ++ n ++ [62]).
    rewrite <-app_comm_cons, <-!app_assoc. cbn [app]. destruct (loop_open s d d0 n a (62 :: concat (map print (t :: cs)) ++ 60 :: 47 :: n ++ 62 :: rest) Ho Hn Ha Hd) as (s1 & -> & H1).
    assert (H1' := H1). destruct H1' as (Hu1 & Hty1 & Hn1 & Ha1 & _).
    assert (Eh : dom_tagHook d0 (s_name s1) (s_atts s1) (s_type s1) = Done (IKS_OK, d1)) by (by rewrite Hty1, Hn1, Ha1).
    erewrite loop_byte; [|rewrite (tag_open_end s1 n a d0 H1 Hr); apply finish_hook, Eh]. set (s2 := s_settext _ _). assert (Ho2 : outside s2) by (by apply finish_outside).
    destruct (Hch s2 d1 (60 :: 47 :: n ++ 62 :: rest)) as (s3 & d2 & -> & Hr3 & Hu3); [|by destruct Ho2 as (_ & ? & _)|].
    { destruct Ho2 as (? & _ & ?). split_and!; [done|done|]. by exists []. }
    destruct (reading_flush _ _ _ _ _ _ Hr3) as (d2' & Hd2 & Hb2). destruct Hr3 as (Hc3 & Ha3 & _).
    destruct (loop_close s3 d2 d2' n rest (conj Hc3 (conj Hu3 Ha3)) Hn Hd2) as (s4 & -> & E62 & Hu4 & Hty4 & Hn4 & Ha4).
    destruct (Hcl d2' n [] Hb2) as (d3 & Ec & HQ).
    assert (Eh4 : dom_tagHook d2' (s_name s4) (s_atts s4) (s_type s4) = Done (IKS_OK, d3)) by (by rewrite Hty4, Hn4, Ha4).
    eexists _, d3. split; [apply loop_byte; rewrite E62; apply finish_hook, Eh4|]. split; [by apply finish_outside|done].
Qed.

Definition tree_reads (t : tree) : Prop := tree_ok t = true → ∀ nm ats cs E s d rest, reading s d nm ats cs E → s_umax s = 0 →
  ∃ s' d', spec_loop s d (print t ++ rest) = spec_loop s' d' rest ∧ reading s' d' nm ats (add_tree cs t) E ∧ s_umax s' = 0.

Lemma loop_list nm ats E l : Forall tree_reads l → forallb tree_ok l = true → ∀ cs s d rest, reading s d nm ats cs E → s_umax s = 0 →
  ∃ s' d', spec_loop s d (concat (map print l) ++ rest) = spec_loop s' d' rest ∧ reading s' d' nm ats (fold_left add_tree l cs) E ∧ s_umax s' = 0.
Proof.
  induction 1 as [|t l Ht Hl IH]; intros Hok cs s d rest Hr Hu; cbn [map concat fold_left]; [by exists s, d|]. cbn [forallb] in Hok. apply andb_prop in Hok as [Hok1 Hok].
  rewrite <-app_assoc. destruct (Ht Hok1 nm ats cs E s d (concat (map print l) ++ rest) Hr Hu) as (s1 & d1 & -> & Hr1 & Hu1). by apply IH.
Qed.

Lemma loop_children nm ats E l : Forall tree_reads l → forallb tree_ok l = true → apart l = true → ∀ s d rest, reading s d nm ats [] E → s_umax s = 0 →
  ∃ s' d', spec_loop s d (concat (map print l) ++ rest) = spec_loop s' d' rest ∧ reading s' d' nm ats l E ∧ s_umax s' = 0.
Proof.
  intros Hl Hok Ha s d rest Hr Hu. destruct (loop_list nm ats E l Hl Hok [] s d rest Hr Hu) as (s' & d' & E' & Hr' & Hu'). exists s', d'. split_and!; [done| |done].
  by rewrite add_trees in Hr'.
Qed.

Lemma all_trees_read t : tree_reads t.
Proof.
  induction t as [n a cs Hcs|x] using tree_nested_ind; intros Hok nm ats cs0 E s d rest Hr Hu.
  - destruct (reading_flush _ _ _ _ _ _ Hr) as (d0 & Hd & Hb). pose proof Hok as Hok'. cbn [tree_ok] in Hok'. rewrite !andb_true_iff in Hok'.
    destruct Hok' as [[[_ (_ & Hnd & _)%atts_ok_spec] Hap] Hall]. destruct (building_open d0 _ n a Hnd Hb) as (d1 & Eo & Hb1). destruct Hr as (Hc & Ha & _).
    destruct (loop_element n a cs ((nm, ats, cs0) :: E) (λ d, building d ((nm, ats, cs0 ++ [TTag n a cs]) :: E)) s d d0 d1 rest Hok (conj Hc (conj Hu Ha)) Hd Eo Hb1)
      as (s' & d3 & -> & (Hc' & Hu' & Ha') & Ht & HQ).
    + intros s2 d2 rest2. by apply loop_children.
    + intros d2 nm2 atts2 Hb2. by apply building_close.
    + exists s', d3. split; [done|]. split; [|exact Hu']. split; [exact Hc'|]. split; [exact Ha'|]. exists (cs0 ++ [TTag n a cs]). by rewrite Ht.
  - cbn [tree_ok] in Hok. unfold text_ok in Hok. rewrite !andb_true_iff in Hok. destruct Hok as [_ Hx]. cbn [print add_tree]. by apply (loop_text nm ats E rest x 0 0 s d cs0).
Qed.

(** A whole document, from a new parser. *)
Lemma loop_document n a cs d rest : tree_ok (TTag n a cs) = true → current d = None → iksptr d = None → owns (dheap d) [] →
  ∃ s' d', spec_loop sp_init d (print (TTag n a cs) ++ rest) = spec_loop s' d' rest ∧ outside s' ∧ s_text s' = [] ∧ finished d' (TTag n a cs).
Proof.
  intros Hok Hc Hi Ho. pose proof Hok as Hok'. cbn [tree_ok] in Hok'. rewrite !andb_true_iff in Hok'. destruct Hok' as [[[_ (_ & Hnd & _)%atts_ok_spec] Hap] Hall].
  destruct (building_first d n a Hnd Hc Hi Ho) as (d1 & Eo & Hb1). apply (loop_element n a cs [] (λ d, finished d (TTag n a cs)) sp_init d d d1 rest Hok); try done.
  - intros s2 d2 rest2. apply loop_children; [|done|done]. apply Forall_forall. intros t _. apply all_trees_read.
  - intros d2 nm2 atts2 Hb2. by apply building_last.
Qed.

(** The bytes of a printed tree. *)
Lemma forallb_bytes s (p : Z → bool) : (∀ c, p c = true → 1 <= c <= 255) → forallb p s = true → is_cstr s.
Proof. intros Hp. rewrite forallb_forall. intros H. apply List.Forall_forall. intros c Hc. specialize (Hp c (H c Hc)). unfold is_cchar. lia. Qed.

Lemma escape_cstr s : is_cstr s → is_cstr (xml_escape s).
Proof.
  induction 1 as [|c s Hc Hs IH]; [constructor|]. rewrite xml_escape_cons. apply Forall_app. split; [|done]. destruct (XmlText.entity c) as [e|] eqn:He; [|apply Forall_cons_2; [done|apply Forall_nil_2]].
  destruct (entity_is c e He) as [[_ ->]|[[_ ->]|[[_ ->]|[[_ ->]|[_ ->]]]]]; apply (bool_decide_unpack _); vm_compute; done.
Qed.

Lemma name_cstr n : name_ok n = true → is_cstr n.
Proof.
  intros (c & n' & -> & _ & _ & Hc & Hn)%name_ok_spec. apply (forallb_bytes _ name_char); [intros x Hx%name_char_spec; lia|]. cbn [forallb]. by rewrite Hc, Hn.
Qed.

Lemma atts_cstr a : forallb (λ kv, name_ok kv.1 && forallb value_char kv.2) a = true → is_cstr (print_atts a).
Proof.
  induction a as [|[k v] a IH]; [constructor|]. cbn [forallb fst snd]. intros [[Hk Hv]%andb_prop Ha]%andb_prop. unfold print_atts. cbn [map concat]. fold (print_atts a).
  apply Forall_app. split; [|by apply IH]. unfold print_att. cbn [fst snd]. constructor; [unfold is_cchar; lia|]. repeat (apply Forall_app; split).
  - by apply name_cstr.
  - repeat constructor; unfold is_cchar; lia.
  - apply escape_cstr, (forallb_bytes _ value_char); [intros x Hx%value_char_spec; lia|done].
  - repeat constructor; unfold is_cchar; lia.
Qed.

Lemma print_cstr t : tree_ok t = true → is_cstr (print t).
Proof.
  induction t as [n a cs Hcs|x] using tree_nested_ind; cbn [tree_ok].
  - rewrite !andb_true_iff. intros [[[Hn (Ha & _ & _)%atts_ok_spec] _] Hall]. apply name_cstr in Hn. apply atts_cstr in Ha.
    assert (Hl : is_cstr (concat (map print cs))).
    { clear - Hcs Hall. induction Hcs as [|t cs Ht Hcs IH]; [constructor|]. cbn [forallb] in Hall. apply andb_prop in Hall as [H1 H2]. cbn [map concat]. apply Forall_app. split; [by apply Ht|by apply IH]. }
    assert (Hs : ∀ c, 1 <= c <= 127 → is_cchar c) by (unfold is_cchar; lia). unfold is_cstr in *.
    destruct cs as [|t cs]; [cbn [print]|change (print (TTag n a (t :: cs))) with (60 :: n ++ print_atts a ++ [62] ++ concat (map print (t :: cs)) ++ [60; 47] ++ n ++ [62])];
      repeat first [done|apply Forall_nil_2|apply Forall_cons_2; [apply Hs; lia|]|apply Forall_app_2].
  - unfold text_ok. rewrite !andb_true_iff. intros [[_ Hx] _]. cbn [print]. apply escape_cstr. eapply forallb_bytes; [|exact Hx]. cbn. intros c. rewrite andb_true_iff, !Z.leb_le. lia.
Qed.

(** The parser on a printed document. *)
Lemma tree_of_print h n a cs : ready h → tree_ok (TTag n a cs) = true →
  ∃ d, iks_tree h [] (print (TTag n a cs) ++ [0]) 0 = Done (iksptr d, IKS_OK, dheap d) ∧ finished d (TTag n a cs).
Proof.
  intros [Hm Hf] Hok. unfold iks_tree, iks_dom_new, iks_stack_new, take_mem. rewrite Hm. cbn beta iota zeta. rewrite Hm. change (0 =? 0) with true. cbv iota.
  set (d := mk_dom None None DEFAULT_DOM_IKS_CHUNK_SIZE _). assert (Ho : owns (dheap d) []) by (split; [split; [done|exact Hf]|split; [constructor|by intros ? ? ?%elem_of_nil]]).
  pose proof (print_cstr _ Hok) as Hc. rewrite c_str_terminated by done. set (text := print (TTag n a cs)) in *.
  assert (Hp : iks_parse (iks_sax_new []) d (Some (text ++ [0])) (strlen text) = sax_core (iks_sax_new []) d text).
  { unfold iks_parse. destruct (Z.eqb_spec (strlen text) 0) as [E|E].
    - rewrite c_str_terminated by done. done.
    - rewrite mread_done by (unfold strlen in *; rewrite ?length_app; lia). cbn [mbind exec_bind]. unfold strlen. by rewrite Nat2Z.id, drop_0, take_app_length. }
  rewrite Hp. clear Hp. destruct (loop_document n a cs d [] Hok eq_refl eq_refl Ho) as (s' & d' & El & (Hctx & Hu & Ha) & Ht & Hfin). rewrite app_nil_r in El. fold text in El. cbn [spec_loop] in El.
  assert (Hsp : spec_core sp_init d text = Done (IKS_OK, s_settext s' [], d')).
  { unfold spec_core. rewrite El. cbn [mbind exec_bind]. rewrite bool_decide_true by (by left). rewrite Ht. done. }
  assert (Hby : Forall is_byte text) by (apply (Forall_impl _ _ _ Hc); unfold is_cchar, is_byte; lia).
  pose proof (sax_core_sim (iks_sax_new []) sp_init d text between_new Hby) as Hs. rewrite Hsp in Hs. destruct Hs as (p' & -> & _). cbn [mbind exec_bind].
  unfold dom_deleteHook. destruct Hfin as (Hcur & Hr & Hrep). rewrite Hcur. cbn [iks_delete mbind exec_bind iksptr dheap]. exists d'. done.
Qed.

(** C3 (roundtrip): a document survives the way through text.  The text that the
    serialiser writes of a tree is read by the parser as a document that is the
    same tree; and written again it is the same text.  This for trees in which names
    are of the signs between [!] and [~] without the slash, the equals sign and the
    greater sign, and begin with neither an exclamation nor a question mark; values of
    attributes are ASCII and need no escaping (those that are escaped do not survive:
    the parser resolves entities in text only); a tag has no attribute twice and not
    twelve attributes or a multiple of that; texts are not empty, no two of them are
    next to each other, and they are in UTF-8 as the parser checks it. *)
Theorem document_roundtrip (h : heap) (n : str) (a : list (str * str)) (cs : list tree) (fuel : nat) (have_stack : bool) :
  ready h → tree_ok (TTag n a cs) = true → (cost (TTag n a cs) <= fuel)%nat →
  ∃ x m h', iks_tree h [] (print (TTag n a cs) ++ [0]) 0 = Done (Some x, IKS_OK, h') ∧ rep h' (TTag n a cs) x m ∧
    iks_string fuel h' have_stack (Some x) = Done (Some (print (TTag n a cs)), h').
Proof.
  intros Hr Hok Hf. destruct (tree_of_print h n a cs Hr Hok) as (d & E & _ & Hrd & x & m & Hx & Hrep). exists x, m, (dheap d). rewrite E, Hx. split_and!; [done|done|].
  rewrite (string_spec fuel _ have_stack _ _ _ _ _ Hrep Hf). unfold take_mem. by rewrite (proj1 Hrd).
Qed.

Lemma document_roundtrip_witness :
  ∃ x m h', iks_tree (mk_heap ∅ 0 0 []) [] (bs "<message to='x@y'><body>5 &gt; 4 &amp; <b/>more</body></message>" ++ [0]) 0 = Done (Some x, IKS_OK, h') ∧
    rep h' (TTag (bs "message") [(bs "to", bs "x@y")] [TTag (bs "body") [] [TText (bs "5 > 4 & "); TTag (bs "b") [] []; TText (bs "more")]]) x m.
Proof.
  destruct (document_roundtrip (mk_heap ∅ 0 0 []) (bs "message") [(bs "to", bs "x@y")] [TTag (bs "body") [] [TText (bs "5 > 4 & "); TTag (bs "b") [] []; TText (bs "more")]] 100 true)
    as (x & m & h' & E & Hr & _).
  - split; [reflexivity|]. intros y [n Hn]. discriminate Hn.
  - vm_compute. reflexivity.
  - cbn. lia.
  - exists x, m, h'. split; [exact E|exact Hr].
Defined.
