(* ===== verification/Jabber.v ===== *)
(** * Jabber ids, packets and stanzas

    [src/sysapps/apps/cgi2/app/jabberlog/jabber.c]: the parts of a Jabber id,
    the classification of a received stanza, the stanzas the client sends, and
    the features a server announces.  Strings and structures are allocated in
    the pool of the stanza, with the outcomes that [hmem] foretells; a null
    string that is used without a test is a [Fault]. *)

From S2P Require Import Prelude XmlText Sha1 Dom DomPrint DomQuery.

Local Open Scope Z_scope.

(** ** Ids *)

Record iksid : Type := mk_iksid {
  id_user : option str; id_server : option str; id_resource : option str;
  id_partial : option str; id_full : option str }.

Definition IKS_ID_USER : Z := 1.
Definition IKS_ID_SERVER : Z := 2.
Definition IKS_ID_RESOURCE : Z := 4.

(** [strchr (s, c)]: the offset of the first [c]. *)
Fixpoint strchr (s : str) (c : Z) : option nat :=
  match s with
  | [] => None
  | b :: s' => if b =? c then Some O else option_map S (strchr s' c)
  end.

(** [iks_stack_strdup (s, src, len)]: a length of 0 stands for all of [src]. *)
Definition dup_len (h : heap) (src : str) (len : nat) : option str * heap :=
  dup h (match len with O => src | S _ => take len src end).

(** A [jid] that starts with the scheme is read behind it. *)
Definition skip_scheme (jid : str) : str :=
  if strncmp (bs "jabber:") jid 7 =? 0 then drop 7 jid else jid.

Definition iks_id_new (h : heap) (jid : option str) : exec (option iksid * heap) :=
  match jid with
  | None => Done (None, h)
  | Some jid =>
      let '(ok, h) := take_mem h in
      if negb ok then Done (None, h) else
      let '(full, h) := dup h (skip_scheme jid) in
      src ← deref full;
      '(partial, resource, h) ← match strchr src 47 with
        | Some n => let '(p, h) := dup_len h src n in Done (p, Some (drop (S n) src), h)
        | None => Done (full, None, h)
        end;
      src ← deref partial;
      let '(user, server, h) :=
        match strchr src 64 with
        | Some n => let '(u, h) := dup_len h src n in (u, drop (S n) src, h)
        | None => (None, src, h)
        end in
      Done (Some (mk_iksid user (Some server) resource partial full), h)
  end.

(** [parts & bit && !(!a && !b) && cmp (a, b) != 0]. *)
Definition part_differs (cmp : option str → option str → Z) (parts bit : Z) (a b : option str) : bool :=
  negb (Z.land parts bit =? 0) &&
  negb (bool_decide (a = None) && bool_decide (b = None)) && negb (cmp a b =? 0).

Definition iks_id_cmp (a b : option iksid) (parts : Z) : Z :=
  match a, b with
  | Some a, Some b =>
      (if part_differs iks_strcmp parts IKS_ID_RESOURCE (id_resource a) (id_resource b) then IKS_ID_RESOURCE else 0)
      + (if part_differs iks_strcasecmp parts IKS_ID_USER (id_user a) (id_user b) then IKS_ID_USER else 0)
      + (if part_differs iks_strcmp parts IKS_ID_SERVER (id_server a) (id_server b) then IKS_ID_SERVER else 0)
  | _, _ => Z.lor (Z.lor IKS_ID_RESOURCE IKS_ID_USER) IKS_ID_SERVER
  end.

(** ** Packets *)

Inductive ikspaktype : Type := IKS_PAK_NONE | IKS_PAK_MESSAGE | IKS_PAK_PRESENCE | IKS_PAK_IQ | IKS_PAK_S10N.
Inductive iksubtype : Type :=
| IKS_TYPE_NONE | IKS_TYPE_ERROR | IKS_TYPE_CHAT | IKS_TYPE_GROUPCHAT | IKS_TYPE_HEADLINE
| IKS_TYPE_GET | IKS_TYPE_SET | IKS_TYPE_RESULT
| IKS_TYPE_SUBSCRIBE | IKS_TYPE_SUBSCRIBED | IKS_TYPE_UNSUBSCRIBE | IKS_TYPE_UNSUBSCRIBED
| IKS_TYPE_PROBE | IKS_TYPE_AVAILABLE | IKS_TYPE_UNAVAILABLE.
Inductive ikshowtype : Type :=
| IKS_SHOW_UNAVAILABLE | IKS_SHOW_AVAILABLE | IKS_SHOW_CHAT | IKS_SHOW_AWAY | IKS_SHOW_XA | IKS_SHOW_DND.

#[export] Instance ikspaktype_eq_dec : EqDecision ikspaktype.
Proof. solve_decision. Defined.
#[export] Instance iksubtype_eq_dec : EqDecision iksubtype.
Proof. solve_decision. Defined.
#[export] Instance ikshowtype_eq_dec : EqDecision ikshowtype.
Proof. solve_decision. Defined.

Record ikspak : Type := mk_ikspak {
  pak_x : nat; pak_from : option iksid; pak_query : ptr; pak_ns : option str; pak_id : option str;
  pak_type : ikspaktype; pak_subtype : iksubtype; pak_show : ikshowtype }.

(** A chain of [else if (strcmp (tmp, s) == 0)]: the value of the first string
    that is equal to [tmp]. *)
Fixpoint strcase {A} (l : list (str * A)) (tmp : str) (other : A) : A :=
  match l with
  | [] => other
  | (s, a) :: l' => if strcmp tmp s =? 0 then a else strcase l' tmp other
  end.

Definition message_subtypes : list (str * iksubtype) :=
  [(bs "chat", IKS_TYPE_CHAT); (bs "groupchat", IKS_TYPE_GROUPCHAT);
   (bs "headline", IKS_TYPE_HEADLINE); (bs "error", IKS_TYPE_ERROR)].

Definition presence_types : list (str * (ikspaktype * iksubtype * ikshowtype)) :=
  [(bs "unavailable", (IKS_PAK_PRESENCE, IKS_TYPE_UNAVAILABLE, IKS_SHOW_UNAVAILABLE));
   (bs "probe", (IKS_PAK_PRESENCE, IKS_TYPE_PROBE, IKS_SHOW_UNAVAILABLE));
   (bs "subscribe", (IKS_PAK_S10N, IKS_TYPE_SUBSCRIBE, IKS_SHOW_UNAVAILABLE));
   (bs "subscribed", (IKS_PAK_S10N, IKS_TYPE_SUBSCRIBED, IKS_SHOW_UNAVAILABLE));
   (bs "unsubscribe", (IKS_PAK_S10N, IKS_TYPE_UNSUBSCRIBE, IKS_SHOW_UNAVAILABLE));
   (bs "unsubscribed", (IKS_PAK_S10N, IKS_TYPE_UNSUBSCRIBED, IKS_SHOW_UNAVAILABLE));
   (bs "error", (IKS_PAK_S10N, IKS_TYPE_ERROR, IKS_SHOW_UNAVAILABLE))].

Definition show_types : list (str * ikshowtype) :=
  [(bs "chat", IKS_SHOW_CHAT); (bs "away", IKS_SHOW_AWAY); (bs "xa", IKS_SHOW_XA); (bs "dnd", IKS_SHOW_DND)].

Definition iq_subtypes : list (str * iksubtype) :=
  [(bs "get", IKS_TYPE_GET); (bs "set", IKS_TYPE_SET); (bs "result", IKS_TYPE_RESULT); (bs "error", IKS_TYPE_ERROR)].

(** The query of an iq: the first child tag with an [xmlns]. *)
Fixpoint find_query (fuel : nat) (h : heap) (q : ptr) : exec (ptr * option str) :=
  match q, fuel with
  | None, _ => Done (None, None)
  | Some _, O => Fault
  | Some q, S fuel' =>
      t ← iks_type h (Some q);
      ns ← (if decide (t = IKS_TAG) then iks_find_attrib h (Some q) (bs "xmlns") else Done None);
      match ns with
      | Some ns => Done (Some q, Some ns)
      | None => q' ← iks_next h (Some q); find_query fuel' h q'
      end
  end.

Definition iks_packet (h : heap) (x : nat) : exec (option ikspak * heap) :=
  let '(ok, h) := take_mem h in
  if negb ok then Done (None, h) else
  tmp ← iks_find_attrib h (Some x) (bs "from");
  '(from, h) ← iks_id_new h tmp;
  id ← iks_find_attrib h (Some x) (bs "id");
  tmp ← iks_find_attrib h (Some x) (bs "type");
  name ← iks_name h (Some x);
  name ← deref name;
  if strcmp name (bs "message") =? 0 then
    let sub := match tmp with Some t => strcase message_subtypes t IKS_TYPE_NONE | None => IKS_TYPE_NONE end in
    Done (Some (mk_ikspak x from None None id IKS_PAK_MESSAGE sub IKS_SHOW_UNAVAILABLE), h)
  else if strcmp name (bs "presence") =? 0 then
    match tmp with
    | Some t =>
        let '(ty, sub, show) := strcase presence_types t (IKS_PAK_S10N, IKS_TYPE_NONE, IKS_SHOW_UNAVAILABLE) in
        Done (Some (mk_ikspak x from None None id ty sub show), h)
    | None =>
        tmp ← iks_find_cdata h (Some x) (bs "show");
        let show := match tmp with Some t => strcase show_types t IKS_SHOW_AVAILABLE | None => IKS_SHOW_AVAILABLE end in
        Done (Some (mk_ikspak x from None None id IKS_PAK_PRESENCE IKS_TYPE_AVAILABLE show), h)
    end
  else if strcmp name (bs "iq") =? 0 then
    let sub := match tmp with Some t => strcase iq_subtypes t IKS_TYPE_NONE | None => IKS_TYPE_NONE end in
    c ← iks_child h (Some x);
    '(q, ns) ← find_query (chain_fuel h) h c;
    Done (Some (mk_ikspak x from q ns id IKS_PAK_IQ sub IKS_SHOW_UNAVAILABLE), h)
  else Done (Some (mk_ikspak x from None None id IKS_PAK_NONE IKS_TYPE_NONE IKS_SHOW_UNAVAILABLE), h).

(** ** Stanzas *)

Definition IKS_NS_AUTH : str := bs "jabber:iq:auth".
Definition IKS_NS_ROSTER : str := bs "jabber:iq:roster".
Definition IKS_NS_XMPP_SASL : str := bs "urn:ietf:params:xml:ns:xmpp-sasl".
Definition IKS_NS_XMPP_BIND : str := bs "urn:ietf:params:xml:ns:xmpp-bind".
Definition IKS_NS_XMPP_SESSION : str := bs "urn:ietf:params:xml:ns:xmpp-session".

(** [iks_insert_cdata (iks_insert (x, name), data, len)]. *)
Definition insert_text (h : heap) (x : ptr) (name : str) (data : option str) (len : Z) : exec heap :=
  '(y, h) ← iks_insert h x (Some name);
  '(_, h) ← iks_insert_cdata h y data len;
  Done h.

(** [if (t) ...]. *)
Definition when_some {A} (o : option A) (h : heap) (f : A → heap → exec heap) : exec heap :=
  match o with Some a => f a h | None => Done h end.

Definition insert_attrib (h : heap) (x : ptr) (name : str) (value : option str) : exec heap :=
  '(_, h) ← iks_insert_attrib h x name value; Done h.

(** [strlen] of a null pointer faults.  SHA-1 is the model of [Sha1]; that its
    padding loop ends is part of the property there. *)
Definition sha_digest (sid pass : str) : exec str :=
  match iks_sha_hash iks_sha_reset sid false with
  | Some sha => match iks_sha_hash sha pass true with Some sha => Done (iks_sha_print sha) | None => Fault end
  | None => Fault
  end.

Definition iks_make_auth (h : heap) (id : iksid) (pass sid : option str) : exec (ptr * heap) :=
  '(x, h) ← iks_new h (bs "iq");
  h ← insert_attrib h x (bs "type") (Some (bs "set"));
  '(y, h) ← iks_insert h x (Some (bs "query"));
  h ← insert_attrib h y (bs "xmlns") (Some IKS_NS_AUTH);
  h ← insert_text h y (bs "username") (id_user id) 0;
  h ← insert_text h y (bs "resource") (id_resource id) 0;
  h ← match sid with
      | Some sid =>
          pass ← deref pass;
          buf ← sha_digest sid pass;
          insert_text h y (bs "digest") (Some buf) 40
      | None => insert_text h y (bs "password") pass 0
      end;
  Done (x, h).

Definition msg_type_name (t : iksubtype) : option str :=
  match t with
  | IKS_TYPE_CHAT => Some (bs "chat")
  | IKS_TYPE_GROUPCHAT => Some (bs "groupchat")
  | IKS_TYPE_HEADLINE => Some (bs "headline")
  | _ => None
  end.

Definition iks_make_msg (h : heap) (type : iksubtype) (to body : option str) : exec (ptr * heap) :=
  '(x, h) ← iks_new h (bs "message");
  h ← when_some (msg_type_name type) h (λ t h, insert_attrib h x (bs "type") (Some t));
  h ← when_some to h (λ t h, insert_attrib h x (bs "to") (Some t));
  h ← when_some body h (λ b h, insert_text h x (bs "body") (Some b) 0);
  Done (x, h).

Definition s10n_type_name (t : iksubtype) : option str :=
  match t with
  | IKS_TYPE_SUBSCRIBE => Some (bs "subscribe")
  | IKS_TYPE_SUBSCRIBED => Some (bs "subscribed")
  | IKS_TYPE_UNSUBSCRIBE => Some (bs "unsubscribe")
  | IKS_TYPE_UNSUBSCRIBED => Some (bs "unsubscribed")
  | IKS_TYPE_PROBE => Some (bs "probe")
  | _ => None
  end.

Definition iks_make_s10n (h : heap) (type : iksubtype) (to msg : option str) : exec (ptr * heap) :=
  '(x, h) ← iks_new h (bs "presence");
  h ← when_some (s10n_type_name type) h (λ t h, insert_attrib h x (bs "type") (Some t));
  h ← when_some to h (λ t h, insert_attrib h x (bs "to") (Some t));
  h ← when_some msg h (λ b h, insert_text h x (bs "status") (Some b) 0);
  Done (x, h).

Definition show_name (s : ikshowtype) : option str :=
  match s with
  | IKS_SHOW_CHAT => Some (bs "chat")
  | IKS_SHOW_AWAY => Some (bs "away")
  | IKS_SHOW_XA => Some (bs "xa")
  | IKS_SHOW_DND => Some (bs "dnd")
  | _ => None
  end.

Definition iks_make_pres (h : heap) (show : ikshowtype) (status : option str) : exec (ptr * heap) :=
  '(x, h) ← iks_new h (bs "presence");
  h ← (if decide (show = IKS_SHOW_UNAVAILABLE)
       then insert_attrib h x (bs "type") (Some (bs "unavailable")) else Done h);
  h ← when_some (show_name show) h (λ t h, insert_text h x (bs "show") (Some t) 0);
  h ← when_some status h (λ t h, insert_text h x (bs "status") (Some t) 0);
  Done (x, h).

Definition iq_type_name (t : iksubtype) : option str :=
  match t with
  | IKS_TYPE_GET => Some (bs "get")
  | IKS_TYPE_SET => Some (bs "set")
  | IKS_TYPE_RESULT => Some (bs "result")
  | IKS_TYPE_ERROR => Some (bs "error")
  | _ => None
  end.

Definition iks_make_iq (h : heap) (type : iksubtype) (xmlns : option str) : exec (ptr * heap) :=
  '(x, h) ← iks_new h (bs "iq");
  h ← when_some (iq_type_name type) h (λ t h, insert_attrib h x (bs "type") (Some t));
  '(y, h) ← iks_insert h x (Some (bs "query"));
  h ← insert_attrib h y (bs "xmlns") xmlns;
  Done (x, h).

Definition iks_make_resource_bind (h : heap) (id : iksid) : exec (ptr * heap) :=
  '(x, h) ← iks_new h (bs "iq");
  h ← insert_attrib h x (bs "type") (Some (bs "set"));
  '(y, h) ← iks_insert h x (Some (bs "bind"));
  h ← insert_attrib h y (bs "xmlns") (Some IKS_NS_XMPP_BIND);
  h ← match id_resource id with
      | Some r => if iks_strcmp (Some r) (Some []) =? 0 then Done h else insert_text h y (bs "resource") (Some r) 0
      | None => Done h
      end;
  Done (x, h).

Definition iks_make_session (h : heap) : exec (ptr * heap) :=
  '(x, h) ← iks_new h (bs "iq");
  h ← insert_attrib h x (bs "type") (Some (bs "set"));
  '(y, h) ← iks_insert h x (Some (bs "session"));
  h ← insert_attrib h y (bs "xmlns") (Some IKS_NS_XMPP_SESSION);
  Done (x, h).

(** ** Stream features *)

Definition IKS_STREAM_STARTTLS : Z := 1.
Definition IKS_STREAM_SESSION : Z := 2.
Definition IKS_STREAM_BIND : Z := 4.
Definition IKS_STREAM_SASL_PLAIN : Z := 8.
Definition IKS_STREAM_SASL_MD5 : Z := 16.

Fixpoint sasl_loop (fuel : nat) (h : heap) (x : ptr) (mech : Z) : exec Z :=
  match x, fuel with
  | None, _ => Done mech
  | Some _, O => Fault
  | Some _, S fuel' =>
      c ← iks_child h x;
      d ← iks_cdata h c;
      let mech :=
        if iks_strcmp d (Some (bs "DIGEST-MD5")) =? 0 then Z.lor mech IKS_STREAM_SASL_MD5
        else if iks_strcmp d (Some (bs "PLAIN")) =? 0 then Z.lor mech IKS_STREAM_SASL_PLAIN
        else mech in
      x ← iks_next_tag h x;
      sasl_loop fuel' h x mech
  end.

Definition iks_sasl_mechanisms (h : heap) (x : ptr) : exec Z := sasl_loop (chain_fuel h) h x 0.

Fixpoint features_loop (fuel : nat) (h : heap) (x : ptr) (features : Z) : exec Z :=
  match x, fuel with
  | None, _ => Done features
  | Some _, O => Fault
  | Some _, S fuel' =>
      nm ← iks_name h x;
      features ←
        (if iks_strcmp nm (Some (bs "starttls")) =? 0 then Done (Z.lor features IKS_STREAM_STARTTLS)
         else if iks_strcmp nm (Some (bs "bind")) =? 0 then Done (Z.lor features IKS_STREAM_BIND)
         else if iks_strcmp nm (Some (bs "session")) =? 0 then Done (Z.lor features IKS_STREAM_SESSION)
         else if iks_strcmp nm (Some (bs "mechanisms")) =? 0 then
           c ← iks_child h x; m ← iks_sasl_mechanisms h c; Done (Z.lor features m)
         else Done features);
      x ← iks_next_tag h x;
      features_loop fuel' h x features
  end.

Definition iks_stream_features (h : heap) (x : ptr) : exec Z :=
  nm ← iks_name h x;
  if negb (iks_strcmp nm (Some (bs "stream:features")) =? 0) then Done 0 else
  c ← iks_child h x;
  features_loop (chain_fuel h) h c 0.

(** ** Ids: splitting undoes composing *)

Lemma strchr_app (a b : str) (c : Z) : c ∉ a → strchr (a ++ c :: b) c = Some (length a).
Proof.
  induction a as [|x a IH]; cbn; intros H; [by rewrite Z.eqb_refl|].
  destruct (Z.eqb_spec x c) as [->|]; [set_solver|]. rewrite IH by set_solver. done.
Qed.

Lemma strchr_none (a : str) (c : Z) : c ∉ a → strchr a c = None.
Proof.
  induction a as [|x a IH]; cbn; intros H; [done|].
  destruct (Z.eqb_spec x c) as [->|]; [set_solver|]. rewrite IH by set_solver. done.
Qed.

Lemma skip_scheme_app (s : str) : skip_scheme (bs "jabber:" ++ s) = s.
Proof.
  unfold skip_scheme, strncmp. change 7%nat with (length (bs "jabber:")) at 1 2 3.
  rewrite take_app_length, drop_app_length, take_ge by done. by rewrite (proj2 (strcmp_spec _ _)).
Qed.

(** The parts of an id, and the id made of them. *)
Definition bare (user : option str) (server : str) : str :=
  match user with Some u => u ++ 64 :: server | None => server end.
Definition compose (user : option str) (server : str) (resource : option str) : str :=
  match resource with Some r => bare user server ++ 47 :: r | None => bare user server end.

Record jid_ok (user : option str) (server : str) : Prop := {
  ok_user : ∀ u, user = Some u → u ≠ [] ∧ (64 ∉ u) ∧ (47 ∉ u);
  ok_server : 47 ∉ server;
  ok_alone : user = None → server ≠ [] ∧ 64 ∉ server }.

Lemma bare_ok user server : jid_ok user server → bare user server ≠ [] ∧ 47 ∉ bare user server.
Proof.
  intros [Hu Hs Ha]. unfold bare. destruct user as [u|].
  - destruct (Hu u eq_refl) as (? & ? & ?). split; [by destruct u|]. set_solver.
  - split; [by apply Ha|done].
Qed.

Lemma dup_len_prefix h (a b : str) : hmem h = [] → a ≠ [] → dup_len h (a ++ b) (length a) = (Some a, h).
Proof.
  intros Hm Ha. unfold dup_len, dup, take_mem. rewrite Hm. destruct a as [|x a]; [done|].
  cbn [length]. change (S (length a)) with (length (x :: a)). by rewrite take_app_length.
Qed.

Lemma id_new_parts h user server resource jid :
  hmem h = [] → jid_ok user server → skip_scheme jid = compose user server resource →
  iks_id_new h (Some jid)
  = Done (Some (mk_iksid user (Some server) resource (Some (bare user server)) (Some (compose user server resource))), h).
Proof.
  intros Hm Hok E. destruct (bare_ok _ _ Hok) as [Hne Hsl].
  unfold iks_id_new, dup, take_mem. rewrite Hm. cbn [negb]. rewrite Hm. cbn [deref mbind exec_bind]. rewrite E.
  assert (Hu : ∀ h, hmem h = [] →
    match strchr (bare user server) 64 with
    | Some n => let '(u, h) := dup_len h (bare user server) n in (u, drop (S n) (bare user server), h)
    | None => (None, bare user server, h)
    end = (user, server, h)).
  { intros h' Hm'. destruct Hok as [Hu Hs Ha]. unfold bare. destruct user as [u|].
    - destruct (Hu u eq_refl) as (? & ? & ?). rewrite strchr_app, dup_len_prefix by done.
      by rewrite <-Nat.add_1_r, <-drop_drop, drop_app_length.
    - by rewrite strchr_none by (by apply Ha). }
  unfold compose. destruct resource as [r|].
  - rewrite strchr_app, dup_len_prefix by done. cbn [deref mbind exec_bind]. rewrite Hu by done.
    by rewrite <-Nat.add_1_r, <-drop_drop, drop_app_length.
  - rewrite strchr_none by done. cbn [deref mbind exec_bind]. by rewrite Hu.
Qed.

(** With memory, every id is split. *)
Lemma id_new_total h jid : hmem h = [] → ∃ r, iks_id_new h jid = Done (r, h).
Proof.
  intros Hm. assert (Hd : ∀ s n, ∃ t, dup_len h s n = (Some t, h)).
  { intros s n. unfold dup_len, dup, take_mem. rewrite Hm. by eexists. }
  destruct jid as [jid|]; [|by exists None]. unfold iks_id_new, dup, take_mem. rewrite Hm. cbn [negb]. rewrite Hm.
  cbn [deref mbind exec_bind]. set (s := skip_scheme jid). destruct (strchr s 47) as [n|].
  - destruct (Hd s n) as [p ->]. cbn [deref mbind exec_bind]. destruct (strchr p 64) as [m|]; [|by eexists].
    destruct (Hd p m) as [u ->]. by eexists.
  - cbn [deref mbind exec_bind]. destruct (strchr s 64) as [m|]; [|by eexists]. destruct (Hd s m) as [u ->]. by eexists.
Qed.

(** Splitting an id gives back the user, the server and the
    resource it is made of, with or without the scheme [jabber:] in front, as
    long as the user name is not empty and the separators do not occur in
    earlier parts; [partial] is the id without the resource, [full] the whole
    id without the scheme. *)
Theorem jid_roundtrip (h : heap) (scheme : bool) (user : option str) (server : str) (resource : option str) :
  hmem h = [] → jid_ok user server →
  (scheme = false → skip_scheme (compose user server resource) = compose user server resource) →
  iks_id_new h (Some ((if scheme then bs "jabber:" else []) ++ compose user server resource))
  = Done (Some (mk_iksid user (Some server) resource (Some (bare user server)) (Some (compose user server resource))), h).
Proof.
  intros Hm Hok Hs. apply id_new_parts; [done|done|].
  destruct scheme; [apply skip_scheme_app|by apply Hs].
Qed.

Lemma jid_roundtrip_witness :
  iks_id_new (mk_heap ∅ 0 0 []) (Some (bs "jabber:cam@example.org/Cisco"))
  = Done (Some (mk_iksid (Some (bs "cam")) (Some (bs "example.org")) (Some (bs "Cisco"))
                  (Some (bs "cam@example.org")) (Some (bs "cam@example.org/Cisco"))), mk_heap ∅ 0 0 []).
Proof.
  apply (jid_roundtrip (mk_heap ∅ 0 0 []) true (Some (bs "cam")) (bs "example.org") (Some (bs "Cisco")));
    [reflexivity| |done].
  split; [intros u [= <-]; split; [done|]; split|..|done]; apply (bool_decide_unpack _); vm_compute; exact I.
Defined.

(** An id that starts with a separator is not split: the
    length 0 of the part in front of it stands for the whole string, so the
    part without the resource is the id itself, and the user of an id that
    starts with [@] is the id with its server. *)
Theorem jid_empty_part (h : heap) (rest : str) :
  hmem h = [] → 47 ∉ rest → 64 ∉ rest →
  iks_id_new h (Some (47 :: rest))
  = Done (Some (mk_iksid None (Some (47 :: rest)) (Some rest) (Some (47 :: rest)) (Some (47 :: rest))), h) ∧
  iks_id_new h (Some (64 :: rest))
  = Done (Some (mk_iksid (Some (64 :: rest)) (Some rest) None (Some (64 :: rest)) (Some (64 :: rest))), h).
Proof.
  intros Hm H1 H2. assert (Hsk : ∀ c, c ≠ 106 → skip_scheme (c :: rest) = c :: rest).
  { intros c Hc. unfold skip_scheme, strncmp.
    change (bs "jabber:") with [106; 97; 98; 98; 101; 114; 58]. cbn [take strcmp].
    destruct (Z.eqb_spec 106 c); [lia|]. by destruct (106 <? c). }
  unfold iks_id_new, dup_len, dup, take_mem. rewrite Hm. cbn [negb]. rewrite Hm, !Hsk by done. split.
  - cbn. rewrite Hm. cbn. by rewrite strchr_none.
  - cbn. rewrite strchr_none by done. cbn. by rewrite Hm.
Qed.

Lemma jid_empty_part_witness :
  iks_id_new (mk_heap ∅ 0 0 []) (Some (bs "/cam"))
  = Done (Some (mk_iksid None (Some (bs "/cam")) (Some (bs "cam")) (Some (bs "/cam")) (Some (bs "/cam"))), mk_heap ∅ 0 0 []).
Proof.
  apply (jid_empty_part (mk_heap ∅ 0 0 []) (bs "cam"));
  [reflexivity|apply (bool_decide_unpack _); vm_compute; exact I..].
Defined.

(** ** Comparing ids *)

Lemma iks_strcmp_zero (a b : option str) :
  (bool_decide (a = None) && bool_decide (b = None)) = false → (iks_strcmp a b =? 0) = bool_decide (a = b).
Proof.
  destruct a as [a|], b as [b|]; cbn; intros H; try done.
  rewrite strcmp_test. apply bool_decide_ext. naive_solver.
Qed.

Lemma part_same (cmp : option str → option str → Z) (eqv : option str → option str → Prop) parts bit a b :
  (∀ a b, (bool_decide (a = None) && bool_decide (b = None)) = false → cmp a b = 0 ↔ eqv a b) → eqv None None →
  part_differs cmp parts bit a b = false ↔ (Z.land parts bit ≠ 0 → eqv a b).
Proof.
  intros Hc Hn. unfold part_differs. destruct (Z.eqb_spec (Z.land parts bit) 0) as [E|E]; cbn; [naive_solver|].
  destruct (bool_decide (a = None) && bool_decide (b = None)) eqn:Eb; cbn.
  - apply andb_true_iff in Eb as [->%bool_decide_eq_true ->%bool_decide_eq_true]. naive_solver.
  - rewrite negb_false_iff, Z.eqb_eq, (Hc a b Eb). naive_solver.
Qed.

(** [iks_id_cmp] of two ids is zero exactly when they agree
    in every part that is asked for, the user without regard to case and the
    other parts byte for byte; an absent part agrees only with an absent part. *)
Theorem id_cmp_correct (a b : iksid) (parts : Z) :
  iks_id_cmp (Some a) (Some b) parts = 0 ↔
  (Z.land parts IKS_ID_RESOURCE ≠ 0 → id_resource a = id_resource b) ∧
  (Z.land parts IKS_ID_USER ≠ 0 → map tolower <$> id_user a = map tolower <$> id_user b) ∧
  (Z.land parts IKS_ID_SERVER ≠ 0 → id_server a = id_server b).
Proof.
  assert (H1 : ∀ a b : option str,
    (bool_decide (a = None) && bool_decide (b = None)) = false → iks_strcmp a b = 0 ↔ a = b).
  { intros x y E. by rewrite <-Z.eqb_eq, (iks_strcmp_zero _ _ E), bool_decide_eq_true. }
  assert (H2 : ∀ a b : option str, (bool_decide (a = None) && bool_decide (b = None)) = false →
    iks_strcasecmp a b = 0 ↔ map tolower <$> a = map tolower <$> b).
  { intros [x|] [y|] E; cbn in *; try (split; (done || lia)).
    rewrite strcmp_spec. split; [by intros ->|congruence]. }
  rewrite <-(part_same iks_strcmp eq parts IKS_ID_RESOURCE (id_resource a) (id_resource b)) by done.
  rewrite <-(part_same iks_strcasecmp (λ x y, map tolower <$> x = map tolower <$> y) parts IKS_ID_USER
    (id_user a) (id_user b)) by done.
  rewrite <-(part_same iks_strcmp eq parts IKS_ID_SERVER (id_server a) (id_server b)) by done.
  unfold iks_id_cmp. repeat destruct (part_differs _ _ _ _ _); cbn; intuition (done || lia).
Qed.

(** ** Packets: the answer in terms of the tree *)

Definition classify (nm : str) (ats : list (str * str)) (cs : list tree) : ikspaktype * iksubtype * ikshowtype :=
  let ty := att ats (bs "type") in
  if decide (nm = bs "message") then
    (IKS_PAK_MESSAGE, from_option (λ t, strcase message_subtypes t IKS_TYPE_NONE) IKS_TYPE_NONE ty, IKS_SHOW_UNAVAILABLE)
  else if decide (nm = bs "presence") then
    match ty with
    | Some t => strcase presence_types t (IKS_PAK_S10N, IKS_TYPE_NONE, IKS_SHOW_UNAVAILABLE)
    | None =>
        (IKS_PAK_PRESENCE, IKS_TYPE_AVAILABLE,
         from_option (λ t, strcase show_types t IKS_SHOW_AVAILABLE) IKS_SHOW_AVAILABLE
           (first_with (has_name (bs "show")) cs ≫= first_text))
    end
  else if decide (nm = bs "iq") then
    (IKS_PAK_IQ, from_option (λ t, strcase iq_subtypes t IKS_TYPE_NONE) IKS_TYPE_NONE ty, IKS_SHOW_UNAVAILABLE)
  else (IKS_PAK_NONE, IKS_TYPE_NONE, IKS_SHOW_UNAVAILABLE).

(** The namespace of an iq: that of the first child that has one. *)
Definition is_query (t : tree) : Prop := is_tag t ∧ is_Some (att (tree_atts t) (bs "xmlns")).
#[export] Instance is_query_dec t : Decision (is_query t).
Proof. unfold is_query. apply _. Defined.

Definition query_ns (nm : str) (cs : list tree) : option str :=
  if decide (nm = bs "iq") then first_with is_query cs ≫= λ t, att (tree_atts t) (bs "xmlns") else None.

Lemma find_query_list h x : ∀ cs prv first last fuel,
  rep_list h x cs prv first last → (length cs < fuel)%nat →
  ∃ q, find_query fuel h first
       = Done (q, first_with is_query cs ≫= λ t, att (tree_atts t) (bs "xmlns")).
Proof.
  induction cs as [|t cs IH]; intros prv first last fuel Hr Hf; cbn in Hr.
  - destruct Hr as [-> _]. exists None. by destruct fuel.
  - destruct Hr as (y & m & -> & _ & _ & Hm & Hr). destruct fuel as [|fuel]; [cbn in Hf; lia|].
    rewrite first_with_cons. destruct (IH _ _ _ fuel Hr) as [q Hq]; [cbn in Hf; lia|].
    assert (E1 : get h y = Done m) by (unfold get; by rewrite (rep_node _ _ _ _ Hm)).
    cbn [find_query]. unfold iks_type, iks_next. rewrite E1. cbn [mbind exec_bind].
    destruct t as [nm ats cs'|d].
    + rewrite decide_True by (by apply rep_tag in Hm as (_ & ? & _)).
      rewrite (find_attrib_rep _ _ _ _ _ _ _ Hm). cbn [mbind exec_bind].
      destruct (att ats (bs "xmlns")) as [ns|] eqn:E.
      * rewrite decide_True by (split; [done|cbn [tree_atts]; by rewrite E]).
        cbn [mbind option_bind tree_atts]. rewrite E. by exists (Some y).
      * rewrite decide_False by (intros [_ H]; cbn [tree_atts] in H; rewrite E in H; by destruct H). by exists q.
    + destruct Hm as (_ & Ht & _). rewrite Ht. rewrite (decide_False (P := IKS_CDATA = IKS_TAG)) by done.
      cbn [mbind exec_bind]. rewrite decide_False by (by intros [[] _]). by exists q.
Qed.

(** [iks_packet] of a stanza in the heap never faults, and
    classifies it by its name, its [type] and, for presence, the text of its
    [show] child; the id is its [id] attribute, the namespace that of the
    first child with an [xmlns], and the sender its [from] attribute split
    into parts. *)
Theorem packet_correct (h : heap) (nm : str) (ats : list (str * str)) (cs : list tree) (x : nat) (n : iks) :
  hmem h = [] → rep h (TTag nm ats cs) x n →
  ∃ q from, iks_id_new h (att ats (bs "from")) = Done (from, h) ∧
    let '(ty, sub, show) := classify nm ats cs in
    iks_packet h x = Done (Some (mk_ikspak x from q (query_ns nm cs) (att ats (bs "id")) ty sub show), h).
Proof.
  intros Hm Hr. destruct (id_new_total h (att ats (bs "from")) Hm) as [from Hid].
  enough (Hq : ∃ q, let '(ty, sub, show) := classify nm ats cs in
    iks_packet h x = Done (Some (mk_ikspak x from q (query_ns nm cs) (att ats (bs "id")) ty sub show), h))
    by (destruct Hq as [q Hq]; by exists q, from).
  unfold iks_packet, take_mem. rewrite Hm. cbn [negb].
  rewrite (find_attrib_rep _ _ _ _ _ _ _ Hr). cbn [mbind exec_bind]. rewrite Hid. cbn [mbind exec_bind].
  rewrite !(find_attrib_rep _ _ _ _ _ _ _ Hr). cbn [mbind exec_bind].
  rewrite (name_rep _ _ _ _ _ _ Hr). cbn [mbind exec_bind deref]. rewrite !strcmp_test. unfold classify, query_ns.
  destruct (decide (nm = bs "message")) as [->|Hmsg]; [by exists None|]. rewrite bool_decide_eq_false_2 by done.
  destruct (decide (nm = bs "presence")) as [->|Hpre].
  { exists None. destruct (att ats (bs "type")) as [t|]; cbn [bool_decide].
    - by destruct (strcase presence_types t _) as [[? ?] ?].
    - rewrite bool_decide_eq_true_2 by done. by rewrite (find_cdata_rep _ _ _ _ _ _ _ Hr). }
  rewrite bool_decide_eq_false_2 by done.
  destruct (decide (nm = bs "iq")) as [->|Hiq]; [|rewrite bool_decide_eq_false_2 by done; by exists None].
  rewrite bool_decide_eq_true_2 by done. destruct (children_rep _ _ _ _ _ _ Hr) as (c & lc & _ & Ec & Hc).
  destruct (find_query_list _ _ _ _ _ _ (chain_fuel h) Hc (rep_list_fuel _ _ _ _ _ Hc)) as [q Hq].
  exists q. rewrite Ec. cbn [mbind exec_bind]. by rewrite Hq.
Qed.

Lemma packet_correct_witness :
  ∃ q, iks_packet demo_heap 0
    = Done (Some (mk_ikspak 0 None q None None IKS_PAK_MESSAGE IKS_TYPE_NONE IKS_SHOW_UNAVAILABLE), demo_heap).
Proof.
  destruct (packet_correct demo_heap (bs "message") [(bs "to", bs "a<b")]
      [TTag (bs "body") [] [TText (bs "5 > 4")]] 0
      (default (mk_iks None None None IKS_NONE 0 (BCdata None 0)) (nodes demo_heap !! 0%nat))) as (q & from & E1 & E2).
  - reflexivity.
  - rep_compute.
  - exists q. assert (Ef : from = None) by (vm_compute in E1; congruence). rewrite Ef in E2. exact E2.
Defined.
