(* ===== verification/JabberStanza.v ===== *)
(** * Stanzas and features

    What the functions of [Jabber] that make stanzas make: the trees, and with
    [DomPrint] the text that is sent.  And what [iks_stream_features] answers
    on a represented [stream:features] element. *)

From S2P Require Import Prelude XmlText Blocks Sha1 Dom DomPrint DomBuild DomQuery Jabber.

Local Open Scope Z_scope.

(** ** Stanzas: the trees they are *)

(** Adding a child with a text, or an empty one. *)
Lemma insert_text_spec pl h par prv nxt x nm ats cs k d len R :
  len = 0 ∨ len = strlen d → owns h (tcells pl par prv nxt (ATag x nm ats cs) ++ R) →
  ∃ y z h', insert_text h (Some x) k (Some d) len = Done h' ∧
    owns h' (tcells pl par prv nxt (ATag x nm ats (cs ++ [ATag y k [] [AText z d]])) ++ R).
Proof.
  intros Hl H. unfold insert_text.
  destruct (insert_spec pl h par prv nxt x nm ats cs k R H) as (y & h1 & -> & H1). cbn [mbind exec_bind].
  apply owns_focus in H1. cbn [addr] in H1.
  destruct (insert_cdata_spec _ _ _ _ _ _ _ _ _ _ _ _ Hl H1) as (z & w & h2 & -> & H2). cbn [mbind exec_bind].
  exists y, z, h2. split; [done|]. apply owns_focus. exact H2.
Qed.

Lemma insert_empty_spec pl h par prv nxt x nm ats cs k len R :
  owns h (tcells pl par prv nxt (ATag x nm ats cs) ++ R) →
  ∃ y h', insert_text h (Some x) k None len = Done h' ∧
    owns h' (tcells pl par prv nxt (ATag x nm ats (cs ++ [ATag y k [] []])) ++ R).
Proof.
  intros H. unfold insert_text.
  destruct (insert_spec pl h par prv nxt x nm ats cs k R H) as (y & h1 & -> & H1). cbn [mbind exec_bind].
  by exists y, h1.
Qed.

Lemma attrib_step pl h par prv nxt x nm ats cs k v R :
  owns h (tcells pl par prv nxt (ATag x nm ats cs) ++ R) →
  ∃ y h', insert_attrib h (Some x) k (Some v) = Done h' ∧
    owns h' (tcells pl par prv nxt (ATag x nm (set_att y ats k v) cs) ++ R).
Proof.
  intros H. destruct (insert_attrib_spec _ _ _ _ _ _ _ _ _ k v _ H) as (y & z & h' & E & H').
  exists y, h'. unfold insert_attrib. by rewrite E.
Qed.

(** [m] makes the document [t], and leaves the nodes [L] as they are. *)
Definition makes (m : exec (ptr * heap)) (L : list (nat * iks)) (t : tree) : Prop :=
  ∃ pl a h', m = Done (Some (addr a), h') ∧ erase a = t ∧ owns h' (tcells pl None None None a ++ L).

Definition opt {A B} (o : option A) (f : A → B) : list B := match o with Some a => [f a] | None => [] end.
Definition child (k d : str) : tree := TTag k [] [TText d].

Definition msg_tree (type : iksubtype) (to body : option str) : tree :=
  TTag (bs "message") (opt (msg_type_name type) (pair (bs "type")) ++ opt to (pair (bs "to"))) (opt body (child (bs "body"))).
Definition s10n_tree (type : iksubtype) (to msg : option str) : tree :=
  TTag (bs "presence") (opt (s10n_type_name type) (pair (bs "type")) ++ opt to (pair (bs "to")))
    (opt msg (child (bs "status"))).
Definition pres_tree (show : ikshowtype) (status : option str) : tree :=
  TTag (bs "presence") (if decide (show = IKS_SHOW_UNAVAILABLE) then [(bs "type", bs "unavailable")] else [])
    (opt (show_name show) (child (bs "show")) ++ opt status (child (bs "status"))).
Definition iq_tree (type : iksubtype) (xmlns : option str) : tree :=
  TTag (bs "iq") (opt (iq_type_name type) (pair (bs "type"))) [TTag (bs "query") (opt xmlns (pair (bs "xmlns"))) []].
Definition bind_tree (resource : option str) : tree :=
  TTag (bs "iq") [(bs "type", bs "set")]
    [TTag (bs "bind") [(bs "xmlns", IKS_NS_XMPP_BIND)]
       (match resource with Some ((_ :: _) as r) => [child (bs "resource") r] | _ => [] end)].
Definition session_tree : tree :=
  TTag (bs "iq") [(bs "type", bs "set")] [TTag (bs "session") [(bs "xmlns", IKS_NS_XMPP_SESSION)] []].

(** One step of a function that makes a stanza: the nodes are known before it
    and after it. *)
Ltac made2 H :=
  let E := fresh in let H' := fresh in
  destruct H as (? & ? & E & H'); rewrite E; clear E; cbn [mbind exec_bind when_some].
Ltac made3 H :=
  let E := fresh in let H' := fresh in
  destruct H as (? & ? & ? & E & H'); rewrite E; clear E; cbn [mbind exec_bind when_some].

Ltac mstep :=
  match goal with
  | Ho : owns ?h _ |- context [iks_new ?h ?nm] => made3 (new_spec h nm _ Ho); clear Ho
  | Ho : owns ?h (_ ++ _) |- context [insert_attrib ?h (Some _) ?k (Some ?v)] =>
      made2 (attrib_step _ h _ _ _ _ _ _ _ k v _ Ho); clear Ho
  | Ho : owns ?h (_ ++ _) |- context [insert_text ?h (Some _) ?k (Some ?d) 0] =>
      made3 (insert_text_spec _ h _ _ _ _ _ _ _ k d 0 _ (or_introl eq_refl) Ho); clear Ho
  | Ho : owns ?h (_ ++ _) |- context [insert_text ?h (Some _) ?k None ?l] =>
      made2 (insert_empty_spec _ h _ _ _ _ _ _ _ k l _ Ho); clear Ho
  | Ho : owns ?h (_ ++ _) |- context [iks_insert ?h (Some _) (Some ?k)] =>
      made2 (insert_spec _ h _ _ _ _ _ _ _ k _ Ho); clear Ho
  end.

Ltac made_it :=
  cbn [app] in *;
  match goal with Ho : owns ?h (tcells ?pl None None None ?a ++ _) |- _ =>
    exists pl, a, h; split; [reflexivity|split; [|exact Ho]]; cbn [erase map app];
    rewrite ?erase_set_att; reflexivity
  end.

Lemma make_msg_tree h type to body L : owns h L → makes (iks_make_msg h type to body) L (msg_tree type to body).
Proof.
  intros Ho. unfold iks_make_msg, msg_tree. mstep.
  destruct (msg_type_name type), to, body; cbn [when_some mbind exec_bind]; repeat mstep; made_it.
Qed.

Lemma make_s10n_tree h type to msg L : owns h L → makes (iks_make_s10n h type to msg) L (s10n_tree type to msg).
Proof.
  intros Ho. unfold iks_make_s10n, s10n_tree. mstep.
  destruct (s10n_type_name type), to, msg; cbn [when_some mbind exec_bind]; repeat mstep; made_it.
Qed.

Lemma make_pres_tree h show status L : owns h L → makes (iks_make_pres h show status) L (pres_tree show status).
Proof.
  intros Ho. unfold iks_make_pres, pres_tree. mstep.
  destruct show, status; case_decide; try done; cbn [show_name when_some mbind exec_bind]; repeat mstep; made_it.
Qed.

(** Going on with the child that was just made, and back. *)
Ltac enter :=
  match goal with Ho : owns _ (tcells _ _ _ _ (ATag _ _ _ (_ ++ [_])) ++ _) |- _ => apply owns_focus in Ho; cbn [addr] in Ho end.
Ltac leave := match goal with Ho : owns _ (_ ++ hole _ _ _ _ _ _ _ _ _ ++ _) |- _ => apply owns_focus in Ho end.

Lemma attrib_null pl h par prv nxt x nm cs k R :
  owns h (tcells pl par prv nxt (ATag x nm [] cs) ++ R) → insert_attrib h (Some x) k None = Done h.
Proof.
  intros H. destruct (find_name_spec _ _ _ _ _ _ _ _ _ k _ H) as [E1 E2].
  unfold insert_attrib, iks_insert_attrib. rewrite E1. cbn [mbind exec_bind]. by rewrite E2.
Qed.

Lemma make_iq_tree h type xmlns L : owns h L → makes (iks_make_iq h type xmlns) L (iq_tree type xmlns).
Proof.
  intros Ho. unfold iks_make_iq, iq_tree. mstep.
  destruct (iq_type_name type); cbn [when_some mbind exec_bind]; repeat mstep; enter;
    (destruct xmlns; [mstep|match goal with Ho : owns _ _ |- _ => rewrite (attrib_null _ _ _ _ _ _ _ _ _ _ Ho) end];
     leave; made_it).
Qed.

Lemma make_bind_tree h id L : owns h L → makes (iks_make_resource_bind h id) L (bind_tree (id_resource id)).
Proof.
  intros Ho. unfold iks_make_resource_bind, bind_tree. do 3 mstep. enter. mstep.
  destruct (id_resource id) as [[|c r]|]; cbn [iks_strcmp strcmp Z.eqb mbind exec_bind]; [| |]; try mstep; leave; made_it.
Qed.

Lemma make_session_tree h L : owns h L → makes (iks_make_session h) L session_tree.
Proof. intros Ho. unfold iks_make_session, session_tree. do 3 mstep. enter. mstep. leave. made_it. Qed.

Definition auth_tree (id : iksid) (proof : tree) : tree :=
  let part k o := TTag k [] (opt o TText) in
  TTag (bs "iq") [(bs "type", bs "set")]
    [TTag (bs "query") [(bs "xmlns", IKS_NS_AUTH)]
       [part (bs "username") (id_user id); part (bs "resource") (id_resource id); proof]].

Lemma make_auth_tree h id pass L :
  owns h L → makes (iks_make_auth h id (Some pass) None) L (auth_tree id (child (bs "password") pass)).
Proof.
  intros Ho. unfold iks_make_auth, auth_tree. do 3 mstep. enter. mstep.
  destruct (id_user id), (id_resource id); repeat mstep; leave; made_it.
Qed.

(** SHA-1 of the session id and the password, in hexadecimal. *)
Definition digest_text (sid pass : str) : str :=
  concat (map (λ w, concat (map hex_byte (be_bytes 4 w))) (sha1 (sid ++ pass))).

Lemma sha1_length msg : length (sha1 msg) = 5%nat.
Proof.
  unfold sha1. generalize (length (msg ++ sha1_padding (length msg)) / 64)%nat as n.
  generalize (msg ++ sha1_padding (length msg)) as m. generalize (eq_refl : length sha1_H0 = 5%nat).
  generalize sha1_H0 as H. intros H HH m n. revert H HH m. induction n as [|n IH]; intros H HH m; [done|].
  cbn [blocks]. apply IH. unfold sha1_block, add_regs. by destruct (sha1_rounds _ _) as [[[[? ?] ?] ?] ?].
Qed.

Lemma digest_text_length sid pass : strlen (digest_text sid pass) = 40.
Proof.
  unfold digest_text, strlen. pose proof (sha1_length (sid ++ pass)) as Hl.
  destruct (sha1 _) as [|a [|b [|c [|d [|e [|? ?]]]]]]; try done.
Qed.

Lemma sha_digest_spec sid pass :
  Forall is_byte sid → Forall is_byte pass → strlen (sid ++ pass) < 2 ^ 61 →
  sha_digest sid pass = Done (digest_text sid pass).
Proof.
  intros Hs Hp Hl. unfold sha_digest.
  destruct (sha_finish (sha_buffer iks_sha_reset sid) sid pass) as (s2 & E & H); auto.
  { apply (sha_buffer_absorbed sid _ [] sha_absorbed_reset); [constructor|done]. }
  change (iks_sha_hash iks_sha_reset sid false) with (Some (sha_buffer iks_sha_reset sid)). cbv iota beta.
  rewrite E. unfold iks_sha_print. by rewrite H.
Qed.

Lemma make_auth_digest_tree h id sid pass L :
  Forall is_byte sid → Forall is_byte pass → strlen (sid ++ pass) < 2 ^ 61 → owns h L →
  makes (iks_make_auth h id (Some pass) (Some sid)) L (auth_tree id (child (bs "digest") (digest_text sid pass))).
Proof.
  intros Hs Hp Hl Ho. unfold iks_make_auth, auth_tree. do 3 mstep. enter. mstep.
  cbn [deref mbind exec_bind].
  destruct (id_user id), (id_resource id); do 2 mstep; rewrite sha_digest_spec by done; cbn [mbind exec_bind];
    match goal with Ho : owns ?h (_ ++ _) |- _ =>
      made3 (insert_text_spec _ h _ _ _ _ _ _ _ (bs "digest") (digest_text sid pass) 40 _
        (or_intror (eq_sym (digest_text_length sid pass))) Ho); clear Ho end; leave; made_it.
Qed.

(** [m] makes a document whose text is that of [t]. *)
Definition makes_text (m : exec (ptr * heap)) (t : tree) : Prop :=
  ∃ x h', m = Done (Some x, h') ∧
    ∀ fuel, (cost t <= fuel)%nat → iks_string fuel h' true (Some x) = Done (Some (print t), h').

Lemma makes_print m L nm ats cs : makes m L (TTag nm ats cs) → makes_text m (TTag nm ats cs).
Proof.
  intros (pl & a & h' & -> & E & Ho). exists (addr a), h'. split; [done|]. intros fuel Hf.
  pose proof (owns_rep _ _ _ _ _ _ _ Ho) as Hr. rewrite E in Hr.
  rewrite (string_spec _ _ _ _ _ _ _ _ Hr Hf). unfold take_mem. destruct Ho as [[-> _] _]. done.
Qed.

(** ** Theorems on stanzas *)

(** The message the client sends for a log line is built
    without a fault, and its text is the [message] element with the type, the
    recipient and the body, each escaped, whatever they contain. *)
Theorem make_msg_text (h : heap) (type : iksubtype) (to body : option str) :
  ready h → makes_text (iks_make_msg h type to body) (msg_tree type to body).
Proof. intros Hr. apply (makes_print _ []), make_msg_tree. by split; [|split; [constructor|set_solver]]. Qed.

Lemma make_msg_text_witness :
  makes_text (iks_make_msg (mk_heap ∅ 0 0 []) IKS_TYPE_CHAT (Some (bs "you@example.org")) (Some (bs "motion & sound")))
    (msg_tree IKS_TYPE_CHAT (Some (bs "you@example.org")) (Some (bs "motion & sound"))).
Proof. apply make_msg_text. split; [reflexivity|]. intros y [n Hn]. done. Defined.

(** The authentication request carries the user, the resource
    and the digest of the session id and the password, which is FIPS 180
    SHA-1 in hexadecimal. *)
Theorem make_auth_text (h : heap) (id : iksid) (sid pass : str) :
  ready h → Forall is_byte sid → Forall is_byte pass → strlen (sid ++ pass) < 2 ^ 61 →
  makes_text (iks_make_auth h id (Some pass) (Some sid)) (auth_tree id (child (bs "digest") (digest_text sid pass))).
Proof.
  intros Hr Hs Hp Hl. apply (makes_print _ []), make_auth_digest_tree; try done.
  by split; [|split; [constructor|set_solver]].
Qed.

Definition demo_id : iksid := mk_iksid (Some (bs "cam")) (Some (bs "example.org")) None None None.

Lemma make_auth_text_witness :
  makes_text (iks_make_auth (mk_heap ∅ 0 0 []) demo_id (Some (bs "Calli0pe")) (Some (bs "3EE948B0")))
    (auth_tree demo_id (child (bs "digest") (digest_text (bs "3EE948B0") (bs "Calli0pe")))).
Proof.
  apply make_auth_text; [|repeat constructor; unfold is_byte; lia..|reflexivity].
  split; [reflexivity|]. intros y [n Hn]. done.
Defined.

(** The other stanzas of the client: subscription requests,
    presence, queries, the binding of the resource and the session, all have
    the text of the element they are meant to be. *)
Theorem make_stanza_text (h : heap) :
  ready h →
  (∀ type to msg, makes_text (iks_make_s10n h type to msg) (s10n_tree type to msg)) ∧
  (∀ show status, makes_text (iks_make_pres h show status) (pres_tree show status)) ∧
  (∀ type xmlns, makes_text (iks_make_iq h type xmlns) (iq_tree type xmlns)) ∧
  (∀ id, makes_text (iks_make_resource_bind h id) (bind_tree (id_resource id))) ∧
  makes_text (iks_make_session h) session_tree ∧
  (∀ id pass, makes_text (iks_make_auth h id (Some pass) None) (auth_tree id (child (bs "password") pass))).
Proof.
  intros Hr. assert (Ho : owns h []) by (by split; [|split; [constructor|set_solver]]). split_and!; intros.
  - by apply (makes_print _ []), make_s10n_tree.
  - by apply (makes_print _ []), make_pres_tree.
  - by apply (makes_print _ []), make_iq_tree.
  - by apply (makes_print _ []), make_bind_tree.
  - by apply (makes_print _ []), make_session_tree.
  - by apply (makes_print _ []), make_auth_tree.
Qed.

Lemma make_stanza_text_witness :
  makes_text (iks_make_pres (mk_heap ∅ 0 0 []) IKS_SHOW_AVAILABLE (Some (bs "WVC200")))
    (pres_tree IKS_SHOW_AVAILABLE (Some (bs "WVC200"))).
Proof. apply make_stanza_text. split; [reflexivity|]. intros y [n Hn]. done. Defined.

Example msg_text_example :
  print (msg_tree IKS_TYPE_CHAT (Some (bs "you@example.org")) (Some (bs "motion & sound")))
  = bs "<message type='chat' to='you@example.org'><body>motion &amp; sound</body></message>".
Proof. vm_compute. reflexivity. Qed.

(** ** Features *)

(** The children that a loop from [iks_child] along [iks_next_tag] visits: the
    first one, whatever it is, and every tag behind it. *)
Fixpoint skip_texts (cs : list tree) : list tree :=
  match cs with TText _ :: cs' => skip_texts cs' | _ => cs end.

Definition visited (cs : list tree) : list tree :=
  match cs with [] => [] | t :: cs' => t :: filter is_tag cs' end.

Lemma skip_texts_visited cs : visited (skip_texts cs) = filter is_tag cs.
Proof. induction cs as [|[nm ats cs'|d] cs IH]; cbn; [done| |]; [by rewrite decide_True|]. by rewrite decide_False by (by intros []). Qed.

Lemma skip_texts_length cs : (length (skip_texts cs) <= length cs)%nat.
Proof. induction cs as [|[nm ats cs'|d] cs IH]; cbn; lia. Qed.

Lemma seek_tag_list h x : ∀ cs prv first last fuel,
  rep_list h x cs prv first last → (length cs < fuel)%nat →
  ∃ prv' first', seek_tag fuel next h first = Done first' ∧ rep_list h x (skip_texts cs) prv' first' last.
Proof.
  induction cs as [|t cs IH]; intros prv first last fuel Hr Hf.
  - exists prv, first. split; [|done]. destruct Hr as [-> _]. by destruct fuel.
  - assert (Hr' := Hr). cbn in Hr. destruct Hr as (y & m & -> & Hp & Hq & Hm & Hr).
    destruct fuel as [|fuel]; [cbn in Hf; lia|]. cbn [seek_tag]. unfold get. rewrite (rep_node _ _ _ _ Hm).
    cbn [mbind exec_bind]. destruct t as [nm ats cs'|d].
    + rewrite decide_True by (by apply rep_tag in Hm as (_ & ? & _)). by exists prv, (Some y).
    + destruct Hm as (_ & Ht & _). rewrite decide_False by (by rewrite Ht). apply (IH _ _ _ fuel Hr). cbn in Hf. lia.
Qed.

(** What a child of [mechanisms] and of [stream:features] contributes. *)
Definition mechanism_bit (t : tree) : Z :=
  match first_text t with
  | Some d => if decide (d = bs "DIGEST-MD5") then IKS_STREAM_SASL_MD5
              else if decide (d = bs "PLAIN") then IKS_STREAM_SASL_PLAIN else 0
  | None => 0
  end.

Definition union_bits (bit : tree → Z) (l : list tree) (acc : Z) : Z := fold_left (λ f t, Z.lor f (bit t)) l acc.

Definition label (t : tree) : str := match t with TTag nm _ _ => nm | TText d => d end.
Definition children_of (t : tree) : list tree := match t with TTag _ _ cs => cs | TText _ => [] end.

Definition feature_bit (t : tree) : Z :=
  if decide (label t = bs "starttls") then IKS_STREAM_STARTTLS
  else if decide (label t = bs "bind") then IKS_STREAM_BIND
  else if decide (label t = bs "session") then IKS_STREAM_SESSION
  else if decide (label t = bs "mechanisms") then union_bits mechanism_bit (visited (children_of t)) 0
  else 0.

(** No child of a mechanism starts with an element. *)
Definition plain_text (t : tree) : Prop := match t with TTag _ _ (TTag _ _ _ :: _) => False | _ => True end.

Lemma child_cdata h t y m :
  rep h t y m → plain_text t → (c ← iks_child h (Some y); iks_cdata h c) = Done (first_text t).
Proof.
  intros Hm Hp. destruct t as [nm ats cs|d].
  - destruct (children_rep _ _ _ _ _ _ Hm) as (c & lc & _ & -> & Hc). cbn [mbind exec_bind].
    destruct cs as [|[? ? ?|d] cs]; [by destruct Hc as [-> _]|done|].
    destruct Hc as (z & k & -> & _ & _ & (Hz & Ht & Hb) & _). unfold iks_cdata, IKS_CDATA_CDATA, get, cdata_part.
    rewrite Hz. cbn. rewrite decide_True by done. cbn. by rewrite Hb.
  - destruct Hm as (Hy & Ht & _). unfold iks_child, get. rewrite Hy. cbn. by rewrite decide_False by (by rewrite Ht).
Qed.

Lemma iks_strcmp_const d (k : str) : (iks_strcmp (Some d) (Some k) =? 0) = bool_decide (d = k).
Proof. apply strcmp_test. Qed.

Lemma sasl_loop_spec h x : ∀ n cs prv first last fuel acc,
  (length cs <= n)%nat → rep_list h x cs prv first last → (length cs < fuel)%nat → (length cs <= size (nodes h))%nat →
  Forall plain_text cs → sasl_loop fuel h first acc = Done (union_bits mechanism_bit (visited cs) acc).
Proof.
  induction n as [|n IH]; intros cs prv first last fuel acc Hn Hr Hf Hsz Hp;
    (destruct cs as [|t cs]; [destruct Hr as [-> _]; by destruct fuel|]); [cbn in Hn; lia|].
  destruct Hr as (y & m & -> & Hpv & _ & Hm & Hr). destruct fuel as [|fuel]; [cbn in Hf; lia|].
  apply Forall_cons in Hp as [Hpt Hp]. cbn in Hn, Hf, Hsz. cbn [sasl_loop].
  pose proof (child_cdata _ _ _ _ Hm Hpt) as Ec.
  destruct (iks_child h (Some y)) as [c|]; [|done]. cbn [mbind exec_bind] in Ec |- *. rewrite Ec. cbn [mbind exec_bind].
  destruct (seek_tag_list _ _ _ _ _ _ (chain_fuel h) Hr) as (prv' & first' & E & Hr'); [unfold chain_fuel; lia|].
  unfold iks_next_tag, get. rewrite (rep_node _ _ _ _ Hm). cbn [mbind exec_bind]. rewrite E. cbn [mbind exec_bind].
  pose proof (skip_texts_length cs).
  rewrite (IH (skip_texts cs) _ _ _ fuel _ ltac:(lia) Hr' ltac:(lia) ltac:(lia)).
  2: { clear -Hp. induction Hp as [|[? ? ?|?] ? ? ? IH]; cbn; [constructor| |done]. by constructor. }
  rewrite skip_texts_visited. f_equal. cbn [visited]. unfold union_bits. cbn [fold_left]. f_equal.
  unfold mechanism_bit. destruct (first_text t) as [d|]; [|by rewrite Z.lor_0_r].
  rewrite !iks_strcmp_const. do 2 (case_bool_decide; [by rewrite decide_True|rewrite decide_False by done]).
  by rewrite Z.lor_0_r.
Qed.

Lemma sasl_mechanisms_spec h t y m :
  rep h t y m → Forall plain_text (children_of t) →
  (c ← iks_child h (Some y); iks_sasl_mechanisms h c) = Done (union_bits mechanism_bit (visited (children_of t)) 0).
Proof.
  intros Hm Hp. destruct t as [nm ats cs|d].
  - destruct (children_rep _ _ _ _ _ _ Hm) as (c & lc & _ & -> & Hc). cbn [mbind exec_bind].
    pose proof (rep_list_fuel _ _ _ _ _ Hc). unfold iks_sasl_mechanisms.
    apply (sasl_loop_spec h y (length cs) cs None c lc); [lia|done|lia|unfold chain_fuel in *; lia|done].
  - destruct Hm as (Hy & Ht & _). unfold iks_child, get. rewrite Hy. cbn. by rewrite decide_False by (by rewrite Ht).
Qed.

Lemma label_rep h t y m : rep h t y m → iks_name h (Some y) = Done (Some (label t)).
Proof.
  destruct t as [nm ats cs|d]; [apply name_rep|]. intros (Hy & Ht & Hb). unfold iks_name, IKS_ATTRIB_NAME, get.
  rewrite Hy. cbn. rewrite decide_False by (by rewrite Ht). by rewrite Hb.
Qed.

(** Every mechanism of every list of mechanisms is a text. *)
Definition mechanisms_ok (t : tree) : Prop := Forall plain_text (children_of t).

Lemma features_loop_spec h x : ∀ n cs prv first last fuel acc,
  (length cs <= n)%nat → rep_list h x cs prv first last → (length cs < fuel)%nat → (length cs <= size (nodes h))%nat →
  Forall mechanisms_ok cs → features_loop fuel h first acc = Done (union_bits feature_bit (visited cs) acc).
Proof.
  induction n as [|n IH]; intros cs prv first last fuel acc Hn Hr Hf Hsz Hp;
    (destruct cs as [|t cs]; [destruct Hr as [-> _]; by destruct fuel|]); [cbn in Hn; lia|].
  destruct Hr as (y & m & -> & Hpv & _ & Hm & Hr). destruct fuel as [|fuel]; [cbn in Hf; lia|].
  apply Forall_cons in Hp as [Hpt Hp]. cbn in Hn, Hf, Hsz. cbn [features_loop].
  rewrite (label_rep _ _ _ _ Hm). cbn [mbind exec_bind]. rewrite !iks_strcmp_const.
  destruct (seek_tag_list _ _ _ _ _ _ (chain_fuel h) Hr) as (prv' & first' & E & Hr'); [unfold chain_fuel; lia|].
  pose proof (skip_texts_length cs).
  assert (Htail : ∀ acc, (x ← iks_next_tag h (Some y); features_loop fuel h x acc)
                    = Done (union_bits feature_bit (filter is_tag cs) acc)).
  { intros acc'. unfold iks_next_tag, get. rewrite (rep_node _ _ _ _ Hm). cbn [mbind exec_bind]. rewrite E.
    cbn [mbind exec_bind]. rewrite <-skip_texts_visited. apply (IH _ prv' _ last); [lia|done|lia|lia|].
    clear -Hp. induction Hp as [|[? ? ?|?] ? ? ? IH]; cbn; [constructor| |done]. by constructor. }
  cbn [visited]. unfold union_bits at 1. cbn [fold_left]. unfold feature_bit at 2.
  do 3 (case_bool_decide; [rewrite decide_True by done; cbn [mbind exec_bind]; apply Htail|rewrite decide_False by done]).
  case_bool_decide; [rewrite decide_True by done|rewrite decide_False by done; rewrite Z.lor_0_r; apply Htail].
  pose proof (sasl_mechanisms_spec _ _ _ _ Hm Hpt) as Es.
  destruct (iks_child h (Some y)) as [c|]; [|done]. cbn [mbind exec_bind] in Es |- *. rewrite Es. apply Htail.
Qed.

(** The features of a server: on a represented
    [stream:features] element the loops over the children and over the
    mechanisms end without a fault, and the result is the union of the bits of
    the children: starttls, bind, session, and the bits of the mechanisms
    DIGEST-MD5 and PLAIN; the loops start at a first child of any kind and
    then follow the tags. *)
Theorem stream_features_correct (h : heap) (ats : list (str * str)) (cs : list tree) (x : nat) (n : iks) :
  rep h (TTag (bs "stream:features") ats cs) x n → Forall mechanisms_ok cs →
  iks_stream_features h (Some x) = Done (union_bits feature_bit (visited cs) 0).
Proof.
  intros Hr Hp. unfold iks_stream_features. rewrite (name_rep _ _ _ _ _ _ Hr). cbn [mbind exec_bind].
  rewrite iks_strcmp_const, bool_decide_eq_true_2 by done. cbn [negb].
  destruct (children_rep _ _ _ _ _ _ Hr) as (c & lc & _ & -> & Hc). cbn [mbind exec_bind].
  pose proof (rep_list_fuel _ _ _ _ _ Hc).
  apply (features_loop_spec h x (length cs) cs None c lc); [lia|done|lia|unfold chain_fuel in *; lia|done].
Qed.

(** The features of a server that offers a binding and one mechanism, which
    contains [inside]. *)
Definition features_doc (inside : bool) : exec (ptr * heap) :=
  '(x, h) ← iks_new (mk_heap ∅ 0 0 []) (bs "stream:features");
  '(_, h) ← iks_insert h x (Some (bs "bind"));
  '(m, h) ← iks_insert h x (Some (bs "mechanisms"));
  '(m, h) ← iks_insert h m (Some (bs "mechanism"));
  '(_, h) ← (if inside then '(b, h) ← iks_insert h m (Some (bs "b")); iks_insert_cdata h b (Some (bs "PLAIN")) 0
             else iks_insert_cdata h m (Some (bs "PLAIN")) 0);
  Done (x, h).
Definition features_heap (inside : bool) : heap :=
  match features_doc inside with Done (_, h) => h | Fault => mk_heap ∅ 0 0 [] end.

Lemma stream_features_correct_witness :
  iks_stream_features (features_heap false) (Some 0%nat) = Done 12.
Proof.
  rewrite (stream_features_correct (features_heap false) []
    [TTag (bs "bind") [] []; TTag (bs "mechanisms") [] [TTag (bs "mechanism") [] [TText (bs "PLAIN")]]]
    0 (default (mk_iks None None None IKS_NONE 0 (BCdata None 0)) (nodes (features_heap false) !! 0%nat))).
  - vm_compute. reflexivity.
  - rep_compute.
  - repeat constructor.
Defined.

(** A server can make the client read a node as a string: when the
    first child of a mechanism is an element with children, [iks_cdata] takes
    the link to its last child for a pointer to characters. *)
Theorem mechanism_confusion :
  iks_stream_features (features_heap true) (Some 0%nat) = Fault.
Proof. vm_compute. reflexivity. Qed.
