(* ===== verification/Filter.v ===== *)
(** * The packet filter

    [src/sysapps/apps/cgi2/app/jabberlog/filter.c]: a doubly linked list of
    rules with their conditions, and [iks_filter_packet], which scores every
    rule against a packet and calls the hooks of the matching rules, the best
    one first, until one eats the packet.

    Rules live in a map from addresses; a rule has its own memory pool, and
    deleting the pool deletes the rule.  [fmem] foretells the allocations: one
    outcome for the pool (whose first chunk holds the rule), one for each
    string.  Hooks are numbers, called through a client that has no access to
    the filter. *)

From S2P Require Import Prelude XmlText Dom Jabber.

Local Open Scope Z_scope.

Definition IKS_RULE_DONE : Z := 0.
Definition IKS_RULE_ID : Z := 1.
Definition IKS_RULE_TYPE : Z := 2.
Definition IKS_RULE_SUBTYPE : Z := 4.
Definition IKS_RULE_FROM : Z := 8.
Definition IKS_RULE_FROM_PARTIAL : Z := 16.
Definition IKS_RULE_NS : Z := 32.

(** The values of the enumerations, as they are passed and compared. *)
Definition paktype_val (t : ikspaktype) : Z :=
  match t with IKS_PAK_NONE => 0 | IKS_PAK_MESSAGE => 1 | IKS_PAK_PRESENCE => 2 | IKS_PAK_IQ => 3 | IKS_PAK_S10N => 4 end.
Definition subtype_val (t : iksubtype) : Z :=
  match t with
  | IKS_TYPE_NONE => 0 | IKS_TYPE_ERROR => 1 | IKS_TYPE_CHAT => 2 | IKS_TYPE_GROUPCHAT => 3 | IKS_TYPE_HEADLINE => 4
  | IKS_TYPE_GET => 5 | IKS_TYPE_SET => 6 | IKS_TYPE_RESULT => 7 | IKS_TYPE_SUBSCRIBE => 8 | IKS_TYPE_SUBSCRIBED => 9
  | IKS_TYPE_UNSUBSCRIBE => 10 | IKS_TYPE_UNSUBSCRIBED => 11 | IKS_TYPE_PROBE => 12 | IKS_TYPE_AVAILABLE => 13
  | IKS_TYPE_UNAVAILABLE => 14
  end.

(** A rule without its links. *)
Record cond : Type := mk_cond {
  user_data : nat; filterHook : nat;
  c_id : option str; c_from : option str; c_ns : option str;
  score : Z; rules : Z; c_type : Z; c_subtype : Z }.

Record iksrule : Type := mk_rule { r_next : ptr; r_prev : ptr; r_cond : cond }.

Record iksfilter : Type := mk_filter {
  f_rules : ptr; last_rule : ptr; rule_mem : gmap nat iksrule; fresh_rule : nat; fmem : list bool }.

Definition iks_filter_new (ok : bool) (mem : list bool) : option iksfilter :=
  if ok then Some (mk_filter None None ∅ 0 mem) else None.

Definition get_rule (f : iksfilter) (x : nat) : exec iksrule :=
  match rule_mem f !! x with Some r => Done r | None => Fault end.
Definition put_rule (f : iksfilter) (x : nat) (r : iksrule) : iksfilter :=
  mk_filter (f_rules f) (last_rule f) (<[x := r]> (rule_mem f)) (fresh_rule f) (fmem f).
Definition set_next (r : iksrule) (p : ptr) : iksrule := mk_rule p (r_prev r) (r_cond r).
Definition set_prev (r : iksrule) (p : ptr) : iksrule := mk_rule (r_next r) p (r_cond r).
Definition set_score (c : cond) (s : Z) : cond :=
  mk_cond (user_data c) (filterHook c) (c_id c) (c_from c) (c_ns c) s (rules c) (c_type c) (c_subtype c).
Definition modify_rule (f : iksfilter) (x : nat) (g : iksrule → iksrule) : exec iksfilter :=
  r ← get_rule f x; Done (put_rule f x (g r)).

(** ** Adding a rule *)

(** The variable arguments: [va_arg] of another type than was passed is a
    [Fault], as is reading behind the last one. *)
Inductive va_arg : Type := VInt (n : Z) | VStr (s : option str).

(** [iks_stack_strdup (s, src, 0)]: null for null. *)
Definition dup_arg (mem : list bool) (s : option str) : option str * list bool :=
  match s, mem with
  | None, _ => (None, mem)
  | Some t, [] => (Some t, [])
  | Some t, b :: mem' => (if (b : bool) then Some t else None, mem')
  end.

Fixpoint read_rule (mem : list bool) (args : list va_arg) (c : cond) {struct args} : exec (cond * list bool) :=
  match args with
  | VInt ty :: args' =>
      if ty =? IKS_RULE_DONE then Done (c, mem) else
      let c := mk_cond (user_data c) (filterHook c) (c_id c) (c_from c) (c_ns c) (score c)
                 (s32 (rules c + ty)) (c_type c) (c_subtype c) in
      if ty =? IKS_RULE_TYPE then
        match args' with
        | VInt n :: args'' =>
            read_rule mem args'' (mk_cond (user_data c) (filterHook c) (c_id c) (c_from c) (c_ns c) (score c) (rules c) n (c_subtype c))
        | _ => Fault
        end
      else if ty =? IKS_RULE_SUBTYPE then
        match args' with
        | VInt n :: args'' =>
            read_rule mem args'' (mk_cond (user_data c) (filterHook c) (c_id c) (c_from c) (c_ns c) (score c) (rules c) (c_type c) n)
        | _ => Fault
        end
      else if ty =? IKS_RULE_ID then
        match args' with
        | VStr s :: args'' =>
            let '(d, mem) := dup_arg mem s in
            read_rule mem args'' (mk_cond (user_data c) (filterHook c) d (c_from c) (c_ns c) (score c) (rules c) (c_type c) (c_subtype c))
        | _ => Fault
        end
      else if ty =? IKS_RULE_NS then
        match args' with
        | VStr s :: args'' =>
            let '(d, mem) := dup_arg mem s in
            read_rule mem args'' (mk_cond (user_data c) (filterHook c) (c_id c) (c_from c) d (score c) (rules c) (c_type c) (c_subtype c))
        | _ => Fault
        end
      else if (ty =? IKS_RULE_FROM) || (ty =? IKS_RULE_FROM_PARTIAL) then
        match args' with
        | VStr s :: args'' =>
            let '(d, mem) := dup_arg mem s in
            read_rule mem args'' (mk_cond (user_data c) (filterHook c) (c_id c) d (c_ns c) (score c) (rules c) (c_type c) (c_subtype c))
        | _ => Fault
        end
      else read_rule mem args' c
  | _ => Fault
  end.

Definition blank_rule (hook ud : nat) : cond := mk_cond ud hook None None None 0 0 0 0.

Definition iks_filter_add_rule (f : iksfilter) (hook ud : nat) (args : list va_arg) : exec (ptr * iksfilter) :=
  let '(ok, mem) := match fmem f with [] => (true, []) | b :: m => (b, m) end in
  if negb ok then Done (None, mk_filter (f_rules f) (last_rule f) (rule_mem f) (fresh_rule f) mem) else
  '(c, mem) ← read_rule mem args (blank_rule hook ud);
  let x := fresh_rule f in
  let f := mk_filter (f_rules f) (last_rule f) (<[x := mk_rule None None c]> (rule_mem f)) (S x) mem in
  let f := mk_filter (match f_rules f with Some y => Some y | None => Some x end) (last_rule f) (rule_mem f) (fresh_rule f) (fmem f) in
  f ← match last_rule f with Some z => modify_rule f z (λ r, set_next r (Some x)) | None => Done f end;
  f ← modify_rule f x (λ r, set_prev r (last_rule f));
  Done (Some x, mk_filter (f_rules f) (Some x) (rule_mem f) (fresh_rule f) (fmem f)).

(** ** Removing *)

Definition iks_filter_remove_rule (f : iksfilter) (x : nat) : exec iksfilter :=
  r ← get_rule f x;
  f ← match r_prev r with Some p => modify_rule f p (λ q, set_next q (r_next r)) | None => Done f end;
  f ← match r_next r with Some p => modify_rule f p (λ q, set_prev q (r_prev r)) | None => Done f end;
  Done (mk_filter (if decide (f_rules f = Some x) then r_next r else f_rules f)
                  (if decide (last_rule f = Some x) then r_prev r else last_rule f)
                  (delete x (rule_mem f)) (fresh_rule f) (fmem f)).

Fixpoint remove_loop (fuel : nat) (f : iksfilter) (rule : ptr) (hook : nat) : exec iksfilter :=
  match rule, fuel with
  | None, _ => Done f
  | Some _, O => Fault
  | Some x, S fuel' =>
      r ← get_rule f x;
      f ← (if decide (filterHook (r_cond r) = hook) then iks_filter_remove_rule f x else Done f);
      remove_loop fuel' f (r_next r) hook
  end.

(** The list has at most as many rules as the map. *)
Definition rule_fuel (f : iksfilter) : nat := S (size (rule_mem f)).

Definition iks_filter_remove_hook (f : iksfilter) (hook : nat) : exec iksfilter :=
  remove_loop (rule_fuel f) f (f_rules f) hook.

(** ** Packets *)

(** One condition of a rule: whether it is asked for, whether it holds and what
    it scores; the result is the score so far and [fail]. *)
Definition test (mask bit : Z) (holds : bool) (w : Z) (sf : Z * bool) : Z * bool :=
  if Z.land mask bit =? 0 then sf else if holds then (sf.1 + w, sf.2) else (sf.1, true).

Definition rule_score (c : cond) (pak : ikspak) : Z :=
  let same a b := iks_strcmp a b =? 0 in
  let from g := match pak_from pak with Some id => same (c_from c) (g id) | None => false end in
  let sf := (0, false) in
  let sf := test (rules c) IKS_RULE_TYPE (c_type c =? paktype_val (pak_type pak)) 1 sf in
  let sf := test (rules c) IKS_RULE_SUBTYPE (c_subtype c =? subtype_val (pak_subtype pak)) 2 sf in
  let sf := test (rules c) IKS_RULE_ID (same (c_id c) (pak_id pak)) 16 sf in
  let sf := test (rules c) IKS_RULE_NS (same (c_ns c) (pak_ns pak)) 4 sf in
  let sf := test (rules c) IKS_RULE_FROM (from id_full) 8 sf in
  let sf := test (rules c) IKS_RULE_FROM_PARTIAL (from id_partial) 8 sf in
  if sf.2 then 0 else sf.1.

(** The first loop: the score of every rule, and the first best rule. *)
Fixpoint scan (fuel : nat) (f : iksfilter) (pak : ikspak) (rule max_rule : ptr) (max_score : Z) : exec (ptr * iksfilter) :=
  match rule, fuel with
  | None, _ => Done (max_rule, f)
  | Some _, O => Fault
  | Some x, S fuel' =>
      r ← get_rule f x;
      let s := rule_score (r_cond r) pak in
      let f := put_rule f x (mk_rule (r_next r) (r_prev r) (set_score (r_cond r) s)) in
      if max_score <? s then scan fuel' f pak (r_next r) (Some x) s
      else scan fuel' f pak (r_next r) max_rule max_score
  end.

(** The inner loop of the second one: the first best rule that is left. *)
Fixpoint rescan (fuel : nat) (f : iksfilter) (rule max_rule : ptr) (max_score : Z) : exec ptr :=
  match rule, fuel with
  | None, _ => Done max_rule
  | Some _, O => Fault
  | Some x, S fuel' =>
      r ← get_rule f x;
      let s := score (r_cond r) in
      if max_score <? s then rescan fuel' f (r_next r) (Some x) s
      else rescan fuel' f (r_next r) max_rule max_score
  end.

Inductive iksfilterret : Type := IKS_FILTER_PASS | IKS_FILTER_EAT.

#[export] Instance iksfilterret_eq_dec : EqDecision iksfilterret.
Proof. solve_decision. Defined.

(** The client: what calling a hook with its [user_data] does. *)
Class FilterClient (U : Type) : Type := { call_hook : nat → nat → ikspak → U → exec (iksfilterret * U) }.

Section packet.
Context {U : Type} `{FilterClient U}.

Fixpoint dispatch (fuel : nat) (f : iksfilter) (pak : ikspak) (max_rule : ptr) (u : U) : exec (iksfilter * U) :=
  match max_rule, fuel with
  | None, _ => Done (f, u)
  | Some _, O => Fault
  | Some x, S fuel' =>
      r ← get_rule f x;
      '(ret, u) ← call_hook (filterHook (r_cond r)) (user_data (r_cond r)) pak u;
      if decide (ret = IKS_FILTER_EAT) then Done (f, u) else
      f ← modify_rule f x (λ r, mk_rule (r_next r) (r_prev r) (set_score (r_cond r) 0));
      max ← rescan (rule_fuel f) f (f_rules f) None 0;
      dispatch fuel' f pak max u
  end.

Definition iks_filter_packet (f : iksfilter) (pak : ikspak) (u : U) : exec (iksfilter * U) :=
  '(max, f) ← scan (rule_fuel f) f pak (f_rules f) None 0;
  dispatch (rule_fuel f) f pak max u.
End packet.

(** Deleting the pools of all rules; what is left of the map is nothing that
    the filter can reach. *)
Fixpoint delete_loop (fuel : nat) (m : gmap nat iksrule) (rule : ptr) : exec (gmap nat iksrule) :=
  match rule, fuel with
  | None, _ => Done m
  | Some _, O => Fault
  | Some x, S fuel' =>
      match m !! x with Some r => delete_loop fuel' (delete x m) (r_next r) | None => Fault end
  end.

Definition iks_filter_delete (f : iksfilter) : exec (gmap nat iksrule) :=
  delete_loop (rule_fuel f) (rule_mem f) (f_rules f).

(** ** The list of rules a filter holds *)

Fixpoint rcells (prv : ptr) (l : list (nat * cond)) (nxt : ptr) : list (nat * iksrule) :=
  match l with
  | [] => []
  | (x, c) :: l' => (x, mk_rule (first_of l'.*1 nxt) prv c) :: rcells (Some x) l' nxt
  end.

Lemma rcells_app l1 : ∀ prv l2 nxt,
  rcells prv (l1 ++ l2) nxt = rcells prv l1 (first_of l2.*1 nxt) ++ rcells (last_of prv l1.*1) l2 nxt.
Proof.
  induction l1 as [|[x c] l1 IH]; intros prv l2 nxt; [done|]. cbn [app rcells]. rewrite IH.
  by rewrite fmap_app, first_of_app.
Qed.

Lemma rcells_ids l : ∀ prv nxt, (rcells prv l nxt).*1 = l.*1.
Proof. induction l as [|[x c] l IH]; intros prv nxt; [done|]. cbn. by rewrite IH. Qed.

Lemma rcells_length l prv nxt : length (rcells prv l nxt) = length l.
Proof. revert prv. induction l as [|[x c] l IH]; intros prv; [done|]. cbn. by rewrite IH. Qed.

Record rep_rules (f : iksfilter) (l : list (nat * cond)) : Prop := {
  rr_cells : cells (rule_mem f) (rcells None l None);
  rr_first : f_rules f = first_of l.*1 None;
  rr_last : last_rule f = last_of None l.*1;
  rr_dom : ∀ x, is_Some (rule_mem f !! x) → x ∈ l.*1;
  rr_fresh : ∀ x, x ∈ l.*1 → (x < fresh_rule f)%nat }.

Lemma rr_get f l1 x c l2 :
  rep_rules f (l1 ++ (x, c) :: l2) →
  get_rule f x = Done (mk_rule (first_of l2.*1 None) (last_of None l1.*1) c).
Proof.
  intros [H _ _ _ _]. rewrite rcells_app in H. unfold get_rule. by rewrite (cells_lookup _ _ _ _ _ H).
Qed.

Lemma rr_fuel f l : rep_rules f l → (length l < rule_fuel f)%nat.
Proof. intros [H _ _ _ _]. apply cells_length in H. rewrite rcells_length in H. unfold rule_fuel. lia. Qed.

Lemma rr_nodup f l : rep_rules f l → NoDup l.*1.
Proof. intros [[H _] _ _ _ _]. by rewrite rcells_ids in H. Qed.

(** Changing what a rule holds leaves the links alone. *)
Lemma rr_put f l1 x c c' l2 :
  rep_rules f (l1 ++ (x, c) :: l2) →
  rep_rules (put_rule f x (mk_rule (first_of l2.*1 None) (last_of None l1.*1) c')) (l1 ++ (x, c') :: l2).
Proof.
  intros [Hc Hf Hl Hd Hr]. assert (E : (l1 ++ (x, c') :: l2).*1 = (l1 ++ (x, c) :: l2).*1) by (by rewrite !fmap_app).
  split; rewrite ?E; [|done..| |done].
  - rewrite rcells_app in *. cbn [rcells fmap list_fmap fst first_of] in *. by eapply cells_insert.
  - intros y. cbn [rule_mem put_rule]. destruct (decide (y = x)) as [->|].
    + intros _. rewrite fmap_app. set_solver.
    + rewrite lookup_insert_ne by done. apply Hd.
Qed.

(** The link behind a list, and the one in front of it. *)
Lemma set_last_next (m : gmap nat iksrule) l p c prv nxt nxt' R :
  cells m (rcells prv (l ++ [(p, c)]) nxt ++ R) →
  ∃ r, m !! p = Some r ∧ cells (<[p := set_next r nxt']> m) (rcells prv (l ++ [(p, c)]) nxt' ++ R).
Proof.
  rewrite !rcells_app. cbn [rcells fmap list_fmap fst first_of]. rewrite <-!app_assoc. intros H.
  eexists. split; [by apply (cells_lookup _ _ _ _ _ H)|]. by eapply cells_insert.
Qed.

Lemma set_first_prev (m : gmap nat iksrule) p c l prv prv' nxt R :
  cells m (R ++ rcells prv ((p, c) :: l) nxt) →
  ∃ r, m !! p = Some r ∧ cells (<[p := set_prev r prv']> m) (R ++ rcells prv' ((p, c) :: l) nxt).
Proof.
  cbn [rcells]. intros H. eexists. split; [by apply (cells_lookup _ _ _ _ _ H)|]. by eapply cells_insert.
Qed.

(** ** Removing *)

Lemma unlink_links f l1 x c l2 :
  rep_rules f (l1 ++ (x, c) :: l2) →
  ∃ m, (f ← match last_of None l1.*1 with Some p => modify_rule f p (λ q, set_next q (first_of l2.*1 None)) | None => Done f end;
        match first_of l2.*1 None with Some p => modify_rule f p (λ q, set_prev q (last_of None l1.*1)) | None => Done f end)
       = Done (mk_filter (f_rules f) (last_rule f) m (fresh_rule f) (fmem f)) ∧
    cells m (rcells None l1 (first_of l2.*1 None) ++
             (x, mk_rule (first_of l2.*1 None) (last_of None l1.*1) c) :: rcells (last_of None l1.*1) l2 None) ∧
    (∀ y, is_Some (m !! y) → is_Some (rule_mem f !! y)).
Proof.
  intros [H _ _ _ _]. rewrite rcells_app in H. cbn [rcells fmap list_fmap fst first_of] in H.
  set (nx := mk_rule _ _ c) in *.
  assert (H1 : ∃ m1, match last_of None l1.*1 with
      | Some p => modify_rule f p (λ q, set_next q (first_of l2.*1 None)) | None => Done f end
      = Done (mk_filter (f_rules f) (last_rule f) m1 (fresh_rule f) (fmem f)) ∧
    cells m1 (rcells None l1 (first_of l2.*1 None) ++ (x, nx) :: rcells (Some x) l2 None) ∧
    (∀ y, is_Some (m1 !! y) → is_Some (rule_mem f !! y))).
  { destruct l1 as [|[p cp] l1 _] using rev_ind; [exists (rule_mem f); by destruct f|].
    destruct (set_last_next _ _ _ _ _ _ (first_of l2.*1 None) _ H) as (r & E & H').
    rewrite fmap_app. cbn [fmap list_fmap fst]. rewrite last_of_snoc. unfold modify_rule, get_rule. rewrite E.
    eexists. split; [done|]. split; [done|]. intros y. destruct (decide (y = p)) as [->|]; [by eexists|].
    by rewrite lookup_insert_ne. }
  destruct H1 as (m1 & -> & H1 & Hd1). cbn [mbind exec_bind].
  destruct l2 as [|[q cq] l2]; [exists m1; by rewrite ?app_nil_r|]. cbn [fmap list_fmap fst first_of] in *.
  rewrite cons_middle, app_assoc in H1.
  destruct (set_first_prev _ _ _ _ _ (last_of None l1.*1) _ _ H1) as (r & E & H2).
  unfold modify_rule, get_rule. cbn [rule_mem]. rewrite E. eexists. split; [done|].
  split; [by rewrite <-app_assoc in H2|]. intros y. destruct (decide (y = q)) as [->|]; [intros _; apply Hd1; by rewrite E|].
  rewrite lookup_insert_ne by done. apply Hd1.
Qed.

Lemma last_of_app prv ids1 ids2 : last_of prv (ids1 ++ ids2) = last_of (last_of prv ids1) ids2.
Proof. unfold last_of. by rewrite fold_left_app. Qed.

(** The ends of a list with the member [x] taken out. *)
Lemma ends_without (a b : list nat) (x : nat) :
  NoDup (a ++ x :: b) →
  (if decide (first_of (a ++ x :: b) None = Some x) then first_of b None else first_of (a ++ x :: b) None)
  = first_of (a ++ b) None ∧
  (if decide (last_of None (a ++ x :: b) = Some x) then last_of None a else last_of None (a ++ x :: b))
  = last_of None (a ++ b).
Proof.
  intros Hnd. apply NoDup_app in Hnd as (_ & Hd & Hb). apply NoDup_cons in Hb as [Hx _]. split.
  - destruct a as [|y a]; cbn; [by rewrite decide_True|]. rewrite decide_False; [done|].
    intros [= ->]. apply (Hd x); set_solver.
  - rewrite !last_of_app. destruct b as [|z b _] using rev_ind; [by rewrite decide_True|].
    change (last_of (last_of None a) (x :: b ++ [z])) with (last_of (Some x) (b ++ [z])).
    rewrite !last_of_snoc, decide_False; [done|]. intros [= ->]. set_solver.
Qed.

Lemma remove_rule_spec f l1 x c l2 :
  rep_rules f (l1 ++ (x, c) :: l2) → ∃ f', iks_filter_remove_rule f x = Done f' ∧ rep_rules f' (l1 ++ l2).
Proof.
  intros Hr. pose proof (rr_nodup _ _ Hr) as Hnd. unfold iks_filter_remove_rule. rewrite (rr_get _ _ _ _ _ Hr).
  cbn [mbind exec_bind r_prev r_next].
  destruct (unlink_links _ _ _ _ _ Hr) as (m & E & Hm & Hdom). destruct Hr as [Hc Hf Hl Hd Hfr].
  destruct (match last_of None l1.*1 with Some p => _ | None => _ end) as [f1|]; [|done].
  cbn [mbind exec_bind] in *. rewrite E. cbn [mbind exec_bind]. eexists. split; [done|].
  rewrite fmap_app in *. cbn [fmap list_fmap fst] in *. fold (fst <$> l2) in *.
  destruct (ends_without _ _ _ Hnd) as [E1 E2]. split; cbn [rule_mem f_rules last_rule fresh_rule].
  - rewrite rcells_app. by eapply cells_delete.
  - rewrite Hf, E1. by rewrite fmap_app.
  - rewrite Hl, E2. by rewrite fmap_app.
  - intros y Hy. destruct (decide (y = x)) as [->|Hne]; [rewrite lookup_delete_eq in Hy; by destruct Hy|].
    rewrite lookup_delete_ne in Hy by done. apply Hdom, Hd in Hy. rewrite fmap_app. set_solver.
  - intros y Hy. apply Hfr. rewrite fmap_app in Hy. set_solver.
Qed.

Lemma remove_loop_spec hook l2 : ∀ fuel f l1,
  rep_rules f (l1 ++ l2) → (length l2 < fuel)%nat →
  ∃ f', remove_loop fuel f (first_of l2.*1 None) hook = Done f' ∧
    rep_rules f' (l1 ++ filter (λ xc, filterHook xc.2 ≠ hook) l2).
Proof.
  induction l2 as [|[x c] l2 IH]; intros fuel f l1 Hr Hf; [exists f; by destruct fuel|].
  destruct fuel as [|fuel]; [cbn in Hf; lia|]. cbn in Hf. cbn [fmap list_fmap fst first_of remove_loop].
  rewrite (rr_get _ _ _ _ _ Hr). cbn [mbind exec_bind r_cond r_next]. rewrite filter_cons. cbn [snd].
  destruct (decide (filterHook c = hook)) as [E|E].
  - destruct (remove_rule_spec _ _ _ _ _ Hr) as (f1 & -> & Hr1). cbn [mbind exec_bind].
    rewrite decide_False by (by intros []). apply IH; [done|lia].
  - cbn [mbind exec_bind]. rewrite decide_True by done.
    rewrite cons_middle, app_assoc in Hr |- *. apply IH; [done|lia].
Qed.

(** ** Scanning *)

(** The first rule with the best positive score behind a best rule so far. *)
Fixpoint best (l : list (nat * Z)) (max_rule : ptr) (max_score : Z) : ptr :=
  match l with
  | [] => max_rule
  | (x, s) :: l' => if max_score <? s then best l' (Some x) s else best l' max_rule max_score
  end.

Definition scores (l : list (nat * cond)) : list (nat * Z) := map (λ xc, (xc.1, score xc.2)) l.
Definition scored (pak : ikspak) (xc : nat * cond) : nat * cond := (xc.1, set_score xc.2 (rule_score xc.2 pak)).

Lemma scan_spec pak l2 : ∀ fuel f l1 mr ms,
  rep_rules f (l1 ++ l2) → (length l2 < fuel)%nat →
  ∃ f', scan fuel f pak (first_of l2.*1 None) mr ms = Done (best (scores (map (scored pak) l2)) mr ms, f') ∧
    rep_rules f' (l1 ++ map (scored pak) l2) ∧ fmem f' = fmem f.
Proof.
  induction l2 as [|[x c] l2 IH]; intros fuel f l1 mr ms Hr Hf; [exists f; by destruct fuel|].
  destruct fuel as [|fuel]; [cbn in Hf; lia|]. cbn in Hf. cbn [fmap list_fmap fst first_of scan].
  rewrite (rr_get _ _ _ _ _ Hr). cbn [mbind exec_bind r_cond r_next r_prev].
  pose proof (rr_put _ _ _ _ (set_score c (rule_score c pak)) _ Hr) as Hr1.
  rewrite cons_middle, app_assoc in Hr1. cbn [map scores scored fst snd best]. cbn [score set_score].
  destruct (ms <? rule_score c pak).
  - destruct (IH fuel _ _ (Some x) (rule_score c pak) Hr1) as (f' & E & Hr' & Hm); [lia|].
    exists f'. rewrite E. by rewrite <-app_assoc in Hr'.
  - destruct (IH fuel _ _ mr ms Hr1) as (f' & E & Hr' & Hm); [lia|].
    exists f'. rewrite E. by rewrite <-app_assoc in Hr'.
Qed.

Lemma rescan_spec f l2 : ∀ fuel l1 mr ms,
  rep_rules f (l1 ++ l2) → (length l2 < fuel)%nat →
  rescan fuel f (first_of l2.*1 None) mr ms = Done (best (scores l2) mr ms).
Proof.
  induction l2 as [|[x c] l2 IH]; intros fuel l1 mr ms Hr Hf; [by destruct fuel|].
  destruct fuel as [|fuel]; [cbn in Hf; lia|]. cbn in Hf. cbn [fmap list_fmap fst first_of rescan].
  rewrite (rr_get _ _ _ _ _ Hr). cbn [mbind exec_bind r_cond r_next scores map best snd].
  rewrite cons_middle, app_assoc in Hr.
  destruct (ms <? score c); apply (IH fuel _ _ _ Hr); lia.
Qed.

(** ** The order of the hooks

    The rules with a positive score, by descending score, rules with the same
    score in the order of the list: for every score from the top, the rules
    that have it. *)
Definition top_score : nat := 39.

Definition with_score (l : list (nat * cond)) (s : nat) : list (nat * cond) :=
  filter (λ xc, score xc.2 = Z.of_nat s) l.

Definition ranking (l : list (nat * cond)) : list (nat * cond) :=
  concat (map (with_score l) (rev (seq 1 top_score))).

Lemma best_spec l : ∀ mr ms,
  (best (scores l) mr ms = mr ∧ ∀ xc, xc ∈ l → score xc.2 <= ms) ∨
  (∃ l1 x c l2, l = l1 ++ (x, c) :: l2 ∧ best (scores l) mr ms = Some x ∧ ms < score c ∧
     (∀ xc, xc ∈ l1 → score xc.2 < score c) ∧ (∀ xc, xc ∈ l2 → score xc.2 <= score c)).
Proof.
  induction l as [|[x c] l IH]; intros mr ms; [left; split; [done|set_solver]|].
  cbn [scores map best fst snd]. fold (scores l). destruct (Z.ltb_spec ms (score c)) as [Hlt|Hge].
  - destruct (IH (Some x) (score c)) as [[E Hl]|(l1 & y & d & l2 & -> & E & Hd & H1 & H2)]; right.
    + exists [], x, c, l. split_and!; [done..|set_solver|done].
    + exists ((x, c) :: l1), y, d, l2. split_and!; [done|done|lia| |done].
      intros xc [->|Hx]%elem_of_cons; [done|by apply H1].
  - destruct (IH mr ms) as [[E Hl]|(l1 & y & d & l2 & -> & E & Hd & H1 & H2)].
    + left. split; [done|]. intros xc [->|Hx]%elem_of_cons; [done|by apply Hl].
    + right. exists ((x, c) :: l1), y, d, l2. split_and!; [done|done|lia| |done].
      intros xc [->|Hx]%elem_of_cons; [cbn; lia|by apply H1].
Qed.

Lemma with_score_none l s : (∀ xc, xc ∈ l → score xc.2 < Z.of_nat s) → with_score l s = [].
Proof.
  intros H. unfold with_score. induction l as [|xc l IH]; [done|]. rewrite filter_cons, decide_False.
  - apply IH. intros yc Hy. apply H. by right.
  - specialize (H xc ltac:(by left)). lia.
Qed.

Lemma with_score_app l1 l2 s : with_score (l1 ++ l2) s = with_score l1 s ++ with_score l2 s.
Proof. apply filter_app. Qed.

Lemma with_score_cons x c l s :
  with_score ((x, c) :: l) s = if decide (score c = Z.of_nat s) then (x, c) :: with_score l s else with_score l s.
Proof. unfold with_score. by rewrite filter_cons. Qed.

Lemma buckets_nil l (ss : list nat) : (∀ s, In s ss → with_score l s = []) → concat (map (with_score l) ss) = [].
Proof. induction ss as [|s ss IH]; intros H; [done|]. cbn. rewrite H, IH by (cbn; auto using in_cons). done. Qed.

Lemma ranking_nil l : (∀ xc, xc ∈ l → score xc.2 <= 0) → ranking l = [].
Proof.
  intros H. apply buckets_nil. intros s Hs%in_rev%in_seq. apply with_score_none. intros xc Hx. apply H in Hx. lia.
Qed.

Lemma ranking_cons l1 x c l2 :
  0 < score c <= Z.of_nat top_score →
  (∀ xc, xc ∈ l1 → score xc.2 < score c) → (∀ xc, xc ∈ l2 → score xc.2 <= score c) →
  ranking (l1 ++ (x, c) :: l2) = (x, c) :: ranking (l1 ++ (x, set_score c 0) :: l2).
Proof.
  intros Hc H1 H2. unfold ranking. set (M := Z.to_nat (score c)).
  assert (HM : Z.of_nat M = score c) by lia.
  assert (E : seq 1 top_score = seq 1 (M - 1) ++ [M] ++ seq (S M) (top_score - M)).
  { replace top_score with ((M - 1) + (1 + (top_score - M)))%nat at 1 by lia. rewrite !seq_app. cbn [seq].
    do 2 f_equal; f_equal; lia. }
  rewrite E, !rev_app_distr. cbn [rev app]. rewrite <-app_assoc. cbn [app].
  rewrite !map_app, !concat_app. cbn [map concat].
  assert (Hhi : ∀ d, score d <= score c →
    concat (map (with_score (l1 ++ (x, d) :: l2)) (rev (seq (S M) (top_score - M)))) = []).
  { intros d Hd. apply buckets_nil. intros s Hs%in_rev%in_seq. apply with_score_none. intros xc [Hx|[->|Hx]%elem_of_cons]%elem_of_app;
    [apply H1 in Hx; lia|cbn; lia|apply H2 in Hx; lia]. }
  rewrite !Hhi by (cbn; lia). cbn [app]. rewrite !with_score_app, !with_score_cons.
  rewrite !(with_score_none l1 M) by (intros xc Hx; apply H1 in Hx; lia).
  rewrite decide_True, decide_False by (cbn; lia). cbn [app]. do 3 f_equal.
  apply map_ext_in. intros s Hs%in_rev%in_seq. rewrite !with_score_app, !with_score_cons.
  by rewrite !decide_False by (cbn; lia).
Qed.

Section order.
Context {U : Type} `{FilterClient U}.

(** Calling hooks in order, until one eats the packet. *)
Fixpoint run_hooks (l : list (nat * cond)) (pak : ikspak) (u : U) : exec U :=
  match l with
  | [] => Done u
  | (_, c) :: l' =>
      '(ret, u) ← call_hook (filterHook c) (user_data c) pak u;
      if decide (ret = IKS_FILTER_EAT) then Done u else run_hooks l' pak u
  end.

(** The rules of a list without their scores. *)
Definition forget (l : list (nat * cond)) : list (nat * cond) := map (λ xc, (xc.1, set_score xc.2 0)) l.

Lemma forget_zero l1 x c l2 : forget (l1 ++ (x, set_score c 0) :: l2) = forget (l1 ++ (x, c) :: l2).
Proof. unfold forget. by rewrite !map_app. Qed.

Lemma dispatch_spec pak : ∀ fuel f l u,
  rep_rules f l → (∀ xc, xc ∈ l → score xc.2 <= Z.of_nat top_score) → (length (ranking l) < fuel)%nat →
  match run_hooks (ranking l) pak u with
  | Done u' => ∃ f' l', dispatch fuel f pak (best (scores l) None 0) u = Done (f', u') ∧
                 rep_rules f' l' ∧ forget l' = forget l
  | Fault => dispatch fuel f pak (best (scores l) None 0) u = Fault
  end.
Proof.
  induction fuel as [|fuel IH]; intros f l u Hr Hs Hf; [lia|].
  destruct (best_spec l None 0) as [[E Hl]|(l1 & x & c & l2 & -> & E & Hd & H1 & H2)]; rewrite E.
  - rewrite (ranking_nil _ Hl). exists f, l. by destruct fuel.
  - assert (Hc : 0 < score c <= Z.of_nat top_score).
    { split; [done|]. apply (Hs (x, c)), elem_of_app. right. by left. }
    rewrite (ranking_cons _ _ _ _ Hc H1 H2) in Hf |- *. cbn [length] in Hf. cbn [run_hooks dispatch].
    rewrite (rr_get _ _ _ _ _ Hr). cbn [mbind exec_bind r_cond].
    destruct (call_hook (filterHook c) (user_data c) pak u) as [[ret u1]|]; [|done]. cbn [mbind exec_bind].
    destruct (decide (ret = IKS_FILTER_EAT)); [by exists f, (l1 ++ (x, c) :: l2)|].
    unfold modify_rule. rewrite (rr_get _ _ _ _ _ Hr). cbn [mbind exec_bind r_next r_prev r_cond].
    pose proof (rr_put _ _ _ _ (set_score c 0) _ Hr) as Hr1. set (f1 := put_rule _ _ _) in *.
    rewrite (rr_first _ _ Hr1), (rescan_spec f1 _ (rule_fuel f1) [] _ _ Hr1) by (by apply rr_fuel).
    cbn [mbind exec_bind]. specialize (IH f1 _ u1 Hr1). rewrite forget_zero in IH.
    apply IH; [|lia]. intros xc [Hx|[->|Hx]%elem_of_cons]%elem_of_app; [|cbn; lia|]; apply Hs, elem_of_app; [by left|].
    right. by right.
Qed.
End order.

Lemma bucket_sizes l : ∀ ss : list nat, NoDup ss → (length (concat (map (with_score l) ss)) <= length l)%nat.
Proof.
  induction l as [|[x c] l IH]; intros ss Hss.
  - induction Hss as [|s ss _ _ IHs]; [done|]. exact IHs.
  - enough (Hs : ∀ ss, NoDup ss →
      (length (concat (map (with_score ((x, c) :: l)) ss))
       <= length (concat (map (with_score l) ss)) + (if decide (Z.to_nat (score c) ∈ ss) then 1 else 0))%nat).
    { specialize (Hs ss Hss). specialize (IH ss Hss). cbn [length]. case_decide; lia. }
    clear ss Hss. induction 1 as [|s ss Hn Hss IHs]; [cbn; lia|].
    cbn [map concat]. rewrite !length_app, with_score_cons. destruct (decide (score c = Z.of_nat s)) as [E|E].
    + rewrite E, Nat2Z.id in *. rewrite decide_True by set_solver. rewrite decide_False in IHs by done. cbn [length]. lia.
    + repeat case_decide; set_unfold; (lia || naive_solver lia).
Qed.

Lemma ranking_length l : (length (ranking l) <= length l)%nat.
Proof. apply bucket_sizes, NoDup_ListNoDup, NoDup_rev, seq_NoDup. Qed.

(** ** Scores *)

Definition selected (c : cond) (bit : Z) : Prop := Z.land (rules c) bit ≠ 0.

(** A condition that is not asked for, one that holds and one that fails. *)
Inductive outcome : Type := Off | Hit | Miss.

Definition outcome_of (mask bit : Z) (h : bool) : outcome :=
  if Z.land mask bit =? 0 then Off else if h then Hit else Miss.

Definition tally (o : outcome) (w : Z) (sf : Z * bool) : Z * bool :=
  match o with Off => sf | Hit => (sf.1 + w, sf.2) | Miss => (sf.1, true) end.

Lemma test_tally mask bit h w sf : test mask bit h w sf = tally (outcome_of mask bit h) w sf.
Proof. unfold test, outcome_of. destruct (Z.land mask bit =? 0), h; done. Qed.

Definition total (o1 o2 o3 o4 o5 o6 : outcome) : Z :=
  let sf := tally o6 8 (tally o5 8 (tally o4 4 (tally o3 16 (tally o2 2 (tally o1 1 (0, false)))))) in
  if sf.2 then 0 else sf.1.

#[export] Instance outcome_eq_dec : EqDecision outcome.
Proof. solve_decision. Defined.

Lemma total_spec o1 o2 o3 o4 o5 o6 :
  0 <= total o1 o2 o3 o4 o5 o6 <= Z.of_nat top_score ∧
  (0 < total o1 o2 o3 o4 o5 o6 ↔ (Miss ∉ [o1; o2; o3; o4; o5; o6]) ∧ Hit ∈ [o1; o2; o3; o4; o5; o6]).
Proof. destruct o1, o2, o3, o4, o5, o6; apply (bool_decide_unpack _); vm_compute; exact I. Qed.

Definition same (a b : option str) : bool := iks_strcmp a b =? 0.
Definition from_is (c : cond) (pak : ikspak) (g : iksid → option str) : bool :=
  match pak_from pak with Some id => same (c_from c) (g id) | None => false end.

(** The conditions of a rule against a packet. *)
Definition outcomes (c : cond) (pak : ikspak) : list outcome :=
  [outcome_of (rules c) IKS_RULE_TYPE (c_type c =? paktype_val (pak_type pak));
   outcome_of (rules c) IKS_RULE_SUBTYPE (c_subtype c =? subtype_val (pak_subtype pak));
   outcome_of (rules c) IKS_RULE_ID (same (c_id c) (pak_id pak));
   outcome_of (rules c) IKS_RULE_NS (same (c_ns c) (pak_ns pak));
   outcome_of (rules c) IKS_RULE_FROM (from_is c pak id_full);
   outcome_of (rules c) IKS_RULE_FROM_PARTIAL (from_is c pak id_partial)].

Lemma rule_score_spec c pak :
  0 <= rule_score c pak <= Z.of_nat top_score ∧
  (0 < rule_score c pak ↔ (Miss ∉ outcomes c pak) ∧ Hit ∈ outcomes c pak).
Proof. unfold rule_score. cbv zeta. rewrite !test_tally. apply total_spec. Qed.

(** ** Theorems *)

Lemma packet_spec {U} `{FilterClient U} (f : iksfilter) (l : list (nat * cond)) (pak : ikspak) (u : U) :
  rep_rules f l →
  match run_hooks (ranking (map (scored pak) l)) pak u with
  | Done u' => ∃ f' l', iks_filter_packet f pak u = Done (f', u') ∧ rep_rules f' l' ∧ forget l' = forget l
  | Fault => iks_filter_packet f pak u = Fault
  end.
Proof.
  intros Hr. unfold iks_filter_packet. rewrite (rr_first _ _ Hr).
  destruct (scan_spec pak l (rule_fuel f) f [] None 0 Hr (rr_fuel _ _ Hr)) as (f1 & E & Hr1 & _).
  rewrite E. cbn [mbind exec_bind app] in *.
  assert (Ef : forget (map (scored pak) l) = forget l) by (unfold forget; by rewrite map_map).
  rewrite <-Ef. apply dispatch_spec; [done| |].
  - intros xc Hx. apply list_elem_of_fmap in Hx as (yc & -> & _). cbn. apply rule_score_spec.
  - eapply Nat.le_lt_trans; [apply ranking_length|]. by apply rr_fuel.
Qed.

(** C13 (functional): the order of the hooks.  [iks_filter_packet] ends, and
    calls exactly the hooks of the rules with a positive score, by descending
    score and in the order of the list among equal scores, until one of them
    eats the packet; the rules of the filter stay as they are but for their
    scores. *)
Theorem filter_packet_order {U} `{FilterClient U} (f : iksfilter) (l : list (nat * cond)) (pak : ikspak) (u : U) :
  rep_rules f l →
  match run_hooks (ranking (map (scored pak) l)) pak u with
  | Done u' => ∃ f' l', iks_filter_packet f pak u = Done (f', u') ∧ rep_rules f' l' ∧ forget l' = forget l
  | Fault => iks_filter_packet f pak u = Fault
  end.
Proof. apply packet_spec. Qed.

(** ** What a rule asks for *)

Inductive want : Type :=
| WType (t : ikspaktype) | WSubtype (t : iksubtype) | WId (s : str) | WNs (s : str) | WFrom (s : str) | WPartial (s : str).

Definition kind (w : want) : Z :=
  match w with
  | WType _ => IKS_RULE_TYPE | WSubtype _ => IKS_RULE_SUBTYPE | WId _ => IKS_RULE_ID | WNs _ => IKS_RULE_NS
  | WFrom _ => IKS_RULE_FROM | WPartial _ => IKS_RULE_FROM_PARTIAL
  end.

(** [FROM] and [FROM_PARTIAL] keep their string in the same field. *)
Definition slot (w : want) : Z := match w with WPartial _ => IKS_RULE_FROM | _ => kind w end.

Definition arg_of (w : want) : va_arg :=
  match w with
  | WType t => VInt (paktype_val t)
  | WSubtype t => VInt (subtype_val t)
  | WId s | WNs s | WFrom s | WPartial s => VStr (Some s)
  end.

Fixpoint args_of (ws : list want) : list va_arg :=
  match ws with [] => [VInt IKS_RULE_DONE] | w :: ws' => VInt (kind w) :: arg_of w :: args_of ws' end.

(** A packet has what is asked for. *)
Definition has (pak : ikspak) (w : want) : Prop :=
  match w with
  | WType t => pak_type pak = t
  | WSubtype t => pak_subtype pak = t
  | WId s => pak_id pak = Some s
  | WNs s => pak_ns pak = Some s
  | WFrom s => ∃ id, pak_from pak = Some id ∧ id_full id = Some s
  | WPartial s => ∃ id, pak_from pak = Some id ∧ id_partial id = Some s
  end.

(** A rule keeps what is asked for. *)
Definition keeps (c : cond) (w : want) : Prop :=
  match w with
  | WType t => c_type c = paktype_val t
  | WSubtype t => c_subtype c = subtype_val t
  | WId s => c_id c = Some s
  | WNs s => c_ns c = Some s
  | WFrom s | WPartial s => c_from c = Some s
  end.

Lemma paktype_val_inj t t' : (paktype_val t =? paktype_val t') = bool_decide (t' = t).
Proof. destruct t, t'; reflexivity. Qed.
Lemma subtype_val_inj t t' : (subtype_val t =? subtype_val t') = bool_decide (t' = t).
Proof. destruct t, t'; reflexivity. Qed.
Lemma same_kept s o : same (Some s) o = bool_decide (o = Some s).
Proof.
  destruct o as [t|]; [|reflexivity]. unfold same. rewrite iks_strcmp_zero by reflexivity.
  apply bool_decide_ext. naive_solver.
Qed.

(** The test a rule makes for what it keeps. *)
Definition check_of (c : cond) (pak : ikspak) (w : want) : bool :=
  match w with
  | WType _ => c_type c =? paktype_val (pak_type pak)
  | WSubtype _ => c_subtype c =? subtype_val (pak_subtype pak)
  | WId _ => same (c_id c) (pak_id pak)
  | WNs _ => same (c_ns c) (pak_ns pak)
  | WFrom _ => from_is c pak id_full
  | WPartial _ => from_is c pak id_partial
  end.

Lemma check_of_has c pak w : keeps c w → check_of c pak w = true ↔ has pak w.
Proof.
  destruct w; cbn [keeps check_of has]; unfold from_is; intros Hk;
    try (rewrite Hk, ?paktype_val_inj, ?subtype_val_inj, ?same_kept, bool_decide_eq_true; done);
    (destruct (pak_from pak) as [id|]; [rewrite Hk, same_kept, bool_decide_eq_true|]; naive_solver).
Qed.

(** The bits of the mask. *)
Definition kinds : list Z := [1; 2; 4; 8; 16; 32].

Lemma kind_in w : kind w ∈ kinds.
Proof. destruct w; apply (bool_decide_unpack _); vm_compute; exact I. Qed.

Lemma mask_checks m k b :
  0 <= m < 64 → k ∈ kinds → b ∈ kinds →
  (Z.land m k = 0 → s32 (m + k) = Z.lor m k) ∧ 0 <= Z.lor m k < 64 ∧
  (Z.land (Z.lor m k) b ≠ 0 ↔ Z.land m b ≠ 0 ∨ k = b).
Proof.
  intros Hm Hk Hb.
  assert (E : forallb (λ k, forallb (λ b, all_below 64 (λ m, bool_decide
    ((Z.land m k = 0 → s32 (m + k) = Z.lor m k) ∧ 0 <= Z.lor m k < 64 ∧
     (Z.land (Z.lor m k) b ≠ 0 ↔ Z.land m b ≠ 0 ∨ k = b)))) kinds) kinds = true) by (vm_compute; reflexivity).
  rewrite forallb_forall in E. apply list_elem_of_In in Hk, Hb. specialize (E k Hk).
  rewrite forallb_forall in E. specialize (E b Hb). by apply (all_below_spec 64 _ E m), bool_decide_eq_true in Hm.
Qed.

(** The rule with one more condition. *)
Definition ask (c : cond) (w : want) : cond :=
  let m := s32 (rules c + kind w) in
  match w with
  | WType t => mk_cond (user_data c) (filterHook c) (c_id c) (c_from c) (c_ns c) (score c) m (paktype_val t) (c_subtype c)
  | WSubtype t => mk_cond (user_data c) (filterHook c) (c_id c) (c_from c) (c_ns c) (score c) m (c_type c) (subtype_val t)
  | WId s => mk_cond (user_data c) (filterHook c) (Some s) (c_from c) (c_ns c) (score c) m (c_type c) (c_subtype c)
  | WNs s => mk_cond (user_data c) (filterHook c) (c_id c) (c_from c) (Some s) (score c) m (c_type c) (c_subtype c)
  | WFrom s | WPartial s =>
      mk_cond (user_data c) (filterHook c) (c_id c) (Some s) (c_ns c) (score c) m (c_type c) (c_subtype c)
  end.

Lemma read_rule_spec ws : ∀ c, read_rule [] (args_of ws) c = Done (fold_left ask ws c, []).
Proof. induction ws as [|w ws IH]; intros c; [done|]. cbn [args_of fold_left]. rewrite <-IH. by destruct w. Qed.

(** What the rule keeps and asks for after the conditions [ws]. *)
Record asks (c : cond) (ws : list want) : Prop := {
  as_mask : 0 <= rules c < 64;
  as_bits : ∀ b, b ∈ kinds → selected c b ↔ b ∈ map kind ws;
  as_keeps : ∀ w, w ∈ ws → keeps c w }.

Lemma ask_keeps c w w' : slot w ≠ slot w' → keeps c w' → keeps (ask c w) w'.
Proof. destruct w, w'; cbn; try done; by intros []. Qed.

Lemma kind_slot w w' : kind w = kind w' → slot w = slot w'.
Proof. destruct w, w'; done. Qed.

Lemma ask_asks c ws w : asks c ws → slot w ∉ map slot ws → asks (ask c w) (ws ++ [w]).
Proof.
  intros [Hm Hb Hk] Hs.
  assert (Hz : Z.land (rules c) (kind w) = 0).
  { destruct (decide (Z.land (rules c) (kind w) = 0)) as [|Hn]; [done|].
    apply (Hb _ (kind_in w)), list_elem_of_In, in_map_iff in Hn as (w' & E & Hw').
    destruct Hs. apply list_elem_of_In, in_map_iff. exists w'. by split; [apply kind_slot|]. }
  assert (Er : rules (ask c w) = Z.lor (rules c) (kind w)).
  { destruct (mask_checks _ _ _ Hm (kind_in w) (kind_in w)) as (E & _). rewrite <-E by done. by destruct w. }
  split.
  - rewrite Er. by apply (mask_checks _ _ (kind w) Hm (kind_in w) (kind_in w)).
  - intros b Hbk. unfold selected. rewrite Er, (proj2 (proj2 (mask_checks _ _ _ Hm (kind_in w) Hbk))), (Hb b Hbk).
    rewrite map_app, elem_of_app. cbn. set_solver.
  - intros w' Hw'. apply elem_of_app in Hw' as [Hw'|Hw'].
    + apply ask_keeps; [|by apply Hk]. intros E. destruct Hs. rewrite E.
      apply list_elem_of_In, in_map, list_elem_of_In, Hw'.
    + apply list_elem_of_singleton in Hw' as ->. by destruct w.
Qed.

Lemma fold_asks ws2 : ∀ ws1 c, asks c ws1 → NoDup (map slot (ws1 ++ ws2)) → asks (fold_left ask ws2 c) (ws1 ++ ws2).
Proof.
  induction ws2 as [|w ws2 IH]; intros ws1 c Ha Hnd; [by rewrite app_nil_r|]. cbn [fold_left].
  rewrite cons_middle, app_assoc in Hnd |- *. apply IH; [|done]. apply ask_asks; [done|].
  rewrite !map_app in Hnd. apply NoDup_app in Hnd as (Hnd & _ & _). apply NoDup_app in Hnd as (_ & Hd & _).
  intros Hin. apply (Hd _ Hin). by left.
Qed.

(** One want of every kind. *)
Definition all_wants : list want :=
  [WType IKS_PAK_NONE; WSubtype IKS_TYPE_NONE; WId []; WNs []; WFrom []; WPartial []].

Lemma all_wants_kind w : ∃ v, v ∈ all_wants ∧ kind v = kind w ∧ (∀ c pak, check_of c pak v = check_of c pak w).
Proof.
  unfold all_wants. destruct w; [exists (WType IKS_PAK_NONE)|exists (WSubtype IKS_TYPE_NONE)|exists (WId [])
    |exists (WNs [])|exists (WFrom [])|exists (WPartial [])]; (split; [set_solver|done]).
Qed.

Lemma kind_check c pak v w : kind v = kind w → check_of c pak v = check_of c pak w.
Proof. by destruct v, w. Qed.

Definition outcome_for (c : cond) (pak : ikspak) (w : want) : outcome :=
  outcome_of (rules c) (kind w) (check_of c pak w).

Lemma outcomes_wants c pak o : o ∈ outcomes c pak ↔ ∃ w, outcome_for c pak w = o.
Proof.
  change (outcomes c pak) with (map (outcome_for c pak) all_wants). rewrite list_elem_of_In, in_map_iff. split.
  - intros (w & E & _). by exists w.
  - intros [w E]. destruct (all_wants_kind w) as (v & Hv & Ek & Ec). exists v. unfold outcome_for in *.
    rewrite Ek, Ec. split; [done|by apply list_elem_of_In].
Qed.

Lemma outcome_for_cases c pak w :
  (outcome_for c pak w = Hit ↔ selected c (kind w) ∧ check_of c pak w = true) ∧
  (outcome_for c pak w = Miss ↔ selected c (kind w) ∧ check_of c pak w = false).
Proof.
  unfold outcome_for, outcome_of, selected. destruct (Z.eqb_spec (Z.land (rules c) (kind w)) 0) as [E|E];
    destruct (check_of c pak w); naive_solver.
Qed.

(** A rule scores exactly when the packet has everything it asks for. *)
Lemma asks_score c ws pak : asks c ws → 0 < rule_score c pak ↔ ws ≠ [] ∧ Forall (has pak) ws.
Proof.
  intros [_ Hb Hk]. rewrite (proj2 (rule_score_spec c pak)), !outcomes_wants.
  assert (Hsel : ∀ w, w ∈ ws → selected c (kind w)).
  { intros w Hw. apply (Hb _ (kind_in w)), list_elem_of_In, in_map, list_elem_of_In, Hw. }
  assert (Hin : ∀ v, selected c (kind v) → ∃ w, w ∈ ws ∧ kind w = kind v).
  { intros v Hv. apply (Hb _ (kind_in v)), list_elem_of_In, in_map_iff in Hv as (w & E & Hw%list_elem_of_In). by exists w. }
  split.
  - intros [Hm [v [Hv _]%outcome_for_cases]]. split; [destruct (Hin v Hv) as (w & Hw & _); by destruct ws; [set_solver|]|].
    apply Forall_forall. intros w Hw. apply (check_of_has c); [by apply Hk|].
    destruct (check_of c pak w) eqn:E; [done|]. destruct Hm. exists w. apply outcome_for_cases. auto.
  - rewrite Forall_forall. intros [Hne Hall]. split.
    + intros [v [Hv E]%outcome_for_cases]. destruct (Hin v Hv) as (w & Hw & Ek).
      apply Hall in Hw as Hh. apply (check_of_has c) in Hh; [|by apply Hk]. rewrite (kind_check c pak w v Ek) in Hh. congruence.
    + destruct ws as [|w ws]; [done|]. exists w. apply outcome_for_cases. split; [apply Hsel; by left|].
      apply check_of_has; [apply Hk; by left|apply Hall; by left].
Qed.

Lemma modify_rule_at f x r g : rule_mem f !! x = Some r → modify_rule f x g = Done (put_rule f x (g r)).
Proof. intros E. unfold modify_rule, get_rule. by rewrite E. Qed.

Lemma add_rule_spec f l hook ud ws :
  fmem f = [] → rep_rules f l →
  ∃ f', iks_filter_add_rule f hook ud (args_of ws) = Done (Some (fresh_rule f), f') ∧
    rep_rules f' (l ++ [(fresh_rule f, fold_left ask ws (blank_rule hook ud))]).
Proof.
  intros Hm [Hc Hf Hl Hd Hfr]. unfold iks_filter_add_rule. rewrite Hm. cbn [negb]. rewrite read_rule_spec.
  cbn [mbind exec_bind]. set (c := fold_left ask ws (blank_rule hook ud)). set (x := fresh_rule f).
  assert (Hx : rule_mem f !! x = None).
  { destruct (rule_mem f !! x) eqn:E; [|done]. assert (x ∈ l.*1) as Hx by (apply Hd; by rewrite E).
    apply Hfr in Hx. unfold x in Hx. lia. }
  pose proof (cells_new _ x (mk_rule None None c) _ Hx Hc) as H1.
  cbn [f_rules last_rule rule_mem fresh_rule fmem]. rewrite Hf, Hl.
  assert (Hrest : ∀ m, cells m (rcells None (l ++ [(x, c)]) None) → (∀ y, is_Some (m !! y) → is_Some (rule_mem f !! y) ∨ y = x) →
    rep_rules (mk_filter (match first_of l.*1 None with Some y => Some y | None => Some x end) (Some x) m (S x) [])
      (l ++ [(x, c)])).
  { intros m Hm1 Hdm. split; cbn [rule_mem f_rules last_rule fresh_rule].
    - done.
    - rewrite fmap_app, first_of_app. by destruct l as [|[? ?] ?].
    - rewrite fmap_app. cbn [fmap list_fmap fst]. by rewrite last_of_snoc.
    - intros y Hy. rewrite fmap_app. apply Hdm in Hy as [Hy%Hd| ->]; set_solver.
    - intros y Hy. rewrite fmap_app in Hy. apply elem_of_app in Hy as [Hy%Hfr|Hy]; [unfold x; lia|].
      apply list_elem_of_singleton in Hy as ->. cbn. lia. }
  destruct l as [|[z cz] l _] using rev_ind.
  - cbn. unfold modify_rule, get_rule. cbn. rewrite lookup_insert_eq. cbn. eexists. split; [done|].
    apply Hrest; [|intros y; destruct (decide (y = x)) as [->|]; [auto|rewrite !lookup_insert_ne by done; auto]].
    cbn. by apply (cells_insert _ [] _ _ _ _ H1).
  - rewrite fmap_app. cbn [fmap list_fmap fst]. rewrite last_of_snoc.
    assert (H2 : cells (<[x := mk_rule None None c]> (rule_mem f)) (rcells None (l ++ [(z, cz)]) None ++ [(x, mk_rule None None c)]))
      by (revert H1; apply cells_perm; perm).
    destruct (set_last_next _ _ _ _ _ _ (Some x) _ H2) as (r & E & H3).
    erewrite modify_rule_at by exact E. cbn [mbind exec_bind].
    erewrite modify_rule_at by exact (cells_lookup _ _ _ _ _ H3).
    cbn [mbind exec_bind put_rule f_rules last_rule rule_mem fresh_rule fmem].
    eexists. split; [done|]. rewrite fmap_app in Hrest. apply Hrest.
    + rewrite (rcells_app (l ++ [(z, cz)])). rewrite fmap_app. cbn [rcells fmap list_fmap fst first_of]. rewrite last_of_snoc.
      by apply (cells_insert _ _ _ _ (set_prev (mk_rule None None c) (Some z)) _ H3).
    + intros y. destruct (decide (y = x)) as [->|]; [auto|]. rewrite lookup_insert_ne by done.
      destruct (decide (y = z)) as [->|]; [intros _; left|rewrite !lookup_insert_ne by done; auto].
      rewrite lookup_insert_ne in E by done. by rewrite E.
Qed.

Lemma blank_asks hook ud : asks (blank_rule hook ud) [].
Proof.
  split; [cbn; lia| |set_solver]. intros b Hb. unfold selected. cbn. rewrite Z.land_0_l. split; [done|set_solver].
Qed.

(** A new rule is put at the end of the list, and it matches a
    packet (its score is positive) exactly when it has at least one condition
    and the packet satisfies all of them; each kind of condition given at most
    once, and not both a full and a partial sender. *)
Theorem filter_add_rule_correct (f : iksfilter) (l : list (nat * cond)) (hook ud : nat) (ws : list want) :
  fmem f = [] → rep_rules f l → NoDup (map slot ws) →
  ∃ f' x c, iks_filter_add_rule f hook ud (args_of ws) = Done (Some x, f') ∧ rep_rules f' (l ++ [(x, c)]) ∧
    filterHook c = hook ∧ user_data c = ud ∧
    ∀ pak, 0 < rule_score c pak ↔ ws ≠ [] ∧ Forall (has pak) ws.
Proof.
  intros Hm Hr Hnd. destruct (add_rule_spec f l hook ud ws Hm Hr) as (f' & E & Hr').
  exists f', (fresh_rule f), (fold_left ask ws (blank_rule hook ud)). split_and!; [done|done|..].
  - assert (Hk : ∀ ws c, filterHook (fold_left ask ws c) = filterHook c).
    { induction ws0 as [|w ws0 IH]; intros c; [done|]. cbn. rewrite IH. by destruct w. }
    apply Hk.
  - assert (Hk : ∀ ws c, user_data (fold_left ask ws c) = user_data c).
    { induction ws0 as [|w ws0 IH]; intros c; [done|]. cbn. rewrite IH. by destruct w. }
    apply Hk.
  - intros pak. apply asks_score. apply (fold_asks ws [] _ (blank_asks hook ud) Hnd).
Qed.

(** Removing a rule, and removing all rules of a hook, takes
    exactly these rules out of the list and keeps the others in their order,
    without following a link of a rule that is gone. *)
Theorem filter_remove_correct (f : iksfilter) (l : list (nat * cond)) :
  rep_rules f l →
  (∀ hook, ∃ f', iks_filter_remove_hook f hook = Done f' ∧
     rep_rules f' (filter (λ xc, filterHook xc.2 ≠ hook) l)) ∧
  (∀ l1 x c l2, l = l1 ++ (x, c) :: l2 →
     ∃ f', iks_filter_remove_rule f x = Done f' ∧ rep_rules f' (l1 ++ l2)).
Proof.
  intros Hr. split.
  - intros hook. unfold iks_filter_remove_hook. rewrite (rr_first _ _ Hr).
    apply (remove_loop_spec hook l (rule_fuel f) f []); [done|by apply rr_fuel].
  - intros l1 x c l2 ->. by apply (remove_rule_spec _ _ _ c).
Qed.

Lemma delete_loop_spec l : ∀ fuel m prv,
  cells m (rcells prv l None) → (∀ y, is_Some (m !! y) → y ∈ l.*1) → (length l < fuel)%nat →
  delete_loop fuel m (first_of l.*1 None) = Done ∅.
Proof.
  induction l as [|[x c] l IH]; intros fuel m prv Hc Hd Hf.
  - assert (m = ∅) as ->.
    { apply map_empty. intros y. destruct (m !! y) eqn:E; [|done]. specialize (Hd y ltac:(by rewrite E)). set_solver. }
    by destruct fuel.
  - destruct fuel as [|fuel]; [cbn in Hf; lia|]. cbn [fmap list_fmap fst first_of delete_loop rcells] in *.
    rewrite (cells_lookup _ [] _ _ _ Hc). cbn [r_next]. apply (IH fuel _ (Some x)); [|intros y Hy|cbn in Hf; lia].
    + by apply (cells_delete _ [] _ _ _ Hc).
    + destruct (decide (y = x)) as [->|]; [rewrite lookup_delete_eq in Hy; by destruct Hy|].
      rewrite lookup_delete_ne in Hy by done. apply Hd in Hy. set_solver.
Qed.

(** Deleting a filter frees every rule, reading the link of a rule
    before it is freed; no rule leaks and none is freed twice. *)
Theorem filter_delete_frees (f : iksfilter) (l : list (nat * cond)) :
  rep_rules f l → iks_filter_delete f = Done ∅.
Proof.
  intros Hr. unfold iks_filter_delete. rewrite (rr_first _ _ Hr).
  apply (delete_loop_spec l _ _ None); [apply Hr|apply Hr|by apply rr_fuel].
Qed.

(** The mask of a rule is a sum, not a union: a rule that
    gives a type twice asks for the subtype instead, which it never set. *)
Theorem rule_type_twice (f : iksfilter) (hook ud : nat) (t : ikspaktype) :
  fmem f = [] → last_rule f = None →
  ∃ f' c, iks_filter_add_rule f hook ud
             [VInt IKS_RULE_TYPE; VInt (paktype_val t); VInt IKS_RULE_TYPE; VInt (paktype_val t); VInt IKS_RULE_DONE]
           = Done (Some (fresh_rule f), f') ∧
    rule_mem f' !! fresh_rule f = Some (mk_rule None None c) ∧
    ∀ pak, 0 < rule_score c pak ↔ pak_subtype pak = IKS_TYPE_NONE.
Proof.
  intros Hm Hl. unfold iks_filter_add_rule. rewrite Hm. cbn -[rule_score]. rewrite Hl. cbn -[rule_score].
  unfold modify_rule, get_rule. cbn -[rule_score]. rewrite lookup_insert_eq. cbn -[rule_score].
  do 2 eexists. split; [reflexivity|]. cbn -[rule_score]. rewrite lookup_insert_eq. split; [reflexivity|].
  intros pak. unfold rule_score. cbn. destruct (pak_subtype pak); cbn; split; (done || lia).
Qed.

(** ** A filter as the client sets it up *)

Definition new_filter : iksfilter := mk_filter None None ∅ 0 [].

Lemma rep_new : rep_rules new_filter [].
Proof. split; [split; [constructor|set_solver]|done|done|intros x [? Hx]; done|set_solver]. Qed.

Definition demo_filter : iksfilter :=
  match iks_filter_add_rule new_filter 1 0 (args_of [WType IKS_PAK_IQ]) with
  | Done (_, f) =>
      match iks_filter_add_rule f 2 0 (args_of [WType IKS_PAK_IQ; WSubtype IKS_TYPE_RESULT; WId (bs "auth")]) with
      | Done (_, f) => f | Fault => new_filter end
  | Fault => new_filter end.

Definition demo_rules : list (nat * cond) :=
  [(0%nat, mk_cond 0 1 None None None 0 2 3 0); (1%nat, mk_cond 0 2 (Some (bs "auth")) None None 0 7 3 7)].

Lemma demo_rep : rep_rules demo_filter demo_rules.
Proof.
  destruct (add_rule_spec new_filter [] 1 0 [WType IKS_PAK_IQ] eq_refl rep_new) as (f1 & E1 & H1).
  assert (Hm : fmem f1 = []) by (by vm_compute in E1; injection E1 as <-).
  destruct (add_rule_spec f1 _ 2 0 [WType IKS_PAK_IQ; WSubtype IKS_TYPE_RESULT; WId (bs "auth")] Hm H1) as (f2 & E2 & H2).
  assert (Ef : demo_filter = f2) by (unfold demo_filter; by rewrite E1, E2).
  rewrite Ef. assert (Hfr : fresh_rule f1 = 1%nat) by (by vm_compute in E1; injection E1 as <-).
  rewrite Hfr in H2. exact H2.
Qed.

(** A client that records the hooks it is called with; hook 2 eats. *)
#[export] Instance recorder_client : FilterClient (list nat) := {|
  call_hook h _ _ u := Done (if decide (h = 2%nat) then IKS_FILTER_EAT else IKS_FILTER_PASS, u ++ [h]) |}.

Definition demo_pak : ikspak := mk_ikspak 0 None None None (Some (bs "auth")) IKS_PAK_IQ IKS_TYPE_RESULT IKS_SHOW_UNAVAILABLE.

Lemma filter_packet_order_witness : ∃ f', iks_filter_packet demo_filter demo_pak [] = Done (f', [2%nat]).
Proof.
  destruct (filter_packet_order demo_filter demo_rules demo_pak [] demo_rep) as (f' & l' & E & _). by exists f'.
Defined.

Lemma filter_add_rule_correct_witness :
  ∃ f' x c, iks_filter_add_rule demo_filter 3 0 (args_of [WFrom (bs "srv")]) = Done (Some x, f') ∧
    (0 < rule_score c demo_pak ↔ [WFrom (bs "srv")] ≠ [] ∧ Forall (has demo_pak) [WFrom (bs "srv")]).
Proof.
  destruct (filter_add_rule_correct demo_filter demo_rules 3 0 [WFrom (bs "srv")]) as (f' & x & c & E & _ & _ & _ & H).
  - reflexivity.
  - exact demo_rep.
  - apply (bool_decide_unpack _). vm_compute. exact I.
  - exists f', x, c. exact (conj E (H demo_pak)).
Defined.

Lemma filter_remove_correct_witness :
  ∃ f', iks_filter_remove_hook demo_filter 1 = Done f' ∧ rep_rules f' (filter (λ xc, filterHook xc.2 ≠ 1%nat) demo_rules).
Proof. exact (proj1 (filter_remove_correct demo_filter demo_rules demo_rep) 1%nat). Defined.

Lemma filter_delete_frees_witness : iks_filter_delete demo_filter = Done ∅.
Proof. exact (filter_delete_frees demo_filter demo_rules demo_rep). Defined.

Lemma rule_type_twice_witness :
  ∃ f' c, iks_filter_add_rule new_filter 1 0 [VInt 2; VInt 3; VInt 2; VInt 3; VInt 0] = Done (Some 0%nat, f') ∧
    (0 < rule_score c demo_pak ↔ pak_subtype demo_pak = IKS_TYPE_NONE).
Proof.
  destruct (rule_type_twice new_filter 1 0 IKS_PAK_IQ) as (f' & c & E & _ & H); [reflexivity|reflexivity|].
  exists f', c. exact (conj E (H demo_pak)).
Defined.
