(* ===== verification/Stream.v ===== *)
(** * The XMPP stream

    [src/sysapps/apps/cgi2/app/jabberlog/stream.c] and [io-posix.c]: the
    connection to the server, the hooks that cut the stream of SAX events into
    stanzas, SASL authentication, and sending.  The build has no TLS.

    The socket calls are scripts: [sends] holds the results of the next calls
    of [trans->send], and [iks_recv] is given the results of the next calls of
    [trans->recv].  [rand] is a list of the next numbers.  The functions of the
    user ([streamHook]) are a client of the stream.  Allocations of strings and
    of the MD5 context take their outcome from the heap's [hmem].

    [Fault] also stands for the two loops of [iks_sasl_challenge] that repeat
    the same search for ever: [quote_loop] says when that is. *)

From S2P Require Import Prelude XmlText Base64 Md5 Sax Dom DomParser Jabber.

Local Open Scope Z_scope.

(** ** Results *)

Definition err_val (e : ikserror) : Z := match e with IKS_OK => 0 | IKS_NOMEM => 1 | IKS_BADXML => 2 | IKS_HOOK => 3 end.
Definition IKS_NET_NODNS : Z := 4.
Definition IKS_NET_NOSOCK : Z := 5.
Definition IKS_NET_NOCONN : Z := 6.
Definition IKS_NET_RWERR : Z := 7.
Definition IKS_NET_NOTSUPP : Z := 8.
Definition IKS_NET_TLSFAIL : Z := 9.
Definition NET_IO_BUF_SIZE : Z := 4096.

(** ** The posix transport *)

(** The proxy: the server that is asked for is replaced by the tunnel on this
    host. *)
Definition proxy_server : str := bs "127.0.0.1".

(** [getaddrinfo] fails, or gives the addresses; for each of them what [socket]
    answers. *)
Fixpoint first_socket (socks : list Z) : Z :=
  match socks with [] => -1 | s :: socks' => if s =? -1 then first_socket socks' else s end.

(** The result, the socket that is handed out and the sockets that are closed. *)
Definition io_connect (lookup : option (list Z)) (connect : Z) : Z * option Z * list Z :=
  match lookup with
  | None => (IKS_NET_NODNS, None, [])
  | Some socks =>
      let sock := first_socket socks in
      if sock =? -1 then (IKS_NET_NOSOCK, None, [])
      else if negb (connect =? 0) then (IKS_NET_NOCONN, None, [sock])
      else (0, Some sock, [])
  end.

Definition io_send (ret : Z) : Z := if ret =? -1 then IKS_NET_RWERR else 0.

(** [ready] is the answer of [select], [got] what [recv] put into the buffer,
    [None] for an error. *)
Definition io_recv (ready : Z) (got : option (list Z)) : Z * list Z :=
  if 0 <? ready then
    match got with
    | Some ((_ :: _) as b) => (strlen b, b)
    | _ => (-1, [])
    end
  else (0, []).

(** ** The stream *)

Record stream_data : Type := mk_sd {
  trans : bool; name_space : str; server : option str; logHook : bool; s_current : ptr;
  have_buf : bool; sock : Z; flags : Z; auth_username : option str; auth_pass : option str }.

Definition SF_FOREIGN : Z := 1.

Record net : Type := mk_net { sends : list Z; sent : list str; logs : list (bool * str); rands : list Z; closed : list Z }.

Record strm (V : Type) : Type := mk_strm { sd : stream_data; nt : net; hp : heap; client : V }.
Arguments mk_strm {V} sd nt hp client.
Arguments sd {V} s.
Arguments nt {V} s.
Arguments hp {V} s.
Arguments client {V} s.

Inductive iksnodetype : Type := IKS_NODE_START | IKS_NODE_NORMAL | IKS_NODE_ERROR | IKS_NODE_STOP.

Class StreamClient (V : Type) : Type := { streamHook : strm V → iksnodetype → ptr → exec (ikserror * strm V) }.

Section stream.
Context {V : Type}.

Definition set_sd (s : strm V) (d : stream_data) : strm V := mk_strm d (nt s) (hp s) (client s).
Definition set_nt (s : strm V) (n : net) : strm V := mk_strm (sd s) n (hp s) (client s).
Definition set_hp (s : strm V) (h : heap) : strm V := mk_strm (sd s) (nt s) h (client s).
Definition set_app (s : strm V) (v : V) : strm V := mk_strm (sd s) (nt s) (hp s) v.

Definition set_current (d : stream_data) (x : ptr) : stream_data :=
  mk_sd (trans d) (name_space d) (server d) (logHook d) x (have_buf d) (sock d) (flags d) (auth_username d) (auth_pass d).
Definition set_server (d : stream_data) (t : option str) : stream_data :=
  mk_sd (trans d) (name_space d) t (logHook d) (s_current d) (have_buf d) (sock d) (flags d) (auth_username d) (auth_pass d).
Definition set_trans (d : stream_data) (t : bool) (sk fl : Z) : stream_data :=
  mk_sd t (name_space d) (server d) (logHook d) (s_current d) (have_buf d) sk fl (auth_username d) (auth_pass d).
Definition set_buf (d : stream_data) : stream_data :=
  mk_sd (trans d) (name_space d) (server d) (logHook d) (s_current d) true (sock d) (flags d) (auth_username d) (auth_pass d).
Definition set_auth (d : stream_data) (u p : option str) : stream_data :=
  mk_sd (trans d) (name_space d) (server d) (logHook d) (s_current d) (have_buf d) (sock d) (flags d) u p.

(** The next [iks_malloc] of the stream. *)
Definition alloc (s : strm V) : bool * strm V := let '(ok, h) := take_mem (hp s) in (ok, set_hp s h).

(** [sprintf] into a block of [cap] bytes. *)
Definition sprintf (cap : Z) (text : str) : exec str := if strlen text <? cap then Done text else Fault.

(** ** Sending *)

(** [data->trans->send]: through a null transport it is a fault. *)
Definition iks_send_raw (s : strm V) (xmlstr : option str) : exec (Z * strm V) :=
  if negb (trans (sd s)) then Fault else
  t ← deref xmlstr;
  let n := nt s in
  let ret := match sends n with [] => 0 | r :: _ => r end in
  let n := mk_net (tail (sends n)) (sent n ++ [t]) (logs n) (rands n) (closed n) in
  if negb (ret =? 0) then Done (ret, set_nt s n) else
  let n := if logHook (sd s) then mk_net (sends n) (sent n) (logs n ++ [(false, t)]) (rands n) (closed n) else n in
  Done (0, set_nt s n).

(** Two turns for every node of the heap are enough for the serialiser. *)
Definition walk_fuel (h : heap) : nat := (2 * size (nodes h))%nat.

Definition iks_send (s : strm V) (x : ptr) : exec (Z * strm V) :=
  st ← iks_stack (hp s) x;
  '(t, h) ← iks_string (walk_fuel (hp s)) (hp s) (bool_decide (is_Some st)) x;
  iks_send_raw (set_hp s h) t.

Definition header_start : str :=
  bs "<?xml version='1.0'?><stream:stream xmlns:stream='http://etherx.jabber.org/streams' xmlns='".

Definition iks_send_header (s : strm V) (to : option str) : exec (Z * strm V) :=
  t ← deref to;
  let ns := name_space (sd s) in
  let len := 91 + strlen ns + 6 + strlen t + 16 + 1 in
  let '(ok, s) := alloc s in
  if negb ok then Done (err_val IKS_NOMEM, s) else
  msg ← sprintf len (header_start ++ ns ++ bs "' to='" ++ t ++ bs "' version='1.0'>");
  '(err, s) ← iks_send_raw s (Some msg);
  if negb (err =? 0) then Done (err, s) else Done (0, set_sd s (set_server (sd s) (Some t))).

(** ** Connecting *)

Definition need_buf (s : strm V) : bool * strm V :=
  if have_buf (sd s) then (true, s)
  else let '(ok, s) := alloc s in if ok then (true, set_sd s (set_buf (sd s))) else (false, s).

(** [lookup] and [connect] are the answers for [io_connect]. *)
Definition iks_connect_with (s : strm V) (lookup : option (list Z)) (connect : Z) (server_name : option str) :
    exec (Z * strm V) :=
  let '(ok, s) := need_buf s in
  if negb ok then Done (err_val IKS_NOMEM, s) else
  let '(ret, sk, cl) := io_connect lookup connect in
  let n := nt s in
  let s := set_nt s (mk_net (sends n) (sent n) (logs n) (rands n) (closed n ++ cl)) in
  match sk with
  | None => Done (ret, s)
  | Some k => iks_send_header (set_sd s (set_trans (sd s) true k (flags (sd s)))) server_name
  end.

Definition iks_connect_tcp (s : strm V) (lookup : option (list Z)) (connect : Z) (srv : option str) : exec (Z * strm V) :=
  iks_connect_with s lookup connect srv.

(** The default transport has no [connect_async]. *)
Definition iks_connect_async (s : strm V) : Z * strm V := (IKS_NET_NOTSUPP, s).

Definition iks_connect_fd (s : strm V) (fd : Z) : Z * strm V :=
  let '(ok, s) := need_buf s in
  if negb ok then (err_val IKS_NOMEM, s)
  else (0, set_sd s (set_trans (sd s) true fd (Z.lor (flags (sd s)) SF_FOREIGN))).

Definition iks_fd (s : strm V) : Z := sock (sd s).
Definition iks_is_secure (s : strm V) : bool := false.
Definition iks_start_tls (s : strm V) : Z * strm V := (IKS_NET_NOTSUPP, s).

(** ** SASL *)

(** [strstr] in a string. *)
Fixpoint strstr (s needle : str) : option nat :=
  if bool_decide (take (length needle) s = needle) then Some O
  else match s with [] => None | _ :: s' => option_map S (strstr s' needle) end.

(** [strchr] from an offset of a buffer on; reading behind the buffer faults. *)
Fixpoint scan_chr (rest : list Z) (off c : Z) : exec (option Z) :=
  match rest with
  | [] => Fault
  | b :: rest' => if b =? c then Done (Some off) else if b =? 0 then Done None else scan_chr rest' (off + 1) c
  end.

Definition strchr_at (m : list Z) (off c : Z) : exec (option Z) :=
  if off <=? strlen m then scan_chr (drop (Z.to_nat off) m) off c else Fault.

(** A loop that looks for the quote behind [off], and repeats while [probe] gives
    a backslash; no result after [fuel] turns is [None]. *)
Fixpoint quote_loop (fuel : nat) (m : list Z) (off : Z) (probe : option Z → exec Z) : option (exec (option Z)) :=
  match fuel with
  | O => None
  | S fuel' =>
      match strchr_at m off 34 with
      | Fault => Some Fault
      | Done e =>
          match probe e with
          | Fault => Some Fault
          | Done p => if p =? 92 then quote_loop fuel' m off probe else Some (Done e)
          end
      end
  end.

Definition ended (r : option (exec (option Z))) : exec (option Z) := match r with Some e => e | None => Fault end.

(** The string at an offset. *)
Definition str_at (m : list Z) (off : Z) : exec str :=
  e ← strchr_at m off 0; e ← deref e; mread m off (e - off).

(** The realm and the nonce of a challenge: the quotes behind them are
    overwritten in the buffer.  [None] when there is no nonce. *)
Definition sasl_fields (srv : option str) (m : list Z) : exec (option (str * str)) :=
  let b := c_str m in
  r ← match strstr b (bs "realm") with
      | Some i =>
          let off := Z.of_nat i + 7 in
          e ← ended (quote_loop 1 m off (λ e, match e with Some e => load m (e - 1) | None => Fault end));
          e ← deref e;
          Done (Some (off, e))
      | None => Done None
      end;
  match strstr b (bs "nonce") with
  | None => Done None
  | Some i =>
      let off := Z.of_nat i + 7 in
      ne ← ended (quote_loop 1 m off (λ _, load m (off - 1)));
      m ← match r with Some (_, e) => store m e 0 | None => Done m end;
      ne ← deref ne;
      m ← store m ne 0;
      realm ← match r with Some (roff, _) => str_at m roff | None => deref srv end;
      nonce ← str_at m off;
      Done (Some (realm, nonce))
  end.

(** [sprintf ("%08x", rand ())]. *)
Definition hex_word (n : Z) : str :=
  concat (map hex_byte [n / 2 ^ 24 mod 256; n / 2 ^ 16 mod 256; n / 2 ^ 8 mod 256; n mod 256]).

Definition CNONCE_LEN : nat := 4.

Definition make_cnonce (l : list Z) : str := concat (map hex_word (take CNONCE_LEN (l ++ replicate CNONCE_LEN 0))).

(** Hashing several pieces, the last one with [finish]. *)
Definition hash_all (pieces : list (list Z)) (final : list Z) : iksmd5 :=
  iks_md5_hash (hash_pieces iks_md5_reset pieces) final true.

Definition response_value (user realm pass nonce cnonce srv : str) : str :=
  let a1_h := iks_md5_digest (hash_all [user; [58]; realm; [58]] pass) in
  let a1 := iks_md5_print (hash_all [a1_h; [58]; nonce; [58]] cnonce) in
  let a2 := iks_md5_print (hash_all [bs "AUTHENTICATE:xmpp/"] srv) in
  iks_md5_print (hash_all [a1; [58]; nonce; bs ":00000001:"; cnonce; bs ":auth:"] a2).

(** A string between quotes. *)
Definition quoted (t : str) : str := [34] ++ t ++ [34].

Definition response_text (user realm nonce cnonce srv value : str) : str :=
  bs "username=" ++ quoted user ++ bs ",realm=" ++ quoted realm ++ bs ",nonce=" ++ quoted nonce ++
  bs ",cnonce=" ++ quoted cnonce ++ bs ",nc=00000001,qop=auth,digest-uri=" ++ quoted (bs "xmpp/" ++ srv) ++
  bs ",response=" ++ value ++ bs ",charset=utf-8".

Definition response_cap (user realm nonce srv : str) : Z :=
  strlen user + strlen realm + strlen nonce + strlen srv + 4 * 8 + 136.

(** The answer to a challenge with a realm and a nonce, base64 coded. *)
Definition sasl_response (s : strm V) (realm nonce : str) : exec (str * strm V) :=
  let cnonce := make_cnonce (rands (nt s)) in
  let n := nt s in
  let s := set_nt s (mk_net (sends n) (sent n) (logs n) (drop CNONCE_LEN (rands n)) (closed n)) in
  let '(md5_ok, s) := alloc s in
  if negb md5_ok then Fault else
  user ← deref (auth_username (sd s));
  pass ← deref (auth_pass (sd s));
  srv ← deref (server (sd s));
  let value := response_value user realm pass nonce cnonce srv in
  let '(resp_ok, s) := alloc s in
  if negb resp_ok then Fault else
  text ← sprintf (response_cap user realm nonce srv) (response_text user realm nonce cnonce srv value);
  let '(code_ok, s) := alloc s in
  coded ← iks_base64_encode code_ok (text ++ [0]) 0;
  Done (c_str coded, s).

Definition iks_sasl_challenge (s : strm V) (challenge : ptr) : exec (strm V) :=
  c ← iks_child (hp s) challenge;
  b ← iks_cdata (hp s) c;
  match b with
  | None => Done s
  | Some b =>
      let '(ok, s) := alloc s in
      m ← iks_base64_decode ok (Some b);
      m ← deref m;
      r ← (if bool_decide (is_Some (strstr (c_str m) (bs "rspauth"))) then
             '(x, h) ← iks_new (hp s) (bs "response"); Done (Some (x, set_hp s h))
           else
             fs ← sasl_fields (server (sd s)) m;
             match fs with
             | None => Done None
             | Some (realm, nonce) =>
                 '(coded, s) ← sasl_response s realm nonce;
                 '(x, h) ← iks_new (hp s) (bs "response");
                 '(_, h) ← iks_insert_cdata h x (Some coded) 0;
                 Done (Some (x, set_hp s h))
             end);
      match r with
      | None => Done s
      | Some (x, s) =>
          '(_, h) ← iks_insert_attrib (hp s) x (bs "xmlns") (Some IKS_NS_XMPP_SASL);
          '(_, s) ← iks_send (set_hp s h) x;
          h ← iks_delete (hp s) x;
          Done (set_hp s h)
      end
  end.

Inductive ikssasltype : Type := IKS_SASL_PLAIN | IKS_SASL_DIGEST_MD5.

(** [sprintf (s, "%c%s%c%s", 0, username, 0, pass)]. *)
Definition plain_text (user pass : str) : str := [0] ++ user ++ [0] ++ pass.

Definition iks_start_sasl (s : strm V) (type : ikssasltype) (username pass : option str) : exec (Z * strm V) :=
  '(x, h) ← iks_new (hp s) (bs "auth");
  '(_, h) ← iks_insert_attrib h x (bs "xmlns") (Some IKS_NS_XMPP_SASL);
  let s := set_hp s h in
  s ← match type with
      | IKS_SASL_PLAIN =>
          let len := iks_strlen username + iks_strlen pass + 2 in
          let '(ok, s) := alloc s in
          '(_, h) ← iks_insert_attrib (hp s) x (bs "mechanism") (Some (bs "PLAIN"));
          if negb ok then Fault else
          u ← deref username; p ← deref pass;
          t ← sprintf (80 + len) (plain_text u p);
          let '(ok, s) := alloc (set_hp s h) in
          coded ← iks_base64_encode ok (t ++ [0]) len;
          '(_, h) ← iks_insert_cdata (hp s) x (Some (c_str coded)) 0;
          Done (set_hp s h)
      | IKS_SASL_DIGEST_MD5 =>
          '(_, h) ← iks_insert_attrib (hp s) x (bs "mechanism") (Some (bs "DIGEST-MD5"));
          let s := set_hp s h in
          Done (set_sd s (set_auth (sd s) username pass))
      end;
  '(_, s) ← iks_send s x;
  h ← iks_delete (hp s) x;
  Done (0, set_hp s h).

(** ** The hooks of the parser *)
Context `{StreamClient V}.

(** [insert_attribs] is the loop of [DomParser.dom_atts]. *)
Definition insert_attribs (h : heap) (x : ptr) (atts : list (str * str)) : exec heap := dom_atts h x atts.

Definition stream_close (s : strm V) (name : str) : exec (ikserror * strm V) :=
  match s_current (sd s) with
  | None => streamHook s IKS_NODE_STOP None
  | Some x =>
      p ← iks_parent (hp s) (Some x);
      match p with
      | Some _ => Done (IKS_OK, set_sd s (set_current (sd s) p))
      | None =>
          let s := set_sd s (set_current (sd s) None) in
          if strcmp name (bs "challenge") =? 0 then s ← iks_sasl_challenge s (Some x); Done (IKS_OK, s)
          else if strcmp name (bs "stream:error") =? 0 then streamHook s IKS_NODE_ERROR (Some x)
          else streamHook s IKS_NODE_NORMAL (Some x)
      end
  end.

Definition stream_tagHook (s : strm V) (name : str) (atts : list (str * str)) (type : ikstagtype) :
    exec (ikserror * strm V) :=
  match type with
  | IKS_CLOSE => stream_close s name
  | _ =>
      let single s := match type with IKS_SINGLE => stream_close s name | _ => Done (IKS_OK, s) end in
      match s_current (sd s) with
      | Some c =>
          '(x, h) ← iks_insert (hp s) (Some c) (Some name);
          h ← insert_attribs h x atts;
          single (set_sd (set_hp s h) (set_current (sd s) x))
      | None =>
          '(x, h) ← iks_new (hp s) name;
          h ← insert_attribs h x atts;
          if strcmp name (bs "stream:stream") =? 0 then streamHook (set_hp s h) IKS_NODE_START x
          else single (set_sd (set_hp s h) (set_current (sd s) x))
      end
  end.

Definition stream_cdataHook (s : strm V) (cdata : list Z) : exec (ikserror * strm V) :=
  match s_current (sd s) with
  | None => Done (IKS_OK, s)
  | Some x =>
      '(_, h) ← iks_insert_cdata (hp s) (Some x) (Some cdata) (strlen cdata);
      Done (IKS_OK, set_hp s h)
  end.

#[export] Instance stream_client : SaxClient (strm V) := {|
  tagHook := Some stream_tagHook;
  cdataHook := Some stream_cdataHook |}.

Definition stream_deleteHook (s : strm V) : exec (strm V) :=
  let n := nt s in
  let s := if trans (sd s) then set_nt s (mk_net (sends n) (sent n) (logs n) (rands n) (closed n ++ [sock (sd s)])) else s in
  h ← iks_delete (hp s) (s_current (sd s));
  Done (set_sd (set_hp s h) (set_trans (set_current (sd s) None) false (sock (sd s)) 0)).

(** The pool, the data and the parser. *)
Definition iks_stream_new (h : heap) (n : net) (v : V) (ns : str) (mem : list bool) : option (iksparser * strm V) :=
  let '(p, h) := iks_stack_new h in
  match p with
  | None => None
  | Some _ => Some (iks_sax_new mem, mk_strm (mk_sd false ns None false None false 0 0 None None) n h v)
  end.

Definition iks_set_log_hook (s : strm V) : strm V :=
  let d := sd s in
  set_sd s (mk_sd (trans d) (name_space d) (server d) true (s_current d) (have_buf d) (sock d) (flags d) (auth_username d) (auth_pass d)).

(** [rs] are the results of the next calls of [trans->recv]; when there is none
    left nothing comes. *)
Fixpoint iks_recv (p : iksparser) (s : strm V) (rs : list (Z * list Z)) : exec (Z * iksparser * strm V * list (Z * list Z)) :=
  if negb (trans (sd s)) then Fault else
  match rs with
  | [] => Done (0, p, s, [])
  | (len, b) :: rs' =>
      if len <? 0 then Done (IKS_NET_RWERR, p, s, rs') else
      if len =? 0 then Done (0, p, s, rs') else
      if NET_IO_BUF_SIZE - 1 <? len then Fault else
      let n := nt s in
      let s := if logHook (sd s) then set_nt s (mk_net (sends n) (sent n) (logs n ++ [(true, b)]) (rands n) (closed n)) else s in
      '(ret, p, s) ← iks_parse p s (Some (b ++ [0])) len;
      if negb (err_val ret =? 0) then Done (err_val ret, p, s, rs') else
      if negb (trans (sd s)) then Done (IKS_NET_NOCONN, p, s, rs') else
      iks_recv p s rs'
  end.

(** [iks_disconnect]: the parser is reset and its [deleteHook] called. *)
Definition iks_disconnect (p : iksparser) (s : strm V) : exec (iksparser * strm V) :=
  s ← stream_deleteHook s;
  Done (iks_parser_reset None p s).
End stream.
