(* ===== verification/StreamTheorems.v ===== *)
(** * Theorems about the stream

    The blocks that the headers and the SASL answer are printed into are large
    enough, the answer to a DIGEST-MD5 challenge is the one of RFC 2831, and
    the two fields of a challenge are found; and the search that never ends. *)

From S2P Require Import Prelude XmlText Blocks Base64 Md5 Sax Dom DomPrint DomBuild DomParser Jabber Stream.

Local Open Scope Z_scope.

Lemma sprintf_fits cap t : strlen t < cap → sprintf cap t = Done t.
Proof. intros H. unfold sprintf. by rewrite (proj2 (Z.ltb_lt _ _)). Qed.

(** ** The stream header *)

Definition header (ns to : str) : str := header_start ++ ns ++ bs "' to='" ++ to ++ bs "' version='1.0'>".

Lemma header_length ns to : strlen (header ns to) = 91 + strlen ns + 6 + strlen to + 16.
Proof.
  unfold header. rewrite !strlen_app. change (strlen header_start) with 91.
  change (strlen (bs "' to='")) with 6. change (strlen (bs "' version='1.0'>")) with 16. lia.
Qed.

(** The stream header is printed into a block of exactly its size,
    for every namespace and server name; when the transport takes it, it is
    what was sent, and the server name is remembered. *)
Theorem send_header_fits {V} (s : strm V) (to : str) :
  trans (sd s) = true → hmem (hp s) = [] → sends (nt s) = [] →
  ∃ s', iks_send_header s (Some to) = Done (0, s') ∧
    sent (nt s') = sent (nt s) ++ [header (name_space (sd s)) to] ∧ server (sd s') = Some to ∧ hp s' = hp s.
Proof.
  intros Ht Hm Hs. unfold iks_send_header, alloc, take_mem. cbn [deref mbind exec_bind]. rewrite Hm. cbn [negb].
  replace (set_hp s (hp s)) with s by (by destruct s).
  rewrite sprintf_fits by (change (strlen (header (name_space (sd s)) to) < 91 + strlen (name_space (sd s)) + 6 + strlen to + 16 + 1);
    rewrite header_length; lia).
  cbn [mbind exec_bind]. unfold iks_send_raw. rewrite Ht. cbn [negb deref mbind exec_bind]. rewrite Hs.
  eexists. split; [reflexivity|]. by destruct (logHook (sd s)).
Qed.

Definition demo_stream : strm unit :=
  mk_strm (mk_sd true (bs "jabber:client") None false None true 3 0 None None) (mk_net [] [] [] [] []) (mk_heap ∅ 0 0 []) tt.

Lemma send_header_fits_witness :
  ∃ s', iks_send_header demo_stream (Some (bs "example.org")) = Done (0, s') ∧ server (sd s') = Some (bs "example.org").
Proof.
  destruct (send_header_fits demo_stream (bs "example.org")) as (s' & E & _ & Hs & _); [reflexivity..|].
  exists s'. exact (conj E Hs).
Defined.

(** ** The answer to a challenge *)

Lemma hex_length l : length (concat (map hex_byte l)) = (2 * length l)%nat.
Proof. induction l as [|b l IH]; [done|]. cbn. rewrite IH. lia. Qed.

Lemma make_cnonce_length l : strlen (make_cnonce l) = 32.
Proof.
  unfold make_cnonce, strlen.
  assert (Hl : length (take CNONCE_LEN (l ++ replicate CNONCE_LEN 0)) = 4%nat).
  { rewrite length_take, length_app, length_replicate. unfold CNONCE_LEN. lia. }
  destruct (take CNONCE_LEN _) as [|a [|b [|c [|d [|? ?]]]]]; try done.
Qed.

(** MD5 as RFC 2831 uses it: the 16 bytes, and their hexadecimal digits. *)
Definition H (msg : list Z) : list Z := concat (map (le_bytes 4) (md5_ref msg)).
Definition HEX (l : list Z) : list Z := concat (map hex_byte l).

Definition rfc2831 (user realm pass nonce cnonce uri : str) : str :=
  let A1 := H (user ++ [58] ++ realm ++ [58] ++ pass) ++ [58] ++ nonce ++ [58] ++ cnonce in
  let A2 := bs "AUTHENTICATE:" ++ uri in
  HEX (H (HEX (H A1) ++ [58] ++ nonce ++ [58] ++ bs "00000001" ++ [58] ++ cnonce ++ [58] ++ bs "auth" ++ [58] ++ HEX (H A2))).

Lemma PUT_le n : PUT_UINT32 n = le_bytes 4 n.
Proof.
  unfold PUT_UINT32, u8. cbn [le_bytes]. rewrite !Z.shiftr_div_pow2, !Z.div_div by lia. reflexivity.
Qed.

Lemma digest_state m : iks_md5_digest m = concat (map (le_bytes 4) (state m)).
Proof. unfold iks_md5_digest. f_equal. apply map_ext. apply PUT_le. Qed.

(** A message that MD5 gets right. *)
Definition hashable (p : list Z) : Prop := Forall is_byte p ∧ strlen p < 2 ^ 61 ∧ strlen p mod 64 ≠ 0.

Lemma hash_all_digest pieces final :
  hashable (concat pieces ++ final) → iks_md5_digest (hash_all pieces final) = H (concat pieces ++ final).
Proof.
  intros (Hb & Hl & Hm). rewrite digest_state. unfold H, hash_all. rewrite md5_pieces; [done| | |done|by right].
  - apply Forall_app in Hb as [Hb _]. clear -Hb. induction pieces as [|p ps IH]; [constructor|].
    cbn in Hb. apply Forall_app in Hb as [? ?]. constructor; auto.
  - by apply Forall_app in Hb as [_ Hb].
Qed.

Lemma hash_all_print pieces final :
  hashable (concat pieces ++ final) → iks_md5_print (hash_all pieces final) = HEX (H (concat pieces ++ final)).
Proof. intros Hh. unfold iks_md5_print. by rewrite hash_all_digest. Qed.

(** C18 (equivalence): the answer to a DIGEST-MD5 challenge is the response value
    of RFC 2831, computed from user, realm, password, both nonces and the
    server name, whenever none of the four hashed strings has a length that is
    a multiple of 64. *)
Theorem response_matches_rfc2831 (user realm pass nonce cnonce srv : str) :
  hashable (user ++ [58] ++ realm ++ [58] ++ pass) →
  hashable (H (user ++ [58] ++ realm ++ [58] ++ pass) ++ [58] ++ nonce ++ [58] ++ cnonce) →
  hashable (bs "AUTHENTICATE:xmpp/" ++ srv) →
  hashable (HEX (H (H (user ++ [58] ++ realm ++ [58] ++ pass) ++ [58] ++ nonce ++ [58] ++ cnonce)) ++ [58] ++ nonce ++
            bs ":00000001:" ++ cnonce ++ bs ":auth:" ++ HEX (H (bs "AUTHENTICATE:xmpp/" ++ srv))) →
  response_value user realm pass nonce cnonce srv = rfc2831 user realm pass nonce cnonce (bs "xmpp/" ++ srv).
Proof.
  intros H1 H2 H3 H4. unfold response_value, rfc2831.
  rewrite (hash_all_digest [user; [58]; realm; [58]] pass) by (cbn [concat]; rewrite <-!app_assoc, ?app_nil_l; exact H1).
  cbn [concat]. rewrite <-!app_assoc. cbn [app]. set (h1 := H (user ++ _)) in *.
  rewrite (hash_all_print [h1; [58]; nonce; [58]] cnonce) by (cbn [concat]; rewrite <-!app_assoc; exact H2).
  rewrite (hash_all_print [bs "AUTHENTICATE:xmpp/"] srv) by (cbn [concat]; rewrite <-!app_assoc; exact H3).
  cbn [concat]. rewrite <-!app_assoc. cbn [app]. set (a1 := HEX _) in *.
  change (bs "AUTHENTICATE:" ++ bs "xmpp/" ++ srv) with (bs "AUTHENTICATE:xmpp/" ++ srv).
  set (a2 := HEX (H (bs "AUTHENTICATE:xmpp/" ++ srv))) in *.
  rewrite hash_all_print by (cbn [concat]; rewrite <-!app_assoc; exact H4).
  do 2 f_equal. cbn [concat]. rewrite <-!app_assoc. reflexivity.
Qed.

Lemma response_matches_rfc2831_witness :
  response_value (bs "chris") (bs "elwood.innosoft.com") (bs "secret") (bs "OA6MG9tEQGm2hh") (bs "OA6MHXh6VqTrRk") (bs "elwood.innosoft.com")
  = rfc2831 (bs "chris") (bs "elwood.innosoft.com") (bs "secret") (bs "OA6MG9tEQGm2hh") (bs "OA6MHXh6VqTrRk") (bs "xmpp/elwood.innosoft.com").
Proof.
  apply (response_matches_rfc2831 (bs "chris") (bs "elwood.innosoft.com") (bs "secret") (bs "OA6MG9tEQGm2hh")
    (bs "OA6MHXh6VqTrRk") (bs "elwood.innosoft.com"));
    (split; [apply (bool_decide_unpack _); vm_compute; done|]; split; [vm_compute; reflexivity|vm_compute; discriminate]).
Defined.

(** ** The block of the answer *)

Lemma compute_state_length m : length (state (iks_md5_compute m)) = 4%nat.
Proof. unfold iks_md5_compute. cbn [state set_state]. by rewrite length_map, length_seq. Qed.

Lemma print_length pieces final : strlen (iks_md5_print (hash_all pieces final)) = 32.
Proof.
  unfold iks_md5_print, hash_all, iks_md5_hash, md5_finish, strlen.
  rewrite hex_length, digest_state. set (m := put_total _). clearbody m.
  pose proof (compute_state_length m) as Hl.
  destruct (state (iks_md5_compute m)) as [|a [|b [|c [|d [|? ?]]]]]; try done.
Qed.

Lemma response_text_length user realm nonce cnonce srv value :
  strlen (response_text user realm nonce cnonce srv value)
  = strlen user + strlen realm + strlen nonce + strlen cnonce + strlen srv + strlen value + 103.
Proof.
  unfold response_text, quoted. rewrite !strlen_app.
  repeat match goal with |- context [strlen (bs ?x)] => let n := eval vm_compute in (strlen (bs x)) in change (strlen (bs x)) with n end.
  change (strlen [34]) with 1. lia.
Qed.

(** The answer to a challenge is printed into a block that is just
    large enough: for every user, realm, nonce, password and server name the
    text with its terminator fills the block to the last byte, so nothing is
    written behind it. *)
Theorem response_fits (user realm pass nonce srv : str) (rs : list Z) :
  strlen (response_text user realm nonce (make_cnonce rs) srv (response_value user realm pass nonce (make_cnonce rs) srv)) + 1
  = response_cap user realm nonce srv.
Proof. rewrite response_text_length, make_cnonce_length. unfold response_value, response_cap. rewrite print_length. lia. Qed.

(** ** The fields of a challenge *)

Lemma scan_found t c r off : Forall (λ b, b ≠ 0 ∧ b ≠ c) t → scan_chr (t ++ c :: r) off c = Done (Some (off + strlen t)).
Proof.
  intros Ht. revert off. induction Ht as [|b t [Hz Hc] _ IH]; intros off; simpl.
  - rewrite Z.eqb_refl. change (strlen []) with 0. by rewrite Z.add_0_r.
  - rewrite !(proj2 (Z.eqb_neq _ _)) by done. rewrite IH. do 2 f_equal. unfold strlen. cbn [length]. lia.
Qed.

Lemma strchr_found pre t c r : Forall (λ b, b ≠ 0 ∧ b ≠ c) t →
  strchr_at (pre ++ t ++ c :: r) (strlen pre) c = Done (Some (strlen pre + strlen t)).
Proof.
  intros Ht. unfold strchr_at. rewrite (proj2 (Z.leb_le _ _)) by (rewrite !strlen_app; unfold strlen; lia).
  unfold strlen at 1. rewrite Nat2Z.id, drop_app_length. by apply scan_found.
Qed.

Lemma str_at_found pre t r : Forall (λ b, b ≠ 0) t → str_at (pre ++ t ++ 0 :: r) (strlen pre) = Done t.
Proof.
  intros Ht. unfold str_at. rewrite strchr_found by (eapply Forall_impl; [exact Ht|done]).
  cbn [mbind exec_bind deref]. rewrite mread_done by (rewrite ?strlen_app; unfold strlen; cbn [length]; lia).
  unfold strlen. rewrite Nat2Z.id, drop_app_length. replace (Z.to_nat _) with (length t) by lia. by rewrite take_app_length.
Qed.

(** The quote that ends a field, when the byte that is probed is no backslash. *)
Lemma quote_found fuel m pre t r probe p :
  m = pre ++ t ++ 34 :: r → Forall (λ b, b ≠ 0 ∧ b ≠ 34) t → probe (Some (strlen pre + strlen t)) = Done p → p ≠ 92 →
  quote_loop (S fuel) m (strlen pre) probe = Some (Done (Some (strlen pre + strlen t))).
Proof. intros -> Ht Hp Hn. cbn. rewrite strchr_found, Hp by done. by rewrite (proj2 (Z.eqb_neq _ _)). Qed.

(** The last byte before a position. *)
Lemma load_last (pre t r : list Z) b : load (pre ++ b :: t ++ r) (strlen (pre ++ b :: t) - 1) = Done (List.last (b :: t) 0).
Proof.
  destruct (exists_last (l := b :: t) ltac:(done)) as (l & x & E). rewrite E, last_last, app_comm_cons, E.
  rewrite <-app_assoc, app_assoc. apply load_app. unfold strlen. rewrite !length_app. cbn. lia.
Qed.

(** Both fields are cut off in the buffer and read. *)
Lemma cut_fields m A realm C nonce rest offn :
  m = A ++ realm ++ 34 :: C ++ nonce ++ 34 :: rest → offn = strlen (A ++ realm ++ 34 :: C) →
  Forall (λ b, b ≠ 0) realm → Forall (λ b, b ≠ 0) nonce →
  (m1 ← store m (strlen A + strlen realm) 0; m2 ← store m1 (offn + strlen nonce) 0;
   r ← str_at m2 (strlen A); n ← str_at m2 offn; Done (Some (r, n))) = Done (Some (realm, nonce)).
Proof.
  intros -> -> Fr Fn. rewrite (app_assoc A realm (34 :: C ++ _)), store_app by (rewrite length_app; unfold strlen; lia). cbn [mbind exec_bind].
  replace ((A ++ realm) ++ 0 :: C ++ nonce ++ 34 :: rest) with ((((A ++ realm) ++ 0 :: C) ++ nonce) ++ 34 :: rest)
    by (rewrite <-!app_assoc, <-app_comm_cons; reflexivity).
  rewrite store_app by (rewrite !length_app, !strlen_app; unfold strlen; cbn [length]; lia). cbn [mbind exec_bind].
  replace ((((A ++ realm) ++ 0 :: C) ++ nonce) ++ 0 :: rest) with (A ++ realm ++ 0 :: C ++ nonce ++ 0 :: rest)
    by (rewrite <-!app_assoc, <-app_comm_cons; reflexivity).
  rewrite str_at_found by done. cbn [mbind exec_bind].
  replace (strlen (A ++ realm ++ 34 :: C)) with (strlen (A ++ realm ++ 0 :: C))
    by (rewrite !strlen_app; unfold strlen; reflexivity).
  replace (A ++ realm ++ 0 :: C ++ nonce ++ 0 :: rest) with ((A ++ realm ++ 0 :: C) ++ nonce ++ 0 :: rest)
    by (rewrite <-!app_assoc, <-app_comm_cons; reflexivity).
  by rewrite str_at_found.
Qed.

(** A challenge whose first field is the realm. *)
Definition challenge (pre realm mid nonce post : str) : list Z :=
  pre ++ bs "realm=" ++ quoted realm ++ mid ++ bs "nonce=" ++ quoted nonce ++ post ++ [0].

(** Of a challenge that holds a quoted realm and a quoted nonce,
    without quotes in them and with no backslash at the end of the realm, the
    code gets the realm and the nonce, and reads and writes only the challenge. *)
Theorem sasl_fields_found (srv : option str) (pre realm mid nonce post : str) :
  let m := challenge pre realm mid nonce post in
  strstr (c_str m) (bs "realm") = Some (length pre) →
  strstr (c_str m) (bs "nonce") = Some (length (pre ++ bs "realm=" ++ quoted realm ++ mid)) →
  Forall (λ b, b ≠ 0 ∧ b ≠ 34) realm → Forall (λ b, b ≠ 0 ∧ b ≠ 34) nonce → List.last realm 0 ≠ 92 →
  sasl_fields srv m = Done (Some (realm, nonce)).
Proof.
  intros m Hr Hn Fr Fn Hl. unfold sasl_fields. rewrite Hr, Hn.
  set (A := pre ++ bs "realm=" ++ [34]). set (B' := A ++ realm ++ 34 :: mid ++ bs "nonce="). set (B := B' ++ [34]).
  assert (Em : m = A ++ realm ++ 34 :: mid ++ bs "nonce=" ++ 34 :: nonce ++ 34 :: post ++ [0]).
  { unfold m, challenge, quoted, A. by rewrite <-!app_assoc. }
  assert (Em2 : m = B ++ nonce ++ 34 :: post ++ [0]).
  { rewrite Em. unfold B, B'. by rewrite <-!app_assoc, <-app_comm_cons, <-!app_assoc. }
  replace (Z.of_nat (length pre) + 7) with (strlen A) by (unfold A, strlen; rewrite !length_app; cbn; lia).
  replace (Z.of_nat (length (pre ++ bs "realm=" ++ quoted realm ++ mid)) + 7) with (strlen B)
    by (unfold B, B', A, quoted, strlen; repeat (rewrite !length_app; cbn); lia).
  assert (Hp : load m (strlen A + strlen realm - 1) = Done (List.last (34 :: realm) 0)).
  { rewrite <-strlen_app, Em. unfold A. rewrite <-!app_assoc, !(app_assoc pre). apply (load_last (pre ++ bs "realm=") realm). }
  assert (Hq : load m (strlen B - 1) = Done 34).
  { rewrite Em2. unfold B. rewrite <-app_assoc. apply load_app. rewrite strlen_app. unfold strlen. cbn. lia. }
  rewrite (quote_found 0 m A realm _ _ _ Em Fr Hp) by (destruct realm; [done|exact Hl]).
  cbn [ended mbind exec_bind deref]. rewrite (quote_found 0 m B nonce _ _ _ Em2 Fn Hq) by done.
  cbn [ended mbind exec_bind deref].
  apply (cut_fields m A realm (mid ++ bs "nonce=" ++ [34]) nonce (post ++ [0])).
  - rewrite Em. by rewrite <-!app_assoc.
  - unfold B, B'. by rewrite <-!app_assoc, <-app_comm_cons, <-!app_assoc.
  - eapply Forall_impl; [exact Fr|]. by intros b [? _].
  - eapply Forall_impl; [exact Fn|]. by intros b [? _].
Qed.

Lemma sasl_fields_found_witness :
  sasl_fields None (challenge [] (bs "elwood") (bs ",") (bs "OA6MG9") (bs ",qop=auth")) = Done (Some (bs "elwood", bs "OA6MG9")).
Proof.
  apply (sasl_fields_found None [] (bs "elwood") (bs ",") (bs "OA6MG9") (bs ",qop=auth"));
    first [reflexivity | apply (bool_decide_unpack _); vm_compute; done | vm_compute; discriminate].
Defined.

(** A realm that ends in a backslash keeps the client in the
    search for its closing quote for ever: the loop starts from the same place
    in every turn, so no number of turns is enough. *)
Theorem realm_escape_hangs (fuel : nat) (pre t rest : list Z) :
  Forall (λ b, b ≠ 0 ∧ b ≠ 34) t →
  quote_loop fuel (pre ++ (t ++ [92]) ++ 34 :: rest) (strlen pre)
    (λ e, match e with Some e => load (pre ++ (t ++ [92]) ++ 34 :: rest) (e - 1) | None => Fault end) = None.
Proof.
  intros Ht. induction fuel as [|fuel IH]; [done|]. cbn [quote_loop].
  rewrite strchr_found by (apply Forall_app; split; [done|repeat constructor; lia]).
  rewrite (load_at _ _ (length (pre ++ t)) 92); [exact IH|..].
  - rewrite strlen_app. unfold strlen. rewrite length_app. cbn. lia.
  - rewrite <-!app_assoc, (app_assoc pre). by apply list_lookup_middle.
Qed.

Lemma realm_escape_hangs_witness :
  quote_loop 100 (bs "realm=" ++ [34] ++ (bs "DOM" ++ [92]) ++ 34 :: [0]) 7
    (λ e, match e with Some e => load (bs "realm=" ++ [34] ++ (bs "DOM" ++ [92]) ++ 34 :: [0]) (e - 1) | None => Fault end) = None.
Proof. apply (realm_escape_hangs 100 (bs "realm=" ++ [34]) (bs "DOM") [0]). apply (bool_decide_unpack _). vm_compute. done. Defined.

(** ** Sending a stanza *)

Lemma tcells_length pl par prv nxt a : length (tcells pl par prv nxt a) = S (length (below pl a)).
Proof. done. Qed.

Lemma cost_cells pl a : (cost (erase a) <= 2 * S (length (below pl a)))%nat.
Proof.
  induction a as [x nm ats cs Hcs|x d] using atree_nested_ind; [|cbn; lia].
  cbn [erase cost]. rewrite below_tag, length_app.
  enough (∀ p, (list_sum (map cost (map erase cs)) <= 2 * length (lcells pl x p cs None))%nat) as Hl by (specialize (Hl None); lia).
  induction Hcs as [|a cs Ha _ IH]; intros p; [done|]. cbn [map list_sum foldr lcells]. rewrite length_app, tcells_length.
  specialize (IH (Some (addr a))). unfold list_sum in IH. lia.
Qed.

(** What the stream looks like when a text was sent. *)
Definition said {V} (s : strm V) (t : str) : strm V :=
  let n := nt s in
  set_nt s (mk_net [] (sent n ++ [t]) (if logHook (sd s) then logs n ++ [(false, t)] else logs n) (rands n) (closed n)).

Lemma send_raw_done {V} (s : strm V) t : trans (sd s) = true → sends (nt s) = [] → iks_send_raw s (Some t) = Done (0, said s t).
Proof.
  intros Ht Hs. unfold iks_send_raw. rewrite Ht. cbn [negb deref mbind exec_bind]. rewrite Hs. cbn.
  unfold said. by destruct (logHook (sd s)).
Qed.

(** A tree in the heap is sent as its text: the serialiser gets enough turns. *)
Lemma send_tree {V} (s : strm V) pl a R nm ats cs :
  owns (hp s) (tcells pl None None None a ++ R) → erase a = TTag nm ats cs →
  trans (sd s) = true → sends (nt s) = [] →
  iks_send s (Some (addr a)) = Done (0, said s (print (erase a))).
Proof.
  intros Ho Ea Ht Hs. pose proof (owns_rep _ _ _ _ _ _ _ Ho) as Hr. unfold iks_send, iks_stack, get.
  rewrite (rep_node _ _ _ _ Hr). cbn [mbind exec_bind]. rewrite Ea in Hr.
  assert (Hf : (cost (TTag nm ats cs) <= walk_fuel (hp s))%nat).
  { rewrite <-Ea. unfold walk_fuel. pose proof (cost_cells pl a). pose proof (owns_length _ _ Ho) as Hl.
    rewrite length_app, tcells_length in Hl. lia. }
  rewrite (string_spec _ _ _ _ _ _ _ _ Hr Hf). unfold take_mem. destruct Ho as [[-> _] _]. cbn [mbind exec_bind].
  rewrite Ea. replace (set_hp s (hp s)) with s by (by destruct s). by apply send_raw_done.
Qed.
