(* ===== verification/Invariants.v ===== *)
(** * Invariants of clients

    A property of a client's state that its hooks keep is kept by everything
    that calls the hooks: by [iks_parse], by [iks_filter_packet], and by
    [iks_recv], whatever bytes come.  The rules below do the bookkeeping: [post]
    says that a run that does not fault ends in a state with a property. *)

From S2P Require Import Prelude XmlText Sax Dom DomParser Jabber Filter Stream.

Local Open Scope Z_scope.

Definition post {A} (m : exec A) (Q : A → Prop) : Prop := match m with Done a => Q a | Fault => True end.

Lemma post_bind {A B} (m : exec A) (f : A → exec B) (P : A → Prop) (Q : B → Prop) :
  post m P → (∀ a, P a → post (f a) Q) → post (m ≫= f) Q.
Proof. destruct m; cbn; auto. Qed.

(** A step whose result does not matter. *)
Lemma post_skip {A B} (m : exec A) (f : A → exec B) (Q : B → Prop) : (∀ a, post (f a) Q) → post (m ≫= f) Q.
Proof. destruct m; cbn; auto. Qed.

Lemma post_weaken {A} (m : exec A) (P Q : A → Prop) : post m P → (∀ a, P a → Q a) → post m Q.
Proof. destruct m; cbn; auto. Qed.

Lemma post_done {A} (m : exec A) (Q : A → Prop) a : post m Q → m = Done a → Q a.
Proof. by intros H ->. Qed.

(** Case analysis of a run, with [keep] tried on every step. *)
Ltac post_cases keep :=
  repeat first
    [ done
    | keep
    | apply post_skip; intros ?
    | progress cbn beta iota zeta
    | match goal with |- post (match ?x with _ => _ end) _ => destruct x end
    | match goal with |- context [match ?x with _ => _ end] => destruct x end ].

(** ** The parser *)

Section sax.
Context {U : Type} `{SaxClient U} (P : U → Prop).

Definition keeps_tag : Prop := ∀ f, tagHook = Some f → ∀ u nm ats t, P u → post (f u nm ats t) (λ r, P r.2).
Definition keeps_cdata : Prop := ∀ f, cdataHook = Some f → ∀ u b, P u → post (f u b) (λ r, P r.2).

Hypothesis Htag : keeps_tag.
Hypothesis Hcdata : keeps_cdata.

Definition Pl (r : loc * verdict) : Prop := P (user r.1).

Lemma call_cdata_keeps l b k : P (user l) → (∀ l, P (user l) → post (k l) Pl) → post (call_cdata l b k) Pl.
Proof.
  intros Hl Hk. unfold call_cdata. destruct cdataHook as [f|] eqn:E; [|auto].
  eapply post_bind; [by apply Hcdata|]. intros [err u] Hu. case_decide; [by apply Hk|done].
Qed.

Lemma flush_cdata_keeps buf l k : P (user l) → (∀ l, P (user l) → post (k l) Pl) → post (flush_cdata buf l k) Pl.
Proof. intros. unfold flush_cdata. case_match; [|auto]. apply post_skip. intros. by apply call_cdata_keeps. Qed.

Lemma push_string_keeps buf l k : P (user l) → (∀ l, P (user l) → post (k l) Pl) → post (push_string buf l k) Pl.
Proof.
  intros Hl Hk. unfold push_string. apply post_skip. intros [ok p]. destruct ok; cbn [negb]; [|done].
  apply post_skip. intros [ok p']. destruct ok; cbn [negb]; [by apply Hk|done].
Qed.

Lemma tag_end_keeps l c : P (user l) → post (case_tag_end l c) Pl.
Proof.
  intros Hl. unfold case_tag_end. case_match; [done|]. destruct tagHook as [f|] eqn:E; [|done].
  apply post_skip. intros a. eapply post_bind; [by apply Htag|]. intros [err u] Hu. by case_decide.
Qed.

Lemma unicode_keeps l c r : P (user l) → sax_unicode l c = Some r → Pl r.
Proof. intros Hl. unfold sax_unicode. intros E. repeat case_match; simplify_eq; done. Qed.

Ltac case_keeps :=
  post_cases ltac:(first [apply flush_cdata_keeps | apply push_string_keeps | apply call_cdata_keeps]; [done|]; intros ? ?).

Lemma switch_keeps buf l c : P (user l) → post (sax_switch buf l c) Pl.
Proof.
  intros Hl. unfold sax_switch.
  destruct (context (prs l)); try (by apply tag_end_keeps).
  all: unfold case_cdata, case_tag_start, case_tag, case_attribute, case_attribute_1, case_attribute_2, case_value,
    case_value_in, case_whitespace, case_entity, case_comment, case_markup, case_markup_1, case_sect, case_sect_c,
    case_sect_e, case_sect_e2, case_pi, expect; case_keeps.
Qed.

Lemma byte_keeps n : ∀ buf l c, P (user l) → post (sax_byte n buf l c) (λ r, P (user r.1)).
Proof.
  induction n as [|n IH]; intros buf l c Hl; [done|]. cbn [sax_byte].
  apply (post_bind _ _ Pl).
  - unfold sax_turn. destruct (sax_unicode l c) as [r|] eqn:E; [by apply (unicode_keeps l c)|by apply switch_keeps].
  - intros [l' v] Hl'. destruct v; [done|by apply IH|done].
Qed.

Lemma loop_keeps buf rest : ∀ l, P (user l) → post (sax_loop buf l rest) (λ r, P (user r.1)).
Proof.
  induction rest as [|c rest IH]; intros l Hl; [done|]. cbn [sax_loop].
  eapply post_bind; [by apply byte_keeps|]. intros [l' [e|]] Hl'; [done|by apply IH].
Qed.

Lemma parse_keeps p u data len : P u → post (iks_parse p u data len) (λ r, P r.2).
Proof.
  intros Hu. unfold iks_parse. destruct data as [d|]; [|done]. apply post_skip. intros b. unfold sax_core.
  eapply post_bind; [by apply loop_keeps|]. intros [l [e|]] Hl; [done|]. unfold sax_rest.
  apply post_skip. intros [ok p']. destruct ok; cbn [negb]; [|done]. case_match; [|done].
  destruct cdataHook as [f|] eqn:E; [|done]. apply post_skip. intros b'.
  eapply post_bind; [by apply Hcdata|]. by intros [err u'] Hu'.
Qed.
End sax.

(** ** The filter *)

Section filter.
Context {U : Type} `{FilterClient U} (P : U → Prop).
Hypothesis Hhook : ∀ hk ud pak u, P u → post (call_hook hk ud pak u) (λ r, P r.2).

Lemma dispatch_keeps pak fuel : ∀ f mr u, P u → post (dispatch fuel f pak mr u) (λ r, P r.2).
Proof.
  induction fuel as [|fuel IH]; intros f [x|] u Hu; try done. cbn [dispatch].
  apply post_skip. intros r. eapply post_bind; [by apply Hhook|]. intros [ret u'] Hu'. case_decide; [done|].
  do 2 (apply post_skip; intros ?). by apply IH.
Qed.

Lemma filter_packet_keeps f pak u : P u → post (iks_filter_packet f pak u) (λ r, P r.2).
Proof. intros Hu. unfold iks_filter_packet. apply post_skip. intros [mr f']. by apply dispatch_keeps. Qed.
End filter.

(** ** The stream

    Nothing in the stream touches the state of its client but the client's own
    function. *)

Section stream.
Context {V : Type} (P : V → Prop).

Lemma send_raw_keeps (s : strm V) t : P (client s) → post (iks_send_raw s t) (λ r, P (client r.2)).
Proof. intros Hs. unfold iks_send_raw. post_cases fail. Qed.

Lemma send_keeps (s : strm V) x : P (client s) → post (iks_send s x) (λ r, P (client r.2)).
Proof. intros Hs. unfold iks_send. do 2 (apply post_skip; intros ?). case_match. by apply send_raw_keeps. Qed.

Lemma send_header_keeps (s : strm V) to : P (client s) → post (iks_send_header s to) (λ r, P (client r.2)).
Proof.
  intros Hs. unfold iks_send_header, alloc. apply post_skip; intros t. destruct (take_mem (hp s)) as [[] h]; [|done].
  cbn [negb]. apply post_skip; intros msg. eapply post_bind; [by apply send_raw_keeps|].
  intros [ret s'] Hs'. post_cases fail.
Qed.

Lemma start_sasl_keeps (s : strm V) ty u p : P (client s) → post (iks_start_sasl s ty u p) (λ r, P (client r.2)).
Proof.
  intros Hs. unfold iks_start_sasl. apply post_skip; intros [x h]. apply post_skip; intros [? h1].
  apply (post_bind _ _ (λ s' : strm V, P (client s'))).
  - destruct ty; unfold alloc.
    + destruct (take_mem _) as [ok h2]. apply post_skip; intros [? h3]. destruct ok; cbn [negb]; [|done].
      do 3 (apply post_skip; intros ?). destruct (take_mem _) as [ok h4]. do 2 (apply post_skip; intros ?). by case_match.
    + apply post_skip; intros [? h2]. done.
  - intros s' Hs'. eapply post_bind; [by apply send_keeps|]. intros [? s2] Hs2. by apply post_skip.
Qed.

Lemma sasl_response_keeps (s : strm V) realm nonce : P (client s) → post (sasl_response s realm nonce) (λ r, P (client r.2)).
Proof.
  intros Hs. unfold sasl_response, alloc. destruct (take_mem _) as [[] h]; cbn [negb]; [|done].
  do 3 (apply post_skip; intros ?). destruct (take_mem _) as [[] h1]; cbn [negb]; [|done].
  apply post_skip; intros ?. destruct (take_mem _) as [? h2]. by apply post_skip.
Qed.

Lemma challenge_keeps (s : strm V) x : P (client s) → post (iks_sasl_challenge s x) (λ s', P (client s')).
Proof.
  intros Hs. unfold iks_sasl_challenge. do 2 (apply post_skip; intros ?). case_match; [|done].
  unfold alloc. destruct (take_mem _) as [ok h]. do 2 (apply post_skip; intros ?).
  apply (post_bind _ _ (λ r, match r with Some (_, s') => P (client s') | None => True end)).
  - case_match; [apply post_skip; intros [? ?]; done|]. apply post_skip; intros [[realm nonce]|]; [|done].
    eapply post_bind; [by apply sasl_response_keeps|]. intros [coded s'] Hs'. do 2 (apply post_skip; intros [? ?]). done.
  - intros [[y s']|] Hs'; [|done]. apply post_skip; intros [? ?]. eapply post_bind; [by apply send_keeps|].
    intros [? s2] Hs2. by apply post_skip.
Qed.

Context `{StreamClient V}.
Hypothesis Hhook : ∀ s ty x, P (client s) → post (streamHook s ty x) (λ r, P (client r.2)).

Lemma close_keeps (s : strm V) name : P (client s) → post (stream_close s name) (λ r, P (client r.2)).
Proof.
  intros Hs. unfold stream_close. case_match; [|by apply Hhook]. apply post_skip; intros [q|]; [done|].
  case_match; [|by case_match; apply Hhook]. eapply post_bind; [by apply challenge_keeps|]. done.
Qed.

Lemma tagHook_keeps (s : strm V) name ats ty : P (client s) → post (stream_tagHook s name ats ty) (λ r, P (client r.2)).
Proof.
  intros Hs. unfold stream_tagHook. destruct ty; [|by apply close_keeps|];
    (case_match; apply post_skip; intros [x h]; apply post_skip; intros h';
     [first [done|by apply close_keeps]|case_match; [by apply Hhook|first [done|by apply close_keeps]]]).
Qed.

Lemma recv_keeps rs : ∀ p s, P (client s) →
  post (iks_recv p s rs) (λ '(_, _, s', rs'), P (client s') ∧ (length rs' < length rs ∨ rs' = [] ∧ rs = [] ∧ client s' = client s)%nat).
Proof.
  induction rs as [|[len b] rs IH]; intros p s Hs; cbn [iks_recv]; (case_match; [done|]).
  - cbn. auto.
  - case_match; [cbn; auto with lia|]. case_match; [cbn; auto with lia|]. case_match; [done|].
    eapply post_bind.
    + apply (parse_keeps (λ s, P (client s))).
      * intros f E. injection E as <-. intros. by apply tagHook_keeps.
      * intros f E. injection E as <-. intros u c Hu. unfold stream_cdataHook. case_match; [|done]. by apply post_skip; intros [? ?].
      * by case_match.
    + intros [[ret p'] s'] Hs'. cbn [snd] in Hs'. case_match; [cbn; auto with lia|]. case_match; [cbn; auto with lia|].
      eapply post_weaken; [by apply IH|]. intros [[[e p2] s2] rs2] [HP Hl]. split; [done|]. left. cbn. destruct Hl as [?|(-> & _)]; cbn; lia.
Qed.
End stream.
