(* ===== verification/JabberMain.v ===== *)
(** * The log client

    [src/sysapps/apps/cgi2/app/jabberlog/jabber_main.c]: the program that logs
    in to a Jabber server and forwards every line of the camera's log to one
    recipient.  [on_stream] is the function the stream calls, with the stream as
    its first argument; it drives authentication and hands the other stanzas to
    the packet filter, whose three rules call [on_result], [on_error] and
    [on_roster].

    The globals [my_roster] and [my_filter] and the session are the client state
    of the stream.  System calls are scripts: the results of [trans->recv], and
    one record per turn of the main loop.  What the C library and the closed
    helper libraries are asked to do is recorded: the lines written by
    [j_error], the events given to [AddLog], the descriptors closed and the
    commands run. *)

From S2P Require Import Prelude XmlText Sax Dom DomParser Jabber Filter Stream.

Local Open Scope Z_scope.

Record session : Type := mk_session {
  acc : option iksid; pass : option str; features : Z; authorized : bool; counter : Z; set_roster : bool; job_done : bool }.

(** The session, the globals, and the lines of [j_error]. *)
Record world : Type := mk_world { sess : session; my_roster : ptr; my_filter : option iksfilter; errors : list str }.

Definition opt_timeout : Z := 30.
Definition opt_use_tls : bool := false.
Definition opt_use_sasl : bool := true.
Definition opt_log : bool := false.

Definition JL_OK : Z := 0.
Definition JL_NORMAL_ERROR : Z := 1.
Definition JL_AUTHEN_FAILED : Z := 2.
Definition JL_SERVER_DISCONNECTED : Z := 3.
Definition JL_CANNOT_CONNECT : Z := 4.

Definition set_features (s : session) (n : Z) : session := mk_session (acc s) (pass s) n (authorized s) (counter s) (set_roster s) (job_done s).
Definition set_authorized (s : session) : session := mk_session (acc s) (pass s) (features s) true (counter s) (set_roster s) (job_done s).
Definition set_counter (s : session) (n : Z) : session := mk_session (acc s) (pass s) (features s) (authorized s) n (set_roster s) (job_done s).
Definition set_done (s : session) : session := mk_session (acc s) (pass s) (features s) (authorized s) (counter s) (set_roster s) true.

Definition stream : Type := strm world.

Definition on_sess (f : session → session) (s : stream) : stream :=
  let w := client s in set_app s (mk_world (f (sess w)) (my_roster w) (my_filter w) (errors w)).
Definition set_my_roster (s : stream) (x : ptr) : stream :=
  let w := client s in set_app s (mk_world (sess w) x (my_filter w) (errors w)).
Definition set_my_filter (s : stream) (f : option iksfilter) : stream :=
  let w := client s in set_app s (mk_world (sess w) (my_roster w) f (errors w)).
Definition j_error (s : stream) (msg : str) : stream :=
  let w := client s in set_app s (mk_world (sess w) (my_roster w) (my_filter w) (errors w ++ [msg])).

(** [iks_send (sess->prs, x); iks_delete (x)]. *)
Definition send_delete (s : stream) (x : ptr) : exec (Z * stream) :=
  '(ret, s) ← iks_send s x;
  h ← iks_delete (hp s) x;
  Done (ret, set_hp s h).

(** ** The hooks of the filter *)

Definition on_result (s : stream) (pak : ikspak) : exec (iksfilterret * stream) :=
  if negb (set_roster (sess (client s))) then
    '(x, h) ← iks_make_iq (hp s) IKS_TYPE_GET (Some IKS_NS_ROSTER);
    h ← insert_attrib h x (bs "id") (Some (bs "roster"));
    '(_, s) ← send_delete (set_hp s h) x;
    Done (IKS_FILTER_EAT, s)
  else
    h ← insert_attrib (hp s) (my_roster (client s)) (bs "type") (Some (bs "set"));
    '(_, s) ← iks_send (set_hp s h) (my_roster (client s));
    Done (IKS_FILTER_EAT, s).

Definition on_error (s : stream) (pak : ikspak) : exec (iksfilterret * stream) :=
  Done (IKS_FILTER_EAT, j_error s (bs "authorization failed")).

Definition on_roster (s : stream) (pak : ikspak) : exec (iksfilterret * stream) :=
  Done (IKS_FILTER_EAT, on_sess set_done (set_my_roster s (Some (pak_x pak)))).

(** The addresses of the three functions. *)
Definition ON_RESULT : nat := 0.
Definition ON_ERROR : nat := 1.
Definition ON_ROSTER : nat := 2.

#[export] Instance jabber_filter_client : FilterClient stream := {|
  call_hook := λ hook _ pak s,
    if decide (hook = ON_RESULT) then on_result s pak
    else if decide (hook = ON_ERROR) then on_error s pak
    else if decide (hook = ON_ROSTER) then on_roster s pak
    else Fault |}.

(** ** The hook of the stream *)

(** Authentication, or binding once that is done. *)
Definition on_features (s : stream) : exec stream :=
  let ss := sess (client s) in
  if negb opt_use_sasl then Done s else
  if opt_use_tls && negb (iks_is_secure s) then Done s else
  id ← deref (acc ss);
  if authorized ss then
    s ← (if Z.land (features ss) IKS_STREAM_BIND =? 0 then Done s else
           '(t, h) ← iks_make_resource_bind (hp s) id;
           '(_, s) ← send_delete (set_hp s h) t; Done s);
    (if Z.land (features ss) IKS_STREAM_SESSION =? 0 then Done s else
       '(t, h) ← iks_make_session (hp s);
       h ← insert_attrib h t (bs "id") (Some (bs "auth"));
       '(_, s) ← send_delete (set_hp s h) t; Done s)
  else if negb (Z.land (features ss) IKS_STREAM_SASL_MD5 =? 0) then
    '(_, s) ← iks_start_sasl s IKS_SASL_DIGEST_MD5 (id_user id) (pass ss); Done s
  else if negb (Z.land (features ss) IKS_STREAM_SASL_PLAIN =? 0) then
    '(_, s) ← iks_start_sasl s IKS_SASL_PLAIN (id_user id) (pass ss); Done s
  else Done s.

(** [if (node) iks_delete (node); return IKS_OK]. *)
Definition finish_node (s : stream) (node : ptr) : exec (ikserror * stream) :=
  h ← iks_delete (hp s) node; Done (IKS_OK, set_hp s h).

Definition on_stream (s : stream) (type : iksnodetype) (node : ptr) : exec (ikserror * stream) :=
  let s := on_sess (λ ss, set_counter ss opt_timeout) s in
  match type with
  | IKS_NODE_START =>
      s ← (if opt_use_tls && negb (iks_is_secure s) then Done (iks_start_tls s).2
           else if negb opt_use_sasl then
             id ← deref (acc (sess (client s)));
             sid ← iks_find_attrib (hp s) node (bs "id");
             '(x, h) ← iks_make_auth (hp s) id (pass (sess (client s))) sid;
             h ← insert_attrib h x (bs "id") (Some (bs "auth"));
             '(_, s) ← send_delete (set_hp s h) x; Done s
           else Done s);
      finish_node s node
  | IKS_NODE_NORMAL =>
      nm ← iks_name (hp s) node;
      nm ← deref nm;
      if strcmp (bs "stream:features") nm =? 0 then
        f ← iks_stream_features (hp s) node;
        s ← on_features (on_sess (λ ss, set_features ss f) s);
        finish_node s node
      else if strcmp (bs "failure") nm =? 0 then
        (* JL_AUTHEN_FAILED, which is 2 *)
        Done (IKS_BADXML, j_error s (bs "sasl authentication failed"))
      else if strcmp (bs "success") nm =? 0 then
        let s := on_sess set_authorized s in
        id ← deref (acc (sess (client s)));
        '(_, s) ← iks_send_header s (id_server id);
        finish_node s node
      else
        x ← deref node;
        '(pak, h) ← iks_packet (hp s) x;
        let s := set_hp s h in
        f ← deref (my_filter (client s));
        '(f, s) ← match pak with
                  | Some pak => iks_filter_packet f pak s
                  | None => match f_rules f with None => Done (f, s) | Some _ => Fault end
                  end;
        let s := set_my_filter s (Some f) in
        if job_done (sess (client s)) then Done (IKS_HOOK, s) else finish_node s node
  | IKS_NODE_STOP =>
      (* JL_SERVER_DISCONNECTED, which is 3 *)
      Done (IKS_HOOK, j_error s (bs "server disconnected"))
  | IKS_NODE_ERROR =>
      (* JL_NORMAL_ERROR, which is 1 *)
      Done (IKS_NOMEM, j_error s (bs "stream error"))
  end.

#[export] Instance jabber_stream_client : StreamClient world := {| streamHook := on_stream |}.

(** ** Logging in *)

Definition IKS_NS_CLIENT : str := bs "jabber:client".
Definition COMPANY_NAME : str := bs "Cisco".

(** The rule for an answer to the request with the given id. *)
Definition iq_rule (sub : iksubtype) (id : str) : list va_arg :=
  [VInt IKS_RULE_TYPE; VInt (paktype_val IKS_PAK_IQ); VInt IKS_RULE_SUBTYPE; VInt (subtype_val sub);
   VInt IKS_RULE_ID; VStr (Some id); VInt IKS_RULE_DONE].

(** [fm] foretells the allocations of the filter and its rules. *)
Definition j_setup_filter (s : stream) (fm : bool * list bool) : exec stream :=
  _ ← match my_filter (client s) with Some f => iks_filter_delete f | None => Done ∅ end;
  f ← deref (iks_filter_new fm.1 fm.2);
  '(_, f) ← iks_filter_add_rule f ON_RESULT 0 (iq_rule IKS_TYPE_RESULT (bs "auth"));
  '(_, f) ← iks_filter_add_rule f ON_ERROR 0 (iq_rule IKS_TYPE_ERROR (bs "auth"));
  '(_, f) ← iks_filter_add_rule f ON_ROSTER 0 (iq_rule IKS_TYPE_RESULT (bs "roster"));
  Done (set_my_filter s (Some f)).

(** The account, with the default resource when the user gave none. *)
Definition make_account (s : stream) (jabber_id : str) : exec (iksid * stream) :=
  '(id, h) ← iks_id_new (hp s) (Some jabber_id);
  id ← deref id;
  match id_resource id with
  | Some _ => Done (id, set_hp s h)
  | None =>
      u ← deref (id_user id);
      v ← deref (id_server id);
      let '(ok, s) := alloc (set_hp s h) in
      if negb ok then Fault else
      tmp ← sprintf (strlen u + strlen v + 9 + 3) (u ++ bs "@" ++ v ++ bs "/" ++ COMPANY_NAME);
      '(id, h) ← iks_id_new (hp s) (Some tmp);
      id ← deref id;
      Done (id, set_hp s h)
  end.

(** [while (1) { e = iks_recv (sess->prs, 1); ... }]: the code of an error, or
    [None] when the hook asked to leave the loop.  No answer after [fuel] turns
    is [None] on the outside. *)
Fixpoint connect_loop (fuel : nat) (p : iksparser) (s : stream) (rs : list (Z * list Z)) :
    option (exec (option Z * iksparser * stream * list (Z * list Z))) :=
  match fuel with
  | O => None
  | S fuel' =>
      match iks_recv p s rs with
      | Fault => Some Fault
      | Done (e, p, s, rs) =>
          if e =? err_val IKS_HOOK then Some (Done (None, p, s, rs))
          else if e =? IKS_NET_TLSFAIL then Some (Done (Some JL_NORMAL_ERROR, p, j_error s (bs "tls handshake failed"), rs))
          else if negb (e =? 0) then Some (Done (Some JL_NORMAL_ERROR, p, j_error s (bs "io error"), rs))
          else
            let s := on_sess (λ ss, set_counter ss (counter ss - 1)) s in
            if counter (sess (client s)) =? 0
            then Some (Done (Some JL_NORMAL_ERROR, p, j_error s (bs "network timeout"), rs))
            else connect_loop fuel' p s rs
      end
  end.

(** Enough turns: every call of [iks_recv] takes a result of the socket, and
    when there is none left the counter runs down. *)
Definition turns (rs : list (Z * list Z)) : nat := (length rs + Z.to_nat opt_timeout)%nat.

Definition finished {A} (r : option (exec A)) : exec A := match r with Some e => e | None => Fault end.

(** What the system answers while the client logs in. *)
Record answers : Type := mk_answers {
  parser_mem : list bool; filter_mem : bool * list bool; lookup_ans : option (list Z); connect_ans : Z; received : list (Z * list Z) }.

(** The presence that is sent when the login is over. *)
Definition announce (s : stream) (nickname : str) : exec stream :=
  '(cc, h) ← iks_make_pres (hp s) IKS_SHOW_AVAILABLE (Some nickname);
  '(_, s) ← send_delete (set_hp s h) cc;
  Done s.

Definition j_connect (h : heap) (n : net) (w : world) (a : answers) (jabber_id pass : str) (nickname : str) :
    exec (Z * iksparser * stream) :=
  '(p, s) ← deref (iks_stream_new h n w IKS_NS_CLIENT (parser_mem a));
  let s := if opt_log then iks_set_log_hook s else s in
  '(id, s) ← make_account s jabber_id;
  let s := on_sess (λ ss, mk_session (Some id) (Some pass) (features ss) (authorized ss) (counter ss) false (job_done ss)) s in
  s ← j_setup_filter s (filter_mem a);
  '(e, s) ← iks_connect_tcp s (lookup_ans a) (connect_ans a) (id_server id);
  if e =? 0 then
    let s := on_sess (λ ss, set_counter ss opt_timeout) s in
    '(e, p, s, _) ← finished (connect_loop (turns (received a)) p s (received a));
    match e with
    | Some e => Done (e, p, s)
    | None => s ← announce s nickname; Done (JL_OK, p, s)
    end
  else if e =? IKS_NET_NODNS then Done (JL_CANNOT_CONNECT, p, j_error s (bs "hostname lookup failed"))
  else if e =? IKS_NET_NOCONN then Done (JL_CANNOT_CONNECT, p, j_error s (bs "connection failed"))
  else Done (JL_NORMAL_ERROR, p, j_error s (bs "io error")).

Definition j_SendMessage (s : stream) (jid message : str) : exec (Z * stream) :=
  '(cc, h) ← iks_make_msg (hp s) IKS_TYPE_CHAT (Some jid) (Some message);
  send_delete (set_hp s h) cc.

(** ** The main loop *)

(** One turn: what [select] answers (with [errno] when it is negative, the
    seconds it leaves of the time-out and the descriptors it finds ready), what
    [read] gives for either descriptor, and what [write] answers. *)
Record event : Type := mk_event {
  sel : Z; errno : Z; left_sec : Z; log_ready : bool; j_ready : bool;
  log_read : Z; log_data : list Z; j_read : Z; ping : Z }.

Definition EINTR : Z := 4.
Definition EAGAIN : Z := 11.
Definition BUF_SIZE : Z := 1024.
Definition keep_alive : Z := 300.

(** The events given to [AddLog ("IM", 2, n)]. *)
Definition LOG_AUTHEN : Z := 1.
Definition LOG_CANNOT_CONNECT : Z := 2.
Definition LOG_DISCONNECTED : Z := 3.
Definition LOG_LOGIN : Z := 4.
Definition LOG_SENT : Z := 5.

Record run : Type := mk_run { strm_of : stream; tv_sec : Z; added : list Z; pings : nat }.

Definition set_strm (r : run) (s : stream) : run := mk_run s (tv_sec r) (added r) (pings r).
Definition AddLog (r : run) (n : Z) : run := mk_run (strm_of r) (tv_sec r) (added r ++ [n]) (pings r).

(** [goto errout] with its code, or going on. *)
Inductive after : Type := Leave (errcode : Z) (r : run) | Stay (r : run).

(** The line that was read, with the terminator stored behind it. *)
Definition read_line (ev : event) : exec str :=
  let m := take (Z.to_nat (log_read ev)) (log_data ev) ++ replicate (Z.to_nat BUF_SIZE - Z.to_nat (log_read ev)) 0 in
  m ← store m (log_read ev) 0;
  Done (c_str m).

Definition forward (r : run) (ev : event) (sendto : str) : exec after :=
  if negb (log_ready ev) then Done (Stay r) else
  if log_read ev <? 0 then Done (Leave JL_SERVER_DISCONNECTED r) else
  line ← read_line ev;
  '(ret, s) ← j_SendMessage (strm_of r) sendto line;
  let r := set_strm r s in
  if negb (ret =? JL_OK) then Done (Leave ret r) else Done (Stay (AddLog r LOG_SENT)).

(** What the server sends is dropped. *)
Definition skip (r : run) (ev : event) : after :=
  if negb (j_ready ev) then Stay r else
  if j_read ev <? 0 then Leave JL_SERVER_DISCONNECTED r else
  if j_read ev =? 0 then Leave JL_SERVER_DISCONNECTED r else Stay r.

Definition keep (r : run) (ev : event) : after :=
  if negb (tv_sec r =? 0) then Stay r else
  let r := mk_run (strm_of r) keep_alive (added r) (S (pings r)) in
  if ping ev <? 0 then Leave JL_SERVER_DISCONNECTED r else Stay r.

Definition main_turn (r : run) (ev : event) (sendto : str) : exec after :=
  let r := mk_run (strm_of r) (left_sec ev) (added r) (pings r) in
  if sel ev <? 0 then
    if (errno ev =? EINTR) || (errno ev =? EAGAIN) then Done (Stay r) else Done (Leave JL_SERVER_DISCONNECTED r)
  else
    a ← forward r ev sendto;
    match a with
    | Leave _ _ => Done a
    | Stay r =>
        match skip r ev with
        | Leave e r => Done (Leave e r)
        | Stay r => Done (keep r ev)
        end
    end.

(** The loop over a list of turns; it is still running when they are over. *)
Fixpoint main_loop (r : run) (evs : list event) (sendto : str) : exec after :=
  match evs with
  | [] => Done (Stay r)
  | ev :: evs' =>
      a ← main_turn r ev sendto;
      match a with Leave _ _ => Done a | Stay r => main_loop r evs' sendto end
  end.

(** [iks_parser_delete]: the [deleteHook] of the stream closes the socket. *)
Definition iks_parser_delete (s : stream) : exec stream := stream_deleteHook s.

(** [close (fd)]. *)
Definition close_fd (s : stream) (fd : Z) : stream :=
  let n := nt s in set_nt s (mk_net (sends n) (sent n) (logs n) (rands n) (closed n ++ [fd])).

(** The code behind [errout]. *)
Definition errout (r : run) (errcode log_fd j_fd : Z) : exec (Z * run) :=
  let s := strm_of r in
  let s := if log_fd =? 0 then s else close_fd s log_fd in
  let s := if j_fd =? 0 then s else close_fd s j_fd in
  s ← iks_parser_delete s;
  let r := set_strm r s in
  let r := if errcode =? JL_CANNOT_CONNECT then AddLog r LOG_CANNOT_CONNECT else r in
  let r := if errcode =? JL_AUTHEN_FAILED then AddLog r LOG_AUTHEN else r in
  let r := if errcode =? JL_SERVER_DISCONNECTED then AddLog r LOG_DISCONNECTED else r in
  Done (errcode, r).

Definition blank_session : session := mk_session None None 0 false 0 false false.

(** [None] for the code while the loop is still running.  [ds] is what
    [unix_DS_server] answers. *)
Definition j_main (h : heap) (n : net) (roster : ptr) (filt : option iksfilter) (a : answers)
    (server account password sendto nickname : str) (ds : Z) (evs : list event) : exec (option Z * run) :=
  jid ← sprintf BUF_SIZE (account ++ bs "@" ++ server);
  '(ret, _, s) ← j_connect h n (mk_world blank_session roster filt []) a jid password nickname;
  let r := mk_run s 0 [] 0 in
  if negb (ret =? JL_OK) then '(e, r) ← errout r JL_CANNOT_CONNECT 0 0; Done (Some e, r) else
  let j_fd := iks_fd s in
  if ds =? -1 then '(e, r) ← errout r JL_NORMAL_ERROR ds j_fd; Done (Some e, r) else
  let r := mk_run s keep_alive [LOG_LOGIN] 0 in
  a ← main_loop r evs sendto;
  match a with
  | Stay r => Done (None, r)
  | Leave e r => '(e, r) ← errout r e ds j_fd; Done (Some e, r)
  end.

(** ** The tunnel and [main] *)

(** The options in front of the [connect] line. *)
Definition stunnel_fix : str :=
  bs "foreground = no" ++ [10] ++ bs "debug=0" ++ [10] ++ bs "pid =" ++ [10] ++ bs "options = ALL" ++ [10] ++
  bs "TIMEOUTclose = 0" ++ [10] ++ bs "client = yes" ++ [10] ++ bs "verify = 0" ++ [10] ++ bs "[jabber]" ++ [10] ++
  bs "accept = 5222" ++ [10].

(** The result, the commands run and the text of the configuration; [fd] is what
    [open] answers. *)
Definition create_stunnel (server : str) (fd : Z) : exec (Z * list str * str) :=
  let kill := bs "/usr/bin/killall jabber_stunnel" in
  if fd <? 0 then Done (-1, [kill], []) else
  line ← sprintf 128 (bs "connect = " ++ server ++ bs ":5223" ++ [10]);
  Done (0, [kill; bs "/usr/local/bin/jabber_stunnel /tmp/jabber_stunnel.conf >/dev/zero 2>/dev/zero"], stunnel_fix ++ line).

(** [for (i = 0; i < 20; i++) { ret = flock (...); if (ret != -1) break; sleep (1); }]:
    the value of [i] behind the loop; [flock i] is the answer in its turn [i]. *)
Fixpoint lock_loop (turns : nat) (i : Z) (flock : Z → Z) : Z :=
  match turns with
  | O => i
  | S turns' => if negb (flock i =? -1) then i else lock_loop turns' (i + 1) flock
  end.

(** What is read from the configuration. *)
Record IM_DS : Type := mk_im_ds { enable : bool; im_server : str; im_account : str; im_password : str; im_sendto : str }.

Record system : Type := mk_system {
  open_ret : Z; flocks : Z → Z; fcntl_ret : Z; read_ds : option IM_DS; host : option str }.

(** The part of [main] in front of its endless loop: the configuration and the
    host name the loop works with, or the exit code -1 and whether the lock file
    is closed. *)
Definition main_start (y : system) : (Z * bool) + (IM_DS * str) :=
  if open_ret y =? -1 then inl (-1, false) else
  if lock_loop 20 0 (flocks y) =? 20 then inl (-1, true) else
  if fcntl_ret y =? -1 then inl (-1, true) else
  match read_ds y with
  | None => inl (-1, true)
  | Some conf =>
      if negb (enable conf) then inl (-1, true) else
      match host y with None => inl (-1, true) | Some name => inr (conf, name) end
  end.

(** One turn of the endless loop: the tunnel, then the client until it stops. *)
Definition main_once (conf : IM_DS) (host_name : str) (h : heap) (n : net) (roster : ptr) (filt : option iksfilter)
    (fd : Z) (a : answers) (ds : Z) (evs : list event) : exec (option Z * run * list str * str) :=
  '(_, cmds, text) ← create_stunnel (im_server conf) fd;
  '(code, r) ← j_main h n roster filt a (im_server conf) (im_account conf) (im_password conf) (im_sendto conf) host_name ds evs;
  Done (code, r, cmds, text).
