(* ===== verification/JabberTheorems.v ===== *)
(** * Theorems about the log client

    A log line reaches the recipient as one escaped message; the three rules
    of the filter select the right function; logging in ends; and the cases in
    which the result of a login is not reported, or reported wrongly. *)

From S2P Require Import Prelude XmlText Sax Dom DomPrint DomBuild DomQuery DomParser Jabber JabberStanza Filter Stream StreamTheorems Invariants JabberMain.

Local Open Scope Z_scope.

(** ** Sending *)

Definition connected (s : stream) : Prop := trans (sd s) = true ∧ sends (nt s) = [] ∧ ready (hp s).

Lemma ready_delete h p : ready h → ready (stack_delete h p).
Proof.
  intros [Hm Hf]. split; [done|]. intros y [n Hn]. apply Hf. cbn in Hn. apply map_lookup_filter_Some in Hn as [Hn _]. by exists n.
Qed.

(** A stanza that was made is sent and its memory given back. *)
Lemma send_delete_made (s : stream) x h L nm ats cs :
  makes (Done (x, h)) L (TTag nm ats cs) → trans (sd s) = true → sends (nt s) = [] →
  ∃ s', send_delete (set_hp s h) x = Done (0, s') ∧ connected s' ∧ nt s' = nt (said s (print (TTag nm ats cs))) ∧
    sd s' = sd s ∧ client s' = client s.
Proof.
  intros (pl & a & h' & E & Ea & Ho) Ht Hs. injection E as -> ->. unfold send_delete.
  rewrite (send_tree (set_hp s h') _ _ _ _ _ _ Ho Ea) by done. cbn [mbind exec_bind].
  unfold iks_delete, get. pose proof (owns_rep _ _ _ _ _ _ _ Ho) as Hr. cbn [said set_nt set_hp hp].
  rewrite (rep_node _ _ _ _ Hr). cbn [mbind exec_bind]. eexists. split; [reflexivity|].
  rewrite Ea. split; [|done]. split; [done|]. split; [done|]. apply ready_delete. by destruct Ho.
Qed.

Lemma owns_nil h : ready h → owns h [].
Proof. intros Hr. by split; [|split; [constructor|set_solver]]. Qed.

Lemma send_message (s : stream) (jid message : str) :
  connected s →
  ∃ s', j_SendMessage s jid message = Done (0, s') ∧ connected s' ∧
    nt s' = nt (said s (print (msg_tree IKS_TYPE_CHAT (Some jid) (Some message)))) ∧ sd s' = sd s ∧ client s' = client s.
Proof.
  intros (Ht & Hs & Hr). unfold j_SendMessage.
  destruct (make_msg_tree (hp s) IKS_TYPE_CHAT (Some jid) (Some message) [] (owns_nil _ Hr)) as (pl & a & h & E & Ea & Ho).
  rewrite E. cbn [mbind exec_bind]. apply (send_delete_made s _ h []); [|done..]. by exists pl, a, h.
Qed.

(** C5 (functional): on a connected stream a message is sent as one [message]
    element of type chat with the recipient and the text, both escaped; nothing
    else is sent, the call succeeds, and the stream stays usable. *)
Theorem SendMessage_sends (s : stream) (jid message : str) :
  connected s →
  ∃ s', j_SendMessage s jid message = Done (JL_OK, s') ∧ connected s' ∧ client s' = client s ∧
    sent (nt s') = sent (nt s) ++ [print (msg_tree IKS_TYPE_CHAT (Some jid) (Some message))].
Proof.
  intros Hc. destruct (send_message s jid message Hc) as (s' & E & Hc' & Hn & _ & Hw).
  exists s'. do 3 (split; [done|]). by rewrite Hn.
Qed.

Definition demo_world : world := mk_world blank_session None None [].
Definition demo_client : stream :=
  mk_strm (mk_sd true IKS_NS_CLIENT (Some (bs "example.org")) false None true 5 0 None None) (mk_net [] [] [] [] []) (mk_heap ∅ 0 0 []) demo_world.

Lemma demo_connected : connected demo_client.
Proof. split; [done|]. split; [done|]. split; [done|]. intros y [n Hn]. done. Defined.

Lemma SendMessage_sends_witness :
  ∃ s', j_SendMessage demo_client (bs "you@example.org") (bs "door & window") = Done (JL_OK, s') ∧
    sent (nt s') = [bs "<message type='chat' to='you@example.org'><body>door &amp; window</body></message>"].
Proof.
  destruct (SendMessage_sends demo_client (bs "you@example.org") (bs "door & window") demo_connected) as (s' & E & _ & _ & Hs).
  exists s'. exact (conj E Hs).
Defined.

(** ** The lines of the log *)

Lemma read_line_done ev :
  0 <= log_read ev < BUF_SIZE → strlen (log_data ev) = log_read ev → is_cstr (log_data ev) →
  read_line ev = Done (log_data ev).
Proof.
  unfold BUF_SIZE. intros Hr Hl Hz. unfold read_line, BUF_SIZE, strlen in *. rewrite <-Hl, !Nat2Z.id, firstn_all.
  destruct (Z.to_nat 1024 - length (log_data ev))%nat as [|k] eqn:Ek; [lia|].
  cbn [replicate]. rewrite store_app by done. cbn [mbind exec_bind]. by rewrite c_str_terminated.
Qed.

(** A turn in which a line of fewer than 1024 bytes comes from
    the log sends it to the recipient, records that, and keeps the client
    running, unless the time for a keep-alive has come. *)
Theorem turn_forwards (r : run) (ev : event) (sendto : str) :
  connected (strm_of r) → 0 <= sel ev → left_sec ev ≠ 0 → log_ready ev = true → j_ready ev = false →
  0 <= log_read ev < BUF_SIZE → strlen (log_data ev) = log_read ev → is_cstr (log_data ev) →
  ∃ s', main_turn r ev sendto = Done (Stay (mk_run s' (left_sec ev) (added r ++ [LOG_SENT]) (pings r))) ∧ connected s' ∧
    sent (nt s') = sent (nt (strm_of r)) ++ [print (msg_tree IKS_TYPE_CHAT (Some sendto) (Some (log_data ev)))].
Proof.
  intros Hc Hsel Hleft Hlr Hjr Hb Hl Hz. unfold main_turn. rewrite (proj2 (Z.ltb_ge _ _)) by done.
  unfold forward. rewrite Hlr. cbn [negb]. rewrite (proj2 (Z.ltb_ge _ _)) by lia.
  rewrite read_line_done by done. cbn [mbind exec_bind strm_of].
  destruct (send_message _ sendto (log_data ev) Hc) as (s' & E & Hc' & Hn & _).
  rewrite E. cbn [mbind exec_bind]. change (negb (0 =? JL_OK)) with false. cbn iota.
  unfold skip, keep. rewrite Hjr. cbn [mbind exec_bind negb AddLog set_strm tv_sec strm_of added pings].
  rewrite (proj2 (Z.eqb_neq _ _)) by done. exists s'. split; [done|]. split; [done|]. by rewrite Hn.
Qed.

Definition line_event (t : str) : event := mk_event 1 0 200 true false (strlen t) t 0 0.

Lemma turn_forwards_witness :
  ∃ s', main_turn (mk_run demo_client 300 [LOG_LOGIN] 0) (line_event (bs "motion")) (bs "you@example.org")
        = Done (Stay (mk_run s' 200 [LOG_LOGIN; LOG_SENT] 0)) ∧
    sent (nt s') = [bs "<message type='chat' to='you@example.org'><body>motion</body></message>"].
Proof.
  destruct (turn_forwards (mk_run demo_client 300 [LOG_LOGIN] 0) (line_event (bs "motion")) (bs "you@example.org")) as (s' & E & _ & Hs).
  - exact demo_connected.
  - vm_compute. discriminate.
  - discriminate.
  - reflexivity.
  - reflexivity.
  - split; vm_compute; [discriminate|reflexivity].
  - reflexivity.
  - apply (bool_decide_unpack _). vm_compute. done.
  - exists s'. exact (conj E Hs).
Defined.

(** A line that fills the buffer makes the client store the
    terminator behind it. *)
Theorem long_line_overflows (r : run) (ev : event) (sendto : str) :
  0 <= sel ev → log_ready ev = true → log_read ev = BUF_SIZE → strlen (log_data ev) = BUF_SIZE →
  main_turn r ev sendto = Fault.
Proof.
  intros Hs Hr Hl Hd. unfold main_turn, forward. rewrite (proj2 (Z.ltb_ge _ _)) by done. rewrite Hr, Hl. cbn [negb].
  change (BUF_SIZE <? 0) with false. cbn iota. unfold read_line. rewrite Hl.
  replace (_ - _)%nat with 0%nat by lia. cbn [replicate]. rewrite app_nil_r.
  unfold store. rewrite (proj2 (andb_false_iff _ _)); [done|]. right. apply Z.ltb_ge.
  rewrite length_take. unfold strlen in Hd. unfold BUF_SIZE in *. lia.
Qed.

Lemma long_line_overflows_witness :
  main_turn (mk_run demo_client 300 [LOG_LOGIN] 0) (line_event (replicate 1024 65)) (bs "you@example.org") = Fault.
Proof.
  apply (long_line_overflows (mk_run demo_client 300 [LOG_LOGIN] 0) (line_event (replicate 1024 65)) (bs "you@example.org"));
    try reflexivity. vm_compute. discriminate.
Defined.

(** ** Logging in ends *)

(** The counter of the session is between 1 and the time-out. *)
Definition counting (w : world) : Prop := 0 < counter (sess w) <= opt_timeout.

Lemma send_delete_keeps (P : world → Prop) (s : stream) x : P (client s) → post (send_delete s x) (λ r, P (client r.2)).
Proof. intros Hs. unfold send_delete. eapply post_bind; [by apply send_keeps|]. intros [ret s'] Hs'. by apply post_skip. Qed.

Lemma call_hook_keeps hk ud pak (s : stream) : counting (client s) → post (call_hook hk ud pak s) (λ r, counting (client r.2)).
Proof.
  intros Hs. cbn [call_hook jabber_filter_client]. case_decide; [|case_decide; [exact Hs|case_decide; [exact Hs|done]]]. unfold on_result. case_match.
  - do 2 (apply post_skip; intros ?; repeat case_match). eapply post_bind; [by apply send_delete_keeps|]. by intros [? ?] ?.
  - apply post_skip; intros ?. eapply post_bind; [by apply send_keeps|]. by intros [? ?] ?.
Qed.

Lemma on_features_keeps (P : world → Prop) (s : stream) : P (client s) → post (on_features s) (λ s', P (client s')).
Proof.
  intros Hs. unfold on_features. cbn [negb opt_use_sasl opt_use_tls andb]. apply post_skip; intros id. case_match.
  - apply (post_bind _ _ (λ s', P (client s'))).
    + case_match; [done|]. apply post_skip; intros [t h]. eapply post_bind; [by apply send_delete_keeps|]. by intros [? ?] ?.
    + intros s' Hs'. case_match; [done|]. apply post_skip; intros [t h]. apply post_skip; intros h'.
      eapply post_bind; [by apply send_delete_keeps|]. by intros [? ?] ?.
  - case_match; [eapply post_bind; [by apply start_sasl_keeps|by intros [? ?] ?]|].
    case_match; [eapply post_bind; [by apply start_sasl_keeps|by intros [? ?] ?]|done].
Qed.

Lemma finish_node_keeps (P : world → Prop) (s : stream) x : P (client s) → post (finish_node s x) (λ r, P (client r.2)).
Proof. intros Hs. by apply post_skip. Qed.

Lemma on_stream_counts (s : stream) ty x : post (on_stream s ty x) (λ r, counting (client r.2)).
Proof.
  assert (Hc : counting (client (on_sess (λ ss, set_counter ss opt_timeout) s))) by (split; vm_compute; [reflexivity|discriminate]).
  unfold on_stream. set (s1 := on_sess _ s) in *. clearbody s1. destruct ty; [by apply finish_node_keeps| |done|done].
  do 2 (apply post_skip; intros ?). case_match.
  { apply post_skip; intros f. eapply post_bind; [by apply (on_features_keeps counting)|]. intros s' Hs'. by apply finish_node_keeps. }
  case_match; [done|]. case_match.
  { apply post_skip; intros id. eapply post_bind; [by apply (send_header_keeps counting)|]. intros [? s'] Hs'. by apply finish_node_keeps. }
  apply post_skip; intros y. apply post_skip; intros [pak h]. apply post_skip; intros f. apply (post_bind _ _ (λ r, counting (client r.2))).
  - case_match; [|by case_match]. apply (filter_packet_keeps (λ s : stream, counting (client s))); [|done]. intros. by apply call_hook_keeps.
  - intros [f' s'] Hs'. case_match; [done|]. by apply finish_node_keeps.
Qed.

Lemma recv_counts (p : iksparser) (s : stream) rs : counting (client s) →
  post (iks_recv p s rs) (λ '(_, _, s', rs'), counting (client s') ∧
    (length rs' < length rs ∨ rs' = [] ∧ rs = [] ∧ client s' = client s)%nat).
Proof. intros Hs. apply recv_keeps; [|done]. intros. apply on_stream_counts. Qed.

(** The calls of [iks_recv] that the loop reaches, each from a call that returned
    without an error while the counter had not run down. *)
Inductive reaches (p : iksparser) (s : stream) (rs : list (Z * list Z)) : nat → iksparser → stream → list (Z * list Z) → Prop :=
| reaches_first : reaches p s rs 0 p s rs
| reaches_next n p1 s1 rs1 p2 s2 rs2 : reaches p s rs n p1 s1 rs1 → iks_recv p1 s1 rs1 = Done (0, p2, s2, rs2) →
    counter (sess (client s2)) - 1 ≠ 0 → reaches p s rs (S n) p2 (on_sess (λ ss, set_counter ss (counter ss - 1)) s2) rs2.

Lemma reaches_before p s rs p1 s1 rs1 n p2 s2 rs2 :
  iks_recv p s rs = Done (0, p1, s1, rs1) → counter (sess (client s1)) - 1 ≠ 0 →
  reaches p1 (on_sess (λ ss, set_counter ss (counter ss - 1)) s1) rs1 n p2 s2 rs2 → reaches p s rs (S n) p2 s2 rs2.
Proof.
  intros E Hc. induction 1 as [|n p3 s3 rs3 p4 s4 rs4 _ IH E' Hc']; [eapply reaches_next; [apply reaches_first|done|done]|by eapply reaches_next].
Qed.

(** The loop ended with a result, or a call of [iks_recv] in one of the first [fuel]
    turns is a fault. *)
Definition ends_within (fuel : nat) (p : iksparser) (s : stream) (rs : list (Z * list Z)) : Prop :=
  (∃ r, connect_loop fuel p s rs = Some (Done r)) ∨
  (∃ n p' s' rs', (n < fuel)%nat ∧ reaches p s rs n p' s' rs' ∧ iks_recv p' s' rs' = Fault).

Lemma connect_loop_ends fuel : ∀ p (s : stream) rs,
  counting (client s) →
  (match rs with [] => Z.to_nat (counter (sess (client s))) | _ => turns rs end <= fuel)%nat →
  ends_within fuel p s rs.
Proof.
  induction fuel as [|fuel IH]; intros p s rs Hc Hf.
  { exfalso. unfold counting, turns, opt_timeout in *. destruct rs; cbn [length] in *; lia. }
  unfold ends_within. cbn [connect_loop]. pose proof (recv_counts p s rs Hc) as Hr.
  destruct (iks_recv p s rs) as [[[[e p'] s'] rs']|] eqn:E; [|right; exists 0%nat, p, s, rs; split_and!; [lia|constructor|done]]. destruct Hr as [Hc' Hl].
  destruct (e =? err_val IKS_HOOK); [left; by eexists|]. destruct (e =? IKS_NET_TLSFAIL); [left; by eexists|].
  destruct (Z.eqb_spec e 0) as [->|]; cbn [negb]; [|left; by eexists]. destruct (_ =? 0) eqn:Ez; [left; by eexists|]. apply Z.eqb_neq in Ez.
  destruct (IH p' (on_sess (λ ss, set_counter ss (counter ss - 1)) s') rs') as [?|(n & p2 & s2 & rs2 & Hn & Hr & Ef)].
  - unfold counting, on_sess, set_app in *. cbn in *. lia.
  - unfold counting, turns, opt_timeout, on_sess, set_app in *. cbn in *. destruct Hl as [Hl|(-> & -> & Ew)].
    + destruct rs'; cbn [length] in *; destruct rs; cbn [length] in *; lia.
    + rewrite Ew in *. lia.
  - by left.
  - right. exists (S n), p2, s2, rs2. split_and!; [lia| |done]. by eapply reaches_before.
Qed.

(** C21 (termination): the loop that waits for the login does not go on for ever by
    itself.  Within one turn for every result of the socket and thirty more, whatever
    the server sends, it ends with a result, the counter that every stanza sets back
    running down when nothing comes; unless one of the calls of [iks_recv] that it
    reaches in these turns does not return: it makes a stray access or stays in the
    endless loop over an escaped quote of a challenge ([realm_escape_hangs]). *)
Theorem login_ends (p : iksparser) (s : stream) (rs : list (Z * list Z)) :
  counter (sess (client s)) = opt_timeout →
  (∃ e p' s' rs', connect_loop (turns rs) p s rs = Some (Done (e, p', s', rs'))) ∨
  (∃ n p' s' rs', (n < turns rs)%nat ∧ reaches p s rs n p' s' rs' ∧ iks_recv p' s' rs' = Fault).
Proof.
  intros Hc. destruct (connect_loop_ends (turns rs) p s rs) as [([[[e p'] s'] rs'] & E)|H]; [| |left; by exists e, p', s', rs'|by right].
  - unfold counting. rewrite Hc. unfold opt_timeout. lia.
  - rewrite Hc. unfold turns. destruct rs; cbn [length]; lia.
Qed.

Definition waiting_client : stream := on_sess (λ ss, set_counter ss opt_timeout) demo_client.

Lemma login_ends_witness :
  let rs := [(22, bs "<stream:stream id='7'>"); (0, [])] in
  counter (sess (client waiting_client)) = opt_timeout ∧ ∃ r, connect_loop (turns rs) (iks_sax_new []) waiting_client rs = Some (Done r).
Proof.
  cbv zeta. split; [reflexivity|].
  destruct (login_ends (iks_sax_new []) waiting_client [(22, bs "<stream:stream id='7'>"); (0, [])] eq_refl) as [(e & p' & s' & rs' & E)|_]; [exists (e, p', s', rs'); exact E|].
  eexists. vm_compute. reflexivity.
Defined.

(** ** The rules of the login *)

(** The packet answers the request with the given id. *)
Definition answers_to (sub : iksubtype) (id : str) (pak : ikspak) : Prop :=
  pak_type pak = IKS_PAK_IQ ∧ pak_subtype pak = sub ∧ pak_id pak = Some id.

#[export] Instance answers_to_dec sub id pak : Decision (answers_to sub id pak).
Proof. unfold answers_to. apply _. Defined.

Definition login_cond (hook : nat) (sub : iksubtype) (id : str) : cond :=
  fold_left ask [WType IKS_PAK_IQ; WSubtype sub; WId id] (blank_rule hook 0).

Definition login_rules : list (nat * cond) :=
  [(0%nat, login_cond ON_RESULT IKS_TYPE_RESULT (bs "auth")); (1%nat, login_cond ON_ERROR IKS_TYPE_ERROR (bs "auth"));
   (2%nat, login_cond ON_ROSTER IKS_TYPE_RESULT (bs "roster"))].

(** A filter with the three rules, with any scores left by earlier packets. *)
Definition login_filter (f : iksfilter) : Prop := ∃ l, rep_rules f l ∧ forget l = login_rules.

Lemma login_score hook sub id pak :
  rule_score (login_cond hook sub id) pak = if decide (answers_to sub id pak) then 19 else 0.
Proof.
  unfold rule_score, login_cond, answers_to. cbn [fold_left ask blank_rule c_type c_subtype c_id rules c_ns c_from kind].
  change (iks_strcmp (Some id) (pak_id pak) =? 0) with (same (Some id) (pak_id pak)).
  rewrite paktype_val_inj, subtype_val_inj, same_kept.
  repeat case_bool_decide; case_decide; naive_solver.
Qed.

Lemma score_forget c c' pak : set_score c 0 = c' → rule_score c pak = rule_score c' pak.
Proof. by intros <-. Qed.

(** The function the packet is for. *)
Definition login_action (s : stream) (pak : ikspak) : exec stream :=
  if decide (answers_to IKS_TYPE_RESULT (bs "auth") pak) then '(_, s) ← on_result s pak; Done s
  else if decide (answers_to IKS_TYPE_ERROR (bs "auth") pak) then '(_, s) ← on_error s pak; Done s
  else if decide (answers_to IKS_TYPE_RESULT (bs "roster") pak) then '(_, s) ← on_roster s pak; Done s
  else Done s.

Lemma on_result_eats s pak : ∀ r s', on_result s pak = Done (r, s') → r = IKS_FILTER_EAT.
Proof.
  intros r s'. assert (post (on_result s pak) (λ r, r.1 = IKS_FILTER_EAT)) as Hp.
  { unfold on_result. case_match; repeat (apply post_skip; intros ?; repeat case_match); done. }
  intros E. by apply (post_done _ _ _ Hp) in E.
Qed.

Lemma answers_once sub id sub' id' pak :
  answers_to sub id pak → (sub, id) ≠ (sub', id') → ¬ answers_to sub' id' pak.
Proof. unfold answers_to. intros (_ & E1 & E2) Hn (_ & E3 & E4). apply Hn. congruence. Qed.

Ltac few Hx := repeat (apply elem_of_cons in Hx as [->|Hx]; [cbn; lia|]); by apply not_elem_of_nil in Hx.

(** The best rule is the one that is called, when its function eats the packet. *)
Lemma run_best {U} `{FilterClient U} l1 x c l2 pak (u : U) :
  0 < score c <= Z.of_nat top_score →
  (∀ xc, xc ∈ l1 → score xc.2 < score c) → (∀ xc, xc ∈ l2 → score xc.2 <= score c) →
  (∀ r u', call_hook (filterHook c) (user_data c) pak u = Done (r, u') → r = IKS_FILTER_EAT) →
  run_hooks (ranking (l1 ++ (x, c) :: l2)) pak u = '(_, u') ← call_hook (filterHook c) (user_data c) pak u; Done u'.
Proof.
  intros Hc H1 H2 He. rewrite ranking_cons by done. cbn [run_hooks].
  destruct (call_hook _ _ _ _) as [[r u']|]; [|done]. cbn [mbind exec_bind]. by rewrite (He r u').
Qed.

Lemma login_hooks (l : list (nat * cond)) (s : stream) pak :
  forget l = login_rules → run_hooks (ranking (map (scored pak) l)) pak s = login_action s pak.
Proof.
  intros El. destruct l as [|[x0 c0] [|[x1 c1] [|[x2 c2] [|? ?]]]]; try discriminate El.
  pose proof (f_equal (λ l, snd (nth 0 l (0%nat, c0))) El) as E0. pose proof (f_equal (λ l, snd (nth 1 l (0%nat, c0))) El) as E1.
  pose proof (f_equal (λ l, snd (nth 2 l (0%nat, c0))) El) as E2. cbn [forget login_rules map nth fst snd] in E0, E1, E2.
  assert (K0 : filterHook c0 = ON_RESULT) by (exact (f_equal filterHook E0)).
  assert (K1 : filterHook c1 = ON_ERROR) by (exact (f_equal filterHook E1)).
  assert (K2 : filterHook c2 = ON_ROSTER) by (exact (f_equal filterHook E2)).
  unfold login_action. cbn [map]. unfold scored. cbn [fst snd].
  rewrite (score_forget _ _ pak E0), (score_forget _ _ pak E1), (score_forget _ _ pak E2), !login_score.
  destruct (decide (answers_to IKS_TYPE_RESULT (bs "auth") pak)) as [A0|A0].
  { rewrite !decide_False by (apply (answers_once _ _ _ _ _ A0); discriminate).
    etrans; [apply (run_best [])|]; cbn [filterHook set_score score call_hook jabber_filter_client].
    - unfold top_score. lia.
    - set_solver.
    - intros xc Hx. few Hx.
    - rewrite K0. apply on_result_eats.
    - by rewrite K0. }
  destruct (decide (answers_to IKS_TYPE_ERROR (bs "auth") pak)) as [A1|A1].
  { rewrite !decide_False by (apply (answers_once _ _ _ _ _ A1); discriminate).
    etrans; [apply (run_best [_])|]; cbn [filterHook set_score score call_hook jabber_filter_client].
    - unfold top_score. lia.
    - intros xc Hx. few Hx.
    - intros xc Hx. few Hx.
    - rewrite K1. by intros ? ? [= <- _].
    - by rewrite K1. }
  destruct (decide (answers_to IKS_TYPE_RESULT (bs "roster") pak)) as [A2|A2].
  { etrans; [apply (run_best [_; _] _ _ [])|]; cbn [filterHook set_score score call_hook jabber_filter_client].
    - unfold top_score. lia.
    - intros xc Hx. few Hx.
    - set_solver.
    - rewrite K2. by intros ? ? [= <- _].
    - by rewrite K2. }
  rewrite ranking_nil; [done|]. intros xc Hx. few Hx.
Qed.

Lemma setup_rules (s : stream) :
  my_filter (client s) = None →
  ∃ f, j_setup_filter s (true, []) = Done (set_my_filter s (Some f)) ∧ login_filter f.
Proof.
  intros Hf. unfold j_setup_filter. rewrite Hf. cbn [fst snd iks_filter_new deref mbind exec_bind].
  destruct (add_rule_spec new_filter [] ON_RESULT 0 [WType IKS_PAK_IQ; WSubtype IKS_TYPE_RESULT; WId (bs "auth")] eq_refl rep_new)
    as (f1 & E1 & H1).
  assert (Hm1 : fmem f1 = [] ∧ fresh_rule f1 = 1%nat) by (vm_compute in E1; injection E1 as <-; done).
  change (args_of _) with (iq_rule IKS_TYPE_RESULT (bs "auth")) in E1. unfold new_filter in E1. rewrite E1. cbn [mbind exec_bind].
  destruct (add_rule_spec f1 _ ON_ERROR 0 [WType IKS_PAK_IQ; WSubtype IKS_TYPE_ERROR; WId (bs "auth")] (proj1 Hm1) H1) as (f2 & E2 & H2).
  assert (Hm2 : fmem f2 = [] ∧ fresh_rule f2 = 2%nat).
  { vm_compute in E1. injection E1 as <-. vm_compute in E2. injection E2 as <-. done. }
  change (args_of _) with (iq_rule IKS_TYPE_ERROR (bs "auth")) in E2. rewrite E2. cbn [mbind exec_bind].
  destruct (add_rule_spec f2 _ ON_ROSTER 0 [WType IKS_PAK_IQ; WSubtype IKS_TYPE_RESULT; WId (bs "roster")] (proj1 Hm2) H2) as (f3 & E3 & H3).
  change (args_of _) with (iq_rule IKS_TYPE_RESULT (bs "roster")) in E3. rewrite E3. cbn [mbind exec_bind].
  exists f3. split; [done|]. rewrite (proj2 Hm1), (proj2 Hm2) in H3. eexists. split; [exact H3|]. reflexivity.
Qed.

(** The client's rules.  [j_setup_filter] makes a filter that
    calls [on_result] for the answer to the session request, [on_error] for the
    refusal of it, [on_roster] for the answer to the roster request and nothing
    for any other packet, and does so for every packet that comes later. *)
Theorem login_dispatch (s : stream) :
  my_filter (client s) = None →
  ∃ f, j_setup_filter s (true, []) = Done (set_my_filter s (Some f)) ∧ login_filter f ∧
  ∀ f pak s', login_filter f →
    match login_action s' pak with
    | Done s2 => ∃ f', iks_filter_packet f pak s' = Done (f', s2) ∧ login_filter f'
    | Fault => iks_filter_packet f pak s' = Fault
    end.
Proof.
  intros Hf. destruct (setup_rules s Hf) as (f & E & Hl). exists f. split; [done|]. split; [done|]. clear.
  intros f pak s (l & Hr & El). pose proof (packet_spec f l pak s Hr) as Hp. rewrite login_hooks in Hp by done.
  destruct (login_action s pak) as [s2|]; [|done]. destruct Hp as (f' & l' & E & Hr' & El'). exists f'. split; [done|].
  exists l'. by rewrite El'.
Qed.

Lemma login_dispatch_witness : ∃ f, j_setup_filter demo_client (true, []) = Done (set_my_filter demo_client (Some f)) ∧ login_filter f.
Proof. destruct (login_dispatch demo_client eq_refl) as (f & E & Hl & _). exact (ex_intro _ f (conj E Hl)). Defined.

(** ** How a login is reported *)

Lemma errout_logs r e log_fd j_fd : post (errout r e log_fd j_fd) (λ '(e', r'), e' = e ∧ added r' = added r ++
  (if e =? JL_CANNOT_CONNECT then [LOG_CANNOT_CONNECT] else []) ++ (if e =? JL_AUTHEN_FAILED then [LOG_AUTHEN] else []) ++
  (if e =? JL_SERVER_DISCONNECTED then [LOG_DISCONNECTED] else [])).
Proof.
  unfold errout. apply post_skip. intros s. cbn. split; [done|].
  destruct (e =? JL_CANNOT_CONNECT), (e =? JL_AUTHEN_FAILED), (e =? JL_SERVER_DISCONNECTED); cbn;
    by rewrite <-?app_assoc, ?app_nil_r.
Qed.

(** Every login that does not succeed is reported as the server
    being out of reach, a refused password and a broken stream too: the code
    [j_connect] gives is thrown away, and [Authentication failed] is not
    logged. *)
Theorem failed_login_report (h : heap) (n : net) (roster : ptr) (filt : option iksfilter) (a : answers)
    (server account password sendto nickname : str) (ds : Z) (evs : list event) e p s code r :
  j_connect h n (mk_world blank_session roster filt []) a (account ++ bs "@" ++ server) password nickname = Done (e, p, s) →
  e ≠ JL_OK →
  j_main h n roster filt a server account password sendto nickname ds evs = Done (code, r) →
  code = Some JL_CANNOT_CONNECT ∧ added r = [LOG_CANNOT_CONNECT].
Proof.
  intros Hc He Hm. unfold j_main, sprintf in Hm. destruct (_ <? BUF_SIZE); [|discriminate Hm]. cbn [mbind exec_bind] in Hm. rewrite Hc in Hm.
  cbn [mbind exec_bind] in Hm. rewrite (proj2 (Z.eqb_neq _ _)) in Hm by done. cbn [negb] in Hm.
  pose proof (errout_logs (mk_run s 0 [] 0) JL_CANNOT_CONNECT 0 0) as Hp.
  destruct (errout _ _ _ _) as [[e' r']|]; [|done]. destruct Hp as [-> Hl]. by injection Hm as <- <-.
Qed.

(** A system that answers every call, with a server that sends the given texts. *)
Definition server_sends (l : list str) : answers := mk_answers [] (true, []) (Some [5]) 0 (map (λ t, (strlen t, t)) l).
Definition empty_heap : heap := mk_heap ∅ 0 0 [].
Definition quiet_net : net := mk_net [] [] [] [] [].

Definition try_login (l : list str) : exec (option Z * run) :=
  j_main empty_heap quiet_net None None (server_sends l) (bs "example.org") (bs "cam") (bs "secret") (bs "you@example.org") (bs "door") 7 [].

Definition refused : list str := [bs "<stream:stream id='1'>"; bs "<failure/>"].

Lemma failed_login_report_witness :
  ∃ r, try_login refused = Done (Some JL_CANNOT_CONNECT, r) ∧ added r = [LOG_CANNOT_CONNECT] ∧
    errors (client (strm_of r)) = [bs "sasl authentication failed"; bs "io error"].
Proof.
  destruct (try_login refused) as [[code r]|] eqn:E; [|vm_compute in E; discriminate E].
  destruct (j_connect empty_heap quiet_net (mk_world blank_session None None []) (server_sends refused) (bs "cam@example.org")
    (bs "secret") (bs "door")) as [[[e p] s]|] eqn:Ec; [|vm_compute in Ec; discriminate Ec].
  destruct (failed_login_report empty_heap quiet_net None None (server_sends refused) (bs "example.org") (bs "cam") (bs "secret")
    (bs "you@example.org") (bs "door") 7 [] e p s code r Ec) as [-> Ha].
  - vm_compute in Ec. injection Ec as <- _ _. discriminate.
  - exact E.
  - exists r. split; [reflexivity|]. split; [exact Ha|]. vm_compute in E. injection E as <-. reflexivity.
Defined.

(** A server that closes the stream before the login, instead of
    answering it, is taken for a successful login: the code for it is that of
    a hook that asks to leave the loop.  The client announces its presence, logs
    [Login successfully] and enters its main loop without having sent a
    password. *)
Theorem disconnect_is_login :
  ∃ r, try_login [bs "<stream:stream id='1'>"; bs "</stream:stream>"] = Done (None, r) ∧ added r = [LOG_LOGIN] ∧
    authorized (sess (client (strm_of r))) = false ∧ errors (client (strm_of r)) = [bs "server disconnected"] ∧
    sent (nt (strm_of r)) = [header IKS_NS_CLIENT (bs "example.org"); bs "<presence><status>door</status></presence>"].
Proof. eexists. split; [vm_compute; reflexivity|]. split_and!; vm_compute; reflexivity. Qed.

(** A whole login with the PLAIN mechanism, from the header to
    the presence: what the client sends, in order, for a server that offers
    the mechanism, accepts the password, offers binding and a session, and
    answers the roster request.  The password has the two signs of padding the
    encoder always writes. *)
Theorem plain_login_run :
  ∃ r, try_login [bs "<stream:stream id='1'>";
      bs "<stream:features><mechanisms><mechanism>PLAIN</mechanism></mechanisms></stream:features>"; bs "<success/>";
      bs "<stream:stream id='2'>"; bs "<stream:features><bind/><session/></stream:features>";
      bs "<iq type='result' id='auth'/>"; bs "<iq type='result' id='roster'><query xmlns='jabber:iq:roster'/></iq>"]
    = Done (None, r) ∧ added r = [LOG_LOGIN] ∧ authorized (sess (client (strm_of r))) = true ∧ errors (client (strm_of r)) = [] ∧
    sent (nt (strm_of r)) =
      [header IKS_NS_CLIENT (bs "example.org");
       bs "<auth xmlns='urn:ietf:params:xml:ns:xmpp-sasl' mechanism='PLAIN'>AGNhbQBzZWNyZXQ==</auth>";
       header IKS_NS_CLIENT (bs "example.org");
       bs "<iq type='set'><bind xmlns='urn:ietf:params:xml:ns:xmpp-bind'><resource>Cisco</resource></bind></iq>";
       bs "<iq type='set' id='auth'><session xmlns='urn:ietf:params:xml:ns:xmpp-session'/></iq>";
       bs "<iq type='get' id='roster'><query xmlns='jabber:iq:roster'/></iq>";
       bs "<presence><status>door</status></presence>"].
Proof. eexists. split; [vm_compute; reflexivity|]. split_and!; vm_compute; reflexivity. Qed.

(** When the client leaves its main loop it closes the socket
    twice: once itself, and once more when the parser is deleted. *)
Theorem socket_closed_twice (r : run) (e log_fd : Z) :
  trans (sd (strm_of r)) = true → s_current (sd (strm_of r)) = None → log_fd ≠ 0 → iks_fd (strm_of r) ≠ 0 →
  ∃ r', errout r e log_fd (iks_fd (strm_of r)) = Done (e, r') ∧
    closed (nt (strm_of r')) = closed (nt (strm_of r)) ++ [log_fd; iks_fd (strm_of r); iks_fd (strm_of r)].
Proof.
  intros Ht Hc Hl Hj. unfold errout. rewrite (proj2 (Z.eqb_neq _ _) Hl), (proj2 (Z.eqb_neq _ _) Hj).
  unfold iks_parser_delete, stream_deleteHook, close_fd. cbn. rewrite Ht. cbn. rewrite Hc. cbn. eexists. split; [reflexivity|].
  destruct (e =? JL_CANNOT_CONNECT), (e =? JL_AUTHEN_FAILED), (e =? JL_SERVER_DISCONNECTED); cbn; by rewrite <-!app_assoc.
Qed.

Lemma socket_closed_twice_witness :
  ∃ r', errout (mk_run demo_client 300 [] 0) JL_SERVER_DISCONNECTED 7 5 = Done (JL_SERVER_DISCONNECTED, r') ∧
    closed (nt (strm_of r')) = [7; 5; 5].
Proof. apply (socket_closed_twice (mk_run demo_client 300 [] 0) JL_SERVER_DISCONNECTED 7); (reflexivity || discriminate). Defined.

(** ** The buffers of the configuration *)

(** With names no longer than the fields of the configuration (64
    bytes for the server, 32 for the account) neither the Jabber id nor the
    line of the tunnel's configuration overflows its buffer, and the tunnel is
    started with the server's address; the account with the default resource
    fits its block for names of any length. *)
Theorem config_fits (server account : str) :
  strlen server <= 64 → strlen account <= 32 →
  sprintf BUF_SIZE (account ++ bs "@" ++ server) = Done (account ++ bs "@" ++ server) ∧
  (∃ cmds, create_stunnel server 3 = Done (0, cmds, stunnel_fix ++ bs "connect = " ++ server ++ bs ":5223" ++ [10])) ∧
  ∀ u v, sprintf (strlen u + strlen v + 9 + 3) (u ++ bs "@" ++ v ++ bs "/" ++ COMPANY_NAME)
         = Done (u ++ bs "@" ++ v ++ bs "/" ++ COMPANY_NAME).
Proof.
  intros Hs Ha. split_and!.
  - apply sprintf_fits. rewrite !strlen_app. change (strlen (bs "@")) with 1. unfold BUF_SIZE. lia.
  - eexists. unfold create_stunnel. cbn [Z.ltb Z.compare]. rewrite sprintf_fits; [reflexivity|].
    rewrite !strlen_app. change (strlen (bs "connect = ")) with 10. change (strlen (bs ":5223")) with 5. change (strlen [10]) with 1. lia.
  - intros u v. apply sprintf_fits. rewrite !strlen_app. change (strlen (bs "@")) with 1. change (strlen (bs "/")) with 1.
    change (strlen COMPANY_NAME) with 5. lia.
Qed.

Lemma config_fits_witness :
  ∃ cmds, create_stunnel (bs "example.org") 3 = Done (0, cmds, stunnel_fix ++ bs "connect = example.org:5223" ++ [10]).
Proof.
  destruct (config_fits (bs "example.org") (bs "cam")) as (_ & (cmds & E) & _); [vm_compute; discriminate..|].
  exists cmds. exact E.
Defined.
