(* ===== verification/Clock.v ===== *)
(** * Calendar time

    The part of the C library that [src/sysapps/apps/cron/cron.c] relies on:
    [localtime] and [mktime].  The clock of the camera is kept in local time
    (the daylight saving code moves it by an hour with [stime]), so the library
    runs without a time zone and [localtime] is the calendar of the seconds
    since 1970.  A [time_t] is a signed number of 32 bits: it ends on 19 January
    2038, at 3:14:07, and goes on in December 1901. *)

From S2P Require Import Prelude.

Local Open Scope Z_scope.

Record tm : Type := mk_tm {
  tm_sec : Z; tm_min : Z; tm_hour : Z; tm_mday : Z; tm_mon : Z; tm_year : Z; tm_wday : Z; tm_yday : Z }.

Definition leap (y : Z) : bool := (y mod 4 =? 0) && negb (y mod 100 =? 0) || (y mod 400 =? 0).
Definition year_days (y : Z) : Z := if leap y then 366 else 365.

(** The year and the day in it, counted from a first day of a year on. *)
Fixpoint find_year (fuel : nat) (y days : Z) : Z * Z :=
  match fuel with
  | O => (y, days)
  | S fuel' => if days <? year_days y then (y, days) else find_year fuel' (y + 1) (days - year_days y)
  end.

Definition month_days (y : Z) : list Z := [31; if leap y then 29 else 28; 31; 30; 31; 30; 31; 31; 30; 31; 30; 31].

Fixpoint find_month (ms : list Z) (m day : Z) : Z * Z :=
  match ms with
  | [] => (m, day)
  | n :: ms' => if day <? n then (m, day) else find_month ms' (m + 1) (day - n)
  end.

(** The years that 32 bits can tell, signed and unsigned. *)
Definition YEARS : nat := 140.

(** The year of a day and the day in it; there are 25202 days from 1901 to 1970. *)
Definition year_of (days : Z) : Z * Z :=
  if days <? 0 then find_year YEARS 1901 (days + 25202) else find_year YEARS 1970 days.

(** The calendar of a number of seconds. *)
Definition calendar (t : Z) : tm :=
  let days := t / 86400 in
  let s := t mod 86400 in
  let '(y, yday) := year_of days in
  let '(mon, mday) := find_month (month_days y) 0 yday in
  mk_tm (s mod 60) (s / 60 mod 60) (s / 3600) (mday + 1) mon (y - 1900) ((days + 4) mod 7) yday.

(** [localtime] of a [time_t]. *)
Definition localtime (t : Z) : tm := calendar (s32 t).

(** The day of 1970 a year starts with. *)
Fixpoint days_to (n : nat) : Z := match n with O => 0 | S n' => days_to n' + year_days (1970 + Z.of_nat n') end.
Definition new_year (y : Z) : Z := days_to (Z.to_nat (y - 1970)).

(** A moment of local time, as seconds since 1970. *)
Definition moment (y d h m s : Z) : Z := (new_year y + d) * 86400 + h * 3600 + m * 60 + s.

(** [mktime] of the fields it reads, with a day of the year: the month and the
    day in it are counted into one. *)
Definition days_before (y mon : Z) : Z := fold_left Z.add (take (Z.to_nat mon) (month_days y)) 0.
Definition mktime (x : tm) : Z :=
  let y := tm_year x + 1900 in
  s32 (moment y (days_before y (tm_mon x) + tm_mday x - 1) (tm_hour x) (tm_min x) (tm_sec x)).

Lemma year_days_pos y : 365 <= year_days y <= 366.
Proof. unfold year_days. destruct (leap y); lia. Qed.

Lemma days_to_nonneg n : 0 <= days_to n.
Proof. induction n as [|n IH]; cbn; [lia|]. pose proof (year_days_pos (1970 + Z.of_nat n)). lia. Qed.

Lemma days_to_mono k n : (k < n)%nat → days_to k + year_days (1970 + Z.of_nat k) <= days_to n.
Proof.
  induction n as [|n IH]; [lia|]. intros Hk. cbn. pose proof (year_days_pos (1970 + Z.of_nat n)).
  destruct (decide (k = n)) as [->|]; [lia|]. specialize (IH ltac:(lia)). lia.
Qed.

Lemma find_year_spec fuel : ∀ k n d,
  (k <= n)%nat → (n - k < fuel)%nat → 0 <= d < year_days (1970 + Z.of_nat n) →
  find_year fuel (1970 + Z.of_nat k) (days_to n - days_to k + d) = (1970 + Z.of_nat n, d).
Proof.
  induction fuel as [|fuel IH]; intros k n d Hk Hf Hd; [lia|]. cbn [find_year].
  destruct (decide (k = n)) as [->|Hn].
  - replace (days_to n - days_to n + d) with d by lia. by rewrite (proj2 (Z.ltb_lt _ _)) by lia.
  - pose proof (days_to_mono k n ltac:(lia)). rewrite (proj2 (Z.ltb_ge _ _)) by lia.
    rewrite <-(IH (S k) n d) by lia. cbn [days_to]. f_equal; lia.
Qed.

(** A moment in the form the calendar has it. *)
Definition valid (y d h m s : Z) : Prop :=
  1970 <= y < 2100 ∧ 0 <= d < year_days y ∧ 0 <= h < 24 ∧ 0 <= m < 60 ∧ 0 <= s < 60.

(** A moment that a [time_t] can tell. *)
Definition in_time (y d h m s : Z) : Prop := valid y d h m s ∧ moment y d h m s < 2 ^ 31.

Lemma valid_nonneg y d h m s : valid y d h m s → 0 <= moment y d h m s.
Proof. intros (_ & Hd & Hh & Hm & Hs). unfold moment, new_year. pose proof (days_to_nonneg (Z.to_nat (y - 1970))). lia. Qed.

Ltac solve_time := unfold in_time, valid; split_and!; (lia || (vm_compute; (discriminate || reflexivity)) || (split; vm_compute; (discriminate || reflexivity))).

(** [calendar] reads a moment back. *)
Lemma calendar_moment y d h m s :
  valid y d h m s →
  tm_year (calendar (moment y d h m s)) = y - 1900 ∧ tm_yday (calendar (moment y d h m s)) = d ∧
  tm_hour (calendar (moment y d h m s)) = h ∧ tm_min (calendar (moment y d h m s)) = m ∧
  tm_sec (calendar (moment y d h m s)) = s.
Proof.
  intros (Hy & Hd & Hh & Hm & Hs). unfold calendar, moment.
  set (n := Z.to_nat (y - 1970)). assert (Ey : y = 1970 + Z.of_nat n) by lia.
  replace (((new_year y + d) * 86400 + h * 3600 + m * 60 + s) / 86400) with (days_to n - days_to 0 + d)
    by (unfold new_year; fold n; cbn [days_to]; zdm).
  replace (((new_year y + d) * 86400 + h * 3600 + m * 60 + s) mod 86400) with (h * 3600 + m * 60 + s) by zdm.
  pose proof (find_year_spec YEARS 0 n d ltac:(lia) ltac:(unfold YEARS; lia) ltac:(rewrite <-Ey; lia)) as Ef.
  rewrite <-Ey in Ef. change (1970 + Z.of_nat 0) with 1970 in Ef. pose proof (days_to_nonneg n).
  unfold year_of. rewrite (proj2 (Z.ltb_ge (days_to n - days_to 0 + d) 0)) by (change (days_to 0) with 0; lia). rewrite Ef. destruct (find_month _ _ _) as [mon mday]. cbn [tm_year tm_yday tm_hour tm_min tm_sec].
  replace ((h * 3600 + m * 60 + s) / 60) with (h * 60 + m) by zdm. clear Hd Hy Ey Ef.
  split_and!; [lia|done|zdm|zdm|zdm].
Qed.

Lemma localtime_in_time y d h m s : in_time y d h m s → localtime (moment y d h m s) = calendar (moment y d h m s).
Proof. intros [Hv Ht]. unfold localtime. rewrite s32_id; [done|]. pose proof (valid_nonneg _ _ _ _ _ Hv). lia. Qed.

Lemma localtime_moment y d h m s :
  in_time y d h m s →
  tm_year (localtime (moment y d h m s)) = y - 1900 ∧ tm_yday (localtime (moment y d h m s)) = d ∧
  tm_hour (localtime (moment y d h m s)) = h ∧ tm_min (localtime (moment y d h m s)) = m ∧
  tm_sec (localtime (moment y d h m s)) = s.
Proof. intros Ht. rewrite localtime_in_time by done. apply calendar_moment, Ht. Qed.

Lemma find_month_spec ms : ∀ m day, 0 <= day < fold_left Z.add ms 0 →
  ∃ k r, find_month ms m day = (m + Z.of_nat k, r) ∧ fold_left Z.add (take k ms) 0 + r = day ∧ (k < length ms)%nat.
Proof.
  assert (Hf : ∀ l a, fold_left Z.add l a = a + fold_left Z.add l 0).
  { induction l as [|x l IH]; intros a; cbn [fold_left]; [lia|]. rewrite (IH (a + x)), (IH (0 + x)). lia. }
  induction ms as [|n ms IH]; intros m day Hd; cbn [fold_left] in Hd; [lia|]. cbn [find_month].
  destruct (Z.ltb_spec day n) as [Hn|Hn].
  - exists 0%nat, day. rewrite Z.add_0_r. cbn. split_and!; [done|lia|lia].
  - rewrite Hf in Hd. destruct (IH (m + 1) (day - n)) as (k & r & E & Hr & Hk); [lia|].
    exists (S k), r. rewrite E. split_and!; [f_equal; lia|cbn [take fold_left]; rewrite Hf; lia|cbn; lia].
Qed.

(** The month and the day of the month count into the day of the year. *)
Lemma calendar_days y d h m s : valid y d h m s →
  let x := calendar (moment y d h m s) in days_before y (tm_mon x) + tm_mday x - 1 = d.
Proof.
  intros Hv. destruct (calendar_moment _ _ _ _ _ Hv) as (E1 & E2 & _). cbv zeta.
  destruct Hv as (Hy & Hd & _). revert E1 E2. unfold calendar. destruct (year_of _) as [y' yd].
  assert (Hsum : fold_left Z.add (month_days y) 0 = year_days y) by (unfold month_days, year_days; destruct (leap y); done).
  destruct (find_month (month_days y') 0 yd) as [mon mday] eqn:Ef. cbn [tm_year tm_yday tm_mon tm_mday]. intros Ey ->.
  replace y' with y in * by lia. destruct (find_month_spec (month_days y) 0 d) as (k & r & E & Hr & _); [lia|].
  rewrite Ef in E. injection E as -> ->. unfold days_before. rewrite Z.add_0_l, Nat2Z.id. lia.
Qed.

(** [mktime (localtime (t))] is [t]. *)
Lemma mktime_localtime y d h m s : in_time y d h m s → mktime (localtime (moment y d h m s)) = moment y d h m s.
Proof.
  intros Ht. destruct (localtime_moment _ _ _ _ _ Ht) as (E1 & _ & E3 & E4 & E5).
  unfold mktime. rewrite E1, E3, E4, E5, (localtime_in_time _ _ _ _ _ Ht). replace (y - 1900 + 1900) with y by lia.
  destruct Ht as [Hv Ht]. pose proof (calendar_days _ _ _ _ _ Hv) as Ed. cbv zeta in Ed. rewrite Ed.
  apply s32_id. pose proof (valid_nonneg _ _ _ _ _ Hv). lia.
Qed.

(** Every time before 2100 is a moment of the calendar. *)
Lemma moment_of t : 0 <= t < moment 2100 0 0 0 0 → ∃ y d h m s, valid y d h m s ∧ t = moment y d h m s.
Proof.
  intros Ht. assert (Hn : ∀ n, 0 <= t / 86400 < days_to n → ∃ k d, (k < n)%nat ∧ 0 <= d < year_days (1970 + Z.of_nat k) ∧ t / 86400 = days_to k + d).
  { induction n as [|n IH]; intros H; cbn [days_to] in H; [lia|]. destruct (Z_lt_dec (t / 86400) (days_to n)).
    - destruct IH as (k & d & ? & ? & ?); [lia|]. exists k, d. split_and!; (done || lia).
    - exists n, (t / 86400 - days_to n). lia. }
  destruct (Hn 130%nat) as (k & d & Hk & Hd & E).
  { unfold moment in Ht. change (new_year 2100) with (days_to 130) in Ht. revert Ht. generalize (days_to 130). intros. zdm. }
  exists (1970 + Z.of_nat k), d, (t mod 86400 / 3600), (t mod 86400 / 60 mod 60), (t mod 86400 mod 60). split.
  - unfold valid. clear Ht Hn E. split_and!; (lia || zdm).
  - unfold moment, new_year. replace (Z.to_nat (1970 + Z.of_nat k - 1970)) with k by lia. rewrite <-E. clear. zdm.
Qed.

(** Every time that a [time_t] can tell and that is not negative. *)
Lemma time_of t : 0 <= t < 2 ^ 31 → ∃ y d h m s, in_time y d h m s ∧ t = moment y d h m s.
Proof.
  intros Ht. destruct (moment_of t) as (y & d & h & m & s & Hv & E).
  { assert (2 ^ 31 < moment 2100 0 0 0 0) by (vm_compute; reflexivity). lia. }
  exists y, d, h, m, s. split; [|done]. split; [done|]. rewrite <-E. lia.
Qed.

(** The month and the day in it. *)
Lemma find_month_day ms : ∀ m day, Forall (λ n, n <= 31) ms → 0 <= day < fold_left Z.add ms 0 →
  m <= (find_month ms m day).1 < m + Z.of_nat (length ms) ∧ 0 <= (find_month ms m day).2 < 31.
Proof.
  assert (Hf : ∀ l a, fold_left Z.add l a = a + fold_left Z.add l 0).
  { induction l as [|x l IH]; intros a; cbn [fold_left]; [lia|]. rewrite (IH (a + x)), (IH (0 + x)). lia. }
  induction ms as [|n ms IH]; intros m day Hms Hd; cbn [fold_left] in Hd; [lia|]. cbn [find_month length]. rewrite Hf in Hd. inversion Hms; subst.
  destruct (Z.ltb_spec day n); cbn [fst snd]; [lia|]. specialize (IH (m + 1) (day - n)). lia || (destruct IH as [? ?]; [done|lia|lia]).
Qed.
