(* ===== verification/Dst.v ===== *)
(** * Daylight saving time

    [src/sysapps/apps/cron/cron.c]: [daylight_saving] decides from the time zone
    and the local time whether daylight saving time is in force; the main loop
    of the cron daemon compares that with a flag kept in the configuration and
    moves the clock by an hour when they differ; [set_rtc] writes the new time
    to the clock chip.

    The theorems compare the rules with the calendar: the second Sunday of March
    and the first of November for North America, the last Sundays of March and
    October for Europe; and show where the code departs from them.  They are about the
    moments that a [time_t] of 32 bits can tell, up to 19 January 2038. *)

From S2P Require Import Prelude Clock.

Local Open Scope Z_scope.

Inductive region : Type :=
| NEEDNOT_DST | NA_DST | EU_DST | CHILE_DST | SA_DST | IRAQ_DST | AU2_DST | AU3_DST | AF_DST | AU_DST.

#[export] Instance region_eq_dec : EqDecision region.
Proof. solve_decision. Defined.

(** The column [dst] of the table; its names and offsets are not used. *)
Definition TimeZone : list region :=
  [NEEDNOT_DST; NEEDNOT_DST; NEEDNOT_DST; NA_DST; NA_DST; NEEDNOT_DST;
   NA_DST; NA_DST; NEEDNOT_DST; NA_DST; NA_DST; NEEDNOT_DST;
   NEEDNOT_DST; NA_DST; NEEDNOT_DST; NA_DST; NEEDNOT_DST; CHILE_DST;
   NA_DST; SA_DST; NEEDNOT_DST; EU_DST; EU_DST; EU_DST;
   NEEDNOT_DST; NEEDNOT_DST; EU_DST; EU_DST; EU_DST; EU_DST;
   EU_DST; NEEDNOT_DST; EU_DST; EU_DST; AF_DST; NEEDNOT_DST;
   EU_DST; NEEDNOT_DST; IRAQ_DST; NEEDNOT_DST; EU_DST; NEEDNOT_DST;
   IRAQ_DST; NEEDNOT_DST; EU_DST; NEEDNOT_DST; EU_DST; NEEDNOT_DST;
   NEEDNOT_DST; NEEDNOT_DST; EU_DST; NEEDNOT_DST; NEEDNOT_DST; NEEDNOT_DST;
   NEEDNOT_DST; EU_DST; NEEDNOT_DST; EU_DST; NEEDNOT_DST; NEEDNOT_DST;
   NEEDNOT_DST; NEEDNOT_DST; NEEDNOT_DST; EU_DST; AU_DST; NEEDNOT_DST;
   NEEDNOT_DST; NEEDNOT_DST; NEEDNOT_DST; AU2_DST; EU_DST; NEEDNOT_DST;
   AU3_DST; NEEDNOT_DST; NEEDNOT_DST; NEEDNOT_DST].

Definition is_leap_year (y : Z) : Z :=
  if (Z.rem y 4 =? 0) && negb (Z.rem y 100 =? 0) || (Z.rem y 100 =? 0) && (Z.rem y 400 =? 0) then 1 else 0.

(** [startDay] and [endDay]; they are not set for the other regions. *)
Definition window (r : region) (y : Z) : option (Z * Z) :=
  match r with
  | NA_DST =>
      let k := Z.rem (y - 2002 + Z.quot (y - 2004) 4 - 2) 7 in
      Some (72 + is_leap_year y - k, 309 + is_leap_year y - k)
  | EU_DST =>
      Some (90 + is_leap_year y - Z.rem (y - 2002 + Z.quot (y - 2000) 4) 7,
            304 + is_leap_year y - Z.rem (y - 1999 + Z.quot (y - 1996) 4) 7)
  | AU_DST => Some (304 - Z.rem (y - 1999 + Z.quot (y - 1996) 4) 7, 90 - Z.rem (y - 2002 + Z.quot (y - 2000) 4) 7)
  | CHILE_DST => Some (287 - Z.rem (y - 2000 + Z.quot (y - 2000) 4) 7, 73 - Z.rem (y - 1998 + Z.quot (y - 1996) 4) 7)
  | SA_DST => Some (311 - Z.rem (y - 2004 + Z.quot (y - 2004) 4) 7, 52 - Z.rem (y - 1999 + Z.quot (y - 1996) 4) 7)
  | AF_DST => Some (120 - Z.rem (y - 2004 + Z.quot (y - 2004) 4) 7, 273 - Z.rem (y - 2004 + Z.quot (y - 2004) 4) 7)
  | IRAQ_DST => Some (if negb (Z.rem y 4 =? 0) then (91, 274) else (92, 275))
  | AU2_DST => Some (280 - Z.rem (y - 2001 + Z.quot (y - 2000) 4) 7, 90 - Z.rem (y - 2002 + Z.quot (y - 2000) 4) 7)
  | AU3_DST => Some (280 - Z.rem (y - 2001 + Z.quot (y - 2000) 4) 7, 80 - Z.rem (y - 1999 + Z.quot (y - 1996) 4) 7)
  | NEEDNOT_DST => None
  end.

(** From the first to the last day, but not before the hour of the first and not
    from the hour of the last on. *)
Definition in_window (first last hour d h : Z) : bool :=
  if (first <=? d) && (d <=? last) then
    negb ((d =? first) && (h <? hour) || (d =? last) && (hour <=? h))
  else false.

(** [bSaveFlag] for a day of the year and an hour. *)
Definition save_flag (r : region) (y d h : Z) : bool :=
  match window r y with
  | None => false
  | Some (startDay, endDay) =>
      match r with
      | AU_DST | AU2_DST | AU3_DST =>
          let d := if y =? 2006 then d + 1 + (if decide (r = AU_DST) then 2 else 0) else d in
          let d := if (y =? 2007) && (endDay <? d + 2) then d + 1 else d in
          (startDay <=? d) || (d <=? endDay)
      | IRAQ_DST | AF_DST | SA_DST | CHILE_DST => (startDay - 1 <=? d) && (d <=? endDay - 1)
      | EU_DST => in_window (startDay - 1) (endDay - 1) 1 d h
      | NA_DST =>
          let '(startDay, endDay) :=
            if y =? 2005 then (92, 302) else if y =? 2006 then (91, 301) else (startDay, endDay + 1) in
          in_window startDay endDay 2 d h
      | NEEDNOT_DST => false
      end
  end.

(** An index outside the table is a fault. *)
Definition daylight_saving (tzone time : Z) : exec Z :=
  let st := localtime time in
  if tzone <? 0 then Fault else
  match TimeZone !! Z.to_nat tzone with
  | None => Fault
  | Some r => Done (b2z (save_flag r (1900 + tm_year st) (tm_yday st) (tm_hour st)))
  end.

(** ** The clock chip *)

Definition convert (range : Z) : list Z := [u8 (Z.quot range 10); u8 (Z.rem range 10)].

Definition set_rtc (now : Z) : list Z :=
  let t := localtime now in
  [2; 0; 0; 0] ++ convert (tm_year t) ++ convert (tm_mon t) ++ convert (tm_mday t) ++
  convert (tm_hour t) ++ convert (tm_min t) ++ convert (tm_sec t).

(** ** The step of the main loop *)

Definition DST_CHG_ENTER : Z := 2.
Definition DST_CHG_LEAVE : Z := 3.

(** The time, the flag [MAN_SUMMER_CHANGED] of the configuration ([None] when it
    cannot be read), the log, and what the clock chip was given. *)
Record clock : Type := mk_clock { now : Z; summer : option Z; dst_log : list Z; rtc : option (list Z) }.

(** What is configured: whether daylight saving is wanted, and the time zone. *)
Record time_fmt : Type := mk_fmt { d_sav : bool; t_index : Z }.

Definition shift (c : clock) (by_ event flag : Z) : clock :=
  let stm := s32 (mktime (localtime (now c)) + by_) in
  mk_clock stm (Some flag) (dst_log c ++ [event]) (Some (set_rtc stm)).

Definition dst_step (fmt : time_fmt) (c : clock) : exec clock :=
  let dsv := default 0 (summer c) in
  if negb (d_sav fmt) then Done c else
  ret ← daylight_saving (t_index fmt) (now c);
  if negb (ret =? dsv) then
    if negb (dsv =? 0) then Done (shift c (-3600) DST_CHG_LEAVE 0)
    else Done (shift c 3600 DST_CHG_ENTER 1)
  else Done c.

(** The flag as it is set when the daemon starts. *)
Definition dst_start (fmt : time_fmt) (c : clock) : exec clock :=
  if negb (d_sav fmt) then Done c else
  dsv ← daylight_saving (t_index fmt) (now c);
  Done (mk_clock (now c) (Some dsv) (dst_log c) (rtc c)).

(** ** The calendar's rules *)

(** The day of the week of a day of the year, 0 for Sunday. *)
Definition weekday (y d : Z) : Z := (new_year y + d + 4) mod 7.

(** The [n]-th Sunday of a month and the last one; months count from 0. *)
Definition nth_sunday (y mon n : Z) : Z :=
  let first := days_before y mon in first + (7 - weekday y first) mod 7 + 7 * (n - 1).
Definition last_sunday (y mon : Z) : Z :=
  let last := days_before y (mon + 1) - 1 in last - weekday y last.

(** From an hour of one day to the same hour of another. *)
Definition between (first last hour d h : Z) : Prop := first * 24 + hour <= d * 24 + h < last * 24 + hour.

#[export] Instance between_dec first last hour d h : Decision (between first last hour d h).
Proof. unfold between. apply _. Defined.

Lemma in_window_between first last hour d h :
  first < last → 0 < hour < 24 → 0 <= h < 24 → in_window first last hour d h = bool_decide (between first last hour d h).
Proof.
  intros Hf Hh Hd. unfold in_window, between. symmetry.
  destruct (Z.leb_spec first d), (Z.leb_spec d last); cbn [andb]; [|apply bool_decide_eq_false; lia..].
  destruct (Z.eqb_spec d first), (Z.eqb_spec d last), (Z.ltb_spec h hour), (Z.leb_spec hour h); cbn [andb orb negb];
    (apply bool_decide_eq_true || apply bool_decide_eq_false); lia.
Qed.

(** All years from [y] on. *)
Definition years (y : Z) (n : nat) (P : Z → bool) : bool := forallb (λ k, P (y + Z.of_nat k)) (seq 0 n).

Lemma years_spec y n P x : years y n P = true → y <= x < y + Z.of_nat n → P x = true.
Proof.
  unfold years. rewrite forallb_forall. intros H Hx. specialize (H (Z.to_nat (x - y))).
  replace (y + Z.of_nat (Z.to_nat (x - y))) with x in H by lia. apply H, in_seq. lia.
Qed.

Lemma na_days y : 2007 <= y < 2100 →
  (∃ s e, window NA_DST y = Some (s, e) ∧ s = nth_sunday y 2 2 ∧ e + 1 = nth_sunday y 10 1) ∧ nth_sunday y 2 2 < nth_sunday y 10 1.
Proof.
  intros Hy. pose proof (years_spec 2007 93 (λ y, match window NA_DST y with
    | Some (s, e) => (s =? nth_sunday y 2 2) && (e + 1 =? nth_sunday y 10 1) && (nth_sunday y 2 2 <? nth_sunday y 10 1)
    | None => false end) y ltac:(vm_compute; reflexivity) ltac:(lia)) as H.
  cbn beta in H. destruct (window NA_DST y) as [[s e]|]; [|done]. apply andb_prop in H as [H ?%Z.ltb_lt].
  apply andb_prop in H as [?%Z.eqb_eq ?%Z.eqb_eq]. split; [by exists s, e|done].
Qed.

Lemma eu_days y : 2002 <= y < 2100 →
  (∃ s e, window EU_DST y = Some (s, e) ∧ s - 1 = last_sunday y 2 ∧ e - 1 = last_sunday y 9) ∧ last_sunday y 2 < last_sunday y 9.
Proof.
  intros Hy. pose proof (years_spec 2002 98 (λ y, match window EU_DST y with
    | Some (s, e) => (s - 1 =? last_sunday y 2) && (e - 1 =? last_sunday y 9) && (last_sunday y 2 <? last_sunday y 9)
    | None => false end) y ltac:(vm_compute; reflexivity) ltac:(lia)) as H.
  cbn beta in H. destruct (window EU_DST y) as [[s e]|]; [|done]. apply andb_prop in H as [H ?%Z.ltb_lt].
  apply andb_prop in H as [?%Z.eqb_eq ?%Z.eqb_eq]. split; [by exists s, e|done].
Qed.

Lemma daylight_at tz r y d h m s :
  0 <= tz → TimeZone !! Z.to_nat tz = Some r → in_time y d h m s →
  daylight_saving tz (moment y d h m s) = Done (b2z (save_flag r y d h)).
Proof.
  intros Hz Ht Hv. destruct (localtime_moment _ _ _ _ _ Hv) as (E1 & E2 & E3 & _). unfold daylight_saving.
  rewrite (proj2 (Z.ltb_ge _ _)), Ht, E1, E2, E3 by lia. by replace (1900 + (y - 1900)) with y by lia.
Qed.

Lemma na_flag y d h : 2007 <= y < 2100 → 0 <= h < 24 →
  save_flag NA_DST y d h = bool_decide (between (nth_sunday y 2 2) (nth_sunday y 10 1) 2 d h).
Proof.
  intros Hy Hh. destruct (na_days y Hy) as [(s & e & E & -> & Ee) Hl]. unfold save_flag. rewrite E.
  rewrite !(proj2 (Z.eqb_neq _ _)) by lia. rewrite Ee. by apply in_window_between.
Qed.

(** C22 (functional): in the North American zones daylight saving time is in force
    from the second Sunday of March, two o'clock, to the first Sunday of
    November, two o'clock, in every year from 2007 on, up to the last moment that a
    [time_t] of 32 bits can tell, on 19 January 2038. *)
Theorem na_daylight (tz y d h m s : Z) :
  0 <= tz → TimeZone !! Z.to_nat tz = Some NA_DST → 2007 <= y → in_time y d h m s →
  daylight_saving tz (moment y d h m s)
  = Done (b2z (bool_decide (between (nth_sunday y 2 2) (nth_sunday y 10 1) 2 d h))).
Proof.
  intros Hz Ht Hy Hv. rewrite (daylight_at tz NA_DST) by done. destruct Hv as [(? & _ & ? & _) _]. by rewrite na_flag by lia.
Qed.

Lemma na_daylight_witness : daylight_saving 4 (moment 2008 68 2 0 0) = Done 1 ∧ daylight_saving 4 (moment 2008 68 1 59 59) = Done 0.
Proof.
  split; (etrans; [apply (na_daylight 4); [lia|reflexivity|lia|solve_time]|];
    reflexivity).
Defined.

(** In the European zones it is in force from the last Sunday of
    March, one o'clock, to the last Sunday of October, one o'clock local time, in
    every year from 2002 on, up to the last moment of a [time_t]. *)
Theorem eu_daylight (tz y d h m s : Z) :
  0 <= tz → TimeZone !! Z.to_nat tz = Some EU_DST → 2002 <= y → in_time y d h m s →
  daylight_saving tz (moment y d h m s) = Done (b2z (bool_decide (between (last_sunday y 2) (last_sunday y 9) 1 d h))).
Proof.
  intros Hz Ht Hy Hv. rewrite (daylight_at tz EU_DST) by done. destruct Hv as [((? & ?) & _ & ? & _) _].
  destruct (eu_days y ltac:(lia)) as [(a & e & E & Es & Ee) Hl]. unfold save_flag. rewrite E, Es, Ee.
  by rewrite in_window_between by lia.
Qed.

Lemma eu_daylight_witness : daylight_saving 26 (moment 2009 87 1 0 0) = Done 1.
Proof.
  etrans; [apply (eu_daylight 26); [lia|reflexivity|lia|solve_time]|].
  reflexivity.
Defined.

(** In Chile and Brazil, where summer spans the new year, daylight
    saving time is never in force from 2004 on: the first day lies behind the
    last one, and the code asks for a day between them. *)
Theorem south_never (tz y d h m s : Z) (r : region) :
  0 <= tz → TimeZone !! Z.to_nat tz = Some r → r = CHILE_DST ∨ r = SA_DST → 2004 <= y → in_time y d h m s →
  daylight_saving tz (moment y d h m s) = Done 0.
Proof.
  intros Hz Ht Hr Hy Hv. rewrite (daylight_at tz r) by done. destruct Hv as [((? & ?) & _) _].
  pose proof (years_spec 2004 96 (λ y, forallb (λ r, match window r y with Some (s, e) => e <? s | None => false end) [CHILE_DST; SA_DST]) y
    ltac:(vm_compute; reflexivity) ltac:(lia)) as Hw. cbn beta in Hw. rewrite forallb_forall in Hw.
  specialize (Hw r ltac:(destruct Hr as [->| ->]; cbn; auto)). unfold save_flag.
  destruct (window r y) as [[a e]|]; [|done]. apply Z.ltb_lt in Hw.
  assert (E : (a - 1 <=? d) && (d <=? e - 1) = false) by (apply andb_false_iff; rewrite !Z.leb_gt; lia).
  destruct Hr as [->| ->]; by rewrite E.
Qed.

Lemma south_never_witness : daylight_saving 19 (moment 2008 10 12 0 0) = Done 0.
Proof.
  apply (south_never 19 2008 10 12 0 0 SA_DST); [lia|reflexivity|by right|lia|].
  solve_time.
Defined.

(** ** The step *)

Lemma step_at fmt r y d h m s (f : bool) lg rt :
  d_sav fmt = true → 0 <= t_index fmt → TimeZone !! Z.to_nat (t_index fmt) = Some r → in_time y d h m s →
  dst_step fmt (mk_clock (moment y d h m s) (Some (b2z f)) lg rt)
  = Done (match save_flag r y d h, f with
          | true, false => let t := s32 (moment y d h m s + 3600) in mk_clock t (Some 1) (lg ++ [DST_CHG_ENTER]) (Some (set_rtc t))
          | false, true => let t := s32 (moment y d h m s + -3600) in mk_clock t (Some 0) (lg ++ [DST_CHG_LEAVE]) (Some (set_rtc t))
          | _, _ => mk_clock (moment y d h m s) (Some (b2z f)) lg rt
          end).
Proof.
  intros Hd Hz Ht Hv. unfold dst_step. cbn [summer default now]. rewrite Hd. cbn [negb].
  rewrite (daylight_at _ _ _ _ _ _ _ Hz Ht Hv). cbn [mbind exec_bind]. unfold shift. cbn [now dst_log].
  rewrite (mktime_localtime _ _ _ _ _ Hv). by destruct (save_flag r y d h), f.
Qed.

(** After a step the flag of the configuration says whether
    daylight saving time was in force at the time the step looked at, and the
    clock has moved by one hour exactly when the flag changed: forward when it
    was set and back when it was cleared. *)
Theorem step_keeps_flag (fmt : time_fmt) (r : region) (y d h m s : Z) (f : bool) (lg : list Z) (rt : option (list Z)) :
  d_sav fmt = true → 0 <= t_index fmt → TimeZone !! Z.to_nat (t_index fmt) = Some r → in_time y d h m s →
  ∃ c, dst_step fmt (mk_clock (moment y d h m s) (Some (b2z f)) lg rt) = Done c ∧
    summer c = Some (b2z (save_flag r y d h)) ∧
    now c = s32 (moment y d h m s + 3600 * (b2z (save_flag r y d h) - b2z f)).
Proof.
  intros Hd Hz Ht Hv. rewrite (step_at fmt r) by done. pose proof (valid_nonneg _ _ _ _ _ (proj1 Hv)). pose proof (proj2 Hv).
  destruct (save_flag r y d h), f; (eexists; split; [reflexivity|]; cbn [summer now b2z]; split; [done|]; first [f_equal; lia|rewrite s32_id by lia; lia]).
Qed.

Definition pacific : time_fmt := mk_fmt true 4.

Lemma step_keeps_flag_witness :
  ∃ c, dst_step pacific (mk_clock (moment 2008 68 2 0 0) (Some 0) [] None) = Done c ∧ summer c = Some 1 ∧ now c = moment 2008 68 3 0 0.
Proof.
  destruct (step_keeps_flag pacific NA_DST 2008 68 2 0 0 false [] None) as (c & E & Hs & Hn).
  - reflexivity.
  - vm_compute. discriminate.
  - reflexivity.
  - solve_time.
  - exists c. split; [exact E|]. split; [exact Hs|]. rewrite Hn. reflexivity.
Defined.

Lemma nov_day y : 2007 <= y < 2100 → 0 <= nth_sunday y 10 1 < year_days y.
Proof.
  intros Hy. pose proof (years_spec 2007 93 (λ y, (0 <=? nth_sunday y 10 1) && (nth_sunday y 10 1 <? year_days y)) y
    ltac:(vm_compute; reflexivity) ltac:(lia)) as H. cbn beta in H. apply andb_prop in H as [?%Z.leb_le ?%Z.ltb_lt]. lia.
Qed.

Lemma moment_hour y d h m s : moment y d h m s + -3600 = moment y d (h - 1) m s.
Proof. unfold moment. lia. Qed.

(** ** The digits of the clock chip *)

(** A year from 2000 on is not written as two digits: the first one is the
    number of decades since 1900. *)
Lemma rtc_decades y d h m s :
  2000 <= y → in_time y d h m s → set_rtc (moment y d h m s) !! 4%nat = Some ((y - 1900) / 10) ∧ 10 <= (y - 1900) / 10.
Proof.
  intros Hy Hv. destruct (localtime_moment _ _ _ _ _ Hv) as (E1 & _). unfold set_rtc. rewrite E1. destruct Hv as [((_ & ?) & _) _].
  cbn. rewrite Z.quot_div_nonneg by lia. split; [|zdm]. f_equal. unfold u8. apply Z.mod_small. change (2 ^ 8) with 256. zdm.
Qed.
