(* ===== verification/Cron.v ===== *)
(** * The cron daemon

    [src/sysapps/apps/cron/cron.c] and [bitstring.h]: the crontab is read line
    by line; a line that starts with a digit or a star is a job, whose five time
    fields are decoded into bit strings, any other line sets or clears a
    variable of the environment; every minute the jobs whose bits match the
    time are run.

    The password file is a parameter: [getpwuid] and [getpwnam] as functions.
    [BUFSIZ] is the C library's.  [below] is the byte that lies just below the
    line buffer on the stack: the code that strips white space from the end of a
    line goes on to it when the line is blank. *)

From S2P Require Import Prelude Clock.

Local Open Scope Z_scope.

Local Abbreviation str := (list Z).

(** ** Bit strings *)

Definition bit_byte (bit : Z) : Z := Z.shiftr bit 3.
Definition bit_mask (bit : Z) : Z := Z.shiftl 1 (Z.land bit 7).
Definition bitstr_size (nbits : Z) : Z := Z.shiftr (nbits - 1) 3 + 1.

Definition bit_test (bits : list Z) (bit : Z) : exec bool :=
  b ← load bits (bit_byte bit); Done (negb (Z.land b (bit_mask bit) =? 0)).

Definition bit_set (bits : list Z) (bit : Z) : exec (list Z) :=
  b ← load bits (bit_byte bit); store bits (bit_byte bit) (u8 (Z.lor b (bit_mask bit))).

(** [name[i] &= mask]. *)
Definition and_byte (bits : list Z) (i mask : Z) : exec (list Z) :=
  b ← load bits i; store bits i (u8 (Z.land b mask)).

(** [while (++_startbyte < _stopbyte) _name[_startbyte] = 0]. *)
Fixpoint zero_bytes (n : nat) (bits : list Z) (i : Z) : exec (list Z) :=
  match n with O => Done bits | S n' => bits ← store bits i 0; zero_bytes n' bits (i + 1) end.

Definition bit_nclear (bits : list Z) (start stop : Z) : exec (list Z) :=
  let a := bit_byte start in
  let z := bit_byte stop in
  let low := Z.shiftr 0xff (8 - Z.land start 7) in
  let high := Z.shiftl 0xff (Z.land stop 7 + 1) in
  if a =? z then and_byte bits a (Z.lor low high)
  else
    bits ← and_byte bits a low;
    bits ← zero_bytes (Z.to_nat (z - a - 1)) bits (a + 1);
    and_byte bits z high.

(** ** Character classes and numbers *)

Definition isdigit (c : Z) : bool := (48 <=? c) && (c <=? 57).
Definition isspace (c : Z) : bool := (c =? 32) || (9 <=? c) && (c <=? 13).
Definition tolower (c : Z) : Z := if (65 <=? c) && (c <=? 90) then c + 32 else c.

(** [*s], the terminator at the end. *)
Definition head (s : str) : Z := match s with [] => 0 | c :: _ => c end.

Fixpoint digits (s : str) (acc : Z) : Z * str :=
  match s with
  | c :: s' => if isdigit c then digits s' (acc * 10 + (c - 48)) else (acc, s)
  | [] => (acc, [])
  end.

(** [strtol (s, &s, 10)] of a string that starts with a digit. *)
Definition strtol (s : str) : Z * str := let '(v, r) := digits s 0 in (Z.min v (2 ^ 31 - 1), r).
Definition atoi (s : str) : Z := (strtol s).1.

(** ** The time fields *)

(** [strncasecmp (s, abbr, 3) == 0] for an [abbr] of three letters. *)
Definition starts_with (s abbr : str) : bool := bool_decide (map tolower (take 3 s) = abbr).

Fixpoint loc_string (s : str) (abbrs : list str) (i : Z) : Z * str :=
  match abbrs with
  | [] => (-1, s)
  | a :: abbrs' => if starts_with s a then (i, drop 3 s) else loc_string s abbrs' (i + 1)
  end.

(** A number or a name: [None] where the code returns 0. *)
Definition one_value (s : str) (abbrs : option (list str)) (base nbits zerov : Z) : option (Z * str) :=
  match (if isdigit (head s) then Some (strtol s)
         else match abbrs with Some l => Some (loc_string s l 0) | None => None end) with
  | None => None
  | Some (v, r) =>
      let v := if v =? zerov then 0 else v in
      if (v <? base) || (nbits <=? v) then None else Some (v, r)
  end.

(** One element between commas: the first value, the last one and the step. *)
Definition decode_item (s : str) (abbrs : option (list str)) (base nbits zerov : Z) : option (Z * Z * Z) :=
  match (if head s =? 42 then Some (base, nbits - 1, drop 1 s)
         else
           '(sval, r) ← one_value s abbrs base nbits zerov;
           if head r =? 45 then
             '(eval, r) ← one_value (drop 1 r) abbrs base nbits zerov;
             if eval <? sval then Some (eval, sval, r) else Some (sval, eval, r)
           else Some (sval, sval, r)) with
  | None => None
  | Some (sval, eval, r) =>
      if head r =? 47 then
        let r := drop 1 r in
        if negb (isdigit (head r)) then None else
        let step := atoi r in
        if (step <=? 0) || (eval - sval <? step) then None else Some (sval, eval, step)
      else Some (sval, eval, 1)
  end.

(** [for (i = sval; i <= eval; i += step) bit_set (bits, i)]. *)
Fixpoint set_bits (fuel : nat) (bits : list Z) (i eval step : Z) : exec (list Z) :=
  match fuel with
  | O => Fault
  | S fuel' => if i <=? eval then bits ← bit_set bits i; set_bits fuel' bits (i + step) eval step else Done bits
  end.

(** The string up to a character, and what follows it. *)
Fixpoint cut (s : str) (c : Z) : str * option str :=
  match s with
  | [] => ([], None)
  | b :: s' => if b =? c then ([], Some s') else let '(a, r) := cut s' c in (b :: a, r)
  end.

Fixpoint decode_items (fuel : nat) (s : str) (abbrs : option (list str)) (base nbits zerov : Z) (bits : list Z) :
    exec (option (list Z)) :=
  match s, fuel with
  | [], _ => Done (Some bits)
  | _, O => Fault
  | _, S fuel' =>
      let '(cur, rest) := cut s 44 in
      match decode_item cur abbrs base nbits zerov with
      | None => Done None
      | Some (sval, eval, step) =>
          bits ← set_bits (Z.to_nat (eval - sval + 2)) bits sval eval step;
          match rest with None => Done (Some bits) | Some r => decode_items fuel' r abbrs base nbits zerov bits end
      end
  end.

(** [None] where the code returns 0. *)
Definition decode_elem (s : option str) (nbits : Z) (abbrs : option (list str)) (bits : list Z) (zerov : Z) :
    exec (option (list Z)) :=
  match s with
  | None => Done None
  | Some s =>
      let base := if zerov <? 0 then 1 else 0 in
      bits ← bit_nclear bits base (nbits - 1);
      decode_items (S (length s)) s abbrs base nbits zerov bits
  end.

(** ** The environment *)

(** The list of variables, the newest first. *)
Definition env_s : Type := list (str * str).

(** The value of the first record with the name, or a new record in front. *)
Fixpoint set_value (env : env_s) (name val : str) : option env_s :=
  match env with
  | [] => None
  | (n, v) :: env' =>
      if strcmp n name =? 0 then Some ((n, val) :: env') else option_map (cons (n, v)) (set_value env' name val)
  end.

Definition stoenv (env : env_s) (name val : str) : env_s :=
  match set_value env name val with Some e => e | None => (name, val) :: env end.

Fixpoint clrenv (env : env_s) (name : str) : env_s :=
  match env with
  | [] => []
  | (n, v) :: env' => if strcmp n name =? 0 then env' else (n, v) :: clrenv env' name
  end.

Definition zapenv : env_s := [].

(** [cloneenv]: the size counted by the first loop, and the strings that the
    second one copies into a block of that size; [ok] is the outcome of
    [malloc], whose result is used at once. *)
Fixpoint env_size (env : env_s) : Z :=
  match env with [] => 0 | (n, v) :: env' => strlen n + strlen v + 2 + env_size env' end.

Fixpoint copy_env (cap : Z) (x : str) (env : env_s) : exec str :=
  match env with
  | [] => Done x
  | (n, v) :: env' =>
      x ← append cap x n;
      x ← append cap x [61];
      x ← append cap x v;
      x ← append cap x [0];
      copy_env cap x env'
  end.

Definition cloneenv (ok : bool) (env : env_s) : exec str := if ok then copy_env (env_size env) [] env else Fault.

(** ** Jobs *)

Record cent_s : Type := mk_cent {
  username : str; prog : str; cent_env : str; user : Z;
  minutes : list Z; hours : list Z; dom : list Z; months : list Z; dow : list Z }.

Definition month_names : list str :=
  map bs ["xxx"; "jan"; "feb"; "mar"; "apr"; "may"; "jun"; "jul"; "aug"; "sep"; "oct"; "nov"; "dec"].
Definition day_names : list str := map bs ["sun"; "mon"; "tue"; "wed"; "thu"; "fri"; "sat"].

(** [strtok (s, delim)]: the next word, and where the search goes on. *)
Fixpoint skip_delims (delim s : str) : str :=
  match s with c :: s' => if bool_decide (c ∈ delim) then skip_delims delim s' else s | [] => [] end.
Fixpoint take_word (delim s : str) : str * str :=
  match s with
  | [] => ([], [])
  | c :: s' => if bool_decide (c ∈ delim) then ([], s') else let '(a, r) := take_word delim s' in (c :: a, r)
  end.
Definition strtok (delim s : str) : option str * str :=
  match skip_delims delim s with [] => (None, []) | s' => let '(a, r) := take_word delim s' in (Some a, r) end.

Definition BLANKS : str := [32; 9].

(** [itoa]. *)
Fixpoint decimal (fuel : nat) (n : Z) (acc : str) : str :=
  match fuel with
  | O => acc
  | S fuel' => let acc := (48 + n mod 10) :: acc in if n <? 10 then acc else decimal fuel' (n / 10) acc
  end.
Definition itoa (n : Z) : str := if n <? 0 then 45 :: decimal 11 (- n) [] else decimal 11 n [].

Section crontab.

(** The password file: the name of a user id, and the name and id of a name. *)
Variable getpwuid : Z → option str.
Variable getpwnam : str → option (str * Z).

(** Buffer size of the C library. *)
Variable BUFSIZ : nat.

(** The user of a job; [None] where the code gives up. *)
Definition decode_user (p : str) : option (str * Z) :=
  if isdigit (head p) then
    let u := atoi p in
    Some (match getpwuid u with None => bs "user" ++ itoa u | Some n => n end, u)
  else getpwnam p.

(** One time field: the next word, decoded into a cleared bit string. *)
Definition decode_field (line : str) (nbits : Z) (abbrs : option (list str)) (zerov : Z) : exec (option (list Z * str)) :=
  let '(w, r) := strtok BLANKS line in
  b ← decode_elem w nbits abbrs (replicate (Z.to_nat (bitstr_size nbits)) 0) zerov;
  Done (match b with Some b => Some (b, r) | None => None end).

(** A job at the front of the task list, or [None] where the code returns 0;
    allocations succeed. *)
Definition decode_line (tasklist : list cent_s) (env : env_s) (line : str) : exec (option (list cent_s)) :=
  f1 ← decode_field line 60 None 0;
  match f1 with None => Done None | Some (mi, line) =>
  f2 ← decode_field line 24 None 0;
  match f2 with None => Done None | Some (ho, line) =>
  f3 ← decode_field line 32 None (-1);
  match f3 with None => Done None | Some (dm, line) =>
  f4 ← decode_field line 13 (Some month_names) (-1);
  match f4 with None => Done None | Some (mo, line) =>
  f5 ← decode_field line 7 (Some day_names) 7;
  match f5 with None => Done None | Some (dw, line) =>
  match strtok BLANKS line with
  | (None, _) => Done None
  | (Some p, line) =>
      match decode_user p with
      | None => Done None
      | Some (name, uid) =>
          match line with
          | [] => Done None
          | _ =>
              e ← cloneenv true env;
              Done (Some (mk_cent name line e uid mi ho dm mo dw :: tasklist))
          end
      end
  end end end end end end.

(** The white space at the end of a string, down to but not including its first
    byte. *)
Fixpoint strip_tail (s : str) : str :=
  match s with
  | [] => []
  | c :: s' => match strip_tail s' with [] => if isspace c then [] else [c] | t => c :: t end
  end.

Definition strip_name (s : str) : str := match s with [] => [] | c :: s' => c :: strip_tail s' end.

Fixpoint strip_head (s : str) : str :=
  match s with [] => [] | c :: s' => if isspace c then strip_head s' else s end.

(** A variable; [None] where the code returns 0.  When nothing stands before the
    equals sign the code goes on below the line, to [below] at the end. *)
Definition decode_env (below : Z) (env : env_s) (p : str) : exec (option env_s) :=
  match cut p 61 with
  | (_, None) => Done None
  | (name, Some q) =>
      if bool_decide (name = []) && isspace below then Fault else
      let name := strip_name name in
      let q := strip_head q in
      Done (Some (match q with [] => clrenv env name | _ => stoenv env name q end))
  end.

(** ** The file *)

(** [fdgets (s, count, f)]: the text, whether there is more, and the rest of the
    file; [i] counts down from [count - 1]. *)
Fixpoint fdgets (i : nat) (file : list Z) : str * bool * list Z :=
  match i with
  | O => ([], true, file)
  | S i' =>
      match file with
      | [] => (if decide (i' = 0%nat) then [] else [10], false, [])
      | ch :: file' =>
          if ch =? 10 then ([ch], true, file')
          else let '(s, more, rest) := fdgets i' file' in (ch :: s, more, rest)
      end
  end.

(** What is kept between calls. *)
Record state : Type := mk_state { tasklist : list cent_s; env : env_s; file_mtime : Z; malformed : list Z }.

(** One line without its newline: white space is stripped from the end, down to
    the byte below the buffer for a blank line, then from the front. *)
Definition strip_line (below : Z) (s : str) : exec str :=
  match strip_tail s with
  | [] => if isspace below then Fault else Done []
  | t => Done (strip_head t)
  end.

Definition decode (below : Z) (st : state) (line : Z) (p : str) : exec state :=
  if bool_decide (p = []) || (head p =? 35) then Done st else
  res ← (if isdigit (head p) || (head p =? 42)
         then l ← decode_line (tasklist st) (env st) p;
              Done (option_map (λ l, mk_state l (env st) (file_mtime st) (malformed st)) l)
         else e ← decode_env below (env st) p;
              Done (option_map (λ e, mk_state (tasklist st) e (file_mtime st) (malformed st)) e));
  Done (match res with
        | Some st => st
        | None => mk_state (tasklist st) (env st) (file_mtime st) (malformed st ++ [line])
        end).

(** The loop over the lines: false where the code gives up. *)
Fixpoint load_loop (fuel : nat) (below : Z) (st : state) (line : Z) (file : list Z) : exec (bool * state) :=
  match fuel with
  | O => Fault
  | S fuel' =>
      let '(buf, more, rest) := fdgets (BUFSIZ - 1) file in
      match cut (c_str buf) 10 with
      | (_, None) => Done (false, st)
      | (text, Some _) =>
          p ← strip_line below text;
          st ← decode below st (line + 1) p;
          if more then load_loop fuel' below st (line + 1) rest
          else Done (true, mk_state (tasklist st) zapenv (file_mtime st) (malformed st))
      end
  end.

(** What [open], [lstat] and [fstat] say of the file. *)
Record file_stat : Type := mk_stat { opened : bool; stat_ok : bool; regular : bool; same_file : bool; st_uid : Z; writable : bool; st_mtime : Z }.

Definition default_env : env_s := stoenv (stoenv zapenv (bs "SHELL") (bs "/bin/sh")) (bs "PATH") (bs "/bin:/usr/bin:/etc").

Definition load_file (below : Z) (st : state) (fst : file_stat) (file : list Z) : exec (bool * state) :=
  if negb (opened fst) then Done (false, st) else
  if negb (stat_ok fst) then Done (false, st) else
  if negb (regular fst) then Done (false, st) else
  if negb (same_file fst) then Done (false, st) else
  if negb (st_uid fst =? 0) then Done (false, st) else
  if writable fst then Done (false, st) else
  if st_mtime fst =? file_mtime st then Done (true, st) else
  load_loop (S (length file)) below (mk_state [] default_env (st_mtime fst) (malformed st)) 0 file.
End crontab.

(** ** Running jobs *)

Definition due (now : tm) (task : cent_s) : exec bool :=
  a ← bit_test (minutes task) (tm_min now);
  b ← (if (a : bool) then bit_test (hours task) (tm_hour now) else Done false);
  c ← (if (b : bool) then bit_test (months task) (tm_mon now + 1) else Done false);
  d ← (if (c : bool) then bit_test (dom task) (tm_mday now) else Done false);
  (if (d : bool) then bit_test (dow task) (tm_wday now) else Done false).

(** The jobs that are handed to [execve], in order. *)
Fixpoint check_runs (now : tm) (tasks : list cent_s) : exec (list cent_s) :=
  match tasks with
  | [] => Done []
  | task :: tasks' =>
      d ← due now task;
      l ← check_runs now tasks';
      Done (if (d : bool) then task :: l else l)
  end.

(** ** Log lines *)

Definition LOGBUFSIZ : Z := 80.

(** [for (i = 0; l < LOGBUFSIZ - 1 && msg[i]; i++) buf[l++] = msg[i]]. *)
Fixpoint log_copy (buf msg : str) : exec str :=
  match msg with
  | [] => Done buf
  | c :: msg' =>
      if strlen buf <? LOGBUFSIZ - 1 then buf ← append LOGBUFSIZ buf [c]; log_copy buf msg' else Done buf
  end.

Definition log3 (m1 m2 m3 : option str) : exec str :=
  buf ← append LOGBUFSIZ [] (bs "cron: ");
  buf ← log_copy buf (default [] m1);
  buf ← log_copy buf (default [] m2);
  buf ← log_copy buf (default [] m3);
  append LOGBUFSIZ buf [10].

(** ** The file the daemon starts with *)

Definition create_file : list Z :=
  bs "SHELL=/bin/sh" ++ [10] ++ bs "PATH=/sbin:/bin:/usr/sbin:/usr/bin:/usr/local/bin" ++ [10] ++ bs "MAILTO=root" ++ [10] ++
  bs "HOME=/" ++ [10] ++ [10] ++ bs "# run-parts" ++ [10].
