(* ===== verification/CronTheorems.v ===== *)
(** * Theorems about the cron daemon

    A job runs at exactly the minutes its five fields select; no crontab makes
    the daemon leave its buffers, provided the byte below the line buffer is no
    white space; the copy of the environment fills its block exactly; and the
    log line stays inside its buffer. *)

From S2P Require Import Prelude Clock Cron.

Local Open Scope Z_scope.

Local Abbreviation str := (list Z).

(** ** Bit strings *)

Definition bit_at (bits : list Z) (i : Z) : bool := Z.testbit (nth (Z.to_nat (i / 8)) bits 0) (i mod 8).

Lemma byte_index i : bit_byte i = i / 8.
Proof. unfold bit_byte. by rewrite Z.shiftr_div_pow2. Qed.

Lemma mask_index i : bit_mask i = 2 ^ (i mod 8).
Proof. unfold bit_mask. change 7 with (Z.ones 3). rewrite Z.land_ones by lia. rewrite Z.shiftl_1_l. done. Qed.

Lemma mask_test b k : 0 <= k → negb (Z.land b (2 ^ k) =? 0) = Z.testbit b k.
Proof.
  intros Hk. destruct (Z.testbit b k) eqn:E.
  - apply negb_true_iff, Z.eqb_neq. intros H0. apply (f_equal (λ z, Z.testbit z k)) in H0.
    rewrite Z.land_spec, E, Z.pow2_bits_true, Z.bits_0 in H0 by lia. done.
  - apply negb_false_iff, Z.eqb_eq. apply Z.bits_inj'. intros n Hn. rewrite Z.land_spec, Z.bits_0.
    rewrite Z.pow2_bits_eqb by lia. destruct (Z.eqb_spec k n) as [->|]; [by rewrite E|apply andb_false_r].
Qed.

Definition in_bits (bits : list Z) (i : Z) : Prop := 0 <= i < 8 * Z.of_nat (length bits).

Lemma load_byte bits i : in_bits bits i → load bits (i / 8) = Done (nth (Z.to_nat (i / 8)) bits 0).
Proof.
  intros Hi. assert (Hl : (Z.to_nat (i / 8) < length bits)%nat) by (unfold in_bits in Hi; zdm).
  destruct (lookup_lt_is_Some_2 bits _ Hl) as [b Hb]. rewrite (load_at _ _ (Z.to_nat (i / 8)) b); [|unfold in_bits in Hi; zdm|done].
  f_equal. symmetry. by apply nth_lookup_Some.
Qed.

Lemma bit_test_done bits i : in_bits bits i → bit_test bits i = Done (bit_at bits i).
Proof.
  intros Hi. unfold bit_test. rewrite byte_index, mask_index, load_byte by done. cbn [mbind exec_bind].
  rewrite mask_test by (apply Z.mod_pos_bound; lia). done.
Qed.

Lemma bit_set_done bits i : in_bits bits i → Forall is_byte bits →
  ∃ bits', bit_set bits i = Done bits' ∧ length bits' = length bits ∧ Forall is_byte bits' ∧
    ∀ j, 0 <= j → bit_at bits' j = bit_at bits j || (j =? i).
Proof.
  intros Hi Hb. assert (Hl : (Z.to_nat (i / 8) < length bits)%nat) by (unfold in_bits in Hi; zdm).
  pose proof (Z.mod_pos_bound i 8 ltac:(lia)) as Hm.
  unfold bit_set. rewrite byte_index, mask_index, load_byte by done. cbn [mbind exec_bind].
  set (b := nth (Z.to_nat (i / 8)) bits 0).
  assert (Hbb : is_byte b) by (rewrite Forall_forall in Hb; apply Hb, list_elem_of_In, nth_In; done).
  assert (Hlor : is_byte (Z.lor b (2 ^ (i mod 8)))).
  { unfold is_byte in *. split; [apply Z.lor_nonneg; lia|]. apply Z.log2_lt_cancel. change 256 with (2 ^ 8). rewrite Z.log2_pow2 by lia.
    rewrite Z.log2_lor, Z.log2_pow2 by lia. apply Z.max_lub_lt; [|lia].
    destruct (Z.eq_dec b 0) as [->|]; [cbn; lia|]. apply Z.log2_lt_pow2; lia. }
  rewrite store_done by (unfold in_bits in Hi; zdm). eexists. split; [reflexivity|].
  replace (u8 (Z.lor b (2 ^ (i mod 8)))) with (Z.lor b (2 ^ (i mod 8))) by (unfold u8, is_byte in *; symmetry; apply Z.mod_small; lia).
  split; [apply length_insert|]. split; [by apply Forall_insert|]. intros j Hj. unfold bit_at.
  pose proof (Z.mod_pos_bound j 8 ltac:(lia)).
  destruct (decide (Z.to_nat (j / 8) = Z.to_nat (i / 8))) as [E|E].
  - rewrite E. rewrite (nth_lookup_Some _ _ _ (Z.lor b (2 ^ (i mod 8)))) by (by apply list_lookup_insert_eq).
    rewrite Z.lor_spec, Z.pow2_bits_eqb by lia. fold b. f_equal.
    destruct (Z.eqb_spec (i mod 8) (j mod 8)), (Z.eqb_spec j i); try done; exfalso; unfold in_bits in Hi; zdm.
  - rewrite !nth_lookup, list_lookup_insert_ne by done. replace (j =? i) with false; [by rewrite orb_false_r|].
    symmetry. apply Z.eqb_neq. by intros ->.
Qed.

(** The bits from one value to another in steps. *)
Definition stepped (lo hi step i : Z) : Prop := lo <= i <= hi ∧ (i - lo) mod step = 0.

#[export] Instance stepped_dec lo hi step i : Decision (stepped lo hi step i).
Proof. unfold stepped. apply _. Defined.

Lemma stepped_next lo hi step i : 1 <= step → lo <= hi → stepped lo hi step i ↔ i = lo ∨ stepped (lo + step) hi step i.
Proof.
  intros Hs Hl. unfold stepped. split.
  - intros [Hi Hm]. destruct (decide (i = lo)) as [|Hn]; [by left|right].
    assert (step <= i - lo). { apply Z.mod_divide in Hm as [k Hk]; [|lia]. assert (0 < k) by (apply Z.mul_pos_cancel_r with step; lia). nia. }
    split; [lia|]. replace (i - (lo + step)) with (i - lo + -1 * step) by lia. by rewrite Z.mod_add by lia.
  - intros [->|[Hi Hm]]; [split; [lia|]; rewrite Z.sub_diag; by apply Z.mod_0_l; lia|]. split; [lia|].
    replace (i - lo) with (i - (lo + step) + 1 * step) by lia. by rewrite Z.mod_add by lia.
Qed.

Lemma set_bits_done fuel : ∀ bits i hi step,
  1 <= step → 0 <= i → hi < 8 * Z.of_nat (length bits) → (Z.to_nat (hi - i + 1) < fuel)%nat → Forall is_byte bits →
  ∃ bits', set_bits fuel bits i hi step = Done bits' ∧ length bits' = length bits ∧ Forall is_byte bits' ∧
    ∀ j, 0 <= j → bit_at bits' j = bit_at bits j || bool_decide (stepped i hi step j).
Proof.
  induction fuel as [|fuel IH]; intros bits i hi step Hs Hi Hh Hf Hb; [lia|]. cbn [set_bits].
  destruct (Z.leb_spec i hi) as [Hle|Hgt].
  - destruct (bit_set_done bits i) as (b1 & E1 & L1 & B1 & T1); [unfold in_bits; lia|done|]. rewrite E1. cbn [mbind exec_bind].
    destruct (IH b1 (i + step) hi step) as (b2 & E2 & L2 & B2 & T2); [lia|lia|by rewrite L1|lia|done|].
    exists b2. split; [done|]. split; [by rewrite L2|]. split; [done|]. intros j Hj. rewrite T2, T1 by done.
    rewrite <-orb_assoc. f_equal. rewrite (bool_decide_ext _ _ (stepped_next i hi step j Hs Hle)).
    destruct (Z.eqb_spec j i) as [->|Hn]; [symmetry; apply bool_decide_eq_true; by left|]. cbn [orb].
    apply bool_decide_ext. naive_solver.
  - exists bits. split_and!; [done|done|done|]. intros j Hj. rewrite bool_decide_eq_false_2; [by rewrite orb_false_r|].
    unfold stepped. lia.
Qed.

(** ** One element *)

Lemma one_value_range s abbrs base nbits zerov v r : one_value s abbrs base nbits zerov = Some (v, r) → base <= v < nbits.
Proof.
  unfold one_value. intros E. destruct (isdigit (head s)); [|destruct abbrs; [|done]];
    (destruct (_ : Z * str) as [v' r']; destruct (_ || _) eqn:Eo; [done|]; apply orb_false_elim in Eo as [?%Z.ltb_ge ?%Z.leb_gt];
     injection E as <- <-; lia).
Qed.

Lemma decode_item_range s abbrs base nbits zerov lo hi step :
  0 <= base < nbits → decode_item s abbrs base nbits zerov = Some (lo, hi, step) → 0 <= lo ∧ lo <= hi < nbits ∧ 1 <= step.
Proof.
  intros Hb E. unfold decode_item in E.
  assert (H : ∀ a b r, (if head s =? 42 then Some (base, nbits - 1, drop 1 s)
         else
           '(sval, r) ← one_value s abbrs base nbits zerov;
           if head r =? 45 then
             '(eval, r) ← one_value (drop 1 r) abbrs base nbits zerov;
             if eval <? sval then Some (eval, sval, r) else Some (sval, eval, r)
           else Some (sval, sval, r)) = Some (a, b, r) → 0 <= a ∧ a <= b < nbits).
  { intros a b r. destruct (head s =? 42); [intros [= <- <- <-]; lia|].
    destruct (one_value s abbrs base nbits zerov) as [[v r1]|] eqn:E1; [|done]. apply one_value_range in E1. cbn.
    destruct (head r1 =? 45); [|intros [= <- <- <-]; lia].
    destruct (one_value (drop 1 r1) abbrs base nbits zerov) as [[w r2]|] eqn:E2; [|done]. apply one_value_range in E2. cbn.
    destruct (Z.ltb_spec w v); intros [= <- <- <-]; lia. }
  destruct (if head s =? 42 then _ else _) as [[[a b] r]|]; [|done]. specialize (H a b r eq_refl).
  destruct (head r =? 47); [|injection E as <- <- <-; lia].
  destruct (negb _); [done|]. destruct (_ || _) eqn:Eo; [done|]. apply orb_false_elim in Eo as [?%Z.leb_gt ?].
  injection E as <- <- <-. lia.
Qed.

Lemma cut_length s c a r : cut s c = (a, Some r) → (length r < length s)%nat.
Proof.
  revert a r. induction s as [|b s IH]; intros a r; cbn; [done|]. destruct (b =? c); [intros [= <- <-]; lia|].
  destruct (cut s c) as [a' r']. intros [= <- ->]. specialize (IH _ _ eq_refl). lia.
Qed.

Lemma decode_items_safe fuel : ∀ s abbrs base nbits zerov bits,
  (length s < fuel)%nat → 0 <= base < nbits → nbits <= 8 * Z.of_nat (length bits) → Forall is_byte bits →
  ∃ r, decode_items fuel s abbrs base nbits zerov bits = Done r ∧
    ∀ b, r = Some b → length b = length bits ∧ Forall is_byte b.
Proof.
  induction fuel as [|fuel IH]; intros s abbrs base nbits zerov bits Hf Hb Hn Hby; [lia|]. destruct s as [|c s].
  { exists (Some bits). split; [done|]. by intros b [= <-]. }
  cbn [decode_items]. destruct (cut (c :: s) 44) as [cur rest] eqn:Ec.
  destruct (decode_item cur abbrs base nbits zerov) as [[[lo hi] step]|] eqn:Ei; [|by exists None].
  apply decode_item_range in Ei as (? & ? & ?); [|done].
  destruct (set_bits_done (Z.to_nat (hi - lo + 2)) bits lo hi step) as (b1 & E1 & L1 & B1 & _); try lia; [done|].
  rewrite E1. cbn [mbind exec_bind]. destruct rest as [r|]; [|exists (Some b1); split; [done|by intros b [= <-]]].
  apply cut_length in Ec. destruct (IH r abbrs base nbits zerov b1) as (x & Ex & Hx); [cbn [length] in *; lia|done|by rewrite L1|done|].
  exists x. split; [done|]. intros b Eb. rewrite <-L1. by apply Hx.
Qed.

(** ** The syntax of a field *)

Inductive field : Type := FMin | FHour | FDom | FMon | FDow.

Definition nbits_of (f : field) : Z := match f with FMin => 60 | FHour => 24 | FDom => 32 | FMon => 13 | FDow => 7 end.
Definition zerov_of (f : field) : Z := match f with FMin | FHour => 0 | FDom | FMon => -1 | FDow => 7 end.
Definition base_of (f : field) : Z := match f with FDom | FMon => 1 | _ => 0 end.
Definition abbrs_of (f : field) : option (list str) := match f with FMon => Some month_names | FDow => Some day_names | _ => None end.

(** The decoder of a field, on a cleared bit string. *)
Definition decode_of (f : field) (s : str) : exec (option (list Z)) :=
  decode_elem (Some s) (nbits_of f) (abbrs_of f) (replicate (Z.to_nat (bitstr_size (nbits_of f))) 0) (zerov_of f).

(** A value: a number, or the name of a month or of a day in small letters. *)
Inductive value : Type := Num (n : Z) | Name (k : Z).
Inductive span : Type := All | One (a : value) | Range (a b : value).
Record item : Type := mk_item { item_span : span; item_step : option Z }.

Definition num (n : Z) : str := if n <? 10 then [48 + n] else [48 + n / 10; 48 + n mod 10].

Definition names_of (f : field) : list str := default [] (abbrs_of f).
Definition value_text (f : field) (v : value) : str := match v with Num n => num n | Name k => nth (Z.to_nat k) (names_of f) [] end.

(** What it stands for: the days of the week have two numbers for Sunday. *)
Definition value_of (f : field) (v : value) : Z := match v with Num n => if n =? zerov_of f then 0 else n | Name k => k end.

Definition span_text (f : field) (sp : span) : str :=
  match sp with All => [42] | One a => value_text f a | Range a b => value_text f a ++ 45 :: value_text f b end.
Definition item_text (f : field) (it : item) : str :=
  span_text f (item_span it) ++ match item_step it with Some k => 47 :: num k | None => [] end.
Fixpoint items_text (f : field) (l : list item) : str :=
  match l with [] => [] | [it] => item_text f it | it :: l' => item_text f it ++ 44 :: items_text f l' end.

Definition low (f : field) (it : item) : Z :=
  match item_span it with All => base_of f | One a => value_of f a | Range a b => Z.min (value_of f a) (value_of f b) end.
Definition high (f : field) (it : item) : Z :=
  match item_span it with All => nbits_of f - 1 | One a => value_of f a | Range a b => Z.max (value_of f a) (value_of f b) end.
Definition selects (f : field) (it : item) (i : Z) : Prop := stepped (low f it) (high f it) (default 1 (item_step it)) i.

#[export] Instance selects_dec f it i : Decision (selects f it i).
Proof. unfold selects. apply _. Defined.

(** The values lie in the field, and the step is not wider than the range. *)
Definition value_ok (f : field) (v : value) : Prop :=
  match v with
  | Num n => 0 <= n < 100 ∧ base_of f <= value_of f v < nbits_of f
  | Name k => base_of f <= k < Z.of_nat (length (names_of f))
  end.
Definition item_ok (f : field) (it : item) : Prop :=
  match item_span it with
  | All => True
  | One a => value_ok f a
  | Range a b => value_ok f a ∧ value_ok f b
  end ∧
  match item_step it with Some k => 1 <= k <= high f it - low f it | None => True end.

Lemma field_small f : 0 <= base_of f < nbits_of f ∧ nbits_of f <= 60.
Proof. destruct f; cbn; lia. Qed.

Lemma isdigit_num d : 0 <= d < 10 → isdigit (48 + d) = true.
Proof. intros. unfold isdigit. rewrite !(proj2 (Z.leb_le _ _)) by lia. done. Qed.

Lemma num_head n r : 0 <= n < 100 → isdigit (head (num n ++ r)) = true ∧ head (num n ++ r) ≠ 42.
Proof.
  intros Hn. unfold num. destruct (Z.ltb_spec n 10); cbn [app head]; (split; [apply isdigit_num; zdm|zdm]).
Qed.

Lemma digits_num n r : 0 <= n < 100 → isdigit (head r) = false → strtol (num n ++ r) = (n, r).
Proof.
  intros Hn Hr. unfold strtol, num.
  assert (Hd : ∀ acc, digits r acc = (acc, r)) by (intros acc; destruct r as [|c r]; [done|]; cbn in *; by rewrite Hr).
  destruct (Z.ltb_spec n 10); cbn [app digits].
  - rewrite isdigit_num, Hd by lia. f_equal. lia.
  - rewrite !isdigit_num, Hd by zdm. f_equal. zdm.
Qed.

Lemma value_range f v : value_ok f v → base_of f <= value_of f v < nbits_of f.
Proof. destruct v as [n|k]; cbn [value_ok]; [tauto|]. destruct f; cbn; lia. Qed.

(** The names, one by one. *)
Lemma name_cases f k (P : field → Z → Prop) : base_of f <= k < Z.of_nat (length (names_of f)) →
  P FMon 1 → P FMon 2 → P FMon 3 → P FMon 4 → P FMon 5 → P FMon 6 → P FMon 7 → P FMon 8 → P FMon 9 → P FMon 10 → P FMon 11 → P FMon 12 →
  P FDow 0 → P FDow 1 → P FDow 2 → P FDow 3 → P FDow 4 → P FDow 5 → P FDow 6 → P f k.
Proof.
  intros Hk. destruct f; cbn in Hk; intros; try lia.
  - assert (k = 1 ∨ k = 2 ∨ k = 3 ∨ k = 4 ∨ k = 5 ∨ k = 6 ∨ k = 7 ∨ k = 8 ∨ k = 9 ∨ k = 10 ∨ k = 11 ∨ k = 12) as E by lia.
    repeat destruct E as [->|E]; try done. by subst.
  - assert (k = 0 ∨ k = 1 ∨ k = 2 ∨ k = 3 ∨ k = 4 ∨ k = 5 ∨ k = 6) as E by lia. repeat destruct E as [->|E]; try done. by subst.
Qed.

Lemma value_head f v r : value_ok f v → head (value_text f v ++ r) ≠ 42 ∧ value_text f v ≠ [].
Proof.
  intros Hv. destruct v as [n|k]; cbn [value_ok value_text] in *.
  - split; [apply num_head; tauto|]. unfold num. by destruct (n <? 10).
  - apply (name_cases f k (λ f k, head (nth (Z.to_nat k) (names_of f) [] ++ r) ≠ 42 ∧ nth (Z.to_nat k) (names_of f) [] ≠ []) Hv); by vm_compute.
Qed.

Lemma one_value_text f v r : value_ok f v → isdigit (head r) = false →
  one_value (value_text f v ++ r) (abbrs_of f) (base_of f) (nbits_of f) (zerov_of f) = Some (value_of f v, r).
Proof.
  intros Hv Hr. destruct v as [n|k].
  - destruct Hv as [Hn Hv]. unfold one_value. cbn [value_text]. destruct (num_head n r Hn) as [-> _].
    rewrite digits_num by done. cbn [value_of] in *. by rewrite (proj2 (Z.ltb_ge _ _)), (proj2 (Z.leb_gt _ _)) by lia.
  - apply (name_cases f k (λ f k, one_value (value_text f (Name k) ++ r) (abbrs_of f) (base_of f) (nbits_of f) (zerov_of f) = Some (value_of f (Name k), r)) Hv);
      vm_compute; reflexivity.
Qed.

Lemma decode_item_text f it : item_ok f it →
  decode_item (item_text f it) (abbrs_of f) (base_of f) (nbits_of f) (zerov_of f)
  = Some (low f it, high f it, default 1 (item_step it)).
Proof.
  intros [Hsp Hst]. pose proof (field_small f) as Hf. destruct it as [sp st]. cbn [item_span item_step] in *.
  unfold decode_item, item_text, low, high. cbn [item_span item_step].
  set (tl := match st with Some k => 47 :: num k | None => [] end).
  assert (Htl : isdigit (head tl) = false ∧ (head tl =? 45) = false) by (by destruct st).
  assert (Hend : ∀ lo hi, (∀ k, st = Some k → 1 <= k <= hi - lo ∧ hi - lo < 100) →
    (if head tl =? 47 then
        let r := drop 1 tl in
        if negb (isdigit (head r)) then None else
        let step := atoi r in
        if (step <=? 0) || (hi - lo <? step) then None else Some (lo, hi, step)
      else Some (lo, hi, 1)) = Some (lo, hi, default 1 st)).
  { intros lo hi Hk. unfold tl. destruct st as [k|]; [|done]. destruct (Hk k eq_refl).
    change (drop 1 (47 :: num k)) with (num k). cbn [head Z.eqb Pos.eqb].
    pose proof (digits_num k [] ltac:(lia) eq_refl) as Ed. rewrite app_nil_r in Ed.
    destruct (num_head k [] ltac:(lia)) as [Hh _]. rewrite app_nil_r in Hh. rewrite Hh. cbn [negb]. unfold atoi. rewrite Ed. cbn [fst].
    rewrite (proj2 (Z.leb_gt _ _)), (proj2 (Z.ltb_ge _ _)) by lia. done. }
  unfold low, high in Hst. cbn [item_span] in Hst.
  destruct sp as [|a|a b]; cbn [span_text].
  - cbn [app head Z.eqb Pos.eqb drop]. rewrite drop_0. apply Hend. intros k ->. lia.
  - pose proof (value_range f a Hsp). destruct (value_head f a tl Hsp) as [Hs _]. rewrite (proj2 (Z.eqb_neq _ _) Hs).
    rewrite one_value_text by (done || apply Htl). cbn [mbind option_bind]. rewrite (proj2 Htl). apply Hend. intros k ->. lia.
  - destruct Hsp as [Ha Hb]. pose proof (value_range f a Ha). pose proof (value_range f b Hb).
    rewrite <-app_assoc. destruct (value_head f a ((45 :: value_text f b) ++ tl) Ha) as [Hs _]. rewrite (proj2 (Z.eqb_neq _ _) Hs).
    rewrite one_value_text by done. cbn [mbind option_bind app head drop]. rewrite Z.eqb_refl, drop_0.
    rewrite one_value_text by (done || apply Htl). cbn [mbind option_bind].
    destruct (Z.ltb_spec (value_of f b) (value_of f a)).
    + rewrite Z.min_r, Z.max_l in * by lia. apply Hend. intros k ->. lia.
    + rewrite Z.min_l, Z.max_r in * by lia. apply Hend. intros k ->. lia.
Qed.

Lemma num_chars n : 0 <= n < 100 → Forall (λ c, 48 <= c < 58) (num n).
Proof. intros Hn. unfold num. destruct (Z.ltb_spec n 10); repeat constructor; zdm. Qed.

(** What the text of an element is made of: no comma, no blank, no terminator. *)
Definition plain_char (c : Z) : Prop := (42 <= c < 58 ∧ c ≠ 44) ∨ 97 <= c <= 122.

#[export] Instance plain_char_dec c : Decision (plain_char c).
Proof. unfold plain_char. apply _. Defined.

Lemma num_plain n : 0 <= n < 100 → Forall plain_char (num n).
Proof. intros Hn. eapply Forall_impl; [by apply num_chars|]. intros c Hc. unfold plain_char. cbn in Hc. lia. Qed.

Lemma cron_value_plain f v : value_ok f v → Forall plain_char (value_text f v).
Proof.
  intros Hv. destruct v as [n|k]; cbn [value_ok value_text] in *; [apply num_plain; tauto|].
  apply (name_cases f k (λ f k, Forall plain_char (nth (Z.to_nat k) (names_of f) [])) Hv);
    apply (bool_decide_unpack _); vm_compute; exact I.
Qed.

Lemma item_plain f it : item_ok f it → Forall plain_char (item_text f it).
Proof.
  intros [Hsp Hst]. pose proof (field_small f). unfold item_text. apply Forall_app. split.
  - destruct (item_span it) as [|a|a b]; cbn [span_text]; [|by apply cron_value_plain|apply Forall_app; split; [|constructor]];
      try (apply cron_value_plain; tauto); try (unfold plain_char; lia). repeat constructor; unfold plain_char; lia.
  - destruct (item_step it) as [k|] eqn:E; constructor; [unfold plain_char; lia|]. apply num_plain.
    assert (Hr : base_of f <= low f it ∧ high f it < nbits_of f).
    { unfold low, high. destruct (item_span it) as [|a|a b]; [lia|pose proof (value_range f a Hsp); lia|].
      destruct Hsp as [Ha Hb]. pose proof (value_range f a Ha). pose proof (value_range f b Hb). lia. }
    lia.
Qed.

Lemma cut_plain a c r : Forall (λ b, b ≠ c) a → cut (a ++ c :: r) c = (a, Some r) ∧ cut a c = (a, None).
Proof.
  induction 1 as [|b a Hb _ IH]; cbn; [by rewrite Z.eqb_refl|]. rewrite (proj2 (Z.eqb_neq _ _) Hb). by destruct IH as [-> ->].
Qed.

Lemma item_nonempty f it : item_ok f it → item_text f it ≠ [].
Proof.
  intros [Hsp _]. unfold item_text. destruct (item_span it) as [|a|a b]; cbn [span_text]; [done|..].
  - destruct (value_head f a [] Hsp) as [_ Hn]. by destruct (value_text f a).
  - destruct (value_head f a [] (proj1 Hsp)) as [_ Hn]. by destruct (value_text f a).
Qed.

Lemma decode_items_step fuel s abbrs base nbits zerov bits : s ≠ [] →
  decode_items (S fuel) s abbrs base nbits zerov bits =
  let '(cur, rest) := cut s 44 in
  match decode_item cur abbrs base nbits zerov with
  | None => Done None
  | Some (sval, eval, step) =>
      bits ← set_bits (Z.to_nat (eval - sval + 2)) bits sval eval step;
      match rest with None => Done (Some bits) | Some r => decode_items fuel r abbrs base nbits zerov bits end
  end.
Proof. by destruct s. Qed.

Lemma decode_items_text f : ∀ l fuel bits,
  l ≠ [] → Forall (item_ok f) l → (length (items_text f l) < fuel)%nat →
  nbits_of f <= 8 * Z.of_nat (length bits) → Forall is_byte bits →
  ∃ b, decode_items fuel (items_text f l) (abbrs_of f) (base_of f) (nbits_of f) (zerov_of f) bits = Done (Some b) ∧
    length b = length bits ∧ ∀ i, 0 <= i → bit_at b i = bit_at bits i || bool_decide (Exists (λ it, selects f it i) l).
Proof.
  induction l as [|it l IH]; intros fuel bits Hne Hok Hf Hn Hb; [done|]. apply Forall_cons in Hok as [Hit Hok].
  pose proof (item_plain f it Hit) as Hp. destruct fuel as [|fuel]; [lia|].
  assert (Hc : Forall (λ b, b ≠ 44) (item_text f it)) by (eapply Forall_impl; [exact Hp|]; intros c Hx; cbn in Hx; unfold plain_char in Hx; lia).
  pose proof (decode_item_text f it Hit) as Ei. pose proof (field_small f).
  pose proof (decode_item_range _ _ _ _ _ _ _ _ (proj1 (field_small f)) Ei) as (? & ? & ?).
  destruct (set_bits_done (Z.to_nat (high f it - low f it + 2)) bits (low f it) (high f it) (default 1 (item_step it)))
    as (b1 & E1 & L1 & B1 & T1); try lia; [done|].
  destruct l as [|it2 l].
  - cbn [items_text] in *. rewrite decode_items_step by by apply item_nonempty.
    destruct (cut_plain (item_text f it) 44 [] Hc) as [_ ->]. rewrite Ei, E1. cbn [mbind exec_bind].
    exists b1. split_and!; [done|done|]. intros i Hi. rewrite T1 by done. f_equal. apply bool_decide_ext.
    rewrite Exists_cons, Exists_nil. unfold selects. naive_solver.
  - change (items_text f (it :: it2 :: l)) with (item_text f it ++ 44 :: items_text f (it2 :: l)) in *.
    set (rest := items_text f (it2 :: l)) in *.
    rewrite decode_items_step by (pose proof (item_nonempty f it Hit); by destruct (item_text f it)).
    destruct (cut_plain (item_text f it) 44 rest Hc) as [-> _]. rewrite Ei, E1. cbn [mbind exec_bind].
    destruct (IH fuel b1) as (b2 & E2 & L2 & T2); [done|done| |by rewrite L1|done|].
    { rewrite length_app in Hf. cbn [length] in Hf. clearbody rest. lia. }
    exists b2. split; [done|]. split; [by rewrite L2|]. intros i Hi. rewrite T2, T1, <-orb_assoc by done. f_equal.
    rewrite (bool_decide_ext _ _ (Exists_cons (λ it, selects f it i) it (it2 :: l))).
    unfold selects at 3. by repeat case_bool_decide; cbn; try tauto.
Qed.

(** Clearing a bit string that is clear leaves it so. *)
Lemma cleared f :
  bit_nclear (replicate (Z.to_nat (bitstr_size (nbits_of f))) 0) (base_of f) (nbits_of f - 1)
  = Done (replicate (Z.to_nat (bitstr_size (nbits_of f))) 0).
Proof. destruct f; reflexivity. Qed.

Lemma size_of_field f : nbits_of f <= 8 * Z.of_nat (length (replicate (Z.to_nat (bitstr_size (nbits_of f))) 0)).
Proof. destruct f; vm_compute; discriminate. Qed.

Lemma zeros_bytes n : Forall is_byte (replicate n 0).
Proof. apply Forall_replicate. unfold is_byte. lia. Qed.

Lemma zeros_clear n i : bit_at (replicate n 0) i = false.
Proof.
  unfold bit_at. rewrite nth_lookup. destruct (replicate n 0 !! _) as [x|] eqn:E; [|apply Z.bits_0].
  apply lookup_replicate in E as [-> _]. apply Z.bits_0.
Qed.

Lemma decode_of_items f s : decode_of f s = decode_items (S (length s)) s (abbrs_of f) (base_of f) (nbits_of f) (zerov_of f)
  (replicate (Z.to_nat (bitstr_size (nbits_of f))) 0).
Proof.
  unfold decode_of, decode_elem. replace (if zerov_of f <? 0 then 1 else 0) with (base_of f) by (by destruct f).
  by rewrite cleared.
Qed.

Lemma decode_text f l : l ≠ [] → Forall (item_ok f) l →
  ∃ b, decode_of f (items_text f l) = Done (Some b) ∧ length b = Z.to_nat (bitstr_size (nbits_of f)) ∧
    ∀ i, 0 <= i → bit_at b i = bool_decide (Exists (λ it, selects f it i) l).
Proof.
  intros Hne Hok. rewrite decode_of_items.
  destruct (decode_items_text f l (S (length (items_text f l))) (replicate (Z.to_nat (bitstr_size (nbits_of f))) 0))
    as (b & E & L & T); [done|done|lia|apply size_of_field|apply zeros_bytes|].
  exists b. split; [done|]. split; [by rewrite L, length_replicate|]. intros i Hi. by rewrite T, zeros_clear.
Qed.

(** The decoder of a time field gets every list of stars,
    numbers and ranges, with or without a step, right: the bit of a value is set
    exactly when one of the elements selects the value. *)
Theorem decode_field_correct (f : field) (l : list item) :
  l ≠ [] → Forall (item_ok f) l →
  ∃ b, decode_of f (items_text f l) = Done (Some b) ∧
    ∀ i, base_of f <= i < nbits_of f → bit_test b i = Done (bool_decide (Exists (λ it, selects f it i) l)).
Proof.
  intros Hne Hok. destruct (decode_text f l Hne Hok) as (b & E & L & T). exists b. split; [done|]. intros i Hi.
  pose proof (field_small f). rewrite bit_test_done, T by (done || lia || (unfold in_bits; rewrite L; pose proof (size_of_field f) as Hs;
    rewrite length_replicate in Hs; lia)). done.
Qed.

Lemma decode_field_correct_witness :
  ∃ b, decode_of FMin (bs "*/15,7-9") = Done (Some b) ∧ bit_test b 30 = Done true ∧ bit_test b 8 = Done true ∧ bit_test b 10 = Done false.
Proof.
  destruct (decode_field_correct FMin [mk_item All (Some 15); mk_item (Range (Num 7) (Num 9)) None]) as (b & E & T).
  - discriminate.
  - repeat constructor; cbn; lia.
  - exists b. split; [exact E|]. split; [|split]; (etrans; [apply T; cbn; lia|]; reflexivity).
Defined.

(** ** The environment *)

Definition env_text (env : env_s) : str := concat (map (λ nv, nv.1 ++ [61] ++ nv.2 ++ [0]) env).

Lemma env_text_size env : strlen (env_text env) = env_size env.
Proof.
  unfold env_text. induction env as [|[n v] env IH]; [done|]. cbn [map concat env_size fst snd].
  rewrite !strlen_app, IH. change (strlen [61]) with 1. change (strlen [0]) with 1. lia.
Qed.

Lemma copy_env_done cap env : ∀ x, strlen x + env_size env <= cap → copy_env cap x env = Done (x ++ env_text env).
Proof.
  induction env as [|[n v] env IH]; intros x Hx; cbn [copy_env env_size] in *; [unfold env_text; cbn; by rewrite app_nil_r|].
  pose proof (env_text_size env). assert (0 <= env_size env) by (unfold strlen in *; lia).
  do 4 (rewrite append_done by (rewrite ?strlen_app; change (strlen [61]) with 1; change (strlen [0]) with 1; unfold strlen in *; lia);
    cbn [mbind exec_bind]).
  rewrite IH by (rewrite !strlen_app; change (strlen [61]) with 1; change (strlen [0]) with 1; lia).
  unfold env_text. cbn [map concat fst snd]. by rewrite <-!app_assoc.
Qed.

Lemma cloneenv_done env : cloneenv true env = Done (env_text env).
Proof. unfold cloneenv. by rewrite copy_env_done by (change (strlen []) with 0; lia). Qed.

(** The value of a variable. *)
Fixpoint getenv (env : env_s) (name : str) : option str :=
  match env with [] => None | (n, v) :: env' => if decide (n = name) then Some v else getenv env' name end.

Lemma set_value_get env name val k :
  match set_value env name val with
  | Some e => getenv e k = (if decide (k = name) then Some val else getenv env k) ∧ e.*1 = env.*1
  | None => name ∉ env.*1
  end.
Proof.
  induction env as [|[n v] env IH]; cbn [set_value]; [apply not_elem_of_nil|]. rewrite strcmp_test. case_bool_decide as E.
  - subst n. split; [|done]. cbn. repeat case_decide; by subst.
  - destruct (set_value env name val) as [e|]; cbn [option_map].
    + destruct IH as [Hg Hk]. split; [|cbn; by rewrite Hk]. cbn. rewrite Hg. repeat case_decide; by subst.
    + cbn. apply not_elem_of_cons. split; [by intros ->|done].
Qed.

Lemma getenv_none env k : getenv env k = None ↔ k ∉ env.*1.
Proof.
  induction env as [|[n v] env IH]; cbn; [split; [intros _; apply not_elem_of_nil|done]|].
  rewrite not_elem_of_cons. case_decide; [subst; naive_solver|]. rewrite IH. naive_solver.
Qed.

Lemma stoenv_keys env name val : NoDup env.*1 → NoDup (stoenv env name val).*1.
Proof.
  intros Hn. unfold stoenv. pose proof (set_value_get env name val []) as H. destruct (set_value env name val) as [e|].
  - destruct H as [_ ->]. done.
  - by constructor.
Qed.

Lemma clrenv_sub env name k : k ∈ (clrenv env name).*1 → k ∈ env.*1.
Proof.
  induction env as [|[n v] env IH]; cbn; [done|]. rewrite strcmp_test. case_bool_decide; cbn; [by right|].
  intros [->|Hk]%elem_of_cons; [by left|right; auto].
Qed.

(** The environment is a map: with no name twice in it, setting a
    variable sets it and nothing else, clearing one removes it and nothing
    else, and no name is ever twice in it; and the copy a job gets is the list of
    the assignments, in a block they fill exactly. *)
Theorem environment_map (env : env_s) (name val k : str) :
  NoDup env.*1 →
  getenv (stoenv env name val) k = (if decide (k = name) then Some val else getenv env k) ∧
  getenv (clrenv env name) k = (if decide (k = name) then None else getenv env k) ∧
  NoDup (stoenv env name val).*1 ∧ NoDup (clrenv env name).*1 ∧
  cloneenv true env = Done (env_text env) ∧ strlen (env_text env) = env_size env.
Proof.
  intros Hn. split_and!.
  - unfold stoenv. pose proof (set_value_get env name val k) as H. destruct (set_value env name val) as [e|]; [apply H|].
    cbn. repeat case_decide; by subst.
  - induction env as [|[n v] env IH]; cbn; [by case_decide|]. apply NoDup_cons in Hn as [Hx Hn]. rewrite strcmp_test. case_bool_decide as E.
    + subst n. repeat case_decide; subst; try done. by apply getenv_none.
    + cbn. rewrite IH by done. repeat case_decide; by subst.
  - by apply stoenv_keys.
  - induction env as [|[n v] env IH]; cbn; [constructor|]. apply NoDup_cons in Hn as [Hx Hn]. rewrite strcmp_test. case_bool_decide; [done|].
    cbn. constructor; [|by apply IH]. intros Hk. by apply clrenv_sub in Hk.
  - apply cloneenv_done.
  - apply env_text_size.
Qed.

Lemma environment_map_witness :
  getenv (stoenv [(bs "SHELL", bs "/bin/sh")] (bs "HOME") (bs "/")) (bs "HOME") = Some (bs "/").
Proof.
  destruct (environment_map [(bs "SHELL", bs "/bin/sh")] (bs "HOME") (bs "/") (bs "HOME")) as [E _].
  - repeat constructor. apply not_elem_of_nil.
  - exact E.
Defined.

(** ** A job *)

Definition no_blank (c : Z) : Prop := c ∉ BLANKS.

Lemma strtok_word w r : w ≠ [] → Forall no_blank w → strtok BLANKS (w ++ 32 :: r) = (Some w, r).
Proof.
  intros Hne Hw. unfold strtok.
  assert (Hs : skip_delims BLANKS (w ++ 32 :: r) = w ++ 32 :: r).
  { destruct w as [|c w]; [done|]. apply Forall_cons in Hw as [Hc _]. cbn. by rewrite bool_decide_eq_false_2. }
  rewrite Hs. destruct (w ++ 32 :: r) as [|c s] eqn:E; [by destruct w|]. rewrite <-E. clear Hs E Hne.
  enough (take_word BLANKS (w ++ 32 :: r) = (w, r)) as -> by done.
  induction Hw as [|b w Hb _ IH]; [done|]. cbn [app take_word]. rewrite bool_decide_eq_false_2 by done. by rewrite IH.
Qed.

Lemma plain_blank w : Forall plain_char w → Forall no_blank w.
Proof. intros Hw. eapply Forall_impl; [exact Hw|]. intros c Hc Hb. unfold plain_char in Hc. unfold BLANKS in Hb. set_unfold. lia. Qed.

Lemma items_plain f l : l ≠ [] → Forall (item_ok f) l → items_text f l ≠ [] ∧ Forall no_blank (items_text f l).
Proof.
  induction l as [|it [|it2 l] IH]; intros Hne Hok; [done|..]; apply Forall_cons in Hok as [Hit Hok].
  - split; [by apply item_nonempty|]. eapply plain_blank, item_plain, Hit.
  - change (items_text f (it :: it2 :: l)) with (item_text f it ++ 44 :: items_text f (it2 :: l)). destruct (IH ltac:(done) Hok) as [_ Hp].
    split; [by destruct (item_text f it)|]. apply Forall_app. split; [eapply plain_blank, item_plain, Hit|].
    constructor; [|done]. unfold no_blank, BLANKS. set_unfold. lia.
Qed.

Lemma decode_field_of f w r : decode_field (w ++ 32 :: r) (nbits_of f) (abbrs_of f) (zerov_of f) =
  let '(w, r) := strtok BLANKS (w ++ 32 :: r) in
  b ← match w with Some w => decode_of f w | None => Done None end; Done (match b with Some b => Some (b, r) | None => None end).
Proof. unfold decode_field, decode_of. by destruct (strtok _ _) as [[?|] ?]. Qed.

Lemma field_step f l r : l ≠ [] → Forall (item_ok f) l →
  ∃ b, decode_field (items_text f l ++ 32 :: r) (nbits_of f) (abbrs_of f) (zerov_of f) = Done (Some (b, r)) ∧
    ∀ i, base_of f <= i < nbits_of f → bit_test b i = Done (bool_decide (Exists (λ it, selects f it i) l)).
Proof.
  intros Hne Hok. destruct (items_plain f l Hne Hok) as [Hn Hb]. rewrite decode_field_of, strtok_word by done.
  destruct (decode_text f l Hne Hok) as (b & E & L & T). exists b. rewrite E. split; [done|]. intros i Hi.
  pose proof (field_small f). rewrite bit_test_done, T by (done || lia || (unfold in_bits; rewrite L; pose proof (size_of_field f) as Hs;
    rewrite length_replicate in Hs; lia)). done.
Qed.

(** The five fields of a job, and the time they select. *)
Record schedule : Type := mk_schedule { s_min : list item; s_hour : list item; s_dom : list item; s_mon : list item; s_dow : list item }.

Definition field_ok (f : field) (l : list item) : Prop := l ≠ [] ∧ Forall (item_ok f) l.
Definition schedule_ok (c : schedule) : Prop :=
  field_ok FMin (s_min c) ∧ field_ok FHour (s_hour c) ∧ field_ok FDom (s_dom c) ∧ field_ok FMon (s_mon c) ∧ field_ok FDow (s_dow c).

Definition schedule_text (c : schedule) (rest : str) : str :=
  items_text FMin (s_min c) ++ 32 :: items_text FHour (s_hour c) ++ 32 :: items_text FDom (s_dom c) ++ 32 :: items_text FMon (s_mon c) ++ 32 ::
  items_text FDow (s_dow c) ++ 32 :: rest.

Definition matches (c : schedule) (now : tm) : Prop :=
  Exists (λ it, selects FMin it (tm_min now)) (s_min c) ∧ Exists (λ it, selects FHour it (tm_hour now)) (s_hour c) ∧
  Exists (λ it, selects FMon it (tm_mon now + 1)) (s_mon c) ∧ Exists (λ it, selects FDom it (tm_mday now)) (s_dom c) ∧
  Exists (λ it, selects FDow it (tm_wday now)) (s_dow c).

#[export] Instance matches_dec c now : Decision (matches c now).
Proof. unfold matches. apply _. Defined.

(** The fields of a broken-down time are in their ranges. *)
Definition tm_ok (now : tm) : Prop :=
  0 <= tm_min now < 60 ∧ 0 <= tm_hour now < 24 ∧ 0 <= tm_mon now < 12 ∧ 1 <= tm_mday now < 32 ∧ 0 <= tm_wday now < 7.

(** The job of a line of the crontab. *)
Lemma decode_job (getpwuid : Z → option str) (getpwnam : str → option (str * Z)) (jobs : list cent_s) (env : env_s)
    (c : schedule) (u : Z) (command : str) :
  schedule_ok c → 0 <= u < 100 → command ≠ [] →
  ∃ job, decode_line getpwuid getpwnam jobs env (schedule_text c (num u ++ 32 :: command)) = Done (Some (job :: jobs)) ∧
    prog job = command ∧ user job = u ∧ cent_env job = env_text env ∧
    ∀ now, tm_ok now → due now job = Done (bool_decide (matches c now)).
Proof.
  intros ([N1 O1] & [N2 O2] & [N3 O3] & [N4 O4] & [N5 O5]) Hu Hc. unfold decode_line, schedule_text.
  destruct (field_step FMin (s_min c) (items_text FHour (s_hour c) ++ 32 :: items_text FDom (s_dom c) ++ 32 :: items_text FMon (s_mon c) ++ 32 ::
    items_text FDow (s_dow c) ++ 32 :: num u ++ 32 :: command) N1 O1) as (b1 & E1 & T1). cbn [nbits_of abbrs_of zerov_of] in E1.
  rewrite E1. cbn [mbind exec_bind].
  destruct (field_step FHour (s_hour c) (items_text FDom (s_dom c) ++ 32 :: items_text FMon (s_mon c) ++ 32 ::
    items_text FDow (s_dow c) ++ 32 :: num u ++ 32 :: command) N2 O2) as (b2 & E2 & T2). cbn [nbits_of abbrs_of zerov_of] in E2.
  rewrite E2. cbn [mbind exec_bind].
  destruct (field_step FDom (s_dom c) (items_text FMon (s_mon c) ++ 32 :: items_text FDow (s_dow c) ++ 32 :: num u ++ 32 :: command) N3 O3)
    as (b3 & E3 & T3). cbn [nbits_of abbrs_of zerov_of] in E3. rewrite E3. cbn [mbind exec_bind].
  destruct (field_step FMon (s_mon c) (items_text FDow (s_dow c) ++ 32 :: num u ++ 32 :: command) N4 O4)
    as (b4 & E4 & T4). cbn [nbits_of abbrs_of zerov_of] in E4. rewrite E4. cbn [mbind exec_bind].
  destruct (field_step FDow (s_dow c) (num u ++ 32 :: command) N5 O5) as (b5 & E5 & T5). cbn [nbits_of abbrs_of zerov_of] in E5.
  rewrite E5. cbn [mbind exec_bind].
  rewrite strtok_word; [|unfold num; by destruct (u <? 10)|apply plain_blank, num_plain; lia].
  unfold decode_user. destruct (num_head u [] ltac:(lia)) as [Hd _]. rewrite app_nil_r in Hd. rewrite Hd.
  unfold atoi. pose proof (digits_num u [] ltac:(lia) eq_refl) as Ed. rewrite app_nil_r in Ed. rewrite Ed. cbn [fst].
  destruct command as [|k command]; [done|]. rewrite cloneenv_done. cbn [mbind exec_bind].
  eexists. split; [reflexivity|]. cbn [prog user cent_env]. do 3 (split; [done|]). intros now (H1 & H2 & H3 & H4 & H5).
  unfold due, matches. cbn [minutes hours months dom dow].
  rewrite T1, T2, T3, T4, T5 by (cbn; lia). cbn [mbind exec_bind].
  repeat case_bool_decide; cbn [mbind exec_bind]; first [done|exfalso; tauto].
Qed.

(** C15 (functional): a line of the crontab with five fields, a user id below 100 and a
    command is put in front of the jobs, with the command as it stands, and the job is
    due at exactly the times its fields select.  A field is a list of stars, values and
    ranges, each with a step or without; a value is a number of the field or the name
    of a month or of a day in small letters, and 7 is Sunday as 0 is; a step is at most
    as wide as the range.  A star with a step counts from the lowest value of the field,
    and a range whose end is the smaller one is turned round (so [5-7] for the day of the
    week is 0 to 5). *)
Theorem job_due (getpwuid : Z → option str) (getpwnam : str → option (str * Z)) (jobs : list cent_s) (env : env_s)
    (c : schedule) (u : Z) (command : str) :
  schedule_ok c → 0 <= u < 100 → command ≠ [] →
  ∃ job, decode_line getpwuid getpwnam jobs env (schedule_text c (num u ++ 32 :: command)) = Done (Some (job :: jobs)) ∧
    prog job = command ∧ user job = u ∧ cent_env job = env_text env ∧
    ∀ now, tm_ok now → due now job = Done (bool_decide (matches c now)).
Proof. apply decode_job. Qed.

Lemma job_due_witness :
  ∃ job, decode_line (λ _, None) (λ _, None) [] [] (bs "*/15 8-18 * mar-nov 1-5 0 /usr/local/bin/snap -q") = Done (Some [job]) ∧
    prog job = bs "/usr/local/bin/snap -q" ∧ due (localtime (moment 2008 68 2 0 0)) job = Done false ∧
    due (localtime (moment 2008 69 9 45 0)) job = Done true.
Proof.
  destruct (job_due (λ _, None) (λ _, None) [] []
    (mk_schedule [mk_item All (Some 15)] [mk_item (Range (Num 8) (Num 18)) None] [mk_item All None] [mk_item (Range (Name 3) (Name 11)) None] [mk_item (Range (Num 1) (Num 5)) None])
    0 (bs "/usr/local/bin/snap -q")) as (job & E & Hp & _ & _ & Hd).
  - unfold schedule_ok, field_ok. split_and!; try discriminate; repeat constructor; cbn; lia.
  - lia.
  - discriminate.
  - exists job. split; [exact E|]. split; [exact Hp|].
    split; (rewrite Hd; [reflexivity|unfold tm_ok; split_and!; vm_compute; (discriminate || reflexivity)]).
Defined.

(** The jobs that run are those that are due, in the order of the list. *)
Lemma runs_due_jobs (now : tm) (jobs : list cent_s) (sel : cent_s → bool) :
  (∀ job, job ∈ jobs → due now job = Done (sel job)) → check_runs now jobs = Done (filter (λ j, sel j = true) jobs).
Proof.
  induction jobs as [|job jobs IH]; intros Hd; [done|]. cbn [check_runs]. rewrite (Hd job) by (by left). cbn [mbind exec_bind].
  rewrite IH by (intros; apply Hd; by right). cbn [mbind exec_bind]. f_equal. rewrite filter_cons. by destruct (sel job).
Qed.

(** ** Any crontab *)

(** The bit string of a field has the size it should have. *)
Definition field_bits (f : field) (b : list Z) : Prop := length b = Z.to_nat (bitstr_size (nbits_of f)) ∧ Forall is_byte b.

Definition job_wf (job : cent_s) : Prop :=
  field_bits FMin (minutes job) ∧ field_bits FHour (hours job) ∧ field_bits FDom (dom job) ∧ field_bits FMon (months job) ∧ field_bits FDow (dow job).

Lemma decode_of_safe f s : ∃ r, decode_of f s = Done r ∧ ∀ b, r = Some b → field_bits f b.
Proof.
  rewrite decode_of_items. destruct (decode_items_safe (S (length s)) s (abbrs_of f) (base_of f) (nbits_of f) (zerov_of f)
    (replicate (Z.to_nat (bitstr_size (nbits_of f))) 0)) as (r & E & H);
    [lia|apply field_small|apply size_of_field|apply zeros_bytes|]. exists r. split; [done|]. rewrite length_replicate in H. exact H.
Qed.

Lemma decode_field_safe f line : ∃ r, decode_field line (nbits_of f) (abbrs_of f) (zerov_of f) = Done r ∧ ∀ b rest, r = Some (b, rest) → field_bits f b.
Proof.
  unfold decode_field. destruct (strtok BLANKS line) as [[w|] r]; [|by eexists].
  destruct (decode_of_safe f w) as (x & E & H). unfold decode_of in E. rewrite E. eexists. split; [reflexivity|]. intros b rest. destruct x as [b'|]; [|done]. intros [= <- _]. by apply H.
Qed.

Section safe.
Variable getpwuid : Z → option str.
Variable getpwnam : str → option (str * Z).

Ltac field_safe f :=
  match goal with |- context [decode_field ?l _ _ _] =>
    let E := fresh in let H := fresh "Hf" in let r := fresh in
    destruct (decode_field_safe f l) as (r & E & H); cbn [nbits_of abbrs_of zerov_of] in E; rewrite E; clear E; cbn [mbind exec_bind];
    destruct r as [[? ?]|]; [specialize (H _ _ eq_refl)|by exists None]
  end.

Lemma decode_line_safe jobs env line :
  ∃ r, decode_line getpwuid getpwnam jobs env line = Done r ∧ ∀ l, r = Some l → ∃ job, l = job :: jobs ∧ job_wf job.
Proof.
  unfold decode_line. field_safe FMin. field_safe FHour. field_safe FDom. field_safe FMon. field_safe FDow.
  destruct (strtok BLANKS _) as [[p|] line']; [|by exists None]. destruct (decode_user _ _ p) as [[name uid]|]; [|by exists None].
  destruct line'; [by exists None|]. rewrite cloneenv_done. eexists. split; [reflexivity|]. intros jobs' [= <-]. eexists. split; [reflexivity|]. by split_and!.
Qed.

Lemma decode_safe below st n p : isspace below = false →
  ∃ st', decode getpwuid getpwnam below st n p = Done st' ∧ (Forall job_wf (tasklist st) → Forall job_wf (tasklist st')).
Proof.
  intros Hb. unfold decode. case_match; [by eexists|]. case_match.
  - destruct (decode_line_safe (tasklist st) (env st) p) as (r & -> & Hr). eexists. split; [reflexivity|]. destruct r as [l|]; [|done].
    destruct (Hr l eq_refl) as (job & -> & Hj). by constructor.
  - unfold decode_env. destruct (cut p 61) as [name [q|]]; [|by eexists]. rewrite Hb, andb_false_r. eexists. split; [reflexivity|done].
Qed.

Lemma fdgets_rest i : ∀ file s more rest, fdgets i file = (s, more, rest) → i ≠ 0%nat →
  more = true → (length rest < length file)%nat.
Proof.
  induction i as [|i IH]; intros file s more rest E Hi Hm; [done|]. cbn in E. destruct file as [|ch file]; [by injection E as <- <- <-|].
  destruct (ch =? 10); [injection E as <- <- <-; cbn; lia|].
  destruct (fdgets i file) as [[s' more'] rest'] eqn:E'. injection E as <- <- <-. subst more'.
  destruct i as [|i]; [cbn in E'; injection E' as <- <-; cbn; lia|]. specialize (IH _ _ _ _ E' ltac:(done) eq_refl). cbn. lia.
Qed.

Lemma load_loop_safe BUFSIZ below fuel : ∀ st n file,
  (1 < BUFSIZ)%nat → isspace below = false → (length file < fuel)%nat →
  ∃ ok st', load_loop getpwuid getpwnam BUFSIZ fuel below st n file = Done (ok, st') ∧ (Forall job_wf (tasklist st) → Forall job_wf (tasklist st')).
Proof.
  induction fuel as [|fuel IH]; intros st n file HB Hb Hf; [lia|]. cbn [load_loop].
  destruct (fdgets (BUFSIZ - 1) file) as [[buf more] rest] eqn:Eg.
  destruct (cut (c_str buf) 10) as [text [t|]]; [|by eexists _, _].
  assert (∃ p, strip_line below text = Done p) as [p ->]
    by (unfold strip_line; destruct (strip_tail text); [rewrite Hb; by eexists|by eexists]).
  cbn [mbind exec_bind]. destruct (decode_safe below st (n + 1) p Hb) as (st' & -> & Hst'). cbn [mbind exec_bind].
  destruct more; [|by eexists _, _]. apply fdgets_rest in Eg; [|lia|done].
  destruct (IH st' (n + 1) rest) as (ok & st2 & E & H2); [done|done|lia|]. exists ok, st2. auto.
Qed.

Lemma load_file_wf BUFSIZ below st fst file : (1 < BUFSIZ)%nat → isspace below = false →
  ∃ ok st', load_file getpwuid getpwnam BUFSIZ below st fst file = Done (ok, st') ∧ (Forall job_wf (tasklist st) → Forall job_wf (tasklist st')).
Proof.
  intros HB Hb. unfold load_file. repeat (case_match; [by eexists _, _|]).
  destruct (load_loop_safe BUFSIZ below (S (length file)) (mk_state [] default_env (st_mtime fst) (malformed st)) 0 file) as (ok & st' & E & Hwf); [done|done|lia|].
  exists ok, st'. split; [done|]. intros _. apply Hwf. constructor.
Qed.
End safe.

(** Whatever the crontab holds, reading it ends and makes no access
    outside the buffers, the bit strings and the blocks of the environment, if
    the byte below the line buffer is no white space: malformed lines are
    skipped, and a line that does not fit the buffer ends the reading. *)
Theorem load_file_safe (getpwuid : Z → option str) (getpwnam : str → option (str * Z)) (BUFSIZ : nat) (below : Z)
    (st : state) (fst : file_stat) (file : list Z) :
  (1 < BUFSIZ)%nat → isspace below = false → ∃ r, load_file getpwuid getpwnam BUFSIZ below st fst file = Done r.
Proof. intros HB Hb. destruct (load_file_wf getpwuid getpwnam BUFSIZ below st fst file HB Hb) as (ok & st' & E & _). by eexists. Qed.

Definition good_stat : file_stat := mk_stat true true true true 0 false 5.
Definition no_jobs : state := mk_state [] [] 0 [].

Lemma load_file_safe_witness : ∃ r, load_file (λ _, None) (λ _, None) 4096 0 no_jobs good_stat create_file = Done r.
Proof. apply load_file_safe; [lia|reflexivity]. Defined.

(** A blank line makes the daemon look at the byte below its line
    buffer, and overwrite it when it is white space: the file it writes itself
    when it starts has such a line. *)
Theorem blank_line_underflow (getpwuid : Z → option str) (getpwnam : str → option (str * Z)) :
  load_file getpwuid getpwnam 4096 32 no_jobs good_stat create_file = Fault ∧
  load_file getpwuid getpwnam 4096 0 no_jobs good_stat create_file = Done (true, mk_state [] [] 5 []).
Proof. split; vm_compute; reflexivity. Qed.

(** ** Log lines *)

Lemma log_copy_done msg : ∀ buf, strlen buf <= LOGBUFSIZ - 1 → ∃ b, log_copy buf msg = Done b ∧ strlen b <= LOGBUFSIZ - 1.
Proof.
  induction msg as [|c msg IH]; intros buf Hb; cbn [log_copy]; [by eexists|].
  destruct (Z.ltb_spec (strlen buf) (LOGBUFSIZ - 1)); [|by eexists].
  rewrite append_done by (change (strlen [c]) with 1; lia). cbn [mbind exec_bind]. apply IH. rewrite strlen_app. change (strlen [c]) with 1. lia.
Qed.

(** A log line of any three texts is cut to the eighty bytes of its
    buffer, with the newline in it. *)
Theorem log3_fits (m1 m2 m3 : option str) : ∃ b, log3 m1 m2 m3 = Done (b ++ [10]) ∧ strlen (b ++ [10]) <= LOGBUFSIZ.
Proof.
  unfold log3. rewrite append_done by (vm_compute; discriminate). cbn [mbind exec_bind app].
  destruct (log_copy_done (default [] m1) (bs "cron: ")) as (b1 & E1 & L1); [vm_compute; discriminate|].
  rewrite E1. cbn [mbind exec_bind]. destruct (log_copy_done (default [] m2) b1 L1) as (b2 & E2 & L2). rewrite E2. cbn [mbind exec_bind].
  destruct (log_copy_done (default [] m3) b2 L2) as (b3 & E3 & L3). rewrite E3. cbn [mbind exec_bind].
  exists b3. rewrite append_done by (change (strlen [10]) with 1; lia). split; [done|]. rewrite strlen_app. change (strlen [10]) with 1. lia.
Qed.
