(* ===== verification/Runner.v ===== *)
(** * The job runner

    [src/sysapps/apps/cron/cron-parent.c], the process that [cron] starts for a
    job: it changes the user, reads the command line, finds the program, sets the
    descriptors up and starts the job and, if its output is to be mailed, a mail
    program.

    The strings of a process are values, except where the code changes one in
    place: the command line, in which [%] is replaced, and the value of PATH in the
    environment, which [strtok] cuts.  Descriptors are a table of what they refer
    to. *)

From S2P Require Import Prelude Clock Cron.

Local Open Scope Z_scope.
Local Abbreviation str := (list Z).

(** ** Percent signs *)

(** The loop over the buffer [m]; [p] and [q] are the two pointers.  Out of fuel is
    a fault. *)
Fixpoint mangle (fuel : nat) (m : list Z) (p q : Z) : exec (list Z) :=
  match fuel with
  | O => Fault
  | S fuel' =>
      c ← load m q;
      if c =? 0 then Done m
      else if c =? 37 then
        c1 ← load m (q + 1);
        if c1 =? 37 then m ← store m p c; mangle fuel' m (p + 1) (q + 2)
        else m ← store m p 10; mangle fuel' m (p + 1) (q + 1)
      else m ← store m p c; mangle fuel' m (p + 1) (q + 1)
  end.

(** [strchr (s, '\n')]: what is before it, and behind it. *)
Fixpoint cut_line (s : str) : str * option str :=
  match s with
  | [] => ([], None)
  | c :: s' => if c =? 10 then ([], Some s') else let '(a, r) := cut_line s' in (c :: a, r)
  end.

(** ** The command line *)

(** Where the code calls [exit (1)]. *)
Inductive flow (A : Type) : Type := Go (a : A) | Exit.
Arguments Go {A} a.
Arguments Exit {A}.

#[export] Instance flow_ret : MRet flow := λ A a, Go a.
#[export] Instance flow_bind : MBind flow := λ A B f m, match m with Go a => f a | Exit => Exit end.

(** [for (i = 1; i < 100 && (p = strtok (NULL, " \t")) != NULL; )], the last [n]
    arguments: the arguments and the file for the output. *)
Fixpoint read_args (fuel : nat) (i : nat) (rest : str) (av : list str) (outfile : option str) : flow (list str * option str) :=
  match fuel with
  | O => Exit
  | S fuel' =>
      if bool_decide (i < 100)%nat then
        match strtok BLANKS rest with
        | (None, _) => Go (av, outfile)
        | (Some p, rest) =>
            if head p =? 62 then
              match outfile with
              | Some _ => Exit
              | None =>
                  match drop 1 p with
                  | [] => match strtok BLANKS rest with
                          | (None, _) => Exit
                          | (Some f, rest) => read_args fuel' i rest av (Some f)
                          end
                  | f => read_args fuel' i rest av (Some f)
                  end
              end
            else read_args fuel' (S i) rest (av ++ [p]) outfile
        end
      else Go (av, outfile)
  end.

(** What [stat] tells of a file. *)
Record inode : Type := mk_inode { st_uid : Z; st_gid : Z; ixusr : bool; ixgrp : bool; ixoth : bool }.

Definition runnable (uid gid : Z) (b : inode) : bool :=
  if st_uid b =? uid then ixusr b else if st_gid b =? gid then ixgrp b else ixoth b.

(** [do ... while ((r = strtok (NULL, ":")) != NULL)]: the path and how much of
    PATH the search has cut up. *)
Fixpoint search_path (fuel : nat) (stat : str → option inode) (uid gid : Z) (r : str) (rest : str) (cmd : str) : option str :=
  match fuel with
  | O => None
  | S fuel' =>
      let q := r ++ [47] ++ cmd in
      let again := match strtok [58] rest with (Some r', rest') => search_path fuel' stat uid gid r' rest' cmd | (None, _) => None end in
      match stat q with
      | None => again
      | Some b => if runnable uid gid b then Some q else again
      end
  end.

Fixpoint getenv (env : env_s) (name : str) : option str :=
  match env with [] => None | (n, v) :: env' => if strcmp n name =? 0 then Some v else getenv env' name end.

(** The string in the environment behind the first call of [strtok]: the delimiter
    it has found is a terminator now. *)
Definition cut_path (value : str) : str :=
  let w := skip_delims [58] value in take (length value - length w)%nat value ++ (take_word [58] w).1.

Record job : Type := mk_job { j_av : list str; j_path : str; j_stdin : option str; j_outfile : option str; j_env : env_s }.

(** [args] is the string; the buffer has it with its terminator.  [literal]: the
    value of PATH is a constant of the program, and to cut it is a fault. *)
Definition parseargs (literal : bool) (stat : str → option inode) (uid gid : Z) (env : env_s) (args : str) : exec (flow job) :=
  m ← mangle (S (length args)) (args ++ [0]) 0 0;
  let '(line, stdin) := cut_line (c_str m) in
  match strtok BLANKS line with
  | (None, _) => Done Exit
  | (Some p, rest) =>
      match read_args (S (length rest)) 1 rest [p] None with
      | Exit => Done Exit
      | Go (av, outfile) =>
          if head p =? 47 then Done (Go (mk_job av p stdin outfile env))
          else
            match getenv env (bs "PATH") with
            | None => Fault
            | Some value =>
                if literal then Fault else
                match strtok [58] value with
                | (None, _) => Done Exit
                | (Some r, rest) =>
                    match search_path (S (length rest)) stat uid gid r rest p with
                    | None => Done Exit
                    | Some path => Done (Go (mk_job av path stdin outfile (stoenv env (bs "PATH") (cut_path value))))
                    end
                end
            end
      end
  end.

(** ** The environment *)

Record settings : Type := mk_settings { mailuser : option str; mailhost : option str; hname : option str; home : str; s_env : env_s; path_literal : bool }.

Definition setenviron (user : str) (env : env_s) : settings :=
  let '(env, literal) :=
    match getenv env (bs "PATH") with None => (stoenv env (bs "PATH") (bs "/bin:/usr/bin:/etc"), true) | Some _ => (env, false) end in
  mk_settings
    (match getenv env (bs "MAILTO") with Some s => if strcmp s (bs "nobody") =? 0 then None else Some s | None => Some user end)
    (getenv env (bs "MAILHOST")) (getenv env (bs "HOSTNAME")) (default (bs "/tmp") (getenv env (bs "HOME"))) env literal.

(** ** Descriptors *)

(** What a descriptor refers to: the null device, the file for the output, or an
    end of the pipe for the output or the input of the job. *)
Inductive target : Type := Null | Outfile | Output_read | Output_write | Input_read | Input_write | Inherited (n : nat).

#[export] Instance target_eq_dec : EqDecision target.
Proof. solve_decision. Defined.

Abbreviation fds := (gmap nat target).

Definition PLISTENFD : nat := 8.
Definition PSENDFD : nat := 9.

Definition close (t : fds) (fd : nat) : fds := delete fd t.

(** The lowest descriptor that is free, of the 64 that are closed. *)
Definition lowest (t : fds) : nat := default 64%nat (fst <$> list_find (λ i, t !! i = None) (seq 0 64)).

Definition open_fd (t : fds) (o : target) : nat * fds := let fd := lowest t in (fd, <[fd := o]> t).
Definition pipe (t : fds) (r w : target) : nat * nat * fds :=
  let '(a, t) := open_fd t r in let '(b, t) := open_fd t w in (a, b, t).
Definition dup2 (t : fds) (old new : nat) : fds := match t !! old with Some o => <[new := o]> t | None => t end.

(** [for (i = 0; i < 64; i++) close (i)]. *)
Definition close_all (t : fds) : fds := fold_left close (seq 0 64) t.

(** [out_ok] and [null_ok]: whether the two calls of [open] succeed. *)
Definition setupfds (mail : bool) (outfile : option str) (stdin : option str) (out_ok null_ok : bool) (t : fds) : fds :=
  let t := close_all t in
  let t :=
    if mail then
      let '(r, w, t) := pipe t Output_read Output_write in
      let t := dup2 t w 2 in
      let t := dup2 t r PLISTENFD in
      close t r
    else
      let '(i, t) :=
        match outfile with
        | Some _ => if out_ok then (Some (lowest t), (open_fd t Outfile).2) else if null_ok then (Some (lowest t), (open_fd t Null).2) else (None, t)
        | None => if null_ok then (Some (lowest t), (open_fd t Null).2) else (None, t)
        end in
      match i with Some i => close (dup2 (dup2 t i 1) i 2) i | None => t end in
  match stdin with
  | Some _ => let '(r, w, t) := pipe t Input_read Input_write in close (dup2 t w PSENDFD) w
  | None => if null_ok then (open_fd t Null).2 else t
  end.

(** ** The processes *)

(** The descriptors of the job when it is started. *)
Definition job_fds (t : fds) : fds := close (close t PLISTENFD) PSENDFD.

(** Those of the parent while the job runs, and of the mail program. *)
Definition parent_fds (t : fds) : fds := close (close (close t 0) 1) 2.
Definition mail_fds (t : fds) : fds := close (close (dup2 t PLISTENFD 0) PLISTENFD) PSENDFD.

Definition is_mailed (s : settings) : bool := bool_decide (is_Some (mailuser s)) && bool_decide (is_Some (mailhost s)).

(** The arguments of the mail program. *)
Definition mail_args (s : settings) (path : str) : option (list str) :=
  match mailuser s, mailhost s with
  | Some u, Some h =>
      Some ([bs "cron-mail"; bs "-s"; bs "Output from: " ++ path] ++
            match hname s with Some n => [bs "-H"; n] | None => [] end ++ [bs "-L"; bs "-S"; h; u])
  | _, _ => None
  end.

(** The writes to the job's input: [ws] are the results, a negative one is an
    error; out of results the loop waits. *)
Fixpoint send_loop (ws : list Z) (s : str) (sent : str) : option str :=
  match s with
  | [] => Some sent
  | _ =>
      match ws with
      | [] => None
      | w :: ws' => if w <? 0 then Some sent else let n := Z.to_nat (Z.min w (strlen s)) in send_loop ws' (drop n s) (sent ++ take n s)
      end
  end.

(** What the job reads; the byte in front of an empty string is the terminator of
    the command line.  [last_ok]: whether the newline is written. *)
Definition sendstdin (ws : list Z) (last_ok : bool) (stdin : option str) : option (option str) :=
  match stdin with
  | None => Some None
  | Some s =>
      sent ← send_loop ws s [];
      Some (Some (sent ++ (if negb (List.last s 0 =? 10) && last_ok then [10] else [])))
  end.

(** What is started: the user, the job, where it starts, and the mail program. *)
Record started : Type := mk_started { st_as : Z; st_job : job; st_home : str; st_fds : fds; st_mail : option (list str) }.

(** [changeuser] makes the user id the group id too. *)
Definition cron_parent_main (stat : str → option inode) (out_ok null_ok : bool) (t : fds) (env : env_s) (argv : list str) : exec (flow started) :=
  match argv with
  | [_; args; uid; user] =>
      let s := setenviron user env in
      r ← parseargs (path_literal s) stat (atoi uid) (atoi uid) (s_env s) args;
      match r with
      | Exit => Done Exit
      | Go j => Done (Go (mk_started (atoi uid) j (home s) (setupfds (is_mailed s) (j_outfile j) (j_stdin j) out_ok null_ok t) (mail_args s (j_path j))))
      end
  | _ => Done Exit
  end.
