(* ===== verification/RunnerTheorems.v ===== *)
(** * What the job runner guarantees

    The words of a command line reach the job; its descriptors are those that the
    comment in the code describes, and the pipes end where they should; its input is
    sent to it whole.  And what goes wrong: a doubled percent sign, and the PATH that
    the job gets. *)

From S2P Require Import Prelude Clock Cron Runner.

Local Open Scope Z_scope.
Local Abbreviation str := (list Z).

(** ** Percent signs *)

(** What the replacement means to do. *)
Fixpoint percent (s : str) : str :=
  match s with
  | [] => []
  | c :: s' =>
      if c =? 37 then
        match s' with
        | c1 :: s'' => if c1 =? 37 then 37 :: percent s'' else 10 :: percent s'
        | [] => [10]
        end
      else c :: percent s'
  end.

Lemma percent_short n : ∀ s, (length s <= n)%nat → (length (percent s) <= length s)%nat.
Proof.
  induction n as [|n IH]; intros s Hn; [by destruct s; [|cbn in Hn; lia]|]. destruct s as [|c s]; [done|]. cbn in *. destruct (c =? 37).
  - destruct s as [|c1 s]; [done|]. destruct (c1 =? 37); cbn in *; [specialize (IH s)|specialize (IH (c1 :: s))]; cbn in *; lia.
  - specialize (IH s). cbn. lia.
Qed.

Lemma store_take_drop (m : list Z) (p : nat) v : (p < length m)%nat → store m (Z.of_nat p) v = Done (take p m ++ v :: drop (S p) m).
Proof. intros H. rewrite store_done by lia. by rewrite Nat2Z.id, insert_take_drop. Qed.

(** The loop from two pointers into the buffer. *)
Lemma mangle_spec fuel : ∀ m (p q : nat) s r, drop q m = s ++ 0 :: r → is_cstr s → (p <= q)%nat → (length s < fuel)%nat →
  mangle fuel m (Z.of_nat p) (Z.of_nat q) = Done (take p m ++ percent s ++ drop (p + length (percent s)) m).
Proof.
  induction fuel as [|fuel IH]; intros m p q s r Hd Hs Hpq Hf; [lia|]. cbn [mangle].
  assert (Hlen : (q + length s < length m)%nat) by (apply (f_equal length) in Hd; rewrite length_drop, length_app in Hd; cbn in Hd; lia).
  assert (Hld : ∀ i b, (s ++ 0 :: r) !! i = Some b → load m (Z.of_nat q + Z.of_nat i) = Done b).
  { intros i b Hb. rewrite <-Nat2Z.inj_add. apply load_done. by rewrite <-lookup_drop, Hd. }
  destruct s as [|c s]; cbn [app] in *.
  - pose proof (Hld 0%nat 0 eq_refl) as H0. change (Z.of_nat 0) with 0 in H0. rewrite Z.add_0_r in H0. rewrite H0. cbn. by rewrite Nat.add_0_r, take_drop.
  - inversion Hs as [|? ? Hc Hs']; subst. unfold is_cchar in Hc. pose proof (Hld 0%nat c eq_refl) as H0. change (Z.of_nat 0) with 0 in H0. rewrite Z.add_0_r in H0. rewrite H0. cbn [mbind exec_bind].
    rewrite (proj2 (Z.eqb_neq c 0)) by lia.
    assert (Hstep : ∀ v k s2, (1 <= k)%nat → drop (q + k) m = s2 ++ 0 :: r → is_cstr s2 → (length s2 < fuel)%nat →
      (m' ← store m (Z.of_nat p) v; mangle fuel m' (Z.of_nat p + 1) (Z.of_nat q + Z.of_nat k))
      = Done (take p m ++ (v :: percent s2) ++ drop (p + length (v :: percent s2)) m)).
    { intros v k s2 Hk Hd2 Hs2 Hf2. rewrite store_take_drop by lia. cbn [mbind exec_bind]. rewrite <-Nat2Z.inj_add. replace (Z.of_nat p + 1) with (Z.of_nat (S p)) by lia.
      set (m' := take p m ++ v :: drop (S p) m). assert (Lp : length (take p m) = p) by (rewrite length_take; cbn in Hlen; lia).
      assert (Hdm : ∀ j, (S p <= j)%nat → drop j m' = drop j m).
      { intros j Hj. unfold m'. rewrite drop_app_ge, Lp by lia. replace (j - p)%nat with (S (j - S p)) by lia. cbn [drop]. rewrite drop_drop. f_equal. lia. }
      rewrite (IH m' (S p) (q + k)%nat s2 r) by (rewrite ?Hdm by lia; (done || lia)). f_equal. rewrite Hdm by lia.
      assert (Ht : take (S p) m' = take p m ++ [v]) by (unfold m'; rewrite take_app_ge, Lp by lia; replace (S p - p)%nat with 1%nat by lia; done).
      rewrite Ht, <-app_assoc. cbn [app length]. do 4 f_equal. lia. }
    assert (Hd1 : drop (q + 1) m = s ++ 0 :: r) by (rewrite <-drop_drop, Hd; done). cbn [length] in Hf.
    cbn [percent]. destruct (Z.eqb_spec c 37) as [->|Hc37].
    + destruct s as [|c1 s].
      * change (Z.of_nat q + 1) with (Z.of_nat q + Z.of_nat 1). rewrite (Hld 1%nat 0) by done. cbn [mbind exec_bind]. change (0 =? 37) with false. cbv iota.
        apply (Hstep 10 1%nat []); [lia|done|constructor|lia].
      * change (Z.of_nat q + 1) with (Z.of_nat q + Z.of_nat 1). rewrite (Hld 1%nat c1) by done. cbn [mbind exec_bind]. inversion Hs' as [|? ? Hc1 Hs'']; subst. destruct (Z.eqb_spec c1 37) as [->|].
        -- change 2 with (Z.of_nat 2). apply Hstep; [lia| |done|cbn [length] in Hf; lia]. rewrite <-drop_drop, Hd. done.
        -- apply Hstep; [lia|done|done|cbn [length] in *; lia].
    + change (Z.of_nat q + 1) with (Z.of_nat q + Z.of_nat 1). apply Hstep; [lia|done|done|lia].
Qed.

Lemma percent_cstr n : ∀ s, (length s <= n)%nat → is_cstr s → is_cstr (percent s).
Proof.
  unfold is_cstr. induction n as [|n IH]; intros s Hn Hs; [by destruct s; [|cbn in Hn; lia]|]. destruct s as [|c s]; [done|]. inversion Hs as [|? ? Hc Hs']; subst. cbn in *.
  destruct (c =? 37); [|constructor; [done|apply IH; [lia|done]]].
  destruct s as [|c1 s]; [repeat constructor; unfold is_cchar; lia|]. inversion Hs' as [|? ? Hc1 Hs'']; subst. cbn in Hn.
  destruct (c1 =? 37); constructor; try (unfold is_cchar; lia); apply IH; (done || cbn; lia).
Qed.

Lemma mangled s : is_cstr s → ∃ m, mangle (S (length s)) (s ++ [0]) 0 0 = Done m ∧ c_str m = percent s ++ drop (length (percent s)) s.
Proof.
  intros Hs. pose proof (mangle_spec (S (length s)) (s ++ [0]) 0 0 s [] eq_refl Hs ltac:(lia) ltac:(lia)) as E. eexists. split; [exact E|].
  pose proof (percent_short (length s) s ltac:(lia)). rewrite firstn_O, app_nil_l, Nat.add_0_l, drop_app_le, app_assoc by lia. apply c_str_terminated.
  apply Forall_app. split; [by apply (percent_cstr (length s))|by apply Forall_drop].
Qed.

(** A doubled percent sign repeats the end of the command line.  The
    replacement is made in place and no terminator is written behind its result: of
    a command line [s] it leaves the text that is meant, followed by the end of [s]
    from that length on.  Without a doubled percent sign there is nothing left. *)
Theorem percent_tail (s : str) :
  is_cstr s → ∃ m, mangle (S (length s)) (s ++ [0]) 0 0 = Done m ∧ c_str m = percent s ++ drop (length (percent s)) s.
Proof. apply mangled. Qed.

Lemma percent_tail_witness : ∃ m, mangle 16 (bs "date +%%Y >/tmp" ++ [0]) 0 0 = Done m ∧ c_str m = bs "date +%Y >/tmpp".
Proof.
  destruct (percent_tail (bs "date +%%Y >/tmp")) as (m & E & H); [apply (bool_decide_unpack _); vm_compute; done|]. exists m. split; [exact E|]. rewrite H. reflexivity.
Defined.

(** ** Words *)

Definition word_char (c : Z) : Prop := 0 < c < 256 ∧ c ≠ 9 ∧ c ≠ 10 ∧ c ≠ 32 ∧ c ≠ 37.
Definition word (w : str) : Prop := w ≠ [] ∧ Forall word_char w.

(** Words with a separator between them. *)
Fixpoint joined (sep : Z) (ws : list str) : str :=
  match ws with [] => [] | [w] => w | w :: ws' => w ++ sep :: joined sep ws' end.

Lemma take_word_end delims w : Forall (λ c, ¬ c ∈ delims) w → take_word delims w = (w, []).
Proof. induction 1 as [|c w Hc Hw IH]; [done|]. cbn [take_word]. by rewrite bool_decide_false, IH. Qed.

Lemma take_word_sep delims sep w r : sep ∈ delims → Forall (λ c, ¬ c ∈ delims) w → take_word delims (w ++ sep :: r) = (w, r).
Proof. intros Hs. induction 1 as [|c w Hc Hw IH]; cbn [app take_word]; [by rewrite bool_decide_true|]. by rewrite bool_decide_false, IH. Qed.

Lemma skip_word delims w r : w ≠ [] → Forall (λ c, ¬ c ∈ delims) w → skip_delims delims (w ++ r) = w ++ r.
Proof. intros Hn Hw. destruct Hw; [done|]. cbn [app skip_delims]. by rewrite bool_decide_false. Qed.

Lemma strtok_joined delims sep w ws : sep ∈ delims → w ≠ [] → Forall (λ c, ¬ c ∈ delims) w →
  strtok delims (joined sep (w :: ws)) = (Some w, joined sep ws).
Proof.
  intros Hs Hn Hw. unfold strtok. destruct ws as [|w2 ws]; cbn [joined].
  - rewrite <-(app_nil_r w) at 1. rewrite skip_word, app_nil_r by done. destruct w; [done|]. by rewrite take_word_end.
  - rewrite skip_word by done. destruct w as [|c w]; [done|]. cbn [app]. by rewrite app_comm_cons, (take_word_sep _ sep).
Qed.

Lemma joined_length sep ws : Forall (λ w, w ≠ []) ws → (length ws <= length (joined sep ws))%nat.
Proof.
  induction 1 as [|w ws Hn Hws IH]; [done|]. destruct w as [|c w]; [done|]. cbn [joined length]. destruct ws; [cbn; lia|]. rewrite length_app. cbn [length] in *. lia.
Qed.

Definition line (ws : list str) : str := joined 32 ws.

Lemma word_delims w : word w → w ≠ [] ∧ Forall (λ c, ¬ c ∈ BLANKS) w.
Proof.
  intros [Hn Hw]. split; [done|]. apply (Forall_impl _ _ _ Hw). unfold word_char, BLANKS. intros c H Hc. rewrite !elem_of_cons, elem_of_nil in Hc. lia.
Qed.

Lemma strtok_line w ws : word w → strtok BLANKS (line (w :: ws)) = (Some w, line ws).
Proof. intros [Hn Hw]%word_delims. apply strtok_joined; [left|done|done]. Qed.

Lemma line_length ws : Forall word ws → (length ws <= length (line ws))%nat.
Proof. intros H. apply joined_length, (Forall_impl _ _ _ H). by intros w [Hn _]. Qed.

(** The words, the last of which may be a redirection. *)
Lemma read_args_words fuel : ∀ i ws av, Forall word ws → Forall (λ w, head w ≠ 62) ws → (i + length ws <= 100)%nat → (length ws < fuel)%nat →
  read_args fuel i (line ws) av None = Go (av ++ ws, None).
Proof.
  induction fuel as [|fuel IH]; intros i ws av Hw Hh Hi Hf; [lia|]. cbn [read_args]. destruct ws as [|w ws].
  - rewrite app_nil_r. by destruct (bool_decide _).
  - cbn [length] in *. rewrite bool_decide_true by lia. inversion Hw; inversion Hh; subst. rewrite strtok_line by done. rewrite (proj2 (Z.eqb_neq _ _)) by done.
    rewrite IH by (done || lia). by rewrite <-app_assoc.
Qed.

Lemma read_args_redirect fuel : ∀ i ws f av, Forall word ws → Forall (λ w, head w ≠ 62) ws → word (62 :: f) → f ≠ [] → (i + length ws < 100)%nat → (S (length ws) < fuel)%nat →
  read_args fuel i (line (ws ++ [62 :: f])) av None = Go (av ++ ws, Some f).
Proof.
  induction fuel as [|fuel IH]; intros i ws f av Hw Hh Hf Hn Hi Hl; [lia|]. cbn [read_args]. rewrite bool_decide_true by lia. destruct ws as [|w ws].
  - cbn [app]. rewrite (strtok_line (62 :: f) []) by done. change (head (62 :: f) =? 62) with true. cbv iota. destruct f as [|c f]; [done|]. cbn [drop].
    destruct fuel; [cbn in Hl; lia|]. cbn [read_args]. rewrite app_nil_r. by destruct (bool_decide _).
  - cbn [length app] in *. inversion Hw; inversion Hh; subst. rewrite strtok_line by done. rewrite (proj2 (Z.eqb_neq _ _)) by done.
    rewrite IH by (done || lia). by rewrite <-app_assoc.
Qed.

(** ** Whole command lines *)

(** How a user writes a text: [%] for the end of a line. *)
Definition encode (s : str) : str := map (λ c, if c =? 10 then 37 else c) s.

(** No empty line: its [%] would be one of a pair. *)
Fixpoint no_pair (s : str) : bool :=
  match s with
  | c :: s' => negb ((c =? 10) && match s' with c1 :: _ => c1 =? 10 | [] => false end) && no_pair s'
  | [] => true
  end.

Definition text (s : str) : Prop := Forall (λ c, 0 < c < 256 ∧ c ≠ 37) s.

Lemma percent_encode s : text s → no_pair s = true → percent (encode s) = s.
Proof.
  induction 1 as [|c s (Hc & H37) Hs IH]; [done|]. cbn [no_pair]. rewrite andb_true_iff, negb_true_iff. intros [Hp Hn]. specialize (IH Hn).
  unfold encode in *. cbn [map percent]. destruct (Z.eqb_spec c 10) as [->|H10].
  - cbn [Z.eqb Pos.eqb]. destruct s as [|c1 s]; [done|]. cbn [map] in *. change (10 =? 10) with true in Hp. cbn [andb] in Hp. rewrite Hp in *. inversion Hs as [|? ? [_ H1] _]; subst.
    rewrite (proj2 (Z.eqb_neq c1 37)) by done. by rewrite IH.
  - rewrite (proj2 (Z.eqb_neq c 37)), IH by done. done.
Qed.

Lemma encode_cstr s : text s → is_cstr (encode s).
Proof. induction 1 as [|c s [Hc _] Hs IH]; constructor; [|done]. unfold is_cchar. destruct (c =? 10); lia. Qed.

Lemma encoded s : text s → no_pair s = true → ∃ m, mangle (S (length (encode s))) (encode s ++ [0]) 0 0 = Done m ∧ c_str m = s.
Proof.
  intros Hs Hn. destruct (mangled (encode s) (encode_cstr s Hs)) as (m & E & H). exists m. split; [done|]. rewrite H, percent_encode by done.
  rewrite drop_ge, app_nil_r; [done|]. unfold encode. by rewrite length_map.
Qed.

(** The command line, the words [ws], and the input of the job behind it. *)
Definition command (ws : list str) (input : option str) : str :=
  line ws ++ match input with Some t => 10 :: t | None => [] end.

Lemma line_text ws : Forall word ws → Forall (λ c, (0 < c < 256 ∧ c ≠ 37) ∧ c ≠ 10) (line ws).
Proof.
  assert (Hw1 : ∀ w, word w → Forall (λ c, (0 < c < 256 ∧ c ≠ 37) ∧ c ≠ 10) w) by (intros w [_ H]; apply (Forall_impl _ _ _ H); unfold word_char; lia).
  unfold line. induction 1 as [|w ws Hw Hws IH]; [constructor|]. cbn [joined]. destruct ws as [|w2 ws]; [by apply Hw1|].
  apply Forall_app. split; [by apply Hw1|]. constructor; [lia|done].
Qed.

Lemma no_pair_app s t : Forall (λ c, (0 < c < 256 ∧ c ≠ 37) ∧ c ≠ 10) s → no_pair (s ++ t) = no_pair t.
Proof. induction 1 as [|c s [_ Hc] Hs IH]; [done|]. cbn [app no_pair]. by rewrite (proj2 (Z.eqb_neq c 10)). Qed.

Lemma cut_command ws input : Forall word ws → cut_line (command ws input) = (line ws, input).
Proof.
  intros H%line_text. unfold command. induction H as [|c s [_ Hc] Hs IH]; [by destruct input|]. cbn [app cut_line]. by rewrite (proj2 (Z.eqb_neq c 10)), IH.
Qed.

(** An input that can be written on a command line: it has no percent sign and no
    empty line. *)
Definition input_ok (input : option str) : Prop :=
  match input with Some t => text t ∧ no_pair (10 :: t) = true | None => True end.

Lemma command_mangled ws input : Forall word ws → input_ok input →
  ∃ m, mangle (S (length (encode (command ws input)))) (encode (command ws input) ++ [0]) 0 0 = Done m ∧ cut_line (c_str m) = (line ws, input).
Proof.
  intros Hws Hi. pose proof (line_text ws Hws) as Hl. destruct (encoded (command ws input)) as (m & E & H).
  - apply Forall_app. split; [apply (Forall_impl _ _ _ Hl); tauto|]. destruct input as [t|]; [|constructor]. destruct Hi. constructor; [lia|done].
  - unfold command. rewrite no_pair_app by done. destruct input; [by destruct Hi|done].
  - exists m. by rewrite H, cut_command.
Qed.

(** The last word may say where the output goes. *)
Definition redirect (out : option str) : list str := match out with Some f => [62 :: f] | None => [] end.
Definition out_ok (out : option str) : Prop := match out with Some f => word f | None => True end.

Lemma redirect_words out : out_ok out → Forall word (redirect out).
Proof. destruct out as [f|]; [|constructor]. intros [_ Hf]. repeat constructor; try lia; done. Qed.

Lemma read_command ws av out : Forall word ws → Forall (λ w, head w ≠ 62) ws → out_ok out → (length ws + length (redirect out) < 100)%nat →
  read_args (S (length (line (ws ++ redirect out)))) 1 (line (ws ++ redirect out)) av None = Go (av ++ ws, out).
Proof.
  intros Hw Hh Ho Hl. pose proof (redirect_words out Ho) as Hr. pose proof (line_length _ (proj2 (Forall_app _ _ _) (conj Hw Hr))) as Hn. rewrite length_app in Hn.
  destruct out as [f|]; cbn [redirect length] in *.
  - destruct Ho as [Hf _]. inversion Hr; subst. apply read_args_redirect; (done || lia).
  - rewrite app_nil_r in *. apply read_args_words; (done || lia).
Qed.

Lemma parse_command (literal : bool) (stat : str → option inode) (uid gid : Z) (env : env_s) (w : str) (ws : list str) (out input : option str) :
  Forall word (w :: ws) → head w = 47 → Forall (λ v, head v ≠ 62) ws → out_ok out → input_ok input → (length ws + length (redirect out) < 100)%nat →
  parseargs literal stat uid gid env (encode (command (w :: ws ++ redirect out) input)) = Done (Go (mk_job (w :: ws) w input out env)).
Proof.
  intros Hw Hp Hh Ho Hi Hl. pose proof (redirect_words out Ho) as Hr. inversion Hw as [|? ? Hw0 Hws]; subst.
  assert (Hall : Forall word (w :: ws ++ redirect out)) by (constructor; [done|by apply Forall_app]).
  destruct (command_mangled _ input Hall Hi) as (m & E & H). unfold parseargs. rewrite E. cbn [mbind exec_bind]. rewrite H, strtok_line, read_command by done.
  by rewrite Hp.
Qed.

(** The words of a command line reach the job.  A command line of at
    most a hundred words with a blank between them, of which the first is the path
    of the program and the last may be [>file], and an input whose lines follow it
    with a percent sign before each, is read as these words, this file and this
    input; the environment is that of the runner. *)
Theorem args_roundtrip (literal : bool) (stat : str → option inode) (uid gid : Z) (env : env_s) (w : str) (ws : list str) (out input : option str) :
  Forall word (w :: ws) → head w = 47 → Forall (λ v, head v ≠ 62) ws → out_ok out → input_ok input → (length ws + length (redirect out) < 100)%nat →
  parseargs literal stat uid gid env (encode (command (w :: ws ++ redirect out) input)) = Done (Go (mk_job (w :: ws) w input out env)).
Proof. apply parse_command. Qed.

Lemma args_roundtrip_witness :
  parseargs true (λ _, None) 0 0 [] (encode (bs "/bin/mail -s x >/tmp/out" ++ 10 :: bs "Hello"))
  = Done (Go (mk_job [bs "/bin/mail"; bs "-s"; bs "x"] (bs "/bin/mail") (Some (bs "Hello")) (Some (bs "/tmp/out")) [])).
Proof.
  pose proof (args_roundtrip true (λ _, None) 0 0 [] (bs "/bin/mail") [bs "-s"; bs "x"] (Some (bs "/tmp/out")) (Some (bs "Hello"))) as H.
  change (encode (bs "/bin/mail -s x >/tmp/out" ++ 10 :: bs "Hello")) with (encode (command ([bs "/bin/mail"; bs "-s"; bs "x"] ++ redirect (Some (bs "/tmp/out"))) (Some (bs "Hello")))).
  apply H; clear H; try (vm_compute; lia); try reflexivity.
  - repeat apply Forall_cons_2; try apply Forall_nil_2; (split; [done|]); vm_compute; repeat constructor; lia.
  - vm_compute; repeat constructor; lia.
  - split; [done|]. vm_compute; repeat constructor; lia.
  - split; [|done]. vm_compute; repeat constructor; lia.
Defined.

(** ** Descriptors *)

Lemma close_all_lookup t i : close_all t !! i = if bool_decide (i < 64)%nat then None else t !! i.
Proof.
  unfold close_all. assert (H : ∀ l t, fold_left close l t !! i = if bool_decide (i ∈ l) then None else t !! i).
  { clear t. induction l as [|j l IH]; intros t; [done|]. cbn [fold_left]. rewrite IH. unfold close. destruct (decide (i = j)) as [->|Hij].
    - rewrite lookup_delete_eq, (bool_decide_true (j ∈ j :: l)) by left. by destruct (bool_decide _).
    - rewrite lookup_delete_ne by done. assert (i ∈ j :: l ↔ i ∈ l) as Hiff by (rewrite elem_of_cons; split; [intros [|]; [congruence|done]|by right]). by rewrite (bool_decide_ext _ _ Hiff). }
  rewrite H. replace (bool_decide (i ∈ seq 0 64)) with (bool_decide (i < 64)%nat); [done|].
  apply bool_decide_ext. rewrite elem_of_seq. lia.
Qed.

(** The lowest free descriptor, by the state of those below it. *)
Lemma lowest_is t n : (n < 64)%nat → t !! n = None → (∀ j, (j < n)%nat → is_Some (t !! j)) → lowest t = n.
Proof.
  intros Hn Hf Hb. unfold lowest. assert (E : list_find (λ i, t !! i = None) (seq 0 64) = Some (n, n)).
  { apply list_find_Some. split_and!; [by apply lookup_seq|done|]. intros j y Hj Hlt. apply lookup_seq in Hj as [-> _]. destruct (Hb j) as [o Ho]; [lia|]. cbn. by rewrite Ho. }
  by rewrite E.
Qed.

(** The descriptors of a process among the 64 that the runner deals with. *)
Definition low (t : fds) : fds := filter (λ p, (p.1 < 64)%nat) t.

Definition job_stdin (stdin : option str) : target := match stdin with Some _ => Input_read | None => Null end.
Definition job_stdout (mail : bool) (outfile : option str) (out_ok : bool) : target :=
  if mail then Output_write else match outfile with Some _ => if out_ok then Outfile else Null | None => Null end.

(** The configuration that the comment of [setupfds] describes. *)
Definition configured (mail : bool) (outfile stdin : option str) (out_ok : bool) (t : fds) (i : nat) : option target :=
  if bool_decide (i < 64)%nat then
    match i with
    | 0%nat => Some (job_stdin stdin)
    | 1%nat | 2%nat => Some (job_stdout mail outfile out_ok)
    | 8%nat => if mail then Some Output_read else None
    | 9%nat => match stdin with Some _ => Some Input_write | None => None end
    | _ => None
    end
  else t !! i.

Ltac descriptor :=
  repeat match goal with
  | |- context [<[?k:=_]> _ !! ?k] => rewrite lookup_insert_eq
  | |- context [delete ?k _ !! ?k] => rewrite lookup_delete_eq
  | |- context [<[?k:=_]> _ !! ?j] => rewrite (lookup_insert_ne _ k j) by lia
  | |- context [delete ?k _ !! ?j] => rewrite (lookup_delete_ne _ k j) by lia
  | |- context [close_all _ !! _] => rewrite close_all_lookup
  end.

(** The value of [lowest] on a table with known entries below [n]. *)
Ltac lowest_free n :=
  rewrite (lowest_is _ n); [|lia|descriptor; reflexivity|intros j Hj; repeat (destruct j as [|j]; [descriptor; eexists; reflexivity|]); lia].

Lemma setup_output mail outfile ok t : ∃ t1,
  (∀ stdin, setupfds mail outfile stdin ok true t =
    match stdin with
    | Some _ => let '(r, w, t) := pipe t1 Input_read Input_write in close (dup2 t w PSENDFD) w
    | None => (open_fd t1 Null).2
    end) ∧
  t1 = (if mail then delete 0%nat (<[8%nat:=Output_read]> (<[2%nat:=Output_write]> (<[1%nat:=Output_write]> (<[0%nat:=Output_read]> (close_all t)))))
        else delete 0%nat (<[2%nat:=job_stdout mail outfile ok]> (<[1%nat:=job_stdout mail outfile ok]> (<[0%nat:=job_stdout mail outfile ok]> (close_all t))))).
Proof.
  assert (L : lowest (close_all t) = 0%nat) by (apply lowest_is; [lia|by rewrite close_all_lookup|lia]). eexists. split; [reflexivity|].
  destruct mail; cbn [job_stdout].
  - unfold pipe, open_fd. rewrite L. lowest_free 1%nat. unfold dup2, PLISTENFD, close. by descriptor.
  - destruct outfile as [f|]; [destruct ok|]; unfold open_fd; rewrite L; cbn [fst snd]; unfold dup2, close; by descriptor.
Qed.

Lemma setup_lookup mail outfile stdin ok t i : setupfds mail outfile stdin ok true t !! i = configured mail outfile stdin ok t i.
Proof.
  destruct (setup_output mail outfile ok t) as (t1 & E & Ht). rewrite E. clear E. unfold configured.
  assert (L : lowest t1 = 0%nat) by (rewrite Ht; destruct mail; (apply lowest_is; [lia|by rewrite lookup_delete_eq|lia])).
  unfold pipe, open_fd, dup2, PSENDFD, close. rewrite L. destruct stdin as [s|]; cbn [fst snd job_stdin].
  - assert (L2 : lowest (<[0%nat:=Input_read]> t1) = 3%nat) by (rewrite Ht; destruct mail; lowest_free 3%nat; done).
    rewrite L2. descriptor. rewrite Ht. clear. destruct mail.
    all: do 10 (destruct i as [|i]; [descriptor; reflexivity|]); descriptor; by destruct (bool_decide _).
  - rewrite Ht. clear. destruct mail.
    all: do 10 (destruct i as [|i]; [descriptor; reflexivity|]); descriptor; by destruct (bool_decide _).
Qed.

Lemma low_lookup t i : low t !! i = if bool_decide (i < 64)%nat then t !! i else None.
Proof.
  unfold low. rewrite map_lookup_filter. destruct (t !! i) as [o|]; cbn; [|by destruct (bool_decide _)].
  case_bool_decide; [by rewrite option_guard_True|by rewrite option_guard_False].
Qed.

Lemma configured_listen o s k t : configured true o s k t 8 = Some Output_read.
Proof. done. Qed.

(** Two tables of the low descriptors are equal when ten lookups are. *)
Ltac low_table :=
  unfold job_fds, parent_fds, mail_fds, close, dup2, PLISTENFD, PSENDFD; descriptor; rewrite ?setup_lookup;
  rewrite ?configured_listen;
  rewrite <-?insert_empty; apply map_eq; intros i; rewrite low_lookup;
  do 10 (destruct i as [|i]; [descriptor; rewrite ?setup_lookup; reflexivity|]);
  descriptor; rewrite ?setup_lookup; unfold configured; case_bool_decide; descriptor; rewrite ?lookup_empty; reflexivity.

(** What the runner keeps while the job runs. *)
Definition runner_fds (mail : bool) (stdin : option str) : fds :=
  let t := match stdin with Some _ => {[9%nat := Input_write]} | None => ∅ end in if mail then <[8%nat := Output_read]> t else t.

(** C32 (safety): every process has the descriptors it should have, and no other.
    When the null device can be opened, the job has its input, its output and again
    its output as 0, 1 and 2; the runner has only the source of the output, 8, and
    the end of the input, 9; the mail program has only its input.  So the job is the
    only one that holds the writing end of the output and the reading end of the
    input: the mail program sees the end of the output when the job ends. *)
Theorem fds_configured (mail : bool) (outfile stdin : option str) (ok : bool) (t : fds) :
  let t' := setupfds mail outfile stdin ok true t in
  low (job_fds t') = {[0%nat := job_stdin stdin; 1%nat := job_stdout mail outfile ok; 2%nat := job_stdout mail outfile ok]} ∧
  low (parent_fds t') = runner_fds mail stdin ∧
  low (mail_fds (parent_fds (setupfds true outfile stdin ok true t))) = {[0%nat := Output_read]}.
Proof.
  intros t'. subst t'. split_and!.
  - low_table.
  - unfold runner_fds. destruct mail, stdin; low_table.
  - low_table.
Qed.

(** ** The search path *)

(** A directory in the search path. *)
Definition dir (d : str) : Prop := d ≠ [] ∧ Forall (λ c, ¬ c ∈ [58]) d.

(** The first file of that name in the directories that the user may run. *)
Fixpoint find_program (stat : str → option inode) (uid gid : Z) (ds : list str) (cmd : str) : option str :=
  match ds with
  | [] => None
  | d :: ds' =>
      let q := d ++ [47] ++ cmd in
      if match stat q with Some b => runnable uid gid b | None => false end then Some q else find_program stat uid gid ds' cmd
  end.

Lemma find_program_cons stat uid gid d ds cmd :
  find_program stat uid gid (d :: ds) cmd =
  if match stat (d ++ [47] ++ cmd) with Some b => runnable uid gid b | None => false end then Some (d ++ [47] ++ cmd) else find_program stat uid gid ds cmd.
Proof. done. Qed.

Lemma search_spec stat uid gid cmd fuel : ∀ d ds, Forall dir ds → (length ds < fuel)%nat →
  search_path fuel stat uid gid d (joined 58 ds) cmd = find_program stat uid gid (d :: ds) cmd.
Proof.
  induction fuel as [|fuel IH]; intros d ds Hds Hf; [lia|]. cbn [search_path]. rewrite (find_program_cons _ _ _ d).
  destruct Hds as [|d2 ds [Hn2 Hd2] Hds]; [destruct (stat _) as [b|]; [destruct (runnable _ _ b)|]; done|]. cbn [length] in Hf.
  rewrite strtok_joined, IH by (done || lia || left). destruct (stat _) as [b|]; [destruct (runnable _ _ b)|]; done.
Qed.

Lemma cut_path_joined d ds : dir d → cut_path (joined 58 (d :: ds)) = d.
Proof.
  intros [Hn Hd]. unfold cut_path. destruct ds as [|d2 ds]; cbn [joined].
  - rewrite <-(app_nil_r d) at 2 4. rewrite skip_word, app_nil_r, take_word_end, Nat.sub_diag by done. done.
  - rewrite skip_word, (take_word_sep [58] 58), Nat.sub_diag by (done || left). done.
Qed.

Lemma getenv_stoenv env name val : getenv (stoenv env name val) name = Some val.
Proof.
  assert (Hs : (strcmp name name =? 0) = true) by (by rewrite strcmp_test, bool_decide_true).
  unfold stoenv. induction env as [|[n v] env IH]; cbn [set_value getenv]; [by rewrite Hs|]. destruct (strcmp n name =? 0) eqn:E.
  - cbn [getenv]. by rewrite E.
  - destruct (set_value env name val) as [e|]; cbn [option_map getenv] in *; [by rewrite E|by rewrite Hs].
Qed.

(** A program without a path is looked for in the directories of
    PATH, in their order; the first file of its name is taken that the mode lets the
    user run, and the runner gives up when there is none.  But the search cuts the
    value in place: the PATH of the job has only its first directory. *)
Theorem path_search (stat : str → option inode) (uid gid : Z) (env : env_s) (d : str) (ds : list str) (w : str) (ws : list str) (out input : option str) :
  Forall word (w :: ws) → head w ≠ 47 → Forall (λ v, head v ≠ 62) ws → out_ok out → input_ok input → (length ws + length (redirect out) < 100)%nat →
  getenv env (bs "PATH") = Some (joined 58 (d :: ds)) → Forall dir (d :: ds) →
  ∃ env', getenv env' (bs "PATH") = Some d ∧
    parseargs false stat uid gid env (encode (command (w :: ws ++ redirect out) input)) =
      Done (match find_program stat uid gid (d :: ds) w with Some path => Go (mk_job (w :: ws) path input out env') | None => Exit end).
Proof.
  intros Hw Hp Hh Ho Hi Hl He Hds. exists (stoenv env (bs "PATH") d). split; [apply getenv_stoenv|].
  pose proof (redirect_words out Ho) as Hr. inversion Hw as [|? ? Hw0 Hws]; subst. inversion Hds as [|? ? Hd0 Hds']; subst.
  assert (Hall : Forall word (w :: ws ++ redirect out)) by (constructor; [done|by apply Forall_app]).
  destruct (command_mangled _ input Hall Hi) as (m & E & H). unfold parseargs. rewrite E. cbn [mbind exec_bind]. rewrite H, strtok_line, read_command by done.
  rewrite (proj2 (Z.eqb_neq _ _)) by done. rewrite He, strtok_joined by (first [left|apply Hd0]).
  assert (Hn : (length ds <= length (joined 58 ds))%nat) by (apply joined_length, (Forall_impl _ _ _ Hds'); by intros x [? _]).
  rewrite search_spec, cut_path_joined by (done || lia). by destruct (find_program _ _ _ _ _).
Qed.

Lemma path_search_witness :
  ∃ env', getenv env' (bs "PATH") = Some (bs "/bin") ∧
    parseargs false (λ q, if bool_decide (q = bs "/usr/bin/ls") then Some (mk_inode 0 0 true true true) else None) 5 5
      [(bs "PATH", bs "/bin:/usr/bin")] (bs "ls -l") =
    Done (Go (mk_job [bs "ls"; bs "-l"] (bs "/usr/bin/ls") None None env')).
Proof.
  pose proof (path_search (λ q, if bool_decide (q = bs "/usr/bin/ls") then Some (mk_inode 0 0 true true true) else None) 5 5
    [(bs "PATH", bs "/bin:/usr/bin")] (bs "/bin") [bs "/usr/bin"] (bs "ls") [bs "-l"] None None) as H.
  apply H; clear H; try (vm_compute; lia); try reflexivity; try done.
  - repeat apply Forall_cons_2; try apply Forall_nil_2; (split; [done|]); vm_compute; repeat constructor; lia.
  - vm_compute; repeat constructor; lia.
  - repeat apply Forall_cons_2; try apply Forall_nil_2; (split; [done|]); apply (bool_decide_unpack _); vm_compute; done.
Defined.

(** ** The input of the job *)

(** Enough writes: the loop waits at most as often as there are bytes when no write
    is empty. *)
Lemma send_loop_all ws : ∀ s sent, Forall (λ w, 0 < w) ws → (length s <= length ws)%nat → send_loop ws s sent = Some (sent ++ s).
Proof.
  induction ws as [|w ws IH]; intros s sent Hw Hl; destruct s as [|c s]; cbn [length] in Hl; try lia; cbn [send_loop]; [by rewrite app_nil_r|by rewrite app_nil_r|].
  inversion Hw; subst. rewrite (proj2 (Z.ltb_ge w 0)) by lia. unfold strlen. set (n := Z.to_nat _).
  assert (Hn : (1 <= n <= S (length s))%nat) by (unfold n; cbn [length]; lia).
  rewrite IH; [|done|rewrite length_drop; cbn [length]; lia]. by rewrite <-app_assoc, take_drop.
Qed.

(** The input reaches the job whole.  When every write takes at
    least a byte, as many writes as the text has bytes are enough, however much each
    of them takes; the job reads the text, and it ends with the end of a line. *)
Theorem stdin_sent (ws : list Z) (s : str) :
  Forall (λ w, 0 < w) ws → (length s <= length ws)%nat →
  sendstdin ws true (Some s) = Some (Some (if List.last s 0 =? 10 then s else s ++ [10])).
Proof.
  intros Hw Hl. unfold sendstdin. rewrite (send_loop_all ws s []) by done. cbn [mbind option_bind app]. destruct (List.last s 0 =? 10); cbn [negb andb]; [by rewrite app_nil_r|done].
Qed.

Lemma stdin_sent_witness : sendstdin [2; 9; 1; 1; 1] true (Some (bs "Hello")) = Some (Some (bs "Hello" ++ [10])).
Proof. apply (stdin_sent [2; 9; 1; 1; 1] (bs "Hello")); [repeat constructor|vm_compute; lia]. Defined.
