(* ===== verification/CronMain.v ===== *)
(** * The cron daemon's main loop

    [main] of [src/sysapps/apps/cron/cron.c]: the daemon creates the crontab and
    sets the flag for daylight saving time; then, every minute, it moves the clock
    if the flag is to change, reads the crontab if it has changed, starts the jobs
    that are due, and sleeps to the next minute.  A job is the same program under
    the name [cron-parent], the runner.

    What the daemon meets in a turn is a [minute]: the configuration, the crontab,
    how long the turn has taken at each call of [time] in the loop that finds the
    next minute, and what the calls of [sleep] return, the seconds left.  Times are
    signed numbers of 32 bits and wrap around. *)

From S2P Require Import Prelude Clock Dst Cron CronTheorems Runner RunnerTheorems.

Local Open Scope Z_scope.
Local Abbreviation str := (list Z).

(** ** Waiting *)

(** The first of the minutes behind [target] that is still to come: the delay, and
    the time at which it was computed.  Out of times the loop goes on. *)
Fixpoint delay_loop (times : list Z) (target : Z) : option (Z * Z) :=
  match times with
  | [] => None
  | t :: times' => let delay := s32 (target - t) in if 0 <? delay then Some (delay, t) else delay_loop times' (s32 (target + 60))
  end.

(** [while (delay > 0) delay = sleep (delay)]: the seconds that have passed. *)
Fixpoint sleep_loop (rs : list Z) (delay elapsed : Z) : option Z :=
  if 0 <? delay then
    match rs with [] => None | r :: rs' => sleep_loop rs' r (elapsed + (delay - r)) end
  else Some elapsed.

(** ** A turn *)

Record minute : Type := mk_minute { w_fmt : time_fmt; w_stat : file_stat; w_file : list Z; w_work : list Z; w_sleeps : list Z }.

Record daemon : Type := mk_daemon { d_clock : clock; d_cron : state }.

Definition set_now (c : clock) (t : Z) : clock := mk_clock t (summer c) (dst_log c) (rtc c).

Section daemon.
Variable getpwuid : Z → option str.
Variable getpwnam : str → option (str * Z).
Variable BUFSIZ : nat.
Variable below : Z.

(** The jobs that are started and the daemon at its next turn; [None] when it does
    not get there. *)
Definition cron_turn (w : minute) (d : daemon) : exec (option (list cent_s * daemon)) :=
  let t := now (d_clock d) in
  c ← dst_step (w_fmt w) (d_clock d);
  let tm := localtime t in
  let target := s32 (t + 60 - tm_sec tm) in
  '(_, st) ← load_file getpwuid getpwnam BUFSIZ below (d_cron d) (w_stat w) (w_file w);
  jobs ← check_runs tm (tasklist st);
  Done ('(delay, t1) ← delay_loop (map (λ x, s32 (now c + x)) (w_work w)) target;
        e ← sleep_loop (w_sleeps w) delay 0;
        Some (jobs, mk_daemon (set_now c (s32 (t1 + e))) st)).

(** The turns: the time of each and the jobs it starts. *)
Fixpoint cron_turns (ws : list minute) (d : daemon) : exec (option (list (Z * list cent_s) * daemon)) :=
  match ws with
  | [] => Done (Some ([], d))
  | w :: ws' =>
      r ← cron_turn w d;
      match r with
      | None => Done None
      | Some (jobs, d1) =>
          r ← cron_turns ws' d1;
          Done (match r with Some (l, d2) => Some ((now (d_clock d), jobs) :: l, d2) | None => None end)
      end
  end.

(** [main], under its own name. *)
Definition cron_main (fmt : time_fmt) (c : clock) (ws : list minute) : exec (option (list (Z * list cent_s) * daemon)) :=
  c ← dst_start fmt c;
  cron_turns ws (mk_daemon c (mk_state [] [] 0 [])).
End daemon.

(** ** Starting a job *)




(** ** The fields of the time *)

Lemma localtime_ok t : 0 <= t < 2 ^ 31 → tm_ok (localtime t).
Proof.
  intros Ht. destruct (time_of t Ht) as (y & d & h & m & s & Hv & ->). destruct (localtime_moment _ _ _ _ _ Hv) as (E1 & E2 & E3 & E4 & _).
  rewrite (localtime_in_time _ _ _ _ _ Hv) in *. destruct Hv as [(Hy & Hd & Hh & Hm & _) _]. unfold tm_ok. rewrite E3, E4. revert E1 E2. unfold calendar.
  destruct (year_of _) as [y' d'] eqn:Ey. destruct (find_month (month_days y') 0 d') as [mon mday] eqn:Em. cbn [tm_year tm_yday tm_mon tm_mday tm_wday]. intros Ey' ->.
  assert (y' = y) as -> by lia.
  assert (Hs : fold_left Z.add (month_days y) 0 = year_days y) by (unfold month_days, year_days; destruct (leap y); done).
  destruct (find_month_day (month_days y) 0 d) as [H1 H2]; [unfold month_days; destruct (leap y); repeat constructor; lia|lia|].
  rewrite Em in H1, H2. cbn [fst snd length month_days] in H1, H2. split_and!; try lia; apply Z.mod_pos_bound; lia.
Qed.

Lemma tm_sec_localtime t : 0 <= t < 2 ^ 31 → tm_sec (localtime t) = t mod 60.
Proof. intros Ht. unfold localtime. rewrite s32_id by lia. unfold calendar. destruct (year_of _) as [y d]. destruct (find_month _ _ _) as [a b]. cbn [tm_sec]. clear. zdm. Qed.

(** ** The bits of a job *)

(** Whether a job is due, by its bits. *)
Definition due_at (now : tm) (job : cent_s) : bool :=
  bit_at (minutes job) (tm_min now) && bit_at (hours job) (tm_hour now) && bit_at (months job) (tm_mon now + 1) &&
  bit_at (dom job) (tm_mday now) && bit_at (dow job) (tm_wday now).

Lemma field_in f b i : field_bits f b → 0 <= i < nbits_of f → bit_test b i = Done (bit_at b i).
Proof.
  intros [L _] Hi. apply bit_test_done. unfold in_bits. rewrite L. pose proof (size_of_field f) as Hs. rewrite length_replicate in Hs. lia.
Qed.

Lemma due_total now job : tm_ok now → job_wf job → due now job = Done (due_at now job).
Proof.
  intros (H1 & H2 & H3 & H4 & H5) (W1 & W2 & W3 & W4 & W5). unfold due, due_at.
  rewrite (field_in FMin (minutes job)) by (done || (cbn [nbits_of]; lia)). cbn [mbind exec_bind]. destruct (bit_at (minutes job) _); cbn [andb mbind exec_bind]; [|done].
  rewrite (field_in FHour (hours job)) by (done || (cbn [nbits_of]; lia)). destruct (bit_at (hours job) _); cbn [andb mbind exec_bind]; [|done].
  rewrite (field_in FMon (months job)) by (done || (cbn [nbits_of]; lia)). destruct (bit_at (months job) _); cbn [andb mbind exec_bind]; [|done].
  rewrite (field_in FDom (dom job)) by (done || (cbn [nbits_of]; lia)). destruct (bit_at (dom job) _); cbn [andb mbind exec_bind]; [|done].
  by rewrite (field_in FDow (dow job)) by (done || (cbn [nbits_of]; lia)).
Qed.

(** The jobs of a list that are due. *)
Definition due_jobs (t : Z) (jobs : list cent_s) : list cent_s := filter (λ j, due_at (localtime t) j = true) jobs.

Lemma check_runs_wf t jobs : 0 <= t < 2 ^ 31 → Forall job_wf jobs → check_runs (localtime t) jobs = Done (due_jobs t jobs).
Proof.
  intros Ht Hj. apply runs_due_jobs. intros job Hin. apply due_total; [by apply localtime_ok|]. by apply (proj1 (Forall_forall _ _) Hj).
Qed.

(** ** Waiting *)

Lemma delay_loop_minute times lo hi : - 2 ^ 31 <= lo → hi + 120 < 2 ^ 31 → hi - lo + 60 < 2 ^ 31 → Forall (λ x, lo <= x <= hi) times →
  ∀ target delay t, lo <= target <= hi + 60 → delay_loop times target = Some (delay, t) →
  0 < delay ∧ t + delay <= hi + 60 ∧ lo <= t ∧ ∃ k, 0 <= k ∧ t + delay = target + 60 * k.
Proof.
  intros Hlo Hhi Hd. induction 1 as [|x times Hx Hts IH]; intros target delay t Ht; [done|]. cbn [delay_loop]. cbv zeta.
  rewrite s32_id by lia. destruct (Z.ltb_spec 0 (target - x)).
  - intros [= <- <-]. split_and!; [lia..|]. exists 0. lia.
  - rewrite s32_id by lia. intros (H1 & H2 & H3 & k & Hk & E)%IH; [|lia]. split_and!; [lia..|]. exists (k + 1). lia.
Qed.

Lemma delay_loop_skip n : ∀ times lo, (n < length times)%nat → 0 <= lo + 60 - 60 * Z.of_nat n → lo + 60 < 2 ^ 31 → Forall (λ t, lo <= t < lo + 60) times →
  ∃ t, lo <= t < lo + 60 ∧ delay_loop times (lo + 60 - 60 * Z.of_nat n) = Some (lo + 60 - t, t).
Proof.
  induction n as [|n IH]; intros times lo Hl Hn Hlo Ht; destruct Ht as [|t times Ht Hts]; cbn [length] in Hl; try lia; cbn [delay_loop]; cbv zeta.
  - exists t. split; [done|]. replace (lo + 60 - 60 * Z.of_nat 0) with (lo + 60) by lia. rewrite s32_id by lia. by rewrite (proj2 (Z.ltb_lt _ _)) by lia.
  - rewrite !s32_id by lia. rewrite (proj2 (Z.ltb_ge _ _)) by lia. replace (lo + 60 - 60 * Z.of_nat (S n) + 60) with (lo + 60 - 60 * Z.of_nat n) by lia. apply IH; (lia || done).
Qed.

(** The calls of [sleep] return what is left, and one of them is not interrupted. *)
Definition sleeps_ok (rs : list Z) : Prop := Forall (λ r, 0 <= r) rs ∧ 0 ∈ rs.

Lemma sleep_loop_ends rs : ∀ delay e, sleeps_ok rs → 0 <= delay → sleep_loop rs delay e = Some (e + delay).
Proof.
  induction rs as [|r rs IH]; intros delay e [Hr H0] Hd; [by apply not_elem_of_nil in H0|]. cbn [sleep_loop]. destruct (Z.ltb_spec 0 delay); [|f_equal; lia].
  inversion Hr; subst. apply elem_of_cons in H0. destruct (decide (r = 0)) as [->|Hn].
  - destruct rs; cbn [sleep_loop]; change (0 <? 0) with false; cbv iota; f_equal; lia.
  - rewrite IH; [f_equal; lia|split; [done|destruct H0; [congruence|done]]|done].
Qed.

Lemma sleep_loop_sum rs : ∀ delay e x, sleep_loop rs delay e = Some x → Forall (λ r, 0 <= r) rs → 0 <= delay → x = e + delay.
Proof.
  induction rs as [|r rs IH]; intros delay e x; cbn [sleep_loop]; destruct (Z.ltb_spec 0 delay); intros E Hr Hd; try (injection E as <-; lia); [done|].
  inversion Hr; subst. apply IH in E; [lia|done|done].
Qed.

(** ** Turns *)

(** A time zone that the table has. *)
Definition fmt_ok (fmt : time_fmt) : Prop := 0 <= t_index fmt < Z.of_nat (length TimeZone).

(** A step leaves the time or moves it by an hour. *)
Lemma dst_step_total fmt c : fmt_ok fmt → 0 <= now c < 2 ^ 31 - 3600 → ∃ c', dst_step fmt c = Done c' ∧ now c - 3600 <= now c' <= now c + 3600.
Proof.
  intros Hf Ht. unfold dst_step. destruct (d_sav fmt); cbn [negb]; [|exists c; split; [done|lia]]. unfold daylight_saving. rewrite (proj2 (Z.ltb_ge _ _)) by (unfold fmt_ok in Hf; lia).
  destruct (TimeZone !! Z.to_nat (t_index fmt)) as [r|] eqn:E; [|apply lookup_ge_None in E; unfold fmt_ok in Hf; lia]. cbn [mbind exec_bind].
  destruct (time_of (now c) ltac:(lia)) as (y & d & h & m & s & Hv & Et).
  repeat case_match; (eexists; split; [done|]); try lia; unfold shift; cbn [now]; rewrite Et, (mktime_localtime _ _ _ _ _ Hv), <-Et, s32_id by lia; lia.
Qed.

(** A turn that ends well before the last moment of a [time_t]: its times do not wrap
    around. *)
Definition in_reach (t : Z) (w : minute) : Prop := 0 <= t < 2 ^ 31 - 8000 ∧ Forall (λ e, 0 <= e < 2 ^ 31 - 8000 - t) (w_work w).

(** The crontab has not changed since it was read. *)
Lemma load_same getpwuid getpwnam BUFSIZ below st fst file : st_mtime fst = file_mtime st →
  ∃ ok, load_file getpwuid getpwnam BUFSIZ below st fst file = Done (ok, st).
Proof. intros E. unfold load_file. rewrite E, Z.eqb_refl. repeat case_match; by eexists. Qed.

Section turns.
Variable getpwuid : Z → option str.
Variable getpwnam : str → option (str * Z).
Variable BUFSIZ : nat.
Variable below : Z.

Lemma turn_wf (w : minute) (d : daemon) :
  (1 < BUFSIZ)%nat → isspace below = false → fmt_ok (w_fmt w) → in_reach (now (d_clock d)) w → Forall (λ r, 0 <= r) (w_sleeps w) →
  Forall job_wf (tasklist (d_cron d)) →
  ∃ r, cron_turn getpwuid getpwnam BUFSIZ below w d = Done r ∧
    ∀ jobs d', r = Some (jobs, d') →
      Forall job_wf (tasklist (d_cron d')) ∧ jobs = due_jobs (now (d_clock d)) (tasklist (d_cron d')) ∧ now (d_clock d') mod 60 = 0.
Proof.
  intros HB Hb Hf [Ht Hw] Hs Hj. unfold cron_turn. destruct (dst_step_total (w_fmt w) (d_clock d) Hf ltac:(lia)) as (c & -> & Hc). cbn [mbind exec_bind].
  destruct (load_file_wf getpwuid getpwnam BUFSIZ below (d_cron d) (w_stat w) (w_file w) HB Hb) as (ok & st & -> & Hwf). cbn [mbind exec_bind]. specialize (Hwf Hj).
  rewrite check_runs_wf by (done || lia). cbn [mbind exec_bind]. eexists. split; [reflexivity|]. intros jobs d'. rewrite tm_sec_localtime by lia.
  set (t := now (d_clock d)) in *. pose proof (Z.mod_pos_bound t 60 ltac:(lia)). rewrite s32_id by lia.
  destruct (delay_loop _ _) as [[delay t1]|] eqn:Ed; [|done].
  apply (delay_loop_minute _ (t - 3600) (2 ^ 31 - 4000)) in Ed as (Hd & Hh & Hl & k & _ & E); [|lia|lia|lia| |lia].
  2: { apply Forall_map, (Forall_impl _ _ _ Hw). cbn. intros e He. rewrite s32_id by lia. lia. }
  cbn [mbind option_bind]. destruct (sleep_loop _ _ _) as [e|] eqn:Es; [|done]. apply sleep_loop_sum in Es; [|done|lia]. intros [= <- <-]. cbn [d_cron d_clock set_now now].
  split_and!; [done|done|]. rewrite s32_id by lia. replace (t1 + e) with (t / 60 * 60 + (k + 1) * 60); [|pose proof (Z.div_mod t 60); lia].
  rewrite <-Z.mul_add_distr_r. apply Z_mod_mult.
Qed.

(** A turn that meets nothing unusual: no daylight saving time, the crontab as it
    was, and work for less than a minute. *)
Definition quiet (st : state) (w : minute) : Prop :=
  d_sav (w_fmt w) = false ∧ st_mtime (w_stat w) = file_mtime st ∧ (∃ e es, w_work w = e :: es ∧ 0 <= e < 60) ∧ sleeps_ok (w_sleeps w).

Lemma quiet_turn w c st : quiet st w → now c mod 60 = 0 → 0 <= now c < 2 ^ 31 - 60 → Forall job_wf (tasklist st) →
  cron_turn getpwuid getpwnam BUFSIZ below w (mk_daemon c st) = Done (Some (due_jobs (now c) (tasklist st), mk_daemon (set_now c (now c + 60)) st)).
Proof.
  intros (Hd & Hm & (e & es & Hw & He) & Hs) H0 Ht Hj. unfold cron_turn. cbn [d_clock d_cron]. unfold dst_step. rewrite Hd. cbn [negb mbind exec_bind].
  destruct (load_same getpwuid getpwnam BUFSIZ below st (w_stat w) (w_file w) Hm) as [ok ->]. cbn [mbind exec_bind]. rewrite check_runs_wf, tm_sec_localtime, H0 by (done || lia).
  cbn [mbind exec_bind]. rewrite Hw. cbn [map delay_loop]. cbv zeta. rewrite (s32_id (now c + 60 - 0)), (s32_id (now c + e)) by lia. rewrite s32_id by lia. rewrite (proj2 (Z.ltb_lt _ _)) by lia. cbn [mbind option_bind]. rewrite sleep_loop_ends by (done || lia).
  cbn [mbind option_bind]. rewrite s32_id by lia. do 5 f_equal. lia.
Qed.

Lemma quiet_turns ws : ∀ c st, Forall (quiet st) ws → now c mod 60 = 0 → 0 <= now c → now c + 60 * Z.of_nat (length ws) < 2 ^ 31 →
  Forall job_wf (tasklist st) →
  cron_turns getpwuid getpwnam BUFSIZ below ws (mk_daemon c st) =
    Done (Some (imap (λ k _, (now c + 60 * Z.of_nat k, due_jobs (now c + 60 * Z.of_nat k) (tasklist st))) ws,
                mk_daemon (set_now c (now c + 60 * Z.of_nat (length ws))) st)).
Proof.
  induction ws as [|w ws IH]; intros c st Hq H0 Hc Hl Hj; cbn [cron_turns].
  - destruct c as [n f l r]. unfold set_now. cbn [now summer dst_log rtc length imap]. do 5 f_equal. lia.
  - inversion Hq; subst. cbn [length] in Hl. rewrite quiet_turn by (done || lia). cbn [mbind exec_bind]. cbn [d_clock].
    rewrite IH; [|done|cbn [now set_now]; rewrite Z.add_mod, H0 by lia; done|cbn [now set_now]; lia|cbn [now set_now]; lia|done].
    cbn [mbind exec_bind now set_now imap length]. do 3 f_equal; [|unfold set_now; cbn [summer dst_log rtc]; do 2 f_equal; lia].
    f_equal; [by rewrite Z.mul_0_r, Z.add_0_r|]. apply imap_ext. intros i x _. cbn. replace (now c + 60 + 60 * Z.of_nat i) with (now c + 60 * Z.of_nat (S i)) by lia. done.
Qed.
End turns.

(** C25 (type): a turn of the daemon keeps its jobs in order.  If the byte below the
    line buffer is no white space (else a blank line is a fault,
    [blank_line_underflow]), the time zone is one of the table and the turn ends more
    than two hours and a quarter before the last moment of a [time_t], then, whatever
    the crontab holds, the turn makes no access outside its buffers; every job it has
    then has five bit strings of the right size, the jobs it starts are those of the
    list that are due at the time the turn began, and the next turn begins on a whole
    minute. *)
Theorem turn_keeps_jobs (getpwuid : Z → option str) (getpwnam : str → option (str * Z)) (BUFSIZ : nat) (below : Z) (w : minute) (d : daemon) :
  (1 < BUFSIZ)%nat → isspace below = false → fmt_ok (w_fmt w) → in_reach (now (d_clock d)) w → Forall (λ r, 0 <= r) (w_sleeps w) →
  Forall job_wf (tasklist (d_cron d)) →
  ∃ r, cron_turn getpwuid getpwnam BUFSIZ below w d = Done r ∧
    ∀ jobs d', r = Some (jobs, d') →
      Forall job_wf (tasklist (d_cron d')) ∧ jobs = due_jobs (now (d_clock d)) (tasklist (d_cron d')) ∧ now (d_clock d') mod 60 = 0.
Proof. apply turn_wf. Qed.

Definition a_minute (work sleeps : list Z) : minute := mk_minute pacific good_stat create_file work sleeps.

Lemma turn_keeps_jobs_witness :
  ∃ r, cron_turn (λ _, None) (λ _, None) 4096 0 (a_minute [2] [5; 0]) (mk_daemon (mk_clock (moment 2008 200 8 30 7) (Some 1) [] None) no_jobs) = Done r ∧
    ∀ jobs d', r = Some (jobs, d') → now (d_clock d') mod 60 = 0.
Proof.
  destruct (turn_keeps_jobs (λ _, None) (λ _, None) 4096 0 (a_minute [2] [5; 0]) (mk_daemon (mk_clock (moment 2008 200 8 30 7) (Some 1) [] None) no_jobs)) as (r & E & H).
  - lia.
  - reflexivity.
  - unfold fmt_ok. vm_compute. split; [discriminate|reflexivity].
  - change (now _) with 1216456207. split; [lia|]. repeat constructor; lia.
  - repeat constructor; lia.
  - constructor.
  - exists r. split; [exact E|]. intros jobs d' Hr. apply (H jobs d' Hr).
Defined.

(** C17 (liveness): in quiet turns no minute is missed and none is served twice.  From
    a whole minute on, in any number of turns in which daylight saving time is not
    configured, the crontab does not change and the work takes less than a minute, and
    up to the last minute of a [time_t], the daemon makes its turns a minute apart,
    however often its sleep is interrupted; in each it starts the jobs that are due in
    that minute, all of them and no other.  (When daylight saving time begins a minute
    is lost, [spring_minute_lost].) *)
Theorem every_minute (getpwuid : Z → option str) (getpwnam : str → option (str * Z)) (BUFSIZ : nat) (below : Z) (ws : list minute) (c : clock) (st : state) :
  Forall (quiet st) ws → now c mod 60 = 0 → 0 <= now c → now c + 60 * Z.of_nat (length ws) < 2 ^ 31 → Forall job_wf (tasklist st) →
  cron_turns getpwuid getpwnam BUFSIZ below ws (mk_daemon c st) =
    Done (Some (imap (λ k _, (now c + 60 * Z.of_nat k, due_jobs (now c + 60 * Z.of_nat k) (tasklist st))) ws,
                mk_daemon (set_now c (now c + 60 * Z.of_nat (length ws))) st)).
Proof. apply quiet_turns. Qed.

Definition hourly : cent_s := mk_cent (bs "root") (bs "/bin/snap") [] 0 [1; 0; 0; 0; 0; 0; 0; 0] [255; 255; 255] [255; 255; 255; 255] [255; 255] [255].

Lemma every_minute_witness :
  ∃ d, cron_turns (λ _, None) (λ _, None) 4096 0 (replicate 3 (mk_minute (mk_fmt false 0) good_stat [] [59] [30; 2; 0]))
    (mk_daemon (mk_clock (moment 2008 200 8 59 0) (Some 0) [] None) (mk_state [hourly] [] 5 [])) =
    Done (Some ([(moment 2008 200 8 59 0, []); (moment 2008 200 9 0 0, [hourly]); (moment 2008 200 9 1 0, [])], d)).
Proof.
  eexists. etrans; [apply every_minute|].
  - repeat constructor; try reflexivity; try (exists 59, []; split; [reflexivity|lia]); cbn; lia || set_solver.
  - reflexivity.
  - vm_compute. discriminate.
  - vm_compute. reflexivity.
  - repeat constructor; unfold is_byte; lia.
  - vm_compute. reflexivity.
Defined.

(** ** Daylight saving time *)

Section change.
Variable getpwuid : Z → option str.
Variable getpwnam : str → option (str * Z).
Variable BUFSIZ : nat.
Variable below : Z.

(** A turn at the beginning of a minute, with the crontab as it was, for which the
    loop of the delay finds the minute at [wake]. *)
Lemma turn_at w c c1 st delay t1 :
  dst_step (w_fmt w) c = Done c1 → st_mtime (w_stat w) = file_mtime st → sleeps_ok (w_sleeps w) →
  now c mod 60 = 0 → 0 <= now c < 2 ^ 31 - 60 → Forall job_wf (tasklist st) → 0 <= delay →
  delay_loop (map (λ x, s32 (now c1 + x)) (w_work w)) (now c + 60) = Some (delay, t1) →
  cron_turn getpwuid getpwnam BUFSIZ below w (mk_daemon c st) = Done (Some (due_jobs (now c) (tasklist st), mk_daemon (set_now c1 (s32 (t1 + delay))) st)).
Proof.
  intros Hc Hm Hs H0 Ht Hj Hd El. unfold cron_turn. cbn [d_clock d_cron]. rewrite Hc. cbn [mbind exec_bind].
  destruct (load_same getpwuid getpwnam BUFSIZ below st (w_stat w) (w_file w) Hm) as [ok ->]. cbn [mbind exec_bind].
  rewrite check_runs_wf, tm_sec_localtime, H0, Z.sub_0_r, s32_id by (done || lia). cbn [mbind exec_bind]. rewrite El. cbn [mbind option_bind]. by rewrite sleep_loop_ends.
Qed.
End change.

Lemma moment_minute y d h m : moment y d h m 0 mod 60 = 0.
Proof. unfold moment. replace ((new_year y + d) * 86400 + h * 3600 + m * 60 + 0) with (((new_year y + d) * 1440 + h * 60 + m) * 60) by lia. apply Z_mod_mult. Qed.

(** The end of daylight saving time settles.  In the turn that finds
    it, on the hour, the clock is set back by an hour and the daemon sleeps for more
    than that hour, to a minute behind the hour of the clock; the next turn leaves
    the clock alone.  So the jobs of the hour that comes twice are started only
    once. *)
Theorem autumn_settles (getpwuid : Z → option str) (getpwnam : str → option (str * Z)) (BUFSIZ : nat) (below : Z)
    (w : minute) (r : region) (y d h e : Z) (es lg : list Z) (rt : option (list Z)) (st : state) :
  d_sav (w_fmt w) = true → 0 <= t_index (w_fmt w) → TimeZone !! Z.to_nat (t_index (w_fmt w)) = Some r → in_time y d h 1 0 →
  save_flag r y d h = false → w_work w = e :: es → 0 <= e < 3660 → sleeps_ok (w_sleeps w) →
  st_mtime (w_stat w) = file_mtime st → Forall job_wf (tasklist st) →
  ∃ c, cron_turn getpwuid getpwnam BUFSIZ below w (mk_daemon (mk_clock (moment y d h 0 0) (Some 1) lg rt) st)
      = Done (Some (due_jobs (moment y d h 0 0) (tasklist st), mk_daemon c st)) ∧
    now c = moment y d h 1 0 ∧ summer c = Some 0 ∧ dst_log c = lg ++ [DST_CHG_LEAVE] ∧ dst_step (w_fmt w) c = Done c.
Proof.
  intros Hd Hz Hr Hv1 Hf Hw He Hs Hm Hj. pose proof Hv1 as [(V1 & V2 & V3 & _) Hlt].
  assert (Hv : in_time y d h 0 0) by (unfold in_time, valid, moment in *; lia). pose proof (valid_nonneg _ _ _ _ _ (proj1 Hv)) as H0.
  set (t := moment y d h 0 0) in *. assert (Et : moment y d h 1 0 = t + 60) by (unfold t, moment; lia).
  pose (c1 := mk_clock (t + -3600) (Some 0) (lg ++ [DST_CHG_LEAVE]) (Some (set_rtc (t + -3600)))).
  assert (E : dst_step (w_fmt w) (mk_clock t (Some 1) lg rt) = Done c1).
  { change (Some 1) with (Some (b2z true)). unfold t. rewrite (step_at _ r), Hf by done. fold t. cbv zeta. by rewrite s32_id by lia. }
  exists (set_now c1 (moment y d h 1 0)). split_and!; [|done|done|done|].
  - rewrite (turn_at _ _ _ _ w _ c1 st (3660 - e) (t - 3600 + e)); [do 5 f_equal; rewrite s32_id by lia; lia|done|done|done| | |done|lia|].
    + apply moment_minute.
    + cbn [now]. lia.
    + rewrite Hw. cbn [map delay_loop now c1]. cbv zeta. rewrite (s32_id (t + -3600 + e)) by lia. rewrite s32_id by lia. rewrite (proj2 (Z.ltb_lt _ _)) by lia. do 2 f_equal; lia.
  - unfold set_now. cbn [summer dst_log rtc c1]. change (Some 0) with (Some (b2z false)). rewrite (step_at _ r) by done. by rewrite Hf.
Qed.

Lemma autumn_settles_witness :
  ∃ c, cron_turn (λ _, None) (λ _, None) 4096 0 (a_minute [2] [0]) (mk_daemon (mk_clock (moment 2008 306 2 0 0) (Some 1) [] None) (mk_state [] [] 5 []))
      = Done (Some ([], mk_daemon c (mk_state [] [] 5 []))) ∧ now c = moment 2008 306 2 1 0 ∧ summer c = Some 0.
Proof.
  destruct (autumn_settles (λ _, None) (λ _, None) 4096 0 (a_minute [2] [0]) NA_DST 2008 306 2 2 [] [] None (mk_state [] [] 5 [])) as (c & E & Hn & Hs & _).
  all: try reflexivity; try lia; try (solve_time).
  - vm_compute. discriminate.
  - split; [repeat constructor; lia|left].
  - constructor.
  - exists c. split; [exact E|]. split; [exact Hn|exact Hs].
Defined.

(** At the beginning of daylight saving time a minute is lost.  In the
    turn that finds it the clock is set forward by an hour, but the jobs are chosen
    by the time before, and the daemon wakes a minute behind the new hour: the jobs
    of the first minute of the new hour are not started. *)
Theorem spring_minute_lost (getpwuid : Z → option str) (getpwnam : str → option (str * Z)) (BUFSIZ : nat) (below : Z)
    (w : minute) (r : region) (y d h : Z) (lg : list Z) (rt : option (list Z)) (st : state) :
  d_sav (w_fmt w) = true → 0 <= t_index (w_fmt w) → TimeZone !! Z.to_nat (t_index (w_fmt w)) = Some r → in_time y d h 0 0 → moment y d (h + 1) 1 0 < 2 ^ 31 →
  save_flag r y d h = true → (60 < length (w_work w))%nat → Forall (λ e, 0 <= e < 60) (w_work w) → sleeps_ok (w_sleeps w) →
  st_mtime (w_stat w) = file_mtime st → Forall job_wf (tasklist st) →
  ∃ c, cron_turn getpwuid getpwnam BUFSIZ below w (mk_daemon (mk_clock (moment y d h 0 0) (Some 0) lg rt) st)
      = Done (Some (due_jobs (moment y d h 0 0) (tasklist st), mk_daemon c st)) ∧
    now c = moment y d (h + 1) 1 0 ∧ summer c = Some 1.
Proof.
  intros Hd Hz Hr Hv Hlt Hf Hl Hw Hs Hm Hj. pose proof (valid_nonneg _ _ _ _ _ (proj1 Hv)) as H0.
  set (t := moment y d h 0 0) in *. assert (Et : moment y d (h + 1) 1 0 = t + 3660) by (unfold t, moment; lia).
  pose (c1 := mk_clock (t + 3600) (Some 1) (lg ++ [DST_CHG_ENTER]) (Some (set_rtc (t + 3600)))).
  assert (E : dst_step (w_fmt w) (mk_clock t (Some 0) lg rt) = Done c1).
  { change (Some 0) with (Some (b2z false)). unfold t. rewrite (step_at _ r), Hf by done. fold t. cbv zeta. by rewrite s32_id by lia. }
  exists (set_now c1 (moment y d (h + 1) 1 0)). split_and!; [|done|done].
  destruct (delay_loop_skip 60 (map (λ x, s32 (t + 3600 + x)) (w_work w)) (t + 3600)) as (t1 & Ht1 & Ed); [|lia|lia| |].
  { by rewrite length_map. } { apply Forall_map, (Forall_impl _ _ _ Hw). cbn. intros. rewrite s32_id by lia. lia. }
  rewrite (turn_at _ _ _ _ w _ c1 st (t + 3660 - t1) t1); [do 5 f_equal; rewrite s32_id by lia; lia|done|done|done| | |done|lia|].
  - apply moment_minute.
  - cbn [now]. lia.
  - cbn [now c1]. replace (t + 60) with (t + 3600 + 60 - 60 * Z.of_nat 60) by lia. rewrite Ed. do 2 f_equal; lia.
Qed.

Lemma spring_minute_lost_witness :
  ∃ c, cron_turn (λ _, None) (λ _, None) 4096 0 (a_minute (replicate 61 1) [0]) (mk_daemon (mk_clock (moment 2008 68 2 0 0) (Some 0) [] None) (mk_state [] [] 5 []))
      = Done (Some ([], mk_daemon c (mk_state [] [] 5 []))) ∧ now c = moment 2008 68 3 1 0.
Proof.
  destruct (spring_minute_lost (λ _, None) (λ _, None) 4096 0 (a_minute (replicate 61 1) [0]) NA_DST 2008 68 2 [] None (mk_state [] [] 5 [])) as (c & E & Hn & _).
  all: try reflexivity; try lia; try (solve_time).
  - vm_compute. discriminate.
  - cbn. lia.
  - repeat constructor; lia.
  - split; [repeat constructor; lia|left].
  - constructor.
  - exists c. split; [exact E|exact Hn].
Defined.

(** A daemon that is started in the hour that comes twice takes daylight saving
    time to be in force again, and sets the clock back a second time. *)
Lemma autumn_restart tz y m s lg rt : 0 <= tz → TimeZone !! Z.to_nat tz = Some NA_DST → 2007 <= y < 2100 → 0 <= m < 60 → 0 <= s < 60 →
  let t := moment y (nth_sunday y 10 1) 1 m s in t < 2 ^ 31 →
  dst_start (mk_fmt true tz) (mk_clock t (Some 0) lg rt) = Done (mk_clock t (Some 1) lg rt).
Proof.
  intros Hz Ht Hy Hm Hs. pose proof (nov_day y Hy) as Hd. destruct (na_days y Hy) as [_ Hlt]. cbv zeta. intros Hlt31. unfold dst_start. cbn [d_sav negb t_index now dst_log rtc].
  rewrite (daylight_at tz NA_DST) by (done || unfold in_time, valid; lia). rewrite na_flag by lia. by rewrite bool_decide_true by (unfold between; lia).
Qed.

(** ** From the crontab to the job *)






