(* ===== verification/Double.v ===== *)
(** * Double precision

    The arithmetic of C's [double] that the time client uses, on rational
    numbers: a result is rounded to 53 bits, to the nearest value and to the
    even one of two equally near.  Numbers are fractions with a positive
    denominator.  Overflow and subnormal numbers do not occur here and are not
    modelled. *)

From Stdlib Require Import QArith Lqa.
From S2P Require Import Prelude.

Local Open Scope Z_scope.

Record dbl : Type := mk_dbl { dnum : Z; dden : Z }.

(** [n / d] to the nearest integer, ties to even, for [d > 0]. *)
Definition nearest (n d : Z) : Z :=
  let q := n / d in
  let r := n mod d in
  if 2 * r <? d then q else if d <? 2 * r then q + 1 else if Z.even q then q else q + 1.

(** A positive fraction scaled by a power of two. *)
Definition scale (n d e : Z) : Z * Z := if 0 <=? e then (n * 2 ^ e, d) else (n, d * 2 ^ (- e)).

(** The power of two that leaves 53 bits before the point. *)
Definition exponent (n d : Z) : Z :=
  let e := 52 - (Z.log2 n - Z.log2 d) in
  let '(a, b) := scale n d e in
  if a <? 2 ^ 52 * b then e + 1 else e.

Definition round_pos (n d : Z) : dbl :=
  let e := exponent n d in
  let '(a, b) := scale n d e in
  let m := nearest a b in
  if 0 <=? e then mk_dbl m (2 ^ e) else mk_dbl (m * 2 ^ (- e)) 1.

Definition round (n d : Z) : dbl :=
  if n =? 0 then mk_dbl 0 1
  else if 0 <? n then round_pos n d
  else let r := round_pos (- n) d in mk_dbl (- dnum r) (dden r).

Definition of_int (n : Z) : dbl := round n 1.
Definition dadd (x y : dbl) : dbl := round (dnum x * dden y + dnum y * dden x) (dden x * dden y).
Definition dsub (x y : dbl) : dbl := dadd x (mk_dbl (- dnum y) (dden y)).
Definition dmul (x y : dbl) : dbl := round (dnum x * dnum y) (dden x * dden y).
Definition ddiv (x y : dbl) : dbl :=
  if 0 <? dnum y then round (dnum x * dden y) (dden x * dnum y) else round (- dnum x * dden y) (dden x * - dnum y).

(** Conversion to an integer, towards zero. *)
Definition trunc (x : dbl) : Z := Z.quot (dnum x) (dden x).
Definition dlt (x y : dbl) : bool := dnum x * dden y <? dnum y * dden x.

(** ** The error of a rounding *)

Lemma nearest_close n d : 0 < d → - d <= 2 * (n - d * nearest n d) <= d.
Proof.
  intros Hd. unfold nearest. pose proof (Z.div_mod n d ltac:(lia)). pose proof (Z.mod_pos_bound n d Hd).
  destruct (Z.ltb_spec (2 * (n mod d)) d); [lia|]. destruct (Z.ltb_spec d (2 * (n mod d))); [lia|].
  destruct (Z.even _); lia.
Qed.

Lemma scale_pos n d e : 0 < n → 0 < d → 0 < (scale n d e).1 ∧ 0 < (scale n d e).2.
Proof. intros. unfold scale. destruct (Z.leb_spec 0 e); cbn; split; try done; apply Z.mul_pos_pos; try done; apply Z.pow_pos_nonneg; lia. Qed.

Lemma log2_quot n d j : 0 < n → 0 < d → n < 2 ^ j * d → 0 <= j → Z.log2 n <= Z.log2 d + j.
Proof.
  intros Hn Hd Hl Hj. assert (Hlt : Z.log2 n < Z.log2 d + 1 + j); [|lia].
  apply Z.log2_lt_pow2; [done|]. pose proof (Z.log2_spec d Hd) as [_ Hu]. rewrite Z.add_comm, Z.pow_add_r by (pose proof (Z.log2_nonneg d); lia).
  eapply Z.lt_le_trans; [exact Hl|]. apply Z.mul_le_mono_nonneg_l; [apply Z.pow_nonneg; lia|].
  rewrite <-Z.add_1_r in Hu. lia.
Qed.

Lemma exponent_spec n d j : 0 < n → 0 < d → n < 2 ^ j * d → 0 <= j <= 52 →
  53 - j <= exponent n d ∧ 2 ^ 52 * d <= n * 2 ^ exponent n d.
Proof.
  intros Hn Hd Hl Hj. pose proof (log2_quot n d j Hn Hd Hl ltac:(lia)) as Hk.
  pose proof (Z.log2_nonneg n). pose proof (Z.log2_nonneg d). pose proof (Z.log2_spec n Hn) as [Hn1 _]. pose proof (Z.log2_spec d Hd) as [_ Hd2].
  set (e := 52 - (Z.log2 n - Z.log2 d)). assert (He : 0 <= e) by (unfold e; lia).
  assert (H52 : 2 ^ 52 * d <= n * 2 ^ exponent n d).
  { unfold exponent. fold e. unfold scale. rewrite (proj2 (Z.leb_le _ _)) by done.
    destruct (Z.ltb_spec (n * 2 ^ e) (2 ^ 52 * d)); [|done].
    apply Z.le_trans with (2 ^ 52 * 2 ^ Z.succ (Z.log2 d)); [apply Z.mul_le_mono_nonneg_l; lia|].
    apply Z.le_trans with (2 ^ Z.log2 n * 2 ^ (e + 1)); [|apply Z.mul_le_mono_nonneg_r; [apply Z.pow_nonneg; lia|done]].
    rewrite <-!Z.pow_add_r by lia. apply Z.pow_le_mono_r; unfold e; lia. }
  split; [|done]. assert (Hlt : 52 < exponent n d + j); [|lia].
  assert (0 <= exponent n d) by (unfold exponent; fold e; destruct (scale n d e); case_match; lia).
  apply (Z.pow_lt_mono_r_iff 2); [lia|lia|]. rewrite Z.add_comm, Z.pow_add_r by lia.
  assert (n * 2 ^ exponent n d < 2 ^ j * 2 ^ exponent n d * d).
  { replace (2 ^ j * 2 ^ exponent n d * d) with (2 ^ j * d * 2 ^ exponent n d) by lia. apply Z.mul_lt_mono_pos_r; [|done]. apply Z.pow_pos_nonneg; lia. }
  apply Z.mul_lt_mono_pos_r with d; lia.
Qed.

(** A positive quotient below [2 ^ j] is off by at most [2 ^ (j - 54)]. *)
Lemma round_close n d j : 0 < n → 0 < d → n < 2 ^ j * d → 0 <= j <= 52 →
  0 < dden (round n d) ∧ 2 ^ (54 - j) * Z.abs (n * dden (round n d) - d * dnum (round n d)) <= d * dden (round n d) ∧ 0 <= dnum (round n d).
Proof.
  intros Hn Hd Hl Hj. destruct (exponent_spec n d j Hn Hd Hl Hj) as [He H52].
  unfold round. rewrite (proj2 (Z.eqb_neq _ _)), (proj2 (Z.ltb_lt _ _)) by lia. unfold round_pos, scale.
  set (e := exponent n d) in *. rewrite (proj2 (Z.leb_le _ _)) by lia. cbn [dnum dden].
  assert (Hp : 0 < 2 ^ e) by (apply Z.pow_pos_nonneg; lia). split; [done|].
  pose proof (nearest_close (n * 2 ^ e) d Hd) as Hc. split.
  - replace e with ((e + j - 53) + (53 - j)) at 3 by lia. rewrite Z.pow_add_r by lia.
    replace (54 - j) with (1 + (53 - j)) by lia. rewrite Z.pow_add_r by lia. change (2 ^ 1) with 2.
    assert (0 < 2 ^ (53 - j)) by (apply Z.pow_pos_nonneg; lia).
    assert (1 <= 2 ^ (e + j - 53)) by (pose proof (Z.pow_pos_nonneg 2 (e + j - 53) ltac:(lia) ltac:(lia)); lia).
    assert (2 * Z.abs (n * 2 ^ e - d * nearest (n * 2 ^ e) d) <= d) as Hx by lia.
    set (A := 2 ^ (53 - j)) in *. set (x := Z.abs _) in *.
    apply Z.le_trans with (A * d); [replace (2 * A * x) with (A * (2 * x)) by lia; apply Z.mul_le_mono_nonneg_l; lia|].
    replace (d * (2 ^ (e + j - 53) * A)) with (A * d * 2 ^ (e + j - 53)) by lia.
    rewrite <-(Z.mul_1_r (A * d)) at 1. apply Z.mul_le_mono_nonneg_l; lia.
  - unfold nearest. pose proof (Z.div_pos (n * 2 ^ e) d ltac:(lia) Hd). repeat case_match; lia.
Qed.

(** ** Values

    The rational number that a [dbl] stands for, and what each operation does to
    it.  [near x q e]: the value of [x] is within [e] of [q]. *)

Definition V (x : dbl) : Q := dnum x # Z.to_pos (dden x).
Definition near (x : dbl) (q e : Q) : Prop := 0 < dden x ∧ (q - e <= V x)%Q ∧ (V x <= q + e)%Q.

(** A double below [2 ^ j] is off by at most this. *)
Definition ulp (j : Z) : Q := 1 # Z.to_pos (2 ^ (54 - j)).

Lemma round_neg n d : 0 < n → round (- n) d = mk_dbl (- dnum (round n d)) (dden (round n d)).
Proof.
  intros Hn. unfold round. rewrite (proj2 (Z.eqb_neq (- n) 0)), (proj2 (Z.eqb_neq n 0)), (proj2 (Z.ltb_ge 0 (- n))), (proj2 (Z.ltb_lt 0 n)) by lia.
  by rewrite Z.opp_involutive.
Qed.

Lemma round_close_abs n d j : 0 < d → Z.abs n < 2 ^ j * d → 0 <= j <= 52 →
  0 < dden (round n d) ∧ 2 ^ (54 - j) * Z.abs (n * dden (round n d) - d * dnum (round n d)) <= d * dden (round n d).
Proof.
  intros Hd Hl Hj. destruct (Z.eq_dec n 0) as [->|].
  - cbn. rewrite Z.mul_0_r. cbn. lia.
  - destruct (Z.lt_trichotomy n 0) as [Hn|[->|Hn]]; [|done|].
    + replace n with (- - n) by lia. rewrite round_neg by lia.
      destruct (round_close (- n) d j) as (H1 & H2 & _); try lia. cbn [dnum dden].
      split; [done|]. etransitivity; [|exact H2]. apply Z.mul_le_mono_nonneg_l; [apply Z.pow_nonneg; lia|]. lia.
    + destruct (round_close n d j) as (H1 & H2 & _); auto; lia.
Qed.

Lemma round_near n d j q : 0 < d → (q * inject_Z d == inject_Z n)%Q → Z.abs n < 2 ^ j * d → 0 <= j <= 52 →
  near (round n d) q (ulp j).
Proof.
  intros Hd Hq Hl Hj. destruct (round_close_abs n d j Hd Hl Hj) as [Hden Herr].
  split; [done|]. set (r := round n d) in *. unfold V, ulp.
  assert (Hp : 0 < 2 ^ (54 - j)) by (apply Z.pow_pos_nonneg; lia).
  destruct q as [a b]. unfold Qeq, Qle, Qminus, Qplus, Qopp in *. cbn in *.
  rewrite ?Pos2Z.inj_mul, ?Z2Pos.id, ?Z.mul_1_r in * by lia.
  set (P := 2 ^ (54 - j)) in *. set (x := dnum r) in *. set (y := dden r) in *. set (B := Z.pos b) in *. assert (0 < B) by (unfold B; lia).
  assert (H1 : P * (n * y - d * x) <= d * y) by (etransitivity; [|exact Herr]; apply Z.mul_le_mono_nonneg_l; lia).
  assert (H2 : P * - (n * y - d * x) <= d * y) by (etransitivity; [|exact Herr]; apply Z.mul_le_mono_nonneg_l; lia).
  apply (Z.mul_le_mono_nonneg_l _ _ B) in H1, H2; [|lia..].
  assert (E : a * d * (P * y) = n * B * (P * y)) by (f_equal; lia).
  split; apply (Z.mul_le_mono_pos_l _ _ d); try done; lia.
Qed.

Definition wf (x : dbl) : Prop := 0 < dden x.

(** The magnitude of a value, in integers. *)
Lemma V_lt n d j : 0 < d → (- inject_Z (2 ^ j) < n # Z.to_pos d)%Q → (n # Z.to_pos d < inject_Z (2 ^ j))%Q → Z.abs n < 2 ^ j * d.
Proof. intros Hd. unfold Qlt, inject_Z, Qopp. cbn. rewrite Z2Pos.id by done. lia. Qed.

Lemma V_quot n d : 0 < d → ((n # Z.to_pos d) * inject_Z d == inject_Z n)%Q.
Proof. intros Hd. unfold Qeq, inject_Z, Qmult. cbn. rewrite Pos.mul_1_r, Z2Pos.id by done. lia. Qed.

(** Rounding a fraction of known value. *)
Lemma round_value n d j q : 0 < d → (q == n # Z.to_pos d)%Q → (- inject_Z (2 ^ j) < q)%Q → (q < inject_Z (2 ^ j))%Q → 0 <= j <= 52 →
  near (round n d) q (ulp j).
Proof.
  intros Hd Hq H1 H2 Hj. apply round_near; [done| |apply V_lt; [done|by rewrite <-Hq..]|done].
  rewrite Hq. by apply V_quot.
Qed.

Lemma dadd_near x y j : wf x → wf y → (- inject_Z (2 ^ j) < V x + V y)%Q → (V x + V y < inject_Z (2 ^ j))%Q → 0 <= j <= 52 →
  near (dadd x y) (V x + V y) (ulp j).
Proof.
  intros Hx Hy H1 H2 Hj. unfold dadd. apply round_value; auto; [unfold wf in *; lia|].
  unfold V, Qplus, Qeq. cbn. rewrite Z2Pos.inj_mul by done. by rewrite !Pos2Z.inj_mul, !Z2Pos.id by done.
Qed.

Lemma V_opp x : (V (mk_dbl (- dnum x) (dden x)) == - V x)%Q.
Proof. reflexivity. Qed.

Lemma dsub_near x y j : wf x → wf y → (- inject_Z (2 ^ j) < V x - V y)%Q → (V x - V y < inject_Z (2 ^ j))%Q → 0 <= j <= 52 →
  near (dsub x y) (V x - V y) (ulp j).
Proof. intros Hx Hy H1 H2 Hj. unfold dsub. by apply (dadd_near x (mk_dbl (- dnum y) (dden y))). Qed.

Lemma dmul_near x y j : wf x → wf y → (- inject_Z (2 ^ j) < V x * V y)%Q → (V x * V y < inject_Z (2 ^ j))%Q → 0 <= j <= 52 →
  near (dmul x y) (V x * V y) (ulp j).
Proof.
  intros Hx Hy H1 H2 Hj. unfold dmul. apply round_value; auto; [unfold wf in *; lia|].
  unfold V, Qmult, Qeq. cbn. rewrite Z2Pos.inj_mul by done. by rewrite !Pos2Z.inj_mul, !Z2Pos.id by done.
Qed.

(** Division by a positive number. *)
Lemma ddiv_near x y j q : wf x → wf y → 0 < dnum y → (q * V y == V x)%Q →
  (- inject_Z (2 ^ j) < q)%Q → (q < inject_Z (2 ^ j))%Q → 0 <= j <= 52 → near (ddiv x y) q (ulp j).
Proof.
  intros Hx Hy Hp Hq H1 H2 Hj. unfold ddiv. rewrite (proj2 (Z.ltb_lt _ _)) by done. apply round_value; auto; [unfold wf in *; lia|].
  unfold wf, V, Qmult, Qeq in *. destruct q as [a b]. cbn in *. rewrite ?Pos2Z.inj_mul, ?Z2Pos.id, ?Pos2Z.inj_mul in * by lia.
  lia.
Qed.

(** Integers of up to 52 bits are exact. *)
Lemma of_int_exact n : Z.abs n < 2 ^ 52 → wf (of_int n) ∧ (V (of_int n) == inject_Z n)%Q.
Proof.
  assert (Hpos : ∀ m, 0 < m < 2 ^ 52 → 0 < dden (round m 1) ∧ dnum (round m 1) = m * dden (round m 1)).
  { intros m Hm. destruct (exponent_spec m 1 52) as [He _]; try lia. unfold round, round_pos, scale.
    rewrite (proj2 (Z.eqb_neq _ _)), (proj2 (Z.ltb_lt _ _)) by lia. rewrite (proj2 (Z.leb_le _ _)) by lia. cbn [dnum dden].
    split; [apply Z.pow_pos_nonneg; lia|]. unfold nearest. by rewrite Z.mod_1_r, Z.div_1_r. }
  intros Hn. unfold wf, of_int. assert (0 < dden (round n 1) ∧ dnum (round n 1) = n * dden (round n 1)) as [H1 H2].
  { destruct (Z.lt_trichotomy n 0) as [H|[->|H]]; [|done|apply Hpos; lia].
    destruct (Hpos (- n)) as [H1 H2]; [lia|]. rewrite <-(Z.opp_involutive n), round_neg by lia. cbn [dnum dden]. split; [done|]. lia. }
  split; [done|]. unfold V, Qeq, inject_Z. cbn. rewrite Z2Pos.id, H2 by done. lia.
Qed.

(** Cutting towards zero. *)
Lemma trunc_nonneg x : wf x → (0 <= V x)%Q → 0 <= trunc x ∧ (inject_Z (trunc x) <= V x)%Q ∧ (V x < inject_Z (trunc x) + 1)%Q.
Proof.
  unfold wf, V, trunc, Qle, Qlt, inject_Z, Qplus. cbn. intros Hx H. rewrite !Z2Pos.id by done.
  rewrite Z.quot_div_nonneg by lia. pose proof (Z.div_mod (dnum x) (dden x) ltac:(lia)). pose proof (Z.mod_pos_bound (dnum x) (dden x) Hx).
  pose proof (Z.div_pos (dnum x) (dden x) ltac:(lia) Hx). lia.
Qed.

Lemma trunc_nonpos x : wf x → (V x <= 0)%Q → trunc x <= 0 ∧ (V x <= inject_Z (trunc x))%Q ∧ (inject_Z (trunc x) - 1 < V x)%Q.
Proof.
  intros Hx H. assert (E : trunc x = - trunc (mk_dbl (- dnum x) (dden x))).
  { unfold trunc. cbn [dnum dden]. rewrite Z.quot_opp_l by (unfold wf in Hx; lia). lia. }
  destruct (trunc_nonneg (mk_dbl (- dnum x) (dden x)) Hx) as (H1 & H2 & H3); [rewrite V_opp; lra|].
  rewrite V_opp in H2, H3. rewrite E, inject_Z_opp. split; [lia|]. split; lra.
Qed.

Lemma dlt_spec x y : wf x → wf y → dlt x y = true ↔ (V x < V y)%Q.
Proof. intros Hx Hy. unfold dlt, V, Qlt. cbn. rewrite Z.ltb_lt, !Z2Pos.id by done. reflexivity. Qed.
