(* ===== verification/Ntp.v ===== *)
(** * The time client

    [src/sysapps/apps/NTP/fntp.c]: an SNTP query, the response and its checks,
    the offset of the clock, and setting it, with the time zone and daylight
    saving time.  The processor is little-endian.

    System calls are scripts: an [attempt] holds the times that [gettimeofday]
    gives, what [select] answers in the end, the datagram received, and what
    [settimeofday] answers.  [ntpdate.c], which calls [NTP_update] once a day, is
    not modelled. *)

From S2P Require Import Prelude Blocks Double Clock Dst.

Local Open Scope Z_scope.

(** ** Times *)

Record timeval : Type := mk_tv { tv_sec : Z; tv_usec : Z }.

(** The correction both operations end with. *)
Definition tv_fix (sec usec : Z) : timeval :=
  let '(sec, usec) := if 1000000 <? usec then (s32 (sec + 1), usec - 1000000) else (sec, usec) in
  if usec <? 0 then mk_tv (s32 (sec - 1)) (usec + 1000000) else mk_tv sec usec.

Definition tv_add (x1 x2 : timeval) : timeval := tv_fix (s32 (tv_sec x1 + tv_sec x2)) (tv_usec x1 + tv_usec x2).
Definition tv_sub (x1 x2 : timeval) : timeval := tv_fix (s32 (tv_sec x1 - tv_sec x2)) (tv_usec x1 - tv_usec x2).

(** ** Time stamps *)

Definition EPOCH_OFFSET : Z := 0x83AA7E80.

(** [2.32830643654E-04] as a double. *)
Definition NTP_OFFSET : dbl := round 232830643654 (10 ^ 15).

Definition endian_fix (data : Z) : Z :=
  u32 (Z.shiftl (Z.land data 0x000000FF) 24 + Z.shiftl (Z.land data 0x0000FF00) 8 +
       Z.shiftr (Z.land data 0x00FF0000) 8 + Z.shiftr (Z.land data 0xFF000000) 24).

(** [memcpy] between four bytes and a word. *)
Definition word_at (m : list Z) (off : nat) : Z :=
  nth off m 0 + 2 ^ 8 * nth (off + 1) m 0 + 2 ^ 16 * nth (off + 2) m 0 + 2 ^ 24 * nth (off + 3) m 0.

Definition ntp2timeval (m : list Z) (off : nat) : timeval :=
  let sec := endian_fix (word_at m off) in
  let usec := endian_fix (word_at m (off + 4)) in
  mk_tv (s32 (sec - EPOCH_OFFSET)) (trunc (dmul (of_int usec) NTP_OFFSET)).

Definition timeval2ntp (tv : timeval) : list Z :=
  let sec := u32 (tv_sec tv + EPOCH_OFFSET) in
  let usec := u32 (trunc (ddiv (of_int (tv_usec tv)) NTP_OFFSET)) in
  le_bytes 4 (endian_fix sec) ++ le_bytes 4 (endian_fix usec).

(** ** Query and response *)

Definition clientVers : Z := 3.
Definition maxStratum : Z := 15.
Definition abortOnAlarm : bool := false.
Definition abortOnStratZero : bool := false.

(** The packet, for the time of sending. *)
Definition send_query (t1 : timeval) : list Z :=
  let status := u8 (Z.lor (Z.shiftl clientVers 3) 3) in
  (status :: replicate 23 0) ++ timeval2ntp t1 ++ replicate 8 0 ++ timeval2ntp t1.

Inductive response : Type := TIMEOUT | GOOD_RESPONSE | BAD_PACKET | CONNECT_BAD.

#[export] Instance response_eq_dec : EqDecision response.
Proof. solve_decision. Defined.

(** [retval] is the last answer of [select], [rx] what [recvfrom] got. *)
Definition get_response (retval : Z) (rx : list Z) : response :=
  if retval <? 0 then CONNECT_BAD
  else if retval =? 0 then TIMEOUT
  else if strlen rx <? 48 then BAD_PACKET
  else
    let stratum := nth 1 rx 0 in
    let li := Z.shiftr (Z.land (nth 0 rx 0) 0xc0) 6 in
    if (li =? 3) && abortOnAlarm then CONNECT_BAD
    else if (stratum =? 0) && abortOnStratZero then CONNECT_BAD
    else if maxStratum <? stratum then CONNECT_BAD
    else GOOD_RESPONSE.

(** ** The configuration *)

Definition NTP_PORT : Z := 123.

(** [None] when the entry cannot be read. *)
Definition get_ntp_port (entry : option Z) : Z :=
  let p := default NTP_PORT entry in
  if (65535 <? p) || (p <? 1024) && negb (p =? NTP_PORT) then NTP_PORT else p.

(** The column [num] of the table, in quarters of an hour. *)
Definition quarters : list Z :=
  [-48; -44; -40; -36; -32; -28; -28; -28; -24; -24; -24; -24; -20; -20; -20; -16; -16; -16; -14;
   -12; -12; -12; -8; -4; -4; 0; 0; 4; 4; 4; 4; 4; 8; 8; 8; 8; 8; 8;
   12; 12; 12; 12; 14; 16; 16; 18; 20; 20; 22; 23; 24; 24; 24; 26; 28; 28; 32;
   32; 32; 32; 32; 36; 36; 36; 38; 38; 40; 40; 40; 40; 40; 44; 48; 48; 52; -18].

(** The index of the zone and the seconds it is ahead; an index outside the table
    is a fault. *)
Definition get_timezone (entry : option Z) : exec (Z * Z) :=
  match entry with
  | None => Done (4, 0)
  | Some z =>
      if z <? 0 then Fault else
      match quarters !! Z.to_nat z with Some q => Done (z, q * 900) | None => Fault end
  end.

Definition get_daylightsaving (entry : option Z) : Z := default 0 entry.

(** The same function as in [cron.c]. *)
Definition daylight_saving (tzone time : Z) : exec Z := Dst.daylight_saving tzone time.

(** [None] where the code returns [SYNC_ERROR]; the digits for the clock chip. *)
Definition SETRTCTIME (now : Z) : option (list Z) :=
  let y := tm_year (localtime now) + 1900 in
  if (y <? 2000) || (2038 <=? y) then None else Some (set_rtc now).

(** ** Setting the clock *)

Record attempt : Type := mk_attempt {
  sent_at : timeval; select_ret : Z; received_at : timeval; datagram : list Z; now_at : timeval; set_ret : Z }.

(** Half of the sum of the two offsets, in double precision: [td] and the time it
    is cut to. *)
Definition local_offset (t1 t2 t3 t4 : timeval) : dbl * timeval :=
  let tx2 := tv_add (tv_sub t2 t1) (tv_sub t3 t4) in
  let tx2d := dadd (of_int (tv_sec tx2)) (ddiv (of_int (tv_usec tx2)) (of_int 1000000)) in
  let td := ddiv tx2d (of_int 2) in
  let sec := trunc td in
  (td, mk_tv sec (trunc (dmul (of_int 1000000) (dsub td (of_int sec))))).

(** An hour more when daylight saving time is wanted and in force. *)
Definition with_saving (dsav tzone : Z) (t : timeval) : exec timeval :=
  if dsav =? 0 then Done t else
  f ← daylight_saving tzone (tv_sec t);
  Done (if f =? 0 then t else mk_tv (s32 (tv_sec t + 3600)) (tv_usec t)).

(** The new time, from the server's for a large offset and from the clock for a
    small one. *)
Definition new_time (dsav tzone adjust : Z) (t1 t2 t3 t4 now : timeval) : exec timeval :=
  let '(td, t) := local_offset t1 t2 t3 t4 in
  if dlt (of_int 10000) td || dlt td (of_int (-10000))
  then with_saving dsav tzone (mk_tv (s32 (tv_sec t3 + adjust)) (tv_usec t3))
  else with_saving dsav tzone (tv_add now t).

(** What a query comes to: the clock and the clock chip set; the clock refused, or
    set and the chip not; or nothing, for the reason of [get_response]. *)
Inductive outcome : Type := Synced (t : timeval) (rtc : list Z) | Refused (clock_set : option timeval) | Again (r : response).

Definition less (t : timeval) (adjust : Z) : timeval := mk_tv (s32 (tv_sec t - adjust)) (tv_usec t).

(** [settimeofday] and, when it succeeds, [SETRTCTIME]. *)
Definition set_clock (set_ret : Z) (t : timeval) : outcome :=
  if negb (set_ret =? 0) then Refused None
  else match SETRTCTIME (tv_sec t) with Some rtc => Synced t rtc | None => Refused (Some t) end.

Definition try_once (dsav tzone adjust : Z) (a : attempt) : exec outcome :=
  let t1 := less (sent_at a) adjust in
  let tx := send_query t1 in
  let t4 := less (received_at a) adjust in
  let rx := datagram a in
  let result := get_response (select_ret a) rx in
  if negb (bool_decide (result = GOOD_RESPONSE)) then Done (Again result)
  else if negb (bool_decide (take 8 (drop 24 rx) = take 8 (drop 24 tx))) then Done (Again GOOD_RESPONSE)
  else
    t ← new_time dsav tzone adjust t1 (ntp2timeval rx 32) (ntp2timeval rx 40) t4 (now_at a);
    Done (set_clock (set_ret a) t).

Definition SYNC_OK : Z := 4.
Definition SYNC_ERROR : Z := 5.

(** The entries of the log. *)
Definition NTP_LOG_OK : Z := 1.
Definition NTP_LOG_CONNECT : Z := 2.
Definition NTP_LOG_BAD : Z := 3.
Definition NTP_LOG_HOST : Z := 4.

Definition last_log (result : response) : Z :=
  match result with CONNECT_BAD | TIMEOUT => NTP_LOG_CONNECT | _ => NTP_LOG_BAD end.

(** The value returned, the log entry, and what the clock and the clock chip were
    set to. *)
Record synced : Type := mk_synced { code : Z; logged : Z; clock_at : option timeval; chip_at : option (list Z) }.

(** The last [n] turns of the loop [for (i = 0; i < 3; i++)], from turn [i]. *)
Fixpoint query_loop (n i : nat) (dsav tzone adjust : Z) (last : response) (l : nat → attempt) : exec synced :=
  match n with
  | O => Done (mk_synced SYNC_ERROR (last_log last) None None)
  | S n' =>
      o ← try_once dsav tzone adjust (l i);
      match o with
      | Synced t rtc => Done (mk_synced SYNC_OK NTP_LOG_OK (Some t) (Some rtc))
      | Refused t => Done (mk_synced SYNC_ERROR (last_log GOOD_RESPONSE) t None)
      | Again r => query_loop n' (S i) dsav tzone adjust r l
      end
  end.

Record ntp_conf : Type := mk_conf { zone_entry : option Z; saving_entry : option Z; host_found : bool; socket_ret : Z }.

Definition NTP_update (c : ntp_conf) (l : nat → attempt) : exec synced :=
  '(tzone, adjust) ← get_timezone (zone_entry c);
  let dsav := get_daylightsaving (saving_entry c) in
  if negb (host_found c) then Done (mk_synced SYNC_ERROR NTP_LOG_HOST None None)
  else if socket_ret c <? 0 then Done (mk_synced SYNC_ERROR NTP_LOG_CONNECT None None)
  else query_loop 3 0 dsav tzone adjust TIMEOUT l.
