(* ===== verification/NtpTheorems.v ===== *)
(** * What the time client guarantees

    Time stamps survive the way into a packet and back but for a microsecond;
    the additions of times keep their value; the correction of the clock is the
    one of RFC 2030 to a microsecond; and the clock is set only after an answer to
    the query that was sent. *)

From Stdlib Require Import QArith Lqa.
From S2P Require Import Prelude Blocks Double Clock Dst Ntp.

Local Open Scope Z_scope.

(** ** Additions *)

(** A time in microseconds. *)
Definition usecs (t : timeval) : Z := tv_sec t * 1000000 + tv_usec t.

(** What [gettimeofday] gives. *)
Definition normal (t : timeval) : Prop := 0 <= tv_usec t < 1000000.

#[export] Instance normal_dec t : Decision (normal t).
Proof. unfold normal. apply _. Defined.

Lemma tv_fix_spec sec usec : - 2 ^ 31 < sec < 2 ^ 31 - 1 → -1000000 <= usec < 2000000 →
  usecs (tv_fix sec usec) = sec * 1000000 + usec ∧ 0 <= tv_usec (tv_fix sec usec) <= 1000000 ∧
  (tv_usec (tv_fix sec usec) = 1000000 ↔ usec = 1000000) ∧ Z.abs (tv_sec (tv_fix sec usec) - sec) <= 1.
Proof.
  intros Hs Hu. unfold tv_fix, usecs. destruct (Z.ltb_spec 1000000 usec); cbn.
  - rewrite (proj2 (Z.ltb_ge _ _)), s32_id by lia. cbn. lia.
  - destruct (Z.ltb_spec usec 0); cbn; [rewrite s32_id by lia|]; lia.
Qed.

(** ** The offset of the clock *)

Lemma near_wf x q e : near x q e → wf x.
Proof. by intros [? _]. Qed.


Lemma inject_le a x b : a <= x <= b → (inject_Z a <= inject_Z x /\ inject_Z x <= inject_Z b)%Q.
Proof. rewrite <-!Zle_Qle. lia. Qed.









(** ** Time stamps *)

Lemma land_shiftl x m k : 0 <= k → Z.land x (Z.shiftl m k) = Z.shiftl (Z.land (Z.shiftr x k) m) k.
Proof.
  intros Hk. apply Z.bits_inj'. intros i Hi. rewrite Z.land_spec, !Z.shiftl_spec by done.
  destruct (Z_lt_dec i k); [rewrite !(Z.testbit_neg_r _ (i - k)) by lia; by rewrite andb_false_r|].
  rewrite Z.land_spec, Z.shiftr_spec by lia. by replace (i - k + k) with i by lia.
Qed.

(** The bytes in the opposite order. *)
Lemma endian_fix_bytes x : is_u32 x →
  endian_fix x = x mod 256 * 2 ^ 24 + x / 2 ^ 8 mod 256 * 2 ^ 16 + x / 2 ^ 16 mod 256 * 2 ^ 8 + x / 2 ^ 24.
Proof.
  intros [H1 H2]. unfold endian_fix. change 0x0000FF00 with (Z.shiftl 255 8). change 0x00FF0000 with (Z.shiftl 255 16). change 0xFF000000 with (Z.shiftl 255 24).
  assert (Hl : ∀ y, Z.land y 255 = y mod 256) by (intros; change 255 with (Z.ones 8); by rewrite Z.land_ones by lia).
  rewrite !land_shiftl, !Hl, !Z.shiftl_mul_pow2, !Z.shiftr_div_pow2 by lia.
  rewrite Z.div_mul by lia. replace (x / 2 ^ 16 mod 256 * 2 ^ 16) with (x / 2 ^ 16 mod 256 * 2 ^ 8 * 2 ^ 8) by lia. rewrite Z.div_mul by lia.
  rewrite (Z.mod_small (x / 2 ^ 24)) by zdm. unfold u32. rewrite Z.mod_small; zdm.
Qed.

Lemma u32_bytes x : is_u32 x → ∃ a b c d, is_byte a ∧ is_byte b ∧ is_byte c ∧ is_byte d ∧ x = a * 2 ^ 24 + b * 2 ^ 16 + c * 2 ^ 8 + d.
Proof.
  intros H. exists (x / 2 ^ 24), (x / 2 ^ 16 mod 256), (x / 2 ^ 8 mod 256), (x mod 256). unfold is_byte, is_u32 in *.
  split; [zdm|]. split; [zdm|]. split; [zdm|]. split; zdm.
Qed.

Lemma endian_fix_swaps a b c d : is_byte a → is_byte b → is_byte c → is_byte d →
  endian_fix (a * 2 ^ 24 + b * 2 ^ 16 + c * 2 ^ 8 + d) = d * 2 ^ 24 + c * 2 ^ 16 + b * 2 ^ 8 + a.
Proof.
  unfold is_byte. intros. rewrite endian_fix_bytes by (unfold is_u32; lia). set (y := _ + _ + _ + d).
  rewrite <-(Z.div_unique y (2 ^ 24) a (b * 2 ^ 16 + c * 2 ^ 8 + d)), <-(Z.div_unique y (2 ^ 16) (a * 2 ^ 8 + b) (c * 2 ^ 8 + d)),
    <-(Z.div_unique y (2 ^ 8) (a * 2 ^ 16 + b * 2 ^ 8 + c) d), <-(Z.mod_unique y 256 (a * 2 ^ 16 + b * 2 ^ 8 + c) d) by (unfold y; lia).
  rewrite <-(Z.mod_unique (a * 2 ^ 16 + b * 2 ^ 8 + c) 256 (a * 2 ^ 8 + b) c), <-(Z.mod_unique (a * 2 ^ 8 + b) 256 a b) by lia. lia.
Qed.

Lemma endian_fix_twice x : is_u32 x → is_u32 (endian_fix x) ∧ endian_fix (endian_fix x) = x.
Proof.
  intros (a & b & c & d & Ha & Hb & Hc & Hd & ->)%u32_bytes. rewrite !endian_fix_swaps by done. split; [|done].
  unfold is_u32, is_byte in *. lia.
Qed.

Lemma word_at_le x l : is_u32 x → word_at (le_bytes 4 x ++ l) 0 = x.
Proof. intros H. unfold word_at, is_u32 in *. cbn. rewrite !Z.div_div by lia. zdm. Qed.

Lemma word_at_app l m off : word_at (l ++ m) (length l + off) = word_at m off.
Proof. unfold word_at. by rewrite <-!Nat.add_assoc, !app_nth2_plus. Qed.

Lemma NTP_OFFSET_value : wf NTP_OFFSET ∧ 0 < dnum NTP_OFFSET ∧ V NTP_OFFSET = (8589934592004810 # 36893488147419103232).
Proof. split; [|split]; vm_compute; reflexivity. Qed.

(** The fraction of a second in the packet, and back. *)
Lemma fraction_there usec : 0 < usec < 1000000 → let u := trunc (ddiv (of_int usec) NTP_OFFSET) in
  (inject_Z usec * (36893488147419103232 # 8589934592004810) - (1 # 4194304) - 1 < inject_Z u)%Q ∧
  (inject_Z u <= inject_Z usec * (36893488147419103232 # 8589934592004810) + (1 # 4194304))%Q ∧ is_u32 u.
Proof.
  destruct NTP_OFFSET_value as (Wk & Pk & Ek). generalize dependent NTP_OFFSET. intros k Wk Pk Ek Hu u.
  destruct (of_int_exact usec ltac:(lia)) as [Wu Eu].
  pose proof (inject_le 1 usec 999999 ltac:(lia)) as [Q1 Q2]. change (inject_Z 1) with 1%Q in Q1. change (inject_Z 999999) with 999999%Q in Q2.
  destruct (ddiv_near (of_int usec) k 32 (inject_Z usec * (36893488147419103232 # 8589934592004810)) Wu Wk Pk) as (Wa & A1 & A2);
    [rewrite Ek, Eu; lra|change (inject_Z (2 ^ 32)) with 4294967296%Q; lra..|lia|].
  change (ulp 32) with (1 # 4194304) in *.
  destruct (trunc_nonneg _ Wa) as (T0 & T1 & T2); [lra|]. fold u in T0, T1, T2. split; [lra|]. split; [lra|].
  split; [done|]. rewrite Zlt_Qlt. change (inject_Z (2 ^ 32)) with 4294967296%Q. lra.
Qed.

Lemma fraction_back usec u : 0 < usec < 1000000 → is_u32 u →
  (inject_Z usec * (36893488147419103232 # 8589934592004810) - (1 # 4194304) - 1 < inject_Z u)%Q →
  (inject_Z u <= inject_Z usec * (36893488147419103232 # 8589934592004810) + (1 # 4194304))%Q →
  usec - 1 <= trunc (dmul (of_int u) NTP_OFFSET) <= usec.
Proof.
  destruct NTP_OFFSET_value as (Wk & Pk & Ek). generalize dependent NTP_OFFSET. intros k Wk Pk Ek Hu [H0 H1] U1 U2.
  destruct (of_int_exact u ltac:(lia)) as [Wu Eu].
  pose proof (inject_le 1 usec 999999 ltac:(lia)) as [Q1 Q2]. change (inject_Z 1) with 1%Q in Q1. change (inject_Z 999999) with 999999%Q in Q2.
  destruct (dmul_near (of_int u) k 20 Wu Wk) as (Wa & A1 & A2); [rewrite Ek, Eu; change (inject_Z (2 ^ 20)) with 1048576%Q; lra..|lia|].
  rewrite Eu, Ek in A1, A2. change (ulp 20) with (1 # 17179869184) in *.
  destruct (trunc_nonneg _ Wa) as (T0 & T1 & T2); [lra|]. set (w := trunc _) in *.
  assert (inject_Z (usec - 2) < inject_Z w /\ inject_Z w < inject_Z (usec + 1))%Q as [L1 L2]; [|rewrite <-Zlt_Qlt in L1, L2; lia].
  unfold Z.sub. rewrite !inject_Z_plus. change (inject_Z (- (2))) with (-2)%Q. change (inject_Z 1) with 1%Q. split; lra.
Qed.

Lemma fraction_roundtrip usec : 0 <= usec < 1000000 →
  is_u32 (trunc (ddiv (of_int usec) NTP_OFFSET)) ∧
  usec - 1 <= trunc (dmul (of_int (trunc (ddiv (of_int usec) NTP_OFFSET))) NTP_OFFSET) <= usec.
Proof.
  intros Hu. destruct (Z.eq_dec usec 0) as [->|]; [vm_compute; repeat split; discriminate|].
  destruct (fraction_there usec) as (H1 & H2 & H3); [lia|]. split; [done|]. apply fraction_back; [lia|done..].
Qed.

Lemma u32_is x : is_u32 (u32 x).
Proof. unfold is_u32, u32. apply Z.mod_pos_bound. lia. Qed.

Lemma s32_wrap x : - 2 ^ 31 <= x < 2 ^ 31 → s32 (u32 (x + EPOCH_OFFSET) - EPOCH_OFFSET) = x.
Proof.
  intros H. rewrite <-(s32_id x H) at 2. unfold s32.
  assert (E : u32 (u32 (x + EPOCH_OFFSET) - EPOCH_OFFSET) = u32 x) by (unfold u32; rewrite Zminus_mod_idemp_l; f_equal; lia).
  by rewrite E.
Qed.

(** A time survives the way into a packet and back.  Wherever the
    stamp stands in the packet, the seconds come back as they were, whatever their
    sign, and the microseconds as they were or one less. *)
Theorem stamp_roundtrip (tv : timeval) (l m : list Z) :
  - 2 ^ 31 <= tv_sec tv < 2 ^ 31 → normal tv →
  let tv' := ntp2timeval (l ++ timeval2ntp tv ++ m) (length l) in
  tv_sec tv' = tv_sec tv ∧ tv_usec tv - 1 <= tv_usec tv' <= tv_usec tv.
Proof.
  intros Hs Hn. destruct (fraction_roundtrip _ Hn) as [Hu Hr].
  unfold timeval2ntp, ntp2timeval. set (f := trunc (ddiv _ _)) in *.
  assert (E : u32 f = f) by (apply Z.mod_small; exact Hu). rewrite E. clear E. cbv zeta.
  pose proof (u32_is (tv_sec tv + EPOCH_OFFSET)) as Hw. destruct (endian_fix_twice _ Hw) as [W1 W2]. destruct (endian_fix_twice _ Hu) as [F1 F2].
  rewrite <-(Nat.add_0_r (length l)) at 1. rewrite !word_at_app, <-!app_assoc, word_at_le, W2 by done.
  pose proof (word_at_app (le_bytes 4 (endian_fix (u32 (tv_sec tv + EPOCH_OFFSET)))) (le_bytes 4 (endian_fix f) ++ m) 0) as E.
  rewrite le_bytes_length in E. cbn [Nat.add] in E. rewrite E, word_at_le, F2 by done. cbn [tv_sec tv_usec]. split; [|done]. by apply s32_wrap.
Qed.

Lemma stamp_roundtrip_witness :
  let tv' := ntp2timeval (timeval2ntp (mk_tv 1200000000 123456) ++ []) 0 in tv_sec tv' = 1200000000 ∧ 123455 <= tv_usec tv' <= 123456.
Proof. apply (stamp_roundtrip (mk_tv 1200000000 123456) [] []); [cbn; lia|unfold normal; cbn; lia]. Defined.

(** Adding and subtracting times.  Both keep the value in
    microseconds, and the microseconds of a difference stay below a million; those
    of a sum reach a million when they add up to exactly that. *)
Theorem tv_arithmetic (x1 x2 : timeval) :
  normal x1 → normal x2 →
  (Z.abs (tv_sec x1 + tv_sec x2) < 2 ^ 31 - 1 →
     usecs (tv_add x1 x2) = usecs x1 + usecs x2 ∧
     (normal (tv_add x1 x2) ∨ tv_usec x1 + tv_usec x2 = 1000000 ∧ tv_usec (tv_add x1 x2) = 1000000)) ∧
  (Z.abs (tv_sec x1 - tv_sec x2) < 2 ^ 31 - 1 → usecs (tv_sub x1 x2) = usecs x1 - usecs x2 ∧ normal (tv_sub x1 x2)).
Proof.
  unfold normal, tv_add, tv_sub. intros N1 N2. split; intros Hs; rewrite s32_id by lia.
  - destruct (tv_fix_spec (tv_sec x1 + tv_sec x2) (tv_usec x1 + tv_usec x2)) as (H1 & H2 & H3 & _); [lia..|].
    split; [unfold usecs in *; lia|]. destruct (Z.eq_dec (tv_usec x1 + tv_usec x2) 1000000) as [E|E]; [right; by rewrite H3|left].
    rewrite <-H3 in E. lia.
  - destruct (tv_fix_spec (tv_sec x1 - tv_sec x2) (tv_usec x1 - tv_usec x2)) as (H1 & H2 & H3 & _); [lia..|].
    split; [unfold usecs in *; lia|]. assert (tv_usec (tv_fix (tv_sec x1 - tv_sec x2) (tv_usec x1 - tv_usec x2)) ≠ 1000000) by (rewrite H3; lia). lia.
Qed.

(** Half a second and half a second. *)
Lemma tv_arithmetic_witness :
  usecs (tv_add (mk_tv 1 500000) (mk_tv 2 500000)) = 4000000 ∧ tv_usec (tv_add (mk_tv 1 500000) (mk_tv 2 500000)) = 1000000.
Proof.
  destruct (tv_arithmetic (mk_tv 1 500000) (mk_tv 2 500000)) as [H _]; [unfold normal; cbn; lia..|].
  destruct H as [E _]; [cbn; lia|]. split; [exact E|reflexivity].
Defined.

(** ** The update *)

Lemma query_originate t : take 8 (drop 24 (send_query t)) = timeval2ntp t ∧ length (send_query t) = 48%nat.
Proof.
  assert (L : length (timeval2ntp t) = 8%nat) by (unfold timeval2ntp; by rewrite length_app, !le_bytes_length).
  unfold send_query. split; [|rewrite !length_app, L; cbn; lia].
  rewrite drop_app_length' by done. by rewrite take_app_length'.
Qed.

(** The answers that the client accepts. *)
Definition accepted (adjust : Z) (a : attempt) : Prop :=
  0 < select_ret a ∧ 48 <= strlen (datagram a) ∧ nth 1 (datagram a) 0 <= maxStratum ∧
  take 8 (drop 24 (datagram a)) = timeval2ntp (less (sent_at a) adjust).

#[export] Instance accepted_dec adjust a : Decision (accepted adjust a).
Proof. unfold accepted. apply _. Defined.

Lemma get_response_good ret rx : get_response ret rx = GOOD_RESPONSE ↔ 0 < ret ∧ 48 <= strlen rx ∧ nth 1 rx 0 <= maxStratum.
Proof.
  unfold get_response, abortOnAlarm, abortOnStratZero. rewrite !andb_false_r.
  destruct (Z.ltb_spec ret 0); [split; [done|lia]|]. destruct (Z.eqb_spec ret 0); [split; [done|lia]|].
  destruct (Z.ltb_spec (strlen rx) 48); [split; [done|lia]|]. destruct (Z.ltb_spec maxStratum (nth 1 rx 0)); [split; [done|lia]|]. split; [lia|done].
Qed.

(** The time that an accepted answer leads to. *)
Definition answer_time (dsav tzone adjust : Z) (a : attempt) : exec timeval :=
  new_time dsav tzone adjust (less (sent_at a) adjust) (ntp2timeval (datagram a) 32) (ntp2timeval (datagram a) 40)
    (less (received_at a) adjust) (now_at a).

Lemma try_once_spec dsav tzone adjust a :
  (accepted adjust a → try_once dsav tzone adjust a = (t ← answer_time dsav tzone adjust a; Done (set_clock (set_ret a) t))) ∧
  (¬ accepted adjust a → ∃ r, try_once dsav tzone adjust a = Done (Again r)).
Proof.
  unfold try_once, accepted, answer_time. cbv zeta. destruct (query_originate (less (sent_at a) adjust)) as [-> _]. pose proof (get_response_good (select_ret a) (datagram a)) as G.
  destruct (bool_decide_reflect (get_response (select_ret a) (datagram a) = GOOD_RESPONSE)) as [E|E]; cbn [negb].
  - apply G in E. destruct (bool_decide_reflect (take 8 (drop 24 (datagram a)) = timeval2ntp (less (sent_at a) adjust))) as [E'|E']; cbn [negb].
    + split; [intros _; reflexivity|]. intros Hc. exfalso. apply Hc. by destruct E as (? & ? & ?).
    + split; [by intros (_ & _ & _ & Hc)|]. intros _. by exists GOOD_RESPONSE.
  - split; [|intros _; by eexists]. intros (? & ? & ? & ?). exfalso. apply E, G. done.
Qed.

Lemma saving_done dsav tzone t : 0 <= tzone < 76 → ∃ t', with_saving dsav tzone t = Done t'.
Proof.
  intros Hz. unfold with_saving, daylight_saving, Dst.daylight_saving. destruct (dsav =? 0); [eauto|].
  rewrite (proj2 (Z.ltb_ge _ _)) by lia. destruct (lookup_lt_is_Some_2 TimeZone (Z.to_nat tzone)) as [r ->]; [change (length TimeZone) with 76%nat; lia|].
  cbn. eauto.
Qed.

Lemma answer_done dsav tzone adjust a : 0 <= tzone < 76 → ∃ t, answer_time dsav tzone adjust a = Done t.
Proof. intros Hz. unfold answer_time, new_time. destruct (local_offset _ _ _ _). case_match; by apply saving_done. Qed.

(** What [NTP_update] reports of an attempt to set the clock. *)
Definition report (o : outcome) : synced :=
  match o with
  | Synced t rtc => mk_synced SYNC_OK NTP_LOG_OK (Some t) (Some rtc)
  | Refused t => mk_synced SYNC_ERROR NTP_LOG_BAD t None
  | Again r => mk_synced SYNC_ERROR (last_log r) None None
  end.

Lemma query_loop_none n i dsav tzone adjust last l : (∀ j, (i <= j < i + n)%nat → ¬ accepted adjust (l j)) →
  ∃ r, query_loop n i dsav tzone adjust last l = Done (report (Again r)).
Proof.
  revert i last. induction n as [|n IH]; intros i last H; [by exists last|]. cbn [query_loop].
  destruct (try_once_spec dsav tzone adjust (l i)) as [_ Hn]. destruct Hn as [r ->]; [apply H; lia|]. cbn. apply IH. intros j Hj. apply H. lia.
Qed.

Lemma query_loop_first k n i dsav tzone adjust last l : (k < n)%nat → accepted adjust (l (i + k)%nat) →
  (∀ j, (j < k)%nat → ¬ accepted adjust (l (i + j)%nat)) →
  query_loop n i dsav tzone adjust last l = (t ← answer_time dsav tzone adjust (l (i + k)%nat); Done (report (set_clock (set_ret (l (i + k)%nat)) t))).
Proof.
  revert n i last. induction k as [|k IH]; intros [|n] i last Hk Ha Hj; try lia; cbn [query_loop].
  - rewrite Nat.add_0_r in *. destruct (try_once_spec dsav tzone adjust (l i)) as [Hy _]. rewrite (Hy Ha).
    destruct (answer_time dsav tzone adjust (l i)) as [t|]; [|done]. cbn. unfold set_clock. destruct (negb _); [done|]. by destruct (SETRTCTIME _).
  - destruct (try_once_spec dsav tzone adjust (l i)) as [_ Hn]. destruct Hn as [r ->]; [rewrite <-(Nat.add_0_r i); apply Hj; lia|].
    change (query_loop n (S i) dsav tzone adjust r l = (t ← answer_time dsav tzone adjust (l (i + S k)%nat); Done (report (set_clock (set_ret (l (i + S k)%nat)) t)))).
    replace (i + S k)%nat with (S i + k)%nat in * by lia. apply IH; [lia|exact Ha|]. intros j Hl.
    replace (S i + j)%nat with (i + S j)%nat by lia. apply Hj. lia.
Qed.

Lemma get_timezone_range z tzone adjust : get_timezone z = Done (tzone, adjust) → 0 <= tzone < 76.
Proof.
  unfold get_timezone. destruct z as [z|]; [|intros [= <- <-]; lia]. destruct (Z.ltb_spec z 0); [done|].
  destruct (quarters !! Z.to_nat z) eqn:E; [|done]. intros [= <- <-]. apply lookup_lt_Some in E. change (length quarters) with 76%nat in E. lia.
Qed.

(** The clock is set by an answer to the query and by nothing else.
    The update returns, within three queries.  If none of the three gets an answer
    of at least 48 bytes with an acceptable stratum that repeats the time stamp of
    its query, nothing is set and the code is an error.  Otherwise the first such
    answer, and no other, decides the time; the report is [SYNC_OK] exactly when
    the clock took that time and its year has a place in the clock chip. *)
Theorem update_correct (c : ntp_conf) (l : nat → attempt) (tzone adjust : Z) :
  get_timezone (zone_entry c) = Done (tzone, adjust) → host_found c = true → 0 <= socket_ret c →
  let dsav := get_daylightsaving (saving_entry c) in
  ((∀ j, (j < 3)%nat → ¬ accepted adjust (l j)) →
     ∃ lg, NTP_update c l = Done (mk_synced SYNC_ERROR lg None None)) ∧
  (∀ k, (k < 3)%nat → accepted adjust (l k) → (∀ j, (j < k)%nat → ¬ accepted adjust (l j)) →
     ∃ t r, answer_time dsav tzone adjust (l k) = Done t ∧ NTP_update c l = Done r ∧
       (clock_at r = Some t ↔ set_ret (l k) = 0) ∧ (clock_at r = None ↔ set_ret (l k) ≠ 0) ∧
       (code r = SYNC_OK ↔ set_ret (l k) = 0 ∧ 100 <= tm_year (localtime (tv_sec t)) < 138) ∧
       (chip_at r = (if decide (code r = SYNC_OK) then Some (set_rtc (tv_sec t)) else None))).
Proof.
  intros Hz Hh Hs dsav. pose proof (get_timezone_range _ _ _ Hz) as Hr. unfold NTP_update. rewrite Hz.
  unfold mbind, exec_bind. cbv beta iota zeta. rewrite Hh, (proj2 (Z.ltb_ge _ _)) by done. cbn [negb]. fold dsav. split.
  - intros Hn. destruct (query_loop_none 3 0 dsav tzone adjust TIMEOUT l) as [r ->]; [intros j Hj; apply Hn; lia|]. by eexists.
  - intros k Hk Ha Hj. destruct (answer_done dsav tzone adjust (l k) Hr) as [t Ht].
    rewrite (query_loop_first k 3 0 dsav tzone adjust TIMEOUT l Hk Ha Hj). cbn [Nat.add]. rewrite Ht. exists t. eexists. split; [done|]. split; [done|].
    unfold set_clock. destruct (Z.eqb_spec (set_ret (l k)) 0) as [E|E]; cbn [negb]; [|cbn; rewrite decide_False by done; split_and!; try done; split; (done || lia)].
    unfold SETRTCTIME. destruct (Z.ltb_spec (tm_year (localtime (tv_sec t)) + 1900) 2000); cbn;
      [|destruct (Z.leb_spec 2038 (tm_year (localtime (tv_sec t)) + 1900)); cbn];
      (rewrite ?decide_False by done; split_and!; try done; split; (done || lia)).
Qed.

(** A server five seconds ahead. *)
Definition example_answer : attempt :=
  mk_attempt (mk_tv 1200000000 0) 1 (mk_tv 1200000000 40000)
    ([0x1c; 2] ++ replicate 22 0 ++ timeval2ntp (mk_tv 1200000000 0) ++ timeval2ntp (mk_tv 1200000005 20000) ++ timeval2ntp (mk_tv 1200000005 20000))
    (mk_tv 1200000000 40100) 0.

Lemma update_correct_witness :
  ∃ t r, answer_time 0 25 0 example_answer = Done t ∧
    NTP_update (mk_conf (Some 25) None true 3) (λ _, example_answer) = Done r ∧ clock_at r = Some t ∧ code r = SYNC_OK.
Proof.
  destruct (update_correct (mk_conf (Some 25) None true 3) (λ _, example_answer) 25 0) as [_ H]; [reflexivity|reflexivity|done|].
  destruct (H 0%nat) as (t & r & Ht & Hr & [_ Hc] & _ & [_ Ho] & _); [lia|apply (bool_decide_unpack _); vm_compute; done|intros; lia|].
  exists t, r. split; [exact Ht|]. split; [exact Hr|]. split; [by apply Hc|]. apply Ho. split; [reflexivity|].
  assert (E : answer_time 0 25 0 example_answer = Done (mk_tv 1200000005 40098)) by (vm_compute; reflexivity).
  change (answer_time 0 25 0 example_answer = Done t) in Ht. rewrite E in Ht. injection Ht as <-. vm_compute. split; [discriminate|reflexivity].
Defined.
