(* ===== verification/Asf.v ===== *)
(** * The ASF stream

    What the recorder knows of the stream that the camera serves: the packed
    structures of [cgi2/pond/base/definition/asfparser.h] and the state machine of
    [smbc_rec.c] that finds the packets ([process_state], [process_asf_state]).
    Words are little-endian.  A buffer is the whole array; a pointer into it is an
    offset, and an access outside the array is a fault. *)

From S2P Require Import Prelude.

Local Open Scope Z_scope.

(** ** Structures

    A packed structure is the list of the sizes of its fields; bit fields that
    share a word are one field. *)

Definition sizeof (fields : list Z) : Z := fold_right Z.add 0 fields.
Definition offsetof (fields : list Z) (i : nat) : Z := sizeof (take i fields).

Definition ASF_HEADER : list Z := [16; 4; 4; 4; 1; 1].
Definition ASF_FILE_PROPERTY : list Z := [16; 4; 4; 16; 4; 4; 8; 4; 4; 4; 4; 4; 4; 8; 4; 4; 4; 4].
Definition ASF_VIDEO_MEDIA1 : list Z := [4; 4; 1; 1; 1].
Definition ASF_VIDEO_MEDIA2 : list Z := [4; 4; 4; 2; 2; 4; 4; 4; 4; 4; 4].
Definition ASF_MP4S_HEADER : list Z := [4; 4; 10].
Definition ASF_VIDEO_MEDIA : list Z := [sizeof ASF_VIDEO_MEDIA1; sizeof ASF_VIDEO_MEDIA2; sizeof ASF_MP4S_HEADER].
Definition ASF_VIDEO_STREAM_PROPERTY : list Z := [16; 4; 4; 16; 16; 8; 4; 4; 2; 4; sizeof ASF_VIDEO_MEDIA].
Definition ASF_AUDIO_STREAM_PROPERTY1 : list Z := [16; 4; 4; 16; 16; 8; 4; 4; 2; 4].
Definition ASF_AUDIO_STREAM_PROPERTY2 : list Z := [2; 2; 4; 4; 2; 2; 2].
Definition ASF_AUDIO_STREAM_PROPERTY3 : list Z := [1; 2; 2; 2; 1].
Definition ASF_HEADER_EXTENSION : list Z := [16; 4; 4; 16; 2; 4].
Definition ASF_DATA : list Z := [16; 4; 4; 16; 8; 2].
Definition PayloadFirstPacketHeader : list Z := [1; 1; 1; 4; 1; 4; 4; 2].
Definition PayloadOtherPacketHeader : list Z := [1; 1; 1; 4; 1; 2].
Definition ASF_ERROR_CORRECTION : list Z := [1; 1; 1].
Definition ASF_PAYLOAD_INFORMATION : list Z := [1; 1; 2; 4; 2].
Definition ASF_SAMPLE_INDEX_OBJECT : list Z := [16; 8; 16; 8; 4; 4].

Definition AV_HEADER_OBJECT_HEADER_SIZE : Z :=
  sizeof ASF_HEADER + sizeof ASF_FILE_PROPERTY + sizeof ASF_VIDEO_STREAM_PROPERTY + sizeof ASF_AUDIO_STREAM_PROPERTY1 +
  sizeof ASF_AUDIO_STREAM_PROPERTY2 + sizeof ASF_AUDIO_STREAM_PROPERTY3 + sizeof ASF_HEADER_EXTENSION.
Definition VIDEO_HEADER_OBJECT_HEADER_SIZE : Z :=
  sizeof ASF_HEADER + sizeof ASF_FILE_PROPERTY + sizeof ASF_VIDEO_STREAM_PROPERTY + sizeof ASF_HEADER_EXTENSION.
Definition DATA_OBJECT_HEADER_SIZE : Z := sizeof ASF_DATA.
Definition FIRST_PACKET_HEADER_SIZE : Z :=
  sizeof ASF_ERROR_CORRECTION + sizeof ASF_PAYLOAD_INFORMATION + sizeof PayloadFirstPacketHeader.
Definition OTHER_PACKET_HEADER_SIZE : Z :=
  sizeof ASF_ERROR_CORRECTION + sizeof ASF_PAYLOAD_INFORMATION + sizeof PayloadOtherPacketHeader.

Definition HEADER_BUF_SIZE : Z := AV_HEADER_OBJECT_HEADER_SIZE + DATA_OBJECT_HEADER_SIZE + 1.

(** The fields that the recorder reads. *)
Definition get16 (m : list Z) (i : Z) : exec Z :=
  b0 ← load m i; b1 ← load m (i + 1); Done (b0 + 2 ^ 8 * b1).
Definition get32 (m : list Z) (i : Z) : exec Z :=
  w0 ← get16 m i; w1 ← get16 m (i + 2); Done (w0 + 2 ^ 16 * w1).

Definition objectNum (m : list Z) (p : Z) : exec Z := get32 m (p + offsetof ASF_HEADER 3).
Definition payload (p : Z) : Z := p + sizeof ASF_PAYLOAD_INFORMATION + sizeof ASF_ERROR_CORRECTION.
Definition FrameSize (m : list Z) (p : Z) : exec Z := get32 m (payload p + offsetof PayloadFirstPacketHeader 5).
Definition PresentTime (m : list Z) (p : Z) : exec Z := get32 m (payload p + offsetof PayloadFirstPacketHeader 6).
Definition first_Len (m : list Z) (p : Z) : exec Z := get16 m (payload p + offsetof PayloadFirstPacketHeader 7).
Definition other_Len (m : list Z) (p : Z) : exec Z := get16 m (payload p + offsetof PayloadOtherPacketHeader 5).
Definition paddingLength (m : list Z) (p : Z) : exec Z :=
  get16 m (p + sizeof ASF_ERROR_CORRECTION + offsetof ASF_PAYLOAD_INFORMATION 2).

(** ** The state machine *)

Inductive smbc_state : Type := SMBC_STATE_HOH | SMBC_STATE_FPH | SMBC_STATE_OPH.

#[export] Instance smbc_state_eq_dec : EqDecision smbc_state.
Proof. solve_decision. Defined.

Record smbc_asf_ds : Type := mk_ds {
  state_size : Z; state : smbc_state; r_frame_size : Z;
  hoh_size : Z; packet_count : Z; done_offset : Z; prev_done_offset : Z;
  ds_PresentTime : Z; prev_PresentTime : Z;
  header_buf : list Z }.

(** [memset] to zero. *)
Definition ds_zero : smbc_asf_ds :=
  mk_ds 0 SMBC_STATE_HOH 0 0 0 0 0 0 0 (replicate (Z.to_nat HEADER_BUF_SIZE) 0).

Definition CHANGE_STATE (next_state : smbc_state) (next_state_size this_state_done_size : Z) (asf_ds : smbc_asf_ds) : Z * smbc_asf_ds :=
  (this_state_done_size,
   mk_ds next_state_size next_state (r_frame_size asf_ds) (hoh_size asf_ds) (s32 (packet_count asf_ds + 1))
     (s32 (done_offset asf_ds + this_state_done_size)) (done_offset asf_ds)
     (ds_PresentTime asf_ds) (prev_PresentTime asf_ds) (header_buf asf_ds)).

Definition set_header (hoh : Z) (hb : list Z) (d : smbc_asf_ds) : smbc_asf_ds :=
  mk_ds (state_size d) (state d) (r_frame_size d) hoh (packet_count d) (done_offset d) (prev_done_offset d)
    (ds_PresentTime d) (prev_PresentTime d) hb.

Definition set_first (rest time : Z) (d : smbc_asf_ds) : smbc_asf_ds :=
  mk_ds (state_size d) (state d) rest (hoh_size d) (packet_count d) (done_offset d) (prev_done_offset d)
    time (ds_PresentTime d) (header_buf d).

Definition set_rest (rest : Z) (d : smbc_asf_ds) : smbc_asf_ds :=
  mk_ds (state_size d) (state d) rest (hoh_size d) (packet_count d) (done_offset d) (prev_done_offset d)
    (ds_PresentTime d) (prev_PresentTime d) (header_buf d).

(** [m] is the array, [p] the offset of [buf] in it. *)
Definition process_state (m : list Z) (p buf_size : Z) (asf_ds : smbc_asf_ds) : exec (Z * smbc_asf_ds) :=
  if buf_size <? state_size asf_ds then Done (-1, asf_ds) else
  match state asf_ds with
  | SMBC_STATE_HOH =>
      n ← objectNum m p;
      let hoh := if n =? 4 then AV_HEADER_OBJECT_HEADER_SIZE else VIDEO_HEADER_OBJECT_HEADER_SIZE in
      src ← mread m p (hoh + DATA_OBJECT_HEADER_SIZE);
      hb ← memcpy (header_buf asf_ds) 0 src;
      Done (CHANGE_STATE SMBC_STATE_FPH FIRST_PACKET_HEADER_SIZE (hoh + DATA_OBJECT_HEADER_SIZE) (set_header hoh hb asf_ds))
  | SMBC_STATE_FPH =>
      size ← FrameSize m p;
      len ← first_Len m p;
      time ← PresentTime m p;
      let rest := s32 (s32 size - len) in
      let asf_ds := set_first rest (s32 time) asf_ds in
      if negb (rest =? 0)
      then Done (CHANGE_STATE SMBC_STATE_OPH OTHER_PACKET_HEADER_SIZE (len + FIRST_PACKET_HEADER_SIZE) asf_ds)
      else
        pad ← paddingLength m p;
        Done (CHANGE_STATE SMBC_STATE_FPH FIRST_PACKET_HEADER_SIZE (len + FIRST_PACKET_HEADER_SIZE + pad) asf_ds)
  | SMBC_STATE_OPH =>
      len ← other_Len m p;
      let rest := s32 (r_frame_size asf_ds - len) in
      let asf_ds := set_rest rest asf_ds in
      if negb (rest =? 0)
      then Done (CHANGE_STATE SMBC_STATE_OPH OTHER_PACKET_HEADER_SIZE (len + OTHER_PACKET_HEADER_SIZE) asf_ds)
      else
        pad ← paddingLength m p;
        Done (CHANGE_STATE SMBC_STATE_FPH FIRST_PACKET_HEADER_SIZE (len + OTHER_PACKET_HEADER_SIZE + pad) asf_ds)
  end.

(** The loop; out of fuel is a fault. *)
Fixpoint process_loop (fuel : nat) (m : list Z) (p buf_size total : Z) (asf_ds : smbc_asf_ds) : exec (Z * smbc_asf_ds) :=
  match fuel with
  | O => Fault
  | S fuel' =>
      if negb (0 <? buf_size) then Done (total, asf_ds) else
      '(done_size, asf_ds') ← process_state m p buf_size asf_ds;
      if done_size =? -1 then Done (total, asf_ds')
      else process_loop fuel' m (p + done_size) (buf_size - done_size) (total + done_size) asf_ds'
  end.

Definition process_asf_state (m : list Z) (p buf_size : Z) (asf_ds : smbc_asf_ds) : exec (Z * smbc_asf_ds) :=
  process_loop (S (Z.to_nat buf_size)) m p buf_size 0 asf_ds.

Example sizes : AV_HEADER_OBJECT_HEADER_SIZE = 431 ∧ VIDEO_HEADER_OBJECT_HEADER_SIZE = 327 ∧ DATA_OBJECT_HEADER_SIZE = 50 ∧
  FIRST_PACKET_HEADER_SIZE = 31 ∧ OTHER_PACKET_HEADER_SIZE = 23 ∧ sizeof ASF_VIDEO_STREAM_PROPERTY = 147 ∧ sizeof ASF_FILE_PROPERTY = 104.
Proof. done. Qed.
