(* ===== verification/AsfTheorems.v ===== *)
(** * Finding the packets

    The state machine of [Asf] without memory: [packet_step] gives the length of
    the unit at an offset and the state after it.  In a buffer that holds the
    header of a unit, [process_state] is that function; it looks at nothing but
    the header, and so it does not matter where in the buffer the header stands
    nor how the stream was cut. *)

From S2P Require Import Prelude Asf.

Local Open Scope Z_scope.

(** ** Words *)

Definition byte_at (m : list Z) (i : Z) : Z := nth (Z.to_nat i) m 0.
Definition rd16 (m : list Z) (i : Z) : Z := byte_at m i + 2 ^ 8 * byte_at m (i + 1).
Definition rd32 (m : list Z) (i : Z) : Z := rd16 m i + 2 ^ 16 * rd16 m (i + 2).

Lemma load_byte_at m i : 0 <= i < strlen m → load m i = Done (byte_at m i).
Proof.
  intros H. destruct (load_lookup m i H) as (b & Hb & ->). unfold byte_at. by rewrite (nth_lookup_Some _ _ _ _ Hb).
Qed.

Lemma get16_done m i : 0 <= i → i + 2 <= strlen m → get16 m i = Done (rd16 m i).
Proof. intros. unfold get16. rewrite !load_byte_at by lia. done. Qed.

Lemma get32_done m i : 0 <= i → i + 4 <= strlen m → get32 m i = Done (rd32 m i).
Proof. intros. unfold get32. rewrite !get16_done by lia. done. Qed.

Lemma byte_at_range m i : Forall is_byte m → 0 <= byte_at m i < 256.
Proof.
  intros Hm. unfold byte_at. destruct (nth_in_or_default (Z.to_nat i) m 0) as [H|E]; [|rewrite E; lia].
  rewrite Forall_forall in Hm. apply list_elem_of_In in H. by apply Hm in H.
Qed.

Lemma rd16_range m i : Forall is_byte m → 0 <= rd16 m i < 65536.
Proof. intros Hm. unfold rd16. pose proof (byte_at_range m i Hm). pose proof (byte_at_range m (i + 1) Hm). lia. Qed.

(** ** The step on the bytes *)

Definition header_size (m : list Z) (p : Z) : Z :=
  if rd32 m (p + 24) =? 4 then AV_HEADER_OBJECT_HEADER_SIZE else VIDEO_HEADER_OBJECT_HEADER_SIZE.

Definition packet_step (m : list Z) (p : Z) (d : smbc_asf_ds) : Z * smbc_asf_ds :=
  match state d with
  | SMBC_STATE_HOH =>
      let n := header_size m p + 50 in
      CHANGE_STATE SMBC_STATE_FPH 31 n
        (set_header (header_size m p) (take (Z.to_nat n) (drop (Z.to_nat p) m) ++ drop (Z.to_nat n) (header_buf d)) d)
  | SMBC_STATE_FPH =>
      let len := rd16 m (p + 29) in
      let rest := s32 (s32 (rd32 m (p + 21)) - len) in
      let d := set_first rest (s32 (rd32 m (p + 25))) d in
      if rest =? 0 then CHANGE_STATE SMBC_STATE_FPH 31 (len + 31 + rd16 m (p + 5)) d else CHANGE_STATE SMBC_STATE_OPH 23 (len + 31) d
  | SMBC_STATE_OPH =>
      let len := rd16 m (p + 21) in
      let rest := s32 (r_frame_size d - len) in
      let d := set_rest rest d in
      if rest =? 0 then CHANGE_STATE SMBC_STATE_FPH 31 (len + 23 + rd16 m (p + 5)) d else CHANGE_STATE SMBC_STATE_OPH 23 (len + 23) d
  end.

(** The states that occur. *)
Definition ds_ok (d : smbc_asf_ds) : Prop :=
  length (header_buf d) = 482%nat ∧ Forall is_byte (header_buf d) ∧ (hoh_size d = 0 ∨ hoh_size d = 327 ∨ hoh_size d = 431) ∧
  state_size d = match state d with SMBC_STATE_HOH => 0 | SMBC_STATE_FPH => 31 | SMBC_STATE_OPH => 23 end.

Lemma ds_zero_ok : ds_ok ds_zero.
Proof. split_and!; try done; [apply Forall_replicate; unfold is_byte; lia|by left]. Qed.

(** The bytes a step looks at. *)
Definition need (d : smbc_asf_ds) : Z :=
  match state d with SMBC_STATE_HOH => 481 | SMBC_STATE_FPH => 31 | SMBC_STATE_OPH => 23 end.

Lemma header_size_cases m p : header_size m p = 431 ∨ header_size m p = 327.
Proof. unfold header_size. case_match; [by left|by right]. Qed.

Lemma state_size_need d : ds_ok d → 0 <= state_size d <= need d.
Proof. intros (_ & _ & _ & H). unfold need. rewrite H. destruct (state d); lia. Qed.

Lemma process_state_step m p n d :
  ds_ok d → 0 <= p → p + need d <= strlen m → state_size d <= n → process_state m p n d = Done (packet_step m p d).
Proof.
  intros (Hl & _ & _ & Hs) Hp Hm Hn. unfold process_state, need in *. rewrite (proj2 (Z.ltb_ge _ _)) by lia.
  unfold objectNum, FrameSize, PresentTime, first_Len, other_Len, paddingLength, payload, packet_step, header_size.
  replace (p + sizeof ASF_PAYLOAD_INFORMATION + sizeof ASF_ERROR_CORRECTION) with (p + 13) by (cbn; lia).
  destruct (state d).
  - rewrite get32_done by (cbn; lia). cbn [mbind exec_bind]. change (offsetof ASF_HEADER 3) with 24.
    set (h := if _ =? 4 then _ else _). assert (Hh : h = 431 ∨ h = 327) by (unfold h; case_match; [by left|by right]).
    change DATA_OBJECT_HEADER_SIZE with 50. rewrite mread_done by lia. cbn [mbind exec_bind].
    set (src := take _ _). assert (Hsrc : length src = Z.to_nat (h + 50)) by (unfold src, strlen in *; rewrite length_take, length_drop; lia).
    rewrite memcpy_done by (unfold strlen; lia). cbn [mbind exec_bind]. change (Z.to_nat 0) with 0%nat. rewrite Hsrc. done.
  - change (offsetof PayloadFirstPacketHeader 5) with 8. change (offsetof PayloadFirstPacketHeader 6) with 12. change (offsetof PayloadFirstPacketHeader 7) with 16.
    rewrite !get32_done, !get16_done by (cbn; lia). cbn [mbind exec_bind]. rewrite <-!Z.add_assoc. cbn [Z.add Pos.add Pos.succ Pos.add_carry].
    destruct (_ =? 0); [|done]. cbn [negb]. done.
  - change (offsetof PayloadOtherPacketHeader 5) with 8. rewrite !get16_done by (cbn; lia). cbn [mbind exec_bind]. rewrite <-!Z.add_assoc. cbn [Z.add Pos.add Pos.succ Pos.add_carry].
    destruct (_ =? 0); [|done]. cbn [negb]. done.
Qed.

(** A step makes progress and keeps the states. *)
Lemma packet_step_ok m p d : Forall is_byte m → 0 <= p → ds_ok d → (state d = SMBC_STATE_HOH → p + 481 <= strlen m) →
  23 <= (packet_step m p d).1 <= 131101 ∧ ds_ok (packet_step m p d).2 ∧ state (packet_step m p d).2 ≠ SMBC_STATE_HOH.
Proof.
  intros Hm Hp (Hl & Hy & Ho & Hs) Hh. unfold packet_step, ds_ok. pose proof (rd16_range m (p + 5) Hm). pose proof (rd16_range m (p + 21) Hm). pose proof (rd16_range m (p + 29) Hm).
  destruct (state d).
  - specialize (Hh eq_refl). unfold strlen in Hh. destruct (header_size_cases m p) as [E|E]; rewrite E; cbn;
      (split; [lia|]; split; [|done]; split_and!; [rewrite length_app, length_take, !length_drop; lia|apply Forall_app; split; [by apply Forall_take, Forall_drop|by apply Forall_drop]|lia|done]).
  - destruct (_ =? 0); cbn; (split; [lia|]; done).
  - destruct (_ =? 0); cbn; (split; [lia|]; done).
Qed.

(** ** Spans of bytes *)

Definition span (m : list Z) (p n : Z) : list Z := take (Z.to_nat n) (drop (Z.to_nat p) m).

Lemma byte_at_span m p n i : 0 <= p → 0 <= i < n → byte_at m (p + i) = nth (Z.to_nat i) (span m p n) 0.
Proof.
  intros Hp Hi. unfold byte_at, span. rewrite !nth_lookup, lookup_take_lt, lookup_drop by lia. do 2 f_equal. lia.
Qed.

Lemma span_shift m p n b q k : 0 <= p → 0 <= q → 0 <= k → span m p n = span b q n → span m (p + k) (n - k) = span b (q + k) (n - k).
Proof.
  intros Hp Hq Hk H. unfold span in *. rewrite !Z2Nat.inj_add, <-!drop_drop, Z2Nat.inj_sub by done.
  rewrite <-!skipn_firstn_comm, H. done.
Qed.

Lemma span_prefix m p n b q k : 0 <= k <= n → span m p n = span b q n → span m p k = span b q k.
Proof.
  intros Hk H. unfold span in *. replace (Z.to_nat k) with (Z.to_nat k `min` Z.to_nat n)%nat by lia. by rewrite <-!take_take, H.
Qed.

Lemma rd16_span m p n b q i : 0 <= p → 0 <= q → 0 <= i → i + 2 <= n → span m p n = span b q n → rd16 m (p + i) = rd16 b (q + i).
Proof.
  intros ???? H. unfold rd16. rewrite <-!Z.add_assoc, !(byte_at_span m p n), !(byte_at_span b q n), H by lia. done.
Qed.

Lemma rd32_span m p n b q i : 0 <= p → 0 <= q → 0 <= i → i + 4 <= n → span m p n = span b q n → rd32 m (p + i) = rd32 b (q + i).
Proof.
  intros ???? H. unfold rd32. rewrite <-!Z.add_assoc, !(rd16_span m p n b q) by (done || lia). done.
Qed.

Lemma packet_step_span m p b q d : 0 <= p → 0 <= q → span m p (need d) = span b q (need d) → packet_step m p d = packet_step b q d.
Proof.
  unfold need, packet_step. intros Hp Hq H. destruct (state d).
  - assert (E : header_size m p = header_size b q) by (unfold header_size; by rewrite (rd32_span m p 481 b q) by (done || lia)).
    rewrite E. pose proof (span_prefix m p 481 b q (header_size b q + 50)) as W. unfold span in W.
    rewrite W; [done| |done]. destruct (header_size_cases b q) as [E0|E0]; rewrite E0; lia.
  - rewrite !(rd16_span m p 31 b q), !(rd32_span m p 31 b q) by (done || lia). done.
  - rewrite !(rd16_span m p 23 b q) by (done || lia). done.
Qed.

(** ** Walking along the stream

    [walk b T] goes from one place in the stream [b] to a later one, over units
    whose headers lie within its first [T] bytes. *)

Inductive walk (b : list Z) (T : Z) : Z → smbc_asf_ds → Z → smbc_asf_ds → Prop :=
| walk_here q d : walk b T q d q d
| walk_step q d q' d' :
    q < T → q + state_size d <= T →
    walk b T (q + (packet_step b q d).1) (packet_step b q d).2 q' d' → walk b T q d q' d'.

#[export] Hint Constructors walk : core.

(** Nothing more to see. *)
Definition settled (T q : Z) (d : smbc_asf_ds) : Prop := T <= q ∨ T < q + state_size d.

Lemma walk_trans b T q d q1 d1 q2 d2 : walk b T q d q1 d1 → walk b T q1 d1 q2 d2 → walk b T q d q2 d2.
Proof. induction 1; eauto. Qed.

Lemma walk_mono b T T' q d q' d' : T <= T' → walk b T q d q' d' → walk b T' q d q' d'.
Proof. intros HT. induction 1; [done|]. eapply walk_step; [lia|lia|done]. Qed.

Lemma walk_settled_det b T q d q1 d1 q2 d2 :
  walk b T q d q1 d1 → settled T q1 d1 → walk b T q d q2 d2 → settled T q2 d2 → q1 = q2 ∧ d1 = d2.
Proof.
  unfold settled. induction 1 as [q d|q d q1 d1 H1 H2 W1 IH]; intros S1 W2 S2.
  - inversion W2 as [|? ? ? ? ? ? W]; subst; [done|lia].
  - inversion W2 as [|? ? ? ? ? ? W]; subst; [lia|]. by apply IH.
Qed.

Lemma walk_ok b T q d q' d' : Forall is_byte b → walk b T q d q' d' → 0 <= q → ds_ok d → (state d = SMBC_STATE_HOH → q + 481 <= strlen b) →
  q <= q' ∧ ds_ok d' ∧ (state d' = SMBC_STATE_HOH → q' = q ∧ d' = d).
Proof.
  intros Hb. induction 1 as [q d|q d q' d' H1 H2 W IH]; intros Hq Hd Hh; [split; [lia|done]|].
  destruct (packet_step_ok b q d Hb Hq Hd Hh) as (P1 & P2 & P3).
  destruct IH as (I1 & I2 & I3); [lia|done|done|]. split; [lia|]. split; [done|]. intros E. destruct (I3 E) as [_ E2]. by rewrite E2 in E.
Qed.

(** The loop over a buffer that holds the [n] bytes of the stream from [q] on. *)
Lemma process_loop_walk fuel m p n tot b q d :
  Forall is_byte m → 0 <= p → (0 < n → p + n <= strlen m) → 0 <= q → ds_ok d → span m p n = span b q n →
  (state d = SMBC_STATE_HOH → 481 <= n) → (Z.to_nat n < fuel)%nat →
  ∃ q' d', process_loop fuel m p n tot d = Done (tot + (q' - q), d') ∧ walk b (q + n) q d q' d' ∧ settled (q + n) q' d'.
Proof.
  intros Hm. revert p n tot q d. induction fuel as [|fuel IH]; intros p n tot q d Hp Hn Hq Hd Hw Hh Hf; [lia|]. cbn [process_loop].
  destruct (Z.ltb_spec 0 n) as [Hpos|Hneg]; cbn [negb].
  2: { exists q, d. rewrite Z.sub_diag, Z.add_0_r. split; [done|]. split; [done|]. left. lia. }
  specialize (Hn Hpos). destruct (Z_lt_dec n (state_size d)) as [Hs|Hs].
  { unfold process_state. rewrite (proj2 (Z.ltb_lt _ _)) by done. exists q, d. rewrite Z.sub_diag, Z.add_0_r. split; [done|]. split; [done|]. right. lia. }
  assert (Hneed : need d <= n) by (destruct Hd as (_ & _ & _ & Hd); unfold need; destruct (state d); [by apply Hh|lia..]).
  assert (Wn : span m p (need d) = span b q (need d)) by (apply (span_prefix m p n); [unfold need in *; destruct (state d); lia|done]).
  rewrite process_state_step by (done || lia). cbn [mbind exec_bind].
  rewrite (packet_step_span m p b q d Hp Hq Wn).
  assert (HstepR : 23 <= (packet_step b q d).1 ∧ ds_ok (packet_step b q d).2 ∧ state (packet_step b q d).2 ≠ SMBC_STATE_HOH).
  { rewrite <-(packet_step_span m p b q d Hp Hq Wn).
    destruct (packet_step_ok m p d Hm Hp Hd) as (R1 & R2 & R3); [intros E; specialize (Hh E); lia|]. split; [lia|done]. }
  assert (Hs' : q + state_size d <= q + n) by lia.
  pose proof (walk_step b (q + n) q d) as Wstep. destruct (packet_step b q d) as [k d1]. cbn [fst snd] in *. destruct HstepR as (R1 & R2 & R3).
  rewrite (proj2 (Z.eqb_neq k (-1))) by lia.
  destruct (IH (p + k) (n - k) (tot + k) (q + k) d1) as (q' & d' & E & W & S); try done; try lia.
  { apply span_shift; (done || lia). }
  replace (q + k + (n - k)) with (q + n) in * by lia.
  exists q', d'. split; [rewrite E; do 2 f_equal; lia|]. split; [|done]. apply Wstep; [lia|done|done].
Qed.

(** The loop over any buffer stays inside it and ends, also when the first unit is
    cut short, provided its bytes lie in the array. *)
Lemma process_loop_safe fuel m p n tot d :
  Forall is_byte m → 0 <= p → (0 < n → p + n <= strlen m) → ds_ok d → (state d = SMBC_STATE_HOH → p + 481 <= strlen m) → (Z.to_nat n < fuel)%nat →
  ∃ k d', process_loop fuel m p n tot d = Done (tot + k, d') ∧ 0 <= k ∧ ds_ok d' ∧ (0 < n ∨ state d ≠ SMBC_STATE_HOH → state d' ≠ SMBC_STATE_HOH).
Proof.
  intros Hm. revert p n tot d. induction fuel as [|fuel IH]; intros p n tot d Hp Hn Hd Hh Hf; [lia|]. cbn [process_loop].
  destruct (Z.ltb_spec 0 n) as [Hpos|Hneg]; cbn [negb]; [|exists 0, d; rewrite Z.add_0_r; split_and!; (done || (intros [?|?]; (lia || done)))].
  specialize (Hn Hpos). pose proof Hd as (_ & _ & _ & Hsz). destruct (Z_lt_dec n (state_size d)) as [Hs|Hs].
  { unfold process_state. rewrite (proj2 (Z.ltb_lt _ _)) by done. exists 0, d. rewrite Z.add_0_r. split_and!; try done. intros _ E. rewrite E in Hsz. lia. }
  rewrite process_state_step by (try done; unfold need; destruct (state d); (lia || by apply Hh)). cbn [mbind exec_bind].
  destruct (packet_step_ok m p d Hm Hp Hd Hh) as (R1 & R2 & R3). destruct (packet_step m p d) as [k d1]. cbn [fst snd] in *.
  rewrite (proj2 (Z.eqb_neq k (-1))) by lia.
  destruct (IH (p + k) (n - k) (tot + k) d1) as (k' & d' & E & H1 & H2 & H3); try done; try lia.
  exists (k + k'), d'. rewrite E. split; [do 2 f_equal; lia|]. split; [lia|]. split; [done|]. intros _. apply H3. by right.
Qed.
