(* ===== verification/AsfFrames.v ===== *)
(** * Frames

    The syntax of the stream: a header, and frames that are cut into packets.  The
    first packet of a frame tells the size and the time of the frame, the last one
    may be padded.  The state machine of [Asf] follows every stream of this form. *)

From S2P Require Import Prelude Blocks Asf AsfTheorems.

Local Open Scope Z_scope.

(** A packet: the bytes before the padding length, those behind it, its share of
    the frame, and the padding. *)
Record piece : Type := mk_piece { pc_pre : list Z; pc_mid : list Z; pc_data : list Z; pc_pad : list Z }.
Record frame : Type := mk_frame { fr_time : Z; fr_first : piece; fr_rest : list piece }.

Definition encode_first (size time : Z) (p : piece) : list Z :=
  pc_pre p ++ le_bytes 2 (strlen (pc_pad p)) ++ pc_mid p ++ le_bytes 4 size ++ le_bytes 4 time ++ le_bytes 2 (strlen (pc_data p)) ++ pc_data p ++ pc_pad p.
Definition encode_other (p : piece) : list Z :=
  pc_pre p ++ le_bytes 2 (strlen (pc_pad p)) ++ pc_mid p ++ le_bytes 2 (strlen (pc_data p)) ++ pc_data p ++ pc_pad p.

Definition data_size (ps : list piece) : Z := strlen (concat (map pc_data ps)).
Definition frame_size (f : frame) : Z := data_size (fr_first f :: fr_rest f).
Definition encode_rest (ps : list piece) : list Z := concat (map encode_other ps).
Definition encode_frame (f : frame) : list Z := encode_first (frame_size f) (fr_time f) (fr_first f) ++ encode_rest (fr_rest f).
Definition encode (fs : list frame) : list Z := concat (map encode_frame fs).

Definition piece_ok (p : piece) : Prop :=
  length (pc_pre p) = 5%nat ∧ length (pc_mid p) = 14%nat ∧ strlen (pc_data p) < 65536 ∧ strlen (pc_pad p) < 65536.

(** Only the last packet is padded, and the later ones are not empty. *)
Fixpoint rest_ok (ps : list piece) : Prop :=
  match ps with
  | [] => True
  | p :: ps' => piece_ok p ∧ pc_data p ≠ [] ∧ (ps' ≠ [] → pc_pad p = []) ∧ rest_ok ps'
  end.

Definition frame_ok (f : frame) : Prop :=
  piece_ok (fr_first f) ∧ (fr_rest f ≠ [] → pc_pad (fr_first f) = []) ∧ rest_ok (fr_rest f) ∧ frame_size f < 2 ^ 31 ∧ 0 <= fr_time f < 2 ^ 31.

Definition packets (f : frame) : Z := 1 + Z.of_nat (length (fr_rest f)).

(** ** Fields where they stand *)

Lemma byte_at_app (a c : list Z) i : 0 <= i → byte_at (a ++ c) (strlen a + i) = byte_at c i.
Proof. intros. unfold byte_at, strlen. rewrite app_nth2 by lia. f_equal. lia. Qed.

Lemma rd16_at (l a c : list Z) v i : l = a ++ le_bytes 2 v ++ c → strlen a = i → 0 <= v < 65536 → rd16 l i = v.
Proof.
  intros -> <- Hv. unfold rd16. rewrite <-(Z.add_0_r (strlen a)) at 1. rewrite !byte_at_app by lia. unfold byte_at. change (Z.to_nat 0) with 0%nat. change (Z.to_nat 1) with 1%nat. cbn [le_bytes app nth]. zdm.
Qed.

Lemma rd32_at (l a c : list Z) v i : l = a ++ le_bytes 4 v ++ c → strlen a = i → 0 <= v < 2 ^ 32 → rd32 l i = v.
Proof.
  intros -> <- Hv. unfold rd32. assert (E : le_bytes 4 v = le_bytes 2 (v mod 65536) ++ le_bytes 2 (v / 65536)).
  { cbn [le_bytes app]. rewrite !Z.div_div by lia. assert (v mod 256 = (v mod 65536) mod 256 ∧ (v / 256) mod 256 = (v mod 65536 / 256) mod 256) as [<- <-] by (split; zdm). done. }
  rewrite (rd16_at _ a (le_bytes 2 (v / 65536) ++ c) (v mod 65536)), (rd16_at _ (a ++ le_bytes 2 (v mod 65536)) c (v / 65536)); try zdm; try done;
    [rewrite E, <-!app_assoc; done|rewrite strlen_app; done|rewrite E, <-!app_assoc; done].
Qed.

Lemma span_of (b l r : list Z) q n : 0 <= q → drop (Z.to_nat q) b = l ++ r → 0 <= n <= strlen l → span b q n = span l 0 n.
Proof. intros Hq Hd Hn. unfold span. rewrite Hd, drop_0, take_app_le; [done|]. unfold strlen in Hn. lia. Qed.

(** ** A packet *)

Lemma strlen_first size time p : piece_ok p → strlen (encode_first size time p) = 31 + strlen (pc_data p) + strlen (pc_pad p).
Proof. intros (H1 & H2 & _). unfold encode_first. unfold strlen. rewrite !length_app, !le_bytes_length, H1, H2. lia. Qed.

Lemma strlen_other p : piece_ok p → strlen (encode_other p) = 23 + strlen (pc_data p) + strlen (pc_pad p).
Proof. intros (H1 & H2 & _). unfold encode_other. unfold strlen. rewrite !length_app, !le_bytes_length, H1, H2. lia. Qed.

Lemma strlen_nonneg (l : list Z) : 0 <= strlen l.
Proof. unfold strlen. lia. Qed.

Lemma first_fields b q size time p r : 0 <= q → drop (Z.to_nat q) b = encode_first size time p ++ r → piece_ok p → 0 <= size < 2 ^ 31 → 0 <= time < 2 ^ 31 →
  rd16 b (q + 29) = strlen (pc_data p) ∧ rd32 b (q + 21) = size ∧ rd32 b (q + 25) = time ∧ rd16 b (q + 5) = strlen (pc_pad p).
Proof.
  intros Hq Hd Hp Hs Ht. pose proof (strlen_first size time p Hp) as Hl. pose proof Hp as (H1 & H2 & H3 & H4). pose proof (strlen_nonneg (pc_data p)). pose proof (strlen_nonneg (pc_pad p)).
  assert (W : span b q 31 = span (encode_first size time p) 0 31) by (eapply span_of; [done|done|lia]).
  rewrite !(rd16_span b q 31 (encode_first size time p) 0), !(rd32_span b q 31 (encode_first size time p) 0) by (done || lia). rewrite !Z.add_0_l. unfold encode_first.
  set (e := _ ++ _). assert (He : e = pc_pre p ++ le_bytes 2 (strlen (pc_pad p)) ++ pc_mid p ++ le_bytes 4 size ++ le_bytes 4 time ++ le_bytes 2 (strlen (pc_data p)) ++ pc_data p ++ pc_pad p) by done.
  split_and!.
  - apply (rd16_at e (pc_pre p ++ le_bytes 2 (strlen (pc_pad p)) ++ pc_mid p ++ le_bytes 4 size ++ le_bytes 4 time) (pc_data p ++ pc_pad p)); [rewrite He, <-!app_assoc; done| |lia].
    unfold strlen. rewrite !length_app, !le_bytes_length. lia.
  - apply (rd32_at e (pc_pre p ++ le_bytes 2 (strlen (pc_pad p)) ++ pc_mid p) (le_bytes 4 time ++ le_bytes 2 (strlen (pc_data p)) ++ pc_data p ++ pc_pad p)); [rewrite He, <-!app_assoc; done| |lia].
    unfold strlen. rewrite !length_app, !le_bytes_length. lia.
  - apply (rd32_at e (pc_pre p ++ le_bytes 2 (strlen (pc_pad p)) ++ pc_mid p ++ le_bytes 4 size) (le_bytes 2 (strlen (pc_data p)) ++ pc_data p ++ pc_pad p)); [rewrite He, <-!app_assoc; done| |lia].
    unfold strlen. rewrite !length_app, !le_bytes_length. lia.
  - apply (rd16_at e (pc_pre p) (pc_mid p ++ le_bytes 4 size ++ le_bytes 4 time ++ le_bytes 2 (strlen (pc_data p)) ++ pc_data p ++ pc_pad p)); [done|unfold strlen; lia|lia].
Qed.

Lemma other_fields b q p r : 0 <= q → drop (Z.to_nat q) b = encode_other p ++ r → piece_ok p →
  rd16 b (q + 21) = strlen (pc_data p) ∧ rd16 b (q + 5) = strlen (pc_pad p).
Proof.
  intros Hq Hd Hp. pose proof (strlen_other p Hp) as Hl. pose proof Hp as (H1 & H2 & H3 & H4). pose proof (strlen_nonneg (pc_data p)). pose proof (strlen_nonneg (pc_pad p)).
  assert (W : span b q 23 = span (encode_other p) 0 23) by (eapply span_of; [done|done|lia]).
  rewrite !(rd16_span b q 23 (encode_other p) 0) by (done || lia). rewrite !Z.add_0_l. split.
  - apply (rd16_at _ (pc_pre p ++ le_bytes 2 (strlen (pc_pad p)) ++ pc_mid p) (pc_data p ++ pc_pad p)); [unfold encode_other; rewrite <-!app_assoc; done| |lia].
    unfold strlen. rewrite !length_app, !le_bytes_length. lia.
  - apply (rd16_at _ (pc_pre p) (pc_mid p ++ le_bytes 2 (strlen (pc_data p)) ++ pc_data p ++ pc_pad p)); [done|unfold strlen; lia|lia].
Qed.

(** ** Walking over frames *)

Lemma data_size_cons p ps : data_size (p :: ps) = strlen (pc_data p) + data_size ps.
Proof. unfold data_size. cbn. by rewrite strlen_app. Qed.

Lemma data_size_pos ps : rest_ok ps → 0 <= data_size ps ∧ (data_size ps = 0 → ps = []).
Proof.
  destruct ps as [|p ps]; [done|]. intros (_ & Hn & _). rewrite data_size_cons. pose proof (strlen_nonneg (concat (map pc_data ps))) as H. fold (data_size ps) in H.
  destruct (pc_data p); [done|]. unfold strlen. cbn [length]. split; lia.
Qed.

(** Between two frames, at the offset [q]. *)
Definition at_frame (q : Z) (d : smbc_asf_ds) : Prop := state d = SMBC_STATE_FPH ∧ state_size d = 31 ∧ done_offset d = q.

Definition same_header (d d' : smbc_asf_ds) : Prop := hoh_size d' = hoh_size d ∧ header_buf d' = header_buf d.

Lemma walk_rest b T ps q d r :
  rest_ok ps → ps ≠ [] → state d = SMBC_STATE_OPH → state_size d = 23 → r_frame_size d = data_size ps → data_size ps < 2 ^ 31 → done_offset d = q → 0 <= q →
  drop (Z.to_nat q) b = encode_rest ps ++ r → q + strlen (encode_rest ps) <= T → q + strlen (encode_rest ps) < 2 ^ 31 →
  0 <= packet_count d → packet_count d + Z.of_nat (length ps) < 2 ^ 31 →
  ∃ d', walk b T q d (q + strlen (encode_rest ps)) d' ∧ at_frame (q + strlen (encode_rest ps)) d' ∧ packet_count d' = packet_count d + Z.of_nat (length ps) ∧
    ds_PresentTime d' = ds_PresentTime d ∧ prev_PresentTime d' = prev_PresentTime d ∧ same_header d d'.
Proof.
  revert q d. induction ps as [|p ps IH]; intros q d Hok Hne Hst Hsz Hr Hds Hq Hq0 Hd HT Hlim Hc0 Hc; [done|]. destruct Hok as (Hp & Hn & Hpad & Hok).
  unfold encode_rest in Hd, HT, Hlim |- *. cbn [map concat] in *. fold (encode_rest ps) in *. rewrite <-app_assoc in Hd. rewrite strlen_app in *.
  pose proof (strlen_other p Hp) as Hl. destruct (other_fields b q p _ Hq0 Hd Hp) as [F1 F2]. rewrite data_size_cons in Hr, Hds. destruct (data_size_pos ps Hok) as [Hz Hz'].
  pose proof (strlen_nonneg (pc_data p)). pose proof (strlen_nonneg (pc_pad p)). pose proof (strlen_nonneg (encode_rest ps)). cbn [length] in *.
  assert (Hstep : packet_step b q d = if data_size ps =? 0 then CHANGE_STATE SMBC_STATE_FPH 31 (strlen (pc_data p) + 23 + strlen (pc_pad p)) (set_rest 0 d)
      else CHANGE_STATE SMBC_STATE_OPH 23 (strlen (pc_data p) + 23) (set_rest (data_size ps) d)).
  { unfold packet_step. rewrite Hst, F1, F2, Hr, s32_id by lia. replace (strlen (pc_data p) + data_size ps - strlen (pc_data p)) with (data_size ps) by lia.
    destruct (Z.eqb_spec (data_size ps) 0) as [->|]; done. }
  pose proof (walk_step b T q d) as Wstep. rewrite Hstep in Wstep. clear Hstep. destruct (Z.eqb_spec (data_size ps) 0) as [E|E].
  - rewrite (Hz' E) in *. change (encode_rest []) with (@nil Z) in *. change (strlen []) with 0 in *. cbn [CHANGE_STATE fst snd length] in *.
    eexists. split; [apply Wstep; [lia|lia|]|].
    + replace (q + (strlen (encode_other p) + 0)) with (q + (strlen (pc_data p) + 23 + strlen (pc_pad p))) by lia. apply walk_here.
    + cbn. rewrite !s32_id by lia. split; [split_and!; (done || cbn; lia)|]. done.
  - assert (Hps : ps ≠ []) by (intros ->; by cbn in E). rewrite (Hpad Hps) in *. change (strlen []) with 0 in *. cbn [CHANGE_STATE fst snd] in *.
    set (d1 := mk_ds _ _ _ _ _ _ _ _ _ _) in Wstep.
    destruct (IH (q + (strlen (pc_data p) + 23)) d1) as (d' & W & A & C & P1 & P2 & S); try done; try lia.
    + cbn. rewrite s32_id by lia. lia.
    + rewrite Z2Nat.inj_add, <-drop_drop, Hd by lia. rewrite drop_app_length' by (unfold strlen in *; lia). done.
    + cbn. rewrite s32_id by lia. lia.
    + cbn. rewrite s32_id by lia. lia.
    + exists d'. replace (q + (strlen (encode_other p) + strlen (encode_rest ps))) with (q + (strlen (pc_data p) + 23) + strlen (encode_rest ps)) by lia.
      split; [apply Wstep; [lia|lia|done]|]. split; [done|]. cbn in C. rewrite s32_id in C by lia. split; [lia|]. done.
Qed.

Lemma first_step b q d size time p r :
  state d = SMBC_STATE_FPH → 0 <= q → drop (Z.to_nat q) b = encode_first size time p ++ r → piece_ok p → strlen (pc_data p) <= size < 2 ^ 31 → 0 <= time < 2 ^ 31 →
  packet_step b q d =
    let d := set_first (size - strlen (pc_data p)) time d in
    if size - strlen (pc_data p) =? 0 then CHANGE_STATE SMBC_STATE_FPH 31 (strlen (pc_data p) + 31 + strlen (pc_pad p)) d
    else CHANGE_STATE SMBC_STATE_OPH 23 (strlen (pc_data p) + 31) d.
Proof.
  intros Hst Hq Hd Hp Hs Ht. pose proof (strlen_nonneg (pc_data p)). destruct (first_fields b q size time p r) as (F1 & F2 & F3 & F4); try done; [lia|].
  unfold packet_step. rewrite Hst, F1, F2, F3, F4, !s32_id by (rewrite ?s32_id; lia). done.
Qed.

Lemma strlen_frame f : frame_ok f → 31 <= strlen (encode_frame f).
Proof.
  intros (Hp & _). unfold encode_frame. rewrite strlen_app, strlen_first by done.
  pose proof (strlen_nonneg (pc_data (fr_first f))). pose proof (strlen_nonneg (pc_pad (fr_first f))). pose proof (strlen_nonneg (encode_rest (fr_rest f))). lia.
Qed.

Lemma walk_frame b T f q d r :
  frame_ok f → at_frame q d → 0 <= q → drop (Z.to_nat q) b = encode_frame f ++ r →
  q + strlen (encode_frame f) <= T → q + strlen (encode_frame f) < 2 ^ 31 → 0 <= packet_count d → packet_count d + packets f < 2 ^ 31 →
  ∃ d', walk b T q d (q + strlen (encode_frame f)) d' ∧ at_frame (q + strlen (encode_frame f)) d' ∧ packet_count d' = packet_count d + packets f ∧
    ds_PresentTime d' = fr_time f ∧ prev_PresentTime d' = ds_PresentTime d ∧ same_header d d'.
Proof.
  intros Hok (Hst & Hsz & Hdo) Hq Hd HT Hlim Hc0 Hc. pose proof Hok as (Hp & Hpad & Hrest & Hfs & Htm). pose proof (strlen_frame f Hok) as H31.
  unfold encode_frame, packets in *. rewrite strlen_app, strlen_first in * by done. rewrite <-app_assoc in Hd.
  set (p := fr_first f) in *. set (ps := fr_rest f) in *. destruct (data_size_pos ps Hrest) as [Hz Hz'].
  assert (Hfz : frame_size f = strlen (pc_data p) + data_size ps) by (unfold frame_size; apply data_size_cons).
  pose proof (strlen_nonneg (pc_data p)). pose proof (strlen_nonneg (pc_pad p)). pose proof (strlen_nonneg (encode_rest ps)).
  pose proof (walk_step b T q d) as Wstep. rewrite (first_step b q d (frame_size f) (fr_time f) p _ Hst Hq Hd Hp ltac:(lia) Htm) in Wstep. cbv zeta in Wstep.
  replace (frame_size f - strlen (pc_data p)) with (data_size ps) in Wstep by lia. destruct (Z.eqb_spec (data_size ps) 0) as [E|E].
  - rewrite (Hz' E) in *. change (encode_rest []) with (@nil Z) in *. change (strlen []) with 0 in *. cbn [CHANGE_STATE fst snd length] in *.
    eexists. split; [apply Wstep; [lia|lia|]|].
    + replace (q + (31 + strlen (pc_data p) + strlen (pc_pad p) + 0)) with (q + (strlen (pc_data p) + 31 + strlen (pc_pad p))) by lia. apply walk_here.
    + cbn. rewrite !s32_id by lia. split; [split_and!; (done || cbn; lia)|]. done.
  - assert (Hps : ps ≠ []) by (intros E'; rewrite E' in E; by cbn in E). rewrite (Hpad Hps) in *. change (strlen []) with 0 in *. cbn [CHANGE_STATE fst snd] in *.
    set (d1 := mk_ds _ _ _ _ _ _ _ _ _ _) in Wstep.
    destruct (walk_rest b T ps (q + (strlen (pc_data p) + 31)) d1 r) as (d' & W & A & C & P1 & P2 & S); try done; try lia.
    + cbn. rewrite s32_id by lia. lia.
    + rewrite Z2Nat.inj_add, <-drop_drop, Hd by lia. rewrite drop_app_length'; [done|]. pose proof (strlen_first (frame_size f) (fr_time f) p Hp) as L. rewrite (Hpad Hps) in L. unfold strlen in *. cbn [length] in L. lia.
    + cbn. rewrite s32_id by lia. lia.
    + cbn. rewrite s32_id by lia. lia.
    + exists d'. replace (q + (31 + strlen (pc_data p) + 0 + strlen (encode_rest ps))) with (q + (strlen (pc_data p) + 31) + strlen (encode_rest ps)) by lia.
      split; [apply Wstep; [lia|lia|done]|]. split; [done|]. cbn in C. rewrite s32_id in C by lia. split; [lia|]. done.
Qed.

Lemma last_cons (a x : Z) (l : list Z) : List.last (a :: l) x = List.last l a.
Proof. revert a x. induction l as [|c l IH]; intros a x; [done|]. change (List.last (c :: l) x = List.last (c :: l) a). by rewrite !IH. Qed.

Definition total_packets (fs : list frame) : Z := fold_right (λ f n, packets f + n) 0 fs.

Lemma total_packets_nonneg fs : 0 <= total_packets fs.
Proof. induction fs as [|f fs IH]; [done|]. cbn. fold (total_packets fs). unfold packets. lia. Qed.

Lemma rest_length ps : rest_ok ps → Z.of_nat (length ps) <= strlen (encode_rest ps).
Proof.
  induction ps as [|p ps IH]; [done|]. intros (Hp & _ & _ & Hr). unfold encode_rest. cbn [map concat length]. fold (encode_rest ps). rewrite strlen_app, strlen_other by done.
  pose proof (strlen_nonneg (pc_data p)). pose proof (strlen_nonneg (pc_pad p)). specialize (IH Hr). lia.
Qed.

Lemma total_packets_le fs : Forall frame_ok fs → total_packets fs <= strlen (encode fs).
Proof.
  induction 1 as [|f fs Hf _ IH]; [done|]. unfold encode. cbn [map concat total_packets fold_right]. fold (total_packets fs) (encode fs). rewrite strlen_app.
  pose proof Hf as (Hp & _ & Hr & _). unfold packets, encode_frame. rewrite strlen_app, strlen_first by done. pose proof (rest_length _ Hr).
  pose proof (strlen_nonneg (pc_data (fr_first f))). pose proof (strlen_nonneg (pc_pad (fr_first f))). lia.
Qed.

Lemma walk_frames b T fs q d r :
  Forall frame_ok fs → at_frame q d → 0 <= q → drop (Z.to_nat q) b = encode fs ++ r →
  q + strlen (encode fs) <= T → q + strlen (encode fs) < 2 ^ 31 → 0 <= packet_count d → packet_count d + total_packets fs < 2 ^ 31 →
  ∃ d', walk b T q d (q + strlen (encode fs)) d' ∧ at_frame (q + strlen (encode fs)) d' ∧ packet_count d' = packet_count d + total_packets fs ∧
    ds_PresentTime d' = List.last (map fr_time fs) (ds_PresentTime d) ∧ same_header d d'.
Proof.
  revert q d. induction fs as [|f fs IH]; intros q d Hok Hat Hq Hd HT Hlim Hc0 Hc.
  { exists d. change (strlen (encode [])) with 0. rewrite Z.add_0_r. split; [apply walk_here|]. split; [done|]. split; [cbn; lia|]. done. }
  inversion Hok as [|? ? Hf Hfs]; subst. unfold encode in *. cbn [map concat total_packets fold_right] in *. fold (encode fs) in *. fold (total_packets fs) in *.
  rewrite strlen_app in *. rewrite <-app_assoc in Hd. pose proof (strlen_nonneg (encode fs)). pose proof (total_packets_nonneg fs).
  destruct (walk_frame b T f q d (encode fs ++ r)) as (d1 & W1 & A1 & C1 & P1 & _ & S1); try done; try lia.
  assert (Hpk : 0 <= packets f) by (unfold packets; lia). pose proof (strlen_frame f Hf).
  destruct (IH (q + strlen (encode_frame f)) d1) as (d2 & W2 & A2 & C2 & P2 & S2); try done; try lia.
  { rewrite Z2Nat.inj_add, <-drop_drop, Hd by lia. rewrite drop_app_length'; [done|]. unfold strlen. lia. }
  exists d2. rewrite Z.add_assoc. split; [by eapply walk_trans|]. split; [done|]. split; [lia|]. split; [|unfold same_header in *; destruct S1, S2; split; congruence].
  rewrite P2, P1. symmetry. apply last_cons.
Qed.

(** ** A stream *)

(** The header of a stream, which tells its own size. *)
Definition header_ok (h : list Z) : Prop := strlen h = header_size h 0 + 50 ∧ Forall is_byte h.

Lemma header_step b h r : b = h ++ r → header_ok h → 481 <= strlen b →
  packet_step b 0 ds_zero =
    (strlen h, mk_ds 31 SMBC_STATE_FPH 0 (strlen h - 50) 1 (strlen h) 0 0 0 (h ++ drop (length h) (header_buf ds_zero))).
Proof.
  intros -> [Hl Hb] Hs. assert (E : header_size (h ++ r) 0 = header_size h 0).
  { unfold header_size. assert (E : rd32 (h ++ r) (0 + 24) = rd32 h (0 + 24)); [|by rewrite E]. apply (rd32_span _ 0 28 _ 0); try lia. unfold span. change (Z.to_nat 0) with 0%nat.
    rewrite !drop_0, take_app_le; [done|]. destruct (header_size_cases h 0); unfold strlen in Hl; lia. }
  unfold packet_step. cbn [state ds_zero]. rewrite E, <-Hl. change (Z.to_nat 0) with 0%nat. rewrite drop_0.
  replace (Z.to_nat (strlen h)) with (length h) by (unfold strlen; lia). rewrite take_app_length. unfold CHANGE_STATE, set_header. cbn [packet_count done_offset ds_zero r_frame_size hoh_size ds_PresentTime prev_PresentTime header_buf].
  rewrite !s32_id by (destruct (header_size_cases h 0); lia). repeat f_equal; lia.
Qed.

(** The state machine on a stream that is cut in the first packet of a frame,
    behind the header of the packet: it has seen the whole frames before it and
    that one packet. *)
Lemma walk_stream h fs g r b T :
  header_ok h → Forall frame_ok fs → frame_ok g → Forall is_byte b → b = h ++ encode fs ++ encode_frame g ++ r →
  let L := strlen h + strlen (encode fs) in
  L + 31 <= T → 481 <= T → T <= L + 31 + strlen (pc_data (fr_first g)) → strlen b < 2 ^ 31 → T <= strlen b → total_packets fs < 2 ^ 30 →
  ∃ q d, walk b T 0 ds_zero q d ∧ settled T q d ∧ ds_ok d ∧ state d ≠ SMBC_STATE_HOH ∧
    prev_done_offset d = L ∧ packet_count d = total_packets fs + 2 ∧ hoh_size d = strlen h - 50 ∧
    prev_PresentTime d = List.last (map fr_time fs) 0 ∧ take (length h) (header_buf d) = h.
Proof.
  intros Hh Hfs Hg Hby Hb L HT1 HT2 HT3 Hs31 HTb Hcnt. pose proof (header_step b h _ Hb Hh ltac:(lia)) as H0. pose proof (strlen_nonneg (encode fs)). pose proof (total_packets_nonneg fs).
  assert (Hh0 : 377 <= strlen h) by (destruct Hh as [Hh _]; destruct (header_size_cases h 0); lia).
  pose proof (strlen_frame g Hg). assert (HLb : L + 31 < 2 ^ 31) by lia.
  set (d0 := mk_ds 31 SMBC_STATE_FPH 0 (strlen h - 50) 1 (strlen h) 0 0 0 _) in H0.
  destruct (walk_frames b T fs (strlen h) d0 (encode_frame g ++ r)) as (d1 & W1 & (A1 & A2 & A3) & C1 & P1 & [S1 S2]); try done; try lia.
  { subst b. unfold strlen. by rewrite Nat2Z.id, drop_app_length. }
  { cbn. lia. }
  fold L in W1, A3. pose proof Hg as (Hp & Hpad & Hrest & Hgs & Hgt). pose proof (data_size_pos _ Hrest) as [Hz _]. pose proof (strlen_nonneg (pc_data (fr_first g))). pose proof (strlen_nonneg (pc_pad (fr_first g))).
  assert (Hgz : frame_size g = strlen (pc_data (fr_first g)) + data_size (fr_rest g)) by (unfold frame_size; apply data_size_cons).
  assert (Hdr : drop (Z.to_nat L) b = encode_first (frame_size g) (fr_time g) (fr_first g) ++ encode_rest (fr_rest g) ++ r).
  { subst b. unfold L. rewrite Z2Nat.inj_add, <-drop_drop by lia. unfold strlen. rewrite !Nat2Z.id, !drop_app_length. unfold encode_frame. by rewrite <-app_assoc. }
  pose proof (first_step b L d1 (frame_size g) (fr_time g) (fr_first g) _ A1 ltac:(lia) Hdr Hp ltac:(lia) Hgt) as Hstep.
  assert (W0 : walk b T 0 ds_zero L d1) by (apply walk_step; [lia|cbn; lia|rewrite H0; done]).
  set (q2 := L + (packet_step b L d1).1). set (d2 := (packet_step b L d1).2).
  assert (W2 : walk b T 0 ds_zero q2 d2) by (eapply walk_trans; [exact W0|]; apply walk_step; [lia|lia|apply walk_here]).
  destruct (walk_ok _ _ _ _ _ _ Hby W2 ltac:(lia) ds_zero_ok ltac:(lia)) as (_ & Hok2 & Hst2).
  exists q2, d2. split; [done|].
  assert (F : T <= q2 ∧ prev_done_offset d2 = L ∧ packet_count d2 = total_packets fs + 2 ∧ state d2 ≠ SMBC_STATE_HOH ∧
    hoh_size d2 = hoh_size d1 ∧ prev_PresentTime d2 = ds_PresentTime d1 ∧ header_buf d2 = header_buf d1).
  { unfold q2, d2. rewrite Hstep. cbv zeta. cbn in C1. destruct (_ =? 0); cbn; rewrite A3, C1, (s32_id (1 + total_packets fs + 1)) by lia; split_and!; (done || lia). }
  destruct F as (F1 & F2 & F3 & F4 & F5 & F6 & F7). split; [by left|]. split; [done|]. split; [done|]. split; [done|]. split; [done|].
  split; [by rewrite F5, S1|]. split; [by rewrite F6, P1|]. rewrite F7, S2. cbn. apply take_app_length.
Qed.
