(* ===== verification/Recorder.v ===== *)
(** * The recorder

    [cgi2/app/smbc_rec/smbc_rec.c]: it takes the stream of the camera from the
    streaming server and writes it to a file of a Samba server, file after file,
    and at the end of each turns the live stream into a file that can be
    positioned in.  [Asf] has the state machine that finds the packets.

    The feed outside: the stream is the list of the bytes that the streaming
    server sends, and a [turn] of the main loop says whether a signal has come, how
    many bytes there are to read ([-1] for an error) and how many the Samba server
    takes.  A file is its bytes and the position in it. *)

From S2P Require Import Prelude Blocks Asf Clock.

Local Open Scope Z_scope.
Local Abbreviation str := (list Z).

(** ** Files *)

Record ofile : Type := mk_ofile { contents : list Z; position : Z }.

(** Bytes written over what is there; a gap is filled with zeros. *)
Definition overwrite (l : list Z) (p : nat) (d : list Z) : list Z :=
  take p (l ++ replicate p 0) ++ d ++ drop (p + length d) l.

(** [n] bytes are offered and [room] are taken; an error is [-1]. *)
Definition smbc_write (f : ofile) (d : list Z) (room : Z) : Z * ofile :=
  if room <? 0 then (-1, f) else
  let n := Z.min (strlen d) room in
  (n, mk_ofile (overwrite (contents f) (Z.to_nat (position f)) (take (Z.to_nat n) d)) (position f + n)).

Definition smbc_lseek (f : ofile) (p : Z) : ofile := mk_ofile (contents f) p.

(** ** Reading *)

Definition SMBC_BUF_SIZE : Z := 2048.

(** [read] of [count] bytes to the offset [pos] of the array; a negative count is a
    huge one, a fault. *)
Definition read (m : list Z) (pos count avail : Z) (stream : list Z) : exec (Z * list Z * list Z) :=
  if count <? 0 then Fault
  else if avail <? 0 then Done (-1, m, stream)
  else
    let n := Z.min (Z.min count avail) (strlen stream) in
    m' ← memcpy m pos (take (Z.to_nat n) stream);
    Done (n, m', drop (Z.to_nat n) stream).

(** [strstr (s, "\r\n\r\n")]: the offset. *)
Fixpoint find_blank (s : str) (i : Z) : option Z :=
  match s with
  | [] => None
  | _ :: s' => if bool_decide (take 4 s = [13; 10; 13; 10]) then Some i else find_blank s' (i + 1)
  end.

(** [-1], or the number of bytes behind the header, which are moved to the front. *)
Definition skip_http_header (m : list Z) (avail : Z) (stream : list Z) : exec (Z * list Z * list Z) :=
  '(ret, m, stream) ← read m 0 128 avail stream;
  if ret =? -1 then Done (-1, m, stream) else
  m ← store m ret 0;
  match find_blank (c_str m) 0 with
  | None => Done (-1, m, stream)
  | Some i =>
      let p := i + 4 in
      let buf_size := ret - p in
      rest ← mread m p buf_size;
      m ← memcpy m 0 rest;
      Done (buf_size, m, stream)
  end.

(** ** The end of a file *)

Definition put32 (m : list Z) (i v : Z) : exec (list Z) := memcpy m i (le_bytes 4 (u32 v)).

Definition fp (i : nat) : Z := sizeof ASF_HEADER + offsetof ASF_FILE_PROPERTY i.

Definition index_object : list Z :=
  [0x90; 0x08; 0x00; 0x33; 0xB1; 0xE5; 0xCF; 0x11; 0x89; 0xF4; 0x00; 0xA0; 0xC9; 0x03; 0x49; 0xCB] ++
  le_bytes 8 (sizeof ASF_SAMPLE_INDEX_OBJECT) ++
  [0x01; 0xC0; 0xBA; 0xBA; 0x72; 0x2B; 0x07; 0xA9; 0xA8; 0xF9; 0x74; 0x23; 0xE9; 0x00; 0x6C; 0xD9] ++
  le_bytes 8 10000000 ++ le_bytes 4 0 ++ le_bytes 4 0.

(** The assignments to the header. *)
Definition patch_header (ds : smbc_asf_ds) : exec (list Z) :=
  let dp i := hoh_size ds + offsetof ASF_DATA i in
  let hb := header_buf ds in
  flags ← load hb (fp 14);
  hb ← store hb (fp 14) (Z.land flags 0xFE);
  flags ← load hb (fp 14);
  hb ← store hb (fp 14) (Z.lor flags 2);
  hb ← put32 hb (fp 4) (prev_done_offset ds);
  hb ← put32 hb (fp 9) (prev_PresentTime ds * 10000);
  hb ← put32 hb (fp 10) 0;
  hb ← put32 hb (fp 11) (prev_PresentTime ds * 10000);
  hb ← put32 hb (fp 12) 0;
  hb ← put32 hb (fp 7) (packet_count ds - 1);
  fileLen ← get32 hb (fp 4);
  hb ← put32 hb (dp 1%nat) (fileLen - hoh_size ds);
  hb ← put32 hb (dp 2%nat) 0;
  memcpy hb (dp 4%nat) (le_bytes 8 (packet_count ds - 1)).

(** The results of the two writes are not looked at; [room1] and [room2] are what
    the server takes. *)
Definition make_it_seekable (f : ofile) (ds : smbc_asf_ds) (room1 room2 : Z) : exec ofile :=
  hb ← patch_header ds;
  let f := smbc_lseek f 0 in
  d ← mread hb 0 (hoh_size ds + sizeof ASF_DATA);
  let '(_, f) := smbc_write f d room1 in
  fileLen ← get32 hb (fp 4);
  let f := smbc_lseek f fileLen in
  let '(_, f) := smbc_write f index_object room2 in
  Done f.

(** ** Copying *)

Record turn : Type := mk_turn { stop_now : bool; avail : Z; room : Z }.

(** The variables of [send_asf], with the file and the rest of the stream. *)
Record copy : Type := mk_copy {
  buf : list Z; buf_size : Z; done_size : Z; asf_ds : smbc_asf_ds; asf_max_size : Z; out : ofile; stream : list Z }.

(** Where a turn leads. *)
Inductive turned : Type := Next (c : copy) | Errout (c : copy).

Definition read_count (c : copy) : Z :=
  if SMBC_BUF_SIZE <? asf_max_size c then SMBC_BUF_SIZE - buf_size c else asf_max_size c - buf_size c.

(** After a read: the packets are looked for, and what is known to belong to them
    is written. *)
Definition process_and_send (c : copy) (rm : Z) : exec turned :=
  '(done, ds) ← (if done_size c <? buf_size c
                 then '(n, ds) ← process_asf_state (buf c) (done_size c) (buf_size c - done_size c) (asf_ds c);
                      Done (done_size c + n, ds)
                 else Done (done_size c, asf_ds c));
  d ← mread (buf c) 0 (if buf_size c <? done then buf_size c else done);
  let '(ret, f) := smbc_write (out c) d rm in
  if (ret =? -1) || (ret =? 0)
  then Done (Errout (mk_copy (buf c) (buf_size c) done ds (asf_max_size c) f (stream c)))
  else
    let size := buf_size c - ret in
    m ← (if negb (size =? 0) then rest ← mread (buf c) ret size; memcpy (buf c) 0 rest else Done (buf c));
    Done (Next (mk_copy m size (done - ret) ds (asf_max_size c - ret) f (stream c))).

Definition one_turn (t : turn) (c : copy) : exec turned :=
  '(ret, m, rest) ← read (buf c) (buf_size c) (read_count c) (avail t) (stream c);
  if (ret =? -1) || (ret =? 0) then Done (Errout (mk_copy m (buf_size c) (done_size c) (asf_ds c) (asf_max_size c) (out c) rest))
  else process_and_send (mk_copy m (buf_size c + ret) (done_size c) (asf_ds c) (asf_max_size c) (out c) rest) (room t).

(** How the loop ends: with an error code, or waiting for more turns. *)
Inductive loop_end : Type := Ended (errcode : Z) (c : copy) | Waiting (c : copy).

Fixpoint copy_loop (ts : list turn) (c : copy) : exec loop_end :=
  if negb (0 <? asf_max_size c) then Done (Ended 0 c) else
  match ts with
  | [] => Done (Waiting c)
  | t :: ts' =>
      if stop_now t then Done (Ended 0 c) else
      r ← one_turn t c;
      match r with Next c' => copy_loop ts' c' | Errout c' => Done (Ended (-1) c') end
  end.

(** What a recording meets: the bytes on the stack, the stream, the bytes of the
    first read, the turns, and the last two writes. *)
Record feed : Type := mk_feed {
  stack : list Z; served : list Z; first_avail : Z; turns : list turn; room1 : Z; room2 : Z }.

(** The error code and the file; [None] while it waits. *)
Definition send_asf (w : feed) (max_size : Z) : exec (option (Z * ofile)) :=
  '(n, m, rest) ← skip_http_header (stack w) (first_avail w) (served w);
  let c := mk_copy m n 0 ds_zero max_size (mk_ofile [] 0) rest in
  e ← (if n =? -1 then Done (Ended (-1) c) else copy_loop (turns w) c);
  match e with
  | Waiting _ => Done None
  | Ended errcode c => f ← make_it_seekable (out c) (asf_ds c) (room1 w) (room2 w); Done (Some (errcode, f))
  end.
