(* ===== verification/RecorderTheorems.v ===== *)
(** * What a recording guarantees

    No stream makes the recorder leave its buffers, and a recording ends; the file
    is the stream, cut at the size that is asked for, however the stream arrives;
    the packets that are counted do not depend on how it arrives either; and what
    the end of a recording writes into the header. *)

From S2P Require Import Prelude Blocks Asf AsfTheorems Recorder.

Local Open Scope Z_scope.

(** ** Memory *)

Lemma memcpy_bytes m i s m' : Forall is_byte m → Forall is_byte s → memcpy m i s = Done m' → Forall is_byte m' ∧ length m' = length m.
Proof.
  unfold memcpy. intros Hm Hs. destruct (_ && _) eqn:E; [|done]. apply andb_prop in E as [E1%Z.leb_le E2%Z.leb_le]. intros [= <-].
  split; [|rewrite !length_app, length_take, length_drop; lia].
  apply Forall_app; split; [by apply Forall_take|]. apply Forall_app; split; [done|by apply Forall_drop].
Qed.

Lemma read_ok m pos count av s : Forall is_byte m → Forall is_byte s → 0 <= pos → 0 <= count → pos + count <= strlen m →
  ∃ n m', read m pos count av s = Done (n, m', if n =? -1 then s else drop (Z.to_nat n) s) ∧ Forall is_byte m' ∧ length m' = length m ∧
    (n = -1 ∧ m' = m ∨ 0 <= n <= count ∧ n <= strlen s ∧ m' = take (Z.to_nat pos) m ++ take (Z.to_nat n) s ++ drop (Z.to_nat pos + Z.to_nat n) m).
Proof.
  intros Hm Hs Hp Hc Hl. unfold read. rewrite (proj2 (Z.ltb_ge _ _)) by done. destruct (Z.ltb_spec av 0); [exists (-1), m; split_and!; try done; by left|].
  set (n := Z.min _ _). assert (0 <= n <= count ∧ n <= strlen s) as [Hn Hn'] by (unfold n, strlen; lia).
  assert (Ht : length (take (Z.to_nat n) s) = Z.to_nat n) by (rewrite length_take; unfold strlen in *; lia).
  rewrite memcpy_done by (unfold strlen in *; rewrite ?Ht; lia). cbn [mbind exec_bind]. rewrite Ht. exists n. eexists. split; [rewrite (proj2 (Z.eqb_neq n (-1))) by lia; done|].
  split_and!.
  - apply Forall_app; split; [by apply Forall_take|]. apply Forall_app; split; [by apply Forall_take|by apply Forall_drop].
  - rewrite !length_app, length_drop, Ht, length_take. unfold strlen in *. lia.
  - right. done.
Qed.

Lemma mread_bytes m i n d : Forall is_byte m → mread m i n = Done d → Forall is_byte d ∧ strlen d = n ∧ 0 <= i ∧ i + n <= strlen m.
Proof.
  unfold mread. intros Hm. destruct (_ && _) eqn:E; [|done]. apply andb_prop in E as [[E1%Z.leb_le E2%Z.leb_le]%andb_prop E3%Z.leb_le]. intros [= <-].
  split; [by apply Forall_take, Forall_drop|]. unfold strlen. rewrite length_take, length_drop. lia.
Qed.

(** ** The HTTP header *)

Lemma find_blank_bound s i k : find_blank s i = Some k → i <= k ∧ k + 4 <= i + strlen s.
Proof.
  revert i. induction s as [|x s IH]; intros i; [done|]. cbn [find_blank]. case_bool_decide as H.
  - intros [= <-]. split; [lia|]. apply (f_equal length) in H. rewrite length_take in H. cbn [length] in H. unfold strlen. cbn [length]. lia.
  - intros E%IH. unfold strlen in *. cbn [length]. lia.
Qed.

Lemma c_str_short m i : 0 <= i < strlen m → strlen (c_str (<[Z.to_nat i := 0]> m)) <= i.
Proof.
  intros Hi. replace i with (Z.of_nat (Z.to_nat i)) at 2 by lia. assert (Hl : (Z.to_nat i < length m)%nat) by (unfold strlen in Hi; lia).
  clear Hi. revert Hl. generalize (Z.to_nat i) as j. clear i. induction m as [|x m IH]; intros j Hl; [cbn in Hl; lia|].
  destruct j as [|j]; [unfold strlen; cbn; lia|]. change (c_str (<[S j := 0]> (x :: m))) with (if x =? 0 then [] else x :: c_str (<[j := 0]> m)).
  cbn [length] in Hl. destruct (x =? 0); [unfold strlen; cbn [length]; lia|]. specialize (IH j ltac:(lia)). unfold strlen in *. cbn [length]. lia.
Qed.

Lemma skip_ok m av s : length m = 2049%nat → Forall is_byte m → Forall is_byte s →
  ∃ n m' s', skip_http_header m av s = Done (n, m', s') ∧ length m' = 2049%nat ∧ Forall is_byte m' ∧ Forall is_byte s' ∧ (n = -1 ∨ 0 <= n <= 124).
Proof.
  intros Hl Hm Hs. unfold skip_http_header. destruct (read_ok m 0 128 av s) as (n & m1 & -> & Hm1 & Hl1 & Hn); try done; [unfold strlen; lia|]. cbn [mbind exec_bind].
  destruct Hn as [[-> ->]|(Hn & Hs1 & _)]; [cbn; exists (-1), m, s; split_and!; try done; by left|].
  rewrite (proj2 (Z.eqb_neq n (-1))) by lia. assert (Hs' : Forall is_byte (drop (Z.to_nat n) s)) by by apply Forall_drop.
  rewrite store_done by lia. cbn [mbind exec_bind]. pose proof (c_str_short m1 n ltac:(unfold strlen; lia)) as Hc.
  assert (Hm2 : Forall is_byte (<[Z.to_nat n := 0]> m1)) by (apply Forall_insert; [done|unfold is_byte; lia]).
  assert (Hl2 : length (<[Z.to_nat n := 0]> m1) = 2049%nat) by (rewrite length_insert; lia).
  generalize dependent (<[Z.to_nat n := 0]> m1). intros m2 Hc Hm2 Hl2. destruct (find_blank (c_str m2) 0) as [i|] eqn:E; [|exists (-1), m2; eexists; split_and!; try done; by left].
  apply find_blank_bound in E as [Ei1 Ei2]. rewrite mread_done by (unfold strlen in *; lia). cbn [mbind exec_bind].
  set (d := take _ _). assert (Hd : strlen d = n - (i + 4)) by (unfold d, strlen in *; rewrite length_take, length_drop; lia).
  assert (Hd2 : Forall is_byte d) by (by apply Forall_take, Forall_drop).
  destruct (memcpy m2 0 d) as [m3|] eqn:E3; [|rewrite memcpy_done in E3 by (unfold strlen in *; lia); done].
  destruct (memcpy_bytes _ _ _ _ Hm2 Hd2 E3) as [Hm3 Hl3]. cbn [mbind exec_bind]. exists (n - (i + 4)), m3. eexists. split_and!; try done; [lia|]. right. lia.
Qed.

(** ** A turn *)

(** What holds between the turns. *)
Record good (c : copy) : Prop := {
  good_len : length (buf c) = 2049%nat;
  good_buf : Forall is_byte (buf c);
  good_stream : Forall is_byte (stream c);
  good_size : 0 <= buf_size c <= 2048;
  good_max : buf_size c <= asf_max_size c;
  good_done : 0 <= done_size c;
  good_ds : ds_ok (asf_ds c);
  good_first : state (asf_ds c) = SMBC_STATE_HOH → done_size c = 0;
  good_pos : position (out c) = strlen (contents (out c)) }.

(** The stream as a whole: what is in the file, in the buffer and still to come. *)
Definition carried (c : copy) : list Z := contents (out c) ++ span (buf c) 0 (buf_size c) ++ stream c.

(** The size that was asked for. *)
Definition wanted (c : copy) : Z := asf_max_size c + strlen (contents (out c)).

Lemma overwrite_end l d : overwrite l (Z.to_nat (strlen l)) d = l ++ d.
Proof.
  unfold overwrite, strlen. rewrite Nat2Z.id, take_app_length, drop_ge by lia. by rewrite app_nil_r.
Qed.

Lemma span_split m n k : 0 <= k <= n → n <= strlen m → span m 0 n = span m 0 k ++ span m k (n - k).
Proof.
  intros Hk Hn. unfold span. change (Z.to_nat 0) with 0%nat. rewrite !drop_0. rewrite <-(take_drop (Z.to_nat k) (take (Z.to_nat n) m)) at 1.
  rewrite take_take, skipn_firstn_comm. repeat f_equal; lia.
Qed.

Lemma span_length m p n : 0 <= p → 0 <= n → p + n <= strlen m → strlen (span m p n) = n.
Proof. intros. unfold span, strlen in *. rewrite length_take, length_drop. lia. Qed.

(** The file after a write of the first bytes of the buffer. *)
Lemma write_spec f m n rm : position f = strlen (contents f) → 0 <= n <= strlen m →
  let ret := (smbc_write f (span m 0 n) rm).1 in
  let f' := (smbc_write f (span m 0 n) rm).2 in
  (ret = -1 ∨ 0 <= ret <= n) ∧ position f' = strlen (contents f') ∧
  contents f' = contents f ++ span m 0 (if ret =? -1 then 0 else ret).
Proof.
  intros Hp Hn. unfold smbc_write. pose proof (span_length m 0 n ltac:(lia) ltac:(lia) ltac:(lia)) as Hw.
  destruct (Z.ltb_spec rm 0); cbn [fst snd].
  - split; [by left|]. split; [done|]. unfold span. cbn. by rewrite app_nil_r.
  - rewrite Hw. set (r := Z.min n rm). assert (0 <= r <= n) by lia. rewrite (proj2 (Z.eqb_neq r (-1))) by lia. cbn [contents position].
    split; [by right|]. rewrite Hp, overwrite_end. assert (E : take (Z.to_nat r) (span m 0 n) = span m 0 r) by (unfold span; rewrite take_take; f_equal; lia).
    rewrite E. split; [|done]. rewrite strlen_app, span_length by lia. done.
Qed.

Lemma drop_span m r n : 0 <= r → 0 <= n → r + n <= strlen m → length m = 2049%nat → Forall is_byte m →
  ∃ m', (if negb (n =? 0) then rest ← mread m r n; memcpy m 0 rest else Done m) = Done m' ∧
    length m' = 2049%nat ∧ Forall is_byte m' ∧ span m' 0 n = span m r n.
Proof.
  intros Hr Hn Hl Hm Hb. destruct (Z.eqb_spec n 0) as [->|Hz]; cbn [negb]; [exists m; done|].
  rewrite mread_done by done. fold (span m r n). cbn [mbind exec_bind]. pose proof (span_length m r n Hr Hn Hl) as Hw. unfold strlen in *.
  rewrite memcpy_done by (unfold strlen; lia). eexists. split; [done|]. change (Z.to_nat 0) with 0%nat. rewrite firstn_O, app_nil_l, Nat.add_0_l. split_and!.
  - rewrite length_app, length_drop. lia.
  - apply Forall_app; split; [by apply Forall_take, Forall_drop|by apply Forall_drop].
  - unfold span at 1. change (Z.to_nat 0) with 0%nat. rewrite drop_0. replace (Z.to_nat n) with (length (span m r n)) by lia. by rewrite take_app_length.
Qed.

(** The packets that a turn finds. *)
Definition found (c : copy) : exec (Z * smbc_asf_ds) :=
  if done_size c <? buf_size c
  then '(n, ds) ← process_asf_state (buf c) (done_size c) (buf_size c - done_size c) (asf_ds c); Done (done_size c + n, ds)
  else Done (done_size c, asf_ds c).

Lemma found_ok c : good c → 0 < buf_size c →
  ∃ dn ds, found c = Done (dn, ds) ∧ done_size c <= dn ∧ ds_ok ds ∧ state ds ≠ SMBC_STATE_HOH.
Proof.
  intros [Hl Hb Hs Hz Hm Hd Hk Hf Hp] Hn. unfold found. destruct (Z.ltb_spec (done_size c) (buf_size c)) as [E|E].
  - unfold process_asf_state. destruct (process_loop_safe (S (Z.to_nat (buf_size c - done_size c))) (buf c) (done_size c) (buf_size c - done_size c) 0 (asf_ds c))
      as (k & d' & -> & H1 & H2 & H3); try done; try (unfold strlen; lia); [intros E'; rewrite (Hf E'); unfold strlen; lia|].
    cbn [mbind exec_bind]. exists (done_size c + k), d'. split; [do 2 f_equal; lia|]. split; [lia|]. split; [done|]. apply H3. left. lia.
  - exists (done_size c), (asf_ds c). split_and!; try done; try lia. intros E'. specialize (Hf E'). lia.
Qed.

Lemma send_ok c rm dn ds : good c → 0 < buf_size c → found c = Done (dn, ds) → done_size c <= dn → ds_ok ds → state ds ≠ SMBC_STATE_HOH →
  ∃ r, process_and_send c rm = Done r ∧
    match r with
    | Errout c' => asf_ds c' = ds ∧ carried c' = carried c ∧ wanted c' = wanted c ∧ position (out c') = strlen (contents (out c')) ∧
        buf_size c' = buf_size c ∧ done_size c' = dn ∧ contents (out c') = contents (out c)
    | Next c' => good c' ∧ asf_ds c' = ds ∧ carried c' = carried c ∧ wanted c' = wanted c ∧ asf_max_size c' < asf_max_size c ∧ stream c' = stream c ∧
        strlen (contents (out c')) + buf_size c' = strlen (contents (out c)) + buf_size c ∧
        strlen (contents (out c')) + done_size c' = strlen (contents (out c)) + dn
    end.
Proof.
  intros [Hl Hb Hs Hz Hm Hd Hk Hf Hp] Hn Hfound Hdn Hds Hst. unfold process_and_send. fold (found c). rewrite Hfound. cbn [mbind exec_bind].
  set (n := if buf_size c <? dn then _ else _). assert (Hn' : 0 <= n ∧ n <= buf_size c ∧ n <= dn) by (unfold n; destruct (Z.ltb_spec (buf_size c) dn); lia).
  rewrite mread_done by (unfold strlen; lia). fold (span (buf c) 0 n). cbn [mbind exec_bind].
  pose proof (write_spec (out c) (buf c) n rm Hp ltac:(unfold strlen; lia)) as Hw. destruct (smbc_write (out c) (span (buf c) 0 n) rm) as [ret f].
  cbn [fst snd] in Hw. destruct Hw as (Hr & Hpf & Hcf). unfold carried, wanted.
  destruct (Z.eqb_spec ret (-1)) as [->|Hr1]; [|destruct (Z.eqb_spec ret 0) as [->|Hr0]]; cbn [orb].
  - eexists. split; [done|]. cbn. assert (E : contents f = contents (out c)) by (rewrite Hcf; unfold span; cbn; by rewrite app_nil_r). by rewrite E in Hpf |- *.
  - eexists. split; [done|]. cbn. assert (E : contents f = contents (out c)) by (rewrite Hcf; unfold span; cbn; by rewrite app_nil_r). by rewrite E in Hpf |- *.
  - destruct Hr as [?|Hr]; [lia|].
    destruct (drop_span (buf c) ret (buf_size c - ret)) as (m' & -> & Hm1 & Hm2 & Hm3); try done; try (unfold strlen; lia). cbn [mbind exec_bind].
    eexists. split; [done|]. cbn. assert (Hw1 : strlen (contents f) = strlen (contents (out c)) + ret) by (rewrite Hcf, strlen_app, span_length; unfold strlen; lia).
    split_and!; try done; try lia.
    + split; cbn; try done; try lia; try (intros E; by rewrite E in Hst).
    + rewrite Hcf, Hm3, <-app_assoc. f_equal. rewrite app_assoc, <-span_split by (unfold strlen; lia). done.
Qed.

(** After the read. *)
Lemma read_turn t c : good c → 0 < asf_max_size c →
  ∃ n m s, read (buf c) (buf_size c) (read_count c) (avail t) (stream c) = Done (n, m, s) ∧
    let c1 := mk_copy m (buf_size c + n) (done_size c) (asf_ds c) (asf_max_size c) (out c) s in
    if (n =? -1) || (n =? 0) then m = buf c ∧ s = stream c
    else 0 < n ∧ good c1 ∧ carried c1 = carried c.
Proof.
  intros [Hl Hb Hs Hz Hm Hd Hk Hf Hp] Hpos.
  assert (Hc : 0 <= read_count c ∧ buf_size c + read_count c <= 2048 ∧ buf_size c + read_count c <= asf_max_size c)
    by (unfold read_count; change SMBC_BUF_SIZE with 2048; destruct (Z.ltb_spec 2048 (asf_max_size c)); lia).
  destruct (read_ok (buf c) (buf_size c) (read_count c) (avail t) (stream c)) as (n & m & -> & Hm1 & Hm2 & Hn); try done; try (unfold strlen; lia).
  exists n, m. eexists. split; [done|]. destruct Hn as [[-> ->]|(Hn & Hn' & ->)]; [done|].
  rewrite (proj2 (Z.eqb_neq n (-1))) by lia. cbn [orb]. destruct (Z.eqb_spec n 0) as [->|Hz'].
  - split; [|done]. change (Z.to_nat 0) with 0%nat. rewrite firstn_O, app_nil_l, Nat.add_0_r. apply take_drop.
  - split; [lia|]. split; [split; cbn; try done; try lia; by apply Forall_drop|].
    unfold carried. cbn. f_equal. set (m' := take _ _ ++ _ ++ _) in *. assert (L : length (take (Z.to_nat (buf_size c)) (buf c)) = Z.to_nat (buf_size c)) by (rewrite length_take; lia).
    assert (L2 : length (take (Z.to_nat n) (stream c)) = Z.to_nat n) by (rewrite length_take; unfold strlen in *; lia).
    assert (E : span m' 0 (buf_size c + n) = span (buf c) 0 (buf_size c) ++ take (Z.to_nat n) (stream c)).
    { unfold span, m'. change (Z.to_nat 0) with 0%nat. rewrite !drop_0, Z2Nat.inj_add by lia. rewrite app_assoc, take_app_length' by (rewrite length_app; lia). done. }
    rewrite E, <-app_assoc, take_drop. done.
Qed.

(** What is known of the packets once [n] bytes have been looked at. *)
Definition tracked (b : list Z) (n q : Z) (ds : smbc_asf_ds) : Prop :=
  walk b n 0 ds_zero q ds ∧ settled n q ds ∧ ds_ok ds ∧ state ds ≠ SMBC_STATE_HOH.

(** Before the first turn. *)
Definition fresh (c : copy) : Prop := asf_ds c = ds_zero ∧ done_size c = 0 ∧ contents (out c) = [].

Definition seen (c : copy) : Z := strlen (contents (out c)) + buf_size c.

Lemma found_tracked c dn ds n0 :
  good c → 0 < buf_size c → found c = Done (dn, ds) →
  fresh c ∧ 481 <= buf_size c ∨ n0 <= seen c ∧ tracked (carried c) n0 (strlen (contents (out c)) + done_size c) (asf_ds c) →
  tracked (carried c) (seen c) (strlen (contents (out c)) + dn) ds.
Proof.
  intros G Hn Hfound Hc. destruct (found_ok c G Hn) as (dn' & ds' & Hf' & _ & Hds & Hst). rewrite Hfound in Hf'. injection Hf' as <- <-.
  destruct G as [Hl Hb Hs Hz Hm Hd Hk Hf Hp]. set (pos := strlen (contents (out c))) in *. assert (0 <= pos) by (unfold pos, strlen; lia).
  assert (W0 : walk (carried c) (seen c) 0 ds_zero (pos + done_size c) (asf_ds c)).
  { destruct Hc as [[(E1 & E2 & E3) _]|(H0 & Hw & _)]; [|by apply (walk_mono _ n0)]. unfold pos. rewrite E1, E2, E3. apply walk_here. }
  unfold tracked. revert Hfound. unfold found. destruct (Z.ltb_spec (done_size c) (buf_size c)) as [E|E].
  - destruct (process_loop_walk (S (Z.to_nat (buf_size c - done_size c))) (buf c) (done_size c) (buf_size c - done_size c) 0 (carried c) (pos + done_size c) (asf_ds c))
      as (q' & d' & Hl' & W & S); try done; try lia; try (unfold strlen; lia).
    + replace (done_size c) with (0 + done_size c) at 1 by lia. apply span_shift; try lia. unfold carried, span. change (Z.to_nat 0) with 0%nat. rewrite !drop_0, drop_app_length' by (unfold pos, strlen; lia).
      rewrite take_app_length'; [done|]. rewrite length_take. lia.
    + intros E'. destruct Hc as [[(_ & -> & _) ?]|(_ & _ & _ & _ & ?)]; [lia|done].
    + unfold process_asf_state. rewrite Hl'. cbn [mbind exec_bind]. intros [= <- <-].
      replace (pos + done_size c + (buf_size c - done_size c)) with (seen c) in * by (unfold seen; fold pos; lia).
      replace (pos + (done_size c + (0 + (q' - (pos + done_size c))))) with q' by lia. split; [by eapply walk_trans|]. done.
  - intros [= <- <-]. split; [done|]. split; [|done]. left. unfold seen. fold pos. lia.
Qed.

(** The bytes that the next read gets. *)
Definition arrives (t : turn) (c : copy) : Z := Z.min (Z.min (read_count c) (avail t)) (strlen (stream c)).

Definition on_track (c : copy) : Prop := 481 <= seen c ∧ tracked (carried c) (seen c) (strlen (contents (out c)) + done_size c) (asf_ds c).

(** The header of the stream comes in one piece. *)
Definition enough (t : turn) (c : copy) : Prop := 0 < arrives t c ∧ 481 <= buf_size c + arrives t c.

(** What every turn keeps, whatever comes of it. *)
Record kept (c c' : copy) : Prop := {
  kept_ds : ds_ok (asf_ds c');
  kept_pos : position (out c') = strlen (contents (out c'));
  kept_carried : carried c' = carried c;
  kept_wanted : wanted c' = wanted c }.

#[export] Instance kept_trans : Transitive kept.
Proof. intros c1 c2 c3 [] []. split; try done; congruence. Qed.

Lemma read_result t c n m s : read (buf c) (buf_size c) (read_count c) (avail t) (stream c) = Done (n, m, s) → n = -1 ∧ avail t < 0 ∨ n = arrives t c.
Proof.
  unfold read, arrives. destruct (read_count c <? 0); [done|]. destruct (Z.ltb_spec (avail t) 0); [intros [= <- _ _]; left; lia|].
  destruct (memcpy _ _ _); [|done]. cbn. intros [= <- _ _]. by right.
Qed.

Lemma one_turn_ok t c : good c → 0 < asf_max_size c →
  ∃ r, one_turn t c = Done r ∧
    match r with
    | Errout c' => kept c c' ∧ (on_track c ∨ fresh c ∧ enough t c → on_track c')
    | Next c' => kept c c' ∧ good c' ∧ asf_max_size c' < asf_max_size c ∧
        (on_track c ∨ fresh c ∧ enough t c → on_track c')
    end.
Proof.
  intros G Hpos. destruct (read_turn t c G Hpos) as (n & m & s & E & Hr). unfold one_turn. rewrite E. cbn [mbind exec_bind]. apply read_result in E.
  destruct (_ || _) eqn:En.
  - destruct Hr as [-> ->]. eexists. split; [done|]. destruct c; cbn in *. destruct G. cbn in *. split; [by split|].
    intros [?|[(_ & _ & Hf) Ha]]; [done|]. destruct Ha as [Ha _]. exfalso.
    apply orb_prop in En as [En%Z.eqb_eq|En%Z.eqb_eq]; destruct E as [[_ Ha']|E]; unfold arrives in *; cbn in *; lia.
  - apply orb_false_elim in En as [En1%Z.eqb_neq En2%Z.eqb_neq]. destruct Hr as (Hn & G1 & Hc). set (c1 := mk_copy m _ _ _ _ _ s) in *.
    assert (Hb : 0 < buf_size c1) by (destruct G; cbn; lia). destruct (found_ok c1 G1 Hb) as (dn & ds & Hf & Hdn & Hds & Hst).
    assert (Ht : on_track c ∨ fresh c ∧ enough t c → 481 <= seen c1 ∧ tracked (carried c) (seen c1) (strlen (contents (out c)) + dn) ds).
    { intros Ht. split.
      { destruct Ht as [[Ht _]|[(_ & _ & Hfr) [_ Ha]]]; unfold seen in *; cbn in *; [lia|]. rewrite Hfr. change (strlen []) with 0. destruct E as [[? _]|E]; lia. }
      rewrite <-Hc. change (out c) with (out c1). apply (found_tracked c1 dn ds (seen c)); try done. destruct Ht as [[_ Ht]|[Hfr Ha]].
      - right. split; [unfold seen; cbn; lia|]. rewrite Hc. exact Ht.
      - left. split; [exact Hfr|]. cbn. destruct Ha, E as [[? _]|E]; lia. }
    destruct (send_ok c1 (room t) dn ds G1 Hb Hf Hdn Hds Hst) as (r & -> & Hs). exists r. split; [done|].
    change (wanted c1) with (wanted c) in *. change (contents (out c1)) with (contents (out c)) in *. change (asf_max_size c1) with (asf_max_size c) in *. rewrite Hc in Hs.
    destruct r as [c'|c'].
    + destruct Hs as (Hs1 & Hs2 & Hs3 & Hs4 & Hs5 & Hs6 & Hs7 & Hs8). split_and!; try done; [split; try done; [by rewrite Hs2|apply Hs1]|].
      intros H%Ht. unfold on_track. rewrite Hs2, Hs3, Hs8. replace (seen c') with (seen c1) by (unfold seen; cbn in *; lia). exact H.
    + destruct Hs as (Hs1 & Hs2 & Hs3 & Hs4 & Hs5 & Hs6 & Hs7). split; [split; try done; by rewrite Hs1|].
      intros H%Ht. unfold on_track, seen. rewrite Hs1, Hs2, Hs5, Hs6, Hs7. exact H.
Qed.

(** ** The loop *)

Lemma kept_refl c : good c → kept c c.
Proof. intros []. by split. Qed.

Definition loop_copy (e : loop_end) : copy := match e with Ended _ c => c | Waiting c => c end.

Lemma copy_loop_ok ts c : good c →
  ∃ e, copy_loop ts c = Done e ∧ kept c (loop_copy e) ∧
    (∀ c', e = Ended 0 c' → good c' ∧ (asf_max_size c' = 0 ∨ ∃ t, t ∈ ts ∧ stop_now t = true)) ∧
    (asf_max_size c <= Z.of_nat (length ts) → ∀ c', e ≠ Waiting c').
Proof.
  revert c. induction ts as [|t ts IH]; intros c G; cbn [copy_loop]; destruct (Z.ltb_spec 0 (asf_max_size c)) as [Hp|Hp]; cbn [negb].
  1: { eexists. split; [done|]. split; [by apply kept_refl|]. split; [done|]. cbn. lia. }
  1: { eexists. split; [done|]. split; [by apply kept_refl|]. split; [|done]. intros c' [= <-]. split; [done|]. left. destruct G. lia. }
  2: { eexists. split; [done|]. split; [by apply kept_refl|]. split; [|done]. intros c' [= <-]. split; [done|]. left. destruct G. lia. }
  destruct (stop_now t) eqn:Es.
  { eexists. split; [done|]. split; [by apply kept_refl|]. split; [|done]. intros c' [= <-]. split; [done|]. right. exists t. split; [left|done]. }
  destruct (one_turn_ok t c G Hp) as (r & -> & Hr). cbn [mbind exec_bind]. destruct r as [c'|c'].
  - destruct Hr as (K & G' & Hm & _). destruct (IH c' G') as (e & E & K' & He & Hw). exists e. split; [done|]. split; [by etrans|]. split.
    + intros c'' Hc. destruct (He c'' Hc) as [Gc [?|(t' & ? & ?)]]; (split; [done|]); [by left|right]. exists t'. split; [by right|done].
    + intros Hl. apply Hw. cbn [length] in Hl. lia.
  - destruct Hr as [K _]. eexists. split; [done|]. split; [done|]. done.
Qed.

Lemma copy_loop_track ts c e : good c → copy_loop ts c = Done e → on_track c → on_track (loop_copy e).
Proof.
  revert c. induction ts as [|t ts IH]; intros c G; cbn [copy_loop]; destruct (Z.ltb_spec 0 (asf_max_size c)) as [Hp|Hp]; cbn [negb]; [by intros [= <-]..| |by intros [= <-]].
  destruct (stop_now t); [by intros [= <-]|].
  destruct (one_turn_ok t c G Hp) as (r & -> & Hr). cbn [mbind exec_bind]. destruct r as [c'|c'].
  - destruct Hr as (_ & G' & _ & Ht). intros E H. eapply IH; [done|done|auto].
  - destruct Hr as [_ Ht]. intros [= <-]. auto.
Qed.

(** ** The end of a file *)

Definition patch (m : list Z) (i : Z) (d : list Z) : list Z := take (Z.to_nat i) m ++ d ++ drop (Z.to_nat i + length d) m.

Lemma memcpy_patch m i d : 0 <= i → i + strlen d <= strlen m → memcpy m i d = Done (patch m i d).
Proof. apply memcpy_done. Qed.

Lemma patch_length m i d : 0 <= i → i + strlen d <= strlen m → length (patch m i d) = length m.
Proof. intros. unfold patch, strlen in *. apply length_copy. lia. Qed.

Lemma byte_at_patch m i d j : 0 <= i → i + strlen d <= strlen m → 0 <= j →
  byte_at (patch m i d) j = if (i <=? j) && (j <? i + strlen d) then byte_at d (j - i) else byte_at m j.
Proof.
  unfold strlen, byte_at, patch. intros Hi Hl Hj. rewrite !nth_lookup.
  destruct (Z.leb_spec i j); cbn [andb]; [destruct (Z.ltb_spec j (i + Z.of_nat (length d)))|].
  - rewrite lookup_app_r by (rewrite length_take; lia). rewrite length_take, lookup_app_l by lia. do 2 f_equal. lia.
  - rewrite lookup_app_r by (rewrite length_take; lia). rewrite length_take, lookup_app_r by lia. rewrite lookup_drop. do 2 f_equal. lia.
  - rewrite lookup_app_l by (rewrite length_take; lia). by rewrite lookup_take_lt by lia.
Qed.

Lemma byte_at_in m i d j : 0 <= i → i + strlen d <= strlen m → i <= j < i + strlen d → byte_at (patch m i d) j = byte_at d (j - i).
Proof. intros. rewrite byte_at_patch by lia. by rewrite (proj2 (Z.leb_le _ _)), (proj2 (Z.ltb_lt _ _)) by lia. Qed.

Lemma byte_at_out m i d j : 0 <= i → i + strlen d <= strlen m → 0 <= j → j < i ∨ i + strlen d <= j → byte_at (patch m i d) j = byte_at m j.
Proof.
  intros ??? H. rewrite byte_at_patch by lia. destruct (Z.leb_spec i j); cbn [andb]; [|done]. destruct (Z.ltb_spec j (i + strlen d)); [lia|done].
Qed.

Lemma store_patch m i v : 0 <= i < strlen m → store m i v = Done (patch m i [v]).
Proof.
  intros H. rewrite store_done by done. f_equal. unfold patch. rewrite insert_take_drop by (unfold strlen in H; lia). cbn. by rewrite Nat.add_1_r.
Qed.

Lemma rd32_le_bytes v : is_u32 v → rd32 (le_bytes 4 v) 0 = v.
Proof.
  intros [H1 H2]. unfold rd32, rd16, byte_at. change (Z.to_nat 0) with 0%nat. change (Z.to_nat (0 + 1)) with 1%nat.
  change (Z.to_nat (0 + 2)) with 2%nat. change (Z.to_nat (0 + 2 + 1)) with 3%nat. cbn [le_bytes nth].
  assert (v / 256 / 256 / 256 / 256 = 0) by (rewrite !Z.div_div by lia; apply Z.div_small; lia).
  pose proof (Z.div_mod v 256). pose proof (Z.div_mod (v / 256) 256). pose proof (Z.div_mod (v / 256 / 256) 256). pose proof (Z.div_mod (v / 256 / 256 / 256) 256). lia.
Qed.

Lemma rd32_in m i v : 0 <= i → i + 4 <= strlen m → rd32 (patch m i (le_bytes 4 (u32 v))) i = u32 v.
Proof.
  intros. assert (L : strlen (le_bytes 4 (u32 v)) = 4) by done. unfold rd32, rd16. rewrite !byte_at_in by (rewrite ?L; lia).
  etrans; [|apply (rd32_le_bytes (u32 v)); unfold is_u32, u32; apply Z.mod_pos_bound; lia]. unfold rd32, rd16.
  repeat f_equal; lia.
Qed.

Lemma rd32_out m i d j : 0 <= i → i + strlen d <= strlen m → 0 <= j → j + 4 <= i ∨ i + strlen d <= j → rd32 (patch m i d) j = rd32 m j.
Proof. intros. unfold rd32, rd16. by rewrite !byte_at_out by lia. Qed.

(** The header with the assignments made. *)
Definition patched (ds : smbc_asf_ds) : list Z :=
  let w m i v := patch m i (le_bytes 4 (u32 v)) in
  let hb := header_buf ds in
  let hb := patch hb 118 [Z.land (byte_at hb 118) 0xFE] in
  let hb := patch hb 118 [Z.lor (Z.land (byte_at (header_buf ds) 118) 0xFE) 2] in
  let hb := w hb 70 (prev_done_offset ds) in
  let hb := w hb 94 (prev_PresentTime ds * 10000) in
  let hb := w hb 98 0 in
  let hb := w hb 102 (prev_PresentTime ds * 10000) in
  let hb := w hb 106 0 in
  let hb := w hb 86 (packet_count ds - 1) in
  let hb := w hb (hoh_size ds + 16) (u32 (prev_done_offset ds) - hoh_size ds) in
  let hb := w hb (hoh_size ds + 20) 0 in
  patch hb (hoh_size ds + 40) (le_bytes 8 (packet_count ds - 1)).

Lemma len_poked m i d : length m = 482%nat → 0 <= i → i + strlen d <= 482 → length (patch m i d) = 482%nat.
Proof. intros H ??. rewrite patch_length; [done|done|]. unfold strlen in *. lia. Qed.

Lemma put32_patch m i v : length m = 482%nat → 0 <= i → i + 4 <= 482 → put32 m i v = Done (patch m i (le_bytes 4 (u32 v))).
Proof. intros H ??. unfold put32. apply memcpy_patch; [done|]. unfold strlen. rewrite H. cbn [length le_bytes]. lia. Qed.

Lemma rd32_out4 m i v j : length m = 482%nat → 0 <= i → i + 4 <= 482 → 0 <= j → j + 4 <= i ∨ i + 4 <= j → rd32 (patch m i (le_bytes 4 v)) j = rd32 m j.
Proof. intros. apply rd32_out; [done|unfold strlen; cbn [length le_bytes]; lia|done|unfold strlen; cbn [length le_bytes]; lia]. Qed.

Lemma patched_length ds : ds_ok ds → length (patched ds) = 482%nat.
Proof. intros (Hl & _ & Hh & _). unfold patched. repeat (apply len_poked; [|lia|unfold strlen; cbn [length le_bytes]; lia]). done. Qed.

Lemma patch_header_eq ds : ds_ok ds → patch_header ds = Done (patched ds).
Proof.
  intros (Hl & Hb & Hh & Hs). unfold patch_header, patched. assert (Hz : 0 <= hoh_size ds <= 431) by lia. clear Hh Hs Hb.
  change (fp 14) with 118. change (fp 4) with 70. change (fp 9) with 94. change (fp 10) with 98. change (fp 11) with 102. change (fp 12) with 106. change (fp 7) with 86.
  change (offsetof ASF_DATA 1) with 16. change (offsetof ASF_DATA 2) with 20. change (offsetof ASF_DATA 4) with 40.
  assert (H1 : ∀ m v, length m = 482%nat → length (patch m 118 [v]) = 482%nat) by (intros; apply len_poked; [done|lia|unfold strlen; cbn; lia]).
  rewrite load_byte_at by (unfold strlen; lia). cbn [mbind exec_bind]. rewrite store_patch by (unfold strlen; lia). cbn [mbind exec_bind].
  rewrite load_byte_at by (unfold strlen; rewrite H1 by done; lia). rewrite byte_at_in by (unfold strlen; cbn [length]; lia). cbn [mbind exec_bind].
  change (byte_at [Z.land (byte_at (header_buf ds) 118) 254] (118 - 118)) with (Z.land (byte_at (header_buf ds) 118) 254).
  rewrite store_patch by (unfold strlen; rewrite H1 by done; lia). cbn [mbind exec_bind].
  assert (L1 : length (patch (patch (header_buf ds) 118 [Z.land (byte_at (header_buf ds) 118) 254]) 118 [Z.lor (Z.land (byte_at (header_buf ds) 118) 254) 2]) = 482%nat)
    by (by do 2 apply H1).
  generalize dependent (patch (patch (header_buf ds) 118 [Z.land (byte_at (header_buf ds) 118) 254]) 118 [Z.lor (Z.land (byte_at (header_buf ds) 118) 254) 2]). intros h L1.
  assert (Hp : ∀ m i v, length m = 482%nat → 0 <= i → i + 4 <= 482 → length (patch m i (le_bytes 4 (u32 v))) = 482%nat)
    by (intros; apply len_poked; [done|done|unfold strlen; cbn [length le_bytes]; lia]).
  do 6 (rewrite put32_patch by (repeat apply Hp; (done || lia)); cbn [mbind exec_bind]).
  rewrite get32_done by (unfold strlen; rewrite ?Hp; first [lia | repeat apply Hp; (done || lia)]). cbn [mbind exec_bind].
  do 5 (rewrite rd32_out4; [|first [lia | repeat apply Hp; (done || lia)]..]).
  rewrite rd32_in by (unfold strlen; lia).
  do 2 (rewrite put32_patch by (repeat apply Hp; (done || lia)); cbn [mbind exec_bind]).
  apply memcpy_patch; [lia|]. unfold strlen. rewrite le_bytes_length, Hp by (repeat apply Hp; (done || lia)). lia.
Qed.

(** ** The first read *)

Lemma find_blank_app s t i k : find_blank s i = Some k → find_blank (s ++ t) i = Some k.
Proof.
  revert i. induction s as [|x s IH]; intros i; [done|]. cbn [find_blank]. rewrite <-app_comm_cons. cbn [find_blank].
  case_bool_decide as H.
  - intros [= <-]. assert (L : (4 <= length (x :: s))%nat) by (apply (f_equal length) in H; rewrite length_take in H; cbn [length] in *; lia).
    rewrite bool_decide_true; [done|]. rewrite app_comm_cons, take_app_le by done. done.
  - intros E. pose proof (find_blank_bound _ _ _ E) as [_ L]. rewrite bool_decide_false; [by apply IH|].
    rewrite app_comm_cons, take_app_le; [done|]. pose proof (find_blank_bound _ _ _ E). unfold strlen in *. cbn [length]. lia.
Qed.

Lemma c_str_prefix s r : is_cstr s → c_str (s ++ r) = s ++ c_str r.
Proof.
  induction 1 as [|b s Hb Hs IH]; [done|]. cbn. unfold is_cchar in Hb. destruct (Z.eqb_spec b 0); [lia|]. by rewrite IH.
Qed.

Definition blank : list Z := [13; 10; 13; 10].

(** An answer of the streaming server: a header of up to 128 bytes and the stream. *)
Record answer (w : feed) (http body : list Z) : Prop := {
  answer_stack : length (stack w) = 2049%nat;
  answer_stack_bytes : Forall is_byte (stack w);
  answer_served : served w = (http ++ blank) ++ body;
  answer_http : is_cstr http;
  answer_first : find_blank (http ++ blank) 0 = Some (strlen http);
  answer_body : Forall is_byte body;
  answer_read : strlen (http ++ blank) <= Z.min (Z.min 128 (first_avail w)) (strlen (served w)) }.

Lemma cstr_bytes s : is_cstr s → Forall is_byte s.
Proof. intros H. apply (Forall_impl _ _ _ H). unfold is_cchar, is_byte. lia. Qed.

Lemma skip_answer w http body : answer w http body →
  ∃ n m s, skip_http_header (stack w) (first_avail w) (served w) = Done (n, m, s) ∧ 0 <= n <= 124 ∧ length m = 2049%nat ∧
    Forall is_byte m ∧ Forall is_byte s ∧ span m 0 n ++ s = body.
Proof.
  intros [Hl Hb Hs Hc Hf Hy Hr]. set (hd := http ++ blank) in *. assert (Hhd : is_cstr hd) by (apply Forall_app; split; [done|repeat constructor; unfold is_cchar; lia]).
  assert (Hsb : Forall is_byte (served w)) by (rewrite Hs; apply Forall_app; split; [by apply cstr_bytes|done]).
  unfold skip_http_header. destruct (read_ok (stack w) 0 128 (first_avail w) (served w)) as (r & m1 & Er & Hm1 & Hl1 & Hn); try done; [unfold strlen; lia|].
  assert (Hrv : r = Z.min (Z.min 128 (first_avail w)) (strlen (served w))).
  { unfold read in Er. destruct (Z.ltb_spec (first_avail w) 0); [unfold strlen in *; lia|]. change (128 <? 0) with false in Er. cbv iota in Er.
    destruct (memcpy _ _ _); [|done]. cbn [mbind exec_bind] in Er. by injection Er. }
  rewrite Er. cbn [mbind exec_bind]. assert (Hh4 : strlen hd = strlen http + 4) by (unfold hd; rewrite strlen_app; done). pose proof (Zle_0_nat (length http)) as Hh0. fold (strlen http) in Hh0.
  rewrite (proj2 (Z.eqb_neq r (-1))) by lia. destruct Hn as [[? _]|(Hn & Hn' & Hm1e)]; [lia|].
  rewrite store_patch by (unfold strlen; lia). cbn [mbind exec_bind].
  set (k := r - strlen hd). set (tl := drop (Z.to_nat r + 1) m1).
  assert (Hsr : take (Z.to_nat r) (served w) = hd ++ take (Z.to_nat k) body).
  { rewrite Hs, take_app_ge by (unfold strlen in *; lia). do 2 f_equal. unfold k, strlen. lia. }
  assert (Hsd : drop (Z.to_nat r) (served w) = drop (Z.to_nat k) body).
  { rewrite Hs, drop_app_ge by (unfold strlen in *; lia). f_equal. unfold k, strlen. lia. }
  assert (Lk : length (take (Z.to_nat k) body) = Z.to_nat k).
  { rewrite length_take. apply (f_equal length) in Hs. rewrite length_app in Hs. unfold k, strlen in *. lia. }
  assert (Lr : length (take (Z.to_nat r) (served w)) = Z.to_nat r) by (rewrite length_take; unfold strlen in *; lia).
  assert (Hm2 : patch m1 r [0] = hd ++ take (Z.to_nat k) body ++ 0 :: tl).
  { transitivity ((hd ++ take (Z.to_nat k) body) ++ 0 :: tl); [|by rewrite <-app_assoc]. rewrite <-Hsr. unfold patch. cbn [length]. unfold tl. change ([0] ++ ?x) with (0 :: x). f_equal. rewrite Hm1e. change (Z.to_nat 0) with 0%nat. rewrite firstn_O, app_nil_l. by rewrite take_app_length'. }
  rewrite Hm2, c_str_prefix by done. rewrite (find_blank_app hd _ 0 (strlen http)) by done.
  replace (r - (strlen http + 4)) with k by (unfold k; lia).
  assert (Lm : length (hd ++ take (Z.to_nat k) body ++ 0 :: tl) = 2049%nat).
  { rewrite <-Hm2, patch_length; [lia|lia|]. unfold strlen. cbn [length]. lia. }
  assert (Bm : Forall is_byte (hd ++ take (Z.to_nat k) body ++ 0 :: tl)).
  { rewrite <-Hm2. unfold patch. apply Forall_app; split; [by apply Forall_take|]. apply Forall_app; split; [repeat constructor; unfold is_byte; lia|by apply Forall_drop]. }
  rewrite mread_done by (unfold strlen in *; lia). cbn [mbind exec_bind]. replace (Z.to_nat (strlen http + 4)) with (length hd) by (unfold strlen in *; lia).
  rewrite drop_app_length, take_app_length' by lia. rewrite memcpy_patch by (unfold strlen in *; lia). cbn [mbind exec_bind].
  exists k. eexists. eexists. split; [done|]. split; [unfold k in *; lia|]. split_and!.
  - rewrite patch_length; [done|lia|unfold strlen in *; lia].
  - unfold patch. apply Forall_app; split; [by apply Forall_take|]. apply Forall_app; split; [by apply Forall_take|by apply Forall_drop].
  - rewrite Hsd. by apply Forall_drop.
  - rewrite Hsd. unfold span, patch. change (Z.to_nat 0) with 0%nat. rewrite firstn_O, app_nil_l, drop_0, take_app_length' by lia. apply take_drop.
Qed.

(** The file after the header has been written again and the index appended. *)
Definition finished (l : list Z) (ds : smbc_asf_ds) : list Z :=
  overwrite (overwrite l 0 (span (patched ds) 0 (hoh_size ds + 50))) (Z.to_nat (rd32 (patched ds) 70)) index_object.

Lemma seekable_ok f ds r1 r2 : ds_ok ds →
  ∃ f', make_it_seekable f ds r1 r2 = Done f' ∧ (481 <= r1 → 56 <= r2 → contents f' = finished (contents f) ds).
Proof.
  intros Hd. unfold make_it_seekable. rewrite patch_header_eq by done. cbn [mbind exec_bind]. pose proof (patched_length ds Hd) as Hl.
  change (sizeof ASF_DATA) with 50. change (fp 4) with 70. pose proof Hd as (_ & _ & Hh & _).
  rewrite mread_done by (unfold strlen; lia). fold (span (patched ds) 0 (hoh_size ds + 50)). cbn [mbind exec_bind].
  pose proof (span_length (patched ds) 0 (hoh_size ds + 50) ltac:(lia) ltac:(lia) ltac:(unfold strlen; lia)) as Hw.
  destruct (smbc_write (smbc_lseek f 0) _ r1) as [n1 f1] eqn:E1. rewrite get32_done by (unfold strlen; lia). cbn [mbind exec_bind].
  destruct (smbc_write (smbc_lseek f1 _) index_object r2) as [n2 f2] eqn:E2. exists f2. split; [done|]. intros H1 H2.
  unfold smbc_write in E1, E2. rewrite (proj2 (Z.ltb_ge _ _)) in E1 by lia. rewrite (proj2 (Z.ltb_ge _ _)) in E2 by lia. rewrite Hw in E1. change (strlen index_object) with 56 in E2.
  injection E1 as _ <-. injection E2 as _ <-. cbn [contents position smbc_lseek]. unfold finished. change (Z.to_nat 0) with 0%nat.
  rewrite (take_ge (span _ _ _)) by (unfold strlen in Hw; lia). rewrite (take_ge index_object) by (rewrite Z.min_l by lia; done). done.
Qed.

Lemma send_asf_ends (w : feed) (max : Z) :
  length (stack w) = 2049%nat → Forall is_byte (stack w) → Forall is_byte (served w) → 128 <= max →
  ∃ r, send_asf w max = Done r ∧ (max <= Z.of_nat (length (turns w)) → ∃ errcode f, r = Some (errcode, f)).
Proof.
  intros Hl Hb Hs Hm. unfold send_asf. destruct (skip_ok (stack w) (first_avail w) (served w) Hl Hb Hs) as (n & m & s & -> & Hl' & Hb' & Hs' & Hn). cbn [mbind exec_bind].
  set (c := mk_copy m n 0 ds_zero max (mk_ofile [] 0) s).
  destruct (Z.eqb_spec n (-1)) as [->|Hn1]; cbn [mbind exec_bind].
  - destruct (seekable_ok (out c) (asf_ds c) (room1 w) (room2 w) ds_zero_ok) as (f & -> & _). cbn [mbind exec_bind]. eexists. split; [done|]. eauto.
  - assert (G : good c) by (split; cbn; try done; try lia; apply ds_zero_ok).
    destruct (copy_loop_ok (turns w) c G) as (e & -> & K & _ & Hw). cbn [mbind exec_bind]. destruct e as [code c'|c'].
    + destruct (seekable_ok (out c') (asf_ds c') (room1 w) (room2 w) (kept_ds _ _ K)) as (f & -> & _). cbn [mbind exec_bind]. eexists. split; [done|]. eauto.
    + eexists. split; [done|]. intros H. by destruct (Hw H c').
Qed.

(** C9 (termination): every recording ends and none leaves its buffers, whatever
    the streaming server sends and however it arrives, whatever the Samba server
    takes and whatever is on the stack.  A file of [max] bytes takes [max] turns at
    the most. *)
Theorem recording_ends (w : feed) (max : Z) :
  length (stack w) = 2049%nat → Forall is_byte (stack w) → Forall is_byte (served w) → 128 <= max →
  ∃ r, send_asf w max = Done r ∧ (max <= Z.of_nat (length (turns w)) → ∃ errcode f, r = Some (errcode, f)).
Proof. apply send_asf_ends. Qed.

Lemma recording_ends_witness :
  ∃ r, send_asf (mk_feed (replicate 2049 7) (bs "garbage") 3 [] 0 0) 1024 = Done r.
Proof.
  destruct (recording_ends (mk_feed (replicate 2049 7) (bs "garbage") 3 [] 0 0) 1024) as (r & H & _);
    [reflexivity|apply Forall_replicate; unfold is_byte; lia|apply (bool_decide_unpack _); vm_compute; done|lia|]. by exists r.
Defined.

(** The packets of the first [n] bytes, found in one go. *)
Lemma parse_walk body n : Forall is_byte body → 481 <= n <= strlen body →
  ∃ q ds, process_asf_state body 0 n ds_zero = Done (q, ds) ∧ walk body n 0 ds_zero q ds ∧ settled n q ds.
Proof.
  intros Hb Hn. destruct (process_loop_walk (S (Z.to_nat n)) body 0 n 0 body 0 ds_zero) as (q & ds & E & W & St); try done; try lia; [apply ds_zero_ok|].
  exists q, ds. unfold process_asf_state. rewrite E. split; [do 2 f_equal; lia|]. done.
Qed.

Lemma parse_tracked body n q ds : Forall is_byte body → 481 <= n <= strlen body → tracked body n q ds → process_asf_state body 0 n ds_zero = Done (q, ds).
Proof.
  intros Hb Hn (W & St & _). destruct (parse_walk body n Hb Hn) as (q' & ds' & E & W' & St').
  destruct (walk_settled_det _ _ _ _ _ _ _ _ W St W' St') as [-> ->]. done.
Qed.

(** A recording with room for what is written at its end, whose first turn brings
    the header of the stream. *)
Record recording (w : feed) (http body : list Z) (max : Z) (t : turn) (ts : list turn) : Prop := {
  rec_answer : answer w http body;
  rec_max : 1024 <= max;
  rec_room1 : 481 <= room1 w;
  rec_room2 : 56 <= room2 w;
  rec_turns : turns w = t :: ts;
  rec_stop : stop_now t = false;
  rec_avail : 481 <= avail t;
  rec_body : 481 <= strlen body }.

Lemma recording_result w http body max t ts errcode f : recording w http body max t ts → send_asf w max = Done (Some (errcode, f)) →
  ∃ c, kept c c ∧ on_track c ∧ carried c = body ∧ wanted c = max ∧ contents f = finished (contents (out c)) (asf_ds c) ∧
    481 <= seen c ∧ (errcode = 0 → good c ∧ (asf_max_size c = 0 ∨ ∃ t, t ∈ turns w ∧ stop_now t = true)).
Proof.
  intros [Ha Hm Hr1 Hr2 Ht Hst Hav Hbl] H. unfold send_asf in H. destruct (skip_answer w http body Ha) as (n & m & s & E & Hn & Hl & Hb & Hs & Hbody). rewrite E in H. cbn [mbind exec_bind] in H.
  rewrite (proj2 (Z.eqb_neq n (-1))) in H by lia. set (c := mk_copy m n 0 ds_zero max (mk_ofile [] 0) s) in H.
  assert (G : good c) by (split; cbn; try done; try lia; apply ds_zero_ok). assert (Hc : carried c = body) by exact Hbody.
  assert (Hw : wanted c = max) by (unfold wanted, strlen; cbn; lia).
  destruct (copy_loop_ok (turns w) c G) as (e & El & K & He & _). rewrite El in H. cbn [mbind exec_bind] in H. destruct e as [code c'|c']; [|done]. cbn [loop_copy] in K.
  destruct (seekable_ok (out c') (asf_ds c') (room1 w) (room2 w) (kept_ds _ _ K)) as (f' & Ef & Hf). rewrite Ef in H. cbn [mbind exec_bind] in H. injection H as <- <-.
  assert (Htr : on_track c' ∧ 481 <= seen c').
  { rewrite Ht in El. cbn [copy_loop] in El. rewrite (proj2 (Z.ltb_lt 0 (asf_max_size c))) in El by (cbn; lia). rewrite Hst in El. cbn [negb] in El.
    destruct (one_turn_ok t c G) as (r & Er & Hr); [cbn; lia|]. rewrite Er in El. cbn [mbind exec_bind] in El.
    assert (Hen : fresh c ∧ enough t c).
    { split; [done|]. unfold enough, arrives, read_count. cbn [buf_size asf_max_size stream c]. change SMBC_BUF_SIZE with 2048.
      assert (strlen s = strlen body - n) by (rewrite <-Hbody, strlen_app, span_length by (unfold strlen; lia); lia). destruct (Z.ltb_spec 2048 max); lia. }
    destruct r as [c1|c1]; [destruct Hr as (_ & G1 & _ & Hr)|destruct Hr as [_ Hr]]; assert (T1 : on_track c1) by auto.
    - pose proof (copy_loop_track _ _ _ G1 El T1) as T2. split; [exact T2|apply T2].
    - injection El as _ <-. split; [exact T1|apply T1]. }
  exists c'. destruct Htr as [Htr Hseen]. pose proof K as [K1 K2 K3 K4]. split; [by split|]. split; [done|]. split; [congruence|]. split; [congruence|]. split; [by apply Hf|]. split; [done|].
  intros ->. by apply He.
Qed.

Lemma carried_prefix c : contents (out c) = take (length (contents (out c))) (carried c).
Proof. unfold carried. by rewrite take_app_length. Qed.

Lemma seen_bound c : position (out c) = strlen (contents (out c)) → 0 <= buf_size c → buf_size c <= strlen (buf c) → seen c <= strlen (carried c).
Proof. intros _ H1 H2. unfold seen, carried. rewrite !strlen_app, span_length by lia. unfold strlen. lia. Qed.

Lemma success_at_limit w http body max t ts f : recording w http body max t ts → (∀ t', t' ∈ turns w → stop_now t' = false) →
  send_asf w max = Done (Some (0, f)) →
  ∃ q ds, process_asf_state body 0 max ds_zero = Done (q, ds) ∧ max <= q ∧ max <= strlen body ∧
    contents f = finished (take (Z.to_nat max) body) ds.
Proof.
  intros R Hns H. destruct (recording_result _ _ _ _ _ _ _ _ R H) as (c & K & [_ T] & Hc & Hw & Hf & Hs & He). destruct (He eq_refl) as [G [Hz|(t' & Ht1 & Ht2)]]; [|by rewrite Hns in Ht2].
  assert (Hb : buf_size c = 0) by (destruct G; lia). assert (Hm : strlen (contents (out c)) = max) by (unfold wanted in Hw; lia).
  assert (Hse : seen c = max) by (unfold seen; lia). assert (Hle : max <= strlen body) by (rewrite <-Hse, <-Hc; destruct G; apply seen_bound; [done|lia|unfold strlen; lia]).
  rewrite Hse, Hm, Hc in T. exists (max + done_size c), (asf_ds c). split; [|split; [destruct G; lia|split; [done|]]].
  - destruct R as [[] ? ? ? ? ? ? ?]. apply parse_tracked; [done|lia|done].
  - rewrite Hf, (carried_prefix c), Hc. do 2 f_equal. unfold strlen in Hm. lia.
Qed.


(** A file size that falls into the header of a packet makes the
    recording fail.  If the state machine, run over the first [max] bytes of the
    stream, stops before their end, no sequence of reads and writes lets the
    recording succeed: the bytes of the last header stay in the buffer and the next
    read is one of no bytes.  The file is not renamed then. *)
Theorem limit_in_header (w : feed) (http body : list Z) (max : Z) (t : turn) (ts : list turn) (f : ofile) (errcode q : Z) (ds : smbc_asf_ds) :
  recording w http body max t ts → (∀ t', t' ∈ turns w → stop_now t' = false) →
  process_asf_state body 0 max ds_zero = Done (q, ds) → q < max →
  send_asf w max = Done (Some (errcode, f)) → errcode ≠ 0.
Proof.
  intros R Hn Hp Hq H ->. destruct (success_at_limit _ _ _ _ _ _ _ R Hn H) as (q' & ds' & E & Hq' & _). rewrite Hp in E. injection E as <- <-. lia.
Qed.

(** A stream of video: its header, and packets of 1000 bytes. *)
Definition example_header : list Z := replicate 24 1 ++ le_bytes 4 3 ++ replicate 349 2.
Definition example_packet (time : Z) : list Z :=
  replicate 5 9 ++ le_bytes 2 0 ++ replicate 14 8 ++ le_bytes 4 1000 ++ le_bytes 4 time ++ le_bytes 2 1000 ++ replicate 1000 6.
Definition example_body : list Z := example_header ++ example_packet 40 ++ example_packet 80.
Definition example_feed (ts : list turn) : feed :=
  mk_feed (replicate 2049 7) ((bs "HTTP/1.0 200 OK" ++ blank) ++ example_body) 128 ts 1000 1000.

Lemma example_recording ts max : 1024 <= max → recording (example_feed (mk_turn false 700 1000 :: ts)) (bs "HTTP/1.0 200 OK") example_body max (mk_turn false 700 1000) ts.
Proof.
  intros Hm. split; try done. split; try done; apply (bool_decide_unpack _); vm_compute; done.
Qed.


(** A file of 1429 bytes ends in the header of the second packet. *)
Lemma limit_in_header_witness :
  ∃ f errcode, send_asf (example_feed (replicate 5 (mk_turn false 700 1000))) 1429 = Done (Some (errcode, f)) ∧ errcode ≠ 0.
Proof.
  assert (R : recording (example_feed (replicate 5 (mk_turn false 700 1000))) (bs "HTTP/1.0 200 OK") example_body 1429 (mk_turn false 700 1000) (replicate 4 (mk_turn false 700 1000)))
    by (apply (example_recording (replicate 4 _)); lia).
  destruct (send_asf (example_feed (replicate 5 (mk_turn false 700 1000))) 1429) as [[[e f]|]|] eqn:H; [|exfalso; vm_compute in H; discriminate..].
  exists f, e. split; [done|]. destruct (process_asf_state example_body 0 1429 ds_zero) as [[q ds]|] eqn:E; [|exfalso; vm_compute in E; discriminate].
  apply (limit_in_header _ _ _ _ _ _ f e q ds R); [intros t' Ht; apply elem_of_replicate in Ht as [-> _]; done|exact E| |exact H].
  clear - E. vm_compute in E. injection E as <- _. lia.
Defined.
