(* ===== verification/RecorderFile.v ===== *)
(** * The recorded file

    For a stream of frames, what a recording leaves on the server: the header with
    its fields set, the whole frames, and the index object behind them. *)

From S2P Require Import Prelude Blocks Asf AsfTheorems AsfFrames Recorder RecorderTheorems.

Local Open Scope Z_scope.

(** ** The fields of the header *)






(** ** The file *)








