(* ===== verification/RecorderMain.v ===== *)
(** * The recorder as a program

    The rest of [smbc_rec.c]: the lock, the connections, the names of the files and
    the main loop; and [smbc_put.c], which puts a file on the Samba server.  The
    results of system calls are parameters; what the programs open and close, log,
    rename and how long they sleep is a list of events. *)

From S2P Require Import Prelude Blocks Asf AsfTheorems Clock Recorder RecorderTheorems.

Local Open Scope Z_scope.
Local Abbreviation str := (list Z).

(** ** Events *)

Inductive event : Type :=
| Opened (fd : Z) | Closed (fd : Z) | SmbOpened (fd : Z) | SmbClosed (fd : Z)
| AddLog (n : Z) | Renamed (from to : str) | Slept (secs : Z).

#[export] Instance event_eq_dec : EqDecision event.
Proof. solve_decision. Defined.

(** ** The lock *)

(** A descriptor of the lock file; closing it gives the lock back. *)
Record lockfile : Type := mk_lock { lock_open : bool; lock_held : bool }.

(** [for (i = 0; i < 20; i++)], the last [n] turns: the value of [i] behind it. *)
Fixpoint flock_loop (n : nat) (i : nat) (flock : nat → Z) (l : lockfile) : nat * lockfile :=
  match n with
  | O => (i, l)
  | S n' => if flock i =? 0 then (i, mk_lock (lock_open l) true) else flock_loop n' (S i) flock l
  end.

(** [fd] is what [open] returns, [flock] the results of the attempts. *)
Definition lock_smb_fd (fd : Z) (flock : nat → Z) : Z * lockfile :=
  if fd =? -1 then (-1, mk_lock false false) else
  let '(i, l) := flock_loop 20 0 flock (mk_lock true false) in
  let '(fd, l) := if bool_decide (i = 20%nat) then (-1, mk_lock false false) else (fd, l) in
  let l := if negb (fd =? -1) then mk_lock false false else l in
  (fd, l).

(** ** Connections *)

(** [s], [fcntl_ret], [connect_ret] and [send_ret] are the results of the calls;
    [sendmsg] is repeated while a signal interrupts it. *)
Definition pass_fd_and_message (s fcntl_ret connect_ret send_ret : Z) : Z * list event :=
  if s =? -1 then (-1, []) else
  let ret := if fcntl_ret =? -1 then fcntl_ret else if connect_ret =? -1 then connect_ret else send_ret in
  (if ret <? 0 then -1 else 0, [Opened s; Closed s]).

(** What the system answers during a recording. *)
Record calls : Type := mk_calls {
  pair_ret : Z; fd0 : Z; fd1 : Z; sock : Z; fcntl_ret : Z; connect_ret : Z; send_ret : Z;
  init_ret : Z; open_ret : Z; errno : Z; junk : Z }.

Definition get_asf_streaming_fd (k : calls) : Z * list event :=
  if pair_ret k =? -1 then (-1, []) else
  let '(ret, ev) := pass_fd_and_message (sock k) (fcntl_ret k) (connect_ret k) (send_ret k) in
  let ev := [Opened (fd0 k); Opened (fd1 k)] ++ ev in
  if ret =? -1 then (-1, ev ++ (if negb (fd0 k =? -1) then [Closed (fd0 k)] else []) ++ (if negb (fd1 k =? -1) then [Closed (fd1 k)] else []))
  else (fd0 k, ev ++ [Closed (fd1 k)]).

(** The log entry for a server that cannot be reached. *)
Definition smb_log (err : Z) : Z :=
  if err =? 13 then 4 else if (err =? 2) || (err =? 22) then 5 else if err =? 101 then 3 else 2.

(** The descriptor, the user and the password for the callback, the events, and
    [gSleepTime].  [fd] is not set when [smbc_init] fails: it is [junk] then. *)
Definition get_smb_server_fd (k : calls) (username password : str) (sleep_time : Z) : exec (Z * option (str * str) * list event * Z) :=
  let failed fd who := Done (-1, who, [AddLog (smb_log (errno k))] ++ (if negb (fd =? -1) then [SmbClosed fd] else []), 60 * 10) in
  if negb (init_ret k =? 0) then failed (junk k) None else
  user ← append 64 [] (if bool_decide (username = []) then bs "dummy" else username);
  pass ← append 64 [] password;
  if open_ret k =? -1 then failed (open_ret k) (Some (user, pass))
  else Done (open_ret k, Some (user, pass), [SmbOpened (open_ret k)], sleep_time).

(** ** A recording *)

(** The error code, the events, [gSleepTime] and the file; [None] while it waits. *)
Definition record_asf (k : calls) (w : feed) (username password : str) (size sleep_time : Z) : exec (option (Z * list event * Z * option ofile)) :=
  let '(ifd, ev) := get_asf_streaming_fd k in
  if ifd =? -1 then Done (Some (-1, ev, sleep_time, None)) else
  '(ofd, _, ev', sleep_time) ← get_smb_server_fd k username password sleep_time;
  let ev := ev ++ ev' in
  if ofd =? -1 then Done (Some (-1, ev ++ [Closed ifd], sleep_time, None)) else
  r ← send_asf w size;
  match r with
  | None => Done None
  | Some (ret, f) => Done (Some (if ret =? -1 then -1 else 0, ev ++ [Closed ifd; SmbClosed ofd], sleep_time, Some f))
  end.

(** ** The names of the files *)

Record SMB_DS : Type := mk_smb { rec_enable : Z; rec_filesize : Z; rec_mode : Z; rec_server : str; rec_path : str; rec_user : str; rec_passwd : str }.

Fixpoint dec_digits (fuel : nat) (n : Z) (acc : str) : str :=
  match fuel with
  | O => acc
  | S fuel' => let acc := (48 + n mod 10) :: acc in if n <? 10 then acc else dec_digits fuel' (n / 10) acc
  end.

(** [%0wd] of a number that is not negative. *)
Definition zero_padded (w : nat) (n : Z) : str := let d := dec_digits 10 n [] in replicate (w - length d) 48 ++ d.

(** [sprintf] into an array of [size] bytes. *)
Definition sprintf (size : Z) (pieces : list str) : exec str :=
  let s := concat pieces in if strlen s <? size then Done s else Fault.

Definition slashes (path : str) : str := map (λ c, if c =? 92 then 47 else c) path.

(** The two names, and the path as it is left behind. *)
Definition generate_filename (now : Z) (hostname : str) (ds : SMB_DS) : exec (str * str * SMB_DS) :=
  let t := localtime now in
  time ← sprintf 32 [zero_padded 2 (tm_mon t + 1); zero_padded 2 (tm_mday t); zero_padded 4 (tm_year t + 1900); bs "-";
                     zero_padded 2 (tm_hour t); zero_padded 2 (tm_min t); zero_padded 2 (tm_sec t)];
  let path := slashes (rec_path ds) in
  let ds := mk_smb (rec_enable ds) (rec_filesize ds) (rec_mode ds) (rec_server ds) path (rec_user ds) (rec_passwd ds) in
  tmp ← sprintf 513 [bs "smb://"; rec_server ds; bs "/"; path; bs "/~"; hostname; bs "-"; time; bs ".asx"];
  target ← (if rec_mode ds =? 1
            then sprintf 513 [bs "smb://"; rec_server ds; bs "/"; path; bs "/"; hostname; bs "-"; time; bs ".asx"]
            else sprintf 513 [bs "smb://"; rec_server ds; bs "/"; path; bs "/"; hostname; bs "-SambaRecord.asx"]);
  Done (tmp, target, ds).

(** ** The main loop *)

Record cycle : Type := mk_cycle { s_stop : bool; s_now : Z; s_host : str; s_calls : calls; s_feed : feed }.

(** The events of the sessions; it ends when the recorder is stopped, or waits. *)
Fixpoint record_loop (l : list cycle) (ds : SMB_DS) : exec (list event) :=
  match l with
  | [] => Done []
  | s :: l' =>
      if (rec_enable ds =? 0) || s_stop s then Done [] else
      '(tmp, target, ds) ← generate_filename (s_now s) (s_host s) ds;
      r ← record_asf (s_calls s) (s_feed s) (rec_user ds) (rec_passwd ds) (s32 (rec_filesize ds * 1024)) 10;
      match r with
      | None => Done []
      | Some (ret, ev, sleep_time, _) =>
          rest ← record_loop l' ds;
          Done (ev ++ [if ret =? 0 then Renamed tmp target else Slept sleep_time] ++ rest)
      end
  end.

(** [ret] is compared with [-1] and never set. *)
Definition LAN_read_mac (sockfd ret : Z) : Z * list event :=
  if sockfd =? -1 then (-1, []) else (if ret =? -1 then -1 else 0, [Opened sockfd; Closed sockfd]).

Definition main (lock_fd : Z) (flock : nat → Z) (read_ret : Z) (conf : SMB_DS) (mac_sock mac_ret : Z) (l : list cycle) : exec (list event) :=
  let '(fd, _) := lock_smb_fd lock_fd flock in
  if fd =? -1 then Done [] else
  if read_ret =? -1 then Done [Closed fd] else
  let '(ret, ev) := LAN_read_mac mac_sock mac_ret in
  if ret =? -1 then Done (ev ++ [Closed fd]) else
  ev' ← record_loop l conf;
  Done (ev ++ ev' ++ [Closed fd]).

(** ** Putting one file *)

(** [smbc_put.c]: the name on the server, built in an array of 257 bytes. *)
Definition put_url (server path filename : str) : exec str :=
  sprintf 257 [bs "smb://"; server; bs "/"; slashes path; bs "/"; filename].

Fixpoint strrchr (s : str) (c : Z) : option str :=
  match s with
  | [] => None
  | x :: s' => match strrchr s' c with Some r => Some r | None => if x =? c then Some (x :: s') else None end
  end.

Record put_calls : Type := mk_put { p_lock : Z; p_flock : nat → Z; p_read : Z; p_enable : Z; p_server : str; p_path : str;
  p_open : Z; p_stat : Z; p_data : list Z; p_init : Z; p_smb : Z; p_errno : Z; p_room : Z; p_junk : Z }.

(** The descriptor of the file; [p_stat] is the worse of [fstat] and [mmap]. *)
Definition get_vlog_fd (k : put_calls) : Z * list event :=
  if p_open k =? -1 then (-1, []) else
  if p_stat k =? -1 then (-1, [Opened (p_open k); Closed (p_open k)]) else (p_open k, [Opened (p_open k)]).

(** [fd] is not set when [smbc_init] fails. *)
Definition put_server_fd (k : put_calls) (filename : str) : exec (Z * list event) :=
  if negb (p_init k =? 0) then Done (-1, if negb (p_junk k =? -1) then [SmbClosed (p_junk k)] else []) else
  _ ← put_url (p_server k) (p_path k) filename;
  Done (if p_smb k =? -1 then (-1, []) else (p_smb k, [SmbOpened (p_smb k)])).

(** The exit code, the events and the file on the server. *)
Definition put_main (args : list str) (k : put_calls) : exec (Z * list event * option ofile) :=
  match args with
  | [_; name] =>
      let '(lock_fd, _) := lock_smb_fd (p_lock k) (p_flock k) in
      if lock_fd =? -1 then Done (-1, [], None) else
      if p_read k =? -1 then Done (-1, [], None) else
      if p_enable k =? 0 then Done (-1, [], None) else
      match strrchr name 47 with
      | None => Done (-1, [], None)
      | Some ofilename =>
          let '(ifd, ev) := get_vlog_fd k in
          if ifd =? -1 then Done (-1, ev, None) else
          '(ofd, ev') ← put_server_fd k (drop 1 ofilename);
          let ev := ev ++ ev' in
          if ofd =? -1 then Done (p_errno k, ev ++ [Closed ifd], None) else
          let '(ret, f) := smbc_write (mk_ofile [] 0) (p_data k) (p_room k) in
          Done (if negb (ret =? strlen (p_data k)) then p_errno k else 0, ev ++ [Closed ifd; SmbClosed ofd], Some f)
      end
  | _ => Done (-1, [], None)
  end.

(** ** The lock is not kept *)

Lemma flock_loop_spec n i flock l : ∃ j, (flock_loop n i flock l).1 = j ∧ (i <= j <= i + n)%nat ∧
  (j = (i + n)%nat ↔ ∀ k, (i <= k < i + n)%nat → flock k ≠ 0).
Proof.
  revert i. induction n as [|n IH]; intros i; cbn [flock_loop]; [exists i; split; [done|]; split; [lia|]; split; [lia|lia]|].
  destruct (Z.eqb_spec (flock i) 0) as [E|E]; cbn [fst].
  - exists i. split; [done|]. split; [lia|]. split; [lia|]. intros H. by destruct (H i); [lia|].
  - destruct (IH (S i)) as (j & Hj & Hr & Hiff). exists j. split; [done|]. split; [lia|]. replace (i + S n)%nat with (S i + n)%nat by lia. rewrite Hiff. split; intros H k Hk.
    + destruct (decide (k = i)) as [->|]; [done|]. apply H. lia.
    + apply H. lia.
Qed.

Lemma dec_exists_20 (flock : nat → Z) : ¬ (∀ k, (k < 20)%nat → flock k ≠ 0) → ∃ k, (k < 20)%nat ∧ flock k = 0.
Proof.
  intros H. destruct (list_find (λ k, flock k = 0) (seq 0 20)) as [[i k]|] eqn:E.
  - apply list_find_Some in E as (Hl & Hk & _). apply lookup_seq in Hl as [-> ?]. eexists. split; [|exact Hk]. lia.
  - exfalso. apply H. intros k Hk. apply list_find_None in E. rewrite Forall_forall in E. apply E, elem_of_seq. lia.
Qed.

(** The lock that keeps a second recorder out is given back before it
    is used.  Whenever the function returns a descriptor, because one of twenty
    attempts got the lock, that descriptor is closed and the lock is free; the
    program goes on as if it had it. *)
Theorem lock_not_held (fd : Z) (flock : nat → Z) :
  let '(r, l) := lock_smb_fd fd flock in
  lock_open l = false ∧ lock_held l = false ∧ (fd ≠ -1 → (r = fd ↔ ∃ i, (i < 20)%nat ∧ flock i = 0)).
Proof.
  unfold lock_smb_fd. destruct (Z.eqb_spec fd (-1)) as [->|Hfd]; [done|].
  destruct (flock_loop_spec 20 0 flock (mk_lock true false)) as (j & Hj & Hr & Hiff). destruct (flock_loop 20 0 flock (mk_lock true false)) as [i l]. cbn [fst] in Hj. subst j.
  case_bool_decide as Hi.
  - cbn. split_and!; try done. intros _. split; [congruence|]. intros (k & Hk & E). exfalso. apply (proj1 Hiff Hi k); [lia|done].
  - rewrite (proj2 (Z.eqb_neq _ _)) by done. cbn. split_and!; try done. intros _. split; [|done]. intros _.
    apply (dec_exists_20 flock). intros H. apply Hi, Hiff. intros k Hk. apply H. lia.
Qed.

(** ** The names fit *)

Lemma dec_digits_length fuel n acc k : 0 <= n < 10 ^ Z.of_nat k → (k < fuel)%nat → (0 < k)%nat → (length (dec_digits fuel n acc) <= k + length acc)%nat.
Proof.
  revert n acc k. induction fuel as [|fuel IH]; intros n acc k Hn Hf Hk; [lia|]. cbn [dec_digits]. destruct (Z.ltb_spec n 10); [cbn [length]; lia|].
  destruct k as [|[|k]]; [lia|change (10 ^ Z.of_nat 1) with 10 in Hn; lia|].
  assert (Hd : 0 <= n / 10 < 10 ^ Z.of_nat (S k)).
  { rewrite (Nat2Z.inj_succ (S k)), Z.pow_succ_r in Hn by lia. split; [apply Z.div_pos; lia|]. apply Z.div_lt_upper_bound; lia. }
  specialize (IH (n / 10) ((48 + n mod 10) :: acc) (S k) Hd ltac:(lia) ltac:(lia)). cbn [length] in IH. lia.
Qed.

Lemma zero_padded_length w n : (0 < w < 10)%nat → 0 <= n < 10 ^ Z.of_nat w → length (zero_padded w n) = w.
Proof.
  intros Hw Hn. unfold zero_padded. pose proof (dec_digits_length 10 n [] w Hn ltac:(lia) ltac:(lia)) as H. rewrite length_app, length_replicate. cbn [length] in H. lia.
Qed.

Lemma two_digits n : 0 <= n < 100 → length (zero_padded 2 n) = 2%nat.
Proof. intros. apply zero_padded_length; [lia|done]. Qed.
Lemma four_digits n : 0 <= n < 10000 → length (zero_padded 4 n) = 4%nat.
Proof. intros. apply zero_padded_length; [lia|done]. Qed.

Lemma find_month_range ms m day : Forall (λ n, n <= 31) ms → 0 <= day < fold_left Z.add ms 0 →
  m <= (find_month ms m day).1 < m + Z.of_nat (length ms) ∧ 0 <= (find_month ms m day).2 < 31.
Proof.
  assert (Hf : ∀ l a, fold_left Z.add l a = a + fold_left Z.add l 0).
  { induction l as [|x l IH]; intros a; cbn [fold_left]; [lia|]. rewrite (IH (a + x)), (IH (0 + x)). lia. }
  intros H. revert m day. induction H as [|n ms Hn H IH]; intros m day Hd; cbn [fold_left] in Hd; [lia|]. cbn [find_month].
  destruct (Z.ltb_spec day n); cbn [fst snd length]; [lia|]. rewrite Hf in Hd. specialize (IH (m + 1) (day - n) ltac:(lia)). lia.
Qed.

Lemma localtime_month y d h m s : in_time y d h m s →
  0 <= tm_mon (localtime (moment y d h m s)) < 12 ∧ 1 <= tm_mday (localtime (moment y d h m s)) <= 31.
Proof.
  intros Hv. destruct (localtime_moment _ _ _ _ _ Hv) as (E1 & E2 & _). rewrite (localtime_in_time _ _ _ _ _ Hv) in *. destruct Hv as [(Hy & Hd & _) _]. revert E1 E2. unfold calendar. destruct (year_of _) as [y' yd].
  pose proof (find_month_range (month_days y') 0 yd) as H. destruct (find_month (month_days y') 0 yd) as [mon mday]. cbn [tm_year tm_yday tm_mon tm_mday fst snd] in *. intros Ey ->.
  replace y' with y in * by lia. assert (Hsum : fold_left Z.add (month_days y) 0 = year_days y) by (unfold month_days, year_days; destruct (leap y); done).
  rewrite Hsum in H. destruct H as [H1 H2]; [unfold month_days; destruct (leap y); repeat constructor; lia|done|]. change (length (month_days y)) with 12%nat in H1. lia.
Qed.

Lemma sprintf_done size pieces : strlen (concat pieces) < size → sprintf size pieces = Done (concat pieces).
Proof. intros H. unfold sprintf. by rewrite (proj2 (Z.ltb_lt _ _)). Qed.

(** The time in a name. *)
Definition time_name (t : tm) : str :=
  concat [zero_padded 2 (tm_mon t + 1); zero_padded 2 (tm_mday t); zero_padded 4 (tm_year t + 1900); bs "-";
          zero_padded 2 (tm_hour t); zero_padded 2 (tm_min t); zero_padded 2 (tm_sec t)].

Lemma generate_ok (y d h m s : Z) (hostname : str) (ds : SMB_DS) :
  in_time y d h m s → strlen (rec_server ds) <= 64 → strlen (rec_path ds) <= 128 → strlen hostname <= 31 →
  ∃ tmp target ds', generate_filename (moment y d h m s) hostname ds = Done (tmp, target, ds') ∧
    strlen tmp <= 252 ∧ strlen target <= 252 ∧ ds' = mk_smb (rec_enable ds) (rec_filesize ds) (rec_mode ds) (rec_server ds) (slashes (rec_path ds)) (rec_user ds) (rec_passwd ds) ∧
    tmp = bs "smb://" ++ rec_server ds ++ bs "/" ++ slashes (rec_path ds) ++ bs "/~" ++ hostname ++ bs "-" ++ time_name (localtime (moment y d h m s)) ++ bs ".asx" ∧
    (rec_mode ds = 1 → strlen tmp = strlen target + 1).
Proof.
  intros Hv Hs Hp Hh. destruct (localtime_moment _ _ _ _ _ Hv) as (E1 & _ & E3 & E4 & E5). destruct (localtime_month _ _ _ _ _ Hv) as [M1 M2].
  pose proof Hv as [(Hy & _ & Hh' & Hm' & Hs') _]. unfold generate_filename. generalize dependent (localtime (moment y d h m s)). intros t E1 E3 E4 E5 M1 M2.
  assert (Ht : strlen (time_name t) = 15).
  { unfold time_name, strlen. cbn [concat]. rewrite !length_app, !two_digits, four_digits by lia. done. }
  assert (Hsl : strlen (slashes (rec_path ds)) = strlen (rec_path ds)) by (unfold slashes, strlen; by rewrite length_map).
  assert (Hb : strlen (bs "smb://") = 6 ∧ strlen (bs "/") = 1 ∧ strlen (bs "/~") = 2 ∧ strlen (bs "-") = 1 ∧ strlen (bs ".asx") = 4 ∧ strlen (bs "-SambaRecord.asx") = 16) by done.
  destruct Hb as (B1 & B2 & B3 & B4 & B5 & B6).
  rewrite (sprintf_done 32) by (change (strlen (time_name t) < 32); lia).
  match goal with |- context [Done (concat ?l)] => change (concat l) with (time_name t) end. cbn [mbind exec_bind rec_server rec_mode].
  rewrite (sprintf_done 513 [bs "smb://"; rec_server ds; bs "/"; slashes (rec_path ds); bs "/~"; hostname; bs "-"; time_name t; bs ".asx"])
    by (cbn [concat]; rewrite !strlen_app, Ht, Hsl; change (strlen []) with 0; lia). cbn [mbind exec_bind].
  destruct (Z.eqb_spec (rec_mode ds) 1) as [Em|Em];
    (rewrite sprintf_done by (cbn [concat]; rewrite !strlen_app, ?Ht, Hsl; change (strlen []) with 0; lia); cbn [mbind exec_bind]; do 3 eexists; split; [done|];
     cbn [concat rec_server rec_path]; rewrite !app_nil_r, !strlen_app, Ht, Hsl; split_and!; try done; lia).
Qed.

(** The names of the files fit.  For a server, a path and a host name of
    the sizes that the configuration and the host allow and any moment that a [time_t] can tell,
    both names are built inside their arrays of 513 bytes, and the one of the file in
    progress differs from the final one. *)
Theorem names_fit (y d h m s : Z) (hostname : str) (ds : SMB_DS) :
  in_time y d h m s → strlen (rec_server ds) <= 64 → strlen (rec_path ds) <= 128 → strlen hostname <= 31 →
  ∃ tmp target ds', generate_filename (moment y d h m s) hostname ds = Done (tmp, target, ds') ∧
    strlen tmp <= 252 ∧ strlen target <= 252 ∧ rec_path ds' = slashes (rec_path ds) ∧
    tmp = bs "smb://" ++ rec_server ds ++ bs "/" ++ slashes (rec_path ds) ++ bs "/~" ++ hostname ++ bs "-" ++ time_name (localtime (moment y d h m s)) ++ bs ".asx" ∧
    (rec_mode ds = 1 → strlen tmp = strlen target + 1).
Proof.
  intros Hv Hs Hp Hh. destruct (generate_ok y d h m s hostname ds Hv Hs Hp Hh) as (tmp & target & ds' & E & H1 & H2 & -> & H3 & H4). by exists tmp, target, (mk_smb (rec_enable ds) (rec_filesize ds) (rec_mode ds) (rec_server ds) (slashes (rec_path ds)) (rec_user ds) (rec_passwd ds)).
Qed.

Definition example_ds (mode : Z) : SMB_DS := mk_smb 1 500 mode (bs "nas") (bs "cam\rec") (bs "bob") (bs "secret").

Lemma names_fit_witness : generate_filename (moment 2008 68 2 0 0) (bs "camera") (example_ds 1)
  = Done (bs "smb://nas/cam/rec/~camera-03092008-020000.asx", bs "smb://nas/cam/rec/camera-03092008-020000.asx", mk_smb 1 500 1 (bs "nas") (bs "cam/rec") (bs "bob") (bs "secret")).
Proof.
  destruct (names_fit 2008 68 2 0 0 (bs "camera") (example_ds 1)) as (tmp & target & ds' & E & _);
    [solve_time|vm_compute; discriminate..|].
  rewrite E. vm_compute in E. by rewrite <-E.
Defined.

(** ** What is opened is closed *)

Definition opened (ev : list event) : list (bool * Z) :=
  omap (λ e, match e with Opened fd => Some (false, fd) | SmbOpened fd => Some (true, fd) | _ => None end) ev.
Definition closed (ev : list event) : list (bool * Z) :=
  omap (λ e, match e with Closed fd => Some (false, fd) | SmbClosed fd => Some (true, fd) | _ => None end) ev.

Lemma opened_app a b : opened (a ++ b) = opened a ++ opened b.
Proof. apply omap_app. Qed.
Lemma closed_app a b : closed (a ++ b) = closed a ++ closed b.
Proof. apply omap_app. Qed.

(** The descriptors that the system gives are descriptors; and the library of the
    Samba client starts, or the variable that is not set happens to hold [-1]. *)
Definition calls_ok (k : calls) : Prop := fd0 k ≠ -1 ∧ fd1 k ≠ -1 ∧ (init_ret k = 0 ∨ junk k = -1).

Lemma streaming_closes k : calls_ok k →
  let '(fd, ev) := get_asf_streaming_fd k in
  fd = -1 ∧ closed ev ≡ₚ opened ev ∨ fd = fd0 k ∧ fd ≠ -1 ∧ (false, fd0 k) :: closed ev ≡ₚ opened ev.
Proof.
  intros (H0 & H1 & _). unfold get_asf_streaming_fd. destruct (pair_ret k =? -1); [by left|].
  unfold pass_fd_and_message. rewrite (proj2 (Z.eqb_neq (fd0 k) (-1)) H0), (proj2 (Z.eqb_neq (fd1 k) (-1)) H1). cbn [negb].
  destruct (sock k =? -1); [left; split; [done|]; done|].
  set (ret := if fcntl_ret k =? -1 then _ else _). destruct (ret <? 0); cbn.
  - left. split; [done|]. apply (Permutation_cons_append [_; _]).
  - right. split_and!; [done|done|]. constructor. apply perm_swap.
Qed.

Lemma server_closes k u p g : strlen u <= 64 → strlen p <= 64 → calls_ok k →
  ∃ fd who ev g', get_smb_server_fd k u p g = Done (fd, who, ev, g') ∧
    (fd = -1 ∧ closed ev ≡ₚ opened ev ∨ fd ≠ -1 ∧ (true, fd) :: closed ev ≡ₚ opened ev).
Proof.
  intros Hu Hp (_ & _ & Hj). unfold get_smb_server_fd. destruct (Z.eqb_spec (init_ret k) 0) as [E|E]; cbn [negb].
  - set (us := if bool_decide (u = []) then bs "dummy" else u). assert (strlen us <= 64) by (unfold us; case_bool_decide; [vm_compute; discriminate|lia]).
    rewrite !append_done by (change (strlen []) with 0; lia). cbn [mbind exec_bind].
    destruct (Z.eqb_spec (open_ret k) (-1)) as [E'|E']; do 4 eexists; (split; [done|]); [left; split; [done|]; by rewrite E'|right; split; done].
  - destruct Hj as [?|Hj]; [done|]. rewrite Hj. do 4 eexists. split; [done|]. left. done.
Qed.

Lemma record_closes k w u p size g : calls_ok k → strlen u <= 64 → strlen p <= 64 → 128 <= size →
  length (stack w) = 2049%nat → Forall is_byte (stack w) → Forall is_byte (served w) →
  ∃ r, record_asf k w u p size g = Done r ∧ (∀ e ev g' f, r = Some (e, ev, g', f) → closed ev ≡ₚ opened ev).
Proof.
  intros Hk Hu Hp Hs W1 W2 W3. unfold record_asf. pose proof (streaming_closes k Hk) as Hst. destruct (get_asf_streaming_fd k) as [ifd ev].
  destruct Hst as [[-> Hc]|(-> & Hn & Hc)]; [eexists; split; [done|]; by intros ? ? ? ? [= _ <- _ _]|].
  rewrite (proj2 (Z.eqb_neq _ _)) by done. destruct (server_closes k u p g Hu Hp Hk) as (fd & who & ev' & g' & -> & Hs'). cbn [mbind exec_bind].
  destruct Hs' as [[-> Hc']|[Hn' Hc']].
  - eexists. split; [done|]. intros ? ? ? ? [= _ <- _ _]. rewrite !closed_app, !opened_app, <-Hc, <-Hc'. cbn. rewrite app_nil_r. symmetry. apply Permutation_cons_append.
  - rewrite (proj2 (Z.eqb_neq _ _)) by done. destruct (send_asf_ends w size W1 W2 W3 Hs) as (r & -> & _). cbn [mbind exec_bind]. destruct r as [[ret f]|]; eexists; (split; [done|]); [|done].
    intros ? ? ? ? [= _ <- _ _]. rewrite !closed_app, !opened_app, <-Hc, <-Hc'. cbn. rewrite app_nil_r. rewrite (Permutation_app_comm _ [(false, fd0 k); (true, fd)]). cbn.
    by rewrite <-Permutation_middle.
Qed.

(** ** The main loop *)

(** The sizes that the configuration allows, and files of at least a kilobyte. *)
Definition conf_ok (ds : SMB_DS) : Prop :=
  strlen (rec_server ds) <= 64 ∧ strlen (rec_path ds) <= 128 ∧ strlen (rec_user ds) <= 64 ∧ strlen (rec_passwd ds) <= 64 ∧ 1 <= rec_filesize ds < 2 ^ 21.

Definition cycle_ok (s : cycle) : Prop :=
  calls_ok (s_calls s) ∧ strlen (s_host s) <= 31 ∧ (∃ y d h m sec, in_time y d h m sec ∧ s_now s = moment y d h m sec) ∧
  length (stack (s_feed s)) = 2049%nat ∧ Forall is_byte (stack (s_feed s)) ∧ Forall is_byte (served (s_feed s)).

(** The recorder runs for ever without a fault and without leaking
    descriptors.  For every configuration of the sizes that are allowed and every
    sequence of recordings, whatever the servers do in them, the main loop leaves no
    buffer, and what it opens, on either side, it closes, once. *)
Theorem record_loop_closes (l : list cycle) (ds : SMB_DS) :
  Forall cycle_ok l → conf_ok ds → ∃ ev, record_loop l ds = Done ev ∧ closed ev ≡ₚ opened ev.
Proof.
  intros Hl. revert ds. induction Hl as [|s l Hs Hl IH]; intros ds Hc; cbn [record_loop]; [by exists []|].
  destruct (_ || _); [by exists []|]. destruct Hs as (Hk & Hh & (y & d & h & m & sec & Hv & ->) & W1 & W2 & W3). pose proof Hc as (C1 & C2 & C3 & C4 & C5).
  destruct (generate_ok y d h m sec (s_host s) ds Hv C1 C2 Hh) as (tmp & target & ds' & -> & _ & _ & -> & _). cbn [mbind exec_bind rec_user rec_passwd rec_filesize].
  rewrite s32_id by lia. destruct (record_closes (s_calls s) (s_feed s) (rec_user ds) (rec_passwd ds) (rec_filesize ds * 1024) 10 Hk C3 C4 ltac:(lia) W1 W2 W3) as (r & -> & Hr).
  cbn [mbind exec_bind]. destruct r as [[[[e ev] g] f]|]; [|by exists []].
  destruct (IH (mk_smb (rec_enable ds) (rec_filesize ds) (rec_mode ds) (rec_server ds) (slashes (rec_path ds)) (rec_user ds) (rec_passwd ds))) as (ev' & -> & Hev').
  { unfold conf_ok. cbn. unfold slashes, strlen in *. by rewrite length_map. }
  cbn [mbind exec_bind]. eexists. split; [done|]. rewrite !closed_app, !opened_app, (Hr _ _ _ _ eq_refl), Hev'. by destruct (e =? 0).
Qed.

Definition example_calls : calls := mk_calls 0 4 5 6 0 0 1144 0 10000 0 0.

Lemma record_loop_closes_witness :
  ∃ ev, record_loop [mk_cycle false (moment 2008 68 2 0 0) (bs "camera") example_calls (example_feed (replicate 5 (mk_turn false 700 1000)))] (example_ds 1) = Done ev ∧
    closed ev ≡ₚ opened ev.
Proof.
  apply (record_loop_closes [_]); [constructor; [|constructor]|].
  - unfold cycle_ok. split; [split_and!; [done|done|by left]|]. split; [vm_compute; discriminate|]. split; [|split; [reflexivity|split; apply (bool_decide_unpack _); vm_compute; done]].
    exists 2008, 68, 2, 0, 0. split; [|done]. solve_time.
  - unfold conf_ok. cbn [rec_server rec_path rec_user rec_passwd rec_filesize example_ds]. split_and!; (vm_compute; (discriminate || reflexivity)).
Defined.

(** ** Putting one file *)

Lemma strlen_slashes p : strlen (slashes p) = strlen p.
Proof. unfold slashes, strlen. by rewrite length_map. Qed.

(** The name that [smbc_put] builds has 256 bytes and no check.  It
    stays in its array exactly when the server, the path and the name of the file
    together have at most 248 bytes; with a server and a path of the sizes that the
    configuration allows, a file name of 57 bytes is too long. *)
Theorem put_url_fits (server path filename : str) :
  (∃ s, put_url server path filename = Done s) ↔ strlen server + strlen path + strlen filename <= 248.
Proof.
  unfold put_url, sprintf. cbn [concat]. rewrite !strlen_app, strlen_slashes. change (strlen (bs "smb://")) with 6. change (strlen (bs "/")) with 1. change (strlen []) with 0.
  destruct (Z.ltb_spec (6 + (strlen server + (1 + (strlen path + (1 + (strlen filename + 0)))))) 257); split; try lia; [eauto|by intros [s E]].
Qed.

(** A successful exit of [smbc_put] means that the whole file is
    on the server, and that everything that was opened has been closed. *)
Theorem put_correct (prog name : str) (k : put_calls) (ev : list event) (f : option ofile) :
  p_errno k ≠ 0 → put_main [prog; name] k = Done (0, ev, f) → f = Some (mk_ofile (p_data k) (strlen (p_data k))) ∧ closed ev ≡ₚ opened ev.
Proof.
  intros He. unfold put_main. destruct (lock_smb_fd _ _) as [l ?]. destruct (l =? -1); [done|]. destruct (p_read k =? -1); [done|]. destruct (p_enable k =? 0); [done|].
  destruct (strrchr name 47); [|done]. unfold get_vlog_fd, put_server_fd. destruct (p_open k =? -1) eqn:Eo; [done|]. destruct (p_stat k =? -1); [done|]. rewrite Eo.
  destruct (negb (p_init k =? 0)); cbn [mbind exec_bind]; [intros [= ? _ _]; congruence|]. destruct (put_url _ _ _); [|done]. cbn [mbind exec_bind].
  destruct (p_smb k =? -1) eqn:Es; [intros [= ? _ _]; congruence|]. rewrite Es. unfold smbc_write. destruct (p_room k <? 0).
  - destruct (negb (-1 =? strlen (p_data k))) eqn:E; [intros [= ? _ _]; congruence|]. apply negb_false_iff, Z.eqb_eq in E. unfold strlen in E. lia.
  - set (n := Z.min _ _). destruct (negb (n =? strlen (p_data k))) eqn:E; [intros [= ? _ _]; congruence|]. apply negb_false_iff, Z.eqb_eq in E. intros [= <- <-].
    rewrite E. split; [|cbn; apply perm_swap || done]. f_equal. cbn. f_equal. change (Z.to_nat 0) with 0%nat. rewrite take_ge by (unfold strlen; lia).
    unfold overwrite. rewrite firstn_O, app_nil_l, drop_nil. apply app_nil_r.
Qed.

Definition example_put : put_calls := mk_put 3 (λ _, 0) 0 1 (bs "nas") (bs "logs") 4 0 (bs "entry") 0 10000 5 100 0.

Lemma put_correct_witness :
  ∃ ev f, put_main [bs "smbc_put"; bs "/var/log/a.txt"] example_put = Done (0, ev, f) ∧ f = Some (mk_ofile (bs "entry") 5) ∧ closed ev ≡ₚ opened ev.
Proof.
  do 2 eexists. split; [vm_compute; reflexivity|]. apply (put_correct (bs "smbc_put") (bs "/var/log/a.txt") example_put); [done|vm_compute; reflexivity].
Defined.
