(* ===== verification/Rtc.v ===== *)
(** * The clock driver

    [src/kernel/linux-2.4.19/drivers/prolific/rtc.c], the kernel's driver for the
    clock of the board, with [mktime] of [include/linux/time.h] and the counting of
    [arch/arm/kernel/irq.c] that turns the interrupt on and off.

    The registers are fields of the state, as are the variables of the driver.  The
    functions that can be interrupted are modelled with the lock held: between the
    steps of a sleeping reader there may be interrupts.  Not compiled, and not
    modelled: the fine alarm, power management and the alarms of processes. *)

From S2P Require Import Prelude Cron.

Local Open Scope Z_scope.

Definition EAGAIN : Z := 11.
Definition EACCES : Z := 13.
Definition EFAULT : Z := 14.
Definition EBUSY : Z := 16.
Definition EINVAL : Z := 22.
Definition ESPIPE : Z := 29.
Definition ERESTARTSYS : Z := 512.

(** ** Times *)

(** The fields that the driver sets or reads. *)
Record rtc_time : Type := mk_rtc_time { r_sec : Z; r_min : Z; r_hour : Z; r_mday : Z; r_mon : Z; r_year : Z; r_wday : Z }.

Definition STARTOFTIME : Z := 1970.
Definition SECDAY : Z := 86400.
Definition leapyear (year : Z) : bool := year mod 4 =? 0.
Definition days_in_year (a : Z) : Z := if leapyear a then 366 else 365.

(** [for (i = STARTOFTIME; day >= days_in_year (i); i++)]: the year and the rest. *)
Fixpoint year_loop (fuel : nat) (i day : Z) : exec (Z * Z) :=
  match fuel with
  | O => Fault
  | S fuel' => if days_in_year i <=? day then year_loop fuel' (i + 1) (day - days_in_year i) else Done (i, day)
  end.

(** [for (i = 1; day >= days_in_month (i); i++)] over the array [month_days]. *)
Fixpoint month_loop (fuel : nat) (month_days : list Z) (i day : Z) : exec (Z * Z) :=
  match fuel with
  | O => Fault
  | S fuel' =>
      n ← load month_days (i - 1);
      if n <=? day then month_loop fuel' month_days (i + 1) (day - n) else Done (i, day)
  end.

Definition month_days_in (year : Z) : list Z := [31; if leapyear year then 29 else 28; 31; 30; 31; 30; 31; 31; 30; 31; 30; 31].

(** 32 bits of seconds are less than 137 years. *)
Definition to_tm (tim : Z) : exec rtc_time :=
  let day := tim / SECDAY in
  let hms := tim mod SECDAY in
  '(year, day) ← year_loop 140 STARTOFTIME day;
  '(mon, day) ← month_loop 13 (month_days_in year) 1 day;
  Done (mk_rtc_time (hms mod 3600 mod 60) (hms mod 3600 / 60) (hms / 3600) (day + 1) mon year ((day + 3) mod 7)).

(** [mktime] of the kernel, on [unsigned int]. *)
Definition mktime (year mon day hour min sec : Z) : Z :=
  let mon := u32 (mon - 2) in
  let '(mon, year) := if s32 mon <=? 0 then (u32 (mon + 12), u32 (year - 1)) else (mon, year) in
  u32 (u32 (u32 (u32 (u32 (year / 4 - year / 100 + year / 400 + u32 (367 * mon) / 12 + day) + u32 (year * 365) - 719499) * 24 + hour) * 60 + min) * 60 + sec).

(** ** The state *)

Record rtc : Type := mk_rtc {
  rRTC : Z; rALM_0 : Z; rALM_1 : Z; intclr : list Z;
  rtc_status : Z; rtc_irq_data : Z; epoch : Z; disable_depth : Z }.

Definition set_status (s : rtc) (v : Z) : rtc := mk_rtc (rRTC s) (rALM_0 s) (rALM_1 s) (intclr s) v (rtc_irq_data s) (epoch s) (disable_depth s).
Definition set_data (s : rtc) (v : Z) : rtc := mk_rtc (rRTC s) (rALM_0 s) (rALM_1 s) (intclr s) (rtc_status s) v (epoch s) (disable_depth s).
Definition set_depth (s : rtc) (v : Z) : rtc := mk_rtc (rRTC s) (rALM_0 s) (rALM_1 s) (intclr s) (rtc_status s) (rtc_irq_data s) (epoch s) v.
Definition set_epoch (s : rtc) (v : Z) : rtc := mk_rtc (rRTC s) (rALM_0 s) (rALM_1 s) (intclr s) (rtc_status s) (rtc_irq_data s) v (disable_depth s).
Definition set_RTC (s : rtc) (v : Z) : rtc := mk_rtc v (rALM_0 s) (rALM_1 s) (intclr s) (rtc_status s) (rtc_irq_data s) (epoch s) (disable_depth s).
Definition set_ALM_0 (s : rtc) (v : Z) : rtc := mk_rtc (rRTC s) v (rALM_1 s) (intclr s) (rtc_status s) (rtc_irq_data s) (epoch s) (disable_depth s).
Definition set_ALM_1 (s : rtc) (v : Z) : rtc := mk_rtc (rRTC s) (rALM_0 s) v (intclr s) (rtc_status s) (rtc_irq_data s) (epoch s) (disable_depth s).
Definition clear_int (s : rtc) (n : Z) : rtc := mk_rtc (rRTC s) (rALM_0 s) (rALM_1 s) (intclr s ++ [n]) (rtc_status s) (rtc_irq_data s) (epoch s) (disable_depth s).

Definition disable_irq (s : rtc) : rtc := set_depth s (disable_depth s + 1).
Definition enable_irq (s : rtc) : rtc := if disable_depth s =? 0 then s else set_depth s (disable_depth s - 1).

(** ** Reading and setting the clock *)

(** [tm_year -= epoch], an [int] and an [unsigned]; [tm_mon -= 1]. *)
Definition from_epoch (s : rtc) (t : rtc_time) : rtc_time :=
  mk_rtc_time (r_sec t) (r_min t) (r_hour t) (r_mday t) (r_mon t - 1) (s32 (r_year t - epoch s)) (r_wday t).

Definition rtc_get_time (s : rtc) : exec rtc_time := t ← to_tm (rRTC s); Done (from_epoch s t).

(** [readw] reads the lower half of the register. *)
Definition readw (v : Z) : Z := v mod 2 ^ 16.

Definition rtc_get_alm_time (s : rtc) : exec rtc_time := t ← to_tm (readw (rALM_0 s)); Done (from_epoch s t).

Definition days_in_mo : list Z := [0; 31; 28; 31; 30; 31; 30; 31; 31; 30; 31; 30; 31].

Definition leap_yr (yrs : Z) : Z := b2z ((yrs mod 4 =? 0) && negb (yrs mod 100 =? 0) || (yrs mod 400 =? 0)).

(** The checks and the result of [mktime], the same in two functions but for the
    type of the fields; [None] where the code returns [-EINVAL]. *)
Definition checked_time (width : Z → Z) (epoch : Z) (t : rtc_time) : exec (option Z) :=
  let yrs := u32 (r_year t + epoch) in
  let mon := width (r_mon t + 1) in
  let day := width (r_mday t) in
  let hrs := width (r_hour t) in
  let min := width (r_min t) in
  let sec := width (r_sec t) in
  if yrs <? 1970 then Done None else
  if (12 <? mon) || (day =? 0) then Done None else
  n ← load days_in_mo mon;
  if n + (if (mon =? 2) && negb (leap_yr yrs =? 0) then 1 else 0) <? day then Done None else
  if (24 <=? hrs) || (60 <=? min) || (60 <=? sec) then Done None else
  if 255 <? u32 (yrs - epoch) then Done None else
  Done (Some (mktime yrs mon day hrs min sec)).

(** The fields are kept as [unsigned char]. *)
Definition rtc_set_time (s : rtc) (t : rtc_time) : exec (Z * rtc) :=
  r ← checked_time u8 (epoch s) t;
  Done (match r with Some nowtime => (0, set_RTC s nowtime) | None => (- EINVAL, s) end).

(** Here they are [unsigned int]. *)
Definition rtc_set_alm_time (s : rtc) (t : rtc_time) : exec (Z * rtc) :=
  r ← checked_time u32 (epoch s) t;
  Done (match r with Some almtime => (0, set_ALM_0 s almtime) | None => (- EINVAL, s) end).

(** ** The device *)

Definition RTC_IS_OPEN : Z := 1.

(** The vector is read from the chip. *)
Definition rtc_interrupt (alm_vect : Z) (s : rtc) : rtc :=
  let s := if (0 <=? alm_vect) && (alm_vect <=? 3) || (alm_vect =? 16) then clear_int s alm_vect else s in
  set_data s (u32 (rtc_irq_data s + 1)).

Definition rtc_open (s : rtc) : Z * rtc :=
  if negb (Z.land (rtc_status s) RTC_IS_OPEN =? 0) then (- EBUSY, s)
  else (0, set_data (set_status s (Z.lor (rtc_status s) RTC_IS_OPEN)) 0).

Definition rtc_release (s : rtc) : Z * rtc :=
  let s := set_data s 0 in (0, set_status s (Z.land (rtc_status s) (Z.lnot RTC_IS_OPEN))).

(** Whether the poll reports data. *)
Definition rtc_poll (s : rtc) : bool := negb (rtc_irq_data s =? 0).

Definition rtc_llseek : Z := - ESPIPE.

(** A reader: the vectors of the interrupts before each turn of its loop, and
    whether a signal is pending then.  [None] while it sleeps.  The result, what was
    put into the user's memory, and the state. *)
Fixpoint read_loop (wakes : list (list Z * bool)) (nonblock put_ok : bool) (s : rtc) : option (Z * option Z * rtc) :=
  match wakes with
  | [] => None
  | (irqs, signal) :: wakes' =>
      let s := fold_left (λ s v, rtc_interrupt v s) irqs s in
      let data := rtc_irq_data s in
      let s := set_data s 0 in
      if negb (data =? 0) then Some (if put_ok then (4, Some data, s) else (- EFAULT, None, s))
      else if nonblock then Some (- EAGAIN, None, s)
      else if signal then Some (- ERESTARTSYS, None, s)
      else read_loop wakes' nonblock put_ok s
  end.

Definition rtc_read (count : Z) (wakes : list (list Z * bool)) (nonblock put_ok : bool) (s : rtc) : option (Z * option Z * rtc) :=
  if count <? 4 then Some (- EINVAL, None, s) else read_loop wakes nonblock put_ok s.

(** The commands with the value behind [arg], [None] when it cannot be copied;
    [EPOCH_SET] has the value itself. *)
Inductive rtc_cmd : Type :=
| RTC_AIE_OFF | RTC_AIE_ON | RTC_PIE_OFF | RTC_PIE_ON | RTC_UIE_OFF | RTC_UIE_ON
| RTC_ALM_READ | RTC_ALM_SET (arg : option rtc_time) | RTC_RD_TIME | RTC_SET_TIME (arg : option rtc_time)
| RTC_IRQP_READ | RTC_IRQP_SET | RTC_EPOCH_READ | RTC_EPOCH_SET (arg : Z) | RTC_other.

(** What is copied to the user. *)
Inductive rtc_out : Type := Nothing | Time (t : rtc_time) | Epoch (e : Z).

(** [capable]: the process may set the clock; [copy_ok]: the result can be copied. *)
Definition rtc_ioctl (capable copy_ok : bool) (cmd : rtc_cmd) (s : rtc) : exec (Z * rtc_out * rtc) :=
  let copy_to_user o := if copy_ok then (0, o, s) else (- EFAULT, Nothing, s) in
  match cmd with
  | RTC_AIE_OFF => Done (0, Nothing, disable_irq s)
  | RTC_AIE_ON => Done (0, Nothing, enable_irq s)
  | RTC_PIE_OFF | RTC_PIE_ON | RTC_UIE_OFF | RTC_UIE_ON => Done (- EINVAL, Nothing, s)
  | RTC_ALM_READ => wtime ← rtc_get_alm_time s; Done (copy_to_user (Time wtime))
  | RTC_ALM_SET None => Done (- EFAULT, Nothing, s)
  | RTC_ALM_SET (Some alm_tm) => '(ret, s) ← rtc_set_alm_time s alm_tm; Done (ret, Nothing, s)
  | RTC_RD_TIME => wtime ← rtc_get_time s; Done (copy_to_user (Time wtime))
  | RTC_SET_TIME arg =>
      if negb capable then Done (- EACCES, Nothing, s) else
      match arg with
      | None => Done (- EFAULT, Nothing, s)
      | Some rtc_tm => '(ret, s) ← rtc_set_time s rtc_tm; Done (ret, Nothing, s)
      end
  | RTC_IRQP_READ | RTC_IRQP_SET => Done (- EINVAL, Nothing, s)
  | RTC_EPOCH_READ => Done (copy_to_user (Epoch (epoch s)))
  | RTC_EPOCH_SET arg =>
      if arg <? 1900 then Done (- EINVAL, Nothing, s)
      else if negb capable then Done (- EACCES, Nothing, s)
      else Done (0, Nothing, set_epoch s arg)
  | RTC_other => Done (- EINVAL, Nothing, s)
  end.

(** [rtc_init], when its registrations succeed. *)
Definition rtc_init (clock : Z) : rtc := disable_irq (mk_rtc clock 0xFFFFFFFF 0xFFFFFFFF [] 0 0 1900 0).

(** ** The file in [/proc] *)

(** [%02d] and [%04d] of a number that is not negative. *)
Definition padded (w : nat) (n : Z) : list Z := let d := itoa n in replicate (w - length d) 48 ++ d.

(** A field of the alarm, or two stars. *)
Definition alarm_field (limit n : Z) : list Z := if n <=? limit then padded 2 n else bs "**".

Definition rtc_proc_output (s : rtc) : exec (list Z) :=
  tm ← rtc_get_time s;
  al ← rtc_get_alm_time s;
  Done (bs "rtc_time" ++ [9] ++ bs ": " ++ padded 2 (r_hour tm) ++ [58] ++ padded 2 (r_min tm) ++ [58] ++ padded 2 (r_sec tm) ++ [10] ++
        bs "rtc_date" ++ [9] ++ bs ": " ++ padded 4 (u32 (r_year tm + epoch s)) ++ [45] ++ padded 2 (r_mon tm + 1) ++ [45] ++ padded 2 (r_mday tm) ++ [10] ++
        bs "rtc_epoch" ++ [9] ++ bs ": " ++ padded 4 (epoch s) ++ [10] ++
        bs "alarm" ++ [9; 9] ++ bs ": " ++ alarm_field 24 (r_hour al) ++ [58] ++ alarm_field 59 (r_min al) ++ [58] ++ alarm_field 59 (r_sec al) ++ [10]).

(** How much of the text is read, from [off] on, and whether it is the end. *)
Definition rtc_read_proc (text : list Z) (off count : Z) : Z * bool :=
  let len := strlen text in
  let eof := len <=? off + count in
  let len := len - off in
  let len := if count <? len then count else len in
  (if len <? 0 then 0 else len, eof).
