(* ===== verification/RtcTheorems.v ===== *)
(** * What the clock driver guarantees

    The clock counts seconds and the driver speaks of dates: the conversions agree
    with the calendar from 1970 to 2099, so a time that is set is read back; what is
    no date is refused.  The device is open once at a time, and the interrupts that a
    reader is told of are those that happened.  And what goes wrong: the day of the
    week, and the alarm that is read back. *)

From S2P Require Import Prelude Clock Dst Cron Rtc.

Local Open Scope Z_scope.

(** ** From seconds to dates *)

Lemma leapyear_leap y : 1970 <= y < 2100 → leapyear y = leap y.
Proof.
  intros Hy. unfold leapyear, leap. destruct (Z.eqb_spec (y mod 4) 0); cbn [andb].
  - destruct (Z.eqb_spec (y mod 100) 0); cbn [negb orb]; [|done]. symmetry. apply Z.eqb_eq. zdm.
  - symmetry. apply Z.eqb_neq. zdm.
Qed.

Lemma days_in_year_days y : 1970 <= y < 2100 → days_in_year y = year_days y.
Proof. intros Hy. unfold days_in_year, year_days. by rewrite leapyear_leap. Qed.

Lemma year_loop_spec fuel : ∀ k n d,
  (k <= n)%nat → (n < 130)%nat → (n - k < fuel)%nat → 0 <= d < year_days (1970 + Z.of_nat n) →
  year_loop fuel (1970 + Z.of_nat k) (days_to n - days_to k + d) = Done (1970 + Z.of_nat n, d).
Proof.
  induction fuel as [|fuel IH]; intros k n d Hk Hn Hf Hd; [lia|]. cbn [year_loop]. rewrite days_in_year_days by lia. destruct (decide (k = n)) as [->|Hne].
  - replace (days_to n - days_to n + d) with d by lia. by rewrite (proj2 (Z.leb_gt _ _)) by lia.
  - pose proof (days_to_mono k n ltac:(lia)). rewrite (proj2 (Z.leb_le _ _)) by lia. rewrite <-(IH (S k) n d) by lia. cbn [days_to]. f_equal; lia.
Qed.

Lemma month_loop_spec all fuel : ∀ k rest d, drop k all = rest → 0 <= d < fold_left Z.add rest 0 → (length rest <= fuel)%nat →
  month_loop fuel all (1 + Z.of_nat k) d = Done (1 + (find_month rest (Z.of_nat k) d).1, (find_month rest (Z.of_nat k) d).2).
Proof.
  assert (Hf : ∀ l a, fold_left Z.add l a = a + fold_left Z.add l 0).
  { induction l as [|x l IH]; intros a; cbn [fold_left]; [lia|]. rewrite (IH (a + x)), (IH (0 + x)). lia. }
  induction fuel as [|fuel IH]; intros k rest d Hr Hd Hl; (destruct rest as [|n rest]; [cbn in Hd; lia|]); [cbn in Hl; lia|]. cbn [month_loop find_month].
  assert (Hn : load all (1 + Z.of_nat k - 1) = Done n).
  { replace (1 + Z.of_nat k - 1) with (Z.of_nat k) by lia. apply load_done. by rewrite <-(Nat.add_0_r k), <-lookup_drop, Hr. }
  rewrite Hn. cbn [mbind exec_bind]. cbn [fold_left length] in Hd, Hl. rewrite Hf in Hd. destruct (Z.leb_spec n d), (Z.ltb_spec d n); try lia; [|done].
  replace (1 + Z.of_nat k + 1) with (1 + Z.of_nat (S k)) by lia. replace (Z.of_nat k + 1) with (Z.of_nat (S k)) by lia.
  apply IH; [|lia|lia]. replace (S k) with (k + 1)%nat by lia. by rewrite <-drop_drop, Hr.
Qed.

(** A moment of the calendar, in the driver's form. *)
Lemma to_tm_moment y d h m s : valid y d h m s →
  to_tm (moment y d h m s) =
    let '(mon, mday) := find_month (month_days y) 0 d in Done (mk_rtc_time s m h (mday + 1) (mon + 1) y ((mday + 3) mod 7)).
Proof.
  intros (Hy & Hd & Hh & Hm & Hs). unfold to_tm, moment, SECDAY, STARTOFTIME. set (n := Z.to_nat (y - 1970)). assert (Ey : y = 1970 + Z.of_nat n) by lia.
  replace (((new_year y + d) * 86400 + h * 3600 + m * 60 + s) / 86400) with (days_to n - days_to 0 + d) by (unfold new_year; fold n; cbn [days_to]; zdm).
  replace (((new_year y + d) * 86400 + h * 3600 + m * 60 + s) mod 86400) with (h * 3600 + m * 60 + s) by zdm.
  pose proof (year_loop_spec 140 0 n d ltac:(lia) ltac:(lia) ltac:(lia) ltac:(rewrite <-Ey; lia)) as E. rewrite <-Ey in E. change (1970 + Z.of_nat 0) with 1970 in E. rewrite E. cbn [mbind exec_bind].
  assert (Hsum : fold_left Z.add (month_days y) 0 = year_days y) by (unfold month_days, year_days; destruct (leap y); done).
  assert (Hms : month_days_in y = month_days y) by (unfold month_days_in, month_days; by rewrite leapyear_leap by lia). rewrite Hms.
  pose proof (month_loop_spec (month_days y) 13 0 (month_days y) d eq_refl ltac:(lia) ltac:(cbn; lia)) as Em. change (1 + Z.of_nat 0) with 1 in Em. rewrite Em.
  cbn [mbind exec_bind]. change (Z.of_nat 0) with 0. destruct (find_month (month_days y) 0 d) as [mon mday]. cbn [fst snd].
  clear - Hh Hm Hs. replace ((h * 3600 + m * 60 + s) mod 3600) with (m * 60 + s) by zdm. f_equal. f_equal; try lia; zdm.
Qed.

(** C19 (equivalence): the driver's calendar is the calendar.  From 1970 to 2099 the
    loops of the driver give the year, month, day, hour, minute and second of the
    calendar, on an unsigned number of 32 bits; but the day of the week is computed from the day of the month
    alone. *)
Theorem to_tm_calendar (t : Z) :
  0 <= t < moment 2100 0 0 0 0 →
  to_tm t = Done (mk_rtc_time (tm_sec (calendar t)) (tm_min (calendar t)) (tm_hour (calendar t)) (tm_mday (calendar t))
                    (tm_mon (calendar t) + 1) (tm_year (calendar t) + 1900) ((tm_mday (calendar t) + 2) mod 7)).
Proof.
  intros Ht. destruct (moment_of t Ht) as (y & d & h & m & s & Hv & ->). rewrite to_tm_moment by done.
  destruct (calendar_moment _ _ _ _ _ Hv) as (E1 & E2 & E3 & E4 & E5). rewrite E1, E3, E4, E5. revert E1 E2. unfold calendar.
  destruct (year_of _) as [y' d']. destruct (find_month (month_days y') 0 d') as [mon mday] eqn:Em. cbn [tm_year tm_yday tm_mon tm_mday]. intros Ey ->.
  assert (y' = y) as -> by lia. rewrite Em. do 2 f_equal; [lia|]. f_equal. lia.
Qed.

Lemma to_tm_calendar_witness : to_tm (moment 2008 68 2 0 0) = Done (mk_rtc_time 0 0 2 9 3 2008 4) ∧ tm_wday (calendar (moment 2008 68 2 0 0)) = 0.
Proof. split; [etrans; [apply to_tm_calendar; vm_compute; split; (discriminate || reflexivity)|reflexivity]|reflexivity]. Defined.

(** After the twenty-eighth of February 2100 the driver has a day that is none. *)
Lemma to_tm_2100 : to_tm (moment 2100 59 0 0 0) = Done (mk_rtc_time 0 0 0 29 2 2100 3).
Proof. reflexivity. Qed.

(** ** From dates to seconds *)

(** The day that [mktime] computes, without its wraps. *)
Definition gauss (y mon : Z) : Z :=
  let '(m, y) := if mon <=? 2 then (mon + 10, y - 1) else (mon - 2, y) in
  y / 4 - y / 100 + y / 400 + 367 * m / 12 + y * 365 - 719499.

Lemma gauss_days y mon : 1970 <= y < 2100 → 1 <= mon <= 12 → gauss y mon + 1 = new_year y + days_before y (mon - 1).
Proof.
  intros Hy Hm. pose proof (years_spec 1970 130 (λ y, forallb (λ k, gauss y (Z.of_nat k) + 1 =? new_year y + days_before y (Z.of_nat k - 1)) (seq 1 12)) y
    ltac:(vm_compute; reflexivity) ltac:(lia)) as H. cbn beta in H. rewrite forallb_forall in H. specialize (H (Z.to_nat mon)).
  rewrite Z2Nat.id in H by lia. apply Z.eqb_eq, H, in_seq. lia.
Qed.

Lemma u32_small x : 0 <= x < 2 ^ 32 → u32 x = x.
Proof. intros. unfold u32. by apply Z.mod_small. Qed.

Lemma mktime_gauss y mon day h m s : 1970 <= y < 2100 → 1 <= mon <= 12 → 1 <= day <= 31 → 0 <= h < 24 → 0 <= m < 60 → 0 <= s < 60 → 0 <= gauss y mon + day <= 49000 →
  mktime y mon day h m s = (gauss y mon + day) * 86400 + h * 3600 + m * 60 + s.
Proof.
  intros Hy Hm Hd Hh Hmi Hs Hg. unfold mktime, gauss in *.
  assert (Hb : ∀ y' m', 1969 <= y' < 2100 → 1 <= m' <= 12 → let a := y' / 4 - y' / 100 + y' / 400 + 367 * m' / 12 in 0 <= a + y' * 365 - 719499 + day <= 49000 → 
    u32 (u32 (u32 (u32 (u32 (y' / 4 - y' / 100 + y' / 400 + u32 (367 * m') / 12 + day) + u32 (y' * 365) - 719499) * 24 + h) * 60 + m) * 60 + s)
    = (a + y' * 365 - 719499 + day) * 86400 + h * 3600 + m * 60 + s).
  { clear Hy Hm Hg. intros y' m' Hy' Hm' a Ha. rewrite (u32_small (367 * m')), (u32_small (y' * 365)) by lia. fold a.
    assert (0 <= a <= 2000) by (unfold a; zdm).
    rewrite (u32_small (a + day)) by lia. replace (a + day + y' * 365 - 719499) with (a + y' * 365 - 719499 + day) by lia. generalize dependent (a + y' * 365 - 719499 + day).
    intros g Hg. rewrite (u32_small g), (u32_small (g * 24 + h)), (u32_small ((g * 24 + h) * 60 + m)), (u32_small (((g * 24 + h) * 60 + m) * 60 + s)) by lia. lia. }
  destruct (Z.leb_spec mon 2).
  - assert (Hu : u32 (mon - 2) = (mon - 2) mod 2 ^ 32) by done. assert (Hs32 : s32 (u32 (mon - 2)) = mon - 2).
    { unfold s32. assert (u32 (u32 (mon - 2)) = u32 (mon - 2)) as -> by (unfold u32; apply Z.mod_mod; lia). destruct (decide (mon = 2)) as [->|]; [done|]. assert (mon = 1) as -> by lia. done. }
    rewrite Hs32, (proj2 (Z.leb_le _ _)) by lia. assert (Hm12 : u32 (u32 (mon - 2) + 12) = mon + 10) by (unfold u32; rewrite Z.add_mod_idemp_l by lia; rewrite Z.mod_small by lia; lia).
    rewrite Hm12, (u32_small (y - 1)) by lia. apply Hb; [lia|lia|exact Hg].
  - rewrite (u32_small (mon - 2)) by lia. rewrite s32_id by lia. rewrite (proj2 (Z.leb_gt _ _)) by lia. apply Hb; [lia|lia|exact Hg].
Qed.

(** The length of a month, that counts from 1. *)
Definition month_length (y mon : Z) : Z := nth (Z.to_nat (mon - 1)) (month_days y) 0.

Lemma month_fits y mon : 1 <= mon <= 12 → 0 <= days_before y (mon - 1) ∧ days_before y (mon - 1) + month_length y mon <= year_days y ∧ 28 <= month_length y mon <= 31.
Proof.
  intros Hm. assert (Hc : ∀ b, forallb (λ k, let ms := [31; if b : bool then 29 else 28; 31; 30; 31; 30; 31; 31; 30; 31; 30; 31] in
    let f := fold_left Z.add (take (Z.to_nat (Z.of_nat k - 1)) ms) 0 in let l := nth (Z.to_nat (Z.of_nat k - 1)) ms 0 in
    (0 <=? f) && (f + l <=? (if b then 366 else 365)) && (28 <=? l) && (l <=? 31)) (seq 1 12) = true) by (intros []; reflexivity).
  specialize (Hc (leap y)). rewrite forallb_forall in Hc. specialize (Hc (Z.to_nat mon) ltac:(apply in_seq; lia)). rewrite Z2Nat.id in Hc by lia.
  unfold days_before, month_length, month_days, year_days. cbv zeta in Hc. apply andb_prop in Hc as [Hc H4%Z.leb_le]. apply andb_prop in Hc as [Hc H3%Z.leb_le].
  apply andb_prop in Hc as [H1%Z.leb_le H2%Z.leb_le]. done.
Qed.

Lemma mktime_moment y mon day h m s : 1970 <= y < 2100 → 1 <= mon <= 12 → 1 <= day <= month_length y mon → 0 <= h < 24 → 0 <= m < 60 → 0 <= s < 60 →
  valid y (days_before y (mon - 1) + day - 1) h m s ∧ mktime y mon day h m s = moment y (days_before y (mon - 1) + day - 1) h m s.
Proof.
  intros Hy Hm Hd Hh Hmi Hs. pose proof (month_fits y mon Hm) as (H1 & H2 & H3). pose proof (gauss_days y mon Hy Hm) as Hg.
  assert (Hn : 0 <= new_year y <= 47482).
  { unfold new_year. split; [apply days_to_nonneg|]. destruct (decide (y = 2099)) as [->|]; [vm_compute; discriminate|].
    pose proof (days_to_mono (Z.to_nat (y - 1970)) 129 ltac:(lia)) as Hmono. pose proof (year_days_pos (1970 + Z.of_nat (Z.to_nat (y - 1970)))).
    assert (days_to 129 = 47117) as E by (vm_compute; reflexivity). rewrite E in Hmono. lia. }
  split; [unfold valid; lia|]. pose proof (year_days_pos y). rewrite mktime_gauss by (done || lia). unfold moment. replace (gauss y mon + day) with (new_year y + (days_before y (mon - 1) + day - 1)) by lia. lia.
Qed.

(** ** Setting the clock *)

(** A date in the form of the driver, its year counted from [e]. *)
Definition date_ok (e : Z) (t : rtc_time) : Prop :=
  1970 <= r_year t + e ∧ 0 <= r_year t <= 255 ∧ 0 <= r_mon t < 12 ∧ 1 <= r_mday t <= month_length (r_year t + e) (r_mon t + 1) ∧
  0 <= r_hour t < 24 ∧ 0 <= r_min t < 60 ∧ 0 <= r_sec t < 60.

#[export] Instance date_ok_dec e t : Decision (date_ok e t).
Proof. unfold date_ok. apply _. Defined.

(** Fields that an [unsigned char] can hold. *)
Definition fields_fit (t : rtc_time) : Prop :=
  - 1 <= r_mon t < 255 ∧ is_byte (r_mday t) ∧ is_byte (r_hour t) ∧ is_byte (r_min t) ∧ is_byte (r_sec t).

Lemma days_in_mo_at mon : 0 <= mon <= 12 → ∃ n, load days_in_mo mon = Done n ∧
  ∀ y, n + (if (mon =? 2) && negb (leap_yr y =? 0) then 1 else 0) = if mon =? 0 then 0 else month_length y mon.
Proof.
  intros Hm. assert (Hl : ∀ y, negb (leap_yr y =? 0) = leap y) by (intros y; unfold leap_yr, leap; by destruct (_ || _)).
  assert (Hc : mon = 0 ∨ mon = 1 ∨ mon = 2 ∨ mon = 3 ∨ mon = 4 ∨ mon = 5 ∨ mon = 6 ∨ mon = 7 ∨ mon = 8 ∨ mon = 9 ∨ mon = 10 ∨ mon = 11 ∨ mon = 12) by lia.
  repeat (destruct Hc as [-> |Hc]; [eexists; split; [reflexivity|intros y; rewrite Hl; cbn; by destruct (leap y)]|]). subst. eexists. split; [reflexivity|intros y; rewrite Hl; cbn; by destruct (leap y)].
Qed.

Lemma checked_time_spec e t : 0 <= e < 2 ^ 31 → - 2 ^ 31 <= r_year t < 2 ^ 31 → 0 <= r_year t + e → fields_fit t →
  ∀ width, (∀ x, is_byte x → width x = x) →
  checked_time width e t = Done (if bool_decide (date_ok e t) then Some (mktime (r_year t + e) (r_mon t + 1) (r_mday t) (r_hour t) (r_min t) (r_sec t)) else None).
Proof.
  intros He Hy Hye (Hmo & Hd & Hh & Hm & Hs) width Hw. unfold checked_time. rewrite (u32_small (r_year t + e)) by lia. cbv zeta.
  rewrite !Hw by (done || (unfold is_byte; lia)). unfold is_byte in *.
  destruct (Z.ltb_spec (r_year t + e) 1970); [rewrite bool_decide_false by (unfold date_ok; lia); done|].
  destruct (Z.ltb_spec 12 (r_mon t + 1)); [rewrite bool_decide_false by (unfold date_ok; lia); done|]. cbn [orb].
  destruct (Z.eqb_spec (r_mday t) 0); [rewrite bool_decide_false by (unfold date_ok; lia); done|].
  destruct (days_in_mo_at (r_mon t + 1)) as (len & -> & Hn); [lia|]. cbn [mbind exec_bind]. rewrite Hn.
  destruct (Z.eqb_spec (r_mon t + 1) 0); [rewrite (proj2 (Z.ltb_lt _ _)), bool_decide_false by (unfold date_ok; lia); done|].
  destruct (Z.ltb_spec (month_length (r_year t + e) (r_mon t + 1)) (r_mday t)); [rewrite bool_decide_false by (unfold date_ok; lia); done|].
  destruct (Z.leb_spec 24 (r_hour t)); [rewrite bool_decide_false by (unfold date_ok; lia); done|]. cbn [orb].
  destruct (Z.leb_spec 60 (r_min t)); [rewrite bool_decide_false by (unfold date_ok; lia); done|]. cbn [orb].
  destruct (Z.leb_spec 60 (r_sec t)); [rewrite bool_decide_false by (unfold date_ok; lia); done|].
  replace (r_year t + e - e) with (r_year t) by lia. destruct (Z_lt_dec (r_year t) 0).
  - assert (E : u32 (r_year t) = r_year t + 2 ^ 32) by (unfold u32; zdm). rewrite E, (proj2 (Z.ltb_lt _ _)), bool_decide_false by (unfold date_ok; lia). done.
  - rewrite (u32_small (r_year t)) by lia. destruct (Z.ltb_spec 255 (r_year t)); [rewrite bool_decide_false by (unfold date_ok; lia); done|].
    by rewrite bool_decide_true by (unfold date_ok; lia).
Qed.

Lemma u8_byte x : is_byte x → u8 x = x.
Proof. intros. unfold u8, is_byte in *. apply Z.mod_small. change (2 ^ 8) with 256. lia. Qed.

(** C39 (error): what is no date is refused.  With fields that fit a byte, the clock is
    set exactly when they are a date of the calendar, from 1970 and at most 255 years
    behind the epoch; otherwise the result is [-EINVAL] and nothing is changed. *)
Theorem set_time_checks (s : rtc) (t : rtc_time) :
  0 <= epoch s < 2 ^ 31 → - 2 ^ 31 <= r_year t < 2 ^ 31 → 0 <= r_year t + epoch s → fields_fit t →
  rtc_set_time s t = Done (if bool_decide (date_ok (epoch s) t)
    then (0, set_RTC s (mktime (r_year t + epoch s) (r_mon t + 1) (r_mday t) (r_hour t) (r_min t) (r_sec t))) else (- EINVAL, s)).
Proof. intros He Hy Hye Hf. unfold rtc_set_time. rewrite checked_time_spec by (done || apply u8_byte). by destruct (bool_decide _). Qed.

Lemma set_time_checks_witness :
  rtc_set_time (rtc_init 0) (mk_rtc_time 0 0 2 30 1 108 0) = Done (- EINVAL, rtc_init 0) ∧
  rtc_set_time (rtc_init 0) (mk_rtc_time 0 0 2 29 1 108 0) = Done (0, set_RTC (rtc_init 0) (moment 2008 59 2 0 0)).
Proof.
  split; (etrans; [apply set_time_checks; [cbn; lia|cbn; lia|cbn; lia|repeat split; cbn; lia]|reflexivity]).
Defined.

(** A day that does not fit a byte is taken modulo 256. *)
Lemma day_wraps : rtc_set_time (rtc_init 0) (mk_rtc_time 0 0 0 261 0 108 0) = rtc_set_time (rtc_init 0) (mk_rtc_time 0 0 0 5 0 108 0).
Proof. reflexivity. Qed.

Lemma find_month_take ms : ∀ k m r, (k < length ms)%nat → 0 <= r < nth k ms 0 → Forall (λ n, 0 <= n) ms →
  find_month ms m (fold_left Z.add (take k ms) 0 + r) = (m + Z.of_nat k, r).
Proof.
  assert (Hf : ∀ l a, fold_left Z.add l a = a + fold_left Z.add l 0).
  { induction l as [|x l IH]; intros a; cbn [fold_left]; [lia|]. rewrite (IH (a + x)), (IH (0 + x)). lia. }
  assert (Hp : ∀ l, Forall (λ n, 0 <= n) l → 0 <= fold_left Z.add l 0).
  { induction 1 as [|x l Hx Hl IH]; [done|]. cbn [fold_left]. rewrite Hf. lia. }
  induction ms as [|n ms IH]; intros k m r Hk Hr Hms; cbn [length] in Hk; [lia|]. inversion Hms; subst. cbn [find_month]. destruct k as [|k]; cbn [take fold_left nth] in *.
  - rewrite (proj2 (Z.ltb_lt _ _)) by lia. f_equal; lia.
  - rewrite Hf. pose proof (Hp (take k ms) ltac:(by apply Forall_take)). rewrite (proj2 (Z.ltb_ge _ _)) by lia.
    replace (0 + n + fold_left Z.add (take k ms) 0 + r - n) with (fold_left Z.add (take k ms) 0 + r) by lia. rewrite IH by (done || lia). f_equal; lia.
Qed.

Lemma find_month_date y mon day : 1 <= mon <= 12 → 1 <= day <= month_length y mon → find_month (month_days y) 0 (days_before y (mon - 1) + day - 1) = (mon - 1, day - 1).
Proof.
  intros Hm Hd. unfold days_before, month_length in *. replace (fold_left Z.add (take (Z.to_nat (mon - 1)) (month_days y)) 0 + day - 1) with (fold_left Z.add (take (Z.to_nat (mon - 1)) (month_days y)) 0 + (day - 1)) by lia.
  rewrite find_month_take; [f_equal; lia|cbn; lia|lia|]. unfold month_days. destruct (leap y); repeat constructor; lia.
Qed.

(** C20 (roundtrip): the time that is set is the time that is read.  A date from 1970
    to 2099 is accepted and comes back with all its fields, but for the day of the
    week. *)
Theorem clock_roundtrip (s : rtc) (t : rtc_time) :
  0 <= epoch s < 2 ^ 31 → date_ok (epoch s) t → r_year t + epoch s < 2100 →
  ∃ s', rtc_set_time s t = Done (0, s') ∧
    rtc_get_time s' = Done (mk_rtc_time (r_sec t) (r_min t) (r_hour t) (r_mday t) (r_mon t) (r_year t) ((r_mday t + 2) mod 7)).
Proof.
  intros He Hok Hy. pose proof Hok as (H1 & H2 & H3 & H4 & H5 & H6 & H7). pose proof (month_fits (r_year t + epoch s) (r_mon t + 1) ltac:(lia)) as (_ & _ & Hlen).
  unfold rtc_set_time. rewrite checked_time_spec by (first [apply u8_byte|unfold fields_fit, is_byte; lia|lia|done]). rewrite bool_decide_true by done. cbn [mbind exec_bind].
  eexists. split; [reflexivity|]. unfold rtc_get_time. cbn [rRTC set_RTC]. destruct (mktime_moment (r_year t + epoch s) (r_mon t + 1) (r_mday t) (r_hour t) (r_min t) (r_sec t)) as [Hv ->]; try lia.
  rewrite to_tm_moment, find_month_date by (done || lia). cbn [mbind exec_bind]. unfold from_epoch. cbn [r_sec r_min r_hour r_mday r_mon r_year r_wday epoch set_RTC].
  do 2 f_equal; try lia; [rewrite s32_id; lia|f_equal; lia].
Qed.

Lemma clock_roundtrip_witness :
  ∃ s', rtc_set_time (rtc_init 0) (mk_rtc_time 30 15 8 29 1 108 5) = Done (0, s') ∧ rtc_get_time s' = Done (mk_rtc_time 30 15 8 29 1 108 3).
Proof.
  apply (clock_roundtrip (rtc_init 0) (mk_rtc_time 30 15 8 29 1 108 5)); [cbn; lia|apply (bool_decide_unpack _); vm_compute; exact Logic.I|cbn; lia].
Defined.

(** ** The alarm *)

(** The alarm cannot be read back.  Only the lower half of the register
    is read, so whatever the alarm was set to, it is shown on the first of January
    1970, before a quarter past six in the evening. *)
Theorem alarm_truncated (s : rtc) :
  ∃ t, rtc_get_alm_time s = Done t ∧ r_mday t = 1 ∧ r_mon t = 0 ∧ r_year t = s32 (1970 - epoch s) ∧ 0 <= r_hour t <= 18.
Proof.
  unfold rtc_get_alm_time, readw. pose proof (Z.mod_pos_bound (rALM_0 s) (2 ^ 16) ltac:(lia)) as Hb. set (v := rALM_0 s mod 2 ^ 16) in *. clearbody v.
  unfold to_tm, SECDAY, STARTOFTIME. rewrite (Z.div_small v 86400), (Z.mod_small v 86400) by lia. cbn [year_loop]. change (days_in_year 1970 <=? 0) with false. cbv iota. cbn [mbind exec_bind].
  change (month_loop 13 (month_days_in 1970) 1 0) with (Done (1, 0)). cbn [mbind exec_bind]. eexists. split; [reflexivity|]. unfold from_epoch. cbn [r_mday r_mon r_year r_hour].
  split_and!; [done|done|done| |]; zdm.
Qed.

(** The alarm that is set is another one. *)
Lemma alarm_set_and_read :
  ∃ s', rtc_set_alm_time (rtc_init 0) (mk_rtc_time 0 30 6 1 5 108 0) = Done (0, s') ∧ rtc_get_alm_time s' = Done (mk_rtc_time 12 41 4 1 0 70 3).
Proof. eexists. split; reflexivity. Qed.

(** ** The device *)

(** What happens to the device, and what came of it: how often it is open, the
    interrupts that were raised since the driver was loaded, those that readers were
    told of, those that were lost because a reader's memory could not be written, and
    those that were dropped when the device was opened or closed. *)
Record account : Type := mk_account { holders : Z; raised : Z; told : Z; lost : Z; dropped : Z }.

Inductive device : account → rtc → Prop :=
| device_init clock : device (mk_account 0 0 0 0 0) (rtc_init clock)
| device_irq a s v : device a s → device (mk_account (holders a) (raised a + 1) (told a) (lost a) (dropped a)) (rtc_interrupt v s)
| device_open a s s' : device a s → rtc_open s = (0, s') → device (mk_account (holders a + 1) (raised a) (told a) (lost a) (dropped a + rtc_irq_data s)) s'
| device_busy a s r s' : device a s → rtc_open s = (r, s') → r ≠ 0 → device a s'
| device_release a s : device a s → holders a ≠ 0 → device (mk_account (holders a - 1) (raised a) (told a) (lost a) (dropped a + rtc_irq_data s)) (rtc_release s).2
| device_read a s signal nonblock r n s' : device a s → read_loop [([], signal)] nonblock true s = Some (r, n, s') →
    device (mk_account (holders a) (raised a) (told a + default 0 n) (lost a) (dropped a)) s'
| device_read_fault a s signal nonblock r n s' : device a s → read_loop [([], signal)] nonblock false s = Some (r, n, s') →
    device (mk_account (holders a) (raised a) (told a) (lost a + rtc_irq_data s) (dropped a)) s'
| device_ioctl a s capable copy_ok cmd r o s' : device a s → rtc_ioctl capable copy_ok cmd s = Done (r, o, s') → device a s'.

Lemma read_once signal nonblock ok s r n s' : read_loop [([], signal)] nonblock ok s = Some (r, n, s') →
  s' = set_data s 0 ∧ default 0 n = if ok then rtc_irq_data s else 0.
Proof.
  cbn [read_loop fold_left]. destruct (Z.eqb_spec (rtc_irq_data s) 0) as [E|E]; cbn [negb].
  - destruct nonblock; [intros [= <- <- <-]; rewrite E; by destruct ok|]. destruct signal; [|done]. intros [= <- <- <-]. rewrite E. by destruct ok.
  - destruct ok; by intros [= <- <- <-].
Qed.

Lemma checked_time_keeps s t r s' : rtc_set_time s t = Done (r, s') ∨ rtc_set_alm_time s t = Done (r, s') → rtc_status s' = rtc_status s ∧ rtc_irq_data s' = rtc_irq_data s.
Proof.
  intros [H|H]; revert H; unfold rtc_set_time, rtc_set_alm_time; destruct (checked_time _ _ _) as [[v|]|]; cbn [mbind exec_bind]; (done || (intros [= <- <-]; done)).
Qed.

(** Commands leave the status and the count alone. *)
Lemma ioctl_keeps capable copy_ok cmd s r o s' : rtc_ioctl capable copy_ok cmd s = Done (r, o, s') → rtc_status s' = rtc_status s ∧ rtc_irq_data s' = rtc_irq_data s.
Proof.
  unfold rtc_ioctl. destruct cmd as [| | | | | | |[t|]| |arg| | | |arg| ]; cbv zeta; try (by intros [= <- <- <-]).
  - intros [= <- <- <-]. unfold enable_irq. by destruct (_ =? 0).
  - destruct (rtc_get_alm_time s); cbn [mbind exec_bind]; [|done]. by destruct copy_ok; intros [= <- <- <-].
  - destruct (rtc_set_alm_time s t) as [[r1 s1]|] eqn:E; cbn [mbind exec_bind]; [|done]. intros [= <- <- <-]. eapply checked_time_keeps. by right.
  - destruct (rtc_get_time s); cbn [mbind exec_bind]; [|done]. by destruct copy_ok; intros [= <- <- <-].
  - destruct (negb capable); [by intros [= <- <- <-]|]. destruct arg as [t|]; [|by intros [= <- <- <-]].
    destruct (rtc_set_time s t) as [[r1 s1]|] eqn:E; cbn [mbind exec_bind]; [|done]. intros [= <- <- <-]. eapply checked_time_keeps. by left.
  - by destruct copy_ok; intros [= <- <- <-].
  - destruct (arg <? 1900); [by intros [= <- <- <-]|]. destruct (negb capable); by intros [= <- <- <-].
Qed.

Definition accounted (a : account) (s : rtc) : Prop :=
  rtc_status s = holders a ∧ 0 <= holders a <= 1 ∧ rtc_irq_data s = u32 (raised a - told a - lost a - dropped a).

Lemma u32_add_l x y : u32 (u32 x + y) = u32 (x + y).
Proof. unfold u32. by rewrite Z.add_mod_idemp_l. Qed.

(** What is counted is taken out. *)
Lemma u32_taken x y : x - u32 x = y → u32 y = 0.
Proof. intros <-. unfold u32. apply Z.mod_divide; [lia|]. exists (x / 2 ^ 32). zdm. Qed.

Lemma device_accounted a s : device a s → accounted a s.
Proof.
  unfold accounted. induction 1 as [clock|a s v _ (IH1 & IH2 & IH3)|a s s' _ (IH1 & IH2 & IH3) E|a s r s' _ (IH1 & IH2 & IH3) E Hr|a s _ (IH1 & IH2 & IH3) Hh
    |a s sg nb r n s' _ (IH1 & IH2 & IH3) E|a s sg nb r n s' _ (IH1 & IH2 & IH3) E|a s cp ok cmd r o s' _ (IH1 & IH2 & IH3) E]; cbn [holders raised told lost dropped].
  - done.
  - assert (Hi : rtc_status (rtc_interrupt v s) = rtc_status s ∧ rtc_irq_data (rtc_interrupt v s) = u32 (rtc_irq_data s + 1)) by (unfold rtc_interrupt; cbv zeta; by destruct (_ || _)).
    destruct Hi as [-> ->]. split_and!; [done|lia|lia|]. rewrite IH3, u32_add_l. f_equal. lia.
  - revert E. unfold rtc_open. rewrite IH1. destruct (decide (holders a = 0)) as [->|]; [|assert (holders a = 1) as -> by lia; done]. intros [= <-].
    split_and!; [done|lia|lia|]. symmetry. apply (u32_taken (raised a - told a - lost a - dropped a)). rewrite IH3. lia.
  - revert E. unfold rtc_open. destruct (negb _); intros [= <- <-]; done.
  - assert (holders a = 1) as H1 by lia. unfold rtc_release. cbn [snd rtc_status set_status set_data rtc_irq_data]. rewrite IH1, H1.
    split_and!; [done|lia|lia|]. symmetry. apply (u32_taken (raised a - told a - lost a - dropped a)). rewrite IH3. lia.
  - apply read_once in E as [-> ->]. cbn [rtc_status set_data rtc_irq_data]. split_and!; [done|lia|lia|].
    symmetry. apply (u32_taken (raised a - told a - lost a - dropped a)). rewrite IH3. lia.
  - apply read_once in E as [-> _]. cbn [rtc_status set_data rtc_irq_data]. split_and!; [done|lia|lia|].
    symmetry. apply (u32_taken (raised a - told a - lost a - dropped a)). rewrite IH3. lia.
  - apply ioctl_keeps in E as [-> ->]. done.
Qed.

(** C30 (invariant): the device is open at most once, and every interrupt is accounted
    for once.  In every state that opening, closing, reading, commands and interrupts
    lead to, the status says whether the device is open, and the interrupts that were
    raised since the driver was loaded are, modulo 2^32, those that readers were told
    of, those lost with a reader whose memory could not be written, those dropped when
    the device was opened or closed (both set the count to zero), and those that are
    still counted.  The number a reader gets is this plain count: there is no status
    in its low byte. *)
Theorem irqs_accounted (a : account) (s : rtc) :
  device a s → rtc_status s = holders a ∧ 0 <= holders a <= 1 ∧ rtc_irq_data s = u32 (raised a - told a - lost a - dropped a).
Proof. apply device_accounted. Qed.

Lemma irqs_accounted_witness : ∃ s, device (mk_account 1 4 2 0 1) s ∧ rtc_status s = 1 ∧ rtc_irq_data s = 1.
Proof.
  pose (s1 := rtc_interrupt 0 (rtc_init 0)). pose (s2 := (rtc_open s1).2). pose (s4 := rtc_interrupt 0 (rtc_interrupt 1 s2)).
  assert (H1 : device (mk_account 0 1 0 0 0) s1) by (apply (device_irq (mk_account 0 0 0 0 0)), device_init).
  assert (H2 : device (mk_account 1 1 0 0 1) s2) by (apply (device_open (mk_account 0 1 0 0 0) s1); [exact H1|reflexivity]).
  assert (H4 : device (mk_account 1 3 0 0 1) s4) by (apply (device_irq (mk_account 1 2 0 0 1)), (device_irq (mk_account 1 1 0 0 1)), H2).
  assert (H5 : device (mk_account 1 3 2 0 1) (set_data s4 0)) by (apply (device_read (mk_account 1 3 0 0 1) s4 false false 4 (Some 2)); [exact H4|reflexivity]).
  pose proof (device_irq _ _ 0 H5) as H. exists (rtc_interrupt 0 (set_data s4 0)).
  destruct (irqs_accounted _ _ H) as (E1 & _ & E2). split; [exact H|]. split; [exact E1|exact E2].
Defined.

(** ** Readers *)

Lemma irqs_counted irqs : ∀ s, rtc_irq_data (fold_left (λ s v, rtc_interrupt v s) irqs s) = if decide (irqs = []) then rtc_irq_data s else u32 (rtc_irq_data s + Z.of_nat (length irqs)).
Proof.
  induction irqs as [|v irqs IH]; intros s; [done|]. cbn [fold_left]. rewrite IH.
  assert (Hi : rtc_irq_data (rtc_interrupt v s) = u32 (rtc_irq_data s + 1)) by (unfold rtc_interrupt; cbv zeta; by destruct (_ || _)). rewrite Hi. cbn [length].
  destruct (decide (irqs = [])) as [->|]; [done|]. rewrite decide_False by done. rewrite u32_add_l. f_equal. lia.
Qed.

(** A reader that waits is told of the next interrupts.  However often
    it is woken before, without a signal and without an interrupt, it sleeps again;
    then it returns with the number of the interrupts that have come. *)
Theorem reader_told (s : rtc) (count : Z) (k : nat) (irqs : list Z) (signal : bool) (rest : list (list Z * bool)) :
  4 <= count → rtc_irq_data s = 0 → irqs ≠ [] → Z.of_nat (length irqs) < 2 ^ 32 →
  ∃ s', rtc_read count (replicate k ([], false) ++ (irqs, signal) :: rest) false true s = Some (4, Some (Z.of_nat (length irqs)), s') ∧ rtc_irq_data s' = 0.
Proof.
  intros Hc H0 Hn Hl. unfold rtc_read. rewrite (proj2 (Z.ltb_ge _ _)) by lia. revert s H0. induction k as [|k IH]; intros s H0; cbn [replicate app read_loop].
  - rewrite irqs_counted, decide_False, H0, Z.add_0_l, u32_small by (done || lia). destruct irqs as [|v irqs]; [done|]. rewrite (proj2 (Z.eqb_neq _ _)) by (cbn [length]; lia).
    eexists. split; [reflexivity|done].
  - cbn [fold_left]. rewrite H0. cbn [negb Z.eqb]. apply IH. done.
Qed.

Lemma reader_told_witness : ∃ s', rtc_read 4 [([], false); ([1; 1; 16], true)] false true (rtc_init 0) = Some (4, Some 3, s') ∧ rtc_irq_data s' = 0.
Proof. apply (reader_told (rtc_init 0) 4 1 [1; 1; 16] true []); [lia|reflexivity|discriminate|vm_compute; reflexivity]. Defined.

(** ** The file *)

(** A read of the file gives the part of the text it asks for, and says whether it
    reaches the end. *)
Lemma read_proc_part text off count : 0 <= off → 0 <= count →
  rtc_read_proc text off count = (strlen (take (Z.to_nat count) (drop (Z.to_nat off) text)), bool_decide (drop (Z.to_nat (off + count)) text = [])).
Proof.
  intros Ho Hc. unfold rtc_read_proc, strlen. cbv zeta. f_equal.
  - rewrite length_take, length_drop. destruct (Z.ltb_spec count (Z.of_nat (length text) - off)); [rewrite (proj2 (Z.ltb_ge _ _)) by lia; lia|].
    destruct (Z.ltb_spec (Z.of_nat (length text) - off) 0); lia.
  - destruct (Z.leb_spec (Z.of_nat (length text)) (off + count)); symmetry.
    + apply bool_decide_eq_true, drop_ge. lia.
    + apply bool_decide_eq_false. intros Hd%(f_equal length). rewrite length_drop in Hd. cbn in Hd. lia.
Qed.
