(* ===== verification/Firmware.v ===== *)
(** * The firmware image

    [FW/tool/FF/FF.c] and [FW/tool/checksum/checksum.c], the tools with which
    [FW/FW.sh] makes the image: one fills a file with 0xFF, the other sums words of
    a file and stores what makes the sum zero.

    A file is its bytes, [None] when it cannot be opened; a mapping of it ends with
    zeros up to the end of its last page, and what is stored there is lost.  The host
    is little-endian. *)

From S2P Require Import Prelude Blocks Cron.

Local Open Scope Z_scope.
Local Abbreviation str := (list Z).

(** ** Numbers *)

Definition digit_value (c : Z) : Z :=
  if isdigit c then c - 48 else let l := tolower c in if (97 <=? l) && (l <=? 122) then l - 87 else 99.

Fixpoint digits_in (base : Z) (s : str) (acc : Z) : Z :=
  match s with
  | c :: s' => if digit_value c <? base then digits_in base s' (acc * base + digit_value c) else acc
  | [] => acc
  end.

Fixpoint skip_space (s : str) : str := match s with c :: s' => if isspace c then skip_space s' else s | [] => [] end.

Definition clamp (x : Z) : Z := Z.max (- 2 ^ 31) (Z.min (2 ^ 31 - 1) x).

(** [strtol (s, NULL, 0)]. *)
Definition strtol0 (s : str) : Z :=
  let s := skip_space s in
  let '(sign, s) := match s with c :: s' => if c =? 45 then (-1, s') else if c =? 43 then (1, s') else (1, s) | [] => (1, []) end in
  let v :=
    match s with
    | 48 :: x :: d :: s' => if (tolower x =? 120) && (digit_value d <? 16) then digits_in 16 (d :: s') 0 else digits_in 8 s 0
    | 48 :: _ => digits_in 8 s 0
    | _ => digits_in 10 s 0
    end in
  clamp (sign * v).

(** ** The tools *)

Definition PAGE : Z := 4096.

Definition mapped (file : list Z) : list Z := file ++ replicate (Z.to_nat ((- strlen file) mod PAGE)) 0.

(** [fptr[i]]. *)
Definition word (m : list Z) (i : Z) : exec Z := b ← mread m (4 * i) 4; Done (le b).

Fixpoint sum_loop (n : nat) (m : list Z) (i checksum : Z) : exec Z :=
  match n with
  | O => Done checksum
  | S n' => w ← word m i; sum_loop n' m (i + 1) (u32 (checksum + w))
  end.

Definition checksum (start_offset end_offset checksum_offset : Z) (file : list Z) : exec (list Z) :=
  let fptr := mapped file in
  let i := Z.quot start_offset 4 in
  checksum ← sum_loop (Z.to_nat (Z.quot end_offset 4 - i)) fptr i 0;
  fptr ← memcpy fptr (4 * Z.quot checksum_offset 4) (le_bytes 4 (u32 (not32 checksum + 1)));
  Done (take (length file) fptr).

(** The exit code and the file; an empty file cannot be mapped. *)
Definition checksum_main (argv : list str) (file : option (list Z)) : exec (Z * option (list Z)) :=
  match argv with
  | _ :: _ :: a :: b :: rest =>
      let start_offset := strtol0 a in
      let end_offset := strtol0 b in
      if end_offset =? 0 then Done (0, file) else
      match file with
      | None => Done (0, file)
      | Some f =>
          if strlen f =? 0 then Done (0, file) else
          if strlen f <? end_offset then Done (0, file) else
          if end_offset <? start_offset then Done (0, file) else
          f ← checksum start_offset end_offset (match rest with [c] => strtol0 c | _ => end_offset end) f;
          Done (0, Some f)
      end
  | _ => Done (0, file)
  end.

(** [file] is what is there before; [ok]: the file can be created. *)
Definition FF_main (argv : list str) (ok : bool) (file : option (list Z)) : Z * option (list Z) :=
  match argv with
  | [_; _; a] =>
      let size := strtol0 a in
      if size =? 0 then (0, file) else
      if negb ok then (0, file) else
      if size - 1 <? 0 then (0, Some []) else
      (0, Some (replicate (Z.to_nat size) 255))
  | _ => (0, file)
  end.

(** ** Sums of words *)

Definition file_word (m : list Z) (i : nat) : Z := le (take 4 (drop (4 * i) m)).
Fixpoint sum_words (m : list Z) (i n : nat) : Z := match n with O => 0 | S n' => file_word m i + sum_words m (S i) n' end.

Lemma sum_words_app m n2 : ∀ n1 i, sum_words m i (n1 + n2) = sum_words m i n1 + sum_words m (i + n1) n2.
Proof.
  induction n1 as [|n1 IH]; intros i; cbn [sum_words Nat.add]; [by rewrite Nat.add_0_r|]. rewrite IH. replace (S i + n1)%nat with (i + S n1)%nat by lia. lia.
Qed.

Lemma sum_words_ext m m' n : ∀ i, (∀ k, (i <= k < i + n)%nat → file_word m k = file_word m' k) → sum_words m i n = sum_words m' i n.
Proof. induction n as [|n IH]; intros i H; [done|]. cbn [sum_words]. rewrite H, IH by (lia || (intros; apply H; lia)). done. Qed.

Lemma word_done m i : (4 * i + 4 <= length m)%nat → word m (Z.of_nat i) = Done (file_word m i).
Proof. intros H. unfold word, file_word. rewrite mread_done by (unfold strlen; lia). cbn [mbind exec_bind]. do 4 f_equal; lia. Qed.

Lemma sum_loop_done m n : ∀ i s, (4 * (i + n) <= length m)%nat → is_u32 s → sum_loop n m (Z.of_nat i) s = Done (u32 (s + sum_words m i n)).
Proof.
  induction n as [|n IH]; intros i s Hl Hs; cbn [sum_loop sum_words].
  - rewrite Z.add_0_r. f_equal. unfold u32. by rewrite Z.mod_small.
  - rewrite word_done by lia. cbn [mbind exec_bind]. replace (Z.of_nat i + 1) with (Z.of_nat (S i)) by lia. rewrite IH by (lia || apply Z.mod_pos_bound; lia).
    f_equal. unfold u32. rewrite Z.add_mod_idemp_l by lia. f_equal. lia.
Qed.

Lemma le_le_bytes v : is_u32 v → le (le_bytes 4 v) = v.
Proof. unfold is_u32. intros H. cbn. zdm. Qed.

(** ** What the tools do *)

(** The file after a run on whole words. *)
Definition with_word (f : list Z) (o : nat) (v : Z) : list Z := take (4 * o) f ++ le_bytes 4 v ++ drop (4 * o + 4) f.

Lemma with_word_length f o v : (4 * o + 4 <= length f)%nat → length (with_word f o v) = length f.
Proof. intros H. unfold with_word. rewrite !length_app, length_take, length_drop, le_bytes_length. lia. Qed.

Lemma with_word_there f o v : (4 * o + 4 <= length f)%nat → is_u32 v → file_word (with_word f o v) o = v.
Proof.
  intros H Hv. unfold file_word, with_word. pose proof (take_drop_copy_same f (le_bytes 4 v) (4 * o)) as E. rewrite le_bytes_length in E. rewrite E by lia. by apply le_le_bytes.
Qed.

Lemma with_word_other f o v k : (4 * o + 4 <= length f)%nat → k ≠ o → file_word (with_word f o v) k = file_word f k.
Proof.
  intros H Hk. unfold file_word, with_word. pose proof (take_drop_copy_other f (le_bytes 4 v) (4 * o) (4 * k) 4) as E. rewrite le_bytes_length in E. rewrite E by lia. done.
Qed.

Lemma with_word_sum f o v i n : (4 * o + 4 <= length f)%nat → (o < i ∨ i + n <= o)%nat → sum_words (with_word f o v) i n = sum_words f i n.
Proof. intros H Ho. apply sum_words_ext. intros k Hk. apply with_word_other; lia. Qed.

Lemma mapped_word f k : (4 * k + 4 <= length f)%nat → file_word (mapped f) k = file_word f k.
Proof. intros H. unfold file_word, mapped. rewrite drop_app_le by lia. by rewrite take_app_le by (rewrite length_drop; lia). Qed.

Lemma mapped_length f : (length f <= length (mapped f))%nat.
Proof. unfold mapped. rewrite length_app. lia. Qed.

Lemma checksum_done s e o f : (s <= e)%nat → (4 * e <= length f)%nat → (4 * o + 4 <= length f)%nat →
  checksum (4 * Z.of_nat s) (4 * Z.of_nat e) (4 * Z.of_nat o) f = Done (with_word f o (u32 (- sum_words f s (e - s)))).
Proof.
  intros Hse He Ho. unfold checksum. cbv zeta. assert (Hq : ∀ k, Z.quot (4 * Z.of_nat k) 4 = Z.of_nat k) by (intros k; rewrite Z.mul_comm; apply Z.quot_mul; lia). rewrite !Hq.
  replace (Z.to_nat (Z.of_nat e - Z.of_nat s)) with (e - s)%nat by lia. pose proof (mapped_length f) as Hm.
  rewrite sum_loop_done by (lia || (split; lia)). cbn [mbind exec_bind]. rewrite Z.add_0_l. rewrite (sum_words_ext (mapped f) f) by (intros k Hk; apply mapped_word; lia).
  rewrite memcpy_done by (unfold strlen; rewrite ?le_bytes_length; lia). cbn [mbind exec_bind]. f_equal. rewrite le_bytes_length. replace (Z.to_nat (4 * Z.of_nat o)) with (4 * o)%nat by lia.
  assert (Hv : u32 (not32 (u32 (sum_words f s (e - s))) + 1) = u32 (- sum_words f s (e - s))).
  { unfold not32, u32, Z.lnot. rewrite Z.add_mod_idemp_l by lia. replace (Z.pred (- (sum_words f s (e - s) mod 2 ^ 32)) + 1) with (0 - sum_words f s (e - s) mod 2 ^ 32) by lia. rewrite Zminus_mod_idemp_r. f_equal. }
  rewrite Hv. unfold with_word, mapped. rewrite (take_app_le f) by lia. rewrite (drop_app_le f) by lia. rewrite !app_assoc, take_app_le by (rewrite !length_app, length_take, length_drop, le_bytes_length; lia).
  apply take_ge. rewrite !length_app, length_take, length_drop, le_bytes_length. lia.
Qed.

Lemma checksum_main_words prog name a b rest f s e o :
  strtol0 a = 4 * Z.of_nat s → strtol0 b = 4 * Z.of_nat e → match rest with [c] => strtol0 c | _ => 4 * Z.of_nat e end = 4 * Z.of_nat o →
  (0 < e)%nat → (s <= e)%nat → (4 * e <= length f)%nat → (4 * o + 4 <= length f)%nat →
  checksum_main (prog :: name :: a :: b :: rest) (Some f) = Done (0, Some (with_word f o (u32 (- sum_words f s (e - s))))).
Proof.
  intros Ha Hb Hc He Hs Hl Ho. unfold checksum_main. rewrite Ha, Hb, Hc. cbv zeta. unfold strlen.
  rewrite (proj2 (Z.eqb_neq _ _)) by lia. rewrite (proj2 (Z.eqb_neq _ _)) by lia. rewrite !(proj2 (Z.ltb_ge _ _)) by lia. by rewrite checksum_done.
Qed.

(** C31 (functional): the image carries two checksums.  [FW.sh] sums an image of [n]
    words twice: from the word [s] on, with the result in the last word but one, and
    from the beginning, with the result in the last word.  Then the words from [s] on
    without the last one sum to zero, as do the image without its last two words and
    the last word; the rest of the file is as it was. *)
Theorem image_checksums (prog name a b c z : str) (f : list Z) (s n : nat) :
  strtol0 a = 4 * Z.of_nat s → strtol0 b = 4 * Z.of_nat (n - 2) → strtol0 c = 4 * Z.of_nat (n - 1) → strtol0 z = 0 →
  (3 <= n)%nat → (s <= n - 2)%nat → (4 * n <= length f)%nat →
  ∃ f1 f2, checksum_main [prog; name; a; b; b] (Some f) = Done (0, Some f1) ∧ checksum_main [prog; name; z; b; c] (Some f1) = Done (0, Some f2) ∧
    length f2 = length f ∧ (∀ k, k ≠ (n - 2)%nat → k ≠ (n - 1)%nat → file_word f2 k = file_word f k) ∧
    sum_words f2 s (n - 1 - s) mod 2 ^ 32 = 0 ∧ (sum_words f2 0 (n - 2) + file_word f2 (n - 1)) mod 2 ^ 32 = 0.
Proof.
  intros Ha Hb Hc Hz Hn Hs Hl. pose (f1 := with_word f (n - 2) (u32 (- sum_words f s (n - 2 - s)))). pose (f2 := with_word f1 (n - 1) (u32 (- sum_words f1 0 (n - 2)))).
  assert (L1 : length f1 = length f) by (apply with_word_length; lia). assert (L2 : length f2 = length f) by (unfold f2; rewrite with_word_length; lia).
  assert (Hu : ∀ x, is_u32 (u32 x)) by (intros x; apply Z.mod_pos_bound; lia). assert (Hm : ∀ x, (x + u32 (- x)) mod 2 ^ 32 = 0) by (intros x; unfold u32; rewrite Z.add_mod_idemp_r, Z.add_opp_diag_r by lia; done).
  exists f1, f2. split_and!; [| |done| | |].
  - apply checksum_main_words with (e := (n - 2)%nat); (done || lia).
  - rewrite (checksum_main_words prog name z b [c] f1 0 (n - 2) (n - 1)) by (done || lia). unfold f2. by rewrite Nat.sub_0_r.
  - intros k Hk1 Hk2. unfold f2. rewrite with_word_other by (done || lia). unfold f1. by rewrite with_word_other by (done || lia).
  - replace (n - 1 - s)%nat with ((n - 2 - s) + 1)%nat by lia. rewrite sum_words_app. cbn [sum_words]. replace (s + (n - 2 - s))%nat with (n - 2)%nat by lia. rewrite Z.add_0_r.
    unfold f2. rewrite with_word_sum, with_word_other by lia. unfold f1. rewrite with_word_sum, with_word_there by (done || lia). apply Hm.
  - unfold f2. rewrite with_word_sum, with_word_there by (done || lia). apply Hm.
Qed.

Lemma image_checksums_witness :
  ∃ f1 f2, checksum_main [bs "checksum"; bs "FW.bin"; bs "0x4"; bs "8"; bs "8"] (Some (replicate 16 255)) = Done (0, Some f1) ∧
    checksum_main [bs "checksum"; bs "FW.bin"; bs "0x0"; bs "8"; bs "12"] (Some f1) = Done (0, Some f2) ∧
    sum_words f2 1 2 mod 2 ^ 32 = 0 ∧ (sum_words f2 0 2 + file_word f2 3) mod 2 ^ 32 = 0.
Proof.
  destruct (image_checksums (bs "checksum") (bs "FW.bin") (bs "0x4") (bs "8") (bs "12") (bs "0x0") (replicate 16 255) 1 4) as (f1 & f2 & E1 & E2 & _ & _ & H1 & H2);
    [reflexivity|reflexivity|reflexivity|reflexivity|lia|lia|cbn; lia|]. exists f1, f2. split; [exact E1|]. split; [exact E2|]. split; [exact H1|exact H2].
Defined.

(** A checksum that belongs behind the end of the file is lost with the page. *)
Lemma checksum_behind_end : checksum_main [bs "checksum"; bs "FW.bin"; bs "0"; bs "16"] (Some (replicate 16 255)) = Done (0, Some (replicate 16 255)).
Proof. vm_compute. reflexivity. Qed.

(** The file that is filled. *)
Lemma FF_fills prog name a ok file : 0 < strtol0 a → ok = true → FF_main [prog; name; a] ok file = (0, Some (replicate (Z.to_nat (strtol0 a)) 255)).
Proof. intros H ->. unfold FF_main. rewrite (proj2 (Z.eqb_neq _ _)), (proj2 (Z.ltb_ge _ _)) by lia. done. Qed.
