(* ===== verification/Bus.v ===== *)
(** * Registers on the bus

    Registers mapped into memory, as [readb], [readw], [readl] and their
    counterparts of the kernel see them: bytes at addresses, wider accesses in
    little-endian order.  The processor is an ARM: a halfword at an odd address, or a
    word at one that four does not divide, is left to a handler of the kernel that is not
    modelled, and a [Fault] here. *)

From S2P Require Import Prelude.

Local Open Scope Z_scope.

Notation bus := (gmap Z Z).

Definition byte_at (m : bus) (a : Z) : Z := u8 (default 0 (m !! a)).

Fixpoint rd (n : nat) (m : bus) (a : Z) : Z :=
  match n with
  | O => 0
  | S n' => byte_at m a + 2 ^ 8 * rd n' m (a + 1)
  end.

Fixpoint wr (n : nat) (v a : Z) (m : bus) : bus :=
  match n with
  | O => m
  | S n' => <[a := u8 v]> (wr n' (v / 2 ^ 8) (a + 1) m)
  end.

Definition readb (m : bus) (a : Z) : Z := byte_at m a.
Definition writeb (v a : Z) (m : bus) : bus := <[a := u8 v]> m.
Definition aligned (n a : Z) : bool := a mod n =? 0.
Definition readw (m : bus) (a : Z) : exec Z := if aligned 2 a then Done (rd 2 m a) else Fault.
Definition writew (v a : Z) (m : bus) : exec bus := if aligned 2 a then Done (wr 2 v a m) else Fault.
Definition readl (m : bus) (a : Z) : exec Z := if aligned 4 a then Done (rd 4 m a) else Fault.
Definition writel (v a : Z) (m : bus) : exec bus := if aligned 4 a then Done (wr 4 v a m) else Fault.

(** ** What an access sees *)

Lemma bus_byte_range m a : is_byte (byte_at m a).
Proof. unfold is_byte, byte_at, u8. apply Z.mod_pos_bound. lia. Qed.

Lemma byte_at_insert m a b v : byte_at (<[a := u8 v]> m) b = if decide (a = b) then u8 v else byte_at m b.
Proof.
  unfold byte_at. case_decide as E.
  - subst. rewrite lookup_insert_eq. simpl. unfold u8. by rewrite Z.mod_mod by lia.
  - by rewrite lookup_insert_ne.
Qed.

(** The byte of a range that was just written. *)
Lemma byte_at_wr n v a m b :
  byte_at (wr n v a m) b =
  if decide (a <= b < a + Z.of_nat n) then u8 (v / 2 ^ (8 * (b - a))) else byte_at m b.
Proof.
  revert v a. induction n as [|n IH]; intros v a; cbn [wr].
  { by rewrite decide_False by lia. }
  rewrite byte_at_insert. case_decide as E.
  - subst. rewrite decide_True by lia. by rewrite Z.sub_diag, Z.mul_0_r, Z.div_1_r.
  - rewrite IH. destruct (decide (a + 1 <= b < a + 1 + Z.of_nat n)).
    + rewrite decide_True by lia. rewrite Z.div_div, <-Z.pow_add_r by lia.
      do 3 f_equal. lia.
    + by rewrite decide_False by lia.
Qed.

(** A read depends on the bytes it covers. *)
Lemma rd_ext n m m' a :
  (∀ b, a <= b < a + Z.of_nat n → byte_at m b = byte_at m' b) → rd n m a = rd n m' a.
Proof.
  revert a. induction n as [|n IH]; intros a H; [done|]. cbn [rd].
  rewrite (H a) by lia. rewrite (IH (a + 1)); [done|]. intros b Hb. apply H. lia.
Qed.

Lemma rd_wr_other n k v a b m :
  a + Z.of_nat n <= b ∨ b + Z.of_nat k <= a → rd n (wr k v b m) a = rd n m a.
Proof. intros H. apply rd_ext. intros c Hc. rewrite byte_at_wr, decide_False; [done|lia]. Qed.

Lemma rd_wr_same n v a m : rd n (wr n v a m) a = v mod 2 ^ (8 * Z.of_nat n).
Proof.
  revert v a. induction n as [|n IH]; intros v a; [by rewrite Z.mod_1_r|].
  cbn [rd wr]. rewrite byte_at_insert, decide_True by done.
  rewrite (rd_ext n _ (wr n (v / 2 ^ 8) (a + 1) m)), IH.
  - unfold u8. replace (8 * Z.of_nat (S n)) with (8 + 8 * Z.of_nat n) by lia.
    by rewrite Z.pow_add_r, Z.rem_mul_r by lia.
  - intros b Hb. rewrite byte_at_insert, decide_False; [done|lia].
Qed.

Lemma rd_range n m a : 0 <= rd n m a < 2 ^ (8 * Z.of_nat n).
Proof.
  revert a. induction n as [|n IH]; intros a; [done|]. cbn [rd].
  specialize (IH (a + 1)). pose proof (bus_byte_range m a) as Hb. unfold is_byte in Hb.
  replace (8 * Z.of_nat (S n)) with (8 + 8 * Z.of_nat n) by lia. rewrite Z.pow_add_r by lia. lia.
Qed.

(** A bit of a read is a bit of one byte. *)
Lemma testbit_rd n m a i :
  0 <= i < 8 * Z.of_nat n → Z.testbit (rd n m a) i = Z.testbit (byte_at m (a + i / 8)) (i mod 8).
Proof.
  revert a i. induction n as [|n IH]; intros a i Hi; [lia|]. cbn [rd].
  pose proof (bus_byte_range m a) as Hb. unfold is_byte in Hb.
  rewrite Z.add_comm, Z.mul_comm, <-(lor_add _ _ 8) by (try lia; by exists (rd n m (a + 1))).
  rewrite Z.lor_spec. destruct (decide (i < 8)).
  - rewrite Z.mul_pow2_bits_low, orb_false_l, Z.div_small, Z.mod_small by lia. by rewrite Z.add_0_r.
  - rewrite Z.mul_pow2_bits by lia. rewrite <-(Z.mod_small (byte_at m a) (2 ^ 8)) by lia.
    rewrite Z.mod_pow2_bits_high, orb_false_r by lia. rewrite IH by lia.
    f_equal; [f_equal; zdm|zdm].
Qed.

(** A bit of a byte that was written. *)
Lemma testbit_byte_wr n v a m b j :
  0 <= j < 8 →
  Z.testbit (byte_at (wr n v a m) b) j =
  if decide (a <= b < a + Z.of_nat n) then Z.testbit v (8 * (b - a) + j) else Z.testbit (byte_at m b) j.
Proof.
  intros Hj. rewrite byte_at_wr. case_decide; [|done]. unfold u8.
  rewrite Z.mod_pow2_bits_low, Z.div_pow2_bits by lia. f_equal. lia.
Qed.
