(* ===== verification/Gpio.v ===== *)
(** * The input and output pins

    [src/kernel/linux-2.4.19/arch/arm/mach-pl1029/gio.c] with the registers of
    [include/asm-arm/arch-pl1029/gio.h]: sixteen pins, each a bit in a register for
    every property of a pin.  The registers keep what is written to them, but for the
    register of the pending interrupts, in which a written one clears the bit: the
    driver of the keypad ([drivers/prolific/keypad61.c], lines 384 and 614) clears it by
    writing back what it reads.

    The abstract state is one value for every pin and every property of it
    ([view]); the theorems say that the operations assign to the properties of one
    pin, but for the one that is meant to set the status of a pin, which clears the
    status of the others ([pins_refined], [status_lost]), that the properties are read
    back ([getters_read]), and that the kind of edge is read wrongly ([edge_misread]).
    The level is read with an access that is not aligned ([level_unreadable]). *)

From S2P Require Import Prelude Bus.

Local Open Scope Z_scope.

(** ** Registers *)

Definition rGPIO_BASE : Z := 0xd94c0000.
Definition GPIO_ENB : Z := rGPIO_BASE + 0x54.
Definition GPIO_DO : Z := rGPIO_BASE + 0x56.
Definition GPIO_OE : Z := rGPIO_BASE + 0x58.
Definition GPIO_DI : Z := rGPIO_BASE + 0x5c.
Definition GPIO_KEY_ENB : Z := rGPIO_BASE + 0x78.
Definition GPIO_KEY_POL : Z := rGPIO_BASE + 0x7a.
Definition GPIO_KEY_LEVEL : Z := rGPIO_BASE + 0x7d.
Definition GPIO_RSTN_63 : Z := rGPIO_BASE + 0x7f.
Definition GPIO_KEY_MASK : Z := rGPIO_BASE + 0x80.
Definition GPIO_KEY_STATUS : Z := rGPIO_BASE + 0x82.
Definition GPIO_KEY_EDGE : Z := rGPIO_BASE + 0x84.

Inductive gio_dir_t : Type := GIO_DIR_OUT | GIO_DIR_IN | GIO_DIR_UNKNOWN.
Inductive gio_edge_t : Type := GIO_ANY_EDGE | GIO_RISING_EDGE | GIO_FALLING_EDGE.

Definition dir_code (d : gio_dir_t) : Z := match d with GIO_DIR_OUT => 0 | GIO_DIR_IN => 1 | GIO_DIR_UNKNOWN => 2 end.
Definition edge_code (e : gio_edge_t) : Z := match e with GIO_ANY_EDGE => 0 | GIO_RISING_EDGE => 1 | GIO_FALLING_EDGE => 2 end.

(** ** Operations *)

(** The macros [__read_gpio] and [__write_gpio]. *)
Definition read_gpio (gpio base_reg : Z) (m : bus) : exec Z :=
  v ← readw m base_reg; Done (Z.land (Z.shiftr v gpio) 1).

(** A word written to a register: the one of the pending interrupts loses the bits that
    are written as ones. *)
Definition put_register (w base_reg : Z) (m : bus) : exec bus :=
  v ← readw m base_reg;
  writew (if base_reg =? GPIO_KEY_STATUS then Z.land v (Z.lnot w) else w) base_reg m.

Definition write_gpio (gpio base_reg val : Z) (m : bus) : exec bus :=
  v ← readw m base_reg;
  put_register (if val =? 0 then Z.land v (Z.lnot (Z.shiftl 1 gpio)) else Z.lor v (Z.shiftl 1 gpio)) base_reg m.

Definition unrequest_gio (gpio : Z) (m : bus) : exec bus :=
  if 15 <? gpio then Done m else
  m ← write_gpio gpio GPIO_ENB 0 m;
  m ← write_gpio gpio GPIO_OE 0 m;
  write_gpio gpio GPIO_KEY_ENB 0 m.

(** The result is an [unsigned char], and [-1] as one. *)
Definition gio_get_dir (gpio : Z) (m : bus) : exec Z :=
  if 15 <? gpio then Done (u8 (-1)) else
  out ← read_gpio gpio GPIO_ENB m;
  inn ← read_gpio gpio GPIO_KEY_ENB m;
  Done (dir_code (if negb (inn =? 0) && (out =? 0) then GIO_DIR_IN
                  else if (inn =? 0) && negb (out =? 0) then GIO_DIR_OUT
                  else GIO_DIR_UNKNOWN)).

Definition gio_set_dir (gpio : Z) (dir : gio_dir_t) (m : bus) : exec bus :=
  if 15 <? gpio then Done m else
  match dir with
  | GIO_DIR_IN => m ← write_gpio gpio GPIO_ENB 0 m; write_gpio gpio GPIO_KEY_ENB 1 m
  | GIO_DIR_OUT => m ← write_gpio gpio GPIO_KEY_ENB 0 m; write_gpio gpio GPIO_ENB 1 m
  | GIO_DIR_UNKNOWN => Done m
  end.

Definition gio_get_oe (gpio : Z) (m : bus) : exec Z := if 15 <? gpio then Done (u8 (-1)) else read_gpio gpio GPIO_OE m.
Definition gio_set_oe (gpio bit : Z) (m : bus) : exec bus := if 15 <? gpio then Done m else write_gpio gpio GPIO_OE bit m.
Definition gio_get_inv (gpio : Z) (m : bus) : exec Z := if 15 <? gpio then Done (u8 (-1)) else read_gpio gpio GPIO_KEY_POL m.
Definition gio_set_inv (gpio bit : Z) (m : bus) : exec bus := if 15 <? gpio then Done m else write_gpio gpio GPIO_KEY_POL bit m.
Definition gio_get_input (gpio : Z) (m : bus) : exec Z := if 15 <? gpio then Done (u8 (-1)) else read_gpio gpio GPIO_DI m.
Definition gio_get_output (gpio : Z) (m : bus) : exec Z := if 15 <? gpio then Done (u8 (-1)) else read_gpio gpio GPIO_DO m.
Definition gio_set_output (gpio bit : Z) (m : bus) : exec bus := if 15 <? gpio then Done m else write_gpio gpio GPIO_DO bit m.
Definition gio_get_irq_mask (gpio : Z) (m : bus) : exec Z := if 15 <? gpio then Done (u8 (-1)) else read_gpio gpio GPIO_KEY_MASK m.
Definition gio_set_irq_mask (gpio bit : Z) (m : bus) : exec bus := if 15 <? gpio then Done m else write_gpio gpio GPIO_KEY_MASK bit m.

Definition gio_get_irq_edge (gpio : Z) (m : bus) : exec Z :=
  if 15 <? gpio then Done (u8 (-1)) else
  v ← readl m GPIO_KEY_EDGE;
  Done (u8 (Z.land (Z.shiftr v (gpio * 2)) 0x11)).

Definition gio_set_irq_edge (gpio : Z) (edge : gio_edge_t) (m : bus) : exec bus :=
  if 15 <? gpio then Done m else
  v ← readl m GPIO_KEY_EDGE;
  let b0 := Z.shiftl 1 (gpio * 2) in
  let b1 := Z.shiftl 1 (gpio * 2 + 1) in
  let v := match edge with
           | GIO_FALLING_EDGE => Z.lor (Z.land v (Z.lnot b0)) b1
           | GIO_RISING_EDGE => Z.land (Z.lor v b0) (Z.lnot b1)
           | GIO_ANY_EDGE => Z.land (Z.land v (Z.lnot b0)) (Z.lnot b1)
           end in
  writel v GPIO_KEY_EDGE m.

Definition gio_get_irq_level (gpio : Z) (m : bus) : exec Z := if 15 <? gpio then Done (u8 (-1)) else read_gpio gpio GPIO_KEY_LEVEL m.

Definition gio_set_irq_level (gpio bit : Z) (m : bus) : exec bus :=
  if 15 <? gpio then Done m else
  if gpio <? 8 then write_gpio (gpio + 8) (GPIO_KEY_LEVEL - 0x01) bit m
  else write_gpio (gpio - 8) (GPIO_KEY_LEVEL + 0x01) bit m.

Definition gio_get_irq_status (gpio : Z) (m : bus) : exec Z := if 15 <? gpio then Done (u8 (-1)) else read_gpio gpio GPIO_KEY_STATUS m.
Definition gio_set_irq_status (gpio bit : Z) (m : bus) : exec bus := if 15 <? gpio then Done m else write_gpio gpio GPIO_KEY_STATUS bit m.

Definition gio_set_in_func (flags : Z) (m : bus) : exec bus := Done (writeb (Z.lor (readb m GPIO_RSTN_63) flags) GPIO_RSTN_63 m).

(** The operations that write, as requests. *)
Inductive gio_op : Type :=
| Unrequest (gpio : Z) | SetDir (gpio : Z) (dir : gio_dir_t) | SetOe (gpio bit : Z) | SetInv (gpio bit : Z) | SetOutput (gpio bit : Z)
| SetMask (gpio bit : Z) | SetEdge (gpio : Z) (edge : gio_edge_t) | SetLevel (gpio bit : Z) | SetStatus (gpio bit : Z) | SetInFunc (flags : Z).

Definition gio_run (op : gio_op) (m : bus) : exec bus :=
  match op with
  | Unrequest g => unrequest_gio g m
  | SetDir g d => gio_set_dir g d m
  | SetOe g b => gio_set_oe g b m
  | SetInv g b => gio_set_inv g b m
  | SetOutput g b => gio_set_output g b m
  | SetMask g b => gio_set_irq_mask g b m
  | SetEdge g e => gio_set_irq_edge g e m
  | SetLevel g b => gio_set_irq_level g b m
  | SetStatus g b => gio_set_irq_status g b m
  | SetInFunc f => gio_set_in_func f m
  end.

Fixpoint gio_runs (ops : list gio_op) (m : bus) : exec bus :=
  match ops with
  | [] => Done m
  | op :: ops' => m ← gio_run op m; gio_runs ops' m
  end.

(** ** The pins *)

(** What a pin has: a bit in each of the registers. *)
Inductive field : Type := ENB | DO | OE | DI | KEY_ENB | POL | LEVEL | MASK | STATUS | EDGE0 | EDGE1.

#[export] Instance field_eq_dec : EqDecision field.
Proof. solve_decision. Defined.

(** The byte and the bit of it. *)
Definition place (f : field) (k : Z) : Z * Z :=
  let at_bit base i := (base + i / 8, i mod 8) in
  match f with
  | ENB => at_bit GPIO_ENB k | DO => at_bit GPIO_DO k | OE => at_bit GPIO_OE k | DI => at_bit GPIO_DI k
  | KEY_ENB => at_bit GPIO_KEY_ENB k | POL => at_bit GPIO_KEY_POL k | LEVEL => at_bit GPIO_KEY_LEVEL k
  | MASK => at_bit GPIO_KEY_MASK k | STATUS => at_bit GPIO_KEY_STATUS k
  | EDGE0 => at_bit GPIO_KEY_EDGE (2 * k) | EDGE1 => at_bit GPIO_KEY_EDGE (2 * k + 1)
  end.

Definition view (m : bus) (k : Z) (f : field) : bool := Z.testbit (byte_at m (place f k).1) (place f k).2.

(** What the operations mean: assignments to the properties of a pin, but for the
    status. *)
Definition pins : Type := Z → field → bool.

Definition op_pin (op : gio_op) : Z :=
  match op with
  | Unrequest g | SetDir g _ | SetOe g _ | SetInv g _ | SetOutput g _ | SetMask g _ | SetEdge g _ | SetLevel g _ | SetStatus g _ => g
  | SetInFunc _ => 0
  end.

Definition on (bit : Z) : bool := negb (bit =? 0).

Definition op_sets (op : gio_op) : list (field * bool) :=
  match op with
  | Unrequest _ => [(ENB, false); (OE, false); (KEY_ENB, false)]
  | SetDir _ GIO_DIR_IN => [(ENB, false); (KEY_ENB, true)]
  | SetDir _ GIO_DIR_OUT => [(KEY_ENB, false); (ENB, true)]
  | SetDir _ GIO_DIR_UNKNOWN => []
  | SetOe _ b => [(OE, on b)]
  | SetInv _ b => [(POL, on b)]
  | SetOutput _ b => [(DO, on b)]
  | SetMask _ b => [(MASK, on b)]
  | SetEdge _ GIO_FALLING_EDGE => [(EDGE0, false); (EDGE1, true)]
  | SetEdge _ GIO_RISING_EDGE => [(EDGE0, true); (EDGE1, false)]
  | SetEdge _ GIO_ANY_EDGE => [(EDGE0, false); (EDGE1, false)]
  | SetLevel _ b => [(LEVEL, on b)]
  | SetStatus _ _ | SetInFunc _ => []
  end.

Definition assign (k : Z) (p : pins) (fv : field * bool) : pins :=
  λ j g, if decide (j = k ∧ g = fv.1) then fv.2 else p j g.

(** Setting the status of pin [k]: every pending interrupt is cleared, and when the bit
    to set is zero that of the pin itself is the only one kept. *)
Definition clear_status (k bit : Z) (p : pins) : pins :=
  λ j g, if decide (g = STATUS) then p j g && (j =? k) && (bit =? 0) else p j g.

Definition pin_run (op : gio_op) (p : pins) : pins :=
  match op with
  | SetStatus k bit => if 15 <? k then p else clear_status k bit p
  | _ => foldl (assign (op_pin op)) p (op_sets op)
  end.

Definition pin_runs (ops : list gio_op) (p : pins) : pins := foldl (λ p op, pin_run op p) p ops.

(** Two states of the pins that agree on the sixteen that there are. *)
Definition same_pins (p q : pins) : Prop := ∀ j g, 0 <= j < 16 → p j g = q j g.

#[export] Instance same_pins_equiv : Equivalence same_pins.
Proof.
  split; intros p; unfold same_pins; [done| |].
  - intros q H j g Hj. symmetry. by apply H.
  - intros q r H H' j g Hj. rewrite H by done. by apply H'.
Qed.

#[export] Instance assign_proper k : Proper (same_pins ==> eq ==> same_pins) (assign k).
Proof. intros p q H fv _ <- j g Hj. unfold assign. case_decide; [done|]. by apply H. Qed.

Lemma assigns_proper k s p q : same_pins p q → same_pins (foldl (assign k) p s) (foldl (assign k) q s).
Proof.
  revert p q. induction s as [|fv s IH]; intros p q H; [done|]. cbn [foldl]. apply IH. by apply assign_proper.
Qed.

#[export] Instance clear_status_proper k bit : Proper (same_pins ==> same_pins) (clear_status k bit).
Proof. intros p q H j g Hj. unfold clear_status. by rewrite H. Qed.

#[export] Instance pin_run_proper op : Proper (same_pins ==> same_pins) (pin_run op).
Proof.
  intros p q H. destruct op; cbn [pin_run]; try by apply assigns_proper.
  destruct (15 <? gpio); [done|]. by apply clear_status_proper.
Qed.

#[export] Instance pin_runs_proper ops : Proper (same_pins ==> same_pins) (pin_runs ops).
Proof.
  unfold pin_runs. induction ops as [|op ops IH]; intros p q H; [done|]. cbn [foldl].
  apply IH. by apply pin_run_proper.
Qed.

(** ** Refinement *)

(** No two properties of pins share a bit. *)
Lemma place_inj f g j k : 0 <= j < 16 → 0 <= k < 16 → place f j = place g k → f = g ∧ j = k.
Proof.
  intros Hj Hk. unfold place, GPIO_ENB, GPIO_DO, GPIO_OE, GPIO_DI, GPIO_KEY_ENB, GPIO_KEY_POL,
    GPIO_KEY_LEVEL, GPIO_KEY_MASK, GPIO_KEY_STATUS, GPIO_KEY_EDGE.
  destruct f, g; intros [= H1 H2]; first [split; [done|zdm]|exfalso; zdm].
Qed.

Lemma place_bit f k : 0 <= (place f k).2 < 8.
Proof. destruct f; cbn; apply Z.mod_pos_bound; lia. Qed.

(** One bit of the bytes is assigned. *)
Definition sets_bit (m m' : bus) (at_ : Z * Z) (v : bool) : Prop :=
  ∀ b j, 0 <= j < 8 →
  Z.testbit (byte_at m' b) j = if decide ((b, j) = at_) then v else Z.testbit (byte_at m b) j.

Lemma sets_bit_view m m' f k v :
  0 <= k < 16 → sets_bit m m' (place f k) v → same_pins (view m') (assign k (view m) (f, v)).
Proof.
  intros Hk H j g Hj. unfold view, assign. cbn [fst snd]. rewrite H by apply place_bit.
  rewrite <-surjective_pairing. case_decide as E.
  - apply place_inj in E as [-> ->]; [by rewrite decide_True|done..].
  - rewrite decide_False; [done|]. by intros [-> ->].
Qed.

Lemma testbit_one i j : 0 <= i → Z.testbit (Z.shiftl 1 i) j = bool_decide (i = j).
Proof.
  intros Hi. rewrite Z.shiftl_1_l. case_bool_decide as E.
  - subst. by apply Z.pow2_bits_true.
  - by apply Z.pow2_bits_false.
Qed.

(** The bits of a word, changed at one position. *)
Lemma wr_sets_bit n m a i v w :
  0 <= i < 8 * Z.of_nat n →
  (∀ x, 0 <= x < 8 * Z.of_nat n → Z.testbit w x = if decide (x = i) then v else Z.testbit (rd n m a) x) →
  sets_bit m (wr n w a m) (a + i / 8, i mod 8) v.
Proof.
  intros Hi Hw b j Hj. rewrite testbit_byte_wr by done. case_decide as Hb.
  - rewrite Hw by lia. destruct (decide (8 * (b - a) + j = i)) as [E|E].
    + rewrite decide_True; [done|]. subst i. f_equal; zdm.
    + rewrite decide_False by (intros [= -> ->]; apply E; zdm).
      rewrite testbit_rd by lia. f_equal; [f_equal|]; zdm.
  - rewrite decide_False; [done|]. intros [= -> ->]. apply Hb. zdm.
Qed.

(** Setting and clearing a bit, as the code writes it. *)
Definition put_bit (w i : Z) (v : bool) : Z := if v then Z.lor w (Z.shiftl 1 i) else Z.land w (Z.lnot (Z.shiftl 1 i)).

Lemma testbit_put w i v x : 0 <= i → 0 <= x → Z.testbit (put_bit w i v) x = if decide (x = i) then v else Z.testbit w x.
Proof.
  intros Hi Hx. unfold put_bit. destruct v.
  - rewrite Z.lor_spec, testbit_one by done. case_decide as E.
    + subst. by rewrite bool_decide_true, orb_true_r.
    + by rewrite bool_decide_false, orb_false_r by congruence.
  - rewrite Z.land_spec, Z.lnot_spec, testbit_one by done. case_decide as E.
    + subst. by rewrite bool_decide_true, andb_false_r.
    + by rewrite bool_decide_false, andb_true_r by congruence.
Qed.

Lemma write_gpio_sets m g base val :
  0 <= g < 16 → base mod 2 = 0 → base ≠ GPIO_KEY_STATUS →
  ∃ m', write_gpio g base val m = Done m' ∧ sets_bit m m' (base + g / 8, g mod 8) (on val).
Proof.
  intros Hg Hb Hs. unfold write_gpio, put_register, readw, writew, aligned. rewrite Hb, (proj2 (Z.eqb_neq _ _) Hs).
  cbn [Z.eqb mbind exec_bind].
  eexists. split; [reflexivity|]. apply wr_sets_bit; [lia|]. intros x Hx.
  rewrite <-testbit_put by lia. unfold on. by destruct (val =? 0).
Qed.

(** An operation of the code has the effect of some assignments. *)
Definition does (r : exec bus) (m : bus) (k : Z) (sets : list (field * bool)) : Prop :=
  ∃ m', r = Done m' ∧ same_pins (view m') (foldl (assign k) (view m) sets).

Lemma does_write m k f base g val :
  0 <= k < 16 → 0 <= g < 16 → base mod 2 = 0 → base ≠ GPIO_KEY_STATUS → (base + g / 8, g mod 8) = place f k →
  does (write_gpio g base val m) m k [(f, on val)].
Proof.
  intros Hk Hg Hb Hs Hp. destruct (write_gpio_sets m g base val Hg Hb Hs) as (m' & -> & H).
  exists m'. split; [done|]. rewrite Hp in H. by apply sets_bit_view.
Qed.

Lemma does_seq r c m k s1 s2 :
  does r m k s1 → (∀ m', does (c m') m' k s2) → does (r ≫= c) m k (s1 ++ s2).
Proof.
  intros (m1 & -> & H1) H. destruct (H m1) as (m2 & E2 & H2). exists m2. split; [done|].
  rewrite H2, foldl_app. by apply assigns_proper.
Qed.

Lemma does_nothing m k : does (Done m) m k [].
Proof. by exists m. Qed.

(** Two bits of a word, written at once. *)
Lemma does_two_bits m k f1 f2 v1 v2 i1 i2 a :
  0 <= k < 16 → 0 <= i1 < 32 → 0 <= i2 < 32 →
  (a + i1 / 8, i1 mod 8) = place f1 k → (a + i2 / 8, i2 mod 8) = place f2 k →
  does (Done (wr 4 (put_bit (put_bit (rd 4 m a) i1 v1) i2 v2) a m)) m k [(f1, v1); (f2, v2)].
Proof.
  intros Hk H1 H2 P1 P2. eexists. split; [done|]. cbn [foldl].
  set (w1 := put_bit (rd 4 m a) i1 v1). set (m1 := wr 4 w1 a m).
  assert (B1 : sets_bit m m1 (place f1 k) v1).
  { rewrite <-P1. apply wr_sets_bit; [lia|]. intros x Hx. apply testbit_put; lia. }
  assert (B2 : sets_bit m1 (wr 4 (put_bit w1 i2 v2) a m) (place f2 k) v2).
  { rewrite <-P2. intros b j Hj. assert (E : byte_at (wr 4 (put_bit w1 i2 v2) a m) b = byte_at (wr 4 (put_bit w1 i2 v2) a m1) b).
    { unfold m1. rewrite !byte_at_wr. by destruct (decide _). }
    rewrite E. apply wr_sets_bit; [lia| |lia]. intros x Hx. rewrite testbit_put by lia.
    case_decide; [done|]. unfold m1. rewrite rd_wr_same, Z.mod_pow2_bits_low by lia. done. }
  rewrite (sets_bit_view _ _ _ _ _ Hk B2). apply assign_proper; [|done]. by apply sets_bit_view.
Qed.

Lemma set_irq_edge_does k e m : 0 <= k < 16 → does (gio_set_irq_edge k e m) m k (op_sets (SetEdge k e)).
Proof.
  intros Hk. unfold gio_set_irq_edge. rewrite (proj2 (Z.ltb_ge _ _)) by lia.
  destruct e; [apply (does_two_bits m k EDGE0 EDGE1 false false (k * 2) (k * 2 + 1) GPIO_KEY_EDGE)
              |apply (does_two_bits m k EDGE0 EDGE1 true false (k * 2) (k * 2 + 1) GPIO_KEY_EDGE)
              |apply (does_two_bits m k EDGE0 EDGE1 false true (k * 2) (k * 2 + 1) GPIO_KEY_EDGE)];
    try lia; by rewrite (Z.mul_comm k 2).
Qed.

(** The status: the bits that were set are written back, which clears them. *)
Lemma set_irq_status_clears k bit m :
  0 <= k < 16 → ∃ m', gio_set_irq_status k bit m = Done m' ∧ same_pins (view m') (clear_status k bit (view m)).
Proof.
  intros Hk. unfold gio_set_irq_status. rewrite (proj2 (Z.ltb_ge _ _)) by lia.
  unfold write_gpio, put_register, readw, writew. change (aligned 2 GPIO_KEY_STATUS) with true.
  cbn [mbind exec_bind]. rewrite Z.eqb_refl. eexists. split; [reflexivity|]. intros j g Hj.
  set (v := rd 2 m GPIO_KEY_STATUS). unfold view, clear_status.
  rewrite testbit_byte_wr by apply place_bit. case_decide as Hb.
  - assert (Hg : g = STATUS).
    { destruct g; try done; revert Hb; unfold place, GPIO_ENB, GPIO_DO, GPIO_OE, GPIO_DI, GPIO_KEY_ENB, GPIO_KEY_POL,
        GPIO_KEY_LEVEL, GPIO_KEY_MASK, GPIO_KEY_STATUS, GPIO_KEY_EDGE; cbn [fst snd]; zdm. }
    subst g. rewrite decide_True by done. cbn [place fst snd].
    replace (8 * (GPIO_KEY_STATUS + j / 8 - GPIO_KEY_STATUS) + j mod 8) with j by zdm.
    rewrite <-(testbit_rd 2) by lia. fold v. rewrite Z.land_spec, Z.lnot_spec by lia.
    change (if bit =? 0 then Z.land v (Z.lnot (Z.shiftl 1 k)) else Z.lor v (Z.shiftl 1 k))
      with (if bit =? 0 then put_bit v k false else put_bit v k true).
    destruct (bit =? 0); rewrite testbit_put by lia; case_decide as E;
      [rewrite (proj2 (Z.eqb_eq _ _) E)|rewrite (proj2 (Z.eqb_neq _ _) E)|..]; by destruct (Z.testbit v j); rewrite ?andb_false_r.
  - rewrite decide_False; [done|]. intros ->. apply Hb. cbn [place fst snd]. zdm.
Qed.

(** Every other operation assigns to its pin what it is meant to. *)
Lemma gio_run_does op m :
  (∀ k bit, op ≠ SetStatus k bit) → 0 <= op_pin op < 16 → does (gio_run op m) m (op_pin op) (op_sets op).
Proof.
  intros Hn Hk. destruct op as [g|g d|g b|g b|g b|g b|g e|g b|g b|fl]; cbn [op_pin gio_run op_sets] in *;
    unfold unrequest_gio, gio_set_dir, gio_set_oe, gio_set_inv, gio_set_output, gio_set_irq_mask,
      gio_set_irq_level; try rewrite (proj2 (Z.ltb_ge 15 g)) by lia.
  - apply (does_seq _ _ _ _ [(ENB, false)] _); [by apply (does_write m g ENB _ g 0)|]. intros m1.
    apply (does_seq _ _ _ _ [(OE, false)] _); [by apply (does_write m1 g OE _ g 0)|]. intros m2.
    by apply (does_write m2 g KEY_ENB _ g 0).
  - destruct d.
    + apply (does_seq _ _ _ _ [(KEY_ENB, false)] _); [by apply (does_write m g KEY_ENB _ g 0)|]. intros m1.
      by apply (does_write m1 g ENB _ g 1).
    + apply (does_seq _ _ _ _ [(ENB, false)] _); [by apply (does_write m g ENB _ g 0)|]. intros m1.
      by apply (does_write m1 g KEY_ENB _ g 1).
    + apply does_nothing.
  - by apply does_write.
  - by apply does_write.
  - by apply does_write.
  - by apply does_write.
  - by apply set_irq_edge_does.
  - destruct (Z.ltb_spec g 8); apply does_write; try lia; try done; unfold place, GPIO_KEY_LEVEL; f_equal; zdm.
  - by destruct (Hn g b).
  - exists (writeb (Z.lor (readb m GPIO_RSTN_63) fl) GPIO_RSTN_63 m). split; [done|]. intros j f Hj. cbn [foldl].
    unfold view, writeb. rewrite byte_at_insert, decide_False; [done|].
    destruct f; unfold place, GPIO_RSTN_63, GPIO_ENB, GPIO_DO, GPIO_OE, GPIO_DI, GPIO_KEY_ENB, GPIO_KEY_POL,
      GPIO_KEY_LEVEL, GPIO_KEY_MASK, GPIO_KEY_STATUS, GPIO_KEY_EDGE; cbn [fst snd]; zdm.
Qed.

(** A pin that there is not: nothing is written. *)
Lemma gio_run_nothing op m : 15 < op_pin op → gio_run op m = Done m.
Proof.
  destruct op; cbn [op_pin gio_run]; intros H;
    unfold unrequest_gio, gio_set_dir, gio_set_oe, gio_set_inv, gio_set_output, gio_set_irq_mask,
      gio_set_irq_edge, gio_set_irq_level, gio_set_irq_status; by rewrite ?(proj2 (Z.ltb_lt _ _)) by lia.
Qed.

Lemma pin_run_nothing op p : 15 < op_pin op → same_pins (pin_run op p) p.
Proof.
  intros H. assert (Ha : ∀ s p, same_pins (foldl (assign (op_pin op)) p s) p).
  { induction s as [|fv s IH]; intros q; [done|]. cbn [foldl]. rewrite IH.
    intros j g Hj. unfold assign. rewrite decide_False; [done|]. intros [-> _]. lia. }
  destruct op; cbn [pin_run]; try apply Ha. by rewrite (proj2 (Z.ltb_lt _ _)).
Qed.

Lemma gio_run_refines op m :
  0 <= op_pin op → ∃ m', gio_run op m = Done m' ∧ same_pins (view m') (pin_run op (view m)).
Proof.
  intros H. destruct (decide (op_pin op < 16)).
  - destruct op; try (apply gio_run_does; [done|lia]).
    cbn [gio_run pin_run op_pin] in *. rewrite (proj2 (Z.ltb_ge _ _)) by lia. by apply set_irq_status_clears.
  - exists m. split; [apply gio_run_nothing; lia|]. symmetry. apply pin_run_nothing. lia.
Qed.

(** C33 (refinement): any sequence of operations that write runs without a fault and leaves
    the sixteen pins as the abstract operations do.  These assign to the properties of
    one pin and touch no other pin and no other property, whatever registers they
    share; the one that sets the status of a pin instead clears the status of all the
    pins, or of all but the pin when the bit is zero, because a one written to the
    register clears the bit and the code writes back the ones that it read; a number
    above fifteen changes nothing. *)
Theorem pins_refined (ops : list gio_op) (m : bus) :
  Forall (λ op, 0 <= op_pin op) ops →
  ∃ m', gio_runs ops m = Done m' ∧ same_pins (view m') (pin_runs ops (view m)).
Proof.
  intros H. revert m. induction H as [|op ops Hop _ IH]; intros m; [by exists m|].
  destruct (gio_run_refines op m Hop) as (m1 & E1 & H1). destruct (IH m1) as (m2 & E2 & H2).
  exists m2. cbn [gio_runs]. rewrite E1. split; [done|]. rewrite H2. cbn. by apply pin_runs_proper.
Qed.

Lemma pins_refined_witness :
  ∃ m', gio_runs [SetDir 9 GIO_DIR_IN; SetLevel 9 1; SetEdge 3 GIO_FALLING_EDGE; SetStatus 3 0; SetOutput 200 1] ∅ = Done m' ∧
        same_pins (view m') (pin_runs [SetDir 9 GIO_DIR_IN; SetLevel 9 1; SetEdge 3 GIO_FALLING_EDGE; SetStatus 3 0; SetOutput 200 1] (view ∅)).
Proof. apply pins_refined. repeat constructor; cbn; lia. Defined.

(** Setting the status of a pin: the interrupts of the other pins that wait are lost,
    and the pin itself does not get the status, whatever it was to be. *)
Lemma status_lost k bit m j :
  0 <= k < 16 → 0 <= j < 16 →
  ∃ m', gio_set_irq_status k bit m = Done m' ∧
  view m' j STATUS = (view m j STATUS && (j =? k) && (bit =? 0)).
Proof.
  intros Hk Hj. destruct (set_irq_status_clears k bit m Hk) as (m' & E & H). exists m'. split; [done|].
  by rewrite (H j STATUS Hj).
Qed.

(** ** Reading back *)

Lemma read_gpio_bit m k f base :
  0 <= k < 16 → base mod 2 = 0 → (base + k / 8, k mod 8) = place f k →
  read_gpio k base m = Done (b2z (view m k f)).
Proof.
  intros Hk Hb Hp. unfold read_gpio, readw, aligned, view. rewrite Hb, <-Hp. cbn [Z.eqb mbind exec_bind fst snd].
  f_equal. rewrite <-(testbit_rd 2) by lia. change 1 with (Z.ones 1). rewrite Z.land_ones by lia.
  rewrite <-Z.bit0_mod, Z.shiftr_spec, Z.add_0_l by lia. by destruct (Z.testbit _ k).
Qed.

(** The direction of a pin, from its two bits. *)
Definition pin_dir (p : field → bool) : gio_dir_t :=
  match p KEY_ENB, p ENB with true, false => GIO_DIR_IN | false, true => GIO_DIR_OUT | _, _ => GIO_DIR_UNKNOWN end.

(** The reading functions return the properties of the pin, and 255
    for a pin that there is not. *)
Theorem getters_read (k : Z) (m : bus) :
  0 <= k →
  let got f := if k <=? 15 then b2z (view m k f) else 255 in
  gio_get_dir k m = Done (if k <=? 15 then dir_code (pin_dir (view m k)) else 255) ∧
  gio_get_oe k m = Done (got OE) ∧ gio_get_inv k m = Done (got POL) ∧ gio_get_input k m = Done (got DI) ∧
  gio_get_output k m = Done (got DO) ∧ gio_get_irq_mask k m = Done (got MASK) ∧ gio_get_irq_status k m = Done (got STATUS).
Proof.
  intros Hk. unfold gio_get_dir, gio_get_oe, gio_get_inv, gio_get_input, gio_get_output, gio_get_irq_mask, gio_get_irq_status.
  destruct (Z.leb_spec k 15); [|by rewrite (proj2 (Z.ltb_lt _ _)) by lia].
  rewrite (proj2 (Z.ltb_ge _ _)) by lia. cbv zeta.
  rewrite (read_gpio_bit m k ENB GPIO_ENB), (read_gpio_bit m k KEY_ENB GPIO_KEY_ENB), (read_gpio_bit m k OE GPIO_OE),
    (read_gpio_bit m k POL GPIO_KEY_POL), (read_gpio_bit m k DI GPIO_DI), (read_gpio_bit m k DO GPIO_DO),
    (read_gpio_bit m k MASK GPIO_KEY_MASK), (read_gpio_bit m k STATUS GPIO_KEY_STATUS) by (done || lia).
  split; [|done]. cbn [mbind exec_bind]. unfold pin_dir. by destruct (view m k KEY_ENB), (view m k ENB).
Qed.

Lemma getters_read_witness :
  let m := wr 2 0x0200 GPIO_KEY_ENB ∅ in
  gio_get_dir 9 m = Done (dir_code GIO_DIR_IN) ∧ gio_get_dir 8 m = Done (dir_code GIO_DIR_UNKNOWN).
Proof.
  split; [rewrite (proj1 (getters_read 9 _ ltac:(lia)))|rewrite (proj1 (getters_read 8 _ ltac:(lia)))]; vm_compute; reflexivity.
Defined.

(** ** Levels and edges *)

(** The register of the levels is at an odd address.  The function that sets a level
    works on the two bytes of it; the one that reads it does so in one access, which
    only a handler for accesses that are not aligned could complete, and that is not
    part of this model. *)
Lemma level_unreadable k m : 0 <= k <= 15 → gio_get_irq_level k m = Fault.
Proof. intros Hk. unfold gio_get_irq_level. by rewrite (proj2 (Z.ltb_ge _ _)) by lia. Qed.

Lemma edge_read k m :
  0 <= k <= 15 →
  gio_get_irq_edge k m = Done (b2z (view m k EDGE0) + 16 * b2z ((k <=? 13) && view m (k + 2) EDGE0)).
Proof.
  intros Hk. unfold gio_get_irq_edge. rewrite (proj2 (Z.ltb_ge _ _)) by lia.
  change (readl m GPIO_KEY_EDGE) with (Done (rd 4 m GPIO_KEY_EDGE)). cbn [mbind exec_bind]. f_equal.
  pose proof (rd_range 4 m GPIO_KEY_EDGE) as Hr.
  assert (B0 : Z.testbit (rd 4 m GPIO_KEY_EDGE) (k * 2) = view m k EDGE0).
  { rewrite testbit_rd by lia. by rewrite (Z.mul_comm k 2). }
  assert (B4 : Z.testbit (rd 4 m GPIO_KEY_EDGE) (4 + k * 2) = (k <=? 13) && view m (k + 2) EDGE0).
  { destruct (Z.leb_spec k 13); cbn [andb].
    - rewrite testbit_rd by lia. by replace (4 + k * 2) with (2 * (k + 2)) by lia.
    - rewrite <-(Z.mod_small (rd 4 m GPIO_KEY_EDGE) (2 ^ 32)) by exact Hr. apply Z.mod_pow2_bits_high. lia. }
  rewrite <-B0, <-B4. apply Z.bits_inj'. intros i Hi. unfold u8.
  destruct (decide (i < 8)).
  - rewrite Z.mod_pow2_bits_low, Z.land_spec, Z.shiftr_spec by lia.
    assert (i = 0 ∨ i = 1 ∨ i = 2 ∨ i = 3 ∨ i = 4 ∨ i = 5 ∨ i = 6 ∨ i = 7) as Hc by lia.
    destruct Hc as [->|[->|[->|[->|[->|[->|[->| ->]]]]]]]; rewrite ?Z.add_0_l;
      destruct (Z.testbit (rd 4 m GPIO_KEY_EDGE) (k * 2)), (Z.testbit (rd 4 m GPIO_KEY_EDGE) (4 + k * 2));
      rewrite andb_comm; done.
  - rewrite Z.mod_pow2_bits_high by lia. symmetry.
    rewrite <-(Z.mod_small (b2z _ + _) (2 ^ 8)) by (destruct (Z.testbit _ _), (Z.testbit _ _); cbn; lia).
    apply Z.mod_pow2_bits_high. lia.
Qed.

(** The edge of a pin cannot be read back: after any of the three was set,
    the function returns the code of the edge only when it is not the falling one and
    pin [k + 2] is not set to the rising edge. *)
Theorem edge_misread (k : Z) (e : gio_edge_t) (m : bus) :
  0 <= k <= 15 →
  ∃ m', gio_set_irq_edge k e m = Done m' ∧
  gio_get_irq_edge k m' =
    Done ((if e is GIO_RISING_EDGE then 1 else 0) + 16 * b2z ((k <=? 13) && view m (k + 2) EDGE0)).
Proof.
  intros Hk. destruct (set_irq_edge_does k e m ltac:(lia)) as (m' & E & H). exists m'. split; [done|].
  rewrite edge_read by lia. rewrite (H k EDGE0) by lia. f_equal. f_equal.
  - destruct e; cbn; unfold assign; cbn; repeat (case_decide; [|naive_solver]); repeat case_decide; naive_solver.
  - do 2 f_equal. destruct (Z.leb_spec k 13); [|done]. cbn [andb]. rewrite (H (k + 2) EDGE0) by lia.
    destruct e; cbn; unfold assign; cbn; repeat (rewrite decide_False by lia); done.
Qed.

Lemma edge_misread_witness :
  ∃ m', gio_set_irq_edge 4 GIO_FALLING_EDGE ∅ = Done m' ∧ gio_get_irq_edge 4 m' = Done 0 ∧ edge_code GIO_FALLING_EDGE = 2.
Proof. destruct (edge_misread 4 GIO_FALLING_EDGE ∅ ltac:(lia)) as (m' & E & H). exists m'. split; [exact E|]. split; [exact H|done]. Defined.
