(* ===== verification/Dma.v ===== *)
(** * The DMA channels

    [src/kernel/linux-2.4.19/arch/arm/kernel/dma.c], which hands out the sixteen
    channels and keeps what their owners set, and
    [src/kernel/linux-2.4.19/arch/arm/mach-pl1029/dma.c], which programs the
    controller of the board: each channel has a table of descriptors in memory that
    the controller walks by itself.

    Memory and the registers of the controller are one map of bytes ([Bus]), at the
    addresses the kernel uses.  A channel of the model is the [dma_t] of the first
    file with the [arch_dma_t] of the second, which [arch_dma_init] ties together.
    An index outside the arrays is a [Fault], as is [BUG()]. *)

From S2P Require Import Prelude Bus.

Local Open Scope Z_scope.

Definition EBUSY : Z := 16.
Definition EINVAL : Z := 22.

Definition MAX_DMA_CHANNELS : Z := 16.
Definition DMA_MODE_READ : Z := 0.
Definition DMA_MODE_WRITE : Z := 1.

(** ** State *)

Record chan : Type := mk_chan {
  c_ops : bool; c_lock : Z; c_id : list Z; c_active : bool; c_invalid : bool; c_using_sg : bool; c_prolific_sg : bool; c_mode : Z; c_speed : Z; c_sg : Z; c_sgcount : Z; c_address : Z; c_length : Z; a_lock : Z; a_mde : Z }.

Definition with_lock (v : Z) (c : chan) : chan := mk_chan (c_ops c) v (c_id c) (c_active c) (c_invalid c) (c_using_sg c) (c_prolific_sg c) (c_mode c) (c_speed c) (c_sg c) (c_sgcount c) (c_address c) (c_length c) (a_lock c) (a_mde c).
Definition with_id (v : list Z) (c : chan) : chan := mk_chan (c_ops c) (c_lock c) v (c_active c) (c_invalid c) (c_using_sg c) (c_prolific_sg c) (c_mode c) (c_speed c) (c_sg c) (c_sgcount c) (c_address c) (c_length c) (a_lock c) (a_mde c).
Definition with_active (v : bool) (c : chan) : chan := mk_chan (c_ops c) (c_lock c) (c_id c) v (c_invalid c) (c_using_sg c) (c_prolific_sg c) (c_mode c) (c_speed c) (c_sg c) (c_sgcount c) (c_address c) (c_length c) (a_lock c) (a_mde c).
Definition with_invalid (v : bool) (c : chan) : chan := mk_chan (c_ops c) (c_lock c) (c_id c) (c_active c) v (c_using_sg c) (c_prolific_sg c) (c_mode c) (c_speed c) (c_sg c) (c_sgcount c) (c_address c) (c_length c) (a_lock c) (a_mde c).
Definition with_using_sg (v : bool) (c : chan) : chan := mk_chan (c_ops c) (c_lock c) (c_id c) (c_active c) (c_invalid c) v (c_prolific_sg c) (c_mode c) (c_speed c) (c_sg c) (c_sgcount c) (c_address c) (c_length c) (a_lock c) (a_mde c).
Definition with_prolific_sg (v : bool) (c : chan) : chan := mk_chan (c_ops c) (c_lock c) (c_id c) (c_active c) (c_invalid c) (c_using_sg c) v (c_mode c) (c_speed c) (c_sg c) (c_sgcount c) (c_address c) (c_length c) (a_lock c) (a_mde c).
Definition with_mode (v : Z) (c : chan) : chan := mk_chan (c_ops c) (c_lock c) (c_id c) (c_active c) (c_invalid c) (c_using_sg c) (c_prolific_sg c) v (c_speed c) (c_sg c) (c_sgcount c) (c_address c) (c_length c) (a_lock c) (a_mde c).
Definition with_speed (v : Z) (c : chan) : chan := mk_chan (c_ops c) (c_lock c) (c_id c) (c_active c) (c_invalid c) (c_using_sg c) (c_prolific_sg c) (c_mode c) v (c_sg c) (c_sgcount c) (c_address c) (c_length c) (a_lock c) (a_mde c).
Definition with_sg (v : Z) (c : chan) : chan := mk_chan (c_ops c) (c_lock c) (c_id c) (c_active c) (c_invalid c) (c_using_sg c) (c_prolific_sg c) (c_mode c) (c_speed c) v (c_sgcount c) (c_address c) (c_length c) (a_lock c) (a_mde c).
Definition with_sgcount (v : Z) (c : chan) : chan := mk_chan (c_ops c) (c_lock c) (c_id c) (c_active c) (c_invalid c) (c_using_sg c) (c_prolific_sg c) (c_mode c) (c_speed c) (c_sg c) v (c_address c) (c_length c) (a_lock c) (a_mde c).
Definition with_address (v : Z) (c : chan) : chan := mk_chan (c_ops c) (c_lock c) (c_id c) (c_active c) (c_invalid c) (c_using_sg c) (c_prolific_sg c) (c_mode c) (c_speed c) (c_sg c) (c_sgcount c) v (c_length c) (a_lock c) (a_mde c).
Definition with_length (v : Z) (c : chan) : chan := mk_chan (c_ops c) (c_lock c) (c_id c) (c_active c) (c_invalid c) (c_using_sg c) (c_prolific_sg c) (c_mode c) (c_speed c) (c_sg c) (c_sgcount c) (c_address c) v (a_lock c) (a_mde c).
Definition with_a_lock (v : Z) (c : chan) : chan := mk_chan (c_ops c) (c_lock c) (c_id c) (c_active c) (c_invalid c) (c_using_sg c) (c_prolific_sg c) (c_mode c) (c_speed c) (c_sg c) (c_sgcount c) (c_address c) (c_length c) v (a_mde c).
Definition with_a_mde (v : Z) (c : chan) : chan := mk_chan (c_ops c) (c_lock c) (c_id c) (c_active c) (c_invalid c) (c_using_sg c) (c_prolific_sg c) (c_mode c) (c_speed c) (c_sg c) (c_sgcount c) (c_address c) (c_length c) (a_lock c) v.

Record dma_st : Type := mk_dma { mem : bus; chans : list chan }.

Definition with_mem (m : bus) (s : dma_st) : dma_st := mk_dma m (chans s).

(** [dma_chan + channel], and its update. *)
Definition get_chan (ch : Z) (s : dma_st) : exec chan :=
  if 0 <=? ch then match chans s !! Z.to_nat ch with Some c => Done c | None => Fault end else Fault.

Definition put_chan (ch : Z) (c : chan) (s : dma_st) : dma_st := mk_dma (mem s) (<[Z.to_nat ch := c]> (chans s)).

Definition set_chan (ch : Z) (f : chan → chan) (s : dma_st) : exec dma_st :=
  c ← get_chan ch s; Done (put_chan ch (f c) s).

(** ** The controller *)

Definition PL_DMA_BASE : Z := 0xd97c0000.
Definition DMA_IDX_REG : Z := 0x00.
Definition DMA_CMD_REG : Z := 0x03.
Definition DMA_MDT_REG : Z := 0x40.

Definition DMA_CHN_ENABLE : Z := 2 ^ 7.
Definition DMA_MODE_UPSTREAM : Z := 2 ^ 6.
Definition DMA_BURST_LINE : Z := 2 ^ 3.

Definition MDT_FLAG_E : Z := 0x80000000.
Definition MDT_FLAG_V : Z := 0x40000000.
Definition MDT_FLAG_NXT_SHIFT : Z := 21.
Definition MAX_DMA_MDT : Z := 4.
Definition MAX_DMA_MDT_COUNT : Z := 2 ^ 21 - 16.

(** Kernel memory is mapped at an offset. *)
Definition PAGE_OFFSET : Z := 0xc0000000.
Definition virt_to_bus (a : Z) : Z := u32 (a - PAGE_OFFSET).
Definition bus_to_virt (a : Z) : Z := u32 (a + PAGE_OFFSET).

Definition dma_reg (reg dmanr : Z) : Z := PL_DMA_BASE + reg + 4 * dmanr.
Definition dma_readb (reg dmanr : Z) (m : bus) : Z := readb m (dma_reg reg dmanr).
Definition dma_writeb (value reg dmanr : Z) (m : bus) : bus := writeb value (dma_reg reg dmanr) m.
Definition dma_writel (value reg dmanr : Z) (m : bus) : exec bus := writel value (dma_reg reg dmanr) m.

(** An entry of a table in memory: two words. *)
Definition mde_saddr (table i : Z) : Z := table + 8 * i.
Definition mde_flag (table i : Z) : Z := table + 8 * i + 4.

Section pl_dma.

(** Where the linker put [arch_dma_chan[channel].mde_default]. *)
Variable mde_default : Z → Z.

Definition pl_request_dma (channel : Z) (s : dma_st) : exec (Z * dma_st) :=
  if MAX_DMA_CHANNELS <=? channel then Done (- EINVAL, s) else
  c ← get_chan channel s;
  let s := put_chan channel (with_a_lock 1 c) s in
  if negb (a_lock c =? 0) then Done (- EBUSY, s) else
  s ← set_chan channel (with_a_mde 0) s;
  Done (0, s).

Definition pl_free_dma (channel : Z) (s : dma_st) : exec dma_st :=
  if MAX_DMA_CHANNELS <=? channel then Done s else set_chan channel (with_a_lock 0) s.

(** The loop over the entries: from entry [i], what is left to describe, the size of
    the entry before; the result is the entry at which the loop stopped. *)
Fixpoint mde_loop (fuel : nat) (table i count dcnt : Z) (m : bus) : exec (Z * bus) :=
  match fuel with
  | O => Done (i, m)
  | S fuel' =>
      m ← (if 0 <? i then
             a ← readl m (mde_saddr table (i - 1));
             writel (a + dcnt) (mde_saddr table i) m
           else Done m);
      let dcnt := if MAX_DMA_MDT_COUNT <? count then MAX_DMA_MDT_COUNT else count in
      let count := count - dcnt in
      m ← writel (Z.lor (Z.lor dcnt (Z.shiftl (i + 1) MDT_FLAG_NXT_SHIFT)) MDT_FLAG_V) (mde_flag table i) m;
      if count =? 0 then Done (i, m) else mde_loop fuel' table (i + 1) count dcnt m
  end.

(** The table for a single buffer whose address is in the first entry. *)
Definition mde_table (table count : Z) (m : bus) : exec bus :=
  '(i, m) ← mde_loop (Z.to_nat MAX_DMA_MDT) table 0 count 0 m;
  f ← readl m (mde_flag table i);
  writel (Z.lor f MDT_FLAG_E) (mde_flag table i) m.

(** The end of [pl_enable_dma]: the direction, and the channel is on. *)
Definition chn_enable (channel mode : Z) (m : bus) : bus :=
  let val := dma_readb DMA_CMD_REG channel m in
  let val := if mode =? DMA_MODE_READ then Z.lor val DMA_MODE_UPSTREAM else Z.land val (Z.lnot DMA_MODE_UPSTREAM) in
  dma_writeb (Z.lor val DMA_CHN_ENABLE) DMA_CMD_REG channel m.

Definition pl_enable_dma (channel : Z) (s : dma_st) : exec dma_st :=
  if MAX_DMA_CHANNELS <=? channel then Done s else
  c ← get_chan channel s;
  if c_using_sg c then
    if c_prolific_sg c then Done (with_mem (chn_enable channel (c_mode c) (mem s)) s) else Done s
  else
    let table := if a_mde c =? 0 then mde_default channel else a_mde c in
    let s := put_chan channel (with_a_mde table c) s in
    m ← writel (virt_to_bus (c_address c)) (mde_saddr table 0) (mem s);
    let count := s32 (c_length c) in
    if MAX_DMA_MDT * MAX_DMA_MDT_COUNT <? count then Done (with_mem m s) else
    m ← mde_table table count m;
    let m := dma_writeb 0 DMA_IDX_REG channel m in
    m ← dma_writel (virt_to_bus table) DMA_MDT_REG channel m;
    Done (with_mem (chn_enable channel (c_mode c) m) s).

Definition pl_disable_dma (channel : Z) (s : dma_st) : dma_st :=
  if MAX_DMA_CHANNELS <=? channel then s else
  let val := dma_readb DMA_CMD_REG channel (mem s) in
  with_mem (dma_writeb (Z.land val (Z.lnot DMA_CHN_ENABLE)) DMA_CMD_REG channel (mem s)) s.

Definition pl_get_dma_residue (channel : Z) (s : dma_st) : Z :=
  if MAX_DMA_CHANNELS <=? channel then - EINVAL else
  if Z.land (dma_readb DMA_CMD_REG channel (mem s)) DMA_CHN_ENABLE =? 0 then 0 else 1.

Definition pl_set_dma_speed (cycle_ns : Z) : Z := 0.

Definition set_dma_mde_base (channel mde_vaddr : Z) (s : dma_st) : exec dma_st :=
  if MAX_DMA_CHANNELS <=? channel then Done s else
  if negb (Z.land mde_vaddr 3 =? 0) then Done s else
  s ← set_chan channel (λ c, with_a_mde mde_vaddr (with_prolific_sg true (with_using_sg true c))) s;
  let m := dma_writeb 0 DMA_IDX_REG channel (mem s) in
  m ← dma_writel (virt_to_bus mde_vaddr) DMA_MDT_REG channel m;
  Done (with_mem m s).

Definition set_dma_mde_idx (channel mde_idx : Z) (s : dma_st) : dma_st :=
  if MAX_DMA_CHANNELS <=? channel then s else
  if 255 <? mde_idx then s else
  with_mem (dma_writeb mde_idx DMA_IDX_REG channel (mem s)) s.

Definition set_dma_burst_length (channel burst : Z) (s : dma_st) : dma_st :=
  if MAX_DMA_CHANNELS <=? channel then s else
  let val := dma_readb DMA_CMD_REG channel (mem s) in
  let val := if negb (burst =? 0) then Z.lor val DMA_BURST_LINE else Z.land val (Z.lnot DMA_BURST_LINE) in
  with_mem (dma_writeb val DMA_CMD_REG channel (mem s)) s.

(** ** The front end *)

Definition request_dma (channel : Z) (device_id : list Z) (s : dma_st) : exec (Z * dma_st) :=
  if MAX_DMA_CHANNELS <=? channel then Done (- EINVAL, s) else
  c ← get_chan channel s;
  if negb (c_ops c) then Done (- EINVAL, s) else
  let s := put_chan channel (with_lock 1 c) s in
  if negb (c_lock c =? 0) then Done (- EBUSY, s) else
  s ← set_chan channel (λ c, with_invalid true (with_active false (with_id device_id c))) s;
  '(ret, s) ← pl_request_dma channel s;
  s ← (if negb (ret =? 0) then set_chan channel (with_lock 0) s else Done s);
  Done (ret, s).

Definition free_dma (channel : Z) (s : dma_st) : exec dma_st :=
  if MAX_DMA_CHANNELS <=? channel then Done s else
  c ← get_chan channel s;
  if negb (c_ops c) then Done s else
  s ← (if c_active c then set_chan channel (with_active false) (pl_disable_dma channel s) else Done s);
  s ← set_chan channel (with_lock 0) s;
  if negb (c_lock c =? 0) then pl_free_dma channel s else Done s.

Definition set_dma_sg (channel sg nr_sg : Z) (s : dma_st) : exec dma_st :=
  set_chan channel (λ c, with_invalid true (with_prolific_sg false (with_using_sg true (with_sgcount nr_sg (with_sg sg c))))) s.

(** [sg] is set to [&dma->buf], its own structure, here written as zero. *)
Definition set_dma_addr (channel physaddr : Z) (s : dma_st) : exec dma_st :=
  set_chan channel (λ c, with_invalid true (with_using_sg false (with_address (bus_to_virt physaddr) (with_sgcount 1 (with_sg 0 c))))) s.

Definition set_dma_count (channel count : Z) (s : dma_st) : exec dma_st :=
  set_chan channel (λ c, with_invalid true (with_using_sg false (with_length count (with_sgcount 1 (with_sg 0 c))))) s.

Definition set_dma_mode (channel mode : Z) (s : dma_st) : exec dma_st :=
  set_chan channel (λ c, with_invalid true (with_mode mode c)) s.

Definition enable_dma (channel : Z) (s : dma_st) : exec dma_st :=
  c ← get_chan channel s;
  if c_lock c =? 0 then Fault else
  s ← set_chan channel (with_active true) s;
  if c_ops c then pl_enable_dma channel s else Fault.

Definition disable_dma (channel : Z) (s : dma_st) : exec dma_st :=
  c ← get_chan channel s;
  if c_lock c =? 0 then Fault else
  if c_active c then
    s ← set_chan channel (with_active false) s;
    if c_ops c then Done (pl_disable_dma channel s) else Fault
  else Done s.

Definition dma_channel_active (channel : Z) (s : dma_st) : exec bool := c ← get_chan channel s; Done (c_active c).

Definition set_dma_speed (channel cycle_ns : Z) (s : dma_st) : exec dma_st :=
  c ← get_chan channel s;
  if c_ops c then set_chan channel (with_speed (pl_set_dma_speed cycle_ns)) s else Fault.

Definition get_dma_residue (channel : Z) (s : dma_st) : exec Z :=
  c ← get_chan channel s; if c_ops c then Done (pl_get_dma_residue channel s) else Fault.

(** The lines of [/proc/dma]: [%2d: %14s %s], where the type is empty. *)
Definition dma_line (i : Z) (c : chan) : list Z :=
  if c_lock c =? 0 then []
  else (if i <? 10 then [32; 48 + i] else [48 + i / 10; 48 + i mod 10]) ++ bs ": " ++ replicate 14 32 ++ [32] ++ c_id c ++ [10].

Definition get_dma_list (s : dma_st) : list Z := concat (imap (λ i c, dma_line (Z.of_nat i) c) (chans s)).

(** [init_dma] with [arch_dma_init]: static storage starts as zeros. *)
Definition chan_init : chan := mk_chan true 0 [] false false false false 0 0 0 0 0 0 0 0.
Definition init_dma (m : bus) : dma_st := mk_dma m (replicate (Z.to_nat MAX_DMA_CHANNELS) chan_init).

End pl_dma.
