(* ===== verification/DmaTheorems.v ===== *)
(** * The DMA channels: theorems

    - The table that [pl_enable_dma] builds for a buffer, read as the controller
      reads it, is the buffer ([table_is_buffer]).
    - The two locks of a channel agree whatever is called, so a channel is granted
      exactly when nobody has it ([locks_agree]).
    - A buffer that is too long is refused without an error ([refused_is_active]). *)

From S2P Require Import Prelude Bus Dma.

Local Open Scope Z_scope.

(** ** Walking a table *)

(** What the controller sees: from entry [i] the address and the count of each entry
    (twenty-one bits), until one is marked as the last; [None] when an entry is not
    valid. *)
Fixpoint mde_walk (fuel : nat) (m : bus) (table i : Z) : option (list (Z * Z)) :=
  match fuel with
  | O => None
  | S fuel' =>
      let f := rd 4 m (mde_flag table i) in
      let seg := (rd 4 m (mde_saddr table i), f mod 2 ^ 21) in
      if Z.testbit f 30 then
        if Z.testbit f 31 then Some [seg] else segs ← mde_walk fuel' m table ((f / 2 ^ 21) mod 2 ^ 8); Some (seg :: segs)
      else None
  end.

(** The addresses that the entries cover, in order. *)
Definition covered (segs : list (Z * Z)) : list Z := concat (map (λ '(a, n), seqZ a n) segs).

(** How the code cuts a length. *)
Fixpoint cuts (fuel : nat) (count : Z) : list Z :=
  match fuel with
  | O => []
  | S fuel' => if MAX_DMA_MDT_COUNT <? count then MAX_DMA_MDT_COUNT :: cuts fuel' (count - MAX_DMA_MDT_COUNT) else [count]
  end.

(** The flags of entry [i] that holds [n] bytes. *)
Definition flags (i n e : Z) : Z := n + (i + 1) * 2 ^ 21 + 2 ^ 30 + e * 2 ^ 31.

Lemma flags_lor i n : 0 <= n < 2 ^ 21 → 0 <= i < 255 → Z.lor (Z.lor n (Z.shiftl (i + 1) MDT_FLAG_NXT_SHIFT)) MDT_FLAG_V = flags i n 0.
Proof.
  intros Hn Hi. unfold flags, MDT_FLAG_NXT_SHIFT, MDT_FLAG_V. rewrite Z.shiftl_mul_pow2 by lia.
  rewrite (lor_add_r n _ 21) by (try lia; by exists (i + 1)).
  rewrite (lor_add_r _ _ 30) by (try lia; by exists 1). lia.
Qed.

Lemma flags_end i n : 0 <= n < 2 ^ 21 → 0 <= i < 255 → Z.lor (flags i n 0) MDT_FLAG_E = flags i n 1.
Proof.
  intros Hn Hi. unfold flags, MDT_FLAG_E. rewrite (lor_add_r _ _ 31) by (try lia; by exists 1). lia.
Qed.

Lemma flags_fields i n e :
  0 <= n < 2 ^ 21 → 0 <= i < 255 → 0 <= e <= 1 →
  flags i n e mod 2 ^ 21 = n ∧ (flags i n e / 2 ^ 21) mod 2 ^ 8 = i + 1 ∧
  Z.testbit (flags i n e) 30 = true ∧ Z.testbit (flags i n e) 31 = (e =? 1) ∧ 0 <= flags i n e < 2 ^ 32.
Proof.
  intros Hn Hi He. unfold flags. split; [|split; [|split; [|split]]].
  - zdm.
  - zdm.
  - rewrite Z.testbit_true by lia. zdm.
  - assert (e = 0 ∨ e = 1) as [-> | ->] by lia; cbn [Z.eqb].
    + rewrite Z.testbit_false by lia. zdm.
    + rewrite Z.testbit_true by lia. zdm.
  - lia.
Qed.

(** Entries [i], [i + 1], ... describe the pieces [ns] of the memory from [base]; the
    last of them is marked as [e] says. *)
Fixpoint entries (m : bus) (table i base : Z) (ns : list Z) (e : Z) : Prop :=
  match ns with
  | [] => False
  | [n] => rd 4 m (mde_saddr table i) = base ∧ rd 4 m (mde_flag table i) = flags i n e
  | n :: ns' => rd 4 m (mde_saddr table i) = base ∧ rd 4 m (mde_flag table i) = flags i n 0 ∧
                entries m table (i + 1) (base + n) ns' e
  end.

Lemma entries_cons m table i base n ns e :
  ns ≠ [] →
  entries m table i base (n :: ns) e ↔
  rd 4 m (mde_saddr table i) = base ∧ rd 4 m (mde_flag table i) = flags i n 0 ∧ entries m table (i + 1) (base + n) ns e.
Proof. by destruct ns. Qed.

(** What is written before the entries or behind them does not matter. *)
Lemma entries_frame m m' table i base ns e :
  (∀ a, table + 8 * i <= a < table + 8 * (i + strlen ns) → byte_at m' a = byte_at m a) →
  entries m table i base ns e → entries m' table i base ns e.
Proof.
  revert i base. induction ns as [|n ns IH]; intros i base Hm; [done|].
  assert (Hrd : ∀ a, table + 8 * i <= a → a + 4 <= table + 8 * (i + strlen (n :: ns)) → rd 4 m' a = rd 4 m a).
  { intros a H1 H2. apply rd_ext. intros b Hb. apply Hm. lia. }
  unfold strlen in *. cbn [length] in *. unfold mde_saddr, mde_flag.
  destruct (decide (ns = [])) as [->|Hns].
  { cbn [entries length] in *. unfold mde_saddr, mde_flag. rewrite !Hrd by lia. done. }
  rewrite !entries_cons by done. unfold mde_saddr, mde_flag. rewrite !Hrd by (destruct ns; [done|cbn [length]; lia]).
  intros (H1 & H2 & H3). split_and!; [done..|]. apply IH; [|done]. intros a Ha. apply Hm. lia.
Qed.

Definition zsum (ns : list Z) : Z := foldr Z.add 0 ns.

Lemma walk_entries m table ns fuel i base :
  Forall (λ n, 0 <= n < 2 ^ 21) ns → 0 <= i → i + strlen ns < 255 → (length ns <= fuel)%nat →
  entries m table i base ns 1 →
  ∃ segs, mde_walk fuel m table i = Some segs ∧ covered segs = seqZ base (zsum ns).
Proof.
  intros Hns. revert fuel i base. induction Hns as [|n ns Hn Hns IH]; intros fuel i base Hi Hlen Hfuel H; [done|].
  destruct fuel as [|fuel]; [cbn in Hfuel; lia|]. unfold strlen in *. cbn [length] in *. cbn [mde_walk].
  destruct (decide (ns = [])) as [->|Hne].
  - destruct H as [H1 H2]. rewrite H1, H2. destruct (flags_fields i n 1) as (F1 & F2 & F3 & F4 & _); [lia..|].
    rewrite F1, F3, F4. eexists. split; [reflexivity|]. cbn. by rewrite app_nil_r, Z.add_0_r.
  - rewrite entries_cons in H by done. destruct H as (H1 & H2 & H3). rewrite H1, H2.
    destruct (flags_fields i n 0) as (F1 & F2 & F3 & F4 & _); [lia..|]. rewrite F1, F2, F3, F4.
    destruct (IH fuel (i + 1) (base + n)) as (segs & -> & Hs); [lia..|done|].
    eexists. split; [reflexivity|]. cbn. fold (covered segs). rewrite Hs.
    rewrite <-seqZ_app; [done|lia|]. clear -Hns. unfold zsum. induction Hns as [|x l Hx _ IHl]; cbn in *; lia.
Qed.

(** ** Building it *)

Lemma cuts_ok fuel count :
  0 <= count <= Z.of_nat fuel * MAX_DMA_MDT_COUNT → (0 < fuel)%nat →
  Forall (λ n, 0 <= n < 2 ^ 21) (cuts fuel count) ∧ zsum (cuts fuel count) = count ∧
  cuts fuel count ≠ [] ∧ (length (cuts fuel count) <= fuel)%nat.
Proof.
  unfold MAX_DMA_MDT_COUNT. revert count. induction fuel as [|fuel IH]; intros count Hc Hf; [lia|]. cbn [cuts].
  unfold MAX_DMA_MDT_COUNT. destruct (Z.ltb_spec (2 ^ 21 - 16) count).
  - destruct fuel as [|fuel]; [lia|]. destruct (IH (count - (2 ^ 21 - 16))) as (H1 & H2 & H3 & H4); [lia..|].
    split_and!; [constructor; [lia|done]| |done|cbn [length]; lia]. cbn [zsum foldr]. unfold zsum in H2. lia.
  - split_and!; [repeat constructor; lia|cbn; lia|done|cbn; lia].
Qed.

(** An aligned word is written and seen. *)
Lemma writel_done v a m : a mod 4 = 0 → writel v a m = Done (wr 4 v a m).
Proof. intros H. unfold writel, aligned. by rewrite H. Qed.

Lemma readl_done a m : a mod 4 = 0 → readl m a = Done (rd 4 m a).
Proof. intros H. unfold readl, aligned. by rewrite H. Qed.

Definition outside (table lo hi : Z) (m m' : bus) : Prop :=
  ∀ a, a < table + lo ∨ table + hi <= a → byte_at m' a = byte_at m a.

Lemma outside_wr table lo hi k v a m :
  table + lo <= a → a + Z.of_nat k <= table + hi → outside table lo hi m (wr k v a m).
Proof. intros H1 H2 b Hb. rewrite byte_at_wr, decide_False; [done|lia]. Qed.

Lemma outside_trans table lo hi m1 m2 m3 : outside table lo hi m1 m2 → outside table lo hi m2 m3 → outside table lo hi m1 m3.
Proof. intros H1 H2 a Ha. rewrite H2, H1; done. Qed.

Lemma outside_weaken table lo hi lo' hi' m m' :
  lo' <= lo → hi <= hi' → outside table lo hi m m' → outside table lo' hi' m m'.
Proof. intros H1 H2 H a Ha. apply H. lia. Qed.

(** The part of a turn before the flags: the address of the entry. *)
Lemma loop_address table i base dcnt m :
  table mod 4 = 0 → 0 <= i →
  (if decide (i = 0) then rd 4 m (mde_saddr table 0) = base else rd 4 m (mde_saddr table (i - 1)) + dcnt = base) →
  0 <= base < 2 ^ 32 →
  ∃ m', (if 0 <? i then a ← readl m (mde_saddr table (i - 1)); writel (a + dcnt) (mde_saddr table i) m else Done m) = Done m' ∧
        rd 4 m' (mde_saddr table i) = base ∧ outside table (8 * i) (8 * i + 4) m m'.
Proof.
  intros Ht Hi Hb Hr. destruct (Z.ltb_spec 0 i).
  - rewrite decide_False in Hb by lia. rewrite readl_done by (unfold mde_saddr; zdm). cbn [mbind exec_bind].
    rewrite writel_done by (unfold mde_saddr; zdm). eexists. split; [done|]. rewrite rd_wr_same, Hb.
    split; [by apply Z.mod_small|]. apply outside_wr; unfold mde_saddr; lia.
  - assert (i = 0) as -> by lia. rewrite decide_True in Hb by done. by exists m.
Qed.

Lemma mde_loop_entries fuel table i base count dcnt m :
  table mod 4 = 0 → 0 <= i → i + Z.of_nat fuel <= 4 → (0 < fuel)%nat →
  0 <= count <= Z.of_nat fuel * MAX_DMA_MDT_COUNT → 0 <= base → base + count < 2 ^ 32 →
  (if decide (i = 0) then rd 4 m (mde_saddr table 0) = base else rd 4 m (mde_saddr table (i - 1)) + dcnt = base) →
  ∃ m', mde_loop fuel table i count dcnt m = Done (i + strlen (cuts fuel count) - 1, m') ∧
        entries m' table i base (cuts fuel count) 0 ∧ outside table (8 * i) 32 m m'.
Proof.
  revert i base count dcnt m. induction fuel as [|fuel IH]; intros i base count dcnt m Ht Hi Hf Hf0 Hc Hb Hbc Hs; [lia|].
  destruct (loop_address table i base dcnt m Ht Hi Hs ltac:(lia)) as (m1 & E1 & R1 & O1).
  cbn [mde_loop cuts]. rewrite E1. cbn [mbind exec_bind].
  set (n := if MAX_DMA_MDT_COUNT <? count then MAX_DMA_MDT_COUNT else count).
  assert (Hn : 0 <= n < 2 ^ 21 ∧ n <= count).
  { unfold n, MAX_DMA_MDT_COUNT in *. destruct (Z.ltb_spec (2 ^ 21 - 16) count); lia. }
  rewrite writel_done by (unfold mde_flag; zdm). cbn [mbind exec_bind]. rewrite flags_lor by lia.
  set (m2 := wr 4 (flags i n 0) (mde_flag table i) m1).
  assert (O2 : outside table (8 * i) (8 * i + 8) m m2).
  { eapply outside_trans; [eapply outside_weaken; [| |exact O1]; lia|]. apply outside_wr; unfold mde_flag; lia. }
  assert (R2 : rd 4 m2 (mde_saddr table i) = base).
  { unfold m2. rewrite rd_wr_other by (unfold mde_saddr, mde_flag; lia). done. }
  assert (F2 : rd 4 m2 (mde_flag table i) = flags i n 0).
  { unfold m2. rewrite rd_wr_same. apply Z.mod_small. apply flags_fields; lia. }
  destruct (Z.eqb_spec (count - n) 0) as [E|E].
  - assert ((MAX_DMA_MDT_COUNT <? count) = false) as Hlt.
    { unfold n, MAX_DMA_MDT_COUNT in *. destruct (Z.ltb_spec (2 ^ 21 - 16) count); [lia|done]. }
    unfold n in *. rewrite Hlt in *. exists m2. split; [f_equal; f_equal; unfold strlen; cbn; lia|].
    split; [by split|]. eapply outside_weaken; [| |exact O2]; lia.
  - assert ((MAX_DMA_MDT_COUNT <? count) = true) as Hlt.
    { unfold n in *. destruct (Z.ltb_spec MAX_DMA_MDT_COUNT count); [done|lia]. }
    unfold n in *. rewrite Hlt in *. destruct fuel as [|fuel]; [lia|].
    destruct (IH (i + 1) (base + MAX_DMA_MDT_COUNT) (count - MAX_DMA_MDT_COUNT) MAX_DMA_MDT_COUNT m2)
      as (m3 & E3 & H3 & O3); [lia..|rewrite decide_False by lia; rewrite Z.add_simpl_r, R2; lia|].
    exists m3. rewrite E3. split; [f_equal; f_equal; unfold strlen; cbn [length]; lia|]. split.
    + rewrite entries_cons by (apply cuts_ok; lia).
      rewrite (rd_ext 4 m3 m2), (rd_ext 4 m3 m2) by (intros a Ha; apply O3; unfold mde_saddr, mde_flag in Ha; lia). done.
    + eapply outside_trans; eapply outside_weaken; [| |exact O2| | |exact O3]; lia.
Qed.

Lemma entries_end m table i base ns :
  Forall (λ n, 0 <= n < 2 ^ 21) ns → 0 <= i → i + strlen ns < 255 → ns ≠ [] →
  entries m table i base ns 0 →
  let a := mde_flag table (i + strlen ns - 1) in
  entries (wr 4 (Z.lor (rd 4 m a) MDT_FLAG_E) a m) table i base ns 1.
Proof.
  intros Hns. revert i base. induction Hns as [|n ns Hn Hns IH]; intros i base Hi Hlen Hne H; [done|].
  unfold strlen in *. cbn [length] in *. destruct (decide (ns = [])) as [->|Hne'].
  - destruct H as [H1 H2]. cbn [length entries]. cbv zeta. rewrite Z.add_simpl_r.
    rewrite rd_wr_same, rd_wr_other by (unfold mde_saddr, mde_flag; lia). rewrite H2, flags_end by lia.
    split; [done|]. apply Z.mod_small. apply flags_fields; lia.
  - rewrite entries_cons in H |- * by done. destruct H as (H1 & H2 & H3).
    specialize (IH (i + 1) (base + n) ltac:(lia) ltac:(lia) Hne' H3). cbv zeta in *.
    replace (i + Z.of_nat (S (length ns)) - 1) with (i + 1 + Z.of_nat (length ns) - 1) by lia.
    assert (0 < Z.of_nat (length ns)) by (destruct ns; [done|cbn; lia]).
    rewrite !rd_wr_other by (unfold mde_saddr, mde_flag; lia). done.
Qed.

(** A table for [count] bytes from the address that its first entry holds. *)
Lemma mde_table_entries table count m :
  table mod 4 = 0 → 0 <= count <= 4 * MAX_DMA_MDT_COUNT → rd 4 m (mde_saddr table 0) + count < 2 ^ 32 →
  ∃ m', mde_table table count m = Done m' ∧
        entries m' table 0 (rd 4 m (mde_saddr table 0)) (cuts 4 count) 1 ∧ outside table 0 32 m m'.
Proof.
  intros Ht Hc Hb. pose proof (rd_range 4 m (mde_saddr table 0)) as Hr.
  destruct (mde_loop_entries 4 table 0 (rd 4 m (mde_saddr table 0)) count 0 m) as (m1 & E1 & H1 & O1); [lia..|done|].
  destruct (cuts_ok 4 count) as (C1 & C2 & C3 & C4); [lia..|].
  unfold mde_table. change (Z.to_nat MAX_DMA_MDT) with 4%nat. rewrite E1. cbn [mbind exec_bind].
  assert (0 < strlen (cuts 4 count) <= 4) as Hl.
  { unfold strlen. destruct (cuts 4 count); [done|cbn in *; lia]. }
  rewrite readl_done by (unfold mde_flag; zdm). cbn [mbind exec_bind]. rewrite writel_done by (unfold mde_flag; zdm).
  apply entries_end in H1; [|done|lia..|done]. eexists. split; [done|]. split; [exact H1|].
  eapply outside_trans; [exact O1|]. apply outside_wr; unfold mde_flag; lia.
Qed.

(** Such a table walked is the buffer. *)
Lemma entries_covered table base count m :
  0 <= count <= 4 * MAX_DMA_MDT_COUNT → entries m table 0 base (cuts 4 count) 1 →
  ∃ segs, mde_walk 4 m table 0 = Some segs ∧ covered segs = seqZ base count.
Proof.
  intros Hc H. destruct (cuts_ok 4 count) as (C1 & C2 & C3 & C4); [lia..|].
  destruct (walk_entries m table (cuts 4 count) 4 0 base C1) as (segs & W & Hs); [lia|unfold strlen; lia|done..|].
  exists segs. by rewrite C2 in Hs.
Qed.

(** ** Starting a transfer *)

Lemma get_put ch c s : 0 <= ch → (Z.to_nat ch < length (chans s))%nat → get_chan ch (put_chan ch c s) = Done c.
Proof.
  intros H1 H2. unfold get_chan, put_chan. rewrite (proj2 (Z.leb_le _ _)) by done. cbn.
  by rewrite list_lookup_insert_eq by lia.
Qed.

Lemma get_chan_lookup ch c s : 0 <= ch → chans s !! Z.to_nat ch = Some c → get_chan ch s = Done c.
Proof. intros H1 H2. unfold get_chan. by rewrite (proj2 (Z.leb_le _ _)), H2 by done. Qed.

Lemma set_chan_lookup ch c f s : 0 <= ch → chans s !! Z.to_nat ch = Some c → set_chan ch f s = Done (put_chan ch (f c) s).
Proof. intros H1 H2. unfold set_chan. by rewrite (get_chan_lookup _ _ _ H1 H2). Qed.

(** The command register after the channel is switched on. *)
Lemma chn_enable_cmd ch mode m :
  let v := dma_readb DMA_CMD_REG ch (chn_enable ch mode m) in
  Z.testbit v 7 = true ∧ Z.testbit v 6 = (mode =? DMA_MODE_READ).
Proof.
  cbv zeta. unfold chn_enable, dma_readb, dma_writeb, readb, writeb. rewrite byte_at_insert, decide_True by done.
  unfold u8, DMA_CHN_ENABLE, DMA_MODE_UPSTREAM. rewrite !Z.mod_pow2_bits_low, !Z.lor_spec by lia.
  rewrite (Z.pow2_bits_true 7), (Z.pow2_bits_false 7 6) by lia. rewrite orb_true_r, orb_false_r. split; [done|].
  destruct (mode =? DMA_MODE_READ).
  - rewrite Z.lor_spec, Z.pow2_bits_true by lia. apply orb_true_r.
  - rewrite Z.land_spec, Z.lnot_spec, Z.pow2_bits_true by lia. apply andb_false_r.
Qed.

Lemma chn_enable_other ch mode m a : a ≠ dma_reg DMA_CMD_REG ch → byte_at (chn_enable ch mode m) a = byte_at m a.
Proof.
  intros H. unfold chn_enable, dma_writeb, writeb. rewrite byte_at_insert, decide_False; [done|congruence].
Qed.

(** The table lies apart from the registers of the controller. *)
Definition apart (table : Z) : Prop := table + 32 <= PL_DMA_BASE ∨ PL_DMA_BASE + 0x80 <= table.

(** A buffer that fits: the table, and the channel is on. *)
Lemma table_built (mde_default : Z → Z) (ch : Z) (c : chan) (s : dma_st) :
  0 <= ch < MAX_DMA_CHANNELS → chans s !! Z.to_nat ch = Some c →
  c_ops c = true → c_lock c ≠ 0 → c_using_sg c = false →
  let table := if a_mde c =? 0 then mde_default ch else a_mde c in
  let base := virt_to_bus (c_address c) in
  table mod 4 = 0 → apart table →
  0 <= c_length c <= 4 * MAX_DMA_MDT_COUNT → base + c_length c < 2 ^ 32 →
  ∃ s' segs,
    enable_dma mde_default ch s = Done s' ∧
    mde_walk 4 (mem s') table 0 = Some segs ∧ covered segs = seqZ base (c_length c) ∧
    rd 4 (mem s') (dma_reg DMA_MDT_REG ch) = virt_to_bus table ∧ dma_readb DMA_IDX_REG ch (mem s') = 0 ∧
    Z.testbit (dma_readb DMA_CMD_REG ch (mem s')) 7 = true ∧
    Z.testbit (dma_readb DMA_CMD_REG ch (mem s')) 6 = (c_mode c =? DMA_MODE_READ).
Proof.
  intros Hch Hc Hops Hlock Hsg table base Ht Hap Hlen Hb. unfold MAX_DMA_CHANNELS in *.
  unfold enable_dma. rewrite (get_chan_lookup ch c s), (set_chan_lookup ch c) by (lia || done). cbn [mbind exec_bind].
  destruct (Z.eqb_spec (c_lock c) 0); [done|]. rewrite Hops. unfold pl_enable_dma, MAX_DMA_CHANNELS.
  rewrite (proj2 (Z.leb_gt _ _)) by lia. pose proof (lookup_lt_Some _ _ _ Hc).
  rewrite get_put by lia. cbn [mbind exec_bind c_using_sg with_active a_mde c_address c_length c_mode]. rewrite Hsg. fold table base.
  rewrite writel_done by (unfold mde_saddr; zdm). cbn [mbind exec_bind mem put_chan]. rewrite s32_id by (unfold MAX_DMA_MDT_COUNT in *; lia).
  rewrite (proj2 (Z.ltb_ge _ _)) by (unfold MAX_DMA_MDT; lia).
  set (m0 := wr 4 base (mde_saddr table 0) (mem s)).
  assert (Hm0 : rd 4 m0 (mde_saddr table 0) = base).
  { unfold m0. rewrite rd_wr_same. apply Z.mod_small. unfold base, virt_to_bus, u32. apply Z.mod_pos_bound. lia. }
  destruct (mde_table_entries table (c_length c) m0 Ht Hlen) as (m1 & E1 & W1 & O1); [by rewrite Hm0|].
  rewrite E1, Hm0 in *. cbn [mbind exec_bind]. unfold dma_writel.
  assert (Hreg : dma_reg DMA_MDT_REG ch mod 4 = 0) by (unfold dma_reg, PL_DMA_BASE, DMA_MDT_REG; zdm).
  rewrite writel_done by done. cbn [mbind exec_bind].
  set (m2 := wr 4 (virt_to_bus table) (dma_reg DMA_MDT_REG ch) (dma_writeb 0 DMA_IDX_REG ch m1)).
  destruct (entries_covered table base (c_length c) (chn_enable ch (c_mode c) m2) Hlen) as (segs & W & Hs).
  { eapply entries_frame; [|exact W1]. intros a Ha.
    assert (Hl : strlen (cuts 4 (c_length c)) <= 4) by (destruct (cuts_ok 4 (c_length c)) as (_ & _ & _ & C4); [lia..|unfold strlen; lia]).
    unfold apart, PL_DMA_BASE in Hap. rewrite chn_enable_other by (unfold dma_reg, PL_DMA_BASE, DMA_CMD_REG; lia).
    unfold m2, dma_writeb, writeb, dma_reg, PL_DMA_BASE, DMA_MDT_REG, DMA_IDX_REG.
    rewrite byte_at_wr, decide_False, byte_at_insert, decide_False by lia. done. }
  do 2 eexists. split; [reflexivity|]. cbn [mem with_mem]. split; [exact W|]. split; [exact Hs|].
  split; [|split; [|apply chn_enable_cmd]].
  - rewrite (rd_ext 4 _ m2); [unfold m2; rewrite rd_wr_same; apply Z.mod_small, Z.mod_pos_bound; lia|].
    intros a Ha. apply chn_enable_other. unfold dma_reg, DMA_MDT_REG, DMA_CMD_REG in *. lia.
  - unfold dma_readb, readb. rewrite chn_enable_other by (unfold dma_reg, DMA_CMD_REG, DMA_IDX_REG; lia).
    unfold m2, dma_writeb, writeb. rewrite byte_at_wr, decide_False by (unfold dma_reg, DMA_MDT_REG, DMA_IDX_REG; lia).
    by rewrite byte_at_insert, decide_True.
Qed.

(** A buffer that is too long is only complained about: the channel counts as active
    and was not switched on. *)
Lemma refused_is_active mde_default ch c s :
  0 <= ch < 16 → chans s !! Z.to_nat ch = Some c → c_ops c = true → c_lock c ≠ 0 → c_using_sg c = false →
  (if a_mde c =? 0 then mde_default ch else a_mde c) mod 4 = 0 → MAX_DMA_MDT * MAX_DMA_MDT_COUNT < s32 (c_length c) →
  ∃ s' c', enable_dma mde_default ch s = Done s' ∧ chans s' !! Z.to_nat ch = Some c' ∧ c_active c' = true ∧
    (apart (if a_mde c =? 0 then mde_default ch else a_mde c) → dma_readb DMA_CMD_REG ch (mem s') = dma_readb DMA_CMD_REG ch (mem s)).
Proof.
  intros Hch Hc Hops Hlock Hsg Ht Hlen. pose proof (lookup_lt_Some _ _ _ Hc).
  unfold enable_dma. rewrite (get_chan_lookup ch c s), (set_chan_lookup ch c) by (lia || done). cbn [mbind exec_bind].
  destruct (Z.eqb_spec (c_lock c) 0); [done|]. rewrite Hops. unfold pl_enable_dma, MAX_DMA_CHANNELS.
  rewrite (proj2 (Z.leb_gt _ _)) by lia. rewrite get_put by lia.
  cbn [mbind exec_bind c_using_sg with_active a_mde c_address c_length c_mode]. rewrite Hsg.
  rewrite writel_done by (unfold mde_saddr; zdm). cbn [mbind exec_bind mem put_chan]. rewrite (proj2 (Z.ltb_lt _ _)) by done.
  do 2 eexists. split; [done|]. cbn [mem with_mem chans put_chan]. rewrite list_lookup_insert_eq by (rewrite length_insert; lia). split; [done|]. split; [done|].
  intros Hap. unfold dma_readb, readb. rewrite byte_at_wr, decide_False; [done|].
  unfold apart, dma_reg, DMA_CMD_REG, PL_DMA_BASE, mde_saddr in *. lia.
Qed.

(** C24 (functional): for a buffer of up to four descriptors' worth of bytes,
    [enable_dma] leaves the channel on in the direction that was set, at the first
    descriptor of a table which, walked as the controller walks it, covers the bytes
    of the buffer, each once and in order.  A longer buffer, below 2^31 bytes, is not
    started: the command register of the channel is as it was, though the channel
    counts as active. *)
Theorem table_is_buffer (mde_default : Z → Z) (ch : Z) (c : chan) (s : dma_st) :
  0 <= ch < MAX_DMA_CHANNELS → chans s !! Z.to_nat ch = Some c →
  c_ops c = true → c_lock c ≠ 0 → c_using_sg c = false →
  let table := if a_mde c =? 0 then mde_default ch else a_mde c in
  let base := virt_to_bus (c_address c) in
  table mod 4 = 0 → apart table → 0 <= c_length c < 2 ^ 31 → base + c_length c < 2 ^ 32 →
  if c_length c <=? 4 * MAX_DMA_MDT_COUNT
  then ∃ s' segs,
    enable_dma mde_default ch s = Done s' ∧
    mde_walk 4 (mem s') table 0 = Some segs ∧ covered segs = seqZ base (c_length c) ∧
    rd 4 (mem s') (dma_reg DMA_MDT_REG ch) = virt_to_bus table ∧ dma_readb DMA_IDX_REG ch (mem s') = 0 ∧
    Z.testbit (dma_readb DMA_CMD_REG ch (mem s')) 7 = true ∧
    Z.testbit (dma_readb DMA_CMD_REG ch (mem s')) 6 = (c_mode c =? DMA_MODE_READ)
  else ∃ s' c',
    enable_dma mde_default ch s = Done s' ∧ dma_readb DMA_CMD_REG ch (mem s') = dma_readb DMA_CMD_REG ch (mem s) ∧
    chans s' !! Z.to_nat ch = Some c' ∧ c_active c' = true.
Proof.
  intros Hch Hc Hops Hlock Hsg table base Ht Hap Hlen Hb. destruct (Z.leb_spec (c_length c) (4 * MAX_DMA_MDT_COUNT)).
  - apply table_built; (done || lia).
  - unfold MAX_DMA_CHANNELS in Hch. destruct (refused_is_active mde_default ch c s) as (s' & c' & E & Ec & Ea & Em); try done.
    { unfold MAX_DMA_MDT. rewrite s32_id by lia. lia. }
    exists s', c'. split_and!; [done|by apply Em|done|done].
Qed.

Definition busy_chan : chan := mk_chan true 1 (bs "NOR") false true false false DMA_MODE_WRITE 0 0 1 0xc0100000 3000000 1 0.

Lemma table_is_buffer_witness :
  ∃ s' segs,
    enable_dma (λ ch, 0xc0200000 + 32 * ch) 3 (put_chan 3 busy_chan (init_dma ∅)) = Done s' ∧
    mde_walk 4 (mem s') 0xc0200060 0 = Some segs ∧ covered segs = seqZ 0x100000 3000000.
Proof.
  destruct (table_is_buffer (λ ch, 0xc0200000 + 32 * ch) 3 busy_chan (put_chan 3 busy_chan (init_dma ∅))
    ltac:(unfold MAX_DMA_CHANNELS; lia) eq_refl eq_refl ltac:(discriminate) eq_refl eq_refl ltac:(left; discriminate)
    ltac:(cbn; lia) eq_refl) as (s' & segs & E & W & H & _).
  exists s', segs. split; [exact E|]. split; [exact W|exact H].
Defined.

(** ** Locks *)

Inductive dma_op : Type :=
| Request (ch : Z) (id : list Z) | Free (ch : Z) | SetSg (ch sg n : Z) | SetAddr (ch a : Z) | SetCount (ch n : Z) | SetMode (ch mode : Z)
| Enable (ch : Z) | Disable (ch : Z) | SetSpeed (ch ns : Z) | MdeBase (ch a : Z) | MdeIdx (ch i : Z) | Burst (ch b : Z).

Definition dma_run (mde_default : Z → Z) (op : dma_op) (s : dma_st) : exec dma_st :=
  match op with
  | Request ch id => '(_, s) ← request_dma ch id s; Done s
  | Free ch => free_dma ch s
  | SetSg ch sg n => set_dma_sg ch sg n s
  | SetAddr ch a => set_dma_addr ch a s
  | SetCount ch n => set_dma_count ch n s
  | SetMode ch mode => set_dma_mode ch mode s
  | Enable ch => enable_dma mde_default ch s
  | Disable ch => disable_dma ch s
  | SetSpeed ch ns => set_dma_speed ch ns s
  | MdeBase ch a => set_dma_mde_base ch a s
  | MdeIdx ch i => Done (set_dma_mde_idx ch i s)
  | Burst ch b => Done (set_dma_burst_length ch b s)
  end.

Fixpoint dma_runs (mde_default : Z → Z) (ops : list dma_op) (s : dma_st) : exec dma_st :=
  match ops with
  | [] => Done s
  | op :: ops' => s ← dma_run mde_default op s; dma_runs mde_default ops' s
  end.

(** Both locks are free and the channel rests, or both are taken. *)
Definition chan_ok (c : chan) : Prop :=
  c_ops c = true ∧ ((c_lock c = 0 ∧ a_lock c = 0 ∧ c_active c = false) ∨ (c_lock c = 1 ∧ a_lock c = 1)).

Definition dma_ok (s : dma_st) : Prop := length (chans s) = 16%nat ∧ Forall chan_ok (chans s).

Lemma get_chan_inv ch s c : get_chan ch s = Done c → 0 <= ch ∧ chans s !! Z.to_nat ch = Some c.
Proof.
  unfold get_chan. destruct (Z.leb_spec 0 ch); [|done]. destruct (chans s !! Z.to_nat ch) eqn:E; [|done]. by intros [= ->].
Qed.

Lemma get_chan_ok ch s c : dma_ok s → get_chan ch s = Done c → chan_ok c.
Proof. intros [_ Hs] H. apply get_chan_inv in H as [_ H]. exact (proj1 (Forall_lookup _ _) Hs _ _ H). Qed.

(** A computation that ends in such a state if it ends. *)
Definition keeps (r : exec dma_st) : Prop := match r with Done s => dma_ok s | Fault => True end.

Lemma keeps_bind {A} (r : exec A) (f : A → exec dma_st) : (∀ a, r = Done a → keeps (f a)) → keeps (r ≫= f).
Proof. intros H. destruct r as [a|]; [by apply H|done]. Qed.

Lemma keeps_then (r : exec dma_st) (f : dma_st → exec dma_st) : keeps r → (∀ s, dma_ok s → keeps (f s)) → keeps (r ≫= f).
Proof. intros Hr H. destruct r as [s|]; [by apply H|done]. Qed.

Lemma keeps_with_mem m s : dma_ok s → keeps (Done (with_mem m s)).
Proof. done. Qed.

Lemma put_chan_ok ch c s : dma_ok s → chan_ok c → dma_ok (put_chan ch c s).
Proof. intros [H1 H2] Hc. split; cbn; [by rewrite length_insert|by apply Forall_insert]. Qed.

Lemma keeps_set_chan ch f s : dma_ok s → (∀ c, chan_ok c → chan_ok (f c)) → keeps (set_chan ch f s).
Proof.
  intros Hs Hf. unfold set_chan. apply keeps_bind. intros c Hc. apply put_chan_ok; [done|]. eapply Hf, get_chan_ok; done.
Qed.

Lemma keeps_if (b : bool) r1 r2 : keeps r1 → keeps r2 → keeps (if b then r1 else r2).
Proof. by destruct b. Qed.

Lemma keeps_done s : dma_ok s → keeps (Done s).
Proof. done. Qed.

Lemma pl_disable_ok ch s : dma_ok s → dma_ok (pl_disable_dma ch s).
Proof. intros H. unfold pl_disable_dma. by destruct (_ <=? _). Qed.

Create HintDb dma.
#[export] Hint Resolve keeps_if keeps_done keeps_with_mem keeps_set_chan pl_disable_ok put_chan_ok : dma.
#[export] Hint Extern 1 (keeps Fault) => exact I : dma.
#[export] Hint Extern 1 (∀ c, chan_ok c → chan_ok _) => (intros ? [? [(? & ? & ?)|[? ?]]]; (split; [done|]); [left; by split_and!|by right]) : dma.

Lemma keeps_pl_enable mde_default ch s : dma_ok s → keeps (pl_enable_dma mde_default ch s).
Proof.
  intros Hs. unfold pl_enable_dma. apply keeps_if; [done|]. apply keeps_bind. intros c Hc. pose proof (get_chan_ok _ _ _ Hs Hc) as Hc'.
  apply keeps_if; [auto with dma|]. cbv zeta. assert (Hp : ∀ t, dma_ok (put_chan ch (with_a_mde t c) s)) by (intros t; by apply put_chan_ok).
  apply keeps_bind. intros m _. apply keeps_if; [by apply keeps_with_mem|]. apply keeps_bind. intros m' _.
  apply keeps_bind. intros m'' _. by apply keeps_with_mem.
Qed.

(** Asking for a channel: it is granted when both locks are free, and refused, with
    nothing changed, when both are taken. *)
Lemma request_spec ch id s c :
  0 <= ch → chans s !! Z.to_nat ch = Some c → (Z.to_nat ch < 16)%nat → chan_ok c →
  request_dma ch id s =
    (if c_lock c =? 0
     then Done (0, put_chan ch (with_a_mde 0 (with_a_lock 1 (with_invalid true (with_active false (with_id id (with_lock 1 c)))))) s)
     else Done (- EBUSY, s)).
Proof.
  intros Hch Hc Hlt [Hops Hl]. pose proof (lookup_lt_Some _ _ _ Hc).
  unfold request_dma, MAX_DMA_CHANNELS. rewrite (proj2 (Z.leb_gt _ _)) by lia.
  rewrite (get_chan_lookup _ _ _ Hch Hc). cbn [mbind exec_bind]. rewrite Hops. cbn [negb].
  destruct Hl as [(L & A & _)|[L A]]; rewrite L; cbn [Z.eqb negb].
  - unfold set_chan, pl_request_dma, MAX_DMA_CHANNELS. rewrite get_put by lia. cbn [mbind exec_bind].
    rewrite (proj2 (Z.leb_gt _ _)) by lia. rewrite get_put by (try lia; cbn; rewrite length_insert; lia). cbn [mbind exec_bind a_lock with_invalid with_active with_id with_lock].
    rewrite A. cbn [Z.eqb negb]. unfold set_chan. rewrite get_put by (try lia; cbn; rewrite !length_insert; lia). cbn [mbind exec_bind Z.eqb negb].
    do 2 f_equal. unfold put_chan. cbn. by rewrite !list_insert_insert_eq.
  - do 2 f_equal. unfold put_chan. destruct s as [m cs]. cbn in *. f_equal. apply list_insert_id. rewrite Hc. f_equal.
    destruct c; cbn in *. by subst.
Qed.

(** Giving a channel back: it is free, and inactive. *)
Lemma free_spec ch s c :
  0 <= ch → chans s !! Z.to_nat ch = Some c → (Z.to_nat ch < 16)%nat → chan_ok c →
  ∃ m, free_dma ch s = Done (with_mem m (put_chan ch (with_a_lock 0 (with_lock 0 (with_active false c))) s)).
Proof.
  intros Hch Hc Hlt [Hops Hl]. pose proof (lookup_lt_Some _ _ _ Hc).
  unfold free_dma, MAX_DMA_CHANNELS. rewrite (proj2 (Z.leb_gt _ _)) by lia.
  rewrite (get_chan_lookup _ _ _ Hch Hc). cbn [mbind exec_bind]. rewrite Hops. cbn [negb].
  assert (Hd : chans (pl_disable_dma ch s) = chans s) by (unfold pl_disable_dma; by destruct (_ <=? _)).
  assert (∃ m, (if c_active c then set_chan ch (with_active false) (pl_disable_dma ch s) else Done s)
    = Done (with_mem m (put_chan ch (with_active false c) s))) as [m ->].
  { destruct (c_active c) eqn:Ea.
    - exists (mem (pl_disable_dma ch s)). rewrite (set_chan_lookup ch c) by (rewrite ?Hd; done). unfold put_chan, with_mem. cbn. by rewrite Hd.
    - exists (mem s). unfold put_chan, with_mem. destruct s as [m cs]. cbn in *. do 2 f_equal. symmetry. apply list_insert_id.
      rewrite Hc. f_equal. destruct c; cbn in *. by subst. }
  exists m. cbn [mbind exec_bind]. rewrite (set_chan_lookup ch (with_active false c)) by (try done; cbn; by rewrite list_lookup_insert_eq by lia).
  cbn [mbind exec_bind]. unfold put_chan, with_mem. cbn [mem chans]. rewrite list_insert_insert_eq.
  destruct Hl as [(L & A & _)|[L A]]; rewrite L; cbn [Z.eqb negb].
  - do 3 f_equal. destruct c; cbn in *. by subst.
  - unfold pl_free_dma, MAX_DMA_CHANNELS. rewrite (proj2 (Z.leb_gt _ _)) by lia.
    rewrite (set_chan_lookup ch (with_lock 0 (with_active false c))) by (try done; cbn; by rewrite list_lookup_insert_eq by lia).
    unfold put_chan. cbn. by rewrite list_insert_insert_eq.
Qed.

(** The channels that there are; a number outside is refused or a fault. *)
Lemma chan_cases ch s : dma_ok s → (∃ c, 0 <= ch ∧ ch < 16 ∧ chans s !! Z.to_nat ch = Some c ∧ chan_ok c) ∨ ch < 0 ∨ 16 <= ch.
Proof.
  intros Hs. destruct (decide (0 <= ch)); [|lia]. destruct (decide (ch < 16)); [|lia]. left.
  destruct (lookup_lt_is_Some_2 (chans s) (Z.to_nat ch)) as [c Hc]; [destruct Hs; lia|]. exists c. split_and!; [done..|].
  by apply (get_chan_ok ch s c Hs), get_chan_lookup.
Qed.

Lemma keeps_request ch id s : dma_ok s → keeps ('(_, s) ← request_dma ch id s; Done s).
Proof.
  intros Hs. destruct (chan_cases ch s Hs) as [(c & H1 & H2 & Hc & Hok)|[H|H]].
  - rewrite (request_spec ch id s c) by (done || lia). destruct (c_lock c =? 0); [|done].
    apply put_chan_ok; [done|]. destruct Hok as [Ho _]. split; [done|]. by right.
  - unfold request_dma, MAX_DMA_CHANNELS, get_chan. by rewrite (proj2 (Z.leb_gt 16 _)), (proj2 (Z.leb_gt 0 _)) by lia.
  - unfold request_dma, MAX_DMA_CHANNELS. by rewrite (proj2 (Z.leb_le _ _)) by lia.
Qed.

Lemma keeps_free ch s : dma_ok s → keeps (free_dma ch s).
Proof.
  intros Hs. destruct (chan_cases ch s Hs) as [(c & H1 & H2 & Hc & Hok)|[H|H]].
  - destruct (free_spec ch s c) as [m ->]; [done|done|lia|done|]. apply keeps_with_mem, put_chan_ok; [done|].
    destruct Hok as [Ho _]. split; [done|]. by left.
  - unfold free_dma, MAX_DMA_CHANNELS, get_chan. by rewrite (proj2 (Z.leb_gt 16 _)), (proj2 (Z.leb_gt 0 _)) by lia.
  - unfold free_dma, MAX_DMA_CHANNELS. by rewrite (proj2 (Z.leb_le _ _)) by lia.
Qed.

Lemma keeps_run mde_default op s : dma_ok s → keeps (dma_run mde_default op s).
Proof.
  intros Hs. destruct op as [ch id|ch|ch sg n|ch a|ch n|ch mode|ch|ch|ch ns|ch a|ch i|ch b]; cbn [dma_run].
  - by apply keeps_request.
  - by apply keeps_free.
  - unfold set_dma_sg. auto with dma.
  - unfold set_dma_addr. auto with dma.
  - unfold set_dma_count. auto with dma.
  - unfold set_dma_mode. auto with dma.
  - unfold enable_dma. apply keeps_bind. intros c Hc. destruct (Z.eqb_spec (c_lock c) 0) as [|Hl]; [done|].
    destruct (get_chan_inv _ _ _ Hc) as [Hch Hlk]. rewrite (set_chan_lookup ch c) by done. cbn [mbind exec_bind].
    apply keeps_if; [|done]. apply keeps_pl_enable, put_chan_ok; [done|].
    destruct (get_chan_ok _ _ _ Hs Hc) as [Ho [(? & _)|?]]; [done|]. split; [done|by right].
  - unfold disable_dma. apply keeps_bind. intros c _. repeat apply keeps_if; [done| |done].
    apply keeps_then; [auto with dma|]. intros s' Hs'. apply keeps_if; [by apply pl_disable_ok|done].
  - unfold set_dma_speed. apply keeps_bind. intros c _. auto with dma.
  - unfold set_dma_mde_base. repeat apply keeps_if; [done..|]. apply keeps_then; [auto with dma|]. intros s' Hs'.
    apply keeps_bind. intros m _. by apply keeps_with_mem.
  - unfold set_dma_mde_idx. repeat apply keeps_if; done || (destruct (_ <=? _); [done|]; by destruct (_ <? _)).
  - unfold set_dma_burst_length. by destruct (_ <=? _).
Qed.

Lemma keeps_runs mde_default ops s : dma_ok s → keeps (dma_runs mde_default ops s).
Proof.
  revert s. induction ops as [|op ops IH]; intros s Hs; [done|]. cbn [dma_runs]. apply keeps_then; [by apply keeps_run|done].
Qed.

Lemma init_ok m : dma_ok (init_dma m).
Proof. split; [done|]. cbn. repeat constructor. Qed.

(** C35 (invariant): after any sequence of calls that did not stop the kernel, the lock
    of the generic code and the one of the board agree for every channel, and only a
    channel that is locked is active; a channel is granted exactly when it is free;
    then it is taken, until it is given back; and a request that is refused changes
    nothing. *)
Theorem locks_agree (mde_default : Z → Z) (ops : list dma_op) (m : bus) (s : dma_st) (ch : Z) (id : list Z) :
  dma_runs mde_default ops (init_dma m) = Done s → 0 <= ch < MAX_DMA_CHANNELS →
  ∃ c, chans s !! Z.to_nat ch = Some c ∧
  (c_lock c = a_lock c ∧ (c_lock c = 0 ∨ c_lock c = 1) ∧ (c_active c = true → c_lock c = 1)) ∧
  if c_lock c =? 0
  then ∃ s1, request_dma ch id s = Done (0, s1) ∧
       (∀ id', request_dma ch id' s1 = Done (- EBUSY, s1)) ∧
       (∃ s2, free_dma ch s1 = Done s2 ∧ ∀ id', ∃ s3, request_dma ch id' s2 = Done (0, s3))
  else request_dma ch id s = Done (- EBUSY, s).
Proof.
  intros H Hch. unfold MAX_DMA_CHANNELS in Hch. pose proof (keeps_runs mde_default ops _ (init_ok m)) as Hs. rewrite H in Hs.
  destruct (chan_cases ch s Hs) as [(c & H1 & H2 & Hc & Hok)|[|]]; [|lia..]. exists c. split; [done|].
  split; [destruct Hok as [_ [(-> & -> & ->)|[-> ->]]]; split_and!; (done || lia)|].
  rewrite (request_spec ch id s c) by (done || lia). destruct (c_lock c =? 0); [|done].
  eexists. split; [done|]. set (c1 := with_a_mde 0 _). set (s1 := put_chan ch c1 s).
  assert (Hl : (Z.to_nat ch < length (chans s))%nat) by by eapply lookup_lt_Some.
  assert (Hc1 : chans s1 !! Z.to_nat ch = Some c1) by (cbn; by rewrite list_lookup_insert_eq).
  assert (Hok1 : chan_ok c1) by (destruct Hok as [Ho _]; split; [done|by right]).
  split.
  - intros id'. by rewrite (request_spec ch id' s1 c1) by (done || lia).
  - destruct (free_spec ch s1 c1) as [m' ->]; [done|done|lia|done|]. eexists. split; [done|]. intros id'.
    erewrite request_spec; [..|cbn; rewrite list_lookup_insert_eq; [done|cbn; rewrite length_insert; lia]| |]; [by eexists|lia|lia|].
    destruct Hok1 as [Ho1 _]. split; [done|by left].
Qed.

Definition some_calls : list dma_op :=
  [Request 14 (bs "NOR"); MdeBase 14 0xc0300000; SetMode 14 DMA_MODE_READ; Free 14; Request 3 []].

Definition after_calls : dma_st :=
  Eval vm_compute in match dma_runs (λ ch, 0xc0200000 + 32 * ch) some_calls (init_dma ∅) with Done s => s | Fault => init_dma ∅ end.

Lemma locks_agree_witness :
  dma_runs (λ ch, 0xc0200000 + 32 * ch) some_calls (init_dma ∅) = Done after_calls ∧
  (∃ s1, request_dma 14 [] after_calls = Done (0, s1)) ∧ request_dma 3 [] after_calls = Done (- EBUSY, after_calls).
Proof.
  assert (E : dma_runs (λ ch, 0xc0200000 + 32 * ch) some_calls (init_dma ∅) = Done after_calls) by (vm_compute; reflexivity).
  split; [exact E|]. split.
  - destruct (locks_agree _ _ _ _ 14 [] E ltac:(unfold MAX_DMA_CHANNELS; lia)) as (c & Hc & _ & H).
    vm_compute in Hc. injection Hc as <-. destruct H as (s1 & H & _). exists s1. exact H.
  - destruct (locks_agree _ _ _ _ 3 [] E ltac:(unfold MAX_DMA_CHANNELS; lia)) as (c & Hc & _ & H).
    vm_compute in Hc. injection Hc as <-. exact H.
Defined.
