(* ===== verification/Nor.v ===== *)
(** * The flash driver

    [src/kernel/linux-2.4.19/drivers/mtd/pl_nor.c], the driver of the flash memory
    that holds the camera's programs, its settings and its address on the network.

    The state ([nor]) has the channels and the memory of [Dma], the bytes of the
    flash, and the variables of the driver.  The registers of the flash controller
    lie in the same memory.  What the controller and the chip do is a parameter
    ([NorChip]): [chip_run] lets them work on what was programmed and gives the
    memory and the flash afterwards with the values that the interrupts' handler, or
    a poll, reads from the status register one after the other; [chip_data] is the
    word in the data register.  [NorTheorems] states what the driver relies on.

    The process that waits for an interrupt continues at the first status that is not
    zero, and is stuck (a [Fault]) when there is none.  The cache is coherent, so
    [pci_map_single] and [pl_unmap_dma] have no effect.  The driver is compiled with
    no debugging, for the flash of 8 MB of [memconfig.h]. *)

From S2P Require Import Prelude Bus Dma.

Local Open Scope Z_scope.

Definition EIO : Z := 5.
Definition EFAULT : Z := 14.
Definition ERESTARTSYS : Z := 512.

(** ** Registers *)

Definition rNOR_BASE : Z := 0xd9780000.
Definition PIO_DATA_REG : Z := 0x00.
Definition COM_REG : Z := 0x08.
Definition INTR_S_REG : Z := 0x0c.
Definition NOR_ADDR_REG : Z := 0x10.
Definition INTR_M_REG : Z := 0x18.
Definition DMA_S_REG : Z := 0x20.
Definition PPI_PRO_CNT_REG : Z := 0x2c.
Definition ADDR_CFG1 : Z := 0x34.
Definition ADDR_CFG2 : Z := 0x38.
Definition ADDR_CFG3 : Z := 0x3c.
Definition ADDR_CFG4 : Z := 0x40.
Definition ADDR_CFG5 : Z := 0x44.
Definition DATA_CFG1 : Z := 0x48.
Definition DATA_CFG2 : Z := 0x4c.
Definition DATA_CFG3 : Z := 0x50.
Definition DATA_CFG4 : Z := 0x54.
Definition DATA_CFG5 : Z := 0x58.

Definition NOR_TIMEOUT_INTR_MASK : Z := 2 ^ 3.
Definition NOR_CMD_INTR_MASK : Z := 2 ^ 2.
Definition NOR_DMA_INTR_MASK : Z := 2 ^ 0.
Definition NOR_INTR_MASKALL : Z := Z.lor (Z.lor NOR_TIMEOUT_INTR_MASK NOR_CMD_INTR_MASK) NOR_DMA_INTR_MASK.

Definition MAX_NOR_SECTOR : Z := 1024.
Definition MAX_SECTOR_SET : nat := 16.
Definition MAX_DMA_CNT : Z := 0x3fff00.
Definition MDE_MAX_ENTRY : Z := 128.
Definition MDE_NXT_SHIFT : Z := 21.
Definition MDE_VALID_SHIFT : Z := 30.
Definition MDE_EMDE_SHIFT : Z := 31.
Definition DMA_PL_NOR : Z := 14.

Definition ppi_write_wait_count : Z := 0x500.
Definition ppi_erase_wait_count : Z := 0x1050000.

Inductive phase : Type := DMA_START | DMA_END.

(** ** State *)

Record nor_sector_t : Type := mk_sector { start_addr : Z; sec_size : Z }.

(** [ops] tells whether [nor_ops] was set; [signals] whether the next calls of
    [down_interruptible] are interrupted. *)
Record nor : Type := mk_nor {
  dma : dma_st; flash : list Z; intr_status : Z; ctl_sem : bool; signals : list bool; nor_ops : bool;
  nor_sector_map : list nor_sector_t; total_size : Z; num_erase_regions : Z }.

Definition with_dma (d : dma_st) (s : nor) : nor :=
  mk_nor d (flash s) (intr_status s) (ctl_sem s) (signals s) (nor_ops s) (nor_sector_map s) (total_size s) (num_erase_regions s).
Definition with_flash (fl : list Z) (s : nor) : nor :=
  mk_nor (dma s) fl (intr_status s) (ctl_sem s) (signals s) (nor_ops s) (nor_sector_map s) (total_size s) (num_erase_regions s).
Definition with_intr (v : Z) (s : nor) : nor :=
  mk_nor (dma s) (flash s) v (ctl_sem s) (signals s) (nor_ops s) (nor_sector_map s) (total_size s) (num_erase_regions s).
Definition with_sem (b : bool) (s : nor) : nor :=
  mk_nor (dma s) (flash s) (intr_status s) b (signals s) (nor_ops s) (nor_sector_map s) (total_size s) (num_erase_regions s).
Definition with_signals (l : list bool) (s : nor) : nor :=
  mk_nor (dma s) (flash s) (intr_status s) (ctl_sem s) l (nor_ops s) (nor_sector_map s) (total_size s) (num_erase_regions s).
Definition with_map (ops : bool) (map : list nor_sector_t) (size regions : Z) (s : nor) : nor :=
  mk_nor (dma s) (flash s) (intr_status s) (ctl_sem s) (signals s) ops map size regions.

Definition ram (s : nor) : bus := mem (dma s).
Definition with_ram (m : bus) (s : nor) : nor := with_dma (with_mem m (dma s)) s.

(** Accesses to the registers of the controller, which are aligned. *)
Definition nor_writel (v reg : Z) (s : nor) : nor := with_ram (wr 4 v (rNOR_BASE + reg) (ram s)) s.
Definition nor_writeb (v reg : Z) (s : nor) : nor := with_ram (writeb v (rNOR_BASE + reg) (ram s)) s.

Definition NOR_INTR_SET_MASK (m : Z) (s : nor) : nor := nor_writeb m INTR_M_REG s.

Definition nor_writes (l : list (Z * Z)) (s : nor) : nor := foldl (λ s '(v, reg), nor_writel v reg s) s l.

Class NorChip : Type := {
  chip_run : bus → list Z → bus * list Z * list Z;
  chip_data : bus → list Z → Z }.

(** Taking and giving back the semaphore. *)
Definition down_interruptible (s : nor) : exec (bool * nor) :=
  match signals s with
  | true :: l => Done (true, with_signals l s)
  | l => if ctl_sem s then Fault else Done (false, with_sem true (with_signals (tail l) s))
  end.

Definition up (s : nor) : nor := with_sem false s.

Section driver.
Context `{NorChip}.

(** Where the linker put [mdt], and [mde_default] of [Dma]. *)
Variables (mdt : Z) (mde_default : Z → Z).

(** ** The descriptors *)

Record iovec : Type := mk_iovec { iov_base : Z; iov_len : Z }.

Fixpoint setup_loop (i : Z) (vecs : list iovec) (total_len : Z) (m : bus) : exec (Z * bus) :=
  match vecs with
  | [] => Done (total_len, m)
  | v :: vecs' =>
      if MDE_MAX_ENTRY <=? i then Fault else
      m ← writel (virt_to_bus (iov_base v)) (mde_saddr mdt i) m;
      m ← writel (Z.lor (Z.lor (iov_len v) (Z.shiftl (i + 1) MDE_NXT_SHIFT)) (Z.shiftl 1 MDE_VALID_SHIFT)) (mde_flag mdt i) m;
      setup_loop (i + 1) vecs' (s32 (total_len + iov_len v)) m
  end.

Definition pl_setup_dma (mode : Z) (vecs : list iovec) (s : nor) : exec (Z * nor) :=
  d ← set_dma_mode DMA_PL_NOR mode (dma s);
  let d := set_dma_mde_idx DMA_PL_NOR 0 d in
  '(total_len, m) ← setup_loop 0 vecs 0 (mem d);
  let last := mde_flag mdt (Z.of_nat (length vecs) - 1) in
  f ← readl m last;
  m ← writel (Z.lor f (Z.shiftl 1 MDE_EMDE_SHIFT)) last m;
  Done (total_len, with_dma (with_mem m d) s).

(** ** The commands of the flash *)

Definition ppi_amd_reset (s : nor) : nor := nor_writel 0xf0 PIO_DATA_REG s.

Definition ppi_amd_read_id (s : nor) : Z * nor :=
  let s := nor_writes [(0xAAA, NOR_ADDR_REG); (0xAA, PIO_DATA_REG); (0x555, NOR_ADDR_REG); (0x55, PIO_DATA_REG);
                       (0xAAA, NOR_ADDR_REG); (0x90, PIO_DATA_REG); (0x02, NOR_ADDR_REG)] s in
  let id := u8 (chip_data (ram s) (flash s)) in
  (id, ppi_amd_reset s).

Definition ppi_amd_cmd_erase (addr : Z) (mode : phase) (s : nor) : Z * nor :=
  match mode with
  | DMA_START =>
      let s := nor_writes [(ppi_erase_wait_count, PPI_PRO_CNT_REG); (0x36, COM_REG);
                           (0xAAA, ADDR_CFG1); (0xAA, DATA_CFG1); (0x555, ADDR_CFG2); (0x55, DATA_CFG2);
                           (0xAAA, ADDR_CFG3); (0x80, DATA_CFG3); (0xAAA, ADDR_CFG4); (0xAA, DATA_CFG4);
                           (0x555, ADDR_CFG5); (0x55, DATA_CFG5); (addr, NOR_ADDR_REG)] s in
      (0, nor_writeb 0x30 PIO_DATA_REG s)
  | DMA_END =>
      let stat := Z.land (u8 (chip_data (ram s) (flash s))) 0x80 in
      (if stat =? 0 then -1 else 0, nor_writel 0x00 COM_REG s)
  end.

Definition ppi_amd_cmd_write (addr size : Z) (mode : phase) (s : nor) : Z * nor :=
  match mode with
  | DMA_START =>
      (0, nor_writes [(ppi_write_wait_count, PPI_PRO_CNT_REG); (0x34, COM_REG);
                      (0xAAA, ADDR_CFG1); (0xAA, DATA_CFG1); (0x555, ADDR_CFG2); (0x55, DATA_CFG2);
                      (0xAAA, ADDR_CFG3); (0xA0, DATA_CFG3); (addr, NOR_ADDR_REG); (Z.lor 0x80000000 size, DMA_S_REG)] s)
  | DMA_END => (0, nor_writel 0x00 COM_REG s)
  end.

Definition ppi_amd_cmd_read (addr size : Z) (mode : phase) (s : nor) : Z * nor :=
  match mode with
  | DMA_START => (0, nor_writes [(addr, NOR_ADDR_REG); (Z.lor 0x40000000 size, DMA_S_REG)] s)
  | DMA_END => (0, s)
  end.

(** [for] at most a second: the readings of the status until one tells the outcome. *)
Fixpoint poll_loop (readings : list Z) (intr_bit expected : Z) (s : nor) : Z * nor :=
  match readings with
  | [] => (0, s)
  | st :: readings' =>
      let s := with_intr (u8 st) s in
      if Z.land (intr_status s) 0x08 =? 0 then (0, s)
      else if Z.land (intr_status s) intr_bit =? expected then (1, s)
      else poll_loop readings' intr_bit expected s
  end.

Definition pl_nor_polling_intr (intr_bit expected : Z) (s : nor) : Z * nor :=
  let '(m, fl, readings) := chip_run (ram s) (flash s) in
  poll_loop readings intr_bit expected (with_flash fl (with_ram m s)).

(** [memcpy] of the first [n] bytes of a word. *)
Definition put_bytes (n : nat) (v a : Z) (s : nor) : nor := with_ram (wr n v a (ram s)) s.

Fixpoint pio_read_loop (fuel : nat) (addr p remains : Z) (s : nor) : exec nor :=
  if remains <=? 0 then Done s else
  match fuel with
  | O => Fault
  | S fuel' =>
      let s := nor_writel addr NOR_ADDR_REG s in
      let v := chip_data (ram s) (flash s) in
      if 4 <=? remains then
        m ← writel v p (ram s);
        pio_read_loop fuel' (u32 (addr + 4)) (p + 4) (remains - 4) (with_ram m s)
      else
        pio_read_loop fuel' (u32 (addr + remains)) (p + remains) 0 (put_bytes (Z.to_nat remains) v p s)
  end.

(** At most fifteen bytes are read so, four at a time. *)
Definition ppi_amd_pio_read (addr buf size : Z) (s : nor) : exec (Z * nor) :=
  let s := nor_writel 0x30 COM_REG s in
  s ← pio_read_loop (Z.to_nat (size / 4) + 1) addr buf size s;
  Done (0, nor_writel 0x00 COM_REG s).

(** The last word, when it is not whole, is put together and not written. *)
Fixpoint pio_write_loop (fuel : nat) (addr p remains : Z) (rc : Z) (s : nor) : exec (Z * nor) :=
  if remains <=? 0 then Done (rc, s) else
  match fuel with
  | O => Fault
  | S fuel' =>
      let s := nor_writel addr NOR_ADDR_REG s in
      '(count, s) ← (if 4 <=? remains then v ← readl (ram s) p; Done (4, nor_writel v PIO_DATA_REG s) else Done (remains, s));
      let '(rc, s) := pl_nor_polling_intr NOR_CMD_INTR_MASK 0 s in
      if rc =? 0 then Done (rc, s) else pio_write_loop fuel' (u32 (addr + count)) (p + count) (remains - count) rc s
  end.

Definition ppi_amd_pio_write (addr buf size : Z) (s : nor) : exec (Z * nor) :=
  let s := nor_writes [(ppi_write_wait_count, PPI_PRO_CNT_REG); (0x34, COM_REG); (0xAAA, ADDR_CFG1); (0xAA, DATA_CFG1);
                       (0x555, ADDR_CFG2); (0x55, DATA_CFG2); (0xAAA, ADDR_CFG3); (0xA0, DATA_CFG3)] s in
  '(rc, s) ← pio_write_loop (Z.to_nat (size / 4) + 1) addr buf size 0 s;
  Done (rc, nor_writel 0x00 COM_REG s).

(** A call through [nor_ops]. *)
Definition through {A} (r : nor → exec A) (s : nor) : exec A := if nor_ops s then r s else Fault.

(** ** Waiting *)

Definition pl_nor_do_interrupt (status : Z) (s : nor) : nor := with_intr (u8 status) s.

(** [wait_event (wq_intr, intr_status != 0)]: the interrupts come one after the other. *)
Fixpoint interrupts (l : list Z) (s : nor) : exec nor :=
  if negb (intr_status s =? 0) then Done s else
  match l with
  | [] => Fault
  | st :: l' => interrupts l' (pl_nor_do_interrupt st s)
  end.

Definition wait_intr (s : nor) : exec nor :=
  let '(m, fl, l) := chip_run (ram s) (flash s) in interrupts l (with_flash fl (with_ram m s)).

(** ** Erasing *)

Definition pl_nor_erase_one_block (addr : Z) (s : nor) : exec (Z * nor) :=
  let s := with_intr 0 (NOR_INTR_SET_MASK NOR_DMA_INTR_MASK s) in
  '(_, s) ← through (λ s, Done (ppi_amd_cmd_erase addr DMA_START s)) s;
  s ← wait_intr s;
  '(rc, s) ← through (λ s, Done (ppi_amd_cmd_erase addr DMA_END s)) s;
  Done (rc, NOR_INTR_SET_MASK NOR_INTR_MASKALL s).

Fixpoint pl_nor_map_sector (map : list nor_sector_t) (addr : Z) : option nor_sector_t :=
  match map with
  | [] => None
  | sec :: map' =>
      if (start_addr sec <=? addr) && (addr <? u32 (start_addr sec + sec_size sec)) then Some sec else pl_nor_map_sector map' addr
  end.

(** [MTD_ERASE_DONE] and [MTD_ERASE_FAILED] as the states that an erasure ends in; the
    callback is called exactly when it is done. *)
Inductive erase_state : Type := MTD_ERASE_FAILED | MTD_ERASE_DONE.

(** The loop leaves with whether all of it was erased.  Sectors are at least a
    kilobyte. *)
Fixpoint erase_loop (fuel : nat) (addr len : Z) (s : nor) : exec (bool * nor) :=
  if len <=? 0 then Done (true, s) else
  match fuel with
  | O => Fault
  | S fuel' =>
      match pl_nor_map_sector (nor_sector_map s) addr with
      | None => Done (false, s)
      | Some sector =>
          '(rc, s) ← pl_nor_erase_one_block (start_addr sector) s;
          if rc <? 0 then Done (false, s) else erase_loop fuel' (u32 (addr + sec_size sector)) (s32 (len - sec_size sector)) s
      end
  end.

Definition pl_nor_flash_erase (addr len : Z) (s : nor) : exec (Z * erase_state * nor) :=
  if total_size s <? addr then Done (- EINVAL, MTD_ERASE_FAILED, s) else
  if total_size s <? u32 (addr + len) then Done (- EINVAL, MTD_ERASE_FAILED, s) else
  '(interrupted, s) ← down_interruptible s;
  if (interrupted : bool) then Done (- ERESTARTSYS, MTD_ERASE_FAILED, s) else
  '(done, s) ← erase_loop (Z.to_nat (len / 1024) + 1) addr (s32 len) s;
  Done (if (done : bool) then (0, MTD_ERASE_DONE, up s) else (- EINVAL, MTD_ERASE_FAILED, up s)).

(** ** Reading and writing *)

(** One transfer of [this_cnt] bytes between the buffer and the flash, the body of both
    loops; [None] when the descriptors could not be set up. *)
Definition transfer (mode : Z) (cmd : Z → Z → phase → nor → Z * nor) (addr buf_now this_cnt rc : Z) (s : nor) : exec (option Z * nor) :=
  '(n, s) ← pl_setup_dma mode [mk_iovec buf_now this_cnt] s;
  if negb (n =? this_cnt) then Done (None, s) else
  let s := NOR_INTR_SET_MASK NOR_CMD_INTR_MASK (with_intr 0 s) in
  d ← enable_dma mde_default DMA_PL_NOR (dma s);
  '(_, s) ← through (λ s, Done (cmd (u32 addr) this_cnt DMA_START s)) (with_dma d s);
  s ← wait_intr s;
  residue ← (if Z.land (intr_status s) 0x01 =? 0 then get_dma_residue DMA_PL_NOR (dma s) else Done 1);
  let rc := if residue =? 0 then rc else - EIO in
  let s := NOR_INTR_SET_MASK NOR_INTR_MASKALL s in
  d ← disable_dma DMA_PL_NOR (dma s);
  '(_, s) ← through (λ s, Done (cmd (u32 addr) this_cnt DMA_END s)) (with_dma d s);
  Done (Some rc, s).

(** The loop: the result, the bytes that count as done, the state. *)
Fixpoint transfer_loop (fuel : nat) (mode : Z) (cmd : Z → Z → phase → nor → Z * nor) (addr buf_now len rc retlen : Z) (s : nor) :
    exec (Z * Z * nor) :=
  if len <=? 0 then Done (rc, retlen, s) else
  match fuel with
  | O => Fault
  | S fuel' =>
      let this_cnt := if MAX_DMA_CNT <? len then MAX_DMA_CNT else len in
      '(r, s) ← transfer mode cmd addr buf_now this_cnt rc s;
      match r with
      | None => Done (- EFAULT, retlen, s)
      | Some rc => transfer_loop fuel' mode cmd (addr + this_cnt) (buf_now + this_cnt) (len - this_cnt) rc (u32 (retlen + this_cnt)) s
      end
  end.

Definition loop_fuel (len : Z) : nat := Z.to_nat (len / MAX_DMA_CNT + 1).

(** [retlen] is the caller's, unless it is set. *)
Definition pl_nor_flash_read (from len retlen buf : Z) (s : nor) : exec (Z * Z * nor) :=
  if total_size s <? from + len then Done (- EINVAL, retlen, s) else
  '(interrupted, s) ← down_interruptible s;
  if (interrupted : bool) then Done (- ERESTARTSYS, retlen, s) else
  let pio_len := Z.land buf 0x0f in
  s ← (if negb (pio_len =? 0) then '(_, s) ← through (ppi_amd_pio_read (u32 from) buf pio_len) s; Done s else Done s);
  let len := u32 (len - pio_len) in
  '(rc, retlen, s) ← transfer_loop (loop_fuel len) DMA_MODE_READ ppi_amd_cmd_read (from + pio_len) (buf + pio_len) len 0 pio_len s;
  Done (rc, retlen, up s).

Definition pl_nor_flash_write (to len retlen buf : Z) (s : nor) : exec (Z * Z * nor) :=
  if total_size s <? to + len then Done (- EINVAL, retlen, s) else
  '(interrupted, s) ← down_interruptible s;
  if (interrupted : bool) then Done (- ERESTARTSYS, retlen, s) else
  let pio_len := Z.land buf 0x0f in
  s ← (if negb (pio_len =? 0) then '(_, s) ← through (ppi_amd_pio_write (u32 to) buf pio_len) s; Done s else Done s);
  let len := u32 (len - pio_len) in
  '(rc, retlen, s) ← transfer_loop (loop_fuel len) DMA_MODE_WRITE ppi_amd_cmd_write (to + pio_len) (buf + pio_len) len 0 pio_len s;
  Done (rc, retlen, up s).

(** ** Initialisation *)

(** The sectors of one set, [quantum] of them: the index and the address behind, the
    total size.  The array has [MAX_NOR_SECTOR] entries. *)
Fixpoint map_set (quantum : nat) (size : Z) (map : list nor_sector_t) (addr total : Z) : exec (list nor_sector_t * Z * Z) :=
  match quantum with
  | O => Done (map, addr, total)
  | S q =>
      if MAX_NOR_SECTOR <=? Z.of_nat (length map) then Fault else
      let map := map ++ [mk_sector addr (Z.shiftl size 10)] in
      let total := s32 (total + Z.shiftl size 10) in
      let addr := u32 (addr + Z.shiftl size 10) in
      if Z.of_nat (length map) =? MAX_NOR_SECTOR then Done (map, addr, total) else map_set q size map addr total
  end.

(** The sets that the boot loader passes: sizes in kilobytes and numbers, both of
    sixteen bits; a size of zero ends them. *)
Fixpoint map_sets (sets : list (Z * Z)) (map : list nor_sector_t) (addr total regions : Z) : exec (list nor_sector_t * Z * Z) :=
  match sets with
  | [] => Done (map, total, regions)
  | (size, quantum) :: sets' =>
      if size =? 0 then Done (map, total, regions) else
      '(map, addr, total) ← map_set (Z.to_nat quantum) size map addr total;
      map_sets sets' map addr total (regions + 1)
  end.

Definition pl_nor_generate_map (type : Z) (sectinfo : list (Z * Z)) (s : nor) : exec (Z * nor) :=
  '(map, total, regions) ← map_sets (take MAX_SECTOR_SET sectinfo) [] 0 (total_size s) (num_erase_regions s);
  if type =? 1 then
    let '(_, s) := ppi_amd_read_id (with_map true map total regions s) in Done (0, s)
  else Done (-1, with_map (nor_ops s) map total regions s).

Definition pl_nor_init_dma (s : nor) : exec (Z * nor) :=
  '(rc, d) ← request_dma DMA_PL_NOR (bs "NOR") (dma s);
  if rc <? 0 then Done (rc, with_dma d s) else
  d ← set_dma_mde_base DMA_PL_NOR mdt d;
  d ← set_dma_mode DMA_PL_NOR DMA_MODE_READ d;
  Done (0, with_dma (set_dma_burst_length DMA_PL_NOR DMA_BURST_LINE d) s).

(** The pending status that is read, and the result of [request_irq]. *)
Definition pl_nor_init_irq (pending irq_rc : Z) (s : nor) : Z * nor :=
  let s := with_intr (u8 pending) s in
  if negb (irq_rc =? 0) then (-1, s) else (irq_rc, NOR_INTR_SET_MASK NOR_INTR_MASKALL s).

(** [None] where no description of the flash was passed.  The result of
    [pl_nor_generate_map] is not looked at. *)
Definition pl_nor_init (tag : option (Z * list (Z * Z))) (pending irq_rc : Z) (s : nor) : exec (Z * nor) :=
  match tag with
  | None => Done (-1, s)
  | Some (type, sectinfo) =>
      '(_, s) ← pl_nor_generate_map type sectinfo s;
      '(rc, s) ← pl_nor_init_dma s;
      if rc <? 0 then Done (-1, s) else
      let '(rc, s) := pl_nor_init_irq pending irq_rc s in
      if rc <? 0 then Done (-1, s) else Done (0, s)
  end.

End driver.

(** ** The regions for the partitions *)

Record mtd_erase_region_info : Type := mk_region { r_offset : Z; r_erasesize : Z; r_numblocks : Z }.

(** [p->numblocks++] on the last region that was begun; before the first one [p] is the
    start of the array, whose contents are not set. *)
Definition count_block (regions : list mtd_erase_region_info) : exec (list mtd_erase_region_info) :=
  match last regions with
  | Some p => Done (removelast regions ++ [mk_region (r_offset p) (r_erasesize p) (u32 (r_numblocks p + 1))])
  | None => Fault
  end.

(** The loop over the sectors, with the regions filled so far, the size of the last
    one's blocks and the largest. *)
Fixpoint region_loop (map : list nor_sector_t) (num : Z) (regions : list mtd_erase_region_info) (c_size erasesize : Z) :
    exec (list mtd_erase_region_info * Z) :=
  match map with
  | [] => Done (regions, erasesize)
  | sec :: map' =>
      if sec_size sec =? c_size then
        regions ← count_block regions; region_loop map' num regions c_size erasesize
      else if num <=? Z.of_nat (length regions) then Done (regions, erasesize)
      else region_loop map' num (regions ++ [mk_region (start_addr sec) (sec_size sec) 1]) (sec_size sec)
             (if erasesize <? sec_size sec then sec_size sec else erasesize)
  end.

(** The device that is registered: its size, the number of its regions and what was
    filled in of them, and the largest block. *)
Record mtd_info : Type := mk_mtd { mtd_size : Z; mtd_flags : Z; numeraseregions : Z; eraseregions : list mtd_erase_region_info; erasesize : Z }.

Definition MTD_CLEAR_BITS : Z := 1.
Definition MTD_SET_BITS : Z := 2.
Definition MTD_ERASEABLE : Z := 4.
Definition MTD_WRITEABLE : Z := Z.lor MTD_CLEAR_BITS MTD_SET_BITS.
Definition MTD_CAP_NORFLASH : Z := Z.lor MTD_CLEAR_BITS MTD_ERASEABLE.

Section mtd_init.
Context `{NorChip}.
Variable mdt : Z.

(** [initialized] before the call, whether [kmalloc] succeeds, and the results of
    [add_mtd_device] and [add_mtd_partitions] (both given the device); the device is
    gone ([None]) when the call fails. *)
Definition pl_nor_mtd_init (initialized : bool) (tag : option (Z * list (Z * Z))) (pending irq_rc : Z) (room : bool)
    (add_device add_partitions : mtd_info → Z) (s : nor) : exec (Z * option mtd_info * nor) :=
  if initialized then Done (-1, None, s) else
  '(rc, s) ← pl_nor_init mdt tag pending irq_rc s;
  if rc <? 0 then Done (rc, None, s) else
  if negb room then Fault (** [kfree] of the static name *) else
  '(regions, size) ← region_loop (nor_sector_map s) (num_erase_regions s) [] 0 0;
  let mtd := mk_mtd (u32 (total_size s)) MTD_CAP_NORFLASH (num_erase_regions s) regions size in
  if add_device mtd <? 0 then Done (-1, None, s) else
  if add_partitions mtd <? 0 then Done (-1, None, s) else
  Done (0, Some mtd, s).

(** Leaving; the device stays registered with what is left of it. *)
Definition pl_nor_mtd_exit (initialized : bool) (mtd : option mtd_info) : option mtd_info :=
  if initialized then None else mtd.

End mtd_init.

(** ** Partitions *)

Record mtd_partition : Type := mk_partition { p_name : string; p_size : Z; p_offset : Z; p_mask_flags : Z }.

Definition pl_nor_partitions : list mtd_partition :=
  [ mk_partition "bootloader" 0x10000 0 MTD_WRITEABLE; mk_partition "MAC" 0x10000 0x10000 0;
    mk_partition "SQUASHFS" 0x6C0000 0x140000 MTD_WRITEABLE; mk_partition "CONFIG" 0x10000 0x20000 0;
    mk_partition "KFS" 0x790000 0x70000 0; mk_partition "ALL" 0x800000 0x0 0;
    mk_partition "LOGO Image" 0x10000 0x30000 0; mk_partition "HTTPS CA" 0x10000 0x40000 0;
    mk_partition "ROOT CA" 0x10000 0x50000 0; mk_partition "User CA" 0x10000 0x60000 0 ].
