(* ===== verification/NorTheorems.v ===== *)
(** * The flash driver: theorems

    [NorChipOk] is what the driver relies on: the controller erases the sector that
    the erase command names, and moves the bytes between the memory that the
    descriptors name and the flash, where programming can only clear bits. *)

From S2P Require Import Prelude Bus Dma DmaTheorems Nor.

Local Open Scope Z_scope.

(** ** The chip *)

Definition nreg (m : bus) (r : Z) : Z := rd 4 m (rNOR_BASE + r).

(** The bytes of the flash. *)
Definition slice (fl : list Z) (a n : Z) : list Z := take (Z.to_nat n) (drop (Z.to_nat a) fl).
Definition splice (fl : list Z) (a : Z) (l : list Z) : list Z := take (Z.to_nat a) fl ++ l ++ drop (Z.to_nat a + length l) fl.
Definition erased (fl : list Z) (a n : Z) : list Z := splice fl a (replicate (Z.to_nat n) 255).
Definition programmed (fl : list Z) (a : Z) (l : list Z) : list Z := splice fl a (zip_with Z.land (slice fl a (strlen l)) l).

(** The bytes of memory. *)
Definition bytes (m : bus) (a n : Z) : list Z := map (byte_at m) (seqZ a n).
Fixpoint put (m : bus) (a : Z) (l : list Z) : bus :=
  match l with [] => m | b :: l' => <[a := u8 b]> (put m (a + 1) l') end.

Definition cfg (m : bus) (l : list (Z * Z)) : Prop := Forall (λ '(v, r), nreg m r = v) l.

Definition erase_cmd (m : bus) (addr : Z) : Prop :=
  cfg m [(0x36, COM_REG); (0xAAA, ADDR_CFG1); (0xAA, DATA_CFG1); (0x555, ADDR_CFG2); (0x55, DATA_CFG2);
         (0xAAA, ADDR_CFG3); (0x80, DATA_CFG3); (0xAAA, ADDR_CFG4); (0xAA, DATA_CFG4); (0x555, ADDR_CFG5); (0x55, DATA_CFG5)] ∧
  nreg m NOR_ADDR_REG = addr ∧ byte_at m (rNOR_BASE + PIO_DATA_REG) = 0x30.

Definition program_cmd (m : bus) (addr n : Z) : Prop :=
  cfg m [(0x34, COM_REG); (0xAAA, ADDR_CFG1); (0xAA, DATA_CFG1); (0x555, ADDR_CFG2); (0x55, DATA_CFG2);
         (0xAAA, ADDR_CFG3); (0xA0, DATA_CFG3); (addr, NOR_ADDR_REG); (2 ^ 31 + n, DMA_S_REG)].

Definition read_cmd (m : bus) (addr n : Z) : Prop := cfg m [(0, COM_REG); (addr, NOR_ADDR_REG); (2 ^ 30 + n, DMA_S_REG)].

(** The channel is on, in this direction, at a table of one entry. *)
Definition dma_ready (m : bus) (upstream : bool) (b n : Z) : Prop :=
  dma_readb DMA_IDX_REG DMA_PL_NOR m = 0 ∧
  Z.testbit (dma_readb DMA_CMD_REG DMA_PL_NOR m) 7 = true ∧
  Z.testbit (dma_readb DMA_CMD_REG DMA_PL_NOR m) 6 = upstream ∧
  mde_walk 1 m (bus_to_virt (rd 4 m (dma_reg DMA_MDT_REG DMA_PL_NOR))) 0 = Some [(b, n)].

(** The controller clears the bit when the transfer is done. *)
Definition dma_done (m : bus) : bus :=
  dma_writeb (Z.land (dma_readb DMA_CMD_REG DMA_PL_NOR m) (Z.lnot DMA_CHN_ENABLE)) DMA_CMD_REG DMA_PL_NOR m.

(** What the driver relies on.  The controller moves lines of sixteen bytes. *)
Class NorChipOk `{NorChip} (layout : list nor_sector_t) : Prop := {
  chip_erases m fl addr sec :
    erase_cmd m addr → sec ∈ layout → start_addr sec <= addr < start_addr sec + sec_size sec →
    start_addr sec + sec_size sec <= strlen fl →
    ∃ st, chip_run m fl = (m, erased fl (start_addr sec) (sec_size sec), [st]) ∧ 0 < st < 256 ∧ Z.land st 4 = 0;
  chip_programs m fl addr n b :
    program_cmd m addr n → dma_ready m false b n → b mod 16 = 0 → n mod 16 = 0 → addr + n <= strlen fl →
    ∃ st, chip_run m fl = (dma_done m, programmed fl addr (bytes m (bus_to_virt b) n), [st]) ∧ 0 < st < 256 ∧ Z.land st 1 = 0;
  chip_reads m fl addr n b :
    read_cmd m addr n → dma_ready m true b n → b mod 16 = 0 → n mod 16 = 0 → addr + n <= strlen fl →
    ∃ st, chip_run m fl = (dma_done (put m (bus_to_virt b) (slice fl addr n)), fl, [st]) ∧ 0 < st < 256 ∧ Z.land st 1 = 0;
  chip_shows m fl v : fl !! Z.to_nat (nreg m NOR_ADDR_REG) = Some v → is_byte v → u8 (chip_data m fl) = v }.

(** ** Bytes *)

Lemma length_splice fl a l : 0 <= a → a + strlen l <= strlen fl → length (splice fl a l) = length fl.
Proof. unfold strlen, splice. intros. apply length_copy. lia. Qed.

Lemma lookup_splice fl a l i :
  0 <= a → a + strlen l <= strlen fl → 0 <= i →
  splice fl a l !! Z.to_nat i = if decide (a <= i < a + strlen l) then l !! Z.to_nat (i - a) else fl !! Z.to_nat i.
Proof.
  unfold strlen, splice. intros Ha Hl Hi. case_decide.
  - rewrite lookup_app_r, lookup_app_l by (rewrite length_take; lia). rewrite length_take. f_equal. lia.
  - destruct (decide (i < a)).
    + rewrite lookup_app_l, lookup_take_lt by (rewrite ?length_take; lia). done.
    + rewrite !lookup_app_r by (rewrite length_take; lia). rewrite lookup_drop, length_take. f_equal. lia.
Qed.

Lemma length_slice fl a n : 0 <= a → 0 <= n → a + n <= strlen fl → strlen (slice fl a n) = n.
Proof. unfold strlen, slice. intros. rewrite length_take, length_drop. lia. Qed.

Lemma lookup_slice fl a n i : 0 <= a → 0 <= i < n → slice fl a n !! Z.to_nat i = fl !! Z.to_nat (a + i).
Proof. intros. unfold slice. rewrite lookup_take_lt, lookup_drop by lia. f_equal. lia. Qed.

Lemma length_bytes m a n : 0 <= n → strlen (bytes m a n) = n.
Proof. intros. unfold strlen, bytes. rewrite length_map, length_seqZ. lia. Qed.

Lemma lookup_bytes m a n i : 0 <= i < n → bytes m a n !! Z.to_nat i = Some (byte_at m (a + i)).
Proof. intros. unfold bytes. rewrite list_lookup_fmap, (lookup_seqZ_lt a n (Z.to_nat i)) by lia. cbn. do 2 f_equal. lia. Qed.

Lemma bytes_ext m m' a n : (∀ x, a <= x < a + n → byte_at m' x = byte_at m x) → bytes m' a n = bytes m a n.
Proof. intros Hx. unfold bytes. apply map_ext_in. intros x Hin. apply Hx. apply list_elem_of_In, elem_of_seqZ in Hin. lia. Qed.

Lemma byte_at_put m a l x :
  byte_at (put m a l) x = if decide (a <= x < a + strlen l) then u8 (default 0 (l !! Z.to_nat (x - a))) else byte_at m x.
Proof.
  revert a. induction l as [|b l IH]; intros a; cbn [put]; unfold strlen in *; cbn [length].
  { by rewrite decide_False by lia. }
  rewrite byte_at_insert. case_decide as E.
  - subst. rewrite decide_True by lia. by rewrite Z.sub_diag.
  - rewrite IH. destruct (decide (a + 1 <= x < a + 1 + Z.of_nat (length l))).
    + rewrite decide_True by lia. replace (Z.to_nat (x - a)) with (S (Z.to_nat (x - (a + 1)))) by lia. done.
    + by rewrite decide_False by lia.
Qed.

(** ** Registers *)

Definition wrs (l : list (Z * Z)) (m : bus) : bus := foldl (λ m '(v, r), wr 4 v (rNOR_BASE + r) m) m l.

Definition regs_ok (l : list (Z * Z)) : Prop := Forall (λ '(_, q), q mod 4 = 0 ∧ 0 <= q <= 0x58) l.

Definition last_write (l : list (Z * Z)) (r : Z) : option Z := foldl (λ o '(v, q), if q =? r then Some v else o) None l.

Lemma with_ram_ram s m : ram (with_ram m s) = m.
Proof. done. Qed.

Lemma nor_writes_eq l s : nor_writes l s = with_ram (wrs l (ram s)) s.
Proof.
  revert s. induction l as [|[v r] l IH]; intros s.
  - by destruct s as [[m cs] fl i sm sg o mp t n].
  - unfold nor_writes, wrs in *. cbn [foldl]. rewrite IH. done.
Qed.

Lemma nreg_wrs l m r :
  regs_ok l → r mod 4 = 0 → nreg (wrs l m) r = match last_write l r with Some v => u32 v | None => nreg m r end.
Proof.
  intros Hl Hr. unfold wrs, last_write. revert Hl. induction l as [|[v q] l IH] using rev_ind; intros Hl; [done|].
  apply Forall_app in Hl as [Hl Hq]. apply Forall_singleton in Hq as [Hq4 Hq].
  rewrite !foldl_app. cbn [foldl]. unfold nreg. destruct (Z.eqb_spec q r) as [->|].
  - by rewrite rd_wr_same.
  - rewrite rd_wr_other by zdm. by apply IH.
Qed.

(** Nothing but the controller's registers is touched. *)
Definition far_nor (m m' : bus) : Prop := ∀ a, a < rNOR_BASE ∨ rNOR_BASE + 0x60 <= a → byte_at m' a = byte_at m a.

Lemma wrs_far l m : regs_ok l → far_nor m (wrs l m).
Proof.
  intros Hl. unfold wrs. induction l as [|[v q] l IH] using rev_ind; [done|]. apply Forall_app in Hl as [Hl Hq].
  apply Forall_singleton in Hq as [Hq4 Hq]. rewrite foldl_app. cbn [foldl]. intros a Ha.
  rewrite byte_at_wr, decide_False by lia. by apply IH.
Qed.

Lemma writeb_far v r m : 0 <= r < 0x60 → far_nor m (writeb v (rNOR_BASE + r) m).
Proof. intros Hr a Ha. unfold writeb. rewrite byte_at_insert, decide_False; [done|lia]. Qed.

Lemma nreg_writeb v q m r : q < r ∨ r + 4 <= q → nreg (writeb v (rNOR_BASE + q) m) r = nreg m r.
Proof. intros Hq. unfold nreg, writeb. apply rd_ext. intros b Hb. rewrite byte_at_insert, decide_False; [done|lia]. Qed.

Ltac regs := repeat first [apply Forall_cons_2; [vm_compute; repeat split; discriminate|] | apply Forall_nil_2].

(** ** Erasing a sector *)

Section erase.
Context `{Hchip : NorChip} (layout : list nor_sector_t) `{!NorChipOk layout}.

(** No command is under way. *)
Definition idle (s : nor) : Prop := nreg (ram s) COM_REG = 0.

(** What an erasure leaves as it was. *)
Definition same_but_flash (s s' : nor) : Prop :=
  chans (dma s') = chans (dma s) ∧ ctl_sem s' = ctl_sem s ∧ signals s' = signals s ∧ nor_ops s' = nor_ops s ∧
  nor_sector_map s' = nor_sector_map s ∧ total_size s' = total_size s ∧ num_erase_regions s' = num_erase_regions s ∧
  far_nor (ram s) (ram s').

Lemma far_trans m1 m2 m3 : far_nor m1 m2 → far_nor m2 m3 → far_nor m1 m3.
Proof. intros H1 H2 a Ha. rewrite H2, H1; done. Qed.

Lemma same_refl s : same_but_flash s s.
Proof. split_and!; done. Qed.

Lemma same_trans s1 s2 s3 : same_but_flash s1 s2 → same_but_flash s2 s3 → same_but_flash s1 s3.
Proof. intros (?&?&?&?&?&?&?&?) (?&?&?&?&?&?&?&?). split_and!; try congruence. by eapply far_trans. Qed.

(** The command as the chip finds it. *)
Lemma erase_start m addr :
  0 <= addr < 2 ^ 32 →
  let m1 := wrs [(ppi_erase_wait_count, PPI_PRO_CNT_REG); (0x36, COM_REG);
                 (0xAAA, ADDR_CFG1); (0xAA, DATA_CFG1); (0x555, ADDR_CFG2); (0x55, DATA_CFG2);
                 (0xAAA, ADDR_CFG3); (0x80, DATA_CFG3); (0xAAA, ADDR_CFG4); (0xAA, DATA_CFG4);
                 (0x555, ADDR_CFG5); (0x55, DATA_CFG5); (addr, NOR_ADDR_REG)] m in
  erase_cmd (writeb 0x30 (rNOR_BASE + PIO_DATA_REG) m1) addr ∧ far_nor m (writeb 0x30 (rNOR_BASE + PIO_DATA_REG) m1).
Proof.
  intros Ha. cbv zeta. set (l := (ppi_erase_wait_count, PPI_PRO_CNT_REG) :: _).
  assert (Hl : regs_ok l) by (unfold l; regs). split; [split; [|split]|].
  - unfold cfg. repeat (apply Forall_cons_2; [rewrite nreg_writeb by (left; done); by rewrite nreg_wrs by done|]). done.
  - rewrite nreg_writeb by (left; done). rewrite nreg_wrs by done. by apply Z.mod_small.
  - unfold writeb. by rewrite byte_at_insert, decide_True.
  - eapply far_trans; [by apply wrs_far|]. by apply writeb_far.
Qed.

Lemma interrupts_one st s : intr_status s = 0 → 0 < st < 256 → interrupts [st] s = Done (with_intr st s).
Proof.
  intros H0 Hst. assert (E : u8 st = st) by (apply Z.mod_small; lia).
  cbn [interrupts]. unfold pl_nor_do_interrupt. rewrite H0, E. cbn [Z.eqb negb intr_status with_intr].
  by destruct (Z.eqb_spec st 0); [lia|].
Qed.

(** The erasure of one sector. *)
Lemma erase_one_block sec s :
  nor_ops s = true → sec ∈ layout → 0 <= start_addr sec < 2 ^ 32 → 0 < sec_size sec → start_addr sec + sec_size sec <= strlen (flash s) →
  ∃ s', pl_nor_erase_one_block (start_addr sec) s = Done (0, s') ∧
        flash s' = erased (flash s) (start_addr sec) (sec_size sec) ∧ same_but_flash s s' ∧ idle s'.
Proof.
  intros Hops Hsec Ha Hsz Hlen. unfold pl_nor_erase_one_block, through. cbn [nor_ops with_intr NOR_INTR_SET_MASK nor_writeb with_ram with_dma].
  rewrite Hops. cbn [mbind exec_bind ppi_amd_cmd_erase]. rewrite nor_writes_eq.
  set (s0 := with_intr 0 _). destruct (erase_start (ram s0) (start_addr sec) Ha) as [Hcmd Hfar]. cbv zeta in Hcmd, Hfar.
  set (m1 := wrs _ (ram s0)) in *. unfold nor_writeb. rewrite with_ram_ram. set (m2 := writeb 0x30 _ m1) in *.
  change (with_ram m2 (with_ram m1 s0)) with (with_ram m2 s0). cbn [mbind exec_bind].
  destruct (chip_erases m2 (flash s) (start_addr sec) sec Hcmd Hsec ltac:(lia) Hlen) as (st & Hrun & Hst & Hst4).
  unfold wait_intr. change (flash (with_ram m2 s0)) with (flash s). rewrite with_ram_ram, Hrun.
  rewrite interrupts_one by done. cbn [mbind exec_bind]. set (s3 := with_intr st _).
  change (nor_ops s3) with (nor_ops s). rewrite Hops. cbn [mbind exec_bind].
  change (flash s3) with (erased (flash s) (start_addr sec) (sec_size sec)). change (ram s3) with m2.
  assert (Hn : nreg m2 NOR_ADDR_REG = start_addr sec).
  { by destruct Hcmd as (_ & Hc & _). }
  assert (Hshow : u8 (chip_data m2 (erased (flash s) (start_addr sec) (sec_size sec))) = 255).
  { apply chip_shows; [|by unfold is_byte]. rewrite Hn. unfold erased.
    rewrite lookup_splice by (unfold strlen; rewrite ?length_replicate; unfold strlen in *; lia).
    by rewrite decide_True, lookup_replicate_2 by (unfold strlen; rewrite ?length_replicate; lia). }
  rewrite Hshow. cbn [Z.land Z.eqb].
  eexists. split; [reflexivity|]. split; [done|]. split; [|unfold idle, NOR_INTR_SET_MASK, nor_writeb, nor_writel;
    rewrite !with_ram_ram, nreg_writeb by (right; done); unfold nreg; by rewrite rd_wr_same].
  split_and!; try done. eapply far_trans; [|by apply writeb_far]. eapply far_trans; [|apply (wrs_far [(0, COM_REG)]); regs].
  eapply far_trans; [|exact Hfar]. by apply writeb_far.
Qed.

End erase.

(** ** The map of the sectors *)

(** Sectors of these sizes, one behind the other. *)
Fixpoint sectors (a : Z) (sizes : list Z) : list nor_sector_t :=
  match sizes with [] => [] | z :: zs => mk_sector a z :: sectors (a + z) zs end.

(** What a description asks for. *)
Definition set_sizes (sets : list (Z * Z)) : list Z := concat (map (λ '(k, q), replicate (Z.to_nat q) (k * 2 ^ 10)) sets).

Lemma sectors_app a l1 l2 : sectors a (l1 ++ l2) = sectors a l1 ++ sectors (a + zsum l1) l2.
Proof.
  revert a. induction l1 as [|z l1 IH]; intros a; cbn; [by rewrite Z.add_0_r|]. by rewrite IH, Z.add_assoc.
Qed.

Lemma length_sectors a l : length (sectors a l) = length l.
Proof. revert a. induction l as [|z l IH]; intros a; cbn; [done|]. by rewrite IH. Qed.

Lemma zsum_app l1 l2 : zsum (l1 ++ l2) = zsum l1 + zsum l2.
Proof. unfold zsum. induction l1 as [|z l1 IH]; cbn in *; [done|]. lia. Qed.

Lemma zsum_cons z l : zsum (z :: l) = z + zsum l.
Proof. done. Qed.

Lemma zsum_nonneg l : Forall (λ z, 0 < z) l → 0 <= zsum l.
Proof. unfold zsum. induction 1; cbn in *; lia. Qed.

Lemma map_set_spec q size done :
  0 < size → (length done + q <= 1024)%nat → Forall (λ z, 0 < z) done →
  zsum done + Z.of_nat q * (size * 2 ^ 10) < 2 ^ 31 →
  map_set q size (sectors 0 done) (zsum done) (zsum done) =
    Done (let all := done ++ replicate q (size * 2 ^ 10) in (sectors 0 all, zsum all, zsum all)).
Proof.
  intros Hs. revert done. induction q as [|q IH]; intros done Hl Hp Hb; cbn [map_set replicate]; [by rewrite app_nil_r|].
  pose proof (zsum_nonneg _ Hp). unfold MAX_NOR_SECTOR. rewrite length_sectors, (proj2 (Z.leb_gt _ _)) by lia.
  rewrite Z.shiftl_mul_pow2 by lia. cbv zeta.
  assert (E : sectors 0 done ++ [mk_sector (zsum done) (size * 2 ^ 10)] = sectors 0 (done ++ [size * 2 ^ 10])).
  { by rewrite sectors_app. }
  assert (Ez : zsum (done ++ [size * 2 ^ 10]) = zsum done + size * 2 ^ 10) by (rewrite zsum_app; cbn; lia).
  rewrite E, s32_id by lia. unfold u32. rewrite Z.mod_small by lia. rewrite <-Ez, length_sectors, length_app. cbn [length].
  specialize (IH (done ++ [size * 2 ^ 10])). rewrite <-app_assoc in IH. cbn [app] in IH.
  destruct (Z.eqb_spec (Z.of_nat (length done + 1)) 1024).
  - destruct q as [|q]; [done|lia].
  - apply IH; [rewrite length_app; cbn; lia|apply Forall_app; split; [done|]; repeat constructor; lia|rewrite Ez; lia].
Qed.

(** The sets before the end mark. *)
Fixpoint sets_used (sets : list (Z * Z)) : list (Z * Z) :=
  match sets with [] => [] | (k, q) :: l => if k =? 0 then [] else (k, q) :: sets_used l end.

Lemma set_sizes_cons k q l : set_sizes ((k, q) :: l) = replicate (Z.to_nat q) (k * 2 ^ 10) ++ set_sizes l.
Proof. done. Qed.

Lemma zsum_replicate n z : zsum (replicate n z) = Z.of_nat n * z.
Proof. unfold zsum. induction n as [|n IH]; cbn in *; lia. Qed.

Lemma set_sizes_pos sets : Forall (λ '(k, q), 0 <= k ∧ 0 <= q) sets → Forall (λ z, 0 < z) (set_sizes (sets_used sets)).
Proof.
  induction 1 as [|[k q] l [Hk Hq] _ IH]; cbn [sets_used]; [constructor|]. destruct (Z.eqb_spec k 0); [constructor|].
  rewrite set_sizes_cons. apply Forall_app. split; [|done]. apply Forall_replicate. lia.
Qed.

Lemma map_sets_spec sets done n :
  Forall (λ '(k, q), 0 <= k ∧ 0 <= q) sets → Forall (λ z, 0 < z) done →
  (length done + length (set_sizes (sets_used sets)) <= 1024)%nat → zsum done + zsum (set_sizes (sets_used sets)) < 2 ^ 31 →
  map_sets sets (sectors 0 done) (zsum done) (zsum done) n =
    Done (let all := done ++ set_sizes (sets_used sets) in (sectors 0 all, zsum all, n + Z.of_nat (length (sets_used sets)))).
Proof.
  intros H. revert done n. induction H as [|[k q] l [Hk Hq] Hl IH]; intros done n Hp Hlen Hb; cbn [map_sets sets_used].
  { cbn. by rewrite app_nil_r, Z.add_0_r. }
  destruct (Z.eqb_spec k 0) as [->|Hk0]; [cbn; by rewrite app_nil_r, Z.add_0_r|].
  cbn [sets_used] in *. rewrite (proj2 (Z.eqb_neq _ _)) in Hlen, Hb by done. rewrite set_sizes_cons in *.
  rewrite length_app, length_replicate in Hlen. rewrite zsum_app, zsum_replicate in Hb.
  pose proof (zsum_nonneg _ (set_sizes_pos l Hl)).
  rewrite map_set_spec by (try done; lia). cbn [mbind exec_bind]. cbv zeta. rewrite IH.
  - rewrite <-app_assoc. cbn [length]. by replace (n + 1 + Z.of_nat (length (sets_used l))) with (n + Z.of_nat (S (length (sets_used l)))) by lia.
  - apply Forall_app. split; [done|]. apply Forall_replicate. lia.
  - rewrite length_app, length_replicate. lia.
  - rewrite zsum_app, zsum_replicate. lia.
Qed.

(** Looking for the sector of an address. *)
Lemma map_sector_found pre z post addr a :
  Forall (λ z, 0 < z) (pre ++ z :: post) → 0 <= a → a + zsum (pre ++ z :: post) < 2 ^ 32 →
  a + zsum pre <= addr < a + zsum pre + z →
  pl_nor_map_sector (sectors a (pre ++ z :: post)) addr = Some (mk_sector (a + zsum pre) z).
Proof.
  revert a. induction pre as [|x pre IH]; intros a Hp Ha Hb Haddr; cbn [app sectors pl_nor_map_sector start_addr sec_size].
  - apply Forall_cons in Hp as [Hz Hp]. pose proof (zsum_nonneg _ Hp). cbn in *. unfold zsum in *. cbn in *.
    unfold u32. rewrite Z.mod_small by lia. rewrite (proj2 (Z.leb_le _ _)), (proj2 (Z.ltb_lt _ _)) by lia. by rewrite Z.add_0_r.
  - cbn [app] in Hp, Hb. apply Forall_cons in Hp as [Hx Hp]. pose proof (zsum_nonneg _ Hp) as H0. rewrite !zsum_cons in *.
    assert (0 <= zsum pre) by (apply zsum_nonneg; apply Forall_app in Hp; tauto).
    assert (zsum (pre ++ z :: post) = zsum pre + (z + zsum post)) as E by (by rewrite zsum_app, zsum_cons).
    assert (0 <= zsum post) by (apply zsum_nonneg; apply Forall_app in Hp as [_ Hp]; by apply Forall_cons in Hp as [_ Hp]).
    unfold u32. rewrite Z.mod_small, (proj2 (Z.ltb_ge addr _)), andb_false_r by lia.
    rewrite IH by (try done; lia). by rewrite Z.add_assoc.
Qed.

Lemma map_sector_none a l addr :
  Forall (λ z, 0 < z) l → 0 <= a → a + zsum l < 2 ^ 32 → addr < a ∨ a + zsum l <= addr → pl_nor_map_sector (sectors a l) addr = None.
Proof.
  intros Hp. revert a. induction Hp as [|z l Hz Hp IH]; intros a Ha Hb Hout; [done|].
  cbn [sectors pl_nor_map_sector start_addr sec_size]. pose proof (zsum_nonneg _ Hp). rewrite zsum_cons in *.
  unfold u32. rewrite Z.mod_small by lia.
  assert ((a <=? addr) && (addr <? a + z) = false) as -> by (destruct (Z.leb_spec a addr), (Z.ltb_spec addr (a + z)); try done; lia).
  apply IH; lia.
Qed.

(** An address below the sum of the sizes is in one of the pieces. *)
Lemma piece_of l addr :
  Forall (λ z, 0 < z) l → 0 <= addr < zsum l →
  ∃ pre z post, l = pre ++ z :: post ∧ zsum pre <= addr < zsum pre + z.
Proof.
  intros Hp. revert addr. induction Hp as [|z l Hz Hp IH]; intros addr Ha; [cbn in Ha; lia|].
  rewrite zsum_cons in Ha. destruct (decide (addr < z)).
  - exists [], z, l. split; [done|]. cbn. lia.
  - destruct (IH (addr - z)) as (pre & y & post & -> & H); [lia|]. exists (z :: pre), y, post. split; [done|].
    rewrite zsum_cons. lia.
Qed.

Lemma elem_sectors sec a l : sec ∈ sectors a l → ∃ pre z post, l = pre ++ z :: post ∧ sec = mk_sector (a + zsum pre) z.
Proof.
  revert a. induction l as [|z l IH]; intros a H; cbn in H; [by apply elem_of_nil in H|].
  apply elem_of_cons in H as [->|H].
  - exists [], z, l. split; [done|]. cbn. by rewrite Z.add_0_r.
  - destruct (IH _ H) as (pre & y & post & -> & ->). exists (z :: pre), y, post. split; [done|].
    by rewrite zsum_cons, Z.add_assoc.
Qed.

Lemma sectors_elem a pre z post : mk_sector (a + zsum pre) z ∈ sectors a (pre ++ z :: post).
Proof. rewrite sectors_app. apply elem_of_app. right. cbn. apply elem_of_cons. by left. Qed.

(** The description that the boot loader passes: at most sixteen sets of sectors, as
    many sectors as the table holds, and less than two gigabytes. *)
Definition description_ok (sectinfo : list (Z * Z)) : Prop :=
  Forall (λ '(k, q), 0 <= k ∧ 0 <= q) sectinfo ∧ (length sectinfo <= MAX_SECTOR_SET)%nat ∧
  (length (set_sizes (sets_used sectinfo)) <= 1024)%nat ∧ zsum (set_sizes (sets_used sectinfo)) < 2 ^ 31.

Lemma read_id_ram `{NorChip} s : ∃ id m, ppi_amd_read_id s = (id, with_ram m s).
Proof. unfold ppi_amd_read_id. rewrite nor_writes_eq. unfold ppi_amd_reset, nor_writel. do 2 eexists. reflexivity. Qed.

Lemma generate_map_spec `{NorChip} sectinfo s :
  description_ok sectinfo → total_size s = 0 → num_erase_regions s = 0 →
  ∃ s', pl_nor_generate_map 1 sectinfo s = Done (0, s') ∧ nor_ops s' = true ∧
        nor_sector_map s' = sectors 0 (set_sizes (sets_used sectinfo)) ∧
        total_size s' = zsum (set_sizes (sets_used sectinfo)) ∧ num_erase_regions s' = Z.of_nat (length (sets_used sectinfo)).
Proof.
  intros (H1 & H2 & H3 & H4) Ht Hr. unfold pl_nor_generate_map. rewrite take_ge, Ht, Hr by done.
  pose proof (map_sets_spec sectinfo [] 0 H1 (Forall_nil_2 _) H3 H4) as E. cbn [sectors zsum foldr app] in E.
  cbv zeta in E. rewrite E. cbn [mbind exec_bind Z.eqb].
  edestruct read_id_ram as (id & m & ->). eexists. split; [reflexivity|]. done.
Qed.

(** From a description of at most 1024 sectors the driver makes a map in
    which every address of the flash lies in exactly one sector, the one that is
    found for it; no sector is found for an address behind the flash, whose size is
    the sum of the sectors. *)
Theorem flash_is_mapped `{NorChip} (sectinfo : list (Z * Z)) (s : nor) :
  description_ok sectinfo → total_size s = 0 → num_erase_regions s = 0 →
  ∃ s', pl_nor_generate_map 1 sectinfo s = Done (0, s') ∧
    total_size s' = zsum (map sec_size (nor_sector_map s')) ∧
    ∀ addr, 0 <= addr →
      if addr <? total_size s'
      then ∃ sec, pl_nor_map_sector (nor_sector_map s') addr = Some sec ∧ sec ∈ nor_sector_map s' ∧
           ∀ sec', sec' ∈ nor_sector_map s' → (start_addr sec' <= addr < start_addr sec' + sec_size sec' ↔ sec' = sec)
      else pl_nor_map_sector (nor_sector_map s') addr = None.
Proof.
  intros Hd Ht Hr. destruct (generate_map_spec sectinfo s Hd Ht Hr) as (s' & E & _ & Hm & Hs & _).
  destruct Hd as (H1 & _ & _ & H4). pose proof (set_sizes_pos _ H1) as Hp. set (l := set_sizes _) in *.
  exists s'. split; [done|]. rewrite Hm, Hs. split.
  { clear. generalize 0. induction l as [|z l IH]; intros a; [done|]. cbn [sectors map sec_size]. by rewrite !zsum_cons, <-IH. }
  intros addr Ha. destruct (Z.ltb_spec addr (zsum l)); [|apply map_sector_none; (done || lia)].
  destruct (piece_of l addr Hp) as (pre & z & post & El & Haz); [lia|].
  assert (Hf : pl_nor_map_sector (sectors 0 l) addr = Some (mk_sector (0 + zsum pre) z)).
  { rewrite El in *. apply map_sector_found; (done || lia). }
  eexists. split; [exact Hf|]. split; [rewrite El; apply sectors_elem|]. intros sec' Hsec. split.
  - intros Hin. destruct (elem_sectors _ _ _ Hsec) as (pre' & z' & post' & El' & ->). cbn [start_addr sec_size] in Hin.
    assert (Hf' : pl_nor_map_sector (sectors 0 l) addr = Some (mk_sector (0 + zsum pre') z')).
    { rewrite El' in *. apply map_sector_found; (done || lia). }
    congruence.
  - intros ->. cbn. lia.
Qed.

(** A chip for the examples. *)
Definition no_dma : dma_st := init_dma ∅.
Definition fresh_nor : nor := mk_nor no_dma [] 0 false [] false [] 0 0.

#[local] Instance idle_chip : NorChip := {| chip_run m fl := (m, fl, []); chip_data m fl := 0 |}.

(** Eight sectors of eight kilobytes and 127 of sixty-four: a flash of 8 MB. *)
Lemma flash_is_mapped_witness :
  ∃ s', pl_nor_generate_map 1 [(8, 8); (64, 127); (0, 0)] fresh_nor = Done (0, s') ∧
        pl_nor_map_sector (nor_sector_map s') 0x20000 = Some (mk_sector 0x20000 0x10000).
Proof.
  destruct (flash_is_mapped [(8, 8); (64, 127); (0, 0)] fresh_nor) as (s' & E & Hs & H); [|done..|].
  { split; [repeat constructor; lia|]. split; [cbn; unfold MAX_SECTOR_SET; lia|]. split; [vm_compute; lia|done]. }
  exists s'. split; [exact E|]. injection E as <-. vm_compute. reflexivity.
Defined.

(** With more sectors than the table holds only the set at hand is left; the next set is
    written behind the table. *)
Lemma map_overflows : pl_nor_generate_map 1 [(64, 1024); (64, 1)] fresh_nor = Fault.
Proof. vm_compute. reflexivity. Qed.

(** ** Erasing *)

Lemma strlen_erased fl a n : 0 <= a → 0 <= n → a + n <= strlen fl → strlen (erased fl a n) = strlen fl.
Proof.
  intros. unfold strlen at 1, erased. rewrite length_splice; [done|done|].
  unfold strlen in *. rewrite length_replicate. lia.
Qed.

Lemma lookup_erased fl a n i :
  0 <= a → 0 <= n → a + n <= strlen fl → 0 <= i →
  erased fl a n !! Z.to_nat i = if decide (a <= i < a + n) then Some 255 else fl !! Z.to_nat i.
Proof.
  intros Ha Hn Hl Hi. unfold erased. rewrite lookup_splice by (unfold strlen in *; rewrite ?length_replicate; lia).
  unfold strlen. rewrite length_replicate, Z2Nat.id by done. case_decide; [|done]. by rewrite lookup_replicate_2 by lia.
Qed.

(** Lists that agree at every index that is not negative. *)
Lemma list_eq_Z (l1 l2 : list Z) : (∀ i, 0 <= i → l1 !! Z.to_nat i = l2 !! Z.to_nat i) → l1 = l2.
Proof. intros H. apply list_eq. intros i. specialize (H (Z.of_nat i) ltac:(lia)). by rewrite Nat2Z.id in H. Qed.

Lemma erased_erased fl a n k :
  0 <= a → 0 <= n → 0 <= k → a + n + k <= strlen fl → erased (erased fl a n) (a + n) k = erased fl a (n + k).
Proof.
  intros. apply list_eq_Z. intros i Hi. rewrite !lookup_erased by (rewrite ?strlen_erased; lia).
  repeat case_decide; (done || lia).
Qed.

Lemma erased_none fl a : 0 <= a → erased fl a 0 = fl.
Proof. intros. unfold erased, splice. cbn. rewrite Nat.add_0_r. apply take_drop. Qed.

Section erasing.
Context `{Hchip : NorChip} (sizes : list Z) `{!NorChipOk (sectors 0 sizes)}.
Hypothesis sizes_pos : Forall (λ z, 1024 <= z) sizes.

Lemma sizes_pos' : Forall (λ z, 0 < z) sizes.
Proof. eapply Forall_impl; [exact sizes_pos|]. cbn. lia. Qed.

Lemma erase_loop_spec mid pre post fuel s :
  sizes = pre ++ mid ++ post → zsum sizes < 2 ^ 31 → strlen (flash s) = zsum sizes → nor_ops s = true →
  nor_sector_map s = sectors 0 sizes → (length mid <= fuel)%nat →
  ∃ s', erase_loop fuel (zsum pre) (zsum mid) s = Done (true, s') ∧
        flash s' = erased (flash s) (zsum pre) (zsum mid) ∧ same_but_flash s s' ∧ (idle s → idle s').
Proof.
  revert pre fuel s. induction mid as [|z mid IH]; intros pre fuel s El Hb Hfl Hops Hmap Hfuel.
  { exists s. split; [by destruct fuel|]. split; [|split; [apply same_refl|done]]. rewrite erased_none; [done|].
    apply zsum_nonneg. pose proof sizes_pos' as Hp. rewrite El in Hp. apply Forall_app in Hp. tauto. }
  destruct fuel as [|fuel]; [cbn in Hfuel; lia|]. pose proof sizes_pos' as Hp. pose proof sizes_pos as Hk. rewrite El in Hp, Hk.
  apply Forall_app in Hp as [Hpre Hp]. apply Forall_app in Hk as [_ Hk]. cbn [app] in Hp, Hk, El.
  apply Forall_cons in Hp as [Hz Hp]. apply Forall_cons in Hk as [Hz' _]. apply Forall_app in Hp as [Hmid Hpost].
  pose proof (zsum_nonneg _ Hpre). pose proof (zsum_nonneg _ Hmid). pose proof (zsum_nonneg _ Hpost).
  assert (Esum : zsum sizes = zsum pre + (z + (zsum mid + zsum post))) by (by rewrite El, zsum_app, zsum_cons, zsum_app).
  cbn [erase_loop]. rewrite zsum_cons, (proj2 (Z.leb_gt _ _)) by lia. rewrite Hmap.
  assert (Hf : pl_nor_map_sector (sectors 0 sizes) (zsum pre) = Some (mk_sector (0 + zsum pre) z)).
  { rewrite El. apply map_sector_found; [rewrite <-El; apply sizes_pos'|lia|rewrite <-El; lia|lia]. }
  rewrite Hf. cbn [start_addr sec_size]. rewrite Z.add_0_l.
  assert (Hin : mk_sector (zsum pre) z ∈ sectors 0 sizes).
  { rewrite El. apply (sectors_elem 0). }
  destruct (erase_one_block (sectors 0 sizes) (mk_sector (zsum pre) z) s Hops Hin) as (s1 & E1 & F1 & S1 & I1); cbn [start_addr sec_size] in *; [lia..|].
  rewrite E1. cbn [mbind exec_bind Z.ltb Z.compare].
  pose proof S1 as (_ & _ & _ & Ho & Hm & _ & _ & _).
  unfold u32. rewrite Z.mod_small, s32_id by lia.
  destruct (IH (pre ++ [z]) fuel s1) as (s2 & E2 & F2 & S2 & I2); [rewrite El, <-app_assoc; done|done| |congruence|congruence|cbn in Hfuel; lia|].
  { rewrite F1, strlen_erased by lia. done. }
  assert (Ez : zsum (pre ++ [z]) = zsum pre + z) by (rewrite zsum_app; cbn; lia). rewrite Ez in E2, F2.
  exists s2. replace (z + zsum mid - z) with (zsum mid) by lia. split; [exact E2|]. split; [|split; [by eapply same_trans|auto]].
  rewrite F2, F1, erased_erased by lia. done.
Qed.

(** The lists of the sectors before, in and behind a range. *)
Lemma length_zsum_le l : Forall (λ z, 1024 <= z) l → Z.of_nat (length l) <= zsum l / 1024.
Proof.
  intros H. apply Z.div_le_lower_bound; [lia|]. induction H as [|z l Hz _ IH]; [done|]. rewrite zsum_cons. cbn [length]. lia.
Qed.

Lemma erase_range (pre mid post : list Z) (s : nor) :
  sizes = pre ++ mid ++ post → zsum sizes < 2 ^ 31 →
  nor_sector_map s = sectors 0 sizes → total_size s = zsum sizes → strlen (flash s) = zsum sizes →
  nor_ops s = true → ctl_sem s = false → signals s = [] →
  0 <= zsum pre ∧ 0 <= zsum mid ∧ zsum pre + zsum mid <= zsum sizes ∧
  ∃ s', pl_nor_flash_erase (zsum pre) (zsum mid) s = Done (0, MTD_ERASE_DONE, s') ∧
    flash s' = erased (flash s) (zsum pre) (zsum mid) ∧ same_but_flash s s' ∧ (idle s → idle s').
Proof.
  intros El Hb Hmap Htot Hfl Hops Hsem Hsig. pose proof sizes_pos' as Hp. pose proof sizes_pos as Hk. rewrite El in Hp, Hk.
  apply Forall_app in Hp as [Hpre Hp]. apply Forall_app in Hp as [Hmid Hpost]. apply Forall_app in Hk as [_ Hk]. apply Forall_app in Hk as [Hk _].
  pose proof (zsum_nonneg _ Hpre). pose proof (zsum_nonneg _ Hmid). pose proof (zsum_nonneg _ Hpost).
  assert (Esum : zsum sizes = zsum pre + (zsum mid + zsum post)) by (by rewrite El, !zsum_app).
  split; [lia|]. split; [lia|]. split; [lia|].
  unfold pl_nor_flash_erase. rewrite Htot, (proj2 (Z.ltb_ge _ _)) by lia. unfold u32. rewrite Z.mod_small, (proj2 (Z.ltb_ge _ _)) by lia.
  unfold down_interruptible. rewrite Hsig, Hsem. cbn [mbind exec_bind tail]. rewrite s32_id by lia.
  set (s0 := with_sem true _).
  destruct (erase_loop_spec mid pre post (Z.to_nat (zsum mid / 1024) + 1) s0) as (s1 & E1 & F1 & S1 & I1); [done..| |].
  { pose proof (length_zsum_le mid Hk). lia. }
  rewrite E1. cbn [mbind exec_bind]. eexists. split; [done|]. split; [exact F1|]. split; [|exact I1].
  destruct S1 as (S1 & S2 & S3 & S4 & S5 & S6 & S7 & S8). split_and!; try done. by rewrite Hsig.
Qed.

(** A range that begins and ends with a sector is erased: every byte of
    it is 255 afterwards and no other byte is changed; the request is done, and the
    driver is free again. *)
Theorem erase_clears (pre mid post : list Z) (s : nor) :
  sizes = pre ++ mid ++ post → zsum sizes < 2 ^ 31 →
  nor_sector_map s = sectors 0 sizes → total_size s = zsum sizes → strlen (flash s) = zsum sizes →
  nor_ops s = true → ctl_sem s = false → signals s = [] →
  ∃ s', pl_nor_flash_erase (zsum pre) (zsum mid) s = Done (0, MTD_ERASE_DONE, s') ∧
    (∀ i, 0 <= i → flash s' !! Z.to_nat i = if decide (zsum pre <= i < zsum pre + zsum mid) then Some 255 else flash s !! Z.to_nat i) ∧
    ctl_sem s' = false ∧ far_nor (ram s) (ram s').
Proof.
  intros El Hb Hmap Htot Hfl Hops Hsem Hsig.
  destruct (erase_range pre mid post s El Hb Hmap Htot Hfl Hops Hsem Hsig) as (H1 & H2 & H3 & s' & E & F & S & I).
  exists s'. split; [done|]. split; [intros i Hi; rewrite F; apply lookup_erased; lia|]. split; [|apply S].
  destruct S as (_ & -> & _). done.
Qed.

End erasing.
