(* ===== verification/NorTransfer.v ===== *)
(** * The flash driver: reading and writing

    How one transfer sets up the channel and the controller, that the chip then does
    what [NorChipOk] says, and from it what the read and the write function do.
    Further the cases in which they go wrong: transfers of two megabytes and more,
    and buffers that are not aligned. *)

From S2P Require Import Prelude Bus Dma DmaTheorems Nor NorTheorems.

Local Open Scope Z_scope.

(** Where input and output begins. *)
Definition IO : Z := 0xd8000000.

(** The table is a static array of the kernel. *)
Definition mdt_ok (mdt : Z) : Prop := mdt mod 4 = 0 ∧ PAGE_OFFSET <= mdt ∧ mdt + 8 * MDE_MAX_ENTRY <= IO.

(** Memory, but for the first entry of the table. *)
Definition low_same (mdt : Z) (m m' : bus) : Prop :=
  ∀ a, a < IO → a < mdt ∨ mdt + 8 <= a → byte_at m' a = byte_at m a.

Lemma low_trans mdt m1 m2 m3 : low_same mdt m1 m2 → low_same mdt m2 m3 → low_same mdt m1 m3.
Proof. intros H1 H2 a Ha Hm. rewrite H2, H1; done. Qed.

Lemma far_low mdt m m' : far_nor m m' → low_same mdt m m'.
Proof. intros H a Ha _. apply H. left. unfold IO, rNOR_BASE in *. lia. Qed.

(** The registers of the channel. *)
Definition dma_same (m m' : bus) : Prop := ∀ a, PL_DMA_BASE <= a < PL_DMA_BASE + 0x80 → byte_at m' a = byte_at m a.

Lemma far_dma m m' : far_nor m m' → dma_same m m'.
Proof. intros H a Ha. apply H. right. unfold PL_DMA_BASE, rNOR_BASE in *. lia. Qed.

Lemma far_entries mdt m m' base ns e i :
  mdt_ok mdt → 0 <= i → i + strlen ns <= MDE_MAX_ENTRY → far_nor m m' → entries m mdt i base ns e → entries m' mdt i base ns e.
Proof.
  intros (_ & _ & Hm) Hi Hn Hf. apply entries_frame. intros a Ha. apply Hf. left. unfold IO, rNOR_BASE in *. lia.
Qed.

(** The channel of the flash, as [pl_nor_init_dma] leaves it. *)
Definition ready (mdt : Z) (s : nor) : Prop :=
  nor_ops s = true ∧ rd 4 (ram s) (dma_reg DMA_MDT_REG DMA_PL_NOR) = virt_to_bus mdt ∧
  ∃ c, chans (dma s) !! Z.to_nat DMA_PL_NOR = Some c ∧ c_ops c = true ∧ c_lock c ≠ 0 ∧ c_using_sg c = true ∧ c_prolific_sg c = true.

(** ** Setting up *)

Section transfer.
Context `{Hchip : NorChip} (layout : list nor_sector_t) `{!NorChipOk layout}.
Variables (mdt : Z) (mde_default : Z → Z).
Hypothesis Hmdt : mdt_ok mdt.

(** Only the memory and the channels differ. *)
Definition only_dma (s s' : nor) : Prop := s' = with_dma (dma s') s.

Lemma setup_one mode buf n s :
  ready mdt s → 0 <= n < 2 ^ 21 →
  ∃ s1 c1, pl_setup_dma mdt mode [mk_iovec buf n] s = Done (n, s1) ∧ only_dma s s1 ∧
    chans (dma s1) !! Z.to_nat DMA_PL_NOR = Some c1 ∧
    c_mode c1 = mode ∧ c_ops c1 = true ∧ c_lock c1 ≠ 0 ∧ c_using_sg c1 = true ∧ c_prolific_sg c1 = true ∧
    entries (ram s1) mdt 0 (virt_to_bus buf) [n] 1 ∧
    rd 4 (ram s1) (dma_reg DMA_MDT_REG DMA_PL_NOR) = virt_to_bus mdt ∧
    dma_readb DMA_IDX_REG DMA_PL_NOR (ram s1) = 0 ∧
    low_same mdt (ram s) (ram s1) ∧ (∀ r, 0 <= r <= 0x58 → nreg (ram s1) r = nreg (ram s) r).
Proof.
  intros (_ & Hreg & c & Hc & Ho & Hl & Hu & Hp) Hn. destruct Hmdt as (M4 & M1 & M2).
  unfold MDE_MAX_ENTRY, IO in M2. unfold PAGE_OFFSET in M1.
  unfold pl_setup_dma, set_dma_mode. rewrite (set_chan_lookup _ c) by done. cbn [mbind exec_bind setup_loop].
  change (MDE_MAX_ENTRY <=? 0) with false. cbn [iov_base iov_len length Z.of_nat].
  rewrite writel_done by (unfold mde_saddr; zdm). cbn [mbind exec_bind].
  rewrite writel_done by (unfold mde_flag; zdm). cbn [mbind exec_bind]. change (Z.of_nat 1 - 1) with 0.
  rewrite readl_done by (unfold mde_flag; zdm). cbn [mbind exec_bind]. rewrite writel_done by (unfold mde_flag; zdm). cbn [mbind exec_bind].
  change (Z.shiftl 1 MDE_VALID_SHIFT) with MDT_FLAG_V.
  change (Z.shiftl 1 MDE_EMDE_SHIFT) with MDT_FLAG_E. change MDE_NXT_SHIFT with MDT_FLAG_NXT_SHIFT.
  rewrite flags_lor, s32_id by lia. change (0 + n) with n.
  set (d := set_dma_mde_idx DMA_PL_NOR 0 _).
  assert (Hd : mem d = dma_writeb 0 DMA_IDX_REG DMA_PL_NOR (ram s)) by done. rewrite Hd. clear Hd.
  set (m0 := dma_writeb 0 DMA_IDX_REG DMA_PL_NOR (ram s)). set (m1 := wr 4 (virt_to_bus buf) (mde_saddr mdt 0) m0).
  set (m2 := wr 4 (flags 0 n 0) (mde_flag mdt 0) m1).
  assert (F2 : rd 4 m2 (mde_flag mdt 0) = flags 0 n 0).
  { unfold m2. rewrite rd_wr_same. apply Z.mod_small. apply flags_fields; lia. }
  rewrite F2, flags_end by lia. set (m3 := wr 4 (flags 0 n 1) (mde_flag mdt 0) m2).
  assert (B : ∀ a, (a < mdt ∨ mdt + 8 <= a) → byte_at m3 a = byte_at m0 a).
  { intros a Ha. unfold m3, m2, m1. rewrite !byte_at_wr, !decide_False; [done|unfold mde_saddr, mde_flag; lia..]. }
  assert (B0 : ∀ a, a ≠ dma_reg DMA_IDX_REG DMA_PL_NOR → byte_at m0 a = byte_at (ram s) a).
  { intros a Ha. unfold m0, dma_writeb, writeb. rewrite byte_at_insert, decide_False; [done|congruence]. }
  unfold dma_reg, PL_DMA_BASE, DMA_IDX_REG, DMA_PL_NOR in B0.
  eexists (with_dma (with_mem m3 d) s), _. split; [done|]. split; [done|].
  split; [cbn; rewrite list_lookup_insert_eq; [done|by eapply lookup_lt_Some]|].
  split; [done|]. do 4 (split; [done|]). change (ram (with_dma (with_mem m3 d) s)) with m3.
  split; [|split; [|split; [|split]]].
  - split.
    + unfold m3, m2. rewrite !rd_wr_other by (unfold mde_saddr, mde_flag; lia). unfold m1. rewrite rd_wr_same.
      apply Z.mod_small. unfold virt_to_bus, u32. apply Z.mod_pos_bound. lia.
    + unfold m3. rewrite rd_wr_same. apply Z.mod_small. apply flags_fields; lia.
  - rewrite <-Hreg. apply rd_ext. intros a Ha. unfold dma_reg, PL_DMA_BASE, DMA_MDT_REG, DMA_PL_NOR in Ha. rewrite B, B0 by lia. done.
  - unfold dma_readb, readb. rewrite B by (unfold dma_reg, PL_DMA_BASE, DMA_IDX_REG, DMA_PL_NOR; lia).
    unfold m0, dma_writeb, writeb. by rewrite byte_at_insert, decide_True.
  - intros a Ha Hm. unfold IO in Ha. rewrite B, B0 by lia. done.
  - intros r Hr. unfold nreg. apply rd_ext. intros a Ha. unfold rNOR_BASE in Ha. rewrite B, B0 by lia. done.
Qed.

Lemma bus_virt a : PAGE_OFFSET <= a < 2 ^ 32 → bus_to_virt (virt_to_bus a) = a.
Proof. unfold bus_to_virt, virt_to_bus, u32, PAGE_OFFSET. intros H. rewrite (Z.mod_small (a - _)) by lia. rewrite Z.mod_small by lia. lia. Qed.

Lemma walk_one m table b n : 0 <= n < 2 ^ 21 → entries m table 0 b [n] 1 → mde_walk 1 m table 0 = Some [(b, n)].
Proof.
  intros Hn [H1 H2]. cbn [mde_walk]. rewrite H1, H2. destruct (flags_fields 0 n 1) as (F1 & _ & F3 & F4 & _); [lia..|]. by rewrite F1, F3, F4.
Qed.

(** The memory when the command is given: the interrupts' mask, the channel, the
    registers of the command. *)
Definition armed (mode : Z) (l : list (Z * Z)) (m : bus) : bus :=
  wrs l (chn_enable DMA_PL_NOR mode (writeb NOR_CMD_INTR_MASK (rNOR_BASE + INTR_M_REG) m)).

Lemma armed_same mode l m : regs_ok l → low_same mdt m (armed mode l m).
Proof.
  intros Hl. eapply low_trans; [|apply far_low, wrs_far; done]. intros a Ha _. unfold IO in Ha.
  rewrite chn_enable_other by (unfold dma_reg, PL_DMA_BASE, DMA_CMD_REG, DMA_PL_NOR; lia).
  apply writeb_far; [unfold INTR_M_REG; lia|unfold rNOR_BASE; lia].
Qed.

Lemma armed_reg mode l m r :
  regs_ok l → r mod 4 = 0 → 0 <= r <= 0x58 → r ≠ INTR_M_REG →
  nreg (armed mode l m) r = match last_write l r with Some v => u32 v | None => nreg m r end.
Proof.
  intros Hl H4 Hr Hi. unfold armed. rewrite nreg_wrs by done. destruct (last_write l r); [done|].
  unfold nreg. apply rd_ext. intros a Ha. unfold rNOR_BASE in Ha.
  rewrite chn_enable_other by (unfold dma_reg, PL_DMA_BASE, DMA_CMD_REG, DMA_PL_NOR; lia).
  unfold writeb, rNOR_BASE. rewrite byte_at_insert, decide_False; [done|]. unfold INTR_M_REG in *. zdm.
Qed.

Lemma armed_ready mode l m b n :
  regs_ok l → 0 <= n < 2 ^ 21 → entries m mdt 0 b [n] 1 →
  rd 4 m (dma_reg DMA_MDT_REG DMA_PL_NOR) = virt_to_bus mdt → dma_readb DMA_IDX_REG DMA_PL_NOR m = 0 →
  dma_ready (armed mode l m) (mode =? DMA_MODE_READ) b n ∧
  rd 4 (armed mode l m) (dma_reg DMA_MDT_REG DMA_PL_NOR) = virt_to_bus mdt.
Proof.
  intros Hl Hn He Hreg Hidx. destruct Hmdt as (M4 & M1 & M2). unfold MDE_MAX_ENTRY, IO, PAGE_OFFSET in *.
  set (m1 := writeb NOR_CMD_INTR_MASK (rNOR_BASE + INTR_M_REG) m). set (m2 := chn_enable DMA_PL_NOR mode m1).
  assert (F1 : far_nor m m1) by (by apply writeb_far). assert (F2 : far_nor m2 (armed mode l m)) by (by apply wrs_far).
  assert (Hr : ∀ a, PL_DMA_BASE <= a < PL_DMA_BASE + 0x80 → a ≠ dma_reg DMA_CMD_REG DMA_PL_NOR → byte_at (armed mode l m) a = byte_at m a).
  { intros a Ha Hne. rewrite (far_dma _ _ F2) by done. unfold m2. rewrite chn_enable_other by done. by apply far_dma. }
  assert (Hmdtreg : rd 4 (armed mode l m) (dma_reg DMA_MDT_REG DMA_PL_NOR) = virt_to_bus mdt).
  { rewrite <-Hreg. apply rd_ext. intros a Ha. unfold dma_reg, PL_DMA_BASE, DMA_MDT_REG, DMA_CMD_REG, DMA_PL_NOR in *. apply Hr; lia. }
  split; [|done]. destruct (chn_enable_cmd DMA_PL_NOR mode m1) as [C7 C6]. cbv zeta in C7, C6.
  assert (Hcmd : dma_readb DMA_CMD_REG DMA_PL_NOR (armed mode l m) = dma_readb DMA_CMD_REG DMA_PL_NOR m2).
  { unfold dma_readb, readb. apply (far_dma _ _ F2). unfold dma_reg, PL_DMA_BASE, DMA_CMD_REG, DMA_PL_NOR. lia. }
  split; [|split; [by rewrite Hcmd|split; [by rewrite Hcmd|]]].
  - rewrite <-Hidx. unfold dma_readb, readb, dma_reg, PL_DMA_BASE, DMA_IDX_REG, DMA_CMD_REG, DMA_PL_NOR in *. apply Hr; lia.
  - rewrite Hmdtreg, bus_virt by (unfold PAGE_OFFSET; lia). apply walk_one; [done|].
    eapply entries_frame; [|exact He]. intros a Ha. unfold strlen in Ha. cbn in Ha.
    rewrite F2 by (unfold rNOR_BASE; lia). unfold m2. rewrite chn_enable_other by (unfold dma_reg, PL_DMA_BASE, DMA_CMD_REG, DMA_PL_NOR; lia).
    apply F1. unfold rNOR_BASE. lia.
Qed.

(** ** One transfer *)

(** What the controller makes of the registers: memory, flash and a status without an
    error. *)
Definition does_transfer (m : bus) (fl : list Z) (m' : bus) (fl' : list Z) : Prop :=
  ∃ st, chip_run m fl = (dma_done m', fl', [st]) ∧ 0 < st < 256 ∧ Z.land st 1 = 0.

(** What a transfer leaves as it was. *)
Definition kept (s s' : nor) : Prop :=
  ctl_sem s' = ctl_sem s ∧ signals s' = signals s ∧ nor_sector_map s' = nor_sector_map s ∧
  total_size s' = total_size s ∧ num_erase_regions s' = num_erase_regions s.

Lemma only_dma_kept s s' : only_dma s s' → kept s s'.
Proof. unfold only_dma. intros ->. done. Qed.

Lemma kept_trans s1 s2 s3 : kept s1 s2 → kept s2 s3 → kept s1 s3.
Proof. intros (?&?&?&?&?) (?&?&?&?&?). split_and!; congruence. Qed.

(** The memory after the transfer is over: the mask is set, the channel is off and the
    command, when the function resets it, is gone. *)
Definition disarmed (l : list (Z * Z)) (m : bus) : bus :=
  wrs l (dma_done (writeb NOR_INTR_MASKALL (rNOR_BASE + INTR_M_REG) (dma_done m))).

Lemma dma_done_other m a : a ≠ dma_reg DMA_CMD_REG DMA_PL_NOR → byte_at (dma_done m) a = byte_at m a.
Proof. intros H. unfold dma_done, dma_writeb, writeb. rewrite byte_at_insert, decide_False; [done|congruence]. Qed.

Lemma dma_done_residue m : Z.land (dma_readb DMA_CMD_REG DMA_PL_NOR (dma_done m)) DMA_CHN_ENABLE = 0.
Proof.
  unfold dma_done at 1, dma_readb at 1, dma_writeb, readb, writeb. rewrite byte_at_insert, decide_True by done.
  apply Z.bits_inj'. intros i Hi. rewrite Z.bits_0, Z.land_spec. unfold DMA_CHN_ENABLE. destruct (decide (i = 7)) as [->|].
  - unfold u8. rewrite Z.mod_pow2_bits_low, Z.land_spec, Z.lnot_spec, Z.pow2_bits_true by lia. by rewrite andb_false_r.
  - rewrite (Z.pow2_bits_false 7) by lia. apply andb_false_r.
Qed.

Lemma disarmed_low l m : regs_ok l → low_same mdt m (disarmed l m).
Proof.
  intros Hl. eapply low_trans; [|apply far_low, wrs_far; done]. intros a Ha _. unfold IO in Ha.
  assert (a ≠ dma_reg DMA_CMD_REG DMA_PL_NOR) by (unfold dma_reg, PL_DMA_BASE, DMA_CMD_REG, DMA_PL_NOR; lia).
  rewrite dma_done_other by done. rewrite (writeb_far _ INTR_M_REG) by (unfold INTR_M_REG, rNOR_BASE; lia). by apply dma_done_other.
Qed.

Lemma disarmed_mdt_reg l m :
  regs_ok l → rd 4 (disarmed l m) (dma_reg DMA_MDT_REG DMA_PL_NOR) = rd 4 m (dma_reg DMA_MDT_REG DMA_PL_NOR).
Proof.
  intros Hl. apply rd_ext. intros a Ha. unfold dma_reg, PL_DMA_BASE, DMA_MDT_REG, DMA_PL_NOR in Ha.
  assert (a ≠ dma_reg DMA_CMD_REG DMA_PL_NOR) by (unfold dma_reg, PL_DMA_BASE, DMA_CMD_REG, DMA_PL_NOR; lia).
  unfold disarmed. rewrite (wrs_far l) by (try done; unfold rNOR_BASE; lia). rewrite dma_done_other by done.
  rewrite (writeb_far _ INTR_M_REG) by (unfold INTR_M_REG, rNOR_BASE; lia). by apply dma_done_other.
Qed.

Lemma disarmed_com l m : regs_ok l → nreg (disarmed l m) COM_REG = match last_write l COM_REG with Some v => u32 v | None => nreg m COM_REG end.
Proof.
  intros Hl. unfold disarmed. rewrite nreg_wrs by done. destruct (last_write l COM_REG); [done|].
  unfold nreg. apply rd_ext. intros a Ha. unfold rNOR_BASE, COM_REG in Ha.
  assert (a ≠ dma_reg DMA_CMD_REG DMA_PL_NOR) by (unfold dma_reg, PL_DMA_BASE, DMA_CMD_REG, DMA_PL_NOR; lia).
  rewrite dma_done_other by done. unfold writeb. rewrite byte_at_insert, decide_False by (unfold rNOR_BASE, INTR_M_REG; lia).
  by apply dma_done_other.
Qed.

Definition hi_same (m m' : bus) : Prop := ∀ a, IO <= a → byte_at m' a = byte_at m a.

Lemma pl_enable_mde ch c s :
  0 <= ch < 16 → chans s !! Z.to_nat ch = Some c → c_ops c = true → c_lock c ≠ 0 → c_using_sg c = true → c_prolific_sg c = true →
  enable_dma mde_default ch s = Done (with_mem (chn_enable ch (c_mode c) (mem s)) (put_chan ch (with_active true c) s)).
Proof.
  intros Hch Hc Ho Hl Hu Hp. pose proof (lookup_lt_Some _ _ _ Hc). unfold enable_dma.
  rewrite (get_chan_lookup ch c s), (set_chan_lookup ch c) by (done || lia). cbn [mbind exec_bind].
  destruct (Z.eqb_spec (c_lock c) 0); [done|]. rewrite Ho. unfold pl_enable_dma, MAX_DMA_CHANNELS.
  rewrite (proj2 (Z.leb_gt _ _)), get_put by lia. cbn [mbind exec_bind c_using_sg c_prolific_sg with_active]. by rewrite Hu, Hp.
Qed.

Lemma disable_active ch c s :
  0 <= ch < 16 → chans s !! Z.to_nat ch = Some c → c_ops c = true → c_lock c ≠ 0 → c_active c = true →
  disable_dma ch s = Done (with_mem (dma_writeb (Z.land (dma_readb DMA_CMD_REG ch (mem s)) (Z.lnot DMA_CHN_ENABLE)) DMA_CMD_REG ch (mem s))
                             (put_chan ch (with_active false c) s)).
Proof.
  intros Hch Hc Ho Hl Ha. unfold disable_dma. rewrite (get_chan_lookup ch c s) by (done || lia). cbn [mbind exec_bind].
  destruct (Z.eqb_spec (c_lock c) 0); [done|]. rewrite Ha, (set_chan_lookup ch c) by (done || lia). cbn [mbind exec_bind]. rewrite Ho.
  unfold pl_disable_dma, MAX_DMA_CHANNELS. by rewrite (proj2 (Z.leb_gt _ _)) by lia.
Qed.

Lemma through_ops {A} (r : nor → exec A) s : nor_ops s = true → through r s = r s.
Proof. intros H. unfold through. by rewrite H. Qed.

Section one.
Variables (mode : Z) (cmd : Z → Z → phase → nor → Z * nor) (addr buf n : Z) (lstart lend : list (Z * Z)) (s : nor) (fl' : list Z) (Q : bus → bus → Prop).
Hypothesis Hready : ready mdt s.
Hypothesis Hn : 0 <= n < 2 ^ 21.
Hypothesis Hstart : ∀ s, cmd (u32 addr) n DMA_START s = (0, nor_writes lstart s).
Hypothesis Hend : ∀ s, cmd (u32 addr) n DMA_END s = (0, nor_writes lend s).
Hypothesis Hls : regs_ok lstart.
Hypothesis Hle : regs_ok lend.

(** What the chip is found to do with what was set up. *)
Hypothesis Hstep : ∀ m,
  dma_ready m (mode =? DMA_MODE_READ) (virt_to_bus buf) n → low_same mdt (ram s) m →
  (∀ r, r mod 4 = 0 → 0 <= r <= 0x58 → r ≠ INTR_M_REG →
        nreg m r = match last_write lstart r with Some v => u32 v | None => nreg (ram s) r end) →
  ∃ m', does_transfer m (flash s) m' fl' ∧ hi_same m m' ∧ Q m m'.

Lemma transfer_spec rc :
  ∃ s' m m', transfer mdt mde_default mode cmd addr buf n rc s = Done (Some rc, s') ∧ flash s' = fl' ∧ ready mdt s' ∧ kept s s' ∧
    ram s' = disarmed lend m' ∧ low_same mdt (ram s) m ∧ hi_same m m' ∧ Q m m' ∧
    nreg m COM_REG = match last_write lstart COM_REG with Some v => u32 v | None => nreg (ram s) COM_REG end.
Proof.
  destruct (setup_one mode buf n s Hready Hn) as (s1 & c1 & E1 & O1 & Hc1 & Hm1 & Ho1 & Hl1 & Hu1 & Hp1 & He1 & Hr1 & Hi1 & L1 & N1).
  assert (Hops : nor_ops s1 = true) by (rewrite O1; apply Hready).
  unfold transfer. rewrite E1. cbn [mbind exec_bind]. rewrite Z.eqb_refl. cbn [negb].
  set (m1 := writeb NOR_CMD_INTR_MASK (rNOR_BASE + INTR_M_REG) (ram s1)).
  change (NOR_INTR_SET_MASK NOR_CMD_INTR_MASK (with_intr 0 s1)) with (with_ram m1 (with_intr 0 s1)).
  change (dma (with_ram m1 (with_intr 0 s1))) with (with_mem m1 (dma s1)).
  rewrite (pl_enable_mde DMA_PL_NOR c1) by (done || unfold DMA_PL_NOR; lia). cbn [mbind exec_bind]. rewrite Hm1.
  change (mem (with_mem m1 (dma s1))) with m1.
  set (c2 := with_active true c1). set (d2 := with_mem (chn_enable DMA_PL_NOR mode m1) _).
  rewrite through_ops, Hstart by exact Hops. cbn [mbind exec_bind].
  rewrite nor_writes_eq. change (wrs lstart (ram (with_dma d2 (with_ram m1 (with_intr 0 s1))))) with (armed mode lstart (ram s1)).
  set (s2 := with_ram (armed mode lstart (ram s1)) _).
  destruct (armed_ready mode lstart (ram s1) _ _ Hls Hn He1 Hr1 Hi1) as [A1 A2].
  assert (Lm : low_same mdt (ram s) (armed mode lstart (ram s1))) by (eapply low_trans; [exact L1|by apply armed_same]).
  assert (Nm : ∀ r, r mod 4 = 0 → 0 <= r <= 0x58 → r ≠ INTR_M_REG → nreg (armed mode lstart (ram s1)) r =
     match last_write lstart r with Some v => u32 v | None => nreg (ram s) r end).
  { intros r R4 Rr Ri. rewrite armed_reg by done. destruct (last_write lstart r); [done|]. by apply N1. }
  destruct (Hstep _ A1 Lm Nm) as (m' & (st & Hrun & Hst & Hst1) & Hhi & HQ).
  unfold wait_intr. change (ram s2) with (armed mode lstart (ram s1)). change (flash s2) with (flash s1).
  assert (Hfl : flash s1 = flash s) by (by rewrite O1). rewrite Hfl, Hrun.
  rewrite interrupts_one by done. cbn [mbind exec_bind]. set (s3 := with_intr st _). change (intr_status s3) with st. rewrite Hst1. cbn [Z.eqb].
  assert (Hl : (Z.to_nat DMA_PL_NOR < length (chans (dma s1)))%nat) by (by eapply lookup_lt_Some).
  assert (Hc3 : chans (dma s3) !! Z.to_nat DMA_PL_NOR = Some c2) by (cbn; by rewrite list_lookup_insert_eq).
  unfold get_dma_residue. rewrite (get_chan_lookup _ c2) by done. cbn [mbind exec_bind]. change (c_ops c2) with (c_ops c1). rewrite Ho1.
  unfold pl_get_dma_residue. change (MAX_DMA_CHANNELS <=? DMA_PL_NOR) with false. change (mem (dma s3)) with (dma_done m').
  rewrite dma_done_residue. cbn [mbind exec_bind Z.eqb].
  unfold NOR_INTR_SET_MASK, nor_writeb. change (ram s3) with (dma_done m').
  set (m4 := writeb NOR_INTR_MASKALL (rNOR_BASE + INTR_M_REG) (dma_done m')).
  change (dma (with_ram m4 s3)) with (with_mem m4 (dma s3)).
  rewrite (disable_active DMA_PL_NOR c2) by (done || unfold DMA_PL_NOR; lia). cbn [mbind exec_bind].
  change (mem (with_mem m4 (dma s3))) with m4.
  change (dma_writeb (Z.land (dma_readb DMA_CMD_REG DMA_PL_NOR m4) (Z.lnot DMA_CHN_ENABLE)) DMA_CMD_REG DMA_PL_NOR m4) with (dma_done m4).
  set (s4 := with_dma _ (with_ram m4 s3)). rewrite through_ops, Hend by exact Hops. cbn [mbind exec_bind].
  rewrite nor_writes_eq. change (wrs lend (ram s4)) with (disarmed lend m').
  exists (with_ram (disarmed lend m') s4), (armed mode lstart (ram s1)), m'.
  split; [done|]. split; [done|]. split; [|split; [exact (only_dma_kept s s1 O1)|]].
  - split; [done|]. split.
    + rewrite with_ram_ram, disarmed_mdt_reg, <-A2 by done. apply rd_ext. intros a Ha. apply Hhi.
      unfold dma_reg, PL_DMA_BASE, DMA_MDT_REG, DMA_PL_NOR, IO in *. lia.
    + exists (with_active false c2). split; [cbn; rewrite list_lookup_insert_eq; [done|by rewrite length_insert]|]. done.
  - split; [done|]. split; [done|]. split; [done|]. split; [done|]. by apply Nm.
Qed.

End one.

(** ** Reading and writing *)

(** A buffer in the memory of the kernel, apart from the table, for whole lines. *)
Definition buffer_ok (buf n : Z) : Prop :=
  buf mod 16 = 0 ∧ n mod 16 = 0 ∧ 0 <= n < 2 ^ 21 ∧ PAGE_OFFSET <= buf ∧ buf + n <= IO ∧ (buf + n <= mdt ∨ mdt + 8 <= buf).

(** The driver before and after a call. *)
Definition at_rest (s : nor) : Prop := ready mdt s ∧ idle s ∧ ctl_sem s = false ∧ signals s = [] ∧ total_size s = strlen (flash s) ∧ total_size s < 2 ^ 31.

Lemma buffer_aligned buf n : buffer_ok buf n → Z.land buf 0x0f = 0 ∧ virt_to_bus buf mod 16 = 0 ∧ bus_to_virt (virt_to_bus buf) = buf.
Proof.
  intros (H1 & H2 & H3 & H4 & H5 & _). unfold PAGE_OFFSET, IO in *. split.
  - change 0x0f with (Z.ones 4). by rewrite Z.land_ones.
  - split; [|apply bus_virt; unfold PAGE_OFFSET; lia]. unfold virt_to_bus, u32, PAGE_OFFSET. rewrite (Z.mod_small _ (2 ^ 32)) by lia. zdm.
Qed.

Lemma lor_size k n : (k = 30 ∨ k = 31) → 0 <= n < 2 ^ 21 → u32 (Z.lor (2 ^ k) n) = 2 ^ k + n.
Proof.
  intros Hk Hn. destruct Hk as [-> | ->].
  - rewrite (lor_add _ _ 30) by (try lia; by exists 1). apply Z.mod_small. lia.
  - rewrite (lor_add _ _ 31) by (try lia; by exists 1). apply Z.mod_small. lia.
Qed.

(** The loop runs once. *)
Lemma loop_once mode cmd addr buf n s s' :
  0 < n < 2 ^ 21 → transfer mdt mde_default mode cmd addr buf n 0 s = Done (Some 0, s') →
  transfer_loop mdt mde_default (loop_fuel n) mode cmd addr buf n 0 0 s = Done (0, n, s').
Proof.
  intros Hn E. unfold loop_fuel. replace (n / MAX_DMA_CNT + 1) with 1 by (unfold MAX_DMA_CNT; zdm).
  change (Z.to_nat 1) with 1%nat. cbn [transfer_loop]. rewrite (proj2 (Z.leb_gt _ _)) by lia.
  rewrite (proj2 (Z.ltb_ge MAX_DMA_CNT n)) by (unfold MAX_DMA_CNT; lia). rewrite E. cbn [mbind exec_bind].
  rewrite Z.sub_diag. cbn [Z.leb Z.compare]. do 2 f_equal. unfold u32. rewrite Z.mod_small by lia. done.
Qed.

(** A transfer of nothing. *)
Lemma loop_none mode cmd addr buf s fuel : transfer_loop mdt mde_default fuel mode cmd addr buf 0 0 0 s = Done (0, 0, s).
Proof. by destruct fuel. Qed.

Lemma programmed_nil fl a : 0 <= a → programmed fl a [] = fl.
Proof. intros. unfold programmed, splice, slice. cbn. rewrite zip_with_nil_r. cbn. rewrite Nat.add_0_r. apply take_drop. Qed.

Lemma strlen_programmed fl a l : 0 <= a → a + strlen l <= strlen fl → strlen (programmed fl a l) = strlen fl.
Proof.
  intros Ha Hl. unfold strlen at 1, programmed. rewrite length_splice; [done|done|].
  pose proof (length_slice fl a (strlen l) Ha ltac:(unfold strlen; lia) Hl) as E. unfold strlen in *. rewrite length_zip_with. lia.
Qed.

Lemma write_transfer_taken addr buf n s0 :
  let s := with_sem true s0 in
  at_rest s0 → buffer_ok buf n → 0 <= addr → addr + n <= strlen (flash s) →
  ∃ s', transfer mdt mde_default DMA_MODE_WRITE ppi_amd_cmd_write addr buf n 0 s = Done (Some 0, s') ∧
    flash s' = programmed (flash s) addr (bytes (ram s) buf n) ∧ ready mdt s' ∧ idle s' ∧ kept s s' ∧ low_same mdt (ram s) (ram s').
Proof.
  intros s (Hr & Hi & Hs & Hg & Ht & Ht') Hb Ha Hlen. destruct (buffer_aligned buf n Hb) as (B1 & B2 & B3). destruct Hb as (B4 & B5 & B6 & B7 & B8 & B9).
  assert (Hu : u32 addr = addr) by (apply Z.mod_small; cbn in Hlen; lia).
  set (l := [(ppi_write_wait_count, PPI_PRO_CNT_REG); (0x34, COM_REG); (0xAAA, ADDR_CFG1); (0xAA, DATA_CFG1); (0x555, ADDR_CFG2); (0x55, DATA_CFG2);
             (0xAAA, ADDR_CFG3); (0xA0, DATA_CFG3); (addr, NOR_ADDR_REG); (Z.lor 0x80000000 n, DMA_S_REG)]).
  assert (Hl : regs_ok l) by (unfold l; regs).
  destruct (transfer_spec DMA_MODE_WRITE ppi_amd_cmd_write addr buf n l [(0, COM_REG)] s
              (programmed (flash s) addr (bytes (ram s) buf n)) (λ m m', m' = m)) with (rc := 0)
    as (s' & m & m' & E & F & R & K & M & L & Hh & -> & Hc).
  - exact Hr.
  - exact B6.
  - intros x. by rewrite Hu.
  - intros x. reflexivity.
  - exact Hl.
  - regs.
  - intros m Hm Lm Nm. exists m. split; [|done]. unfold does_transfer.
    assert (Hcmd : program_cmd m addr n).
    { unfold program_cmd, cfg. repeat (apply Forall_cons_2; [rewrite Nm by done; cbn [last_write foldl l fst snd]; try reflexivity|]); [..|done].
      - exact Hu.
      - apply (lor_size 31); [by right|done]. }
    destruct (chip_programs m (flash s) addr n _ Hcmd Hm B2 B5 Hlen) as (st & Hrun & Hst). rewrite B3 in Hrun.
    exists st. split; [|exact Hst]. rewrite Hrun. do 3 f_equal. apply bytes_ext. intros x Hx. apply Lm; lia.
  - exists s'. do 3 (split; [done|]). split.
    + unfold idle. rewrite M, disarmed_com by regs. done.
    + split; [done|]. rewrite M. eapply low_trans; [exact L|]. apply disarmed_low. regs.
Qed.

Lemma low_put m a l : a + strlen l <= mdt ∨ mdt + 8 <= a → ∀ x, x < a ∨ a + strlen l <= x → byte_at (put m a l) x = byte_at m x.
Proof. intros _ x Hx. rewrite byte_at_put, decide_False; [done|lia]. Qed.

Lemma read_transfer_taken addr buf n s0 :
  let s := with_sem true s0 in
  at_rest s0 → buffer_ok buf n → 0 <= addr → addr + n <= strlen (flash s) →
  ∃ s', transfer mdt mde_default DMA_MODE_READ ppi_amd_cmd_read addr buf n 0 s = Done (Some 0, s') ∧
    flash s' = flash s ∧ ready mdt s' ∧ idle s' ∧ kept s s' ∧
    bytes (ram s') buf n = map u8 (slice (flash s) addr n) ∧
    (∀ x, x < IO → x < mdt ∨ mdt + 8 <= x → x < buf ∨ buf + n <= x → byte_at (ram s') x = byte_at (ram s) x).
Proof.
  intros s (Hr & Hi & Hs & Hg & Ht & Ht') Hb Ha Hlen. destruct (buffer_aligned buf n Hb) as (B1 & B2 & B3). destruct Hb as (B4 & B5 & B6 & B7 & B8 & B9).
  assert (Hu : u32 addr = addr) by (apply Z.mod_small; cbn in Hlen; lia).
  pose proof (length_slice (flash s) addr n Ha ltac:(lia) Hlen) as Hsl.
  set (l := [(addr, NOR_ADDR_REG); (Z.lor 0x40000000 n, DMA_S_REG)]).
  assert (Hl : regs_ok l) by (unfold l; regs).
  destruct (transfer_spec DMA_MODE_READ ppi_amd_cmd_read addr buf n l [] s
              (flash s) (λ m m', m' = put m buf (slice (flash s) addr n))) with (rc := 0)
    as (s' & m & m' & E & F & R & K & M & L & Hh & Hm' & Hc).
  - exact Hr.
  - exact B6.
  - intros x. by rewrite Hu.
  - intros x. by rewrite nor_writes_eq; destruct x as [[? ?] ? ? ? ? ? ? ? ?].
  - exact Hl.
  - constructor.
  - intros m Hm Lm Nm. exists (put m buf (slice (flash s) addr n)). split; [|split; [|done]].
    + assert (Hcmd : read_cmd m addr n).
      { unfold read_cmd, cfg. repeat (apply Forall_cons_2; [rewrite Nm by done; cbn [last_write foldl l fst snd]|]); [..|done].
        - exact Hi.
        - exact Hu.
        - apply (lor_size 30); [by left|done]. }
      destruct (chip_reads m (flash s) addr n _ Hcmd Hm B2 B5 Hlen) as (st & Hrun & Hst). rewrite B3 in Hrun. by exists st.
    + intros x Hx. apply low_put; lia.
  - exists s'. do 3 (split; [done|]). split.
    + unfold idle. rewrite M, disarmed_com by constructor. cbn [last_write foldl]. transitivity (nreg m COM_REG).
      * unfold nreg. apply rd_ext. intros x Hx. apply Hh. unfold rNOR_BASE, COM_REG, IO in *. lia.
      * rewrite Hc. exact Hi.
    + split; [done|]. assert (D : low_same mdt m' (ram s')) by (rewrite M; apply disarmed_low; constructor). split.
      * apply list_eq_Z. intros i Hx. destruct (decide (i < n)).
        -- rewrite lookup_bytes by lia. rewrite D, Hm', byte_at_put, decide_True by lia.
           replace (buf + i - buf) with i by lia. rewrite list_lookup_fmap.
           destruct (lookup_lt_is_Some_2 (slice (flash s) addr n) (Z.to_nat i)) as [v Hv]; [unfold strlen in Hsl; lia|]. by rewrite Hv.
        -- rewrite !lookup_ge_None_2; [done| |].
           ++ rewrite length_map. unfold strlen in Hsl. lia.
           ++ pose proof (length_bytes (ram s') buf n ltac:(lia)) as Hlb. unfold strlen in Hlb. lia.
      * intros x X1 X2 X3. rewrite D, Hm' by done. rewrite low_put by lia. by apply L.
Qed.

(** The part of both functions before the loop, for an aligned buffer. *)
Lemma down_free s : ctl_sem s = false → signals s = [] → down_interruptible s = Done (false, with_sem true s).
Proof. intros H1 H2. unfold down_interruptible. rewrite H1, H2. by destruct s; cbn in *; subst. Qed.

Lemma rest_taken s : at_rest s → ready mdt (with_sem true s) ∧ idle (with_sem true s).
Proof. intros (H1 & H2 & _). by split. Qed.

(** Writing, and that only the table, the registers and the flash change. *)
Lemma flash_write to buf n retlen s :
  at_rest s → buffer_ok buf n → 0 <= to → to + n <= strlen (flash s) →
  ∃ s', pl_nor_flash_write mdt mde_default to n retlen buf s = Done (0, n, s') ∧
    flash s' = programmed (flash s) to (bytes (ram s) buf n) ∧ at_rest s' ∧ low_same mdt (ram s) (ram s') ∧
    nor_sector_map s' = nor_sector_map s.
Proof.
  intros Hs Hb Ha Hlen. pose proof Hs as (Hr & Hi & Hsem & Hsig & Ht & Ht'). destruct (buffer_aligned buf n Hb) as (B1 & _ & _).
  unfold pl_nor_flash_write. rewrite Ht, (proj2 (Z.ltb_ge _ _)), down_free by (done || lia). cbn [mbind exec_bind].
  rewrite B1. cbn [Z.eqb negb mbind exec_bind]. rewrite Z.sub_0_r, !Z.add_0_r. pose proof Hb as (_ & _ & Hn & _).
  unfold u32. rewrite Z.mod_small by lia.
  assert (∃ s1, transfer_loop mdt mde_default (loop_fuel n) DMA_MODE_WRITE ppi_amd_cmd_write to buf n 0 0 (with_sem true s) = Done (0, n, s1) ∧
    flash s1 = programmed (flash s) to (bytes (ram s) buf n) ∧ ready mdt s1 ∧ idle s1 ∧ kept (with_sem true s) s1 ∧ low_same mdt (ram s) (ram s1))
    as (s1 & E & F & R & I & K & L).
  { destruct (decide (n = 0)) as [->|].
    - exists (with_sem true s). rewrite loop_none. split_and!; try done. cbn [flash with_sem]. by rewrite programmed_nil.
    - destruct (write_transfer_taken to buf n s Hs Hb Ha Hlen) as (s1 & E & H). exists s1. split; [|exact H]. apply loop_once; [lia|exact E]. }
  rewrite E. cbn [mbind exec_bind]. eexists. split; [done|]. destruct K as (K1 & K2 & K3 & K4 & K5). cbn in K2, K3, K4.
  split; [exact F|]. split; [|split; [exact L|exact K3]].
  assert (Hl : strlen (flash s1) = strlen (flash s)) by (rewrite F; apply strlen_programmed; (rewrite ?length_bytes; lia)).
  split; [exact R|]. split; [exact I|]. split; [done|]. cbn [signals total_size flash up with_sem]. rewrite K2, K4, Hl. done.
Qed.

Lemma flash_read from buf n retlen s :
  at_rest s → buffer_ok buf n → 0 <= from → from + n <= strlen (flash s) →
  ∃ s', pl_nor_flash_read mdt mde_default from n retlen buf s = Done (0, n, s') ∧
    flash s' = flash s ∧ at_rest s' ∧ bytes (ram s') buf n = map u8 (slice (flash s) from n) ∧
    (∀ x, x < IO → x < mdt ∨ mdt + 8 <= x → x < buf ∨ buf + n <= x → byte_at (ram s') x = byte_at (ram s) x).
Proof.
  intros Hs Hb Ha Hlen. pose proof Hs as (Hr & Hi & Hsem & Hsig & Ht & Ht'). destruct (buffer_aligned buf n Hb) as (B1 & _ & _).
  unfold pl_nor_flash_read. rewrite Ht, (proj2 (Z.ltb_ge _ _)), down_free by (done || lia). cbn [mbind exec_bind].
  rewrite B1. cbn [Z.eqb negb mbind exec_bind]. rewrite Z.sub_0_r, !Z.add_0_r. pose proof Hb as (_ & _ & Hn & _).
  unfold u32. rewrite Z.mod_small by lia.
  assert (∃ s1, transfer_loop mdt mde_default (loop_fuel n) DMA_MODE_READ ppi_amd_cmd_read from buf n 0 0 (with_sem true s) = Done (0, n, s1) ∧
    flash s1 = flash s ∧ ready mdt s1 ∧ idle s1 ∧ kept (with_sem true s) s1 ∧ bytes (ram s1) buf n = map u8 (slice (flash s) from n) ∧
    (∀ x, x < IO → x < mdt ∨ mdt + 8 <= x → x < buf ∨ buf + n <= x → byte_at (ram s1) x = byte_at (ram s) x))
    as (s1 & E & F & R & I & K & B & L).
  { destruct (decide (n = 0)) as [->|].
    - exists (with_sem true s). rewrite loop_none. split_and!; try done. 
    - destruct (read_transfer_taken from buf n s Hs Hb Ha Hlen) as (s1 & E & H). exists s1. split; [|exact H]. apply loop_once; [lia|exact E]. }
  rewrite E. cbn [mbind exec_bind]. eexists. split; [done|]. destruct K as (K1 & K2 & K3 & K4 & K5). cbn in K2, K3, K4.
  split; [exact F|]. split; [|split; [exact B|exact L]].
  split; [exact R|]. split; [exact I|]. split; [done|]. cbn [signals total_size flash up with_sem]. by rewrite K2, K4, F.
Qed.

End transfer.
