(* ===== verification/NorFlash.v ===== *)
(** * The flash as a whole

    A chip that behaves as the driver expects ([amd_chip], which shows that
    [NorChipOk] can be met), the round trip of an update through the three functions
    of the driver ([update_roundtrip]), and what goes wrong: transfers of two
    megabytes and more ([long_transfer_cut]), short reads into a buffer that is not
    aligned ([short_read_wraps]), the end of a write from one ([tail_not_written]). *)

From S2P Require Import Prelude Bus Dma DmaTheorems Nor NorTheorems NorTransfer.

Local Open Scope Z_scope.

(** ** A chip *)

Definition amd_chip (layout : list nor_sector_t) : NorChip := {|
  chip_run m fl :=
    let addr := nreg m NOR_ADDR_REG in
    let seg := mde_walk 1 m (bus_to_virt (rd 4 m (dma_reg DMA_MDT_REG DMA_PL_NOR))) 0 in
    if nreg m COM_REG =? 0x36 then
      match pl_nor_map_sector layout addr with
      | Some sec => (m, erased fl (start_addr sec) (sec_size sec), [0x0b])
      | None => (m, fl, [])
      end
    else if nreg m COM_REG =? 0x34 then
      match seg with Some [(b, n)] => (dma_done m, programmed fl addr (bytes m (bus_to_virt b) n), [0x0e]) | _ => (m, fl, []) end
    else
      match seg with Some [(b, n)] => (dma_done (put m (bus_to_virt b) (slice fl addr n)), fl, [0x0e]) | _ => (m, fl, []) end;
  chip_data m fl := default 0 (fl !! Z.to_nat (nreg m NOR_ADDR_REG)) |}.

Lemma amd_chip_ok sizes :
  Forall (λ z, 0 < z) sizes → zsum sizes < 2 ^ 32 → @NorChipOk (amd_chip (sectors 0 sizes)) (sectors 0 sizes).
Proof.
  intros Hp Hb. split; cbn [chip_run chip_data amd_chip].
  - intros m fl addr sec (Hc & Ha & _) Hsec Hin _. apply Forall_cons in Hc as [Hc _]. rewrite Hc, Ha. cbn [Z.eqb Pos.eqb].
    destruct (elem_sectors _ _ _ Hsec) as (pre & z & post & -> & ->). cbn [start_addr sec_size] in *.
    rewrite (map_sector_found pre z post) by (done || lia). exists 0x0b. split; [done|]. by vm_compute.
  - intros m fl addr n b Hc Hr _ _ _. unfold program_cmd, cfg in Hc.
    apply Forall_cons in Hc as [Hc Hc']. rewrite Hc. cbn [Z.eqb Pos.eqb]. destruct Hr as (_ & _ & _ & ->).
    assert (nreg m NOR_ADDR_REG = addr) as ->. { do 6 apply Forall_cons in Hc' as [_ Hc']. by apply Forall_cons in Hc' as [Hc' _]. }
    exists 0x0e. split; [done|]. by vm_compute.
  - intros m fl addr n b Hc Hr _ _ _. apply Forall_cons in Hc as [Hc Hc']. rewrite Hc. cbn [Z.eqb Pos.eqb].
    destruct Hr as (_ & _ & _ & ->). apply Forall_cons in Hc' as [-> _]. exists 0x0e. split; [done|]. by vm_compute.
  - intros m fl v -> Hv. apply Z.mod_small. exact Hv.
Qed.

(** ** An update *)

Lemma land_erased l : Forall is_byte l → zip_with Z.land (replicate (length l) 255) l = l.
Proof.
  induction 1 as [|b l Hb _ IH]; [done|]. cbn [length replicate zip_with]. rewrite IH. f_equal.
  change 255 with (Z.ones 8). rewrite Z.land_comm, Z.land_ones by lia. by apply Z.mod_small.
Qed.

Lemma bytes_are_bytes m a n : Forall is_byte (bytes m a n).
Proof. apply Forall_forall. intros b Hb. unfold bytes in Hb. apply list_elem_of_fmap in Hb as (x & -> & _). apply bus_byte_range. Qed.

Lemma map_u8_id l : Forall is_byte l → map u8 l = l.
Proof. induction 1 as [|b l Hb _ IH]; [done|]. cbn. rewrite IH. f_equal. by apply Z.mod_small. Qed.

Lemma slice_splice fl a l : 0 <= a → a + strlen l <= strlen fl → slice (splice fl a l) a (strlen l) = l.
Proof.
  intros Ha Hl. unfold slice, splice, strlen in *. rewrite Nat2Z.id. apply take_drop_copy_same. lia.
Qed.

Lemma slice_erased fl a n k : 0 <= a → 0 <= k <= n → a + n <= strlen fl → slice (erased fl a n) a k = replicate (Z.to_nat k) 255.
Proof.
  intros Ha Hk Hn. apply list_eq_Z. intros i Hi. destruct (decide (i < k)).
  - rewrite lookup_slice, lookup_erased, decide_True by lia. by rewrite lookup_replicate_2 by lia.
  - rewrite !lookup_ge_None_2; [done| |].
    + rewrite length_replicate. lia.
    + pose proof (length_slice (erased fl a n) a k Ha ltac:(lia)) as E. rewrite strlen_erased in E by lia. specialize (E ltac:(lia)).
      unfold strlen in E. lia.
Qed.

(** Programming what is erased stores the bytes. *)
Lemma programmed_erased fl a n l :
  Forall is_byte l → 0 <= a → strlen l <= n → a + n <= strlen fl → programmed (erased fl a n) a l = splice (erased fl a n) a l.
Proof.
  intros Hl Ha Hn Hf. unfold programmed. rewrite slice_erased by (unfold strlen in *; lia). f_equal.
  unfold strlen. rewrite Nat2Z.id. by apply land_erased.
Qed.

Section update.
Context `{Hchip : NorChip} (sizes : list Z) `{!NorChipOk (sectors 0 sizes)}.
Variables (mdt : Z) (mde_default : Z → Z).

(** C10 (roundtrip): an update of the flash through the driver: after the sectors were
    erased and a buffer was written to their beginning, reading it back into another
    buffer gives the same bytes, and the flash outside the sectors is as it was.  For
    buffers that are aligned, of whole lines of 16 bytes, and shorter than two
    megabytes, with the driver at rest. *)
Theorem update_roundtrip (pre mid post : list Z) (buf buf' n r r' : Z) (s : nor) :
  mdt_ok mdt → Forall (λ z, 1024 <= z) sizes → sizes = pre ++ mid ++ post → zsum sizes < 2 ^ 31 →
  nor_sector_map s = sectors 0 sizes → total_size s = zsum sizes → at_rest mdt s →
  buffer_ok mdt buf n → buffer_ok mdt buf' n → n <= zsum mid →
  ∃ s1 s2 s3,
    pl_nor_flash_erase (zsum pre) (zsum mid) s = Done (0, MTD_ERASE_DONE, s1) ∧
    pl_nor_flash_write mdt mde_default (zsum pre) n r buf s1 = Done (0, n, s2) ∧
    pl_nor_flash_read mdt mde_default (zsum pre) n r' buf' s2 = Done (0, n, s3) ∧
    bytes (ram s3) buf' n = bytes (ram s) buf n ∧
    ∀ i, 0 <= i → i < zsum pre ∨ zsum pre + zsum mid <= i → flash s3 !! Z.to_nat i = flash s !! Z.to_nat i.
Proof.
  intros Hm Hk El Hb Hmap Htot Hrest B B' Hn. pose proof Hrest as (Hr & Hi & Hsem & Hsig & Ht & Ht').
  pose proof Hr as (Hops & Hreg & c & Hc & Hc').
  destruct (erase_range sizes Hk pre mid post s El Hb Hmap Htot ltac:(congruence) Hops Hsem Hsig)
    as (P1 & P2 & P3 & s1 & E1 & F1 & (S1 & S2 & S3 & S4 & S5 & S6 & S7 & S8) & I1).
  assert (L1 : strlen (flash s1) = strlen (flash s)) by (rewrite F1; apply strlen_erased; lia).
  assert (R1 : at_rest mdt s1).
  { split_and!; try congruence; [|by apply I1]. split; [congruence|]. split.
    - rewrite <-Hreg. apply rd_ext. intros a Ha. apply (far_dma _ _ S8). unfold dma_reg, PL_DMA_BASE, DMA_MDT_REG, DMA_PL_NOR in *. lia.
    - exists c. by rewrite S1. }
  destruct (flash_write (sectors 0 sizes) mdt mde_default Hm (zsum pre) buf n r s1 R1 B P1 ltac:(lia)) as (s2 & E2 & F2 & R2 & L2 & M2).
  pose proof B as (_ & _ & Bn & _ & Bio & _).
  assert (Hd : bytes (ram s1) buf n = bytes (ram s) buf n).
  { apply bytes_ext. intros x Hx. apply S8. left. unfold IO, rNOR_BASE in *. lia. }
  assert (Hl : strlen (bytes (ram s) buf n) = n) by (apply length_bytes; lia).
  rewrite Hd, F1, programmed_erased in F2 by (try apply bytes_are_bytes; lia).
  assert (L2' : strlen (flash s2) = strlen (flash s1)).
  { rewrite F2, F1. unfold strlen at 1. rewrite length_splice; [done|lia|]. rewrite strlen_erased by lia. lia. }
  destruct (flash_read (sectors 0 sizes) mdt mde_default Hm (zsum pre) buf' n r' s2 R2 B' P1 ltac:(lia)) as (s3 & E3 & F3 & R3 & B3 & L3).
  exists s1, s2, s3. do 3 (split; [done|]). split.
  - rewrite B3, F2. rewrite <-Hl at 2. rewrite slice_splice by (rewrite ?strlen_erased; lia). apply map_u8_id, bytes_are_bytes.
  - intros i H0 Hout. rewrite F3, F2, lookup_splice by (rewrite ?strlen_erased; lia).
    rewrite decide_False, lookup_erased, decide_False by lia. done.
Qed.

End update.

(** ** Starting the driver *)

(** The regions of a description, one for each set. *)
Fixpoint set_regions (a : Z) (sets : list (Z * Z)) : list mtd_erase_region_info :=
  match sets with [] => [] | (k, q) :: l => mk_region a (k * 2 ^ 10) q :: set_regions (a + q * (k * 2 ^ 10)) l end.

(** Neighbouring sets differ in size and have sectors. *)
Fixpoint sets_differ (c : Z) (sets : list (Z * Z)) : Prop :=
  match sets with [] => True | (k, q) :: l => k ≠ c ∧ 0 < k ∧ 0 < q < 2 ^ 16 ∧ sets_differ k l end.

Lemma count_block_snoc regs p : count_block (regs ++ [p]) = Done (regs ++ [mk_region (r_offset p) (r_erasesize p) (u32 (r_numblocks p + 1))]).
Proof. unfold count_block. by rewrite last_snoc, removelast_last. Qed.

Lemma region_replicate q z a rest num regs o k es :
  0 <= k → k + Z.of_nat q < 2 ^ 32 →
  region_loop (sectors a (replicate q z ++ rest)) num (regs ++ [mk_region o z k]) z es =
  region_loop (sectors (a + Z.of_nat q * z) rest) num (regs ++ [mk_region o z (k + Z.of_nat q)]) z es.
Proof.
  revert a k. induction q as [|q IH]; intros a k Hk Hq; [by rewrite Z.mul_0_l, !Z.add_0_r|].
  cbn [replicate app sectors region_loop sec_size]. rewrite Z.eqb_refl, count_block_snoc. cbn [mbind exec_bind r_offset r_erasesize r_numblocks].
  unfold u32. rewrite Z.mod_small, IH by lia.
  replace (a + z + Z.of_nat q * z) with (a + Z.of_nat (S q) * z) by lia. by replace (k + 1 + Z.of_nat q) with (k + Z.of_nat (S q)) by lia.
Qed.

Lemma region_loop_sets sets a c num regs es :
  sets_differ c sets → Z.of_nat (length regs) + Z.of_nat (length sets) <= num →
  ∃ es', region_loop (sectors a (set_sizes sets)) num regs (c * 2 ^ 10) es = Done (regs ++ set_regions a sets, es') ∧
    es <= es' ∧ Forall (λ p, r_erasesize p <= es') (set_regions a sets) ∧ (es' = es ∨ ∃ p, p ∈ set_regions a sets ∧ r_erasesize p = es').
Proof.
  revert a c regs es. induction sets as [|[k q] l IH]; intros a c regs es Hd Hl.
  { exists es. cbn. rewrite app_nil_r. split_and!; [done|lia|constructor|by left]. }
  destruct Hd as (H1 & H2 & H3 & H4). rewrite set_sizes_cons. cbn [length] in Hl.
  destruct (Z.to_nat q) as [|q'] eqn:Eq; [lia|]. cbn [replicate app sectors region_loop sec_size start_addr].
  destruct (Z.eqb_spec (k * 2 ^ 10) (c * 2 ^ 10)); [lia|]. rewrite (proj2 (Z.leb_gt _ _)) by lia.
  set (e1 := if es <? k * 2 ^ 10 then k * 2 ^ 10 else es).
  assert (He1 : es <= e1 ∧ k * 2 ^ 10 <= e1 ∧ (e1 = es ∨ e1 = k * 2 ^ 10)) by (unfold e1; destruct (Z.ltb_spec es (k * 2 ^ 10)); lia).
  rewrite region_replicate by lia. replace (1 + Z.of_nat q') with q by lia.
  replace (a + k * 2 ^ 10 + Z.of_nat q' * (k * 2 ^ 10)) with (a + q * (k * 2 ^ 10)) by lia.
  destruct (IH (a + q * (k * 2 ^ 10)) k (regs ++ [mk_region a (k * 2 ^ 10) q]) e1 H4) as (es' & E & L & F & M).
  { rewrite length_app. cbn [length]. lia. }
  exists es'. split; [by rewrite E, <-app_assoc|]. split; [lia|]. cbn [set_regions]. split; [constructor; [cbn; lia|done]|].
  destruct M as [-> | (p & Hp & Ep)].
  - destruct He1 as (_ & _ & [-> | ->]); [by left|]. right. eexists. split; [by left|done].
  - right. exists p. split; [by right|done].
Qed.

Lemma set_sizes_sum sets : Forall (λ '(_, q), 0 <= q) sets → zsum (set_sizes sets) = zsum (map (λ p, r_numblocks p * r_erasesize p) (set_regions 0 sets)).
Proof.
  intros H. generalize 0. induction H as [|[k q] l Hq _ IH]; intros a; [done|].
  rewrite set_sizes_cons, zsum_app, zsum_replicate. cbn [set_regions map]. rewrite zsum_cons, (IH (a + q * (k * 2 ^ 10))). cbn [r_numblocks r_erasesize].
  rewrite Z2Nat.id by lia. done.
Qed.

Section starting.
Context `{Hchip : NorChip}.
Variables (mdt : Z) (mde_default : Z → Z).

(** Before: the channel is free and no command is under way. *)
Definition cold (s : nor) : Prop :=
  dma_ok (dma s) ∧ (∃ c, chans (dma s) !! Z.to_nat DMA_PL_NOR = Some c ∧ c_lock c = 0) ∧ idle s ∧
  ctl_sem s = false ∧ signals s = [] ∧ total_size s = 0 ∧ num_erase_regions s = 0.

Lemma read_id_idle s : idle s → idle (ppi_amd_read_id s).2.
Proof.
  intros H. unfold ppi_amd_read_id, idle. rewrite nor_writes_eq. cbn [snd]. unfold ppi_amd_reset, nor_writel. rewrite !with_ram_ram.
  unfold nreg. rewrite rd_wr_other by (unfold rNOR_BASE, COM_REG, PIO_DATA_REG; lia). change (rd 4 ?m (rNOR_BASE + COM_REG)) with (nreg m COM_REG).
  rewrite nreg_wrs; [exact H| |done]. regs.
Qed.

Lemma generate_map_cold sectinfo s :
  description_ok sectinfo → cold s →
  ∃ s', pl_nor_generate_map 1 sectinfo s = Done (0, s') ∧ nor_ops s' = true ∧ idle s' ∧ chans (dma s') = chans (dma s) ∧
    flash s' = flash s ∧ ctl_sem s' = false ∧ signals s' = [] ∧
    nor_sector_map s' = sectors 0 (set_sizes (sets_used sectinfo)) ∧
    total_size s' = zsum (set_sizes (sets_used sectinfo)) ∧ num_erase_regions s' = Z.of_nat (length (sets_used sectinfo)).
Proof.
  intros (H1 & H2 & H3 & H4) (_ & _ & Hi & Hsem & Hsig & Ht & Hr). unfold pl_nor_generate_map. rewrite take_ge, Ht, Hr by done.
  pose proof (map_sets_spec sectinfo [] 0 H1 (Forall_nil_2 _) H3 H4) as E. cbn [sectors zsum foldr app] in E.
  cbv zeta in E. rewrite E. cbn [mbind exec_bind Z.eqb].
  set (s1 := with_map true _ _ _ s). pose proof (read_id_idle s1 Hi) as Hi1. destruct (read_id_ram s1) as (id & m & Em).
  rewrite Em in *. cbn [snd] in Hi1. eexists. split; [reflexivity|]. split_and!; done.
Qed.
(** The channel is taken and points to the table. *)
Lemma init_dma_ready s :
  mdt_ok mdt → dma_ok (dma s) → (∃ c, chans (dma s) !! Z.to_nat DMA_PL_NOR = Some c ∧ c_lock c = 0) → nor_ops s = true → idle s →
  ∃ d, pl_nor_init_dma mdt s = Done (0, with_dma d s) ∧ ready mdt (with_dma d s) ∧ idle (with_dma d s).
Proof.
  intros (M4 & M1 & M2) Hd (c & Hc & Hlock) Hops Hi. pose proof (lookup_lt_Some _ _ _ Hc) as Hl.
  assert (Hok : chan_ok c) by (destruct Hd as [_ Hd]; exact (proj1 (Forall_lookup _ _) Hd _ _ Hc)).
  unfold pl_nor_init_dma. rewrite (request_spec _ _ _ c) by (done || unfold DMA_PL_NOR; lia). rewrite Hlock. cbn [Z.eqb mbind exec_bind Z.ltb Z.compare].
  set (c1 := with_a_mde 0 _). unfold set_dma_mde_base. change (MAX_DMA_CHANNELS <=? DMA_PL_NOR) with false.
  change 3 with (Z.ones 2). rewrite Z.land_ones by lia. change (2 ^ 2) with 4. rewrite M4. cbn [Z.eqb negb].
  rewrite (set_chan_lookup _ c1) by (try done; cbn [chans put_chan]; by rewrite list_lookup_insert_eq). cbn [mbind exec_bind].
  unfold dma_writel. rewrite writel_done by done. cbn [mbind exec_bind]. set (c2 := with_a_mde mdt _). unfold set_dma_mode.
  rewrite (set_chan_lookup _ c2) by first [done|cbn [chans put_chan with_mem]; rewrite list_lookup_insert_eq; [done|by rewrite length_insert]].
  cbn [mbind exec_bind]. eexists. split; [reflexivity|].
  set (m1 := wr 4 _ _ _). unfold set_dma_burst_length. change (MAX_DMA_CHANNELS <=? DMA_PL_NOR) with false. cbv iota zeta.
  set (v := if negb _ then _ else _). set (m2 := dma_writeb v DMA_CMD_REG DMA_PL_NOR m1).
  assert (B : ∀ a, a ≠ dma_reg DMA_CMD_REG DMA_PL_NOR → byte_at m2 a = byte_at m1 a).
  { intros a Ha. unfold m2, dma_writeb, writeb. rewrite byte_at_insert, decide_False; [done|congruence]. }
  unfold dma_reg, PL_DMA_BASE, DMA_CMD_REG, DMA_PL_NOR in B. split; [split; [done|split]|].
  - change (rd 4 m2 (dma_reg DMA_MDT_REG DMA_PL_NOR) = virt_to_bus mdt). rewrite (rd_ext 4 m2 m1).
    + unfold m1. rewrite rd_wr_same. apply Z.mod_small. apply Z.mod_pos_bound. lia.
    + intros a Ha. unfold dma_reg, PL_DMA_BASE, DMA_MDT_REG, DMA_PL_NOR in Ha. apply B. lia.
  - eexists. split; [cbn [dma with_dma with_mem chans put_chan]; rewrite list_lookup_insert_eq; [done|by rewrite !length_insert]|].
    split; [apply Hok|]. done.
  - unfold idle. rewrite <-Hi. change (rd 4 m2 (rNOR_BASE + COM_REG) = rd 4 (ram s) (rNOR_BASE + COM_REG)). apply rd_ext. intros a Ha.
    unfold rNOR_BASE, COM_REG in Ha. rewrite B by lia. unfold m1, dma_writeb, writeb, dma_reg, PL_DMA_BASE, DMA_MDT_REG, DMA_IDX_REG, DMA_PL_NOR.
    rewrite byte_at_wr, decide_False, byte_at_insert, decide_False by lia. done.
Qed.

(** The driver starts from a description of the flash whose neighbouring
    sets differ, once its channel is free: it then is at rest, with a region for every
    set (its offset, the size and the number of its sectors), the sum of the sectors
    as its size and the largest sector as the size of an erasure. *)
Theorem driver_starts (sectinfo : list (Z * Z)) (pending : Z) (add_device add_partitions : mtd_info → Z) (s : nor) :
  mdt_ok mdt → description_ok sectinfo → sets_differ 0 (sets_used sectinfo) → cold s →
  strlen (flash s) = zsum (set_sizes (sets_used sectinfo)) → (∀ mtd, 0 <= add_device mtd) → (∀ mtd, 0 <= add_partitions mtd) →
  ∃ mtd s', pl_nor_mtd_init mdt false (Some (1, sectinfo)) pending 0 true add_device add_partitions s = Done (0, Some mtd, s') ∧
    at_rest mdt s' ∧ nor_sector_map s' = sectors 0 (set_sizes (sets_used sectinfo)) ∧ flash s' = flash s ∧
    eraseregions mtd = set_regions 0 (sets_used sectinfo) ∧ numeraseregions mtd = Z.of_nat (length (eraseregions mtd)) ∧
    mtd_size mtd = zsum (map (λ p, r_numblocks p * r_erasesize p) (eraseregions mtd)) ∧
    Forall (λ p, r_erasesize p <= erasesize mtd) (eraseregions mtd).
Proof.
  intros Hm Hd Hdiff Hcold Hfl Ha1 Ha2. pose proof Hd as (D1 & _ & _ & D4). pose proof Hcold as (C1 & C2 & _).
  destruct (generate_map_cold sectinfo s Hd Hcold) as (s1 & E1 & Hops & Hi & Hch & Hf & Hsem & Hsig & Hmap & Htot & Hreg).
  destruct (init_dma_ready s1 Hm) as (d & E2 & R2 & I2); [by unfold dma_ok; rewrite Hch|by rewrite Hch|done..|].
  pose proof (zsum_nonneg _ (set_sizes_pos sectinfo D1)) as Hpos.
  unfold pl_nor_mtd_init, pl_nor_init. rewrite E1. cbn [mbind exec_bind]. rewrite E2. cbn [mbind exec_bind Z.ltb Z.compare].
  unfold pl_nor_init_irq. cbn [Z.eqb negb Z.ltb Z.compare mbind exec_bind].
  set (s2 := NOR_INTR_SET_MASK _ _). change (nor_sector_map s2) with (nor_sector_map s1). change (num_erase_regions s2) with (num_erase_regions s1).
  change (total_size s2) with (total_size s1). rewrite Hmap, Hreg, Htot.
  destruct (region_loop_sets (sets_used sectinfo) 0 0 (Z.of_nat (length (sets_used sectinfo))) [] 0 Hdiff) as (es & E3 & L3 & F3 & _); [cbn [length]; lia|].
  rewrite Z.mul_0_l in E3. rewrite E3. cbn [mbind exec_bind app]. unfold u32. rewrite Z.mod_small by lia.
  set (mtd := mk_mtd _ _ _ _ _). rewrite (proj2 (Z.ltb_ge _ _)) by apply Ha1. rewrite (proj2 (Z.ltb_ge _ _)) by apply Ha2.
  exists mtd, s2. split; [done|]. split.
  { assert (Hfar : far_nor (ram (with_dma d s1)) (ram s2)) by (by apply writeb_far).
    split; [|split; [|split; [done|split; [done|]]]].
    - destruct R2 as (R2a & R2b & R2c). split; [done|]. split; [|exact R2c]. rewrite <-R2b. apply rd_ext. intros a Ha. apply (far_dma _ _ Hfar).
      unfold dma_reg, PL_DMA_BASE, DMA_MDT_REG, DMA_PL_NOR in *. lia.
    - unfold idle. rewrite <-I2. apply nreg_writeb. right. done.
    - change (total_size s1 = strlen (flash s1) ∧ total_size s1 < 2 ^ 31). rewrite Hf, Htot, Hfl. done. }
  split; [exact Hmap|]. split; [exact Hf|]. split; [done|]. split.
  - cbn. f_equal. clear. generalize 0. induction (sets_used sectinfo) as [|[k q] l IH]; intros a; [done|]. cbn. by rewrite <-IH.
  - split; [|exact F3]. cbn [mtd_size mtd eraseregions]. apply set_sizes_sum. clear -D1. induction D1 as [|[k q] l [_ Hq] _ IH]; cbn; [constructor|].
    destruct (k =? 0); [constructor|]. by constructor.
Qed.

End starting.

(** ** The examples *)

Ltac calc := vm_compute; repeat split; first [reflexivity|discriminate|left; discriminate].

(** A small flash: four sectors. *)
Definition small_info : list (Z * Z) := [(1, 2); (2, 1); (1, 1); (0, 0)].
Definition small_sizes : list Z := Eval vm_compute in set_sizes (sets_used small_info).
Definition small_flash : list Z := Eval vm_compute in replicate 5120 7.
Definition small_cold : nor := mk_nor (init_dma (put ∅ 0xc0100000 (bs "settings of a cam"))) small_flash 0 false [] false [] 0 0.

#[local] Instance small_chip : NorChip := amd_chip (sectors 0 small_sizes).
#[local] Instance small_chip_ok : NorChipOk (sectors 0 small_sizes).
Proof. apply amd_chip_ok; [repeat constructor; lia|done]. Qed.

Definition small_mdt : Z := 0xc0200000.

Lemma small_mdt_ok : mdt_ok small_mdt.
Proof. calc. Qed.

Lemma small_cold_ok : cold small_cold.
Proof. split; [apply init_ok|]. split; [by eexists|]. calc. Qed.

Lemma small_info_ok : description_ok small_info ∧ sets_differ 0 (sets_used small_info).
Proof. split; [split; [repeat constructor; lia|]; split; [vm_compute; lia|]; split; [vm_compute; lia|done]|]. cbn. lia. Qed.

Lemma driver_starts_witness :
  ∃ mtd s', pl_nor_mtd_init small_mdt false (Some (1, small_info)) 0 0 true (λ _, 0) (λ _, 0) small_cold = Done (0, Some mtd, s') ∧
    at_rest small_mdt s' ∧ eraseregions mtd = [mk_region 0 1024 2; mk_region 2048 2048 1; mk_region 4096 1024 1].
Proof.
  destruct (driver_starts small_mdt small_info 0 (λ _, 0) (λ _, 0) small_cold small_mdt_ok (proj1 small_info_ok) (proj2 small_info_ok) small_cold_ok
    ltac:(vm_compute; reflexivity) ltac:(done) ltac:(done)) as (mtd & s' & E & R & _ & _ & H & _).
  exists mtd, s'. split; [exact E|]. split; [exact R|]. rewrite H. vm_compute. reflexivity.
Defined.

(** The driver at rest on it. *)
Definition small_nor : nor :=
  Eval vm_compute in match pl_nor_mtd_init small_mdt false (Some (1, small_info)) 0 0 true (λ _, 0) (λ _, 0) small_cold with Done (_, s) => s | Fault => small_cold end.

Lemma small_rest : at_rest small_mdt small_nor.
Proof.
  split; [split; [done|]; split; [calc|]; eexists; split; [vm_compute; reflexivity|]; calc|]. calc.
Qed.

Lemma erase_clears_witness :
  ∃ s', pl_nor_flash_erase 1024 3072 small_nor = Done (0, MTD_ERASE_DONE, s') ∧ flash s' !! 2000%nat = Some 255 ∧ flash s' !! 1000%nat = Some 7.
Proof.
  destruct (erase_clears small_sizes ltac:(repeat constructor; lia) [1024] [1024; 2048] [1024] small_nor
    eq_refl ltac:(done) ltac:(vm_compute; reflexivity) ltac:(done) ltac:(vm_compute; reflexivity) eq_refl eq_refl eq_refl) as (s' & E & H & _).
  exists s'. split; [exact E|]. split; [exact (H 2000 ltac:(lia))|exact (H 1000 ltac:(lia))].
Defined.

Lemma update_roundtrip_witness :
  ∃ s1 s2 s3,
    pl_nor_flash_erase 2048 2048 small_nor = Done (0, MTD_ERASE_DONE, s1) ∧
    pl_nor_flash_write small_mdt (λ _, 0) 2048 16 0 0xc0100000 s1 = Done (0, 16, s2) ∧
    pl_nor_flash_read small_mdt (λ _, 0) 2048 16 0 0xc0110000 s2 = Done (0, 16, s3) ∧
    bytes (ram s3) 0xc0110000 16 = bs "settings of a ca".
Proof.
  destruct (update_roundtrip small_sizes small_mdt (λ _, 0) [1024; 1024] [2048] [1024] 0xc0100000 0xc0110000 16 0 0 small_nor
    small_mdt_ok ltac:(repeat constructor; lia) eq_refl ltac:(done) ltac:(vm_compute; reflexivity) ltac:(done) small_rest
    ltac:(calc) ltac:(calc) ltac:(done)) as (s1 & s2 & s3 & E1 & E2 & E3 & B & _).
  exists s1, s2, s3. split; [exact E1|]. split; [exact E2|]. split; [exact E3|]. rewrite B. vm_compute. reflexivity.
Defined.
