(* ===== verification/NorErrors.v ===== *)
(** * The flash driver: where it goes wrong

    Cases that the code does not treat as it means to.  The examples run on the small
    flash of [NorFlash]. *)

From S2P Require Import Prelude Bus Dma DmaTheorems Nor NorTheorems NorTransfer NorFlash.

Local Open Scope Z_scope.

#[local] Existing Instances small_chip small_chip_ok.

(** ** Long transfers *)

Lemma lor_long n : 2 ^ 21 <= n < 2 ^ 22 → Z.lor (Z.lor n (Z.shiftl (0 + 1) MDE_NXT_SHIFT)) (Z.shiftl 1 MDE_VALID_SHIFT) = flags 0 (n - 2 ^ 21) 0.
Proof.
  intros Hn. rewrite <-flags_lor by lia. f_equal. change (Z.shiftl (0 + 1) MDE_NXT_SHIFT) with (2 ^ 21).
  change (Z.shiftl (0 + 1) MDT_FLAG_NXT_SHIFT) with (2 ^ 21). replace n with (2 ^ 21 + (n - 2 ^ 21)) at 1 by lia.
  rewrite <-(lor_add _ _ 21) by (try lia; by exists 1). rewrite Z.lor_comm, Z.lor_assoc, Z.lor_diag. by rewrite Z.lor_comm.
Qed.

(** C40 (bounds): a transfer of two megabytes and more, which the driver starts up to
    4 MB, is set up as if it were two megabytes shorter, since the length runs into
    the field of the next descriptor; the set-up reports the full length. *)
Theorem long_transfer_cut (mdt mode buf n : Z) (s : nor) :
  mdt_ok mdt → ready mdt s → 2 ^ 21 <= n <= MAX_DMA_CNT →
  ∃ s1, pl_setup_dma mdt mode [mk_iovec buf n] s = Done (n, s1) ∧
        mde_walk 1 (ram s1) mdt 0 = Some [(virt_to_bus buf, n - 2 ^ 21)].
Proof.
  intros (M4 & M1 & M2) (_ & _ & c & Hc & _) Hn. unfold MAX_DMA_CNT in Hn.
  unfold pl_setup_dma, set_dma_mode. rewrite (set_chan_lookup _ c) by done. cbn [mbind exec_bind setup_loop].
  change (MDE_MAX_ENTRY <=? 0) with false. cbn [iov_base iov_len length Z.of_nat].
  rewrite writel_done by (unfold mde_saddr; zdm). cbn [mbind exec_bind].
  rewrite writel_done by (unfold mde_flag; zdm). cbn [mbind exec_bind]. change (Z.of_nat 1 - 1) with 0.
  rewrite readl_done by (unfold mde_flag; zdm). cbn [mbind exec_bind]. rewrite writel_done by (unfold mde_flag; zdm). cbn [mbind exec_bind].
  rewrite lor_long, s32_id by lia. change (Z.shiftl 1 MDE_EMDE_SHIFT) with MDT_FLAG_E. eexists. split; [done|].
  set (m1 := wr 4 (virt_to_bus buf) _ _). set (m2 := wr 4 (flags 0 (n - 2 ^ 21) 0) _ m1).
  assert (F2 : rd 4 m2 (mde_flag mdt 0) = flags 0 (n - 2 ^ 21) 0).
  { unfold m2. rewrite rd_wr_same. apply Z.mod_small. apply flags_fields; lia. }
  rewrite F2, flags_end by lia. apply walk_one; [lia|]. split.
  - change (ram (with_dma (with_mem ?m ?d) ?x)) with m. unfold m2. rewrite !rd_wr_other by (unfold mde_saddr, mde_flag; lia).
    unfold m1. rewrite rd_wr_same. apply Z.mod_small, Z.mod_pos_bound. lia.
  - change (ram (with_dma (with_mem ?m ?d) ?x)) with m. rewrite rd_wr_same. apply Z.mod_small. apply flags_fields; lia.
Qed.

Lemma long_transfer_cut_witness :
  ∃ s1, pl_setup_dma small_mdt DMA_MODE_READ [mk_iovec 0xc0400000 0x300000] small_nor = Done (0x300000, s1) ∧
        mde_walk 1 (ram s1) small_mdt 0 = Some [(0x400000, 0x100000)].
Proof.
  exact (long_transfer_cut small_mdt DMA_MODE_READ 0xc0400000 0x300000 small_nor small_mdt_ok (proj1 small_rest) ltac:(unfold MAX_DMA_CNT; lia)).
Defined.

(** ** Buffers that are not aligned *)

(** The last one to three bytes of what is written word by word are not written: which
    bytes they are does not matter. *)
Lemma tail_not_written `{NorChip} addr buf buf' size s :
  0 < size < 4 → ppi_amd_pio_write addr buf size s = ppi_amd_pio_write addr buf' size s.
Proof.
  intros Hs. unfold ppi_amd_pio_write. set (s0 := nor_writes _ s). generalize s0. clear s s0. intros s.
  replace (Z.to_nat (size / 4) + 1)%nat with 1%nat by (rewrite Z.div_small by lia; done).
  cbn [pio_write_loop]. rewrite !(proj2 (Z.leb_gt _ _)) by lia. cbn [mbind exec_bind].
  destruct (pl_nor_polling_intr _ _ _) as [rc s1]. destruct (rc =? 0); [done|].
  rewrite Z.sub_diag. done.
Qed.

(** What is read into a buffer that is not aligned begins with as many bytes as the buffer
    is off, also when fewer are wanted: what is left then wraps around, and the loop
    goes on for almost 4 GB. *)
Lemma short_read_wraps `{NorChip} mdt mde_default from len retlen buf s :
  let p := Z.land buf 0x0f in
  ctl_sem s = false → signals s = [] → from + len <= total_size s → 0 <= len < p →
  pl_nor_flash_read mdt mde_default from len retlen buf s =
    (s1 ← ('(_, s1) ← through (ppi_amd_pio_read (u32 from) buf p) (with_sem true s); Done s1);
     '(rc, retlen, s2) ← transfer_loop mdt mde_default (loop_fuel (2 ^ 32 + len - p)) DMA_MODE_READ ppi_amd_cmd_read
                           (from + p) (buf + p) (2 ^ 32 + len - p) 0 p s1;
     Done (rc, retlen, up s2)) ∧ MAX_DMA_CNT < 2 ^ 32 + len - p.
Proof.
  intros p Hsem Hsig Hlen Hp. assert (Hp16 : p < 16).
  { unfold p. change 0x0f with (Z.ones 4). rewrite Z.land_ones by lia. pose proof (Z.mod_pos_bound buf (2 ^ 4) ltac:(lia)). lia. }
  unfold pl_nor_flash_read. rewrite (proj2 (Z.ltb_ge _ _)), down_free by (done || lia). cbn [mbind exec_bind]. fold p.
  destruct (Z.eqb_spec p 0); [lia|]. cbn [negb].
  assert (u32 (len - p) = 2 ^ 32 + len - p) as ->; [|unfold MAX_DMA_CNT; split; [done|lia]].
  unfold u32. symmetry. apply (Z.mod_unique _ _ (-1)); lia.
Qed.

(** ** Erasing a part of a sector *)

(** The whole sector of the first address is erased, and what was asked for behind it is
    counted as if the erasure had begun at its start. *)
Lemma erase_rounds_down :
  match pl_nor_flash_erase 1500 100 small_nor with
  | Done (rc, st, s') => rc = 0 ∧ st = MTD_ERASE_DONE ∧ flash s' !! 1100%nat = Some 255
  | Fault => False
  end.
Proof. vm_compute. done. Qed.

(** ** Initialisation *)

(** A flash of a kind that is not supported is registered all the same, and the first
    read calls a function that is not there. *)
Lemma type_ignored :
  match pl_nor_mtd_init small_mdt false (Some (0, small_info)) 0 0 true (λ _, 0) (λ _, 0) small_cold with
  | Done (rc, _, s') => rc = 0 ∧ nor_ops s' = false ∧ pl_nor_flash_read small_mdt (λ _, 0) 0 16 0 0xc0120000 s' = Fault
  | Fault => False
  end.
Proof. vm_compute. done. Qed.

(** Two sets of the same size share a region; the number of regions counts both. *)
Lemma equal_sets_unfilled :
  match pl_nor_mtd_init small_mdt false (Some (1, [(1, 2); (1, 3)])) 0 0 true (λ _, 0) (λ _, 0) small_cold with
  | Done (_, Some mtd, _) => numeraseregions mtd = 2 ∧ eraseregions mtd = [mk_region 0 1024 5]
  | _ => False
  end.
Proof. vm_compute. done. Qed.

(** ** The semaphore *)

Lemma down_sem s i s1 : down_interruptible s = Done (i, s1) → ctl_sem s = false → i = true → ctl_sem s1 = false.
Proof.
  unfold down_interruptible. destruct (signals s) as [|[] l]; intros E Hs; [|by injection E as <- <-|]; rewrite Hs in E; by injection E as <- <-.
Qed.

(** Whatever the chip does, a call that returns has given the semaphore back. *)
Lemma semaphore_returned `{NorChip} mdt mde_default from len retlen buf s :
  ctl_sem s = false →
  (∀ rc rl s', pl_nor_flash_read mdt mde_default from len retlen buf s = Done (rc, rl, s') → ctl_sem s' = false) ∧
  (∀ rc rl s', pl_nor_flash_write mdt mde_default from len retlen buf s = Done (rc, rl, s') → ctl_sem s' = false) ∧
  (∀ rc st s', pl_nor_flash_erase from len s = Done (rc, st, s') → ctl_sem s' = false).
Proof.
  intros Hs. unfold pl_nor_flash_read, pl_nor_flash_write, pl_nor_flash_erase. split_and!; intros rc x s' E.
  1, 2: (destruct (_ <? _) in E; [by injection E as <- <- <-|]);
    destruct (down_interruptible s) as [[[] s1]|] eqn:D; cbn [mbind exec_bind] in E; [injection E as <- <- <-; by apply (down_sem _ _ _ D)| |done];
    destruct (if negb _ then _ else _) as [s2|]; cbn [mbind exec_bind] in E; [|done];
    destruct (transfer_loop _ _ _ _ _ _ _ _ _ _ _) as [[[rc2 rl2] s3]|]; cbn [mbind exec_bind] in E; [by injection E as <- <- <-|done].
  destruct (_ <? _) in E; [by injection E as <- <- <-|]. destruct (_ <? _) in E; [by injection E as <- <- <-|].
  destruct (down_interruptible s) as [[[] s1]|] eqn:D; cbn [mbind exec_bind] in E; [injection E as <- <- <-; by apply (down_sem _ _ _ D)| |done].
  destruct (erase_loop _ _ _ _) as [[[] s2]|]; cbn [mbind exec_bind] in E; [by injection E as <- <- <-..|done].
Qed.
