(* ===== verification/MtdPart.v ===== *)
(** * Partitions of the flash

    [src/kernel/linux-2.4.19/drivers/mtd/mtdpart.c], which makes a device of every
    partition of the driver's table, the map of the flash in
    [include/asm-arm/arch-pl1029/memconfig.h], and
    [arch/arm/mach-pl1029/misc.c], which reads the network address from it.

    The functions of a partition call those of [Nor].  The driver has no more
    functions than reading, writing and erasing, so the others of the file are not
    used.  The partitions are registered with a device each. *)

From S2P Require Import Prelude Bus Dma DmaTheorems Nor NorTheorems NorTransfer NorFlash.

Local Open Scope Z_scope.

Definition EROFS : Z := 30.
Definition ENOMEM : Z := 12.

(** ** The map of the flash *)

Definition BSPCONF_FLASH_SIZE : Z := 0x00800000.
Definition BSPCONF_BTLDR_FLASH_OFFSET : Z := 0x00000000.
Definition BSPCONF_BTLDR_FLASH_SIZE : Z := 0x00010000.
Definition BSPCONF_MAC_FLASH_OFFSET : Z := BSPCONF_BTLDR_FLASH_OFFSET + BSPCONF_BTLDR_FLASH_SIZE.
Definition BSPCONF_MAC_FLASH_SIZE : Z := 0x00010000.
Definition BSPCONF_SERIAL_OFFSET : Z := BSPCONF_MAC_FLASH_OFFSET.
Definition BSPCONF_SERIAL_SIZE : Z := 0x20.
Definition BSPCONF_WLAN_DOMAIN_OFFSET : Z := BSPCONF_SERIAL_OFFSET + BSPCONF_SERIAL_SIZE.
Definition BSPCONF_MAC6BYTE_OFFSET : Z := BSPCONF_MAC_FLASH_OFFSET + BSPCONF_MAC_FLASH_SIZE - 6.
Definition BSPCONF_CONF_FLASH_OFFSET : Z := BSPCONF_MAC_FLASH_OFFSET + BSPCONF_MAC_FLASH_SIZE.
Definition BSPCONF_CONF_FLASH_SIZE : Z := 0x00010000.
Definition BSPCONF_LOGO_IMAGE_FLASH_OFFSET : Z := BSPCONF_CONF_FLASH_OFFSET + BSPCONF_CONF_FLASH_SIZE.
Definition BSPCONF_LOGO_IMAGE_FLASH_SIZE : Z := 0x00010000.
Definition BSPCONF_HTTP_CA_FLASH_OFFSET : Z := BSPCONF_LOGO_IMAGE_FLASH_OFFSET + BSPCONF_LOGO_IMAGE_FLASH_SIZE.
Definition BSPCONF_HTTP_CA_FLASH_SIZE : Z := 0x00010000.
Definition BSPCONF_ROOT_CA_FLASH_OFFSET : Z := BSPCONF_HTTP_CA_FLASH_OFFSET + BSPCONF_HTTP_CA_FLASH_SIZE.
Definition BSPCONF_ROOT_CA_FLASH_SIZE : Z := 0x00010000.
Definition BSPCONF_USER_CA_FLASH_OFFSET : Z := BSPCONF_ROOT_CA_FLASH_OFFSET + BSPCONF_ROOT_CA_FLASH_SIZE.
Definition BSPCONF_USER_CA_FLASH_SIZE : Z := 0x00010000.
Definition BSPCONF_KERNEL_FLASH_OFFSET : Z := BSPCONF_USER_CA_FLASH_OFFSET + BSPCONF_USER_CA_FLASH_SIZE.
Definition BSPCONF_KERNEL_FLASH_SIZE : Z := 0x000D0000.
Definition BSPCONF_FS_FLASH_OFFSET : Z := BSPCONF_KERNEL_FLASH_OFFSET + BSPCONF_KERNEL_FLASH_SIZE.
Definition BSPCONF_FS_FLASH_SIZE : Z := 0x006C0000.

(** ** Making the partitions *)

(** [part_master] says of which flash it is a part. *)
Record mtd_part : Type := mk_part { part_master : Z; part_name : string; part_flags : Z; part_size : Z; part_offset : Z; part_erasesize : Z }.

Definition MTDPART_OFS_NXTBLK : Z := u32 (-2).
Definition MTDPART_OFS_APPEND : Z := u32 (-1).
Definition MTDPART_SIZ_FULL : Z := 0.

(** Region [i]; behind what the driver filled in there is nothing to read. *)
Definition region_at (regions : list mtd_erase_region_info) (i : Z) : exec mtd_erase_region_info :=
  if 0 <=? i then match regions !! Z.to_nat i with Some r => Done r | None => Fault end else Fault.

(** [for (i=0; i < num && offset >= regions[i].offset; i++);] *)
Fixpoint region_find (fuel : nat) (num : Z) (regions : list mtd_erase_region_info) (offset i : Z) : exec Z :=
  match fuel with
  | O => Done i
  | S fuel' =>
      if i <? num then
        r ← region_at regions i;
        if r_offset r <=? offset then region_find fuel' num regions offset (i + 1) else Done i
      else Done i
  end.

(** [for (i--; i < num && offset + size > regions[i].offset; i++)]: the largest block. *)
Fixpoint region_max (fuel : nat) (num : Z) (regions : list mtd_erase_region_info) (limit i size : Z) : exec Z :=
  match fuel with
  | O => Done size
  | S fuel' =>
      if i <? num then
        r ← region_at regions i;
        if r_offset r <? limit then region_max fuel' num regions limit (i + 1) (if size <? r_erasesize r then r_erasesize r else size)
        else Done size
      else Done size
  end.

Definition slave_erasesize (master : mtd_info) (offset size : Z) : exec Z :=
  if 1 <? numeraseregions master then
    let num := numeraseregions master in
    i ← region_find (Z.to_nat num + 1) num (eraseregions master) offset 0;
    region_max (Z.to_nat num + 2) num (eraseregions master) (u32 (offset + size)) (i - 1) 0
  else Done (erasesize master).

(** A partition that can be written begins and ends with a block; division by zero is a
    fault. *)
Definition force_read_only (flags x erasesize : Z) : exec Z :=
  if Z.land flags MTD_WRITEABLE =? 0 then Done flags else
  if erasesize =? 0 then Fault else
  Done (if x mod erasesize =? 0 then flags else Z.land flags (Z.lnot MTD_WRITEABLE)).

(** The slave for an entry of the table, and where the next one would be appended. *)
Definition add_part (id : Z) (master : mtd_info) (cur_offset : Z) (p : mtd_partition) : exec (mtd_part * Z) :=
  let flags := Z.land (mtd_flags master) (Z.lnot (p_mask_flags p)) in
  let offset := if p_offset p =? MTDPART_OFS_APPEND then cur_offset else p_offset p in
  let emask := u32 (erasesize master - 1) in
  let offset := if offset =? MTDPART_OFS_NXTBLK then Z.land (u32 (cur_offset + emask)) (not32 emask) else offset in
  let size := if p_size p =? MTDPART_SIZ_FULL then u32 (mtd_size master - offset) else p_size p in
  let cur_offset := u32 (offset + size) in
  let '(offset, size) := if mtd_size master <=? offset then (0, 0) else (offset, size) in
  let size := if mtd_size master <? u32 (offset + size) then mtd_size master - offset else size in
  esize ← slave_erasesize master offset size;
  flags ← force_read_only flags offset esize;
  flags ← force_read_only flags size esize;
  Done (mk_part id (p_name p) flags size offset esize, cur_offset).

(** The partitions of one flash leave the list of all partitions. *)
Definition del_mtd_partitions (id : Z) (mtd_partitions : list mtd_part) : list mtd_part :=
  List.filter (λ p, negb (part_master p =? id)) mtd_partitions.

(** [rooms] are the outcomes of [kmalloc]; when one fails, the partitions that were made
    are deleted again.  New ones are put in front of the list. *)
Fixpoint add_loop (id : Z) (master : mtd_info) (parts : list mtd_partition) (rooms : list bool) (cur_offset : Z) (mtd_partitions : list mtd_part)
    : exec (Z * list mtd_part) :=
  match parts with
  | [] => Done (0, mtd_partitions)
  | p :: parts' =>
      if default true (head rooms) then
        '(slave, cur_offset) ← add_part id master cur_offset p;
        add_loop id master parts' (tail rooms) cur_offset (slave :: mtd_partitions)
      else Done (- ENOMEM, del_mtd_partitions id mtd_partitions)
  end.

Definition add_mtd_partitions (id : Z) (master : mtd_info) (parts : list mtd_partition) (rooms : list bool) (mtd_partitions : list mtd_part)
    : exec (Z * list mtd_part) :=
  add_loop id master parts rooms 0 mtd_partitions.

(** ** Their functions *)

Section part.
Context `{NorChip}.
Variables (mdt : Z) (mde_default : Z → Z).

(** How much of a request lies in the partition. *)
Definition clip (part : mtd_part) (from len : Z) : Z :=
  if part_size part <=? from then 0 else if part_size part <? from + len then u32 (part_size part - from) else len.

Definition part_read (part : mtd_part) (from len retlen buf : Z) (s : nor) : exec (Z * Z * nor) :=
  pl_nor_flash_read mdt mde_default (from + part_offset part) (clip part from len) retlen buf s.

Definition part_write (part : mtd_part) (to len retlen buf : Z) (s : nor) : exec (Z * Z * nor) :=
  if Z.land (part_flags part) MTD_WRITEABLE =? 0 then Done (- EROFS, retlen, s) else
  pl_nor_flash_write mdt mde_default (to + part_offset part) (clip part to len) retlen buf s.

(** The state of the request is not set when it does not reach the driver; the length is
    not looked at. *)
Definition part_erase (part : mtd_part) (addr len : Z) (s : nor) : exec (Z * option erase_state * nor) :=
  if Z.land (part_flags part) MTD_WRITEABLE =? 0 then Done (- EROFS, None, s) else
  if part_size part <=? addr then Done (- EINVAL, None, s) else
  '(rc, st, s) ← pl_nor_flash_erase (u32 (addr + part_offset part)) len s;
  Done (rc, Some st, s).

End part.

(** ** The network address *)

Definition MACADDR_LEN : nat := 6.

(** The flash is also mapped into memory. *)
Definition flash_byte (fl : list Z) (a : Z) : exec Z := load fl a.

Definition pl1029_check_addr (addr : list Z) : bool :=
  negb (forallb (λ b, b =? 0x00) addr) && negb (forallb (λ b, b =? 0xFF) addr).

Fixpoint read_mac (n : nat) (fl : list Z) (a : Z) : exec (list Z) :=
  match n with
  | O => Done []
  | S n' => b ← flash_byte fl a; l ← read_mac n' fl (a + 1); Done (b :: l)
  end.

Definition pl1029_get_macaddr (fl : list Z) : exec (list Z) :=
  data ← read_mac MACADDR_LEN fl BSPCONF_MAC6BYTE_OFFSET;
  Done (if pl1029_check_addr data then data else [0x00; 0xC0; 0x02; 0x00; 0x00; 0x00]).

Definition pl1029_get_wdomain (fl : list Z) : exec Z := flash_byte fl BSPCONF_WLAN_DOMAIN_OFFSET.

(** ** The table *)

(** An entry that says where the partition is, and lies in the flash. *)
Definition entry_ok (master : mtd_info) (p : mtd_partition) : Prop :=
  0 <= p_offset p ∧ 0 < p_size p ∧ p_offset p + p_size p <= mtd_size master.

(** The partition that an entry asks for: its name, place and size, and the flags of the
    flash without those it masks; without the right to write, too, when it does not
    begin and end with an erase block. *)
Definition asked (id : Z) (master : mtd_info) (p : mtd_partition) : mtd_part :=
  let flags := Z.land (mtd_flags master) (Z.lnot (p_mask_flags p)) in
  let whole := (p_offset p mod erasesize master =? 0) && (p_size p mod erasesize master =? 0) in
  mk_part id (p_name p) (if (Z.land flags MTD_WRITEABLE =? 0) || whole then flags else Z.land flags (Z.lnot MTD_WRITEABLE))
    (p_size p) (p_offset p) (erasesize master).

(** The areas of the map in [memconfig.h], in its order. *)
Definition flash_areas : list (Z * Z) :=
  [(BSPCONF_BTLDR_FLASH_OFFSET, BSPCONF_BTLDR_FLASH_SIZE); (BSPCONF_MAC_FLASH_OFFSET, BSPCONF_MAC_FLASH_SIZE);
   (BSPCONF_CONF_FLASH_OFFSET, BSPCONF_CONF_FLASH_SIZE); (BSPCONF_LOGO_IMAGE_FLASH_OFFSET, BSPCONF_LOGO_IMAGE_FLASH_SIZE);
   (BSPCONF_HTTP_CA_FLASH_OFFSET, BSPCONF_HTTP_CA_FLASH_SIZE); (BSPCONF_ROOT_CA_FLASH_OFFSET, BSPCONF_ROOT_CA_FLASH_SIZE);
   (BSPCONF_USER_CA_FLASH_OFFSET, BSPCONF_USER_CA_FLASH_SIZE); (BSPCONF_KERNEL_FLASH_OFFSET, BSPCONF_KERNEL_FLASH_SIZE);
   (BSPCONF_FS_FLASH_OFFSET, BSPCONF_FS_FLASH_SIZE)].

Definition writable (p : mtd_part) : bool := negb (Z.land (part_flags p) MTD_WRITEABLE =? 0).

Lemma add_part_master id master cur p slave cur' : add_part id master cur p = Done (slave, cur') → part_master slave = id.
Proof.
  unfold add_part. destruct (mtd_size master <=? _);
    (destruct (slave_erasesize _ _ _); [|done]; cbn [mbind exec_bind]; destruct (force_read_only _ _ _); [|done]; cbn [mbind exec_bind];
     destruct (force_read_only _ _ _); [|done]; cbn [mbind exec_bind]; by intros [= <- _]).
Qed.

(** The loop only puts slaves of this flash in front, and what it adds does not depend on
    what was there. *)
Lemma add_loop_app id master parts rooms cur before made :
  Forall (λ p, part_master p ≠ id) before →
  ∀ rc l, add_loop id master parts rooms cur made = Done (rc, l) → add_loop id master parts rooms cur (made ++ before) = Done (rc, l ++ before).
Proof.
  intros Hb. revert rooms cur made. induction parts as [|p parts IH]; intros rooms cur made rc l; cbn [add_loop]; [by intros [= <- <-]|].
  destruct (default true (head rooms)).
  - destruct (add_part id master cur p) as [[slave cur']|]; [|done]. cbn [mbind exec_bind]. intros H. by apply (IH _ _ (slave :: made)).
  - intros [= <- <-]. f_equal. f_equal. unfold del_mtd_partitions. rewrite List.filter_app. f_equal.
    clear -Hb. induction Hb as [|q l Hq Hl IHl]; [done|]. cbn. rewrite IHl. by apply Z.eqb_neq in Hq as ->.
Qed.

(** Where the loop ends, it leaves nothing behind when the memory ends first. *)
Lemma add_loop_fails id master parts k cur made :
  Forall (λ p, part_master p = id) made → ∀ rc l, add_loop id master parts [] cur made = Done (rc, l) → (k < length parts)%nat →
  add_loop id master parts (replicate k true ++ [false]) cur made = Done (- ENOMEM, []).
Proof.
  revert k cur made. induction parts as [|p parts IH]; intros k cur made Hm rc l H Hk; cbn [length] in Hk; [lia|].
  destruct k as [|k]; cbn [add_loop replicate app head default tail] in *.
  - f_equal. f_equal. clear -Hm. induction Hm as [|q l Hq _ IHl]; [done|]. cbn. rewrite Hq, Z.eqb_refl. exact IHl.
  - destruct (add_part id master cur p) as [[slave cur']|] eqn:E; [|done]. cbn [mbind exec_bind] in *.
    apply (IH k cur' (slave :: made) (Forall_cons_2 _ _ _ (add_part_master _ _ _ _ _ _ E) Hm) rc l); [done|lia].
Qed.

Lemma clear_write_bit flags : Z.land (Z.land flags (Z.lnot MTD_WRITEABLE)) MTD_WRITEABLE = 0.
Proof. rewrite <-Z.land_assoc, (Z.land_comm (Z.lnot _)), Z.land_lnot_diag. apply Z.land_0_r. Qed.

Lemma add_part_asked id master cur p :
  0 < erasesize master → numeraseregions master <= 1 → mtd_size master < 2 ^ 31 → entry_ok master p →
  add_part id master cur p = Done (asked id master p, p_offset p + p_size p).
Proof.
  intros He Hn Hs (E1 & E2 & E3). unfold add_part, MTDPART_OFS_APPEND, MTDPART_OFS_NXTBLK, MTDPART_SIZ_FULL.
  change (u32 (-1)) with 4294967295. change (u32 (-2)) with 4294967294.
  rewrite (proj2 (Z.eqb_neq (p_offset p) 4294967295)), (proj2 (Z.eqb_neq (p_offset p) 4294967294)), (proj2 (Z.eqb_neq (p_size p) 0)) by lia.
  assert (Hu : u32 (p_offset p + p_size p) = p_offset p + p_size p) by (unfold u32; apply Z.mod_small; lia). rewrite !Hu.
  rewrite (proj2 (Z.leb_gt _ _)) by lia. rewrite Hu, (proj2 (Z.ltb_ge _ _)) by lia.
  unfold slave_erasesize. rewrite (proj2 (Z.ltb_ge 1 _)) by lia. cbn [mbind exec_bind].
  unfold asked, force_read_only. rewrite (proj2 (Z.eqb_neq (erasesize master) 0)) by lia.
  destruct (Z.land (Z.land _ _) MTD_WRITEABLE =? 0) eqn:Ew; cbn [mbind exec_bind orb]; [by rewrite Ew|].
  destruct (p_offset p mod erasesize master =? 0); cbn [andb]; [|by rewrite clear_write_bit].
  rewrite Ew. by destruct (p_size p mod erasesize master =? 0).
Qed.

Lemma add_loop_asked id master parts :
  0 < erasesize master → numeraseregions master <= 1 → mtd_size master < 2 ^ 31 → Forall (entry_ok master) parts →
  ∀ cur made, add_loop id master parts [] cur made = Done (0, rev (map (asked id master) parts) ++ made).
Proof.
  intros He Hn Hs. induction 1 as [|p parts Hp _ IH]; intros cur made; [done|]. cbn [add_loop head default tail map rev].
  rewrite add_part_asked by done. cbn [mbind exec_bind]. by rewrite IH, <-app_assoc.
Qed.

(** C26 (functional): from a table of entries that lie in the flash and say where they
    are, on a flash with one size of erase block, the partitions that are made are the
    entries, in order and none moved or cut, each with the flags of the flash less
    those it masks; one that does not begin and end with an erase block is read-only.
    Partitions of other flashes stay; when there is no memory for one, all that were
    made are gone again. *)
Theorem partitions_as_asked (id : Z) (master : mtd_info) (parts : list mtd_partition) (before : list mtd_part) :
  Forall (λ p, part_master p ≠ id) before → 0 < erasesize master → numeraseregions master <= 1 → mtd_size master < 2 ^ 31 →
  Forall (entry_ok master) parts →
  add_mtd_partitions id master parts [] before = Done (0, rev (map (asked id master) parts) ++ before) ∧
  (∀ k, (k < length parts)%nat →
        add_mtd_partitions id master parts (replicate k true ++ [false]) before = Done (- ENOMEM, before)).
Proof.
  intros Hb He Hn Hs Hp. split; [by apply add_loop_asked|].
  intros k Hk. apply (add_loop_app id _ _ _ _ before [] Hb (- ENOMEM) []).
  eapply add_loop_fails; [constructor|by apply add_loop_asked|done].
Qed.

Definition camera_flash : mtd_info := mk_mtd BSPCONF_FLASH_SIZE MTD_CAP_NORFLASH 1 [mk_region 0 0x10000 128] 0x10000.

Lemma camera_entries : Forall (entry_ok camera_flash) pl_nor_partitions.
Proof. repeat constructor; vm_compute; (discriminate || reflexivity). Qed.

Lemma partitions_as_asked_witness :
  ∃ parts, add_mtd_partitions 7 camera_flash pl_nor_partitions [] [] = Done (0, parts) ∧ length parts = 10%nat.
Proof.
  destruct (partitions_as_asked 7 camera_flash pl_nor_partitions [] (Forall_nil_2 _) eq_refl ltac:(cbn; lia) eq_refl camera_entries) as [E _].
  eexists. split; [exact E|reflexivity].
Defined.

(** The driver's table on the flash of the camera: every area of the map but the one of
    the kernel is a partition of its own, the kernel is one with the file system
    behind it, and one more is the whole flash; no partition but that of the boot
    loader and that of the file system is read-only. *)
Lemma camera_partitions :
  let parts := map (asked 7 camera_flash) pl_nor_partitions in
  Forall (λ a, a = (BSPCONF_KERNEL_FLASH_OFFSET, BSPCONF_KERNEL_FLASH_SIZE) ∨ a ∈ map (λ p, (part_offset p, part_size p)) parts) flash_areas ∧
  (BSPCONF_KERNEL_FLASH_OFFSET, BSPCONF_KERNEL_FLASH_SIZE + BSPCONF_FS_FLASH_SIZE) ∈ map (λ p, (part_offset p, part_size p)) parts ∧
  (0, BSPCONF_FLASH_SIZE) ∈ map (λ p, (part_offset p, part_size p)) parts ∧ length parts = 10%nat ∧
  map part_name (List.filter (λ p, negb (writable p)) parts) = ["bootloader"; "SQUASHFS"]%string.
Proof.
  cbv zeta. split_and!; try (vm_compute; reflexivity); [|apply (bool_decide_unpack _); vm_compute; exact Logic.I..].
  apply (bool_decide_unpack _). vm_compute. exact Logic.I.
Qed.

(** ** What a partition can reach *)

Section reach.
Context `{Hchip : NorChip} (layout : list nor_sector_t) `{!NorChipOk layout}.
Variables (mdt : Z) (mde_default : Z → Z) (part : mtd_part).
Hypothesis Hmdt : mdt_ok mdt.

(** The partition is in the flash and has whole lines. *)
Definition part_ok (s : nor) : Prop :=
  0 <= part_offset part ∧ 0 <= part_size part ∧ part_size part mod 16 = 0 ∧ part_offset part + part_size part <= strlen (flash s) < 2 ^ 31.

Lemma clip_ok from len s :
  part_ok s → 0 <= from < part_size part → 0 <= len → from mod 16 = 0 → len mod 16 = 0 →
  0 <= clip part from len <= len ∧ from + clip part from len <= part_size part ∧ clip part from len mod 16 = 0.
Proof.
  intros (P1 & P2 & P3 & P4) Hf Hl F16 L16. unfold clip. rewrite (proj2 (Z.leb_gt _ _)) by lia.
  destruct (Z.ltb_spec (part_size part) (from + len)); [|lia]. unfold u32. rewrite (Z.mod_small (_ - _)) by lia. zdm.
Qed.

(** Writing through a partition. *)
Lemma part_write_spec to len retlen buf s :
  part_ok s → at_rest mdt s → writable part = true → 0 <= to < part_size part → to mod 16 = 0 → buffer_ok mdt buf len →
  ∃ s', part_write mdt mde_default part to len retlen buf s = Done (0, clip part to len, s') ∧
    flash s' = programmed (flash s) (to + part_offset part) (bytes (ram s) buf (clip part to len)) ∧ at_rest mdt s' ∧ nor_sector_map s' = nor_sector_map s.
Proof.
  intros Hp Hr Hw Ht T16 Hb. pose proof Hb as (B1 & B2 & B3 & B4 & B5 & B6). destruct (clip_ok to len s Hp Ht ltac:(lia) T16 B2) as (C1 & C2 & C3).
  unfold part_write. unfold writable in Hw. apply negb_true_iff in Hw. rewrite Hw. destruct Hp as (P1 & P2 & P3 & P4).
  assert (Hb' : buffer_ok mdt buf (clip part to len)) by (split_and!; try done; lia).
  destruct (flash_write layout mdt mde_default Hmdt (to + part_offset part) buf (clip part to len) retlen s Hr Hb') as (s' & E & F & R & _ & M); [lia..|].
  by exists s'.
Qed.

(** C14 (safety): writing through a partition, from an aligned buffer of whole lines of 16
    bytes and less than 2 MB, at an offset in it that is a multiple of 16, with the
    driver at rest, succeeds with what of the request lies in the partition, programs
    exactly those bytes, and no byte of the flash outside the partition changes; a
    partition that is read-only refuses and nothing changes. *)
Theorem partition_contained (to len retlen buf : Z) (s : nor) :
  part_ok s → at_rest mdt s → 0 <= to < part_size part → to mod 16 = 0 → buffer_ok mdt buf len →
  ∃ rc n s', part_write mdt mde_default part to len retlen buf s = Done (rc, n, s') ∧
    (∀ i, 0 <= i → i < part_offset part ∨ part_offset part + part_size part <= i → flash s' !! Z.to_nat i = flash s !! Z.to_nat i) ∧
    if writable part
    then rc = 0 ∧ n = Z.min len (part_size part - to) ∧
         flash s' = programmed (flash s) (to + part_offset part) (bytes (ram s) buf n) ∧ at_rest mdt s'
    else rc = - EROFS ∧ s' = s.
Proof.
  intros Hp Hr Ht T16 Hb. destruct (writable part) eqn:Hw.
  - pose proof Hb as (B1 & B2 & B3 & _). destruct (clip_ok to len s Hp Ht ltac:(lia) T16 B2) as (C1 & C2 & C3).
    destruct (part_write_spec to len retlen buf s Hp Hr Hw Ht T16 Hb) as (s' & E & F & R & _).
    destruct Hp as (P1 & P2 & P3 & P4). exists 0, (clip part to len), s'. split; [done|]. split.
    + intros i Hi Hout. rewrite F. unfold programmed.
      assert (Hl : strlen (bytes (ram s) buf (clip part to len)) = clip part to len) by (apply length_bytes; lia).
      pose proof (length_slice (flash s) (to + part_offset part) (clip part to len) ltac:(lia) ltac:(lia) ltac:(lia)) as Hs.
      assert (Hz : strlen (zip_with Z.land (slice (flash s) (to + part_offset part) (strlen (bytes (ram s) buf (clip part to len))))
        (bytes (ram s) buf (clip part to len))) = clip part to len) by (rewrite Hl; unfold strlen in *; rewrite length_zip_with; lia).
      rewrite lookup_splice, Hz, decide_False by (rewrite ?Hz; lia). done.
    + split; [done|]. split; [|done]. unfold clip. rewrite (proj2 (Z.leb_gt _ _)) by lia.
      destruct (Z.ltb_spec (part_size part) (to + len)); [|lia]. unfold u32. rewrite Z.mod_small by lia. lia.
  - exists (- EROFS), retlen, s. unfold part_write. unfold writable in Hw. apply negb_false_iff in Hw. rewrite Hw. done.
Qed.

End reach.

#[local] Existing Instances small_chip small_chip_ok.

Definition small_part : mtd_part := mk_part 0 "CONFIG" MTD_CAP_NORFLASH 2048 2048 2048.

Lemma partition_contained_witness :
  ∃ rc n s', part_write small_mdt (λ _, 0) small_part 2032 32 0 0xc0100000 small_nor = Done (rc, n, s') ∧ rc = 0 ∧ n = 16 ∧
    flash s' !! 4100%nat = Some 7.
Proof.
  destruct (partition_contained (sectors 0 small_sizes) small_mdt (λ _, 0) small_part small_mdt_ok 2032 32 0 0xc0100000 small_nor)
    as (rc & n & s' & E & H & H1 & H2 & _); [calc|exact small_rest|cbn; lia|done|calc|].
  exists rc, n, s'. split; [exact E|]. split; [exact H1|]. split; [exact H2|]. exact (H 4100 ltac:(lia) ltac:(cbn; lia)).
Defined.

(** Erasing is not contained: the length is passed on as it is.  Here 2 KB of a partition
    are erased with a length of 3 KB, and the sector behind it goes as well. *)
Lemma erase_escapes :
  match part_erase small_part 0 3072 small_nor with
  | Done (rc, _, s') => rc = 0 ∧ flash small_nor !! 4200%nat = Some 7 ∧ flash s' !! 4200%nat = Some 255
  | Fault => False
  end.
Proof. vm_compute. done. Qed.

(** ** The network address, written and read *)

Lemma read_mac_spec n fl a : 0 <= a → a + Z.of_nat n <= strlen fl → read_mac n fl a = Done (slice fl a (Z.of_nat n)).
Proof.
  revert a. induction n as [|n IH]; intros a Ha Hl; [by unfold slice|]. cbn [read_mac]. unfold flash_byte, strlen in *.
  destruct (load_lookup fl a ltac:(lia)) as (b & Hb & ->). cbn [mbind exec_bind]. rewrite IH by lia. cbn [mbind exec_bind].
  f_equal. unfold slice. rewrite !Nat2Z.id. replace (Z.to_nat (a + 1)) with (S (Z.to_nat a)) by lia. by rewrite (drop_S _ _ _ Hb).
Qed.

Definition mac_blank (mac : list Z) : Prop := Forall (λ b, b = 0) mac ∨ Forall (λ b, b = 255) mac.

Lemma forallb_all (x : Z) l : forallb (λ b, b =? x) l = true ↔ Forall (λ b, b = x) l.
Proof.
  rewrite forallb_forall, Forall_forall. split; intros H b Hb.
  - apply Z.eqb_eq, H. by apply list_elem_of_In.
  - apply Z.eqb_eq, H. by apply list_elem_of_In.
Qed.

Lemma check_addr_spec mac : pl1029_check_addr mac = true ↔ ¬ mac_blank mac.
Proof.
  unfold pl1029_check_addr, mac_blank. rewrite <-!forallb_all. destruct (forallb _ mac), (forallb _ mac); cbn; naive_solver.
Qed.

Section mac.
Context `{Hchip : NorChip} (sizes : list Z) `{!NorChipOk (sectors 0 sizes)}.
Variables (mdt : Z) (mde_default : Z → Z) (part : mtd_part).

(** A partition that is made of whole sectors is erased and written as a whole; its last
    bytes are then those of the buffer. *)
Lemma partition_update (pre mid post : list Z) (o z buf r : Z) (s : nor) :
  mdt_ok mdt → Forall (λ z, 1024 <= z) sizes → sizes = pre ++ mid ++ post → zsum sizes < 2 ^ 31 →
  zsum pre = o → zsum mid = z → part_offset part = o → part_size part = z → 6 <= z → z mod 16 = 0 → writable part = true →
  nor_sector_map s = sectors 0 sizes → total_size s = zsum sizes → at_rest mdt s → buffer_ok mdt buf z →
  ∃ s1 s2,
    part_erase part 0 z s = Done (0, Some MTD_ERASE_DONE, s1) ∧
    part_write mdt mde_default part 0 z r buf s1 = Done (0, z, s2) ∧
    strlen (flash s2) = strlen (flash s) ∧ 0 <= o ∧ o + z <= strlen (flash s) ∧
    slice (flash s2) (o + z - 6) 6 = bytes (ram s) (buf + (z - 6)) 6.
Proof.
  intros Hm Hk El Hb Hpre Hmid Ho Hsz Hz6 Hz16 Hw Hmap Htot Hrest B. pose proof Hrest as (Hr & Hi & Hsem & Hsig & Ht & Ht').
  pose proof Hr as (Hops & Hreg & c & Hc & Hc').
  destruct (erase_range sizes Hk pre mid post s El Hb Hmap Htot ltac:(congruence) Hops Hsem Hsig)
    as (P1 & P2 & P3 & s1 & E1 & F1 & (S1 & S2 & S3 & S4 & S5 & S6 & S7 & S8) & I1). rewrite Hpre, Hmid in *.
  assert (L1 : strlen (flash s1) = strlen (flash s)) by (rewrite F1; apply strlen_erased; lia).
  assert (R1 : at_rest mdt s1).
  { split_and!; try congruence; [|by apply I1]. split; [congruence|]. split.
    - rewrite <-Hreg. apply rd_ext. intros a Ha. apply (far_dma _ _ S8). unfold dma_reg, PL_DMA_BASE, DMA_MDT_REG, DMA_PL_NOR in *. lia.
    - exists c. by rewrite S1. }
  assert (Hpo : part_ok part s1) by (unfold part_ok; rewrite Ho, Hsz, L1; split_and!; try done; lia).
  destruct (part_write_spec (sectors 0 sizes) mdt mde_default part Hm 0 z r buf s1 Hpo R1 Hw) as (s2 & E2 & F2 & R2 & _); [lia|done|done|].
  assert (Hclip : clip part 0 z = z) by (unfold clip; rewrite Hsz, (proj2 (Z.leb_gt _ _)), (proj2 (Z.ltb_ge _ _)) by lia; done).
  rewrite Hclip, Ho, Z.add_0_l in *. pose proof B as (_ & _ & _ & _ & Bio & _).
  assert (Hd : bytes (ram s1) buf z = bytes (ram s) buf z).
  { apply bytes_ext. intros x Hx. apply S8. left. unfold IO, rNOR_BASE in *. lia. }
  assert (Hl : strlen (bytes (ram s) buf z) = z) by (apply length_bytes; lia).
  rewrite Hd, F1, programmed_erased in F2 by (try apply bytes_are_bytes; lia).
  assert (L2 : strlen (flash s2) = strlen (flash s)).
  { rewrite F2. unfold strlen at 1. rewrite length_splice; [|lia|rewrite strlen_erased; lia]. fold (strlen (erased (flash s) o z)). apply strlen_erased; lia. }
  exists s1, s2. split; [|split; [exact E2|split; [exact L2|split_and!; [lia..|]]]].
  { unfold part_erase. unfold writable in Hw. apply negb_true_iff in Hw. rewrite Hw, Hsz, Ho, (proj2 (Z.leb_gt _ _)), Z.add_0_l by lia.
    unfold u32. rewrite Z.mod_small by lia. by rewrite E1. }
  apply list_eq_Z. intros i Hii. destruct (decide (i < 6)).
  - rewrite lookup_slice, F2, lookup_splice, Hl, decide_True by (rewrite ?Hl, ?strlen_erased; lia).
    rewrite !lookup_bytes by lia. do 2 f_equal. lia.
  - rewrite !lookup_ge_None_2; [done| |].
    + pose proof (length_bytes (ram s) (buf + (z - 6)) 6 ltac:(lia)) as Hg. unfold strlen in Hg. lia.
    + pose proof (length_slice (flash s2) (o + z - 6) 6 ltac:(lia) ltac:(lia) ltac:(lia)) as Hs. unfold strlen in Hs. lia.
Qed.

(** The address of a flash: the six bytes, or the default. *)
Lemma get_macaddr_spec fl given :
  BSPCONF_MAC6BYTE_OFFSET + 6 <= strlen fl → slice fl BSPCONF_MAC6BYTE_OFFSET 6 = given →
  ∃ mac, pl1029_get_macaddr fl = Done mac ∧ ¬ mac_blank mac ∧
    (¬ mac_blank given → mac = given) ∧ (mac_blank given → mac = [0x00; 0xC0; 0x02; 0x00; 0x00; 0x00]).
Proof.
  intros Hl Hg. unfold pl1029_get_macaddr. rewrite read_mac_spec by (first [exact Hl|discriminate]).
  change (Z.of_nat MACADDR_LEN) with 6. rewrite Hg. cbn [mbind exec_bind]. eexists. split; [reflexivity|].
  destruct (pl1029_check_addr given) eqn:Ec.
  - apply check_addr_spec in Ec. by split.
  - assert (mac_blank given).
    { unfold pl1029_check_addr in Ec. apply andb_false_iff in Ec as [Ec|Ec]; apply negb_false_iff, forallb_all in Ec; [by left|by right]. }
    split; [|done]. intros [Hx|Hx]; repeat (apply Forall_cons in Hx as [? Hx]); done.
Qed.

(** C36 (refinement): the address that the network driver gets after the partition ["MAC"]
    was written as a whole.  When all its sectors were erased and exactly its 64 KB were
    written from an aligned buffer, with the driver at rest before, it is the six bytes
    at the end of the buffer, or, when they are blank, the default address; never a
    blank one.  (A shorter write, or one over what was not erased, may leave another
    address.) *)
Theorem mac_written (pre mid post : list Z) (buf r : Z) (s : nor) :
  mdt_ok mdt → Forall (λ z, 1024 <= z) sizes → sizes = pre ++ mid ++ post → zsum sizes < 2 ^ 31 →
  zsum pre = BSPCONF_MAC_FLASH_OFFSET → zsum mid = BSPCONF_MAC_FLASH_SIZE →
  part_offset part = BSPCONF_MAC_FLASH_OFFSET → part_size part = BSPCONF_MAC_FLASH_SIZE → writable part = true →
  nor_sector_map s = sectors 0 sizes → total_size s = zsum sizes → at_rest mdt s → buffer_ok mdt buf BSPCONF_MAC_FLASH_SIZE →
  ∃ s1 s2 mac,
    part_erase part 0 BSPCONF_MAC_FLASH_SIZE s = Done (0, Some MTD_ERASE_DONE, s1) ∧
    part_write mdt mde_default part 0 BSPCONF_MAC_FLASH_SIZE r buf s1 = Done (0, BSPCONF_MAC_FLASH_SIZE, s2) ∧
    pl1029_get_macaddr (flash s2) = Done mac ∧ ¬ mac_blank mac ∧
    let given := bytes (ram s) (buf + (BSPCONF_MAC_FLASH_SIZE - 6)) 6 in
    (¬ mac_blank given → mac = given) ∧ (mac_blank given → mac = [0x00; 0xC0; 0x02; 0x00; 0x00; 0x00]).
Proof.
  intros Hm Hk El Hb Hpre Hmid Ho Hsz Hw Hmap Htot Hrest B.
  destruct (partition_update pre mid post _ _ buf r s Hm Hk El Hb Hpre Hmid Ho Hsz ltac:(discriminate) eq_refl Hw Hmap Htot Hrest B)
    as (s1 & s2 & E1 & E2 & L & _ & L' & Hs).
  destruct (get_macaddr_spec (flash s2) _ ltac:(unfold BSPCONF_MAC6BYTE_OFFSET; lia) Hs) as (mac & Em & H1 & H2 & H3).
  exists s1, s2, mac. split; [exact E1|]. split; [exact E2|]. split; [exact Em|]. split; [exact H1|]. split; [exact H2|exact H3].
Qed.

End mac.

(** A flash of two sectors of 64 KB; the settings end with an address. *)
Definition board_sizes : list Z := [0x10000; 0x10000].
Definition board_mac : list Z := [0x00; 0xC0; 0x02; 0x12; 0x34; 0x56].

#[local] Instance board_chip : NorChip := amd_chip (sectors 0 board_sizes).
#[local] Instance board_chip_ok : NorChipOk (sectors 0 board_sizes).
Proof. apply amd_chip_ok; [repeat constructor; lia|done]. Qed.

Definition board_part : mtd_part := mk_part 0 "MAC" MTD_CAP_NORFLASH BSPCONF_MAC_FLASH_SIZE BSPCONF_MAC_FLASH_OFFSET 0x10000.

Definition board_nor : nor :=
  with_ram (put (ram small_nor) 0xc010fffa board_mac)
    (with_map true (sectors 0 board_sizes) 0x20000 1 (with_flash (replicate (Z.to_nat 0x20000) 7) small_nor)).

Lemma board_rest : at_rest small_mdt board_nor.
Proof.
  split; [split; [done|]; split; [calc|]; eexists; split; [vm_compute; reflexivity|]; calc|]. split; [calc|].
  split; [done|]. split; [done|]. split; [|calc]. change (0x20000 = Z.of_nat (length (replicate (Z.to_nat 0x20000) 7))).
  rewrite length_replicate. symmetry. apply Z2Nat.id. discriminate.
Qed.

Lemma mac_written_witness :
  ∃ s1 s2,
    part_erase board_part 0 BSPCONF_MAC_FLASH_SIZE board_nor = Done (0, Some MTD_ERASE_DONE, s1) ∧
    part_write small_mdt (λ _, 0) board_part 0 BSPCONF_MAC_FLASH_SIZE 0 0xc0100000 s1 = Done (0, BSPCONF_MAC_FLASH_SIZE, s2) ∧
    pl1029_get_macaddr (flash s2) = Done board_mac.
Proof.
  destruct (mac_written board_sizes small_mdt (λ _, 0) board_part [0x10000] [0x10000] [] 0xc0100000 0 board_nor
    small_mdt_ok ltac:(repeat constructor; lia) eq_refl ltac:(done) ltac:(done) ltac:(done) eq_refl eq_refl ltac:(done) eq_refl ltac:(done)
    board_rest ltac:(calc)) as (s1 & s2 & mac & E1 & E2 & Em & _ & H & _).
  exists s1, s2. split; [exact E1|]. split; [exact E2|]. rewrite Em. f_equal. rewrite H.
  - vm_compute. reflexivity.
  - intros [Hx|Hx]; vm_compute in Hx; repeat (apply Forall_cons in Hx as [? Hx]); done.
Defined.
