(* ===== verification/Irq.v ===== *)
(** * Interrupts

    [src/kernel/linux-2.4.19/arch/arm/kernel/irq.c], which registers handlers and calls
    them, with the functions of the board below it
    ([arch/arm/mach-pl1029/irq.c], [include/asm-arm/arch-pl1029/irq.h]).

    There is one processor, so the spin lock does nothing.  What happens while a
    handler runs is an input: interrupts are turned on and off, time goes on, and, where
    the code has switched interrupts on, further interrupts come ([event]).  The code
    that reads the number of an interrupt from the controller is in assembler; the
    number is an input as well.  [trace] notes which handlers are called. *)

From S2P Require Import Prelude Bus Dma.

Local Open Scope Z_scope.

Definition ENOMEM : Z := 12.
Definition NR_IRQS : Z := 32.
Definition IRQ_PL_DMAC0 : Z := 13.
Definition IRQ_PL_SD : Z := 21.
Definition IRQ_PL_MS : Z := 25.
Definition MAX_LEVEL2_IRQ : Z := 16.
Definition LEVEL3_IRQ_OFFSET : Z := 16.
Definition MAX_IRQ_CNT : Z := 100000.
Definition HZ : Z := 128.
Definition SA_INTERRUPT : Z := 0x20000000.
Definition SA_SHIRQ : Z := 0x04000000.
Definition NO_IRQ : Z := -1.

Definition PL_INT_MASK : Z := 0xdb000100.
Definition PL_DMA_INT_MASK : Z := PL_DMA_BASE + 0x100.
Definition PL_DMA_INT_VECTOR : Z := PL_DMA_BASE + 0x104.

(** ** The controllers *)

Definition pl_mask_irq (irq : Z) (m : bus) : exec bus :=
  if NR_IRQS <=? irq then Done m else
  status ← readw m PL_INT_MASK;
  if irq <? MAX_LEVEL2_IRQ then writew (Z.land status (Z.lnot (Z.shiftl 1 irq))) PL_INT_MASK m
  else
    status ← readw m PL_DMA_INT_MASK;
    writew (Z.land status (Z.lnot (Z.shiftl 1 (irq - LEVEL3_IRQ_OFFSET)))) PL_DMA_INT_MASK m.

Definition pl_unmask_irq (irq : Z) (m : bus) : exec bus :=
  if NR_IRQS <=? irq then Done m else
  status ← readw m PL_INT_MASK;
  if irq <? MAX_LEVEL2_IRQ then writew (Z.lor status (Z.shiftl 1 irq)) PL_INT_MASK m
  else
    m ← writew (Z.lor status (Z.shiftl 1 IRQ_PL_DMAC0)) PL_INT_MASK m;
    status ← readw m PL_DMA_INT_MASK;
    writew (Z.lor status (Z.shiftl 1 (irq - LEVEL3_IRQ_OFFSET))) PL_DMA_INT_MASK m.

(** The controller of the DMA unit has sixteen lines of its own. *)
Definition fixup_irq (irq : Z) (m : bus) : exec Z :=
  if irq =? IRQ_PL_DMAC0 then v ← readl m PL_DMA_INT_VECTOR; Done (Z.shiftr v 2 + LEVEL3_IRQ_OFFSET) else Done irq.

(** ** State *)

Record irqaction : Type := mk_action { a_handler : Z; a_flags : Z; a_name : list Z; a_dev_id : Z }.

(** [pend] says whether the line is in a list of pending ones. *)
Record irqdesc : Type := mk_desc {
  triggered : bool; running : bool; pending : bool; probing : bool; probe_ok : bool; valid : bool; noautoenable : bool;
  disable_depth : Z; pend : bool; action : list irqaction;
  lck_cnt : Z; lck_pc : Z; lck_jif : Z; lck_warned : Z; lck_timer : option Z }.

Definition set_triggered (v : bool) (d : irqdesc) : irqdesc :=
  mk_desc v (running d) (pending d) (probing d) (probe_ok d) (valid d) (noautoenable d) (disable_depth d) (pend d) (action d)
    (lck_cnt d) (lck_pc d) (lck_jif d) (lck_warned d) (lck_timer d).
Definition set_running (v : bool) (d : irqdesc) : irqdesc :=
  mk_desc (triggered d) v (pending d) (probing d) (probe_ok d) (valid d) (noautoenable d) (disable_depth d) (pend d) (action d)
    (lck_cnt d) (lck_pc d) (lck_jif d) (lck_warned d) (lck_timer d).
Definition set_pending (v : bool) (d : irqdesc) : irqdesc :=
  mk_desc (triggered d) (running d) v (probing d) (probe_ok d) (valid d) (noautoenable d) (disable_depth d) (pend d) (action d)
    (lck_cnt d) (lck_pc d) (lck_jif d) (lck_warned d) (lck_timer d).
Definition set_probing (v : bool) (d : irqdesc) : irqdesc :=
  mk_desc (triggered d) (running d) (pending d) v (probe_ok d) (valid d) (noautoenable d) (disable_depth d) (pend d) (action d)
    (lck_cnt d) (lck_pc d) (lck_jif d) (lck_warned d) (lck_timer d).
Definition set_depth (v : Z) (d : irqdesc) : irqdesc :=
  mk_desc (triggered d) (running d) (pending d) (probing d) (probe_ok d) (valid d) (noautoenable d) v (pend d) (action d)
    (lck_cnt d) (lck_pc d) (lck_jif d) (lck_warned d) (lck_timer d).
Definition set_pend (v : bool) (d : irqdesc) : irqdesc :=
  mk_desc (triggered d) (running d) (pending d) (probing d) (probe_ok d) (valid d) (noautoenable d) (disable_depth d) v (action d)
    (lck_cnt d) (lck_pc d) (lck_jif d) (lck_warned d) (lck_timer d).
Definition set_action (v : list irqaction) (d : irqdesc) : irqdesc :=
  mk_desc (triggered d) (running d) (pending d) (probing d) (probe_ok d) (valid d) (noautoenable d) (disable_depth d) (pend d) v
    (lck_cnt d) (lck_pc d) (lck_jif d) (lck_warned d) (lck_timer d).
Definition set_lock (cnt pc jif warned : Z) (timer : option Z) (d : irqdesc) : irqdesc :=
  mk_desc (triggered d) (running d) (pending d) (probing d) (probe_ok d) (valid d) (noautoenable d) (disable_depth d) (pend d) (action d)
    cnt pc jif warned timer.

Inductive note : Type := Enter (irq : Z) | Handle (irq handler : Z) | Leave (irq : Z).

Record irqs : Type := mk_irqs {
  regs : bus; irq_desc : list irqdesc; irq_pending : list Z; irq_err_count : Z; kstat : list Z; jiffies : Z; trace : list note }.

Definition with_regs (m : bus) (s : irqs) : irqs := mk_irqs m (irq_desc s) (irq_pending s) (irq_err_count s) (kstat s) (jiffies s) (trace s).
Definition with_descs (l : list irqdesc) (s : irqs) : irqs := mk_irqs (regs s) l (irq_pending s) (irq_err_count s) (kstat s) (jiffies s) (trace s).
Definition with_pendings (l : list Z) (s : irqs) : irqs := mk_irqs (regs s) (irq_desc s) l (irq_err_count s) (kstat s) (jiffies s) (trace s).
Definition count_err (s : irqs) : irqs := mk_irqs (regs s) (irq_desc s) (irq_pending s) (u32 (irq_err_count s + 1)) (kstat s) (jiffies s) (trace s).
Definition count_irq (irq : Z) (s : irqs) : irqs :=
  mk_irqs (regs s) (irq_desc s) (irq_pending s) (irq_err_count s) (alter (λ n, u32 (n + 1)) (Z.to_nat irq) (kstat s)) (jiffies s) (trace s).
Definition tick (s : irqs) : irqs := mk_irqs (regs s) (irq_desc s) (irq_pending s) (irq_err_count s) (kstat s) (u32 (jiffies s + 1)) (trace s).
Definition noted (n : note) (s : irqs) : irqs := mk_irqs (regs s) (irq_desc s) (irq_pending s) (irq_err_count s) (kstat s) (jiffies s) (trace s ++ [n]).

(** [irq_desc + irq]; outside the table is a fault. *)
Definition desc (irq : Z) (s : irqs) : exec irqdesc :=
  if irq <? 0 then Fault else match irq_desc s !! Z.to_nat irq with Some d => Done d | None => Fault end.
Definition put_desc (irq : Z) (d : irqdesc) (s : irqs) : irqs := with_descs (<[Z.to_nat irq := d]> (irq_desc s)) s.
Definition change (irq : Z) (f : irqdesc → irqdesc) (s : irqs) : exec irqs := d ← desc irq s; Done (put_desc irq (f d) s).

Definition mask (irq : Z) (s : irqs) : exec irqs := m ← pl_mask_irq irq (regs s); Done (with_regs m s).
Definition unmask (irq : Z) (s : irqs) : exec irqs := m ← pl_unmask_irq irq (regs s); Done (with_regs m s).

(** ** Turning a line on and off *)

Definition disable_irq (irq : Z) (s : irqs) : exec irqs :=
  d ← desc irq s;
  let s := put_desc irq (set_depth (u32 (disable_depth d + 1)) d) s in
  if disable_depth d =? 0 then mask irq s else Done s.

Definition enable_irq (irq : Z) (s : irqs) : exec irqs :=
  d ← desc irq s;
  if disable_depth d =? 0 then Done s else
  let d := set_depth (disable_depth d - 1) d in
  if negb (disable_depth d =? 0) then Done (put_desc irq d s) else
  let d := set_probing false d in
  s ← unmask irq (put_desc irq d s);
  if pending d then
    let d := set_pending false d in
    if pend d then Done (put_desc irq d s)
    else Done (with_pendings (irq :: irq_pending s) (put_desc irq (set_pend true d) s))
  else Done s.

(** ** Calling the handlers *)

(** A line that interrupts all the time is turned off for ten seconds. *)
Definition check_irq_lock (irq instr_ptr : Z) (s : irqs) : exec (bool * irqs) :=
  d ← desc irq s;
  if (lck_jif d =? jiffies s) && (instr_ptr <=? lck_pc d) && (lck_pc d <? u32 (instr_ptr + 8)) then
    let cnt := u32 (lck_cnt d + 1) in
    if MAX_IRQ_CNT <? cnt
    then Done (true, put_desc irq (set_lock cnt (lck_pc d) (lck_jif d) (s32 (lck_warned d + 1)) (Some (u32 (jiffies s + 10 * HZ))) d) s)
    else Done (false, put_desc irq (set_lock cnt (lck_pc d) (lck_jif d) (lck_warned d) (lck_timer d) d) s)
  else
    let warned := if lck_warned d <? 0 then lck_warned d + 1 else lck_warned d in
    Done (false, put_desc irq (set_lock 0 instr_ptr (jiffies s) warned (lck_timer d) d) s).

(** What happens during the call of a handler, given whether interrupts are on. *)
Definition call : Type := bool → irqs → exec irqs.

(** The calls of a chain of handlers, each with the next of the script; when the script
    has ended, nothing happens during a call. *)
Fixpoint chain (irq : Z) (on : bool) (actions : list irqaction) (script : list call) (s : irqs) : exec (irqs * list call) :=
  match actions with
  | [] => Done (s, script)
  | a :: actions' =>
      let s := noted (Handle irq (a_handler a)) s in
      match script with
      | [] => chain irq on actions' [] s
      | c :: script' => s ← c on s; chain irq on actions' script' s
      end
  end.

(** [__do_irq]; the flags of the first action decide whether interrupts are on. *)
Definition do_irq (irq : Z) (actions : list irqaction) (script : list call) (s : irqs) : exec (irqs * list call) :=
  chain irq (match actions with a :: _ => Z.land (a_flags a) SA_INTERRUPT =? 0 | [] => false end) actions script s.

Definition due (d : irqdesc) : bool := pending d && (disable_depth d =? 0).

(** The loop of [do_IRQ]. *)
Fixpoint irq_loop (fuel : nat) (irq : Z) (script : list call) (s : irqs) : exec (irqs * list call) :=
  match fuel with
  | O => Fault
  | S fuel' =>
      d ← desc irq s;
      match action d with
      | [] => Done (s, script)
      | actions =>
          s ← (if due d then unmask irq (put_desc irq (set_pending false d) s) else Done s);
          '(s, script) ← do_irq irq actions script s;
          d ← desc irq s;
          if due d then irq_loop fuel' irq script s else Done (s, script)
      end
  end.

Definition do_IRQ (irq instr_ptr : Z) (script : list call) (s : irqs) : exec (irqs * list call) :=
  irq ← fixup_irq irq (regs s);
  s ← change irq (set_triggered true) s;
  s ← mask irq s;
  d ← desc irq s;
  if running d || negb (disable_depth d =? 0) then Done (put_desc irq (set_pending true d) s, script) else
  let s := noted (Enter irq) (count_irq irq (put_desc irq (set_running true d) s)) in
  '(s, script) ← irq_loop (length script + 1) irq script s;
  s ← change irq (set_running false) (noted (Leave irq) s);
  d ← desc irq s;
  match action d with
  | [] => Done (s, script)
  | _ =>
      '(locked, s) ← check_irq_lock irq instr_ptr s;
      if (locked : bool) then Done (s, script) else s ← unmask irq s; Done (s, script)
  end.

Fixpoint run_pendings (l : list Z) (instr_ptr : Z) (script : list call) (s : irqs) : exec (irqs * list call) :=
  match l with
  | [] => Done (s, script)
  | irq :: l' =>
      s ← change irq (set_pend false) s;
      '(s, script) ← do_IRQ irq instr_ptr script s;
      run_pendings l' instr_ptr script s
  end.

Fixpoint do_pending_irqs (fuel : nat) (instr_ptr : Z) (script : list call) (s : irqs) : exec (irqs * list call) :=
  match fuel with
  | O => Fault
  | S fuel' =>
      '(s, script) ← run_pendings (irq_pending s) instr_ptr script (with_pendings [] s);
      match irq_pending s with [] => Done (s, script) | _ => do_pending_irqs fuel' instr_ptr script s end
  end.

Definition asm_do_IRQ (irq instr_ptr : Z) (script : list call) (s : irqs) : exec irqs :=
  irq ← fixup_irq irq (regs s);
  if irq <? NR_IRQS then
    '(s, script) ← do_IRQ irq instr_ptr script s;
    match irq_pending s with
    | [] => Done s
    | _ => '(s, _) ← do_pending_irqs (length script + 1) instr_ptr script s; Done s
    end
  else Done (count_err s).

Definition irqlck_timeout (irq : Z) (s : irqs) : exec irqs :=
  d ← desc irq s;
  let s := put_desc irq (set_lock 0 0 0 (-10) None d) s in
  if disable_depth d =? 0 then unmask irq s else Done s.

(** ** What happens *)

(** Interrupts are turned off and on, the clock ticks, the timer of a locked line ends,
    and interrupt [irq] comes, with the vector of the second controller, the instruction
    that it comes at, and what happens during the calls of handlers that follow. *)
Inductive event : Type :=
| EDisable (irq : Z) | EEnable (irq : Z) | ETick | ETimeout (irq : Z)
| EIrq (irq vector instr_ptr : Z) (script : list (list event)).

(** An interrupt that comes while they are off waits at the controller: it comes later, or
    not at all. *)
Fixpoint happen (on : bool) (e : event) (s : irqs) : exec irqs :=
  match e with
  | EDisable irq => disable_irq irq s
  | EEnable irq => enable_irq irq s
  | ETick => Done (tick s)
  | ETimeout irq => d ← desc irq s; match lck_timer d with Some _ => irqlck_timeout irq s | None => Done s end
  | EIrq irq vector instr_ptr script =>
      if on then
        asm_do_IRQ irq instr_ptr
          (map (λ l on, (fix go l s := match l with [] => Done s | e :: l' => s ← happen on e s; go l' s end) l) script)
          (with_regs (wr 4 vector PL_DMA_INT_VECTOR (regs s)) s)
      else Done s
  end.

Definition happens (on : bool) : list event → irqs → exec irqs :=
  fix go l s := match l with [] => Done s | e :: l' => s ← happen on e s; go l' s end.

Definition calls (script : list (list event)) : list call := map (λ l on, happens on l) script.

(** ** Registering handlers *)

Definition setup_arm_irq (irq : Z) (new : irqaction) (s : irqs) : exec (Z * irqs) :=
  d ← desc irq s;
  match action d with
  | old :: rest =>
      if Z.land (Z.land (a_flags old) (a_flags new)) SA_SHIRQ =? 0 then Done (- EBUSY, s)
      else Done (0, put_desc irq (set_action (old :: rest ++ [new]) d) s)
  | [] =>
      let d := set_depth 1 (set_pending false (set_running false (set_probing false (set_action [new] d)))) in
      if noautoenable d then Done (0, put_desc irq d s)
      else s ← unmask irq (put_desc irq (set_depth 0 d) s); Done (0, s)
  end.

(** [room] says whether there is memory. *)
Definition request_irq (irq handler irq_flags : Z) (devname : list Z) (dev_id : Z) (room : bool) (s : irqs) : exec (Z * irqs) :=
  if NR_IRQS <=? irq then Done (- EINVAL, s) else
  d ← desc irq s;
  if negb (valid d) || (handler =? 0) || (negb (Z.land irq_flags SA_SHIRQ =? 0) && (dev_id =? 0)) then Done (- EINVAL, s) else
  if negb room then Done (- ENOMEM, s) else
  setup_arm_irq irq (mk_action handler irq_flags devname dev_id) s.

(** The first action of the device leaves the chain. *)
Fixpoint unlink (dev_id : Z) (l : list irqaction) : list irqaction :=
  match l with
  | [] => []
  | a :: l' => if a_dev_id a =? dev_id then l' else a :: unlink dev_id l'
  end.

Definition free_irq (irq dev_id : Z) (s : irqs) : exec irqs :=
  if NR_IRQS <=? irq then Done s else
  d ← desc irq s;
  if negb (valid d) then Done s else Done (put_desc irq (set_action (unlink dev_id (action d)) d) s).

(** ** Probing *)

(** Lines that are free and can be probed are watched. *)
Fixpoint probe_start (n : nat) (i count : Z) (s : irqs) : exec (Z * irqs) :=
  match n with
  | O => Done (count, s)
  | S n' =>
      d ← desc i s;
      if negb (probe_ok d) || negb (match action d with [] => true | _ => false end) then probe_start n' (i + 1) count s else
      s ← unmask i (put_desc i (set_triggered false (set_probing true d)) s);
      probe_start n' (i + 1) (count + 1) s
  end.

(** Those that have interrupted already are not. *)
Fixpoint probe_filter (n : nat) (i count : Z) (s : irqs) : exec (Z * irqs) :=
  match n with
  | O => Done (count, s)
  | S n' =>
      d ← desc i s;
      if probing d && triggered d then probe_filter n' (i + 1) (count - 1) (put_desc i (set_probing false d) s)
      else probe_filter n' (i + 1) count s
  end.

(** [during] is what happens in the tenth of a second between. *)
Definition probe_irq_on (during : list event) (s : irqs) : exec (Z * irqs) :=
  '(count, s) ← probe_start (Z.to_nat NR_IRQS) 0 0 s;
  s ← happens true during s;
  '(count, s) ← probe_filter (Z.to_nat NR_IRQS) 0 count s;
  Done (u32 count, s).

Fixpoint probed (n : nat) (i found : Z) (s : irqs) : exec Z :=
  match n with
  | O => Done found
  | S n' =>
      d ← desc i s;
      if probing d && triggered d then (if found =? NO_IRQ then probed n' (i + 1) i s else Done NO_IRQ)
      else probed n' (i + 1) found s
  end.

Definition probe_irq_off (s : irqs) : exec Z := probed (Z.to_nat NR_IRQS) 0 NO_IRQ s.

Fixpoint probe_bits (n : nat) (i bits : Z) (s : irqs) : exec Z :=
  match n with
  | O => Done bits
  | S n' => d ← desc i s; probe_bits n' (i + 1) (if probing d && triggered d then Z.lor bits (Z.shiftl 1 i) else bits) s
  end.

Definition probe_irq_mask (s : irqs) : exec Z := probe_bits 16 0 0 s.

(** ** Starting *)

(** [init_IRQ] with [pl_init_irq]. *)
Definition desc_init (irq : Z) : irqdesc :=
  mk_desc false false false false true true ((irq =? IRQ_PL_SD) || (irq =? IRQ_PL_MS)) 1 false [] 0 0 0 0 None.

Definition init_IRQ (m : bus) : exec irqs :=
  m ← writew 0x0 PL_INT_MASK m;
  m ← writew 0x0 PL_DMA_INT_MASK m;
  Done (mk_irqs m (map (λ i, desc_init (Z.of_nat i)) (seq 0 (Z.to_nat NR_IRQS))) [] 0 (replicate (Z.to_nat NR_IRQS) 0) 0 []).

(** ** What the rest of the kernel does *)

Inductive op : Type :=
| Request (irq handler flags : Z) (name : list Z) (dev_id : Z) (room : bool) | Free (irq dev_id : Z)
| Happen (e : event) | Probe (during : list event).

Definition run (o : op) (s : irqs) : exec (Z * irqs) :=
  match o with
  | Request irq h f nm dev room => request_irq irq h f nm dev room s
  | Free irq dev => s ← free_irq irq dev s; Done (0, s)
  | Happen e => s ← happen true e s; Done (0, s)
  | Probe l => probe_irq_on l s
  end.

Lemma happen_irq on irq vector ip script s :
  happen on (EIrq irq vector ip script) s =
  if on then asm_do_IRQ irq ip (calls script) (with_regs (wr 4 vector PL_DMA_INT_VECTOR (regs s)) s) else Done s.
Proof. reflexivity. Qed.

Lemma happens_cons on e l s : happens on (e :: l) s = (s ← happen on e s; happens on l s).
Proof. reflexivity. Qed.

(** Induction over what happens during what. *)
Lemma event_rec' (P : event → Prop) :
  (∀ i, P (EDisable i)) → (∀ i, P (EEnable i)) → P ETick → (∀ i, P (ETimeout i)) →
  (∀ i v ip script, Forall (Forall P) script → P (EIrq i v ip script)) → ∀ e, P e.
Proof.
  intros H1 H2 H3 H4 H5. fix IH 1. intros [i|i| |i|i v ip script]; [apply H1|apply H2|apply H3|apply H4|].
  apply H5. induction script as [|l script IHs]; constructor; [|exact IHs].
  induction l as [|e l IHl]; constructor; [apply IH|exact IHl].
Qed.
