(* ===== verification/IrqTheorems.v ===== *)
(** * Properties of the interrupts

    [interrupts_refined]: whatever happens in whatever order, the kernel's code does not
    fault and ends, requests and releases do to the chains of handlers what they do to a
    table of lists, and the handlers of a line are called in order, all of them, and never
    while they are being called already.  [deferred_delivered]: an interrupt that comes
    while its line is off is handled when it is on again. *)

From S2P Require Import Prelude Bus Dma Gpio Irq.

Local Open Scope Z_scope.

(** ** What the trace has to be *)

(** [open] are the lines whose handlers are being called, the innermost first, each with
    the handlers that are still to be called in this pass. *)
Fixpoint proper (handlers : Z → list Z) (open : list (Z * list Z)) (t : list note) : option (list (Z * list Z)) :=
  match t with
  | [] => Some open
  | Enter i :: t' => if bool_decide (i ∈ open.*1) then None else proper handlers ((i, handlers i) :: open) t'
  | Handle i h :: t' =>
      match open with
      | (j, h' :: rest) :: open' =>
          if (i =? j) && (h =? h') then proper handlers ((j, match rest with [] => handlers j | _ => rest end) :: open') t' else None
      | _ => None
      end
  | Leave i :: t' =>
      match open with
      | (j, l) :: open' => if (i =? j) && bool_decide (l = handlers j) then proper handlers open' t' else None
      | [] => None
      end
  end.

Lemma proper_app h open t1 t2 : proper h open (t1 ++ t2) = (o ← proper h open t1; proper h o t2).
Proof.
  revert open. induction t1 as [|n t1 IH]; intros open; [done|]. cbn [proper app].
  destruct n as [i|i h'|i].
  - case_bool_decide; [done|apply IH].
  - destruct open as [|[j [|h0 rest]] open]; [done..|]. destruct ((i =? j) && (h' =? h0)); [apply IH|done].
  - destruct open as [|[j l] open]; [done|]. destruct (_ && _); [apply IH|done].
Qed.

Lemma proper_ext h h' open t : (∀ i, h i = h' i) → proper h open t = proper h' open t.
Proof.
  intros E. revert open. induction t as [|n t IH]; intros open; [done|]. cbn [proper]. destruct n as [i|i x|i].
  - by rewrite E, IH.
  - destruct open as [|[j [|y rest]] open]; [done..|]. by rewrite E, IH.
  - destruct open as [|[j l] open]; [done|]. by rewrite E, IH.
Qed.

(** ** What every operation keeps *)

Definition key (d : irqdesc) : bool * list irqaction * bool * bool := (running d, action d, valid d, noautoenable d).
Definition keys (s : irqs) := map key (irq_desc s).

Definition line_ok (i : Z) : Prop := 0 <= i < NR_IRQS ∧ i ≠ IRQ_PL_DMAC0.

Definition wf (s : irqs) : Prop :=
  length (irq_desc s) = 32%nat ∧ Forall line_ok (irq_pending s) ∧ Forall (λ d, valid d = true) (irq_desc s) ∧
  (∀ d, irq_desc s !! 13%nat = Some d → pending d = false).

Definition handlers (s : irqs) (i : Z) : list Z :=
  match keys s !! Z.to_nat i with Some (_, l, _, _) => map a_handler l | None => [] end.

Definition runs (s : irqs) (i : Z) : Prop := 0 <= i ∧ ∃ l v n, keys s !! Z.to_nat i = Some (true, l, v, n).

Definition opens (s : irqs) (open : list (Z * list Z)) : Prop := ∀ i, i ∈ open.*1 ↔ runs s i.

(** The check of what was added to the trace; [top] is the line that is innermost. *)
Definition rel (top : option Z) (s s' : irqs) : Prop :=
  wf s' ∧ keys s' = keys s ∧ ∃ t, trace s' = trace s ++ t ∧
  ∀ open, opens s open → match top with Some i => ∃ o, open = (i, handlers s i) :: o | None => True end → proper (handlers s) open t = Some open.

Lemma handlers_keys s s' : keys s' = keys s → handlers s' = handlers s.
Proof. unfold handlers. by intros ->. Qed.

Lemma opens_keys s s' open : keys s' = keys s → opens s open → opens s' open.
Proof. unfold opens, runs. by intros ->. Qed.

Lemma rel_refl top s : wf s → rel top s s.
Proof. intros H. split; [done|]. split; [done|]. exists []. by rewrite app_nil_r. Qed.

Lemma rel_trans top s1 s2 s3 : rel top s1 s2 → rel top s2 s3 → rel top s1 s3.
Proof.
  intros (W1 & K1 & t1 & T1 & C1) (W2 & K2 & t2 & T2 & C2). split; [done|]. split; [congruence|]. exists (t1 ++ t2).
  split; [by rewrite T2, T1, app_assoc|]. intros open Ho Ht. rewrite proper_app, (C1 open Ho Ht). cbn. rewrite <-(handlers_keys _ _ K1).
  apply C2; [by apply (opens_keys _ _ _ K1)|]. by rewrite (handlers_keys _ _ K1).
Qed.

Lemma rel_top i s s' : rel None s s' → rel (Some i) s s'.
Proof. intros (W & K & t & T & C). split; [done|]. split; [done|]. exists t. split; [done|]. intros open Ho _. by apply C. Qed.

(** A change that the trace does not show. *)
Lemma rel_silent top s s' : wf s' → keys s' = keys s → trace s' = trace s → rel top s s'.
Proof. intros W K T. split; [done|]. split; [done|]. exists []. by rewrite app_nil_r. Qed.

(** ** The table *)

Lemma wf_desc s i : wf s → 0 <= i < NR_IRQS → ∃ d, desc i s = Done d ∧ irq_desc s !! Z.to_nat i = Some d.
Proof.
  intros (L & _) Hi. unfold NR_IRQS in Hi. destruct (lookup_lt_is_Some_2 (irq_desc s) (Z.to_nat i)) as [d Hd]; [lia|].
  exists d. split; [|done]. unfold desc. rewrite (proj2 (Z.ltb_ge _ _)) by lia. by rewrite Hd.
Qed.

Lemma desc_lookup s i d : desc i s = Done d → 0 <= i ∧ irq_desc s !! Z.to_nat i = Some d.
Proof. unfold desc. destruct (Z.ltb_spec i 0); [done|]. destruct (irq_desc s !! Z.to_nat i); [|done]. by intros [= ->]. Qed.

Lemma lookup_desc s i d : 0 <= i → irq_desc s !! Z.to_nat i = Some d → desc i s = Done d.
Proof. intros Hi H. unfold desc. rewrite (proj2 (Z.ltb_ge _ _)) by lia. by rewrite H. Qed.

Lemma keys_put s i d : keys (put_desc i d s) = <[Z.to_nat i := key d]> (keys s).
Proof. unfold keys, put_desc. cbn. by rewrite list_fmap_insert. Qed.

Lemma keys_lookup s i d : irq_desc s !! Z.to_nat i = Some d → keys s !! Z.to_nat i = Some (key d).
Proof. intros H. unfold keys. by rewrite list_lookup_fmap, H. Qed.

Lemma keys_put_same s i d d' : irq_desc s !! Z.to_nat i = Some d → key d' = key d → keys (put_desc i d' s) = keys s.
Proof. intros H K. rewrite keys_put, K. apply list_insert_id. by apply keys_lookup. Qed.

Lemma desc_put s i d d' : desc i s = Done d → desc i (put_desc i d' s) = Done d'.
Proof.
  intros H. apply desc_lookup in H as [Hi H]. apply lookup_desc; [done|]. cbn. apply list_lookup_insert_eq. by apply lookup_lt_Some in H.
Qed.

Lemma wf_put s i d : wf s → 0 <= i → valid d = true → (i = 13 → pending d = false) → wf (put_desc i d s).
Proof.
  intros (W1 & W2 & W3 & W4) Hi V P. split; [by cbn; rewrite length_insert|]. split; [done|]. split.
  - by apply Forall_insert.
  - cbn. intros d' Hd. apply list_lookup_insert_Some in Hd as [(E & <- & _)|(_ & Hd)]; [apply P; lia|by apply W4].
Qed.

Lemma wf_valid s i d : wf s → irq_desc s !! i = Some d → valid d = true.
Proof. intros (_ & _ & W & _) H. by apply (Forall_lookup_1 _ _ _ _ W H). Qed.

Lemma wf_13 s i d : wf s → irq_desc s !! Z.to_nat i = Some d → i = 13 → pending d = false.
Proof. intros (_ & _ & _ & W) H ->. by apply W. Qed.

(** An assignment to a descriptor that leaves its key as it is. *)
Lemma rel_put top s i d d' :
  wf s → 0 <= i → irq_desc s !! Z.to_nat i = Some d → key d' = key d → (i = 13 → pending d' = false) → rel top s (put_desc i d' s).
Proof.
  intros W Hi Hd K P. pose proof (wf_valid _ _ _ W Hd) as V. apply rel_silent; [|by apply (keys_put_same _ _ d)|done].
  apply wf_put; [done..| |done]. unfold key in K. congruence.
Qed.

Lemma mask_done i s : 0 <= i → ∃ m, mask i s = Done (with_regs m s) ∧ pl_mask_irq i (regs s) = Done m.
Proof.
  intros Hi. unfold mask, pl_mask_irq. destruct (NR_IRQS <=? i); [by eexists|]. cbn. destruct (i <? MAX_LEVEL2_IRQ); by eexists.
Qed.

Lemma unmask_done i s : 0 <= i → ∃ m, unmask i s = Done (with_regs m s) ∧ pl_unmask_irq i (regs s) = Done m.
Proof.
  intros Hi. unfold unmask, pl_unmask_irq. destruct (NR_IRQS <=? i); [by eexists|]. cbn. destruct (i <? MAX_LEVEL2_IRQ); by eexists.
Qed.

Lemma rel_regs top m s : wf s → rel top s (with_regs m s).
Proof. intros W. by apply rel_silent. Qed.

(** ** Turning on and off *)

(** [r] ends in a state that is related to [s]. *)
Definition ends (top : option Z) (s : irqs) (r : exec irqs) : Prop := ∃ s', r = Done s' ∧ rel top s s'.

Lemma ends_mask top s s' i : wf s' → rel top s s' → 0 <= i → ends top s (mask i s').
Proof.
  intros W R Hi. destruct (mask_done i s' Hi) as (m & E & _). eexists. split; [exact E|]. eapply rel_trans; [exact R|by apply rel_regs].
Qed.

Lemma ends_unmask top s s' i : wf s' → rel top s s' → 0 <= i → ends top s (unmask i s').
Proof.
  intros W R Hi. destruct (unmask_done i s' Hi) as (m & E & _). eexists. split; [exact E|]. eapply rel_trans; [exact R|by apply rel_regs].
Qed.

Lemma disable_ends s i : wf s → 0 <= i < NR_IRQS → ends None s (disable_irq i s).
Proof.
  intros W Hi. destruct (wf_desc s i W Hi) as (d & E & L). unfold disable_irq. rewrite E. cbn [mbind exec_bind].
  assert (R : rel None s (put_desc i (set_depth (u32 (disable_depth d + 1)) d) s)).
  { apply (rel_put _ _ _ d); [done|lia|done|done|]. exact (wf_13 _ _ _ W L). }
  destruct (disable_depth d =? 0); [|by eexists]. apply ends_mask; [apply R|done|lia].
Qed.

Lemma enable_ends s i : wf s → 0 <= i < NR_IRQS → ends None s (enable_irq i s).
Proof.
  intros W Hi. destruct (wf_desc s i W Hi) as (d & E & L). unfold enable_irq. rewrite E. cbn [mbind exec_bind].
  destruct (disable_depth d =? 0); [by eexists; split; [|apply rel_refl]|].
  assert (P13 : i = 13 → pending d = false) by exact (wf_13 _ _ _ W L).
  destruct (negb _); [eexists; split; [done|]; apply (rel_put _ _ _ d); [done|lia|done|done|done]|].
  set (d1 := set_probing false (set_depth (disable_depth d - 1) d)).
  assert (R : rel None s (put_desc i d1 s)) by (apply (rel_put _ _ _ d); [done|lia|done|done|done]).
  destruct (unmask_done i (put_desc i d1 s) ltac:(lia)) as (m & -> & _). cbn [mbind exec_bind].
  set (s1 := with_regs m (put_desc i d1 s)). assert (R1 : rel None s s1) by (eapply rel_trans; [exact R|apply rel_regs, R]).
  assert (L1 : irq_desc s1 !! Z.to_nat i = Some d1) by (cbn; apply list_lookup_insert_eq; by apply lookup_lt_Some in L).
  destruct (pending d1) eqn:P; [|by eexists]. destruct (pend (set_pending false d1)) eqn:Q.
  - eexists. split; [done|]. eapply rel_trans; [exact R1|]. apply (rel_put _ _ _ d1); [apply R1|lia|done|done|done].
  - eexists. split; [done|]. eapply rel_trans; [exact R1|].
    assert (R2 : rel None s1 (put_desc i (set_pend true (set_pending false d1)) s1)) by (apply (rel_put _ _ _ d1); [apply R1|lia|done|done|done]).
    eapply rel_trans; [exact R2|]. apply rel_silent; [|done|done]. destruct R2 as ((W1 & W2 & W3 & W4) & _).
    split; [done|]. split; [|done]. constructor; [|done]. split; [done|]. intros ->. cbn in P. rewrite P13 in P; done.
Qed.

Lemma timeout_ends s i : wf s → 0 <= i < NR_IRQS → ends None s (irqlck_timeout i s).
Proof.
  intros W Hi. destruct (wf_desc s i W Hi) as (d & E & L). unfold irqlck_timeout. rewrite E. cbn [mbind exec_bind].
  assert (R : rel None s (put_desc i (set_lock 0 0 0 (-10) None d) s)).
  { apply (rel_put _ _ _ d); [done|lia|done|done|]. exact (wf_13 _ _ _ W L). }
  destruct (disable_depth d =? 0); [|by eexists]. apply ends_unmask; [apply R|done|lia].
Qed.

(** ** The chain of handlers *)

Definition good (c : call) : Prop := ∀ on s, wf s → ends None s (c on s).

(** All of the chain is called; what happens meanwhile is nested in it. *)
Lemma chain_spec i on acts script s :
  acts ≠ [] → wf s → runs s i → Forall good script →
  ∃ s' script' t, chain i on acts script s = Done (s', script') ∧ wf s' ∧ keys s' = keys s ∧ trace s' = trace s ++ t ∧ Forall good script' ∧
    (∀ o, opens s ((i, map a_handler acts) :: o) → proper (handlers s) ((i, map a_handler acts) :: o) t = Some ((i, handlers s i) :: o)) ∧
    (script = [] → script' = [] ∧ irq_desc s' = irq_desc s ∧ irq_pending s' = irq_pending s) ∧
    (script ≠ [] → (length script' < length script)%nat).
Proof.
  revert script s. induction acts as [|a acts IH]; intros script s Hne W Hr G; [done|]. cbn [chain map].
  set (s1 := noted (Handle i (a_handler a)) s).
  assert (C1 : ∀ o, proper (handlers s) ((i, a_handler a :: map a_handler acts) :: o) [Handle i (a_handler a)] =
    Some ((i, match map a_handler acts with [] => handlers s i | _ => map a_handler acts end) :: o)).
  { intros o. cbn. by rewrite !Z.eqb_refl. }
  assert (H2 : ∃ s2 script2 t2, match script with [] => Done (s1, []) | c :: cs => s ← c on s1; Done (s, cs) end = Done (s2, script2) ∧
    wf s2 ∧ keys s2 = keys s ∧ trace s2 = trace s1 ++ t2 ∧ Forall good script2 ∧
    (∀ o, opens s o → proper (handlers s) o t2 = Some o) ∧
    (script = [] → script2 = [] ∧ irq_desc s2 = irq_desc s ∧ irq_pending s2 = irq_pending s) ∧ (script ≠ [] → S (length script2) = length script)).
  { destruct script as [|c cs].
    - exists s1, [], []. split_and!; try done. by rewrite app_nil_r.
    - apply Forall_cons in G as [Gc G]. destruct (Gc on s1 W) as (s2 & -> & W2 & K2 & t2 & T2 & C2). exists s2, cs, t2.
      split_and!; try done. intros o Ho. rewrite <-(C2 o); [done|done|done]. }
  destruct H2 as (s2 & script2 & t2 & E2 & W2 & K2 & T2 & G2 & C2 & N2 & L2).
  assert (Hstep : chain i on acts script2 s2 = match script with [] => chain i on acts [] s1 | c :: cs => s ← c on s1; chain i on acts cs s end).
  { destruct script as [|c cs]; [by injection E2 as -> ->|]. destruct (c on s1); [|done]. by injection E2 as -> ->. }
  rewrite <-Hstep. destruct acts as [|a' acts'].
  { exists s2, script2, (Handle i (a_handler a) :: t2). cbn [chain]. split; [done|]. split; [done|]. split; [done|].
    split; [by rewrite T2; cbn; rewrite <-app_assoc|]. split; [done|]. split.
    - intros o Ho. change (Handle i (a_handler a) :: t2) with ([Handle i (a_handler a)] ++ t2). rewrite proper_app. rewrite C1. cbn.
      by apply C2.
    - split; [done|]. intros Hs. specialize (L2 Hs). lia. }
  destruct (IH script2 s2) as (s3 & script3 & t3 & E3 & W3 & K3 & T3 & G3 & C3 & N3 & L3); [done|done|unfold runs; by rewrite K2|done|].
  exists s3, script3, (Handle i (a_handler a) :: t2 ++ t3). split; [done|]. split; [done|]. split; [congruence|].
  split; [by rewrite T3, T2; cbn; rewrite <-!app_assoc|]. split; [done|]. split.
  - intros o Ho. change (Handle i (a_handler a) :: t2 ++ t3) with ([Handle i (a_handler a)] ++ (t2 ++ t3)). rewrite proper_app.
    rewrite C1. cbn [mbind option_bind]. rewrite proper_app.
    change (match map a_handler (a' :: acts') with [] => handlers s i | _ => map a_handler (a' :: acts') end) with (map a_handler (a' :: acts')).
    rewrite C2 by done. cbn [mbind option_bind]. rewrite <-(handlers_keys _ _ K2). apply C3. by apply (opens_keys _ _ _ K2).
  - split.
    + intros Hs. destruct (N2 Hs) as (-> & N2a & N2b). destruct (N3 eq_refl) as (-> & N3a & N3b). split_and!; congruence.
    + intros Hs. specialize (L2 Hs). destruct script2 as [|c2 cs2]; [destruct (N3 eq_refl) as (-> & _); cbn in *; lia|].
      specialize (L3 ltac:(done)). lia.
Qed.

(** ** An interrupt *)

Lemma desc_keys s s' i d : keys s' = keys s → desc i s = Done d → ∃ d', desc i s' = Done d' ∧ irq_desc s' !! Z.to_nat i = Some d' ∧ key d' = key d.
Proof.
  intros K H. apply desc_lookup in H as [Hi H]. apply keys_lookup in H. rewrite <-K in H. unfold keys in H.
  rewrite list_lookup_fmap in H. destruct (irq_desc s' !! Z.to_nat i) as [d'|] eqn:E; [|done]. cbn in H. apply (inj Some) in H. exists d'.
  split; [by apply lookup_desc|done].
Qed.

(** What a script has left, and that nothing new is pending where none of it was used. *)
Definition used (script script' : list call) (s s' : irqs) : Prop :=
  Forall good script' ∧ (length script' <= length script)%nat ∧ (length script' = length script → irq_pending s' = irq_pending s).

Lemma used_refl script s s' : Forall good script → irq_pending s' = irq_pending s → used script script s s'.
Proof. intros G P. split; [exact G|]. split; [lia|done]. Qed.

Lemma used_trans l1 l2 l3 s1 s2 s3 : used l1 l2 s1 s2 → used l2 l3 s2 s3 → used l1 l3 s1 s3.
Proof. intros (G1 & L1 & P1) (G2 & L2 & P2). split; [done|]. split; [lia|]. intros H. rewrite P2, P1 by lia. done. Qed.

(** The loop ends: a pass uses a part of the script, and when there is none left nothing
    becomes due. *)
Lemma irq_loop_spec fuel i script s d :
  (length script < fuel)%nat → wf s → line_ok i → desc i s = Done d → running d = true → Forall good script →
  ∃ s' script', irq_loop fuel i script s = Done (s', script') ∧ rel (Some i) s s' ∧ used script script' s s'.
Proof.
  revert script s d. induction fuel as [|fuel IH]; intros script s d Hf W Hi E Hrun G; [lia|]. cbn [irq_loop]. rewrite E. cbn [mbind exec_bind].
  destruct (action d) as [|a acts] eqn:Ea; [exists s, script; split; [done|]; by split; [apply rel_refl|apply used_refl]|].
  pose proof (desc_lookup _ _ _ E) as [Hi0 L]. set (d0 := set_pending false d).
  assert (H1 : ∃ s1 d1, (if due d then unmask i (put_desc i d0 s) else Done s) = Done s1 ∧ rel (Some i) s s1 ∧ desc i s1 = Done d1 ∧ key d1 = key d ∧ due d1 = false ∧ irq_pending s1 = irq_pending s).
  { destruct (due d) eqn:D.
    - assert (R : rel (Some i) s (put_desc i d0 s)) by (apply (rel_put _ _ _ d); done).
      destruct (unmask_done i (put_desc i d0 s) Hi0) as (m & -> & _). eexists _, d0. split; [done|].
      split; [eapply rel_trans; [exact R|apply rel_regs, R]|]. split; [exact (desc_put _ _ _ d0 E)|done].
    - exists s, d. split; [done|]. split; [by apply rel_refl|done]. }
  destruct H1 as (s1 & d1 & -> & R1 & E1 & K1 & D1 & P1). cbn [mbind exec_bind]. unfold do_irq.
  pose proof (desc_lookup _ _ _ E1) as [_ L1]. apply keys_lookup in L1. rewrite K1 in L1. unfold key in L1. rewrite Hrun, Ea in L1.
  assert (Hh : handlers s1 i = map a_handler (a :: acts)) by (unfold handlers; by rewrite L1).
  destruct (chain_spec i (Z.land (a_flags a) SA_INTERRUPT =? 0) (a :: acts) script s1) as (s2 & script2 & t & -> & W2 & K2 & T2 & G2 & C2 & N2 & U2);
    [done|apply R1|split; [done|by eauto]|done|]. cbn [mbind exec_bind].
  assert (R2 : rel (Some i) s1 s2).
  { split; [done|]. split; [done|]. exists t. split; [done|]. intros open Ho (o & ->). rewrite Hh in *. by apply C2. }
  destruct (desc_keys s1 s2 i d1 K2 E1) as (d2 & E2 & L2 & K2'). rewrite E2. cbn [mbind exec_bind].
  assert (Hu : used script script2 s s2).
  { split; [done|]. destruct script as [|c cs].
    - destruct (N2 eq_refl) as (-> & _ & N2b). split; [lia|]. intros _. congruence.
    - specialize (U2 ltac:(done)). split; lia. }
  assert (R : rel (Some i) s s2) by (eapply rel_trans; [exact R1|exact R2]).
  destruct (due d2) eqn:D2; [|by exists s2, script2].
  destruct script as [|c cs].
  { exfalso. destruct (N2 eq_refl) as (_ & N2a & _). apply desc_lookup in E1 as [_ E1]. rewrite N2a in L2. congruence. }
  specialize (U2 ltac:(done)).
  destruct (IH script2 s2 d2) as (s3 & script3 & E3 & R3 & U3); [lia|done|done|done| |done|].
  { unfold key in K2', K1. congruence. }
  exists s3, script3. split; [done|]. split; [by eapply rel_trans; [exact R|]|by eapply used_trans; [exact Hu|]].
Qed.

Lemma lock_ends top i ip s d : wf s → desc i s = Done d → ∃ b s', check_irq_lock i ip s = Done (b, s') ∧ rel top s s' ∧ irq_pending s' = irq_pending s.
Proof.
  intros W E. unfold check_irq_lock. rewrite E. cbn [mbind exec_bind]. pose proof (desc_lookup _ _ _ E) as [Hi L].
  destruct (_ && _); [destruct (MAX_IRQ_CNT <? _)|]; (eexists _, _; split; [done|]; split; [|done]; apply (rel_put _ _ _ d); [done..|exact (wf_13 _ _ _ W L)]).
Qed.

Lemma fixup_line i m : line_ok i → fixup_irq i m = Done i.
Proof. intros [_ H]. unfold fixup_irq. by rewrite (proj2 (Z.eqb_neq _ _)). Qed.

(** From the start of the handlers to their end. *)
Lemma enter_leave i s s1 s2 s3 d d2 :
  desc i s = Done d → running d = false → keys s1 = keys (put_desc i (set_running true d) s) → trace s1 = trace s ++ [Enter i] → rel (Some i) s1 s2 →
  desc i s2 = Done d2 → wf s3 → keys s3 = keys (put_desc i (set_running false d2) s2) → trace s3 = trace s2 ++ [Leave i] → rel None s s3.
Proof.
  intros E Hr K1 T1 (W2 & K2 & t & T2 & C) E2 W3 K3 T3. pose proof (desc_lookup _ _ _ E) as [Hi L]. pose proof (desc_lookup _ _ _ E2) as [_ L2].
  assert (Kd : key (set_running false d2) = key d).
  { apply keys_lookup in L2. rewrite K2, K1, keys_put, list_lookup_insert_eq in L2.
    - unfold key in *. cbn in *. congruence.
    - unfold keys. rewrite length_map. by apply lookup_lt_Some in L. }
  assert (K : keys s3 = keys s).
  { rewrite K3, keys_put, K2, K1, keys_put, list_insert_insert_eq, Kd. apply list_insert_id. by apply keys_lookup. }
  split; [done|]. split; [done|]. exists ([Enter i] ++ t ++ [Leave i]). split; [by rewrite T3, T2, T1, <-!app_assoc|].
  assert (Hh : ∀ j, handlers s1 j = handlers s j).
  { intros j. unfold handlers. rewrite K1, keys_put.
    destruct (decide (Z.to_nat i = Z.to_nat j)) as [Ej|Ej]; [|by rewrite list_lookup_insert_ne].
    rewrite <-Ej, list_lookup_insert_eq, (keys_lookup _ _ _ L); [done|]. unfold keys. rewrite length_map. by apply lookup_lt_Some in L. }
  intros open Ho _. cbn [app proper]. rewrite bool_decide_false.
  2:{ intros Hin. apply Ho in Hin as (_ & l & v & n & Hk). rewrite (keys_lookup _ _ _ L) in Hk. unfold key in Hk. congruence. }
  rewrite proper_app, <-Hh, (proper_ext _ (handlers s1)) by done. rewrite C.
  - cbn. rewrite Z.eqb_refl, bool_decide_true by done. done.
  - intros j. cbn. rewrite elem_of_cons. unfold runs. rewrite K1, keys_put. split.
    + intros [->|Hj]; [split; [done|]|].
      * eexists _, _, _. rewrite list_lookup_insert_eq; [done|]. unfold keys. rewrite length_map. by apply lookup_lt_Some in L.
      * apply Ho in Hj as (Hj0 & l & v & n & Hk). split; [done|]. exists l, v, n. rewrite list_lookup_insert_ne; [done|].
        intros Eij. rewrite <-Eij, (keys_lookup _ _ _ L) in Hk. unfold key in Hk. congruence.
    + intros (Hj0 & l & v & n & Hk). destruct (decide (j = i)) as [->|Hne]; [by left|right]. apply Ho. split; [done|].
      exists l, v, n. rewrite list_lookup_insert_ne in Hk by lia. done.
  - exists open. by rewrite Hh.
Qed.

Lemma do_IRQ_spec i ip script s :
  line_ok i → wf s → Forall good script →
  ∃ s' script', do_IRQ i ip script s = Done (s', script') ∧ rel None s s' ∧ used script script' s s'.
Proof.
  intros Hi W G. destruct Hi as [Hi H13]. unfold do_IRQ. rewrite fixup_line by done. cbn [mbind exec_bind].
  destruct (wf_desc s i W Hi) as (d & E & L). unfold change. rewrite E. cbn [mbind exec_bind].
  set (d1 := set_triggered true d). assert (R1 : rel None s (put_desc i d1 s)) by (apply (rel_put _ _ _ d); [done|lia|done|done|exact (wf_13 _ _ _ W L)]).
  destruct (mask_done i (put_desc i d1 s) ltac:(lia)) as (m & -> & _). cbn [mbind exec_bind].
  set (s1 := with_regs m (put_desc i d1 s)). assert (R1' : rel None s s1) by (eapply rel_trans; [exact R1|apply rel_regs, R1]).
  assert (E1 : desc i s1 = Done d1) by exact (desc_put _ _ _ d1 E). rewrite E1. cbn [mbind exec_bind].
  pose proof (desc_lookup _ _ _ E1) as [_ L1]. destruct (running d1 || negb (disable_depth d1 =? 0)) eqn:D.
  { eexists _, script. split; [done|]. split; [|by apply used_refl]. eapply rel_trans; [exact R1'|].
    apply (rel_put _ _ _ d1); [apply R1'|lia|done|done|]. intros ->. by destruct H13. }
  apply orb_false_iff in D as [Hrun _]. set (s2 := noted (Enter i) (count_irq i (put_desc i (set_running true d1) s1))).
  assert (W2 : wf s2) by (apply (wf_put s1 i); [apply R1'|lia|exact (wf_valid _ _ _ (proj1 R1') L1)|intros ->; by destruct H13]).
  assert (E2 : desc i s2 = Done (set_running true d1)) by exact (desc_put _ _ _ (set_running true d1) E1).
  destruct (irq_loop_spec (length script + 1) i script s2 (set_running true d1)) as (s3 & script3 & -> & R3 & U3); [lia|done|done|done|done|done|].
  cbn [mbind exec_bind]. destruct (desc_keys s2 s3 i _ (proj1 (proj2 R3)) E2) as (d3 & E3 & L3 & K3).
  change (desc i (noted (Leave i) s3)) with (desc i s3). rewrite E3. cbn [mbind exec_bind].
  set (s4 := put_desc i (set_running false d3) (noted (Leave i) s3)).
  assert (W4 : wf s4).
  { apply (wf_put (noted (Leave i) s3)); [apply R3|lia|exact (wf_valid _ _ _ (proj1 R3) L3)|intros ->; by destruct H13]. }
  assert (R4 : rel None s s4).
  { eapply rel_trans; [exact R1'|]. by apply (enter_leave i s1 s2 s3 s4 d1 d3). }
  assert (E4 : desc i s4 = Done (set_running false d3)) by exact (desc_put (noted (Leave i) s3) _ _ (set_running false d3) E3).
  assert (U4 : used script script3 s s4) by exact U3.
  rewrite E4. cbn [mbind exec_bind]. destruct (action (set_running false d3)); [by exists s4, script3|].
  destruct (lock_ends None i ip s4 _ W4 E4) as (b & s5 & -> & R5 & P5). cbn [mbind exec_bind].
  assert (U5 : used script script3 s s5) by (destruct U4 as (? & ? & HP); split; [done|]; split; [done|]; intros ?; rewrite P5; auto).
  assert (R5' : rel None s s5) by (eapply rel_trans; [exact R4|exact R5]).
  destruct b; [by exists s5, script3|]. destruct (unmask_done i s5 ltac:(lia)) as (m' & -> & _). cbn [mbind exec_bind].
  eexists _, script3. split; [done|]. split; [|exact U5]. eapply rel_trans; [exact R5'|apply rel_regs, R5'].
Qed.

Lemma run_pendings_spec l ip script s :
  Forall line_ok l → wf s → Forall good script →
  ∃ s' script', run_pendings l ip script s = Done (s', script') ∧ rel None s s' ∧ used script script' s s'.
Proof.
  revert script s. induction l as [|i l IH]; intros script s Hl W G; cbn [run_pendings].
  { exists s, script. split; [done|]. split; [by apply rel_refl|by apply used_refl]. }
  apply Forall_cons in Hl as [Hi Hl]. destruct (wf_desc s i W (proj1 Hi)) as (d & E & L). unfold change. rewrite E. cbn [mbind exec_bind].
  set (s1 := put_desc i (set_pend false d) s).
  assert (R1 : rel None s s1) by (apply (rel_put _ _ _ d); [done|apply Hi|done|done|exact (wf_13 _ _ _ W L)]).
  destruct (do_IRQ_spec i ip script s1 Hi (proj1 R1) G) as (s2 & script2 & -> & R2 & U2). cbn [mbind exec_bind].
  destruct (IH script2 s2 Hl (proj1 R2) (proj1 U2)) as (s3 & script3 & -> & R3 & U3). exists s3, script3. split; [done|]. split.
  - eapply rel_trans; [exact R1|]. by eapply rel_trans.
  - by apply (used_trans script script2 _ s s2 s3).
Qed.

Lemma do_pending_spec fuel ip script s :
  (length script < fuel)%nat → wf s → Forall good script →
  ∃ s' script', do_pending_irqs fuel ip script s = Done (s', script') ∧ rel None s s'.
Proof.
  revert script s. induction fuel as [|fuel IH]; intros script s Hf W G; [lia|]. cbn [do_pending_irqs]. destruct W as (W1 & W2 & W3 & W4).
  assert (R0 : rel None s (with_pendings [] s)) by (apply rel_silent; [split_and!; done|done|done]).
  destruct (run_pendings_spec (irq_pending s) ip script (with_pendings [] s)) as (s1 & script1 & -> & R1 & G1 & L1 & P1); [done|apply R0|done|].
  cbn [mbind exec_bind]. assert (R : rel None s s1) by (by eapply rel_trans; [exact R0|]).
  destruct (irq_pending s1) as [|j l] eqn:Ep; [by exists s1, script1|].
  destruct (IH script1 s1) as (s2 & script2 & -> & R2); [|apply R|done|].
  { destruct (decide (length script1 = length script)) as [El|]; [|lia]. specialize (P1 El). cbn in P1. congruence. }
  exists s2, script2. split; [done|]. by eapply rel_trans.
Qed.

(** An interrupt, whatever its number, ends. *)
Lemma asm_do_IRQ_ends i ip script s : 0 <= i → wf s → Forall good script → ends None s (asm_do_IRQ i ip script s).
Proof.
  intros Hi W G. unfold asm_do_IRQ.
  assert (H1 : ∃ i', fixup_irq i (regs s) = Done i' ∧ 0 <= i' ∧ i' ≠ IRQ_PL_DMAC0).
  { unfold fixup_irq. destruct (Z.eqb_spec i IRQ_PL_DMAC0); [|by exists i]. eexists. split; [done|].
    pose proof (rd_range 4 (regs s) PL_DMA_INT_VECTOR) as Hv. unfold LEVEL3_IRQ_OFFSET, IRQ_PL_DMAC0.
    assert (0 <= Z.shiftr (rd 4 (regs s) PL_DMA_INT_VECTOR) 2) by (apply Z.shiftr_nonneg; lia). lia. }
  destruct H1 as (i' & -> & Hi' & H13). cbn [mbind exec_bind]. destruct (Z.ltb_spec i' NR_IRQS).
  - destruct (do_IRQ_spec i' ip script s) as (s1 & script1 & -> & R1 & U1); [done|done|done|]. cbn [mbind exec_bind].
    destruct (irq_pending s1) eqn:Ep; [by exists s1|].
    destruct (do_pending_spec (length script1 + 1) ip script1 s1) as (s2 & script2 & -> & R2); [lia|apply R1|apply U1|].
    exists s2. split; [done|]. by eapply rel_trans.
  - eexists. split; [done|]. by apply rel_silent.
Qed.

(** ** What can happen *)

Fixpoint event_ok (e : event) : bool :=
  match e with
  | EDisable i | EEnable i | ETimeout i => (0 <=? i) && (i <? NR_IRQS)
  | ETick => true
  | EIrq i _ _ script => (0 <=? i) && forallb (forallb event_ok) script
  end.

Lemma happens_ends on l s :
  (∀ s, Forall (λ e, wf s → ends None s (happen on e s)) l) → wf s → ends None s (happens on l s).
Proof.
  revert s. induction l as [|e l IH]; intros s Hl W; [by exists s; split; [|apply rel_refl]|]. rewrite happens_cons.
  pose proof (Hl s) as Hs. apply Forall_cons in Hs as [He _]. destruct (He W) as (s1 & -> & R1). cbn [mbind exec_bind].
  destruct (IH s1) as (s2 & -> & R2); [intros s0; specialize (Hl s0); by apply Forall_cons in Hl as [_ ?]|apply R1|].
  exists s2. split; [done|]. by eapply rel_trans.
Qed.

Lemma happen_ends e : event_ok e = true → ∀ on s, wf s → ends None s (happen on e s).
Proof.
  induction e as [i|i| |i|i v ip script IH] using event_rec'; intros Hok on s W; cbn [event_ok] in Hok.
  - apply disable_ends; [done|lia].
  - apply enable_ends; [done|lia].
  - eexists. split; [done|]. by apply rel_silent.
  - cbn [happen]. destruct (wf_desc s i W ltac:(lia)) as (d & -> & _). cbn [mbind exec_bind]. destruct (lck_timer d).
    + apply timeout_ends; [done|lia].
    + exists s. split; [done|by apply rel_refl].
  - rewrite happen_irq. destruct on; [|exists s; split; [done|by apply rel_refl]]. apply andb_true_iff in Hok as [Hi Hs].
    set (s1 := with_regs (wr 4 v PL_DMA_INT_VECTOR (regs s)) s).
    destruct (asm_do_IRQ_ends i ip (calls script) s1) as (s2 & -> & R2); [lia|done| |].
    + unfold calls. rewrite Forall_fmap. apply Forall_forall. intros l Hl on' s' W'. apply happens_ends; [|done].
      rewrite Forall_forall in IH. specialize (IH l Hl). rewrite forallb_forall in Hs. apply list_elem_of_In in Hl. specialize (Hs l Hl).
      intros s0. rewrite forallb_forall in Hs. rewrite Forall_forall in IH |- *. intros e He W0. apply IH; [done| |done]. apply Hs. by apply list_elem_of_In.
    + exists s2. split; [done|]. eapply rel_trans; [by apply rel_regs|exact R2].
Qed.

Lemma list_happens l on s : forallb event_ok l = true → wf s → ends None s (happens on l s).
Proof.
  intros Hl W. apply happens_ends; [|done]. intros s0. apply Forall_forall. intros e He W0. apply happen_ends; [|done].
  rewrite forallb_forall in Hl. apply Hl. by apply list_elem_of_In.
Qed.

(** ** Probing *)

Lemma probe_start_ends n i count s : wf s → 0 <= i → i + Z.of_nat n <= NR_IRQS → ∃ c s', probe_start n i count s = Done (c, s') ∧ rel None s s'.
Proof.
  revert i count s. induction n as [|n IH]; intros i count s W Hi Hn; cbn [probe_start]; [eexists _, s; split; [done|by apply rel_refl]|].
  destruct (wf_desc s i W ltac:(lia)) as (d & E & L). rewrite E. cbn [mbind exec_bind]. destruct (_ || _); [apply IH; [done|lia..]|].
  set (d1 := set_triggered false (set_probing true d)).
  assert (R1 : rel None s (put_desc i d1 s)) by (apply (rel_put _ _ _ d); [done|lia|done|done|exact (wf_13 _ _ _ W L)]).
  destruct (unmask_done i (put_desc i d1 s) ltac:(lia)) as (m & -> & _). cbn [mbind exec_bind].
  destruct (IH (i + 1) (count + 1) (with_regs m (put_desc i d1 s))) as (c & s2 & -> & R2); [apply R1|lia..|]. eexists c, s2. split; [done|].
  eapply rel_trans; [exact R1|]. eapply rel_trans; [apply rel_regs, R1|exact R2].
Qed.

Lemma probe_filter_ends n i count s : wf s → 0 <= i → i + Z.of_nat n <= NR_IRQS → ∃ c s', probe_filter n i count s = Done (c, s') ∧ rel None s s'.
Proof.
  revert i count s. induction n as [|n IH]; intros i count s W Hi Hn; cbn [probe_filter]; [eexists _, s; split; [done|by apply rel_refl]|].
  destruct (wf_desc s i W ltac:(lia)) as (d & E & L). rewrite E. cbn [mbind exec_bind]. destruct (_ && _); [|apply IH; [done|lia..]].
  assert (R1 : rel None s (put_desc i (set_probing false d) s)) by (apply (rel_put _ _ _ d); [done|lia|done|done|exact (wf_13 _ _ _ W L)]).
  destruct (IH (i + 1) (count - 1) (put_desc i (set_probing false d) s)) as (c & s2 & -> & R2); [apply R1|lia..|]. eexists c, s2. split; [done|].
  by eapply rel_trans.
Qed.

Lemma probe_on_ends l s : forallb event_ok l = true → wf s → ∃ rc s', probe_irq_on l s = Done (rc, s') ∧ rel None s s'.
Proof.
  intros Hl W. unfold probe_irq_on. assert (Hn : 0 + Z.of_nat (Z.to_nat NR_IRQS) <= NR_IRQS) by done.
  generalize dependent (Z.to_nat NR_IRQS). intros n Hn.
  destruct (probe_start_ends n 0 0 s W) as (c & s1 & -> & R1); [lia|done|]. cbn [mbind exec_bind].
  destruct (list_happens l true s1 Hl (proj1 R1)) as (s2 & -> & R2). cbn [mbind exec_bind].
  destruct (probe_filter_ends n 0 c s2 (proj1 R2)) as (c3 & s3 & -> & R3); [lia|done|]. cbn [mbind exec_bind].
  eexists _, s3. split; [done|]. eapply rel_trans; [exact R1|]. by eapply rel_trans.
Qed.

(** ** The table of handlers *)

Definition table (s : irqs) : list (list irqaction) := map action (irq_desc s).

Definition shareable (old new : irqaction) : bool := negb (Z.land (Z.land (a_flags old) (a_flags new)) SA_SHIRQ =? 0).

(** What requests and releases do to it, with the results they give. *)
Definition spec (o : op) (tbl : list (list irqaction)) : option Z * list (list irqaction) :=
  match o with
  | Request irq h f nm dev room =>
      match tbl !! Z.to_nat irq with
      | None => (Some (- EINVAL), tbl)
      | Some l =>
          let new := mk_action h f nm dev in
          if (h =? 0) || (negb (Z.land f SA_SHIRQ =? 0) && (dev =? 0)) then (Some (- EINVAL), tbl)
          else if negb room then (Some (- ENOMEM), tbl)
          else if match l with old :: _ => shareable old new | [] => true end then (Some 0, <[Z.to_nat irq := l ++ [new]]> tbl)
          else (Some (- EBUSY), tbl)
      end
  | Free irq dev => (Some 0, match tbl !! Z.to_nat irq with Some l => <[Z.to_nat irq := unlink dev l]> tbl | None => tbl end)
  | _ => (None, tbl)
  end.

Definition op_ok (o : op) : bool :=
  match o with
  | Request irq _ _ _ _ _ | Free irq _ => 0 <=? irq
  | Happen e => event_ok e
  | Probe l => forallb event_ok l
  end.

(** Between operations no handler is being called. *)
Definition inv (s : irqs) : Prop := wf s ∧ Forall (λ d, running d = false) (irq_desc s).

Lemma inv_opens s : inv s → opens s [].
Proof.
  intros [_ Q] i. split; [by intros ?%elem_of_nil|]. intros (_ & l & v & n & H). exfalso. unfold keys in H.
  apply list_lookup_fmap_Some in H as (d & Hk & Hd). apply (Forall_lookup_1 _ _ _ _ Q) in Hd. unfold key in Hk. congruence.
Qed.

Lemma rel_inv top s s' : inv s → rel top s s' → inv s'.
Proof.
  intros [_ Q] (W & K & _). split; [done|]. apply Forall_lookup. intros i d Hd.
  assert (H : keys s !! i = Some (key d)) by (rewrite <-K; unfold keys; by rewrite list_lookup_fmap, Hd).
  unfold keys in H. apply list_lookup_fmap_Some in H as (d' & Hk & Hd'). apply (Forall_lookup_1 _ _ _ _ Q) in Hd'. unfold key in Hk. congruence.
Qed.

Lemma table_keys s s' : keys s' = keys s → table s' = table s.
Proof.
  intros K. unfold table. assert (H : ∀ s, map action (irq_desc s) = map (λ k : bool * list irqaction * bool * bool, k.1.1.2) (keys s)).
  { intros x. unfold keys. rewrite map_map. done. }
  by rewrite !H, K.
Qed.

(** What an operation does, against the table and the trace. *)
Definition refines (o : op) (s : irqs) (rc : Z) (s' : irqs) : Prop :=
  inv s' ∧ match spec o (table s) with (Some rc', tbl) => rc = rc' ∧ table s' = tbl | (None, tbl) => table s' = tbl end ∧
  ∃ t, trace s' = trace s ++ t ∧ proper (handlers s) [] t = Some [].

Lemma rel_refines o s rc s' : inv s → rel None s s' → spec o (table s) = (None, table s) → refines o s rc s'.
Proof.
  intros I R E. split; [by apply (rel_inv None s)|]. rewrite E. split; [apply table_keys, R|].
  destruct R as (_ & _ & t & T & C). exists t. split; [done|]. apply C; [by apply inv_opens|done].
Qed.

(** A new chain for a line. *)
Lemma inv_put s i d d' : inv s → desc i s = Done d → running d' = false → valid d' = true → (i = 13 → pending d' = false) → inv (put_desc i d' s).
Proof.
  intros [W Q] E R V P. apply desc_lookup in E as [Hi _]. split; [by apply wf_put|]. cbn. by apply Forall_insert.
Qed.

Lemma table_put s i d : table (put_desc i d s) = <[Z.to_nat i := action d]> (table s).
Proof. unfold table, put_desc. cbn. by rewrite list_fmap_insert. Qed.

Lemma refines_silent o s rc s' :
  inv s' → trace s' = trace s → match spec o (table s) with (Some rc', tbl) => rc = rc' ∧ table s' = tbl | (None, tbl) => table s' = tbl end → refines o s rc s'.
Proof. intros I T E. split; [done|]. split; [done|]. exists []. by rewrite app_nil_r. Qed.

Lemma request_refines irq h f nm dev room s :
  inv s → 0 <= irq → ∃ rc s', request_irq irq h f nm dev room s = Done (rc, s') ∧ refines (Request irq h f nm dev room) s rc s'.
Proof.
  intros I Hi. pose proof I as [W Q]. unfold request_irq. assert (Ht : length (table s) = 32%nat) by (unfold table; rewrite length_map; apply W).
  destruct (Z.leb_spec NR_IRQS irq) as [Hb|Hb].
  { eexists _, s. split; [done|]. apply refines_silent; [done|done|]. cbn [spec]. rewrite lookup_ge_None_2 by (rewrite Ht; unfold NR_IRQS in Hb; lia). done. }
  destruct (wf_desc s irq W ltac:(lia)) as (d & E & L). rewrite E. cbn [mbind exec_bind].
  assert (Hl : table s !! Z.to_nat irq = Some (action d)) by (unfold table; by rewrite list_lookup_fmap, L).
  rewrite (wf_valid _ _ _ W L). cbn [negb orb].
  destruct ((h =? 0) || _) eqn:Hbad; [eexists _, s; split; [done|]; apply refines_silent; [done|done|]; cbn [spec]; by rewrite Hl, Hbad|].
  destruct room; cbn [negb]; [|eexists _, s; split; [done|]; apply refines_silent; [done|done|]; cbn [spec]; by rewrite Hl, Hbad].
  unfold setup_arm_irq. rewrite E. cbn [mbind exec_bind]. pose proof (wf_valid _ _ _ W L) as V. pose proof (wf_13 _ _ _ W L) as P13.
  destruct (action d) as [|old rest] eqn:Ea.
  - set (d1 := set_depth 1 _). set (d2 := if noautoenable d1 then d1 else set_depth 0 d1).
    assert (I2 : inv (put_desc irq d2 s)) by (apply (inv_put s irq d); [done..| | |]; unfold d2; by destruct (noautoenable d1)).
    assert (T2 : table (put_desc irq d2 s) = <[Z.to_nat irq := [mk_action h f nm dev]]> (table s)) by (rewrite table_put; unfold d2; by destruct (noautoenable d1)).
    unfold d2 in *. destruct (noautoenable d1).
    + eexists _, _. split; [done|]. apply refines_silent; [done|done|]. cbn [spec]. by rewrite Hl, Hbad.
    + destruct (unmask_done irq (put_desc irq (set_depth 0 d1) s) Hi) as (m & -> & _). cbn [mbind exec_bind].
      eexists _, _. split; [done|]. apply refines_silent; [done|done|]. cbn [spec]. by rewrite Hl, Hbad.
  - destruct (Z.land (Z.land (a_flags old) _) SA_SHIRQ =? 0) eqn:Hsh.
    + eexists _, s. split; [done|]. apply refines_silent; [done|done|]. cbn [spec]. rewrite Hl, Hbad. cbn [negb]. unfold shareable. by rewrite Hsh.
    + eexists _, _. split; [done|]. apply refines_silent; [| done|].
      * apply (inv_put s irq d); [done..| | |]; [|done|done]. apply desc_lookup in E as [_ E]. by apply (Forall_lookup_1 _ _ _ _ Q) in E.
      * cbn [spec]. rewrite Hl, Hbad. cbn [negb]. unfold shareable. rewrite Hsh. cbn [negb]. split; [done|]. by rewrite table_put.
Qed.

Lemma free_refines irq dev s :
  inv s → 0 <= irq → ∃ s', free_irq irq dev s = Done s' ∧ refines (Free irq dev) s 0 s'.
Proof.
  intros I Hi. pose proof I as [W Q]. unfold free_irq. assert (Ht : length (table s) = 32%nat) by (unfold table; rewrite length_map; apply W).
  destruct (Z.leb_spec NR_IRQS irq) as [Hb|Hb].
  { exists s. split; [done|]. apply refines_silent; [done|done|]. cbn [spec]. split; [done|].
    rewrite lookup_ge_None_2 by (rewrite Ht; unfold NR_IRQS in Hb; lia). done. }
  destruct (wf_desc s irq W ltac:(lia)) as (d & E & L). rewrite E. cbn [mbind exec_bind]. rewrite (wf_valid _ _ _ W L). cbn [negb].
  eexists. split; [done|]. apply refines_silent; [|done|].
  - apply (inv_put s irq d); [done..| | |]; [|exact (wf_valid _ _ _ W L)|exact (wf_13 _ _ _ W L)]. by apply (Forall_lookup_1 _ _ _ _ Q) in L.
  - cbn [spec]. split; [done|]. rewrite table_put. unfold table at 2. by rewrite list_lookup_fmap, L.
Qed.

(** ** Everything that can be reached *)

Inductive reachable : irqs → Prop :=
| reach_init m s : init_IRQ m = Done s → reachable s
| reach_op o s rc s' : reachable s → op_ok o = true → run o s = Done (rc, s') → reachable s'.

Lemma init_inv m s : init_IRQ m = Done s → inv s.
Proof.
  unfold init_IRQ. cbn [mbind exec_bind writew aligned]. intros [= <-]. split; [|cbn; repeat constructor].
  split; [done|]. split; [constructor|]. split; [cbn; repeat constructor|]. by intros d [= <-].
Qed.

Lemma run_refines o s : inv s → op_ok o = true → ∃ rc s', run o s = Done (rc, s') ∧ refines o s rc s'.
Proof.
  intros I Ho. destruct o as [irq h f nm dev room|irq dev|e|l]; cbn [run op_ok] in *.
  - apply request_refines; [done|lia].
  - destruct (free_refines irq dev s I ltac:(lia)) as (s' & -> & R). by eexists _, s'.
  - destruct (happen_ends e Ho true s (proj1 I)) as (s' & -> & R). eexists _, s'. split; [done|]. by apply rel_refines.
  - destruct (probe_on_ends l s Ho (proj1 I)) as (rc & s' & E & R). exists rc, s'. split; [done|]. by apply rel_refines.
Qed.

Lemma reachable_inv s : reachable s → inv s.
Proof.
  induction 1 as [m s H|o s rc s' _ I Ho E]; [by apply (init_inv m)|]. destruct (run_refines o s I Ho) as (rc' & s'' & E' & R). rewrite E in E'.
  injection E' as -> ->. apply R.
Qed.

(** C7 (refinement): in every state that can be reached, every operation and everything
    that can happen ends without a fault, however interrupts are nested in the calls of
    handlers; requests and releases give the results and the chains of a table of lists;
    and what is called is the whole chain of a line in its order, any number of times,
    between entering and leaving the line, which is never entered twice. *)
Theorem interrupts_refined (o : op) (s : irqs) :
  reachable s → op_ok o = true →
  ∃ rc s', run o s = Done (rc, s') ∧ reachable s' ∧
    match spec o (table s) with (Some rc', tbl) => rc = rc' ∧ table s' = tbl | (None, tbl) => table s' = tbl end ∧
    ∃ t, trace s' = trace s ++ t ∧ proper (handlers s) [] t = Some [].
Proof.
  intros R Ho. destruct (run_refines o s (reachable_inv s R) Ho) as (rc & s' & E & _ & T & H). exists rc, s'. split; [done|]. split; [|done].
  by apply (reach_op o s rc).
Qed.

(** ** The masks *)

Definition mask_bit (m : bus) (i : Z) : bool :=
  if i <? MAX_LEVEL2_IRQ then Z.testbit (rd 2 m PL_INT_MASK) i else Z.testbit (rd 2 m PL_DMA_INT_MASK) (i - LEVEL3_IRQ_OFFSET).

(** Whether an interrupt gets through to the processor. *)
Definition line_open (m : bus) (i : Z) : bool :=
  mask_bit m i && ((i <? MAX_LEVEL2_IRQ) || mask_bit m IRQ_PL_DMAC0).

Lemma testbit_reg v a m i : 0 <= i < 16 → Z.testbit (rd 2 (wr 2 v a m) a) i = Z.testbit v i.
Proof. intros Hi. rewrite rd_wr_same. apply Z.mod_pow2_bits_low. lia. Qed.

Lemma masks_apart m v w : rd 2 (wr 2 v PL_DMA_INT_MASK m) PL_INT_MASK = rd 2 m PL_INT_MASK ∧ rd 2 (wr 2 w PL_INT_MASK m) PL_DMA_INT_MASK = rd 2 m PL_DMA_INT_MASK.
Proof. split; apply rd_wr_other; unfold PL_INT_MASK, PL_DMA_INT_MASK, PL_DMA_BASE; lia. Qed.

Lemma Done_inj {A} (x y : A) : Done x = Done y → x = y.
Proof. by intros [= ->]. Qed.

Lemma mask_level2 i m : i < 16 → pl_mask_irq i m = Done (wr 2 (put_bit (rd 2 m PL_INT_MASK) i false) PL_INT_MASK m).
Proof. intros Hi. unfold pl_mask_irq, NR_IRQS, MAX_LEVEL2_IRQ. rewrite (proj2 (Z.leb_gt _ _)), (proj2 (Z.ltb_lt _ _)) by lia. done. Qed.

Lemma mask_level3 i m : 16 <= i < 32 → pl_mask_irq i m = Done (wr 2 (put_bit (rd 2 m PL_DMA_INT_MASK) (i - 16) false) PL_DMA_INT_MASK m).
Proof. intros Hi. unfold pl_mask_irq, NR_IRQS, MAX_LEVEL2_IRQ. rewrite (proj2 (Z.leb_gt _ _)), (proj2 (Z.ltb_ge _ _)) by lia. done. Qed.

Lemma unmask_level2 i m : i < 16 → pl_unmask_irq i m = Done (wr 2 (put_bit (rd 2 m PL_INT_MASK) i true) PL_INT_MASK m).
Proof. intros Hi. unfold pl_unmask_irq, NR_IRQS, MAX_LEVEL2_IRQ. rewrite (proj2 (Z.leb_gt _ _)), (proj2 (Z.ltb_lt _ _)) by lia. done. Qed.

Lemma unmask_level3 i m : 16 <= i < 32 →
  pl_unmask_irq i m = Done (wr 2 (put_bit (rd 2 m PL_DMA_INT_MASK) (i - 16) true) PL_DMA_INT_MASK (wr 2 (put_bit (rd 2 m PL_INT_MASK) 13 true) PL_INT_MASK m)).
Proof.
  intros Hi. unfold pl_unmask_irq, NR_IRQS, MAX_LEVEL2_IRQ. rewrite (proj2 (Z.leb_gt _ _)), (proj2 (Z.ltb_ge _ _)) by lia.
  rewrite <-(proj2 (masks_apart m 0 (put_bit (rd 2 m PL_INT_MASK) 13 true))). done.
Qed.

Lemma mask_bits i m m' : 0 <= i < NR_IRQS → pl_mask_irq i m = Done m' →
  ∀ j, 0 <= j < NR_IRQS → mask_bit m' j = if decide (j = i) then false else mask_bit m j.
Proof.
  unfold NR_IRQS. intros Hi E j Hj. unfold mask_bit, MAX_LEVEL2_IRQ, LEVEL3_IRQ_OFFSET.
  destruct (Z.ltb_spec i 16); [rewrite mask_level2 in E by lia|rewrite mask_level3 in E by lia]; apply Done_inj in E as <-; destruct (Z.ltb_spec j 16).
  - by rewrite testbit_reg, testbit_put by lia.
  - rewrite (proj2 (masks_apart m 0 _)). by rewrite decide_False by lia.
  - rewrite (proj1 (masks_apart m _ 0)). by rewrite decide_False by lia.
  - rewrite testbit_reg, testbit_put by lia. destruct (decide (j = i)); [by rewrite decide_True by lia|by rewrite decide_False by lia].
Qed.

Lemma unmask_bits i m m' : 0 <= i < NR_IRQS → pl_unmask_irq i m = Done m' →
  ∀ j, 0 <= j < NR_IRQS → mask_bit m' j = if decide (j = i ∨ MAX_LEVEL2_IRQ <= i ∧ j = IRQ_PL_DMAC0) then true else mask_bit m j.
Proof.
  unfold NR_IRQS. intros Hi E j Hj. unfold mask_bit, MAX_LEVEL2_IRQ, LEVEL3_IRQ_OFFSET, IRQ_PL_DMAC0.
  destruct (Z.ltb_spec i 16); [rewrite unmask_level2 in E by lia|rewrite unmask_level3 in E by lia]; apply Done_inj in E as <-; destruct (Z.ltb_spec j 16).
  - rewrite testbit_reg, testbit_put by lia. destruct (decide (j = i)); [by rewrite decide_True by lia|by rewrite decide_False by lia].
  - rewrite (proj2 (masks_apart m 0 _)). by rewrite decide_False by lia.
  - rewrite (proj1 (masks_apart _ _ 0)), testbit_reg, testbit_put by lia.
    destruct (decide (j = 13)); [by rewrite decide_True by lia|by rewrite decide_False by lia].
  - rewrite testbit_reg, testbit_put by lia. destruct (decide (j = i)); [by rewrite !decide_True by lia|].
    by rewrite !decide_False by lia.
Qed.

Lemma masked_closed i m m' : 0 <= i < NR_IRQS → pl_mask_irq i m = Done m' → line_open m' i = false.
Proof. intros Hi E. unfold line_open. by rewrite (mask_bits i m m' Hi E i Hi), decide_True by done. Qed.

Lemma unmasked_open i m m' : 0 <= i < NR_IRQS → pl_unmask_irq i m = Done m' → line_open m' i = true.
Proof.
  intros Hi E. unfold line_open. rewrite (unmask_bits i m m' Hi E i Hi), decide_True by (by left). cbn [andb].
  destruct (Z.ltb_spec i MAX_LEVEL2_IRQ); [done|]. rewrite (unmask_bits i m m' Hi E IRQ_PL_DMAC0 ltac:(done)), decide_True by (by right). done.
Qed.
