(* ===== verification/IrqDelivery.v ===== *)
(** * An interrupt that has to wait

    A line that is off at an interrupt keeps it: [deferred_delivered].  Then examples:
    what the theorems say on a board with a few handlers, and two places where the code
    does not do what its comments say ([own_line_open], [freed_line_open]). *)

From S2P Require Import Prelude Bus Dma Gpio Irq IrqTheorems.

Local Open Scope Z_scope.

(** ** One line on and off *)

Fixpoint times (k : nat) (f : irqs → exec irqs) (s : irqs) : exec irqs :=
  match k with O => Done s | S k' => s ← f s; times k' f s end.

(** Only the descriptor of a line and the masks differ. *)
Definition only (i : Z) (d : irqdesc) (s s' : irqs) : Prop :=
  irq_desc s' = <[Z.to_nat i := d]> (irq_desc s) ∧ irq_pending s' = irq_pending s ∧ trace s' = trace s ∧ jiffies s' = jiffies s.

Lemma only_desc i d d0 s s' : desc i s = Done d0 → only i d s s' → desc i s' = Done d.
Proof.
  intros H (E & _). apply desc_lookup in H as [Hi H]. apply lookup_desc; [done|]. rewrite E. apply list_lookup_insert_eq. by apply lookup_lt_Some in H.
Qed.

Lemma only_other i d j s s' : 0 <= i → i ≠ j → only i d s s' → desc j s' = desc j s.
Proof.
  intros Hi Hj (E & _). unfold desc. destruct (Z.ltb_spec j 0); [done|]. rewrite E, list_lookup_insert_ne; [done|lia].
Qed.

Lemma only_trans i d1 d2 s1 s2 s3 : only i d1 s1 s2 → only i d2 s2 s3 → only i d2 s1 s3.
Proof.
  intros (A1 & A2 & A3 & A4) (B1 & B2 & B3 & B4). split; [by rewrite B1, A1, list_insert_insert_eq|]. split_and!; congruence.
Qed.

(** The first time closes the line, the others only count. *)
Lemma disable_times k i s d :
  desc i s = Done d → disable_depth d = 0 → 0 <= i < NR_IRQS → (0 < k)%nat → Z.of_nat k < 2 ^ 32 →
  ∃ s', times k (disable_irq i) s = Done s' ∧ only i (set_depth (Z.of_nat k) d) s s' ∧ line_open (regs s') i = false.
Proof.
  intros E D Hi Hk Hb. assert (H : ∀ n s1 d1, desc i s1 = Done d1 → 0 < disable_depth d1 → disable_depth d1 + Z.of_nat n < 2 ^ 32 →
    ∃ s', times n (disable_irq i) s1 = Done s' ∧ only i (set_depth (disable_depth d1 + Z.of_nat n) d1) s1 s' ∧ regs s' = regs s1).
  { induction n as [|n IH]; intros s1 d1 E1 D1 B1; cbn [times].
    - exists s1. split; [done|]. split; [|done]. split; [|done]. pose proof (desc_lookup _ _ _ E1) as [_ L]. rewrite list_insert_id; [done|].
      rewrite L. f_equal. destruct d1. cbn. unfold set_depth. cbn. f_equal. lia.
    - unfold disable_irq at 2. rewrite E1. cbn [mbind exec_bind]. rewrite (proj2 (Z.eqb_neq _ _)) by lia. cbn [mbind exec_bind].
      set (d2 := set_depth (u32 (disable_depth d1 + 1)) d1). assert (U : u32 (disable_depth d1 + 1) = disable_depth d1 + 1) by (unfold u32; apply Z.mod_small; lia).
      assert (E2 : desc i (put_desc i d2 s1) = Done d2) by exact (desc_put _ _ _ d2 E1).
      assert (O : only i d2 s1 (put_desc i d2 s1)) by done.
      destruct (IH (put_desc i d2 s1) d2 E2) as (s' & -> & O' & R'); [cbn; rewrite U; lia|cbn; rewrite U; lia|]. exists s'. split; [done|].
      split; [|done]. pose proof (only_trans _ _ _ _ _ _ O O') as T. cbn in T. rewrite U in T.
      replace (disable_depth d1 + Z.of_nat (S n)) with (disable_depth d1 + 1 + Z.of_nat n) by lia. exact T. }
  destruct k as [|k]; [lia|]. cbn [times]. unfold disable_irq at 2. rewrite E. cbn [mbind exec_bind]. rewrite D. cbn [Z.eqb].
  set (d1 := set_depth (u32 (0 + 1)) d). destruct (mask_done i (put_desc i d1 s) ltac:(lia)) as (m & -> & Em). cbn [mbind exec_bind].
  set (s1 := with_regs m (put_desc i d1 s)). assert (E1 : desc i s1 = Done d1) by exact (desc_put _ _ _ d1 E).
  destruct (H k s1 d1 E1) as (s' & -> & O & R); [done|change (1 + Z.of_nat k < 2 ^ 32); lia|]. exists s'. split; [done|]. split.
  - assert (O1 : only i d1 s s1) by done. pose proof (only_trans _ _ _ _ _ _ O1 O) as T. cbn in T. change (u32 1) with 1 in T.
    replace (Z.of_nat (S k)) with (1 + Z.of_nat k) by lia. exact T.
  - rewrite R. by apply (masked_closed i (regs (put_desc i d1 s))).
Qed.

(** The last time opens it, and puts it in the list when an interrupt had come. *)
Lemma enable_times k i s d :
  desc i s = Done d → disable_depth d = Z.of_nat k → 0 <= i < NR_IRQS → (0 < k)%nat → pending d = true → pend d = false →
  ∃ s', times k (enable_irq i) s = Done s' ∧ desc i s' = Done (set_pend true (set_pending false (set_probing false (set_depth 0 d)))) ∧
    (∀ j, i ≠ j → desc j s' = desc j s) ∧ irq_pending s' = i :: irq_pending s ∧ trace s' = trace s ∧ keys s' = keys s ∧ line_open (regs s') i = true.
Proof.
  revert s d. induction k as [|k IH]; intros s d E D Hi Hk P Q; [lia|]. pose proof (desc_lookup _ _ _ E) as [Hi0 L]. cbn [times].
  unfold enable_irq at 2. rewrite E. cbn [mbind exec_bind]. rewrite (proj2 (Z.eqb_neq _ _)) by lia. cbn [disable_depth set_depth].
  destruct (Z.eqb_spec (disable_depth d - 1) 0) as [Hz|Hz]; cbn [negb].
  - assert (k = 0%nat) as -> by lia. set (d1 := set_probing false _). destruct (unmask_done i (put_desc i d1 s) Hi0) as (m & -> & Em).
    cbn [mbind exec_bind]. change (pending d1) with (pending d). rewrite P. change (pend (set_pending false d1)) with (pend d). rewrite Q.
    cbn [mbind exec_bind times]. set (s1 := with_regs m (put_desc i d1 s)). set (d2 := set_pend true (set_pending false d1)).
    assert (E1 : desc i s1 = Done d1) by exact (desc_put _ _ _ d1 E). eexists. split; [done|]. split; [|split; [|split; [done|split; [done|split]]]].
    + transitivity (Done d2); [exact (desc_put _ _ _ d2 E1)|]. unfold d2, d1. by rewrite Hz.
    + intros j Hj. assert (O : only i d2 s (put_desc i d2 s1)) by (apply (only_trans i d1 d2 s s1); done).
      transitivity (desc j (put_desc i d2 s1)); [done|]. by apply (only_other i d2).
    + transitivity (keys (put_desc i d2 s1)); [done|]. apply desc_lookup in E1 as [_ L1]. rewrite (keys_put_same s1 i d1 d2 L1) by done.
      exact (keys_put_same s i d d1 L eq_refl).
    + by apply (unmasked_open i (regs (put_desc i d1 s))).
  - cbn [mbind exec_bind]. set (d1 := set_depth (disable_depth d - 1) d).
    destruct (IH (put_desc i d1 s) d1) as (s' & -> & E' & O' & P' & T' & K' & R'); [exact (desc_put _ _ _ d1 E)|cbn; lia|done|lia|done|done|].
    exists s'. split; [done|]. split; [exact E'|]. split; [|split; [done|split; [done|split; [|done]]]].
    + intros j Hj. rewrite O' by done. by apply (only_other i d1).
    + rewrite K'. exact (keys_put_same s i d d1 L eq_refl).
Qed.

(** ** Handlers during which nothing happens *)

(** One pass over the handlers of a line. *)
Definition pass (s : irqs) (i : Z) : list note := Enter i :: map (Handle i) (handlers s i) ++ [Leave i].

Lemma chain_quiet i on acts s :
  ∃ s', chain i on acts [] s = Done (s', []) ∧ irq_desc s' = irq_desc s ∧ irq_pending s' = irq_pending s ∧
        trace s' = trace s ++ map (Handle i) (map a_handler acts) ∧ jiffies s' = jiffies s.
Proof.
  revert s. induction acts as [|a acts IH]; intros s; cbn [chain map]; [exists s; by rewrite app_nil_r|].
  destruct (IH (noted (Handle i (a_handler a)) s)) as (s' & -> & D & P & T & J). exists s'. split; [done|]. split_and!; [done..| |done].
  rewrite T. cbn. by rewrite <-app_assoc.
Qed.

Lemma desc_of s s' i : irq_desc s' = irq_desc s → desc i s' = desc i s.
Proof. unfold desc. by intros ->. Qed.

(** The loop makes one pass. *)
Lemma irq_loop_quiet i s d :
  desc i s = Done d → ∃ s' d', irq_loop 1 i [] s = Done (s', []) ∧ desc i s' = Done d' ∧ key d' = key d ∧
    (∀ j, i ≠ j → desc j s' = desc j s) ∧ irq_pending s' = irq_pending s ∧ trace s' = trace s ++ map (Handle i) (map a_handler (action d)).
Proof.
  intros E. cbn [irq_loop]. rewrite E. cbn [mbind exec_bind]. destruct (action d) as [|a acts] eqn:Ea; [exists s, d; by rewrite app_nil_r|].
  pose proof (desc_lookup _ _ _ E) as [Hi _]. set (d0 := set_pending false d).
  assert (H1 : ∃ s1 d1, (if due d then unmask i (put_desc i d0 s) else Done s) = Done s1 ∧ desc i s1 = Done d1 ∧ key d1 = key d ∧ due d1 = false ∧
    (∀ j, i ≠ j → desc j s1 = desc j s) ∧ irq_pending s1 = irq_pending s ∧ trace s1 = trace s).
  { destruct (due d) eqn:D; [|by exists s, d]. destruct (unmask_done i (put_desc i d0 s) Hi) as (m & -> & _).
    eexists _, d0. split; [done|]. split; [exact (desc_put _ _ _ d0 E)|]. split_and!; try done. intros j Hj. by apply (only_other i d0). }
  destruct H1 as (s1 & d1 & -> & E1 & K1 & D1 & O1 & P1 & T1). cbn [mbind exec_bind]. unfold do_irq.
  destruct (chain_quiet i (Z.land (a_flags a) SA_INTERRUPT =? 0) (a :: acts) s1) as (s2 & -> & D2 & P2 & T2 & _). cbn [mbind exec_bind].
  rewrite (desc_of s1 s2 i D2), E1. cbn [mbind exec_bind]. rewrite D1. exists s2, d1. split; [done|].
  split; [by rewrite (desc_of s1 s2 i D2)|]. split; [done|]. split; [intros j Hj; rewrite (desc_of s1 s2 j D2); by apply O1|]. split; congruence.
Qed.

Lemma lock_quiet i ip s d : desc i s = Done d →
  ∃ b s', check_irq_lock i ip s = Done (b, s') ∧ (∀ j, i ≠ j → desc j s' = desc j s) ∧ irq_pending s' = irq_pending s ∧ trace s' = trace s.
Proof.
  intros E. unfold check_irq_lock. rewrite E. cbn [mbind exec_bind]. pose proof (desc_lookup _ _ _ E) as [Hi _].
  destruct (_ && _); [destruct (MAX_IRQ_CNT <? _)|];
    (eexists _, _; split; [done|]; split; [|done]; intros j Hj; unfold desc; destruct (Z.ltb_spec j 0); [done|]; cbn; rewrite list_lookup_insert_ne; [done|lia]).
Qed.

(** An interrupt of a line that is on and not busy makes one pass. *)
Lemma do_IRQ_quiet i ip s d :
  line_ok i → desc i s = Done d → running d = false → disable_depth d = 0 →
  ∃ s', do_IRQ i ip [] s = Done (s', []) ∧ (∀ j, i ≠ j → desc j s' = desc j s) ∧ irq_pending s' = irq_pending s ∧ trace s' = trace s ++ pass s i.
Proof.
  intros Hi E R D. pose proof (desc_lookup _ _ _ E) as [Hi0 L]. unfold do_IRQ. rewrite fixup_line by done. cbn [mbind exec_bind]. unfold change. rewrite E. cbn [mbind exec_bind].
  set (d1 := set_triggered true d). destruct (mask_done i (put_desc i d1 s) Hi0) as (m & -> & _). cbn [mbind exec_bind].
  set (s1 := with_regs m (put_desc i d1 s)). assert (E1 : desc i s1 = Done d1) by exact (desc_put _ _ _ d1 E). rewrite E1. cbn [mbind exec_bind].
  change (running d1) with (running d). change (disable_depth d1) with (disable_depth d). rewrite R, D. cbn [orb negb Z.eqb length Nat.add].
  set (s2 := noted (Enter i) _). assert (E2 : desc i s2 = Done (set_running true d1)) by exact (desc_put _ _ _ (set_running true d1) E1).
  assert (O2 : ∀ j, i ≠ j → desc j s2 = desc j s).
  { intros j Hj. assert (O : only i (set_running true d1) s (put_desc i (set_running true d1) s1)) by (apply (only_trans i d1 _ s s1); done).
    transitivity (desc j (put_desc i (set_running true d1) s1)); [done|]. by apply (only_other i (set_running true d1)). }
  destruct (irq_loop_quiet i s2 _ E2) as (s3 & d3 & -> & E3 & K3 & O3 & P3 & T3). cbn [mbind exec_bind].
  change (desc i (noted (Leave i) s3)) with (desc i s3). rewrite E3. cbn [mbind exec_bind].
  set (s4 := put_desc i (set_running false d3) (noted (Leave i) s3)).
  assert (E4 : desc i s4 = Done (set_running false d3)) by exact (desc_put (noted (Leave i) s3) _ _ (set_running false d3) E3).
  assert (O4 : ∀ j, i ≠ j → desc j s4 = desc j s).
  { intros j Hj. rewrite <-O2, <-O3 by done. transitivity (desc j (noted (Leave i) s3)); [|done]. by apply (only_other i (set_running false d3)). }
  assert (T4 : trace s4 = trace s ++ pass s i).
  { unfold pass. cbn [trace s4 put_desc with_descs noted]. rewrite T3. cbn. rewrite <-!app_assoc. cbn. do 3 f_equal. unfold handlers.
    by rewrite (keys_lookup _ _ _ L). }
  assert (P4 : irq_pending s4 = irq_pending s) by exact P3.
  rewrite E4. cbn [mbind exec_bind]. destruct (action (set_running false d3)); [by exists s4|].
  destruct (lock_quiet i ip s4 _ E4) as (b & s5 & -> & O5 & P5 & T5). cbn [mbind exec_bind].
  assert (O5' : ∀ j, i ≠ j → desc j s5 = desc j s) by (intros j Hj; rewrite O5 by done; by apply O4).
  destruct b; [exists s5; split; [done|]; split; [done|]; split; congruence|]. destruct (unmask_done i s5 Hi0) as (m' & -> & _). cbn [mbind exec_bind].
  eexists. split; [done|]. split; [exact O5'|]. cbn. split; congruence.
Qed.

(** A line that is off only keeps in mind that an interrupt came. *)
Lemma do_IRQ_deferred i ip script s d :
  line_ok i → desc i s = Done d → disable_depth d ≠ 0 →
  ∃ s', do_IRQ i ip script s = Done (s', script) ∧ only i (set_pending true (set_triggered true d)) s s'.
Proof.
  intros Hi E D. pose proof (desc_lookup _ _ _ E) as [Hi0 _]. unfold do_IRQ. rewrite fixup_line by done. cbn [mbind exec_bind]. unfold change. rewrite E.
  cbn [mbind exec_bind]. set (d1 := set_triggered true d). destruct (mask_done i (put_desc i d1 s) Hi0) as (m & -> & _). cbn [mbind exec_bind].
  set (s1 := with_regs m (put_desc i d1 s)). assert (E1 : desc i s1 = Done d1) by exact (desc_put _ _ _ d1 E). rewrite E1. cbn [mbind exec_bind].
  change (disable_depth d1) with (disable_depth d). rewrite (proj2 (Z.eqb_neq _ _)), orb_true_r by done. eexists. split; [done|].
  by apply (only_trans i d1 _ s s1).
Qed.

(** C11 (liveness): an interrupt that comes while its line was turned off, however often, is
    not lost.  The line is closed at the controller after the first time; the interrupt
    calls no handler; when the line was turned on as often as off it is open again, and
    with the next interrupt that is handled, of whatever other line, its handlers are
    called, once, after those of that line. *)
Theorem deferred_delivered (k : nat) (i j ip ip1 : Z) (s : irqs) (di dj : irqdesc) :
  inv s → irq_pending s = [] → line_ok i → line_ok j → i ≠ j →
  desc i s = Done di → disable_depth di = 0 → pend di = false → desc j s = Done dj → disable_depth dj = 0 →
  (0 < k)%nat → Z.of_nat k < 2 ^ 32 →
  ∃ s1 s2 s3 s4,
    times k (disable_irq i) s = Done s1 ∧ line_open (regs s1) i = false ∧
    asm_do_IRQ i ip [] s1 = Done s2 ∧ trace s2 = trace s ∧
    times k (enable_irq i) s2 = Done s3 ∧ line_open (regs s3) i = true ∧ trace s3 = trace s ∧
    asm_do_IRQ j ip1 [] s3 = Done s4 ∧ trace s4 = trace s ++ pass s j ++ pass s i ∧ irq_pending s4 = [].
Proof.
  intros [W Q] Hp Hi Hj Hij Ei Di Pi Ej Dj Hk Hb. pose proof (desc_lookup _ _ _ Ei) as [Hi0 Li]. pose proof (desc_lookup _ _ _ Ej) as [_ Lj].
  destruct (disable_times k i s di Ei Di (proj1 Hi) Hk Hb) as (s1 & T1 & O1 & C1). exists s1.
  pose proof (only_desc _ _ _ _ _ Ei O1) as E1. destruct (do_IRQ_deferred i ip [] s1 _ Hi E1 ltac:(cbn; lia)) as (s2 & T2 & O2).
  pose proof (only_desc _ _ _ _ _ E1 O2) as E2. destruct O1 as (A1 & A2 & A3 & A4). destruct O2 as (B1 & B2 & B3 & B4).
  destruct (enable_times k i s2 _ E2 eq_refl (proj1 Hi) Hk eq_refl Pi) as (s3 & T3 & E3 & O3 & P3 & Tr3 & K3 & C3).
  assert (K2 : keys s2 = keys s).
  { unfold keys. rewrite B1, A1, list_insert_insert_eq, list_fmap_insert. apply list_insert_id. by rewrite list_lookup_fmap, Li. }
  assert (E3j : desc j s3 = Done dj).
  { rewrite O3 by done. rewrite <-Ej. unfold desc. destruct (Z.ltb_spec j 0); [done|]. by rewrite B1, A1, !list_lookup_insert_ne by lia. }
  destruct (do_IRQ_quiet j ip1 s3 dj Hj E3j) as (s4 & T4 & O4 & P4 & Tr4); [by apply (Forall_lookup_1 _ _ _ _ Q) in Lj|done|].
  assert (P4' : irq_pending s4 = [i]) by congruence.
  set (d3 := set_pend true _) in E3. assert (E4 : desc i s4 = Done d3) by (rewrite O4; done).
  set (s5 := put_desc i (set_pend false d3) (with_pendings [] s4)).
  assert (E5 : desc i s5 = Done (set_pend false d3)) by exact (desc_put (with_pendings [] s4) _ _ (set_pend false d3) E4).
  destruct (do_IRQ_quiet i ip1 s5 _ Hi E5) as (s6 & T6 & O6 & P6 & Tr6); [by apply (Forall_lookup_1 _ _ _ _ Q) in Li|done|].
  exists s2, s3, s6. split; [done|]. split; [done|]. split.
  { unfold asm_do_IRQ. rewrite fixup_line by done. cbn [mbind exec_bind]. rewrite (proj2 (Z.ltb_lt _ _)) by apply Hi. rewrite T2. cbn [mbind exec_bind].
    by rewrite B2, A2, Hp. }
  split; [congruence|]. split; [done|]. split; [done|]. split; [congruence|]. split; [|split].
  - unfold asm_do_IRQ. rewrite fixup_line by done. cbn [mbind exec_bind]. rewrite (proj2 (Z.ltb_lt _ _)) by apply Hj. rewrite T4. cbn [mbind exec_bind].
    rewrite P4'. cbn [length Nat.add do_pending_irqs]. rewrite P4'. cbn [run_pendings]. unfold change.
    change (desc i (with_pendings [] s4)) with (desc i s4). rewrite E4. cbn [mbind exec_bind]. fold s5. rewrite T6. cbn [mbind exec_bind]. by rewrite P6.
  - rewrite Tr6. change (trace s5) with (trace s4). rewrite Tr4, Tr3, B3, A3, <-app_assoc. do 2 f_equal.
    + unfold pass. by rewrite (handlers_keys s s3) by congruence.
    + unfold pass, handlers. apply desc_lookup in E5 as [_ L5]. by rewrite (keys_lookup _ _ _ L5), (keys_lookup _ _ _ Li).
  - by rewrite P6.
Qed.

(** ** A board with handlers *)

Definition runs_ops (l : list op) (r : exec irqs) : exec irqs := foldl (λ r o, s ← r; '(_, s) ← run o s; Done s) r l.

Lemma reachable_ops l s s' : reachable s → forallb op_ok l = true → runs_ops l (Done s) = Done s' → reachable s'.
Proof.
  revert s. induction l as [|o l IH]; intros s R Hl E; cbn in *; [by injection E as <-|]. apply andb_true_iff in Hl as [Ho Hl].
  destruct (run o s) as [[rc s1]|] eqn:E1; cbn in E.
  - apply (IH s1); [by apply (reach_op o s rc)|done|done].
  - exfalso. clear -E. induction l; cbn in *; [done|auto].
Qed.

(** Two handlers share line 4, one has line 20 of the second controller, one line 5. *)
Definition board_ops : list op :=
  [Request 4 100 SA_SHIRQ (bs "eth0") 1 true; Request 4 101 SA_SHIRQ (bs "ohci") 2 true;
   Request 20 102 0 (bs "ide0") 0 true; Request 5 103 0 (bs "wlan0") 0 true].

Definition board_start : irqs := Eval vm_compute in match init_IRQ ∅ with Done s => s | Fault => mk_irqs ∅ [] [] 0 [] 0 [] end.
Definition board : irqs := Eval vm_compute in match runs_ops board_ops (Done board_start) with Done s => s | Fault => board_start end.

Lemma board_reachable : reachable board.
Proof. apply (reachable_ops board_ops board_start); [apply (reach_init ∅)| |]; vm_compute; reflexivity. Qed.

(** During the first handler of line 4 that line interrupts again, and so does line 20,
    whose handler turns line 5 off; an interrupt of line 5 comes, and it is turned on. *)
Definition board_event : event := EIrq 4 0 0 [[EIrq 4 0 0 []; EIrq 13 16 0 [[EDisable 5]]; EIrq 5 0 0 []; EEnable 5]; []].

Lemma interrupts_refined_witness :
  ∃ s', run (Happen board_event) board = Done (0, s') ∧ reachable s' ∧ table s' = table board ∧
    proper (handlers board) [] (drop (length (trace board)) (trace s')) = Some [] ∧
    trace s' = [Enter 4; Handle 4 100; Enter 20; Handle 20 102; Leave 20; Handle 4 101; Handle 4 100; Handle 4 101; Leave 4; Enter 5; Handle 5 103; Leave 5].
Proof.
  destruct (interrupts_refined (Happen board_event) board board_reachable ltac:(vm_compute; reflexivity)) as (rc & s' & E & R & T & t & Ht & C).
  exists s'. assert (rc = 0) as -> by (vm_compute in E; by injection E). split; [exact E|]. split; [exact R|]. split; [exact T|].
  split; [rewrite Ht, drop_app_length; exact C|]. vm_compute in E. injection E as <-. reflexivity.
Defined.

Lemma deferred_delivered_witness :
  ∃ s1 s2 s3 s4,
    times 3 (disable_irq 20) board = Done s1 ∧ asm_do_IRQ 20 0 [] s1 = Done s2 ∧ trace s2 = [] ∧
    times 3 (enable_irq 20) s2 = Done s3 ∧ asm_do_IRQ 5 0 [] s3 = Done s4 ∧
    trace s4 = [Enter 5; Handle 5 103; Leave 5; Enter 20; Handle 20 102; Leave 20].
Proof.
  destruct (deferred_delivered 3 20 5 0 0 board (default (desc_init 0) (irq_desc board !! 20%nat)) (default (desc_init 0) (irq_desc board !! 5%nat))
    (reachable_inv _ board_reachable) eq_refl ltac:(by split) ltac:(by split) ltac:(done) eq_refl eq_refl eq_refl eq_refl eq_refl ltac:(lia) ltac:(done))
    as (s1 & s2 & s3 & s4 & T1 & _ & T2 & Tr2 & T3 & _ & _ & T4 & Tr4 & _).
  exists s1, s2, s3, s4. split; [exact T1|]. split; [exact T2|]. split; [rewrite Tr2; reflexivity|]. split; [exact T3|]. split; [exact T4|].
  rewrite Tr4. vm_compute. reflexivity.
Defined.

(** ** Against the comments *)

(** A handler that turns its own line off: the comment in [do_IRQ] says that a line that is
    disabled is shut down, but it is opened again when the handler returns. *)
Lemma own_line_open :
  match happen true (EIrq 5 0 0 [[EDisable 5]]) board with
  | Done s => line_open (regs s) 5 = true ∧ disable_depth <$> (irq_desc s !! 5%nat) = Some 1
  | Fault => False
  end.
Proof. vm_compute. done. Qed.

(** Releasing the last handler of a line does not close the line. *)
Lemma freed_line_open :
  match free_irq 5 0 board with
  | Done s => line_open (regs s) 5 = true ∧ table s !! 5%nat = Some []
  | Fault => False
  end.
Proof. vm_compute. done. Qed.

(** The line that interrupts while it is probed is the one that is found. *)
Lemma probe_finds :
  match probe_irq_on [] board with
  | Done (n, s) => n = 29 ∧ match happen true (EIrq 9 0 0 []) s with Done s => probe_irq_off s = Done 9 | Fault => False end
  | Fault => False
  end.
Proof. vm_compute. done. Qed.
