(* ===== verification/Pci.v ===== *)
(** * The PCI bridge

    [src/kernel/linux-2.4.19/arch/arm/mach-pl1029/pl_pci.c]: the registers of the
    devices are read and written through an address and a data register, the host
    bridge and the USB controller are made up by software, and at the start every
    device on the bus gets its addresses and its interrupt.

    A register of a device has bits that can be written, bits that are cleared by
    writing a one, as those of the status ([drivers/pci/pci.c], line 1293, and
    [drivers/net/8139too.c], line 2001, clear them so), and bits that cannot be changed;
    where there is no device, all bits read as one.

    The properties are in [PciTheorems]. *)

From S2P Require Import Prelude.

Local Open Scope Z_scope.

Definition PCIBIOS_SUCCESSFUL : Z := 0.
Definition PCIBIOS_BAD_REGISTER_NUMBER : Z := 0x87.
Definition ONES : Z := 0xffffffff.

Definition PCI_VENDOR_ID : Z := 0x00.
Definition PCI_DEVICE_ID : Z := 0x02.
Definition PCI_COMMAND : Z := 0x04.
Definition PCI_STATUS : Z := 0x06.
Definition PCI_CLASS_REVISION : Z := 0x08.
Definition PCI_CLASS_DEVICE : Z := 0x0a.
Definition PCI_CACHE_LINE_SIZE : Z := 0x0c.
Definition PCI_LATENCY_TIMER : Z := 0x0d.
Definition PCI_HEADER_TYPE : Z := 0x0e.
Definition PCI_BASE_ADDRESS_0 : Z := 0x10.
Definition PCI_ROM_ADDRESS : Z := 0x30.
Definition PCI_ROM_ADDRESS1 : Z := 0x38.
Definition PCI_INTERRUPT_LINE : Z := 0x3c.
Definition PCI_INTERRUPT_PIN : Z := 0x3d.
Definition PCI_MIN_GNT : Z := 0x3e.
Definition PCI_MAX_LAT : Z := 0x3f.

Definition PCI_BASE_ADDRESS_MEM_MASK : Z := 0xfffffff0.
Definition PCI_BASE_ADDRESS_IO_MASK : Z := 0xfffffffc.
Definition PCI_ROM_ADDRESS_MASK : Z := 0xfffff800.
Definition PCI_COMMAND_IO : Z := 0x1.
Definition PCI_COMMAND_MEMORY : Z := 0x2.
Definition PCI_COMMAND_MASTER : Z := 0x4.
Definition PCI_STATUS_CAP_LIST : Z := 0x10.
Definition PCI_STATUS_FAST_BACK : Z := 0x80.
Definition PCI_STATUS_DEVSEL_MEDIUM : Z := 0x200.
Definition PCI_STATUS_REC_MASTER_ABORT : Z := 0x2000.
Definition PCI_HEADER_TYPE_NORMAL : Z := 0.
Definition PCI_HEADER_TYPE_BRIDGE : Z := 1.
Definition PCI_HEADER_TYPE_CARDBUS : Z := 2.
Definition PCI_CLASS_BRIDGE_HOST : Z := 0x0600.
Definition PCI_CLASS_SERIAL_USB : Z := 0x0c03.
Definition PCI_CLASS_OHCI_INF : Z := 0x10.

Definition PROLIFIC_PCI_ID : Z := 0x180D.
Definition PROLIFIC_PCI_HOSTBRIDGE_ID : Z := 0x1A00.
Definition PROLIFIC_PCI_HOSTBRIDGE_REVISION : Z := 1.
Definition PROLIFIC_PCI_USBOHCI_ID : Z := 0x2300.
Definition PROLIFIC_PCI_USBOHCI_REVISION : Z := 1.
Definition PL_PCI_USB_DEVICE : Z := 4 + 1.
Definition PL_USB_BASE_ADDRESS : Z := 0x18000000.
Definition PL_USB_BAR_SIZING : Z := 0xfffff000.
Definition IRQ_PL_USB_HOST : Z := 9.
Definition IRQ_PL_PCI_DEV0 : Z := 4.

Definition PL_PCI_IO_BASE : Z := 0xdb800000.
Definition PL_PCI_IO_MASK : Z := 0xffff.
Definition PL_PCI_MEM_START : Z := 0x1a000000.
Definition PL_PCI_MEM_END : Z := 0xda000000 + 0x1000000 - 1.
Definition PL_PCI_IO_START : Z := 0x1b800000.
Definition PL_PCI_IO_END : Z := 0xdb800000 + 0x1000 - 1.
Definition PL_PCI_MAX_RESOURCE : Z := 128.
Definition PL_PCI_IO_RESOURCE : Z := 1.

Definition PCI_DEVFN (slot func : Z) : Z := Z.lor (Z.shiftl (Z.land slot 0x1f) 3) (Z.land func 0x07).
Definition PCI_SLOT (devfn : Z) : Z := Z.land (Z.shiftr devfn 3) 0x1f.
Definition PCI_FUNC (devfn : Z) : Z := Z.land devfn 0x07.

(** ** State *)

Record resource : Type := mk_res { start : Z; end_ : Z }.

(** A register: its value, the bits that can be written, and those that a one clears. *)
Record register : Type := mk_register { value : Z; writable_bits : Z; clear_bits : Z }.

(** [cfgaddr] is the address register, [space] what the addresses lead to, [children]
    the regions in memory and among the ports, in the order of the list. *)
Record pci : Type := mk_pci {
  cfgaddr : Z; space : gmap Z register; bar_sizing : bool; ifree_res : Z; mem_children : list resource; io_children : list resource }.

Definition with_cfgaddr (a : Z) (s : pci) : pci := mk_pci a (space s) (bar_sizing s) (ifree_res s) (mem_children s) (io_children s).
Definition with_space (m : gmap Z register) (s : pci) : pci := mk_pci (cfgaddr s) m (bar_sizing s) (ifree_res s) (mem_children s) (io_children s).
Definition with_sizing (b : bool) (s : pci) : pci := mk_pci (cfgaddr s) (space s) b (ifree_res s) (mem_children s) (io_children s).
Definition next_res (s : pci) : pci := mk_pci (cfgaddr s) (space s) (bar_sizing s) (ifree_res s + 1) (mem_children s) (io_children s).
Definition with_children (ires : Z) (l : list resource) (s : pci) : pci :=
  if ires =? PL_PCI_IO_RESOURCE then mk_pci (cfgaddr s) (space s) (bar_sizing s) (ifree_res s) (mem_children s) l
  else mk_pci (cfgaddr s) (space s) (bar_sizing s) (ifree_res s) l (io_children s).
Definition children (ires : Z) (s : pci) : list resource := if ires =? PL_PCI_IO_RESOURCE then io_children s else mem_children s.

Record pci_dev : Type := mk_dev { bus_number : Z; devfn : Z; device : Z; hdr_type : Z }.

(** The data register. *)
Definition read_data (s : pci) : Z := match space s !! cfgaddr s with Some r => value r | None => ONES end.
Definition merge (mask new old : Z) : Z := Z.lor (Z.land new mask) (Z.land old (Z.lnot mask)).
Definition latch (mask clear new old : Z) : Z := merge mask new (Z.land old (Z.lnot (Z.land new clear))).
Definition register_set (r : register) (data : Z) : register :=
  mk_register (latch (writable_bits r) (clear_bits r) data (value r)) (writable_bits r) (clear_bits r).
Definition write_data (data : Z) (s : pci) : pci :=
  match space s !! cfgaddr s with
  | Some r => with_space (<[cfgaddr s := register_set r data]> (space s)) s
  | None => s
  end.

(** ** Reading and writing registers *)

Inductive access : Type := PCI_ACCESS_READ | PCI_ACCESS_WRITE.

Definition pl_pcibios_usb_access (a : access) (where_ data : Z) (s : pci) : Z * pci :=
  match a with
  | PCI_ACCESS_WRITE => (data, if (where_ =? PCI_BASE_ADDRESS_0) && (data =? ONES) then with_sizing true s else s)
  | PCI_ACCESS_READ =>
      if (where_ =? PCI_VENDOR_ID) || (where_ =? PCI_DEVICE_ID) then (Z.lor (Z.shiftl PROLIFIC_PCI_USBOHCI_ID 16) PROLIFIC_PCI_ID, s)
      else if (where_ =? PCI_COMMAND) || (where_ =? PCI_STATUS) then
        (Z.lor (Z.lor PCI_COMMAND_MASTER PCI_COMMAND_MEMORY) (Z.shiftl (Z.lor PCI_STATUS_DEVSEL_MEDIUM PCI_STATUS_CAP_LIST) 16), s)
      else if (where_ =? PCI_CLASS_REVISION) || (where_ =? PCI_CLASS_DEVICE) then
        (Z.lor (Z.lor (Z.shiftl PCI_CLASS_SERIAL_USB 16) (Z.shiftl PCI_CLASS_OHCI_INF 8)) PROLIFIC_PCI_USBOHCI_REVISION, s)
      else if (where_ =? PCI_CACHE_LINE_SIZE) || (where_ =? PCI_HEADER_TYPE) || (where_ =? PCI_LATENCY_TIMER) then
        (Z.lor (Z.lor 0x08 (Z.shiftl 32 8)) (Z.shiftl PCI_HEADER_TYPE_NORMAL 16), s)
      else if where_ =? PCI_BASE_ADDRESS_0 then
        (if bar_sizing s then (PL_USB_BAR_SIZING, with_sizing false s) else (PL_USB_BASE_ADDRESS, s))
      else if (where_ =? PCI_INTERRUPT_LINE) || (where_ =? PCI_INTERRUPT_PIN) || (where_ =? PCI_MIN_GNT) || (where_ =? PCI_MAX_LAT) then
        (Z.lor (Z.lor (Z.lor IRQ_PL_USB_HOST (Z.shiftl 1 8)) (Z.shiftl 1 16)) (Z.shiftl 42 24), s)
      else (0, s)
  end.

Definition host_bridge (where_ : Z) : Z :=
  if where_ =? PCI_VENDOR_ID then Z.lor (Z.shiftl PROLIFIC_PCI_HOSTBRIDGE_ID 16) PROLIFIC_PCI_ID
  else if where_ =? PCI_DEVICE_ID then PROLIFIC_PCI_HOSTBRIDGE_ID
  else if where_ =? PCI_STATUS then Z.lor (Z.lor PCI_STATUS_CAP_LIST PCI_STATUS_FAST_BACK) PCI_STATUS_REC_MASTER_ABORT
  else if where_ =? PCI_HEADER_TYPE then PCI_HEADER_TYPE_BRIDGE
  else if where_ =? PCI_CLASS_REVISION then Z.lor (Z.shiftl PCI_CLASS_BRIDGE_HOST 16) PROLIFIC_PCI_HOSTBRIDGE_REVISION
  else if where_ =? PCI_CLASS_DEVICE then PCI_CLASS_BRIDGE_HOST
  else 0.

(** The address of a register: the devices of the first bus are shifted by one. *)
Definition config_address (bus dev_fn where_ : Z) : Z :=
  let dev_fn := if bus =? 0 then PCI_DEVFN (PCI_SLOT dev_fn - 1) (PCI_FUNC dev_fn) else dev_fn in
  u32 (Z.lor (Z.lor (Z.lor (Z.shiftl bus 16) (Z.shiftl dev_fn 8)) (Z.shiftl (where_ / 4) 2)) (2 ^ 31)).

Definition pl_pcibios_config_access (a : access) (dev : pci_dev) (where_ data : Z) (s : pci) : Z * pci :=
  let where_ := u8 where_ in
  let bus := u8 (bus_number dev) in
  let dev_fn := u8 (devfn dev) in
  if (bus =? 0) && (dev_fn =? 0) then
    match a with PCI_ACCESS_WRITE => (data, s) | PCI_ACCESS_READ => (host_bridge where_, s) end
  else if (bus =? 0) && (PCI_SLOT dev_fn =? PL_PCI_USB_DEVICE) && (PCI_FUNC dev_fn =? 0) then pl_pcibios_usb_access a where_ data s
  else
    let s := with_cfgaddr (config_address bus dev_fn where_) s in
    match a with PCI_ACCESS_WRITE => (data, write_data data s) | PCI_ACCESS_READ => (read_data s, s) end.

(** Results: the code, the value that is read, the state; where the register number is
    bad no value is read. *)
Definition byte_shift (where_ : Z) : Z := Z.shiftl (Z.land where_ 3) 3.

Definition pl_pcibios_read_config_byte (dev : pci_dev) (where_ : Z) (s : pci) : Z * Z * pci :=
  let '(data, s) := pl_pcibios_config_access PCI_ACCESS_READ dev where_ 0 s in
  (PCIBIOS_SUCCESSFUL, Z.land (Z.shiftr data (byte_shift where_)) 0xff, s).

Definition pl_pcibios_read_config_word (dev : pci_dev) (where_ val : Z) (s : pci) : Z * Z * pci :=
  if negb (Z.land where_ 1 =? 0) then (PCIBIOS_BAD_REGISTER_NUMBER, val, s) else
  let '(data, s) := pl_pcibios_config_access PCI_ACCESS_READ dev where_ 0 s in
  (PCIBIOS_SUCCESSFUL, Z.land (Z.shiftr data (byte_shift where_)) 0xffff, s).

Definition is_bar (where_ : Z) : bool :=
  (where_ =? 0x10) || (where_ =? 0x14) || (where_ =? 0x18) || (where_ =? 0x1c) || (where_ =? 0x20) || (where_ =? 0x24).

Definition is_io (l : Z) : bool := Z.land l 0x01 =? 0x01.

Definition pl_pcibios_read_config_dword (dev : pci_dev) (where_ val : Z) (s : pci) : Z * Z * pci :=
  if negb (Z.land where_ 3 =? 0) then (PCIBIOS_BAD_REGISTER_NUMBER, val, s) else
  let '(data, s) := pl_pcibios_config_access PCI_ACCESS_READ dev where_ 0 s in
  (PCIBIOS_SUCCESSFUL, if is_bar where_ && is_io data then Z.lor data PL_PCI_IO_BASE else data, s).

Definition pl_pcibios_write_config_byte (dev : pci_dev) (where_ val : Z) (s : pci) : Z * pci :=
  let '(data, s) := pl_pcibios_config_access PCI_ACCESS_READ dev where_ 0 s in
  let data := Z.lor (Z.land data (not32 (Z.shiftl 0xff (byte_shift where_)))) (Z.shiftl val (byte_shift where_)) in
  (PCIBIOS_SUCCESSFUL, snd (pl_pcibios_config_access PCI_ACCESS_WRITE dev where_ data s)).

Definition pl_pcibios_write_config_word (dev : pci_dev) (where_ val : Z) (s : pci) : Z * pci :=
  if negb (Z.land where_ 1 =? 0) then (PCIBIOS_BAD_REGISTER_NUMBER, s) else
  let '(data, s) := pl_pcibios_config_access PCI_ACCESS_READ dev where_ 0 s in
  let data := Z.lor (Z.land data (not32 (Z.shiftl 0xffff (byte_shift where_)))) (Z.shiftl val (byte_shift where_)) in
  (PCIBIOS_SUCCESSFUL, snd (pl_pcibios_config_access PCI_ACCESS_WRITE dev where_ data s)).

(** The bridge takes only sixteen bits of the address of a port. *)
Definition trimmed (where_ val : Z) : Z := if negb (val =? ONES) && is_bar where_ && is_io val then Z.land val PL_PCI_IO_MASK else val.

Definition pl_pcibios_write_config_dword (dev : pci_dev) (where_ val : Z) (s : pci) : Z * pci :=
  if negb (Z.land where_ 3 =? 0) then (PCIBIOS_BAD_REGISTER_NUMBER, s) else
  (PCIBIOS_SUCCESSFUL, snd (pl_pcibios_config_access PCI_ACCESS_WRITE dev where_ (trimmed where_ val) s)).

(** ** Handing out regions *)

Definition in_region (pos : Z) (res : resource) : bool := (start res <=? pos) && (pos <=? end_ res).

(** The loop of [__myrequest_region] over the children that are left; [None] is the
    result -1. *)
Fixpoint request_walk (fixed : bool) (parent_end size align : Z) (res : resource) (before after : list resource) : option (resource * list resource) :=
  if end_ res <=? parent_end then
    match after with
    | [] => Some (res, rev before ++ [res])
    | tmp :: after' =>
        if end_ res <? start tmp then Some (res, rev before ++ res :: after)
        else if in_region (start res) tmp || in_region (end_ res) tmp then
          if fixed then None else
          let st := Z.land (u32 (end_ tmp + align)) (u32 (- align)) in
          request_walk fixed parent_end size align (mk_res st (u32 (st + size))) (tmp :: before) after'
        else request_walk fixed parent_end size align res (tmp :: before) after'
    end
  else None.

Definition myrequest_region (parent : resource) (kids : list resource) (st size align : Z) : option (resource * list resource) :=
  let fixed := negb (st =? 0) in
  let st := if st =? 0 then start parent else st in
  if (st <? start parent) || (end_ parent <? u32 (st + size)) then None else
  request_walk fixed (end_ parent) size align (mk_res st (u32 (st + size))) [] kids.

Definition slot_res (ires : Z) : resource :=
  if ires =? PL_PCI_IO_RESOURCE then mk_res PL_PCI_IO_START PL_PCI_IO_END else mk_res PL_PCI_MEM_START PL_PCI_MEM_END.

(** The table of regions has a bound that is not looked at. *)
Definition take_res (ires st size align : Z) (s : pci) : exec (option resource * pci) :=
  if PL_PCI_MAX_RESOURCE <=? ifree_res s then Fault else
  match myrequest_region (slot_res ires) (children ires s) st size align with
  | Some (res, kids) => Done (Some res, with_children ires kids s)
  | None => Done (None, s)
  end.

(** ** Setting up a device *)

Definition pl_pcibios_set_irq (dev : pci_dev) (s : pci) : pci :=
  let '(_, pin, s) := pl_pcibios_read_config_byte dev PCI_INTERRUPT_PIN s in
  if pin =? 0 then s else
  let irq := u8 (Z.rem ((device dev - 1) + (pin - 1)) 4 + IRQ_PL_PCI_DEV0) in
  snd (pl_pcibios_write_config_byte dev PCI_INTERRUPT_LINE irq s).

Definition pl_pcibios_config_size (dev : pci_dev) (sz mask ires reg l : Z) (s : pci) : exec (Z * pci) :=
  let size := Z.land mask sz in
  let size := u32 (Z.land size (not32 (size - 1)) - 1) in
  '(res, s) ← take_res ires 0 size size s;
  match res with
  | None => Done (-1, s)
  | Some res => Done (0, snd (pl_pcibios_write_config_dword dev reg (Z.lor (Z.land l (not32 mask)) (start res)) s))
  end.

(** What a base register holds and what it says about its size. *)
Definition probe_base (dev : pci_dev) (reg ones : Z) (s : pci) : Z * Z * pci :=
  let '(_, l, s) := pl_pcibios_read_config_dword dev reg 0 s in
  let '(_, s) := pl_pcibios_write_config_dword dev reg ones s in
  let '(_, sz, s) := pl_pcibios_read_config_dword dev reg 0 s in
  let '(_, s) := pl_pcibios_write_config_dword dev reg l s in
  (l, sz, s).

(** The loop over the base registers, for [n] of them; [None] where the function returns
    before its end. *)
Fixpoint bases_loop (n : nat) (dev : pci_dev) (pos command : Z) (s : pci) : exec (option Z * pci) :=
  match n with
  | O => Done (Some command, s)
  | S n' =>
      let reg := PCI_BASE_ADDRESS_0 + Z.shiftl pos 2 in
      if PL_PCI_MAX_RESOURCE <=? ifree_res s then Fault else
      let '(l, sz, s) := probe_base dev reg ONES s in
      if (sz =? 0) || (sz =? ONES) then bases_loop n' dev (pos + 1) command s else
      let l := if l =? ONES then 0 else l in
      '(rc, s) ← (if Z.land l 0x01 =? 0 then pl_pcibios_config_size dev sz PCI_BASE_ADDRESS_MEM_MASK 0 reg l s
                  else pl_pcibios_config_size dev sz PCI_BASE_ADDRESS_IO_MASK PL_PCI_IO_RESOURCE reg l s);
      if rc <? 0 then Done (None, s) else
      let s := next_res s in
      let command := Z.lor command (if Z.land l 0x01 =? 0 then PCI_COMMAND_MEMORY else PCI_COMMAND_IO) in
      if Z.land l 0x07 =? 0x04 then Done (None, s) else
      bases_loop n' dev (pos + 1) command s
  end.

(** [rom] is the register of the ROM, or 0. *)
Definition rom_base (dev : pci_dev) (rom : Z) (s : pci) : exec (bool * pci) :=
  if PL_PCI_MAX_RESOURCE <=? ifree_res s then Fault else
  let '(l, sz, s) := probe_base dev rom 0xfffffffe s in
  let l := if l =? ONES then 0 else l in
  if negb (sz =? 0) && negb (sz =? ONES) then
    '(rc, s) ← pl_pcibios_config_size dev sz PCI_ROM_ADDRESS_MASK 0 rom l s;
    if rc <? 0 then Done (false, s) else Done (true, next_res s)
  else Done (true, s).

Definition pl_pcibios_set_bases (dev : pci_dev) (howmany : nat) (rom : Z) (s : pci) : exec pci :=
  let '(_, command, s) := pl_pcibios_read_config_word dev PCI_COMMAND 0 s in
  '(r, s) ← bases_loop howmany dev 0 command s;
  match r with
  | None => Done s
  | Some command =>
      '(go_on, s) ← (if rom =? 0 then Done (true, s) else rom_base dev rom s);
      if (go_on : bool) then Done (snd (pl_pcibios_write_config_word dev PCI_COMMAND command s)) else Done s
  end.

(** ** Scanning *)

Definition pl_pcibios_scan_device (dev : pci_dev) (s : pci) : exec pci :=
  let '(_, l, s) := pl_pcibios_read_config_dword dev PCI_VENDOR_ID 0 s in
  if (l =? ONES) || (l =? 0) || (l =? 0xffff) || (l =? 0xffff0000) then Done s
  else if hdr_type dev =? PCI_HEADER_TYPE_NORMAL then pl_pcibios_set_bases dev 6 PCI_ROM_ADDRESS (pl_pcibios_set_irq dev s)
  else if hdr_type dev =? PCI_HEADER_TYPE_BRIDGE then pl_pcibios_set_bases dev 2 PCI_ROM_ADDRESS1 s
  else if hdr_type dev =? PCI_HEADER_TYPE_CARDBUS then pl_pcibios_set_bases dev 1 0 (pl_pcibios_set_irq dev s)
  else Done s.

(** The functions of a slot from [func] on, [n] at most. *)
Fixpoint slot_loop (n : nat) (bus dev devfn func : Z) (is_multi : bool) (s : pci) : exec pci :=
  match n with
  | O => Done s
  | S n' =>
      if negb (func =? 0) && negb is_multi then Done s else
      let '(_, hdr, s) := pl_pcibios_read_config_byte (mk_dev bus devfn dev 0) PCI_HEADER_TYPE s in
      s ← pl_pcibios_scan_device (mk_dev bus devfn dev (Z.land hdr 0x7f)) s;
      slot_loop n' bus dev (devfn + 1) (func + 1) (if func =? 0 then negb (Z.land hdr 0x80 =? 0) else is_multi) s
  end.

Definition pl_pcibios_scan_slot (bus dev devfn : Z) (s : pci) : exec pci := slot_loop 8 bus dev devfn 0 false s.

(** [devfn <= 0x100]: 33 slots. *)
Fixpoint bus_loop (n : nat) (bus devfn : Z) (s : pci) : exec pci :=
  match n with
  | O => Done s
  | S n' =>
      s ← pl_pcibios_scan_slot bus (if bus =? 0 then PCI_SLOT devfn else bus) devfn s;
      bus_loop n' bus (devfn + 8) s
  end.

Definition pl_pcibios_scan_bus (bus : Z) (s : pci) : exec pci := bus_loop 33 bus 0 s.

Definition pl_pcibios_scan (s : pci) : exec pci :=
  '(_, s) ← take_res PL_PCI_IO_RESOURCE 0x1b800cf0 16 16 s;
  pl_pcibios_scan_bus 0 (next_res s).

Definition pcibios_update_irq (dev : pci_dev) (irq : Z) (s : pci) : pci :=
  snd (pl_pcibios_write_config_byte dev PCI_INTERRUPT_LINE (u8 irq) s).

Definition pcibios_update_resource (dev : pci_dev) (root res : resource) (n : Z) (s : pci) : pci :=
  let where_ := PCI_BASE_ADDRESS_0 + n * 4 in
  let size := u32 (end_ res - start res) in
  let '(_, reg, s) := pl_pcibios_read_config_dword dev where_ 0 s in
  let reg := Z.lor (Z.land reg size) (Z.land (u32 (start res - start root)) (not32 size)) in
  snd (pl_pcibios_write_config_dword dev where_ reg s).

Definition pci_init (space : gmap Z register) : pci := mk_pci 0 space false 2 [] [].

(** ** The registers of a device as bytes *)

(** A device that is really there, not one of those that software makes up. *)
Definition real (dev : pci_dev) : bool :=
  let bus := u8 (bus_number dev) in
  let dev_fn := u8 (devfn dev) in
  negb ((bus =? 0) && (dev_fn =? 0)) && negb ((bus =? 0) && (PCI_SLOT dev_fn =? PL_PCI_USB_DEVICE) && (PCI_FUNC dev_fn =? 0)).

Definition addr (dev : pci_dev) (i : Z) : Z := config_address (u8 (bus_number dev)) (u8 (devfn dev)) (u8 i).

Definition reg_word (m : gmap Z register) (dev : pci_dev) (i : Z) : Z := match m !! addr dev i with Some r => value r | None => ONES end.
Definition bits_at (m : gmap Z register) (dev : pci_dev) (i : Z) : Z := match m !! addr dev i with Some r => writable_bits r | None => 0 end.
Definition clears_at (m : gmap Z register) (dev : pci_dev) (i : Z) : Z := match m !! addr dev i with Some r => clear_bits r | None => 0 end.

(** Byte [i] of a device, its bits that can be written, and those that a one clears. *)
Definition cfg_byte (m : gmap Z register) (dev : pci_dev) (i : Z) : Z := Z.land (Z.shiftr (reg_word m dev i) (byte_shift i)) 0xff.
Definition cfg_mask (m : gmap Z register) (dev : pci_dev) (i : Z) : Z := Z.land (Z.shiftr (bits_at m dev i) (byte_shift i)) 0xff.
Definition cfg_clear (m : gmap Z register) (dev : pci_dev) (i : Z) : Z := Z.land (Z.shiftr (clears_at m dev i) (byte_shift i)) 0xff.

Lemma access_read dev i s : real dev = true →
  pl_pcibios_config_access PCI_ACCESS_READ dev i 0 s = (reg_word (space s) dev i, with_cfgaddr (addr dev i) s).
Proof.
  unfold real, pl_pcibios_config_access. intros [H1 H2]%andb_true_iff. apply negb_true_iff in H1, H2. rewrite H1, H2. done.
Qed.

(** A write to a register of a device. *)
Definition stored (m : gmap Z register) (a data : Z) : gmap Z register :=
  match m !! a with Some r => <[a := register_set r data]> m | None => m end.

Lemma access_write dev i data s : real dev = true →
  space (snd (pl_pcibios_config_access PCI_ACCESS_WRITE dev i data s)) = stored (space s) (addr dev i) data.
Proof.
  unfold real, pl_pcibios_config_access. intros [H1 H2]%andb_true_iff. apply negb_true_iff in H1, H2. rewrite H1, H2.
  unfold write_data, stored. cbn. fold (addr dev i). by destruct (space s !! addr dev i).
Qed.

Lemma shift_val i : 0 <= i → byte_shift i = 8 * (i mod 4).
Proof. intros Hi. unfold byte_shift. change 3 with (Z.ones 2) at 1. rewrite Z.land_ones, Z.shiftl_mul_pow2 by lia. change (2 ^ 2) with 4. lia. Qed.

Lemma byte_bits w i j : 0 <= i → Z.testbit (Z.land (Z.shiftr w (byte_shift i)) 0xff) j = (0 <=? j) && (j <? 8) && Z.testbit w (8 * (i mod 4) + j).
Proof.
  intros Hi. rewrite shift_val by done. destruct (Z.leb_spec 0 j); [|by rewrite Z.testbit_neg_r by lia]. change 0xff with (Z.ones 8).
  rewrite Z.land_spec, Z.shiftr_spec, Z.add_comm by lia. destruct (Z.ltb_spec j 8).
  - rewrite Z.ones_spec_low by lia. by rewrite andb_true_r.
  - rewrite Z.ones_spec_high by lia. by rewrite andb_false_r.
Qed.

(** A field of a word, replaced as the code does it. *)
Lemma field_bits v sh m val n :
  0 <= sh → 0 <= m → 0 <= val < 2 ^ m → 0 <= n < 32 →
  Z.testbit (Z.lor (Z.land v (not32 (Z.shiftl (2 ^ m - 1) sh))) (Z.shiftl val sh)) n = if decide (sh <= n < sh + m) then Z.testbit val (n - sh) else Z.testbit v n.
Proof.
  intros Hs Hm Hv Hn. rewrite Z.lor_spec, Z.land_spec. unfold not32, u32. rewrite Z.mod_pow2_bits_low, Z.lnot_spec, !Z.shiftl_spec by lia.
  replace (2 ^ m - 1) with (Z.ones m) by (rewrite Z.ones_equiv; lia). destruct (decide (sh <= n < sh + m)).
  - rewrite Z.ones_spec_low by lia. by rewrite andb_false_r.
  - destruct (decide (n < sh)).
    + rewrite !(Z.testbit_neg_r _ (n - sh)) by lia. cbn. by rewrite andb_true_r, orb_false_r.
    + rewrite Z.ones_spec_high by lia. rewrite <-(Z.mod_small val (2 ^ m)) by lia. rewrite Z.mod_pow2_bits_high by lia. cbn. by rewrite andb_true_r, orb_false_r.
Qed.

Lemma merge_bits mask new old n : 0 <= n → Z.testbit (merge mask new old) n = if Z.testbit mask n then Z.testbit new n else Z.testbit old n.
Proof.
  intros Hn. unfold merge. rewrite Z.lor_spec, !Z.land_spec, Z.lnot_spec by done. destruct (Z.testbit mask n), (Z.testbit new n), (Z.testbit old n); done.
Qed.

Lemma latch_bits mask clear new old n : 0 <= n →
  Z.testbit (latch mask clear new old) n =
    if Z.testbit mask n then Z.testbit new n else Z.testbit old n && negb (Z.testbit new n && Z.testbit clear n).
Proof. intros Hn. unfold latch. rewrite merge_bits by done. by rewrite Z.land_spec, Z.lnot_spec, Z.land_spec by done. Qed.

(** ** Addresses *)

Definition hw_devfn (bus dev_fn : Z) : Z := if bus =? 0 then PCI_DEVFN (PCI_SLOT dev_fn - 1) (PCI_FUNC dev_fn) else dev_fn.

Lemma devfn_table : all_below 256 (λ d, (hw_devfn 0 d <? 256) && (0 <=? hw_devfn 0 d) && (PCI_DEVFN (PCI_SLOT (hw_devfn 0 d) + 1) (PCI_FUNC (hw_devfn 0 d)) =? d)) = true.
Proof. vm_compute. reflexivity. Qed.

Lemma hw_devfn_range bus d : is_byte d → is_byte (hw_devfn bus d).
Proof.
  intros Hd. unfold hw_devfn. destruct (bus =? 0) eqn:E; [|done]. pose proof (all_bytes_spec _ devfn_table d Hd) as H. cbn beta in H.
  unfold hw_devfn in H. cbn [Z.eqb] in H. unfold is_byte. lia.
Qed.

Lemma hw_devfn_inj bus d d' : is_byte d → is_byte d' → hw_devfn bus d = hw_devfn bus d' → d = d'.
Proof.
  intros Hd Hd'. unfold hw_devfn at 1 2. destruct (bus =? 0) eqn:E; [|done]. intros H.
  pose proof (all_bytes_spec _ devfn_table d Hd) as H1. pose proof (all_bytes_spec _ devfn_table d' Hd') as H2. cbn beta in H1, H2.
  unfold hw_devfn in H1, H2. cbn [Z.eqb] in H1, H2. rewrite H in H1. lia.
Qed.

Lemma address_sum bus d i : is_byte bus → is_byte d → is_byte i → config_address bus d i = 2 ^ 31 + 2 ^ 16 * bus + 2 ^ 8 * hw_devfn bus d + 4 * (i / 4).
Proof.
  intros Hb Hd Hi. unfold config_address. fold (hw_devfn bus d). pose proof (hw_devfn_range bus d Hd) as Hh. unfold is_byte in *.
  set (h := hw_devfn bus d) in *. rewrite !Z.shiftl_mul_pow2 by lia.
  assert (E1 : Z.lor (bus * 2 ^ 16) (h * 2 ^ 8) = bus * 2 ^ 16 + h * 2 ^ 8) by (apply (lor_add _ _ 16); [lia|by exists bus|lia]).
  assert (E2 : Z.lor (bus * 2 ^ 16 + h * 2 ^ 8) (i / 4 * 2 ^ 2) = bus * 2 ^ 16 + h * 2 ^ 8 + i / 4 * 2 ^ 2).
  { apply (lor_add _ _ 8); [lia|exists (bus * 2 ^ 8 + h); lia|]. zdm. }
  rewrite E1, E2, Z.lor_comm, (lor_add _ _ 31); [|lia|by exists 1|zdm]. unfold u32. rewrite Z.mod_small by zdm. zdm.
Qed.

Lemma addr_inj dev dev' i i' :
  addr dev i = addr dev' i' → u8 (bus_number dev) = u8 (bus_number dev') ∧ u8 (devfn dev) = u8 (devfn dev') ∧ u8 i / 4 = u8 i' / 4.
Proof.
  unfold addr. assert (B : ∀ x, is_byte (u8 x)) by (intros x; apply Z.mod_pos_bound; lia). rewrite !address_sum by apply B.
  pose proof (hw_devfn_range (u8 (bus_number dev)) (u8 (devfn dev)) (B _)) as H1. pose proof (hw_devfn_range (u8 (bus_number dev')) (u8 (devfn dev')) (B _)) as H2.
  pose proof (B (bus_number dev)) as B1. pose proof (B (bus_number dev')) as B2. pose proof (B i) as B3. pose proof (B i') as B4. unfold is_byte in *. intros H.
  assert (Eb : u8 (bus_number dev) = u8 (bus_number dev')) by zdm. assert (Eh : hw_devfn (u8 (bus_number dev)) (u8 (devfn dev)) = hw_devfn (u8 (bus_number dev')) (u8 (devfn dev'))) by zdm.
  split; [done|]. split; [|zdm]. rewrite Eb in Eh. by apply hw_devfn_inj in Eh; [|apply B..].
Qed.
