(* ===== verification/PciTheorems.v ===== *)
(** * Properties of the PCI bridge

    [config_refined]: what the registers of a device are as a memory of bytes;
    [status_cleared]: what a write of the command does to the status.
    [region_granted]: where a region that is handed out lies.  Then what a device is
    given at the start ([card_set_up]), and where the code does not do what it should:
    [overlap_granted], [window_left], [bridge_header]. *)

From Stdlib Require Import Sorted.
From S2P Require Import Prelude Pci.

Local Open Scope Z_scope.

(** ** Registers *)

Inductive cfg_op : Type := WriteByte (i v : Z) | WriteWord (i v : Z) | WriteDword (i v : Z).

Definition cfg_run (dev : pci_dev) (s : pci) (o : cfg_op) : pci :=
  match o with
  | WriteByte i v => snd (pl_pcibios_write_config_byte dev i v s)
  | WriteWord i v => snd (pl_pcibios_write_config_word dev i v s)
  | WriteDword i v => snd (pl_pcibios_write_config_dword dev i v s)
  end.

(** Where an operation writes, how many bytes, and which. *)
Definition op_at (o : cfg_op) : Z := match o with WriteByte i _ | WriteWord i _ | WriteDword i _ => i end.
Definition op_len (o : cfg_op) : Z := match o with WriteByte _ _ => 1 | WriteWord _ _ => 2 | WriteDword _ _ => 4 end.
Definition op_data (o : cfg_op) : Z := match o with WriteByte _ v | WriteWord _ v => v | WriteDword i v => trimmed i v end.

Definition op_fits (o : cfg_op) : Prop :=
  0 <= op_at o < 256 ∧ op_at o mod op_len o = 0 ∧ 0 <= match o with WriteByte _ v | WriteWord _ v | WriteDword _ v => v end < 2 ^ (8 * op_len o).

(** The same on bytes, of which only some bits can be written and some are cleared by a
    one.  The bytes of the double word that the operation does not name are written,
    too, with what they hold. *)
Definition op_byte (f : Z → Z) (o : cfg_op) (j : Z) : Z :=
  if decide (op_at o <= j < op_at o + op_len o) then Z.land (Z.shiftr (op_data o) (8 * (j - op_at o))) 0xff else f j.
Definition bytes_op (mask clear : Z → Z) (f : Z → Z) (o : cfg_op) (j : Z) : Z :=
  if decide (op_at o / 4 = j / 4) then latch (mask j) (clear j) (op_byte f o j) (f j) else f j.

Lemma trimmed_range i v : 0 <= v < 2 ^ 32 → 0 <= trimmed i v < 2 ^ 32.
Proof.
  intros Hv. unfold trimmed. destruct (_ && _ && _); [|done]. change PL_PCI_IO_MASK with (Z.ones 16). rewrite Z.land_ones by lia.
  pose proof (Z.mod_pos_bound v (2 ^ 16) ltac:(lia)). lia.
Qed.

(** Every operation is one write of a word. *)
Definition op_word (o : cfg_op) (w : Z) : Z :=
  match o with
  | WriteByte i v => Z.lor (Z.land w (not32 (Z.shiftl 0xff (byte_shift i)))) (Z.shiftl v (byte_shift i))
  | WriteWord i v => Z.lor (Z.land w (not32 (Z.shiftl 0xffff (byte_shift i)))) (Z.shiftl v (byte_shift i))
  | WriteDword i v => trimmed i v
  end.

Lemma cfg_run_stored dev o s : real dev = true → op_fits o → space (cfg_run dev s o) = stored (space s) (addr dev (op_at o)) (op_word o (reg_word (space s) dev (op_at o))).
Proof.
  intros Hr (Hi & Ha & _). destruct o as [i v|i v|i v]; cbn [op_at op_len cfg_run op_word] in *.
  - unfold pl_pcibios_write_config_byte. rewrite access_read by done. cbn [snd]. by rewrite access_write.
  - unfold pl_pcibios_write_config_word. change 1 with (Z.ones 1) at 1. rewrite Z.land_ones by lia. change (2 ^ 1) with 2. rewrite Ha. cbn [Z.eqb negb].
    rewrite access_read by done. cbn [snd]. by rewrite access_write.
  - unfold pl_pcibios_write_config_dword. change 3 with (Z.ones 2) at 1. rewrite Z.land_ones by lia. change (2 ^ 2) with 4. rewrite Ha. cbn [Z.eqb negb snd].
    by rewrite access_write.
Qed.

Lemma op_word_bits o w n : op_fits o → 0 <= n < 32 →
  Z.testbit (op_word o w) n = if decide (8 * (op_at o mod 4) <= n < 8 * (op_at o mod 4) + 8 * op_len o) then Z.testbit (op_data o) (n - 8 * (op_at o mod 4)) else Z.testbit w n.
Proof.
  intros (Hi & Ha & Hv) Hn. destruct o as [i v|i v|i v]; cbn [op_at op_len op_word op_data] in *.
  - rewrite shift_val by lia. change 0xff with (2 ^ 8 - 1). by rewrite field_bits by (try done; zdm).
  - rewrite shift_val by lia. change 0xffff with (2 ^ 16 - 1). by rewrite field_bits by (try done; zdm).
  - rewrite Ha, decide_True by lia. f_equal. lia.
Qed.

Lemma same_word dev i j : 0 <= i < 256 → 0 <= j < 256 → i / 4 = j / 4 → addr dev i = addr dev j.
Proof.
  intros Hi Hj H. assert (Ei : u8 i = i) by (apply Z.mod_small; lia). assert (Ej : u8 j = j) by (apply Z.mod_small; lia).
  unfold addr, config_address. by rewrite Ei, Ej, H.
Qed.

(** What a write does to a byte, of this and of other devices. *)
Lemma stored_word m dev i j data : 0 <= i < 256 → 0 <= j < 256 →
  reg_word (stored m (addr dev i) data) dev j =
    if decide (i / 4 = j / 4) then latch (bits_at m dev j) (clears_at m dev j) data (reg_word m dev j) else reg_word m dev j.
Proof.
  intros Hi Hj. unfold reg_word, bits_at, clears_at, stored. destruct (decide (i / 4 = j / 4)) as [E|E].
  - rewrite (same_word dev i j) by done. destruct (m !! addr dev j) as [r|] eqn:Er; [by rewrite lookup_insert_eq|rewrite Er].
    apply Z.bits_inj'. intros n Hn. rewrite latch_bits, !Z.bits_0, andb_false_r by done. by rewrite andb_true_r.
  - destruct (m !! addr dev i) as [r|]; [|done]. rewrite lookup_insert_ne; [done|]. intros (_ & _ & E')%addr_inj. apply E. unfold u8 in E'.
    by rewrite !Z.mod_small in E' by lia.
Qed.

Lemma op_byte_bits f m dev o j n : op_fits o → 0 <= j < 256 → 0 <= n < 8 → op_at o / 4 = j / 4 → f j = cfg_byte m dev j →
  Z.testbit (op_byte f o j) n = Z.testbit (op_word o (reg_word m dev (op_at o))) (8 * (j mod 4) + n).
Proof.
  intros Ho Hj Hn E Ef. pose proof Ho as (Hi & Ha & _). set (i := op_at o) in *.
  assert (Hlen : op_len o = 1 ∨ op_len o = 2 ∨ op_len o = 4) by (destruct o; auto).
  rewrite op_word_bits by (try done; zdm). unfold op_byte. fold i. destruct (decide (i <= j < i + op_len o)) as [Hr|Hr].
  - rewrite decide_True by (destruct Hlen as [H1|[H1|H1]]; rewrite H1 in *; zdm).
    change 0xff with (Z.ones 8). rewrite Z.land_spec, Z.ones_spec_low, andb_true_r, Z.shiftr_spec by lia. f_equal. zdm.
  - rewrite decide_False by (destruct Hlen as [H1|[H1|H1]]; rewrite H1 in *; zdm).
    rewrite Ef. unfold cfg_byte. rewrite byte_bits by lia. rewrite (proj2 (Z.leb_le 0 n)), (proj2 (Z.ltb_lt n 8)) by lia.
    unfold reg_word. by rewrite (same_word dev i j).
Qed.

Lemma high_byte x n : 8 <= n → Z.testbit (Z.land x 0xff) n = false.
Proof. intros Hn. change 0xff with (Z.ones 8). rewrite Z.land_spec, Z.ones_spec_high by lia. by rewrite andb_false_r. Qed.

Lemma stored_byte m dev o j :
  op_fits o → 0 <= j < 256 →
  cfg_byte (stored m (addr dev (op_at o)) (op_word o (reg_word m dev (op_at o)))) dev j = bytes_op (cfg_mask m dev) (cfg_clear m dev) (cfg_byte m dev) o j.
Proof.
  intros Ho Hj. pose proof Ho as (Hi & _). unfold bytes_op. unfold cfg_byte at 1. rewrite stored_word by done.
  destruct (decide (op_at o / 4 = j / 4)) as [E|E]; [|done]. apply Z.bits_inj'. intros n Hn. rewrite latch_bits by done. destruct (decide (n < 8)).
  - rewrite byte_bits by lia. rewrite (proj2 (Z.leb_le 0 n)), (proj2 (Z.ltb_lt n 8)) by lia. cbn [andb]. rewrite latch_bits by zdm.
    rewrite (op_byte_bits (cfg_byte m dev) m dev) by (try done; lia). unfold cfg_mask, cfg_clear, cfg_byte. rewrite !byte_bits by lia.
    by rewrite (proj2 (Z.leb_le 0 n)), (proj2 (Z.ltb_lt n 8)) by lia.
  - unfold cfg_mask, cfg_byte. by rewrite !high_byte by lia.
Qed.

Lemma stored_mask m a data dev j :
  cfg_mask (stored m a data) dev j = cfg_mask m dev j ∧ cfg_clear (stored m a data) dev j = cfg_clear m dev j.
Proof.
  unfold cfg_mask, cfg_clear, bits_at, clears_at, stored. destruct (m !! a) as [r|] eqn:E; [|done]. destruct (decide (a = addr dev j)) as [->|H].
  - by rewrite lookup_insert_eq, E.
  - by rewrite lookup_insert_ne.
Qed.

Definition other (dev dev' : pci_dev) : Prop := u8 (bus_number dev) ≠ u8 (bus_number dev') ∨ u8 (devfn dev) ≠ u8 (devfn dev').

Lemma stored_other m dev i data dev' j : other dev dev' → cfg_byte (stored m (addr dev i) data) dev' j = cfg_byte m dev' j.
Proof.
  intros Ho. unfold cfg_byte, reg_word, stored. destruct (m !! addr dev i) as [r|]; [|done]. rewrite lookup_insert_ne; [done|].
  intros (H1 & H2 & _)%addr_inj. by destruct Ho.
Qed.

Lemma bytes_op_ext mask mask' clear clear' f f' o j :
  mask j = mask' j → clear j = clear' j → f j = f' j → bytes_op mask clear f o j = bytes_op mask' clear' f' o j.
Proof. intros E1 E2 E3. unfold bytes_op, op_byte. by rewrite E1, E2, E3. Qed.

Lemma bytes_ops_ext mask mask' clear clear' ops f f' j :
  mask j = mask' j → clear j = clear' j → f j = f' j → foldl (bytes_op mask clear) f ops j = foldl (bytes_op mask' clear') f' ops j.
Proof. intros E1 E2. revert f f'. induction ops as [|o ops IH]; intros f f' Ef; [done|]. cbn [foldl]. apply IH. by apply bytes_op_ext. Qed.

Lemma word_bytes x : 0 <= x → Z.land x 0xffff = Z.land x 0xff + 2 ^ 8 * Z.land (Z.shiftr x 8) 0xff.
Proof.
  intros Hx. change 0xffff with (Z.ones 16). change 0xff with (Z.ones 8). rewrite !Z.land_ones, Z.shiftr_div_pow2 by lia.
  change (2 ^ 16) with (2 ^ 8 * 2 ^ 8). by rewrite Z.rem_mul_r by lia.
Qed.

Lemma next_byte m dev j : 0 <= j < 255 → j mod 2 = 0 → cfg_byte m dev (j + 1) = Z.land (Z.shiftr (Z.shiftr (reg_word m dev j) (byte_shift j)) 8) 0xff.
Proof.
  intros Hj H2. unfold cfg_byte, reg_word. rewrite (same_word dev (j + 1) j) by (try lia; zdm). rewrite Z.shiftr_shiftr by lia.
  rewrite !shift_val by lia. do 2 f_equal. zdm.
Qed.

(** What a read gives. *)
Lemma read_byte dev j s : real dev = true → (pl_pcibios_read_config_byte dev j s).1 = (PCIBIOS_SUCCESSFUL, cfg_byte (space s) dev j).
Proof. intros H. unfold pl_pcibios_read_config_byte. by rewrite access_read. Qed.

Definition words_ok (m : gmap Z register) : Prop := map_Forall (λ _ r, 0 <= value r < 2 ^ 32 ∧ 0 <= writable_bits r < 2 ^ 32) m.

Lemma merge_range mask new old : 0 <= mask < 2 ^ 32 → 0 <= old < 2 ^ 32 → 0 <= merge mask new old < 2 ^ 32.
Proof.
  intros Hm Ho. assert (E : merge mask new old = merge mask new old mod 2 ^ 32); [|rewrite E; apply Z.mod_pos_bound; lia].
  apply Z.bits_inj'. intros n Hn. destruct (decide (n < 32)); [by rewrite Z.mod_pow2_bits_low by lia|]. rewrite Z.mod_pow2_bits_high, merge_bits by lia.
  rewrite <-(Z.mod_small mask (2 ^ 32)), <-(Z.mod_small old (2 ^ 32)) by lia. by rewrite !Z.mod_pow2_bits_high by lia.
Qed.

Lemma land_range old x : 0 <= old < 2 ^ 32 → 0 <= Z.land old x < 2 ^ 32.
Proof.
  intros Ho. assert (E : Z.land old x = Z.land old x mod 2 ^ 32); [|rewrite E; apply Z.mod_pos_bound; lia].
  apply Z.bits_inj'. intros n Hn. destruct (decide (n < 32)); [by rewrite Z.mod_pow2_bits_low by lia|]. rewrite Z.mod_pow2_bits_high, Z.land_spec by lia.
  rewrite <-(Z.mod_small old (2 ^ 32)) by lia. by rewrite Z.mod_pow2_bits_high by lia.
Qed.

Lemma words_ok_stored m a data : words_ok m → words_ok (stored m a data).
Proof.
  intros Hm. unfold stored. destruct (m !! a) as [r|] eqn:E; [|done]. destruct (Hm _ _ E) as [H1 H2].
  intros b x Hx. apply lookup_insert_Some in Hx as [[_ <-]|[_ Hx]]; [|by apply (Hm _ _ Hx)]. cbn. split; [|done]. apply merge_range; [done|].
  apply land_range; lia.
Qed.

Lemma word_at_range m dev j : words_ok m → 0 <= reg_word m dev j < 2 ^ 32.
Proof. intros H. unfold reg_word. destruct (m !! addr dev j) as [r|] eqn:E; [by apply (H _ _ E)|done]. Qed.

Lemma read_word dev j val s :
  real dev = true → words_ok (space s) → 0 <= j < 256 → j mod 2 = 0 →
  (pl_pcibios_read_config_word dev j val s).1 = (PCIBIOS_SUCCESSFUL, cfg_byte (space s) dev j + 2 ^ 8 * cfg_byte (space s) dev (j + 1)).
Proof.
  intros Hr Hw Hj H2. unfold pl_pcibios_read_config_word. change 1 with (Z.ones 1) at 1. rewrite Z.land_ones by lia. change (2 ^ 1) with 2. rewrite H2. cbn [Z.eqb negb].
  rewrite access_read by done. cbn [fst]. f_equal. rewrite next_byte by (try done; zdm). apply word_bytes. apply Z.shiftr_nonneg. by apply word_at_range.
Qed.

(** A word is its four bytes. *)
Lemma dword_bytes m dev j : words_ok m → 0 <= j < 256 → j mod 4 = 0 →
  reg_word m dev j = cfg_byte m dev j + 2 ^ 8 * cfg_byte m dev (j + 1) + 2 ^ 16 * cfg_byte m dev (j + 2) + 2 ^ 24 * cfg_byte m dev (j + 3).
Proof.
  intros Hw Hj H4. pose proof (word_at_range m dev j Hw) as Hv. unfold cfg_byte.
  assert (E : ∀ k, 0 <= k < 4 → reg_word m dev (j + k) = reg_word m dev j ∧ byte_shift (j + k) = 8 * k).
  { intros k Hk. split; [unfold reg_word; by rewrite (same_word dev (j + k) j) by (try lia; zdm)|]. rewrite shift_val by lia. zdm. }
  destruct (E 1 ltac:(lia)) as [-> ->]. destruct (E 2 ltac:(lia)) as [-> ->]. destruct (E 3 ltac:(lia)) as [-> ->].
  rewrite shift_val, H4 by lia. set (w := reg_word m dev j) in *. change 0xff with (Z.ones 8). rewrite !Z.land_ones, !Z.shiftr_div_pow2 by lia. zdm.
Qed.

(** C27 (refinement): what the registers of a device on the bus are as a memory of bytes.
    However bytes, words and double words are written, each byte ends as the abstract
    writes leave it: a byte that is written takes the new value in the bits that can be
    written and loses the bits that a one clears; since the bridge only moves double
    words, the other bytes of the double word are written back with what they held, so
    that they keep it but for the bits that a one clears, which are lost where they are
    set; no other byte and no register of another device changes; and bytes and words
    are read as they are there.  A double word for a base register of ports is cut to
    16 bits before it is written.  The host bridge and the USB controller, which
    software makes up, are no such devices and take no writes. *)
Theorem config_refined (dev : pci_dev) (ops : list cfg_op) (s : pci) :
  real dev = true → words_ok (space s) → Forall op_fits ops →
  let s' := foldl (cfg_run dev) s ops in
  (∀ j, 0 <= j < 256 → (pl_pcibios_read_config_byte dev j s').1 = (PCIBIOS_SUCCESSFUL, foldl (bytes_op (cfg_mask (space s) dev) (cfg_clear (space s) dev)) (cfg_byte (space s) dev) ops j)) ∧
  (∀ j val, 0 <= j < 256 → j mod 2 = 0 →
    (pl_pcibios_read_config_word dev j val s').1 = (PCIBIOS_SUCCESSFUL, cfg_byte (space s') dev j + 2 ^ 8 * cfg_byte (space s') dev (j + 1))) ∧
  (∀ dev' j, other dev dev' → cfg_byte (space s') dev' j = cfg_byte (space s) dev' j).
Proof.
  intros Hr Hw Hf s'.
  assert (H : ∀ j, 0 <= j < 256 → cfg_byte (space s') dev j = foldl (bytes_op (cfg_mask (space s) dev) (cfg_clear (space s) dev)) (cfg_byte (space s) dev) ops j).
  { subst s'. intros j Hj. clear Hw. revert s. induction Hf as [|o ops Ho _ IH]; intros s; [done|]. cbn [foldl]. rewrite IH. pose proof (cfg_run_stored dev o s Hr Ho) as E.
    apply bytes_ops_ext; [rewrite E; apply stored_mask..|]. rewrite E. by apply stored_byte. }
  split; [intros j Hj; rewrite read_byte, H; done|]. split.
  { intros j val Hj H2. apply read_word; [done| |done|done]. subst s'. clear H. revert s Hw. induction Hf as [|o ops Ho _ IH]; intros s Hw; [done|].
    cbn [foldl]. apply IH. rewrite cfg_run_stored by done. by apply words_ok_stored. }
  subst s'. clear H Hw. intros dev' j Ho. revert s. induction Hf as [|o ops Hfo _ IH]; intros s; [done|]. cbn [foldl]. rewrite IH, cfg_run_stored by done. by apply stored_other.
Qed.

(** ** A card *)

(** A network card in slot 1: 256 ports, 4 KB of memory, interrupt pin A. *)
Definition card : pci_dev := mk_dev 0 8 1 0.
Definition card_space : gmap Z register :=
  list_to_map [(addr card 0x00, mk_register 0x8139180d 0 0); (addr card 0x04, mk_register 0x02900000 0xffff 0xf9000000); (addr card 0x08, mk_register 0x02000010 0 0);
               (addr card 0x0c, mk_register 0 0xffff 0); (addr card 0x10, mk_register 1 0xffffff00 0); (addr card 0x14, mk_register 0 0xfffff000 0);
               (addr card 0x18, mk_register 0 0 0); (addr card 0x1c, mk_register 0 0 0); (addr card 0x20, mk_register 0 0 0); (addr card 0x24, mk_register 0 0 0);
               (addr card 0x30, mk_register 0 0 0); (addr card 0x3c, mk_register 0x20080100 0xff 0)].

Lemma card_words : words_ok card_space.
Proof.
  intros a r H. apply elem_of_list_to_map_2 in H. revert H. apply Forall_forall with (P := λ p : Z * register, 0 <= value p.2 < 2 ^ 32 ∧ 0 <= writable_bits p.2 < 2 ^ 32) (x := (a, r)).
  repeat (constructor; [cbn; lia|]). constructor.
Qed.

(** The interrupt line, the latency and the command are written as bytes and a word. *)
Lemma config_refined_witness :
  let s' := foldl (cfg_run card) (pci_init card_space) [WriteByte 0x3c 10; WriteByte 0x0d 32; WriteWord 0x04 7] in
  (pl_pcibios_read_config_byte card 0x0d s').1 = (0, 32) ∧ (pl_pcibios_read_config_byte card 0x3d s').1 = (0, 1) ∧
  (pl_pcibios_read_config_word card 0x04 0 s').1 = (0, 7).
Proof.
  destruct (config_refined card [WriteByte 0x3c 10; WriteByte 0x0d 32; WriteWord 0x04 7] (pci_init card_space) eq_refl card_words
    ltac:(repeat constructor; cbn; lia)) as (H1 & H2 & _).
  split; [rewrite (H1 0x0d ltac:(lia)); vm_compute; reflexivity|]. split; [rewrite (H1 0x3d ltac:(lia)); vm_compute; reflexivity|].
  rewrite (H2 0x04 0 ltac:(lia) eq_refl). vm_compute. reflexivity.
Defined.

(** Writing the command as a word writes back the status: what it has
    reported and nobody has read is cleared. *)
Lemma status_cleared dev s j v :
  real dev = true → 0 <= v < 2 ^ 16 → j = PCI_STATUS ∨ j = PCI_STATUS + 1 →
  cfg_byte (space (snd (pl_pcibios_write_config_word dev PCI_COMMAND v s))) dev j =
    latch (cfg_mask (space s) dev j) (cfg_clear (space s) dev j) (cfg_byte (space s) dev j) (cfg_byte (space s) dev j).
Proof.
  intros Hr Hv Hj. assert (Ho : op_fits (WriteWord PCI_COMMAND v)) by (unfold op_fits, PCI_COMMAND; cbn [op_at op_len]; split_and!; (lia || reflexivity)).
  pose proof (cfg_run_stored dev (WriteWord PCI_COMMAND v) s Hr Ho) as E. cbn [cfg_run] in E. rewrite E. unfold PCI_STATUS in Hj.
  rewrite stored_byte by (done || lia). unfold bytes_op, op_byte, PCI_COMMAND. cbn [op_at op_len].
  rewrite decide_True by (destruct Hj as [->| ->]; reflexivity). by rewrite decide_False by lia.
Qed.

(** A card that has seen a parity error: writing the command clears the report. *)
Lemma parity_report_lost :
  let s := mk_pci 0 {[addr card 0x04 := mk_register 0x82900000 0xffff 0xf9000000]} false 2 [] [] in
  (pl_pcibios_read_config_word card PCI_STATUS 0 s).1 = (0, 0x8290) ∧
  (pl_pcibios_read_config_word card PCI_STATUS 0 (snd (pl_pcibios_write_config_word card PCI_COMMAND 7 s))).1 = (0, 0x0290).
Proof. split; vm_compute; reflexivity. Qed.

(** ** Regions *)

(** The next start, with the size of a region less one as alignment. *)
Lemma land_ones_shift x k : 0 <= x < 2 ^ 32 → 0 <= k <= 32 → Z.land x (Z.shiftl (Z.ones (32 - k)) k) = x / 2 ^ k * 2 ^ k.
Proof.
  intros Hx Hk. apply Z.bits_inj'. intros n Hn. rewrite Z.land_spec, Z.shiftl_spec by done. destruct (decide (n < k)).
  - rewrite Z.mul_pow2_bits_low, (Z.testbit_neg_r _ (n - k)), andb_false_r by lia. done.
  - rewrite Z.mul_pow2_bits, Z.div_pow2_bits by lia. replace (n - k + k) with n by lia. destruct (decide (n < 32)).
    + rewrite Z.ones_spec_low, andb_true_r by lia. done.
    + rewrite <-(Z.mod_small x (2 ^ 32)), Z.mod_pow2_bits_high by lia. done.
Qed.

Lemma next_start e k : 1 <= k <= 31 → 0 <= e → e + 2 ^ k <= 2 ^ 32 →
  let st := Z.land (u32 (e + (2 ^ k - 1))) (u32 (- (2 ^ k - 1))) in e < st <= e + 2 ^ k ∧ st mod 2 ^ k <= 1.
Proof.
  intros Hk He Hb. assert (Hp : 2 <= 2 ^ k) by (change 2 with (2 ^ 1) at 1; apply Z.pow_le_mono_r; lia).
  assert (Hq : 2 ^ k <= 2 ^ 31) by (apply Z.pow_le_mono_r; lia).
  assert (E1 : u32 (e + (2 ^ k - 1)) = e + (2 ^ k - 1)) by (apply Z.mod_small; lia).
  assert (E2 : u32 (- (2 ^ k - 1)) = Z.lor (Z.shiftl (Z.ones (32 - k)) k) 1).
  { unfold u32. rewrite <-(Z_mod_plus_full _ 1), Z.mod_small by lia. rewrite Z.shiftl_mul_pow2, Z.ones_equiv by lia.
    rewrite (lor_add _ _ k); [|lia|by eexists|lia]. assert (2 ^ (32 - k) * 2 ^ k = 2 ^ 32) by (rewrite <-Z.pow_add_r by lia; f_equal; lia). lia. }
  rewrite E1, E2, Z.land_lor_distr_r, land_ones_shift by lia. change 1 with (Z.ones 1) at 3. rewrite Z.land_ones by lia. change (2 ^ 1) with 2.
  set (x := e + (2 ^ k - 1)). rewrite (lor_add _ _ k); [|lia|by eexists|pose proof (Z.mod_pos_bound x 2); lia].
  pose proof (Z.div_mod x (2 ^ k) ltac:(lia)) as Hd. pose proof (Z.mod_pos_bound x (2 ^ k) ltac:(lia)) as Hm. pose proof (Z.mod_pos_bound x 2 ltac:(lia)) as H2.
  assert (Hodd : x mod 2 ^ k = 2 ^ k - 1 → x mod 2 = 1).
  { intros H. rewrite Hd, H. replace (2 ^ k) with (2 * 2 ^ (k - 1)) by (rewrite <-(Z.pow_succ_r 2 (k - 1)) by lia; f_equal; lia). zdm. }
  split; [split|].
  - destruct (decide (x mod 2 ^ k = 2 ^ k - 1)) as [Hx|Hx]; [specialize (Hodd Hx)|]; unfold x in *; lia.
  - assert (x mod 2 <= x mod 2 ^ k ∨ x mod 2 <= 1) by (right; lia). unfold x in *. lia.
  - rewrite Z.add_comm, Z.mod_add, Z.mod_small by lia. lia.
Qed.

(** Regions of a parent: in it, in order, and apart. *)
Definition kids_ok (parent : resource) (kids : list resource) : Prop :=
  Forall (λ t, start parent <= start t <= end_ t ∧ end_ t <= end_ parent) kids ∧ StronglySorted (λ a b, end_ a < start b) kids.

Definition inside (t r : resource) : Prop := start r < start t ∧ end_ t < end_ r.

(** The region [r] of [2 ^ k] addresses among the others. *)
Definition granted (parent : resource) (k : Z) (kids : list resource) (r : resource) (kids' : list resource) : Prop :=
  start parent <= start r ∧ end_ r = start r + (2 ^ k - 1) ∧ end_ r <= end_ parent ∧ start r mod 2 ^ k <= 1 ∧
  ∃ l1 l2, kids = l1 ++ l2 ∧ kids' = l1 ++ r :: l2 ∧ Forall (λ t, end_ t < start r ∨ inside t r) l1 ∧ Forall (λ t, end_ r < start t) l2.

Lemma sorted_after l1 (tmp : resource) l2 : StronglySorted (λ a b, end_ a < start b) (l1 ++ tmp :: l2) → Forall (λ t, end_ t < start tmp) l1 ∧ Forall (λ t, end_ tmp < start t) l2.
Proof.
  induction l1 as [|t l1 IH]; cbn; intros H; apply StronglySorted_inv in H as [H1 H2].
  - by split.
  - destruct (IH H1) as [A B]. split; [|done]. constructor; [|done]. apply Forall_app in H2 as [_ H2]. by apply Forall_cons in H2 as [? _].
Qed.

Lemma walk_granted parent k before after st r kids' :
  1 <= k <= 31 → 0 <= start parent → end_ parent + 2 * 2 ^ k <= 2 ^ 32 → kids_ok parent (rev before ++ after) →
  Forall (λ t, end_ t < st ∨ st < start t ∧ end_ t < st + (2 ^ k - 1)) before → start parent <= st → st mod 2 ^ k <= 1 →
  request_walk false (end_ parent) (2 ^ k - 1) (2 ^ k - 1) (mk_res st (st + (2 ^ k - 1))) before after = Some (r, kids') →
  granted parent k (rev before ++ after) r kids'.
Proof.
  intros Hk H0 Hb. revert before st. induction after as [|tmp after IH]; intros before st Hkids Hbef Hst Hmod; cbn [request_walk end_ start].
  - destruct (Z.leb_spec (st + (2 ^ k - 1)) (end_ parent)); [|done]. intros [= <- <-]. split; [done|]. split; [done|]. split; [done|]. split; [done|].
    exists (rev before), []. split; [done|]. split; [done|]. split; [by apply Forall_rev|done].
  - destruct (Z.leb_spec (st + (2 ^ k - 1)) (end_ parent)); [|done]. pose proof Hkids as [Hin Hs]. destruct (sorted_after _ _ _ Hs) as [Sb Sa].
    pose proof (proj2 (proj1 (Forall_app _ _ _) Hin)) as Htmp. apply Forall_cons in Htmp as [Htmp _].
    assert (Hnext : rev before ++ tmp :: after = rev (tmp :: before) ++ after) by (cbn; by rewrite <-app_assoc).
    destruct (Z.ltb_spec (st + (2 ^ k - 1)) (start tmp)).
    + intros [= <- <-]. split; [done|]. split; [done|]. split; [done|]. split; [done|]. exists (rev before), (tmp :: after). split; [done|]. split; [done|].
      split; [by apply Forall_rev|]. constructor; [done|]. eapply Forall_impl; [exact Sa|]. cbn. intros t Ht. lia.
    + destruct (in_region st tmp || in_region (st + (2 ^ k - 1)) tmp) eqn:Hov.
      * destruct (next_start (end_ tmp) k Hk ltac:(lia) ltac:(lia)) as [Hnew Hm]. cbn zeta in *.
        set (st1 := Z.land _ _) in *. assert (E : u32 (st1 + (2 ^ k - 1)) = st1 + (2 ^ k - 1)) by (apply Z.mod_small; lia). rewrite E.
        rewrite Hnext. intros Hw. apply (IH (tmp :: before) st1); [by rewrite <-Hnext| |lia|done|done].
        constructor; [lia|]. apply Forall_rev in Sb. rewrite rev_involutive in Sb. eapply Forall_impl; [exact Sb|]. cbn. intros t Ht. lia.
      * unfold in_region in Hov. rewrite Hnext. intros Hw. apply (IH (tmp :: before) st); [by rewrite <-Hnext| |done|done|done].
        constructor; [|done]. apply orb_false_iff in Hov as [O1 O2]. lia.
Qed.

(** C37 (safety): a region of [2 ^ k] addresses, asked for without a start, that is handed
    out among regions of the parent that are apart, from a window that begins at a
    multiple of its size and ends two sizes below 4 GB at least, lies in its parent, is
    as large as asked for and aligned, but for one, and is put in the list of them; it
    does not meet a region that was there, unless that region lies within it; and when
    none does, the regions are apart again.  (A region around another is handed out,
    [overlap_granted], and then they are not.) *)
Theorem region_granted (parent : resource) (k : Z) (kids : list resource) (r : resource) (kids' : list resource) :
  1 <= k <= 31 → 0 <= start parent → start parent mod 2 ^ k = 0 → end_ parent + 2 * 2 ^ k <= 2 ^ 32 → kids_ok parent kids →
  start parent + 2 ^ k <= 2 ^ 32 →
  myrequest_region parent kids 0 (2 ^ k - 1) (2 ^ k - 1) = Some (r, kids') →
  granted parent k kids r kids' ∧ (Forall (λ t, ¬ inside t r) kids → kids_ok parent kids').
Proof.
  intros Hk H0 Ha Hb Hkids Hp. unfold myrequest_region. cbn [Z.eqb negb]. assert (E : u32 (start parent + (2 ^ k - 1)) = start parent + (2 ^ k - 1)) by (apply Z.mod_small; lia).
  rewrite E. destruct ((_ <? _) || _); [done|]. intros Hw.
  assert (G : granted parent k kids r kids') by (apply (walk_granted parent k [] kids (start parent)); try done; lia). split; [done|].
  intros Hnin. destruct G as (G1 & G2 & G3 & _ & l1 & l2 & -> & -> & F1 & F2). destruct Hkids as [Hin Hs]. apply Forall_app in Hin as [I1 I2].
  split; [apply Forall_app; split; [done|]; constructor; [|done]; pose proof (Z.pow_pos_nonneg 2 k); lia|].
  apply Forall_app in Hnin as [N1 _]. clear -F1 F2 N1 Hs. revert Hs. induction l1 as [|t l1 IH]; cbn; intros Hs.
  - constructor; done.
  - apply StronglySorted_inv in Hs as [Hs Ht]. apply Forall_cons in F1 as [F1 F1']. apply Forall_cons in N1 as [N1 N1']. constructor; [by apply IH|].
    apply Forall_app in Ht as [T1 T2]. apply Forall_app. split; [done|]. constructor; [by destruct F1|done].
Qed.

Lemma region_granted_witness :
  ∃ kids', myrequest_region (slot_res 0) [mk_res 0x1a000000 0x1a0000ff] 0 0xfff 0xfff = Some (mk_res 0x1a001000 0x1a001fff, kids') ∧ kids_ok (slot_res 0) kids'.
Proof.
  destruct (myrequest_region (slot_res 0) [mk_res 0x1a000000 0x1a0000ff] 0 (2 ^ 12 - 1) (2 ^ 12 - 1)) as [[r kids']|] eqn:E; [|discriminate].
  destruct (region_granted (slot_res 0) 12 [mk_res 0x1a000000 0x1a0000ff] r kids' ltac:(lia) ltac:(done) eq_refl ltac:(done)
    ltac:(split; [constructor; [cbn; unfold PL_PCI_MEM_START, PL_PCI_MEM_END; lia|constructor]|repeat constructor]) ltac:(done) E) as (_ & H).
  vm_compute in E. injection E as <- <-. exists [mk_res 0x1a000000 0x1a0000ff; mk_res 0x1a001000 0x1a001fff].
  split; [vm_compute; reflexivity|]. apply H. constructor; [|constructor]. intros [H1 _]. cbn in H1. lia.
Defined.

(** ** What the start does *)

(** The card has its ports and its memory, answers to both, and interrupts on line 4. *)
Lemma card_set_up :
  match pl_pcibios_scan (pci_init card_space) with
  | Done s => map (reg_word (space s) card) [0x10; 0x14; 0x3c] = [0x0001; 0x1a000000; 0x20080104] ∧
              (pl_pcibios_read_config_word card PCI_COMMAND 0 s).1 = (0, 3) ∧
              io_children s = [mk_res 0x1b800000 0x1b8000ff; mk_res 0x1b800cf0 0x1b800d00]
  | Fault => False
  end.
Proof. vm_compute. done. Qed.

(** A region around one that is there is handed out: the test looks only whether one of
    its ends lies in the other. *)
Lemma overlap_granted :
  ∃ kids', myrequest_region (slot_res 1) [mk_res 0x1b800cf0 0x1b800d00] 0 0xfff 0xfff = Some (mk_res 0x1b800000 0x1b800fff, kids').
Proof. eexists. vm_compute. reflexivity. Qed.

(** The end of the ports and of the memory is a virtual address, their start a physical
    one, so regions behind the 4 KB of ports are handed out. *)
Lemma window_left :
  ∃ kids', myrequest_region (slot_res 1) [mk_res 0x1b800000 0x1b800fff] 0 0xff 0xff = Some (mk_res 0x1b801000 0x1b8010ff, kids').
Proof. eexists. vm_compute. reflexivity. Qed.

(** The values of the host bridge are not shifted to their place in the word, but the
    functions that read shift them back. *)
Lemma bridge_header s :
  (pl_pcibios_read_config_byte (mk_dev 0 0 0 0) PCI_HEADER_TYPE s).1 = (0, 0) ∧ host_bridge PCI_HEADER_TYPE = PCI_HEADER_TYPE_BRIDGE.
Proof. done. Qed.

(** The interrupts of the slots go round the four lines. *)
Lemma irq_swizzled slot pin : 1 <= slot < 32 → 1 <= pin <= 4 → u8 (Z.rem ((slot - 1) + (pin - 1)) 4 + IRQ_PL_PCI_DEV0) = 4 + (slot + pin - 2) mod 4.
Proof.
  intros Hs Hp. rewrite Z.rem_mod_nonneg by lia. unfold IRQ_PL_PCI_DEV0, u8. rewrite Z.mod_small by zdm. replace (slot - 1 + (pin - 1)) with (slot + pin - 2) by lia. lia.
Qed.
